(* ===== verification/_CoqProject ===== *)
-Q . S2P
Prelude.v
Pmm.v
Vmm.v
Heap.v
Kmem.v
UserMem.v
Elf.v
Vm.v
VmRun.v
Kstring.v
Path.v
Newc.v
Ata.v
Npkfs.v
Procfs.v
Keyboard.v
Font.v
Gop.v
Console.v
Vfs.v
VfsPipe.v
VfsRefs.v
VfsClose.v
VfsOps.v
VfsRun.v
DeviceConfig.v
DeviceManager.v
Proc.v
ProcMem.v
Signal.v
Futex.v
ProcStep.v
Sched.v
ProcInv.v
ProcRun.v
ProcLife.v
Exec.v
ExecStack.v
ProcReach.v
Kernel.v
KernelExec.v
KernelMem.v
KernelRun.v
Syscall.v
SysInv.v
SysRefs.v
SysRun.v
