(* ===== verification/Prelude.v ===== *)
(** * NPKernel verification library

    A model of NPKernel, an x86-64 kernel with user processes, and proofs that
    its parts do what they promise.  Definitions follow the C code function by
    function and keep its names; they are executable, so that the witnesses run
    them.

    ** The program

    The kernel manages frames (pmm.c), page tables (vmm.c) and a heap (heap.c).
    On these rest the virtual memory areas of a process (vm.c), the ELF loader
    (elf.c) and the file system (vfs.c: descriptors, pipes, epoll, shared
    memory, the archive of the boot image, a persistent file system on an ATA
    disk, procfs).  process.c holds processes, threads, signals, futexes and
    the scheduler, and replaces program images; it calls all the others.
    keyboard.c queues what is typed; gop.c, font.c and console.c paint text into
    the framebuffer; device_config.c reads the catalogue of devices through the
    file system and device_manager.c binds drivers to devices with it.  syscall.c
    serves programs: every call goes through its dispatcher to the parts above.

    ** The files

    - Prelude.v: machine integers, arrays, loops, record update, tactics, hints.
    - Pmm.v (src/src/memory/pmm.c): the bitmap of frames and their references.
    - Vmm.v (src/src/memory/vmm.c): four-level page tables in a word-addressed
      physical memory; [tbl] and [pte] are the walk, [aspace_wf] the tables in
      order.  UserMem.v adds the bytes a program sees ([ubyte]) and what
      mapping, writing and copy on write do to them.
    - Heap.v (src/src/memory/heap.c): the block list.  Kmem.v: heap, page
      tables and bytes of physical memory as one state.
    - Vm.v, VmRun.v (src/src/memory/vm.c): areas, faults; [VmOps] is what they
      use of the kernel.
    - Elf.v (src/src/exec/elf.c): validation and loading; reading outside of
      the image is [None].
    - Kstring.v (src/src/string.c), Path.v, Newc.v, Npkfs.v, Procfs.v, Ata.v:
      strings, paths, the archive (and the tool that writes it), the persistent
      file system, procfs, the request layer of the disk.
    - Keyboard.v (src/src/drivers/keyboard.c), Font.v, Gop.v, Console.v
      (src/src/drivers/font.c, gop.c, src/src/console.c): scan codes, USB key
      events and the queues; glyphs, framebuffer, terminal.
    - Vfs.v (src/src/fs/vfs.c): the descriptor table over [VfsEnv]; VfsPipe.v,
      VfsRefs.v, VfsClose.v, VfsOps.v, VfsRun.v: its theorems.
    - DeviceConfig.v, DeviceManager.v (src/src/device): the JSON parser and the
      catalogue; registration and binding, with the probe functions of drivers
      as an argument.
    - Proc.v (src/src/proc/process.c, the user copies of vmm.c, the frames of
      src/arch/x86_64/entry.asm): the tables of processes, threads and futex
      waiters over [VmOps] and [ProcOps]; Exec.v: loading a program over
      [ExecOps].  A call that leaves for another thread returns a [transfer].
      ProcMem.v, Signal.v, Futex.v, ProcStep.v, Sched.v, ProcInv.v, ProcRun.v,
      ProcLife.v, ExecStack.v, ProcReach.v: their theorems.
    - Kernel.v (src/src/arch/timer.c), KernelExec.v: the parts put together; they discharge [VfsEnv], [VmOps],
      [ProcOps] and [ExecOps] and the laws the theorems assume of them.
      KernelMem.v: user copies down to physical memory.  KernelRun.v: a booted
      machine on which the theorems about processes are evaluated.
    - Syscall.v (src/src/syscall/syscall.c): a monad over the state [sys] whose
      computations end with a value, an answer to the program, or the processor
      given away; one definition per handler, the terminal's line editing, the
      dispatcher and its assembly bridge.  SysInv.v, SysRefs.v: a logic of
      triples for it and the invariants of all calls.  SysRun.v: calls evaluated
      on the machine of KernelRun.v.

    ** What the theorems show

    - Frames, tables, heap: allocation returns unused memory and changes nothing
      else; mapping is the update of a partial map; the structures stay in
      order in every reachable state.
    - Areas: mapping, protecting and unmapping change exactly their range, also
      when areas split; areas stay disjoint and never writable and executable;
      file handles are counted.
    - User memory: copies to and from a program go through demand paging and
      copy on write, arrive unchanged, and on an error stop after a prefix; a
      new address space is empty; a new program finds its arguments.
    - ELF and archive: no read outside of the image, only disjoint W^X segments
      are accepted; the kernel reads back what the build tool packs.
    - File system: paths normalise; a commit interrupted anywhere leaves the old
      or the new metadata; references of descriptors are exact, closing
      terminates and leaks nothing without epoll cycles; a pipe is a byte
      stream.
    - Processes: the tables are well formed in every reachable state; signals
      are delivered in order and return to the interrupted code; futexes wake
      the right threads; a runnable thread is chosen within 256 switches.
    - Input and output: the queues of keys are bounded first-in first-out
      queues; printing UTF-8 text paints the pixels of an abstract terminal on
      which it is typed, and nothing while a program owns the display.
    - Devices: the parser accepts the text of every catalogue, keeps only valid
      ones and closes its file; every device is bound to a driver that matches
      and accepted it, or all that match were tried.
    - System calls: no call breaks the tables of processes; registers come back
      unchanged; after a call on files every reference the VFS counts has a
      holder, and every holder a reference.

    ** Bounds and fuel

    Loops over arrays run over their extent.  The heap walk has one round per
    block; [MMAP_ROUNDS] is the number of pages of the window; a walk over the
    areas has two rounds more than areas; user copies have one round per byte
    and move at least one; closing a descriptor has one round per reference;
    [YIELD_FUEL] exceeds the number of processes that a yield can end; skipping
    a JSON value has three rounds per byte.  Each of these is proved to be enough
    where a theorem says that the call returns.  System calls that wait take the
    number of waits as an argument, together with what the machine does
    meanwhile ([idle], [usb_poll]), and end in [Waiting] when it is used up: how
    long they wait is up to the user and the devices, and the theorems hold for
    every such number.

    ** Not modelled

    Device I/O (ports, memory-mapped registers, xHCI and USB transfers, PCI,
    ACPI, the mouse, PIC and PIT programming, SMP start), the assembly stubs
    except for the order of the registers they save, log messages, the boot
    loader's header, and user programs: their behaviour is that of the device or
    of another program.  Interrupts are taken between operations, as
    the kernel runs with interrupts off inside them.  The FPU state, the TSS and
    the MSRs are not part of the thread state.  Memory the C code reaches
    through stale pointers is not modelled: an object that has been freed is
    gone. *)

From Stdlib Require Import ZArith Lia Bool ZifyBool.
From stdpp Require Import base numbers list gmap.

#[global] Open Scope Z_scope.

(** ** Machine integers

    A w-bit unsigned C value is a [Z] in [0, 2^w); arithmetic that can leave
    the range is wrapped explicitly by [u64], [u32], [u16] or [u8]. *)

Definition UINT64_MAX : Z := 18446744073709551615.
Definition UINT32_MAX : Z := 4294967295.
Definition INT64_MAX : Z := 9223372036854775807.
Definition INT64_MIN : Z := -9223372036854775808.

Definition u64 (x : Z) : Z := x mod 18446744073709551616.
Definition u32 (x : Z) : Z := x mod 4294967296.
Definition u16 (x : Z) : Z := x mod 65536.
Definition u8 (x : Z) : Z := x mod 256.
(** The two's complement reading of a 64-bit, a 32-bit value. *)
Definition i64 (x : Z) : Z := if u64 x <=? INT64_MAX then u64 x else u64 x - 18446744073709551616.
Definition i32 (x : Z) : Z := if u32 x <=? 2147483647 then u32 x else u32 x - 4294967296.
(** [~x] on uint64_t. *)
Definition not64 (x : Z) : Z := u64 (Z.lnot x).
(** [(flags & mask) != 0]. *)
Definition hasb (flags mask : Z) : bool := negb (Z.land flags mask =? 0).

Definition NPK_PAGE_SIZE : Z := 4096.

Definition in_u64 (x : Z) : Prop := 0 <= x < 18446744073709551616.

(** ** Arrays

    A C array of static extent: a default (what the last whole-array fill
    left there) and the cells written since. *)

Record arr (A : Type) := Arr { a_default : A; a_cells : gmap Z A }.
Arguments Arr {A} _ _.
Arguments a_default {A} _.
Arguments a_cells {A} _.

Definition aget {A} (a : arr A) (i : Z) : A := default (a_default a) (a_cells a !! i).
Definition aset {A} (a : arr A) (i : Z) (v : A) : arr A := Arr (a_default a) (<[i := v]> (a_cells a)).
Definition afill {A} (v : A) : arr A := Arr v ∅.

Declare Scope npk_scope.
Delimit Scope npk_scope with npk.
Notation "a .[ i ]" := (aget a i) (at level 1, left associativity, format "a .[ i ]") : npk_scope.
Notation "a .[ i <- v ]" := (aset a i v) (at level 1, left associativity, format "a .[ i  <-  v ]") : npk_scope.
#[global] Open Scope npk_scope.

(** ** Loops

    [first_some f i n] is [for (k = i; k < i + n; ++k) if f(k) return it]. *)

Fixpoint first_some {A} (f : Z -> option A) (i : Z) (n : nat) : option A :=
  match n with
  | O => None
  | S n' => match f i with Some x => Some x | None => first_some f (i + 1) n' end
  end.

Definition find_index (p : Z -> bool) (i : Z) (n : nat) : option Z :=
  first_some (fun k => if p k then Some k else None) i n.

(** [for (k = i; k < i + n; ++k) s = f(k, s)]. *)
Fixpoint for_range {S} (f : Z -> S -> S) (i : Z) (n : nat) (s : S) : S :=
  match n with
  | O => s
  | S n' => for_range f (i + 1) n' (f i s)
  end.

(** The same loop with an early exit: [inr r] leaves it. *)
Fixpoint for_break {S R} (f : Z -> S -> S + R) (i : Z) (n : nat) (s : S) : S + R :=
  match n with
  | O => inl s
  | S n' => match f i s with inl s' => for_break f (i + 1) n' s' | inr r => inr r end
  end.

(** A loop body that either continues with a new state or leaves the loop. *)
Fixpoint loop_nat {S R} (n : nat) (f : S -> S + R) (s : S) : S + R :=
  match n with
  | O => inl s
  | S n' => match f s with inl s' => loop_nat n' f s' | inr r => inr r end
  end.

(** The same loop with a binary bound, so that a large bound still evaluates. *)
Fixpoint loop_pos {S R} (p : positive) (f : S -> S + R) (s : S) : S + R :=
  match p with
  | xH => f s
  | xO q => match loop_pos q f s with inl s' => loop_pos q f s' | inr r => inr r end
  | xI q => match f s with
            | inl s' => match loop_pos q f s' with inl s'' => loop_pos q f s'' | inr r => inr r end
            | inr r => inr r
            end
  end.

(** The loop with early exit over code that may fault ([None]). *)
Fixpoint forM {S R} (f : Z -> S -> option (S + R)) (i : Z) (n : nat) (s : S) : option (S + R) :=
  match n with
  | O => Some (inl s)
  | S n' => match f i s with
            | Some (inl s') => forM f (i + 1) n' s'
            | Some (inr r) => Some (inr r)
            | None => None
            end
  end.

(** Number of [k] in [i, i + n) that satisfy [p]. *)
Fixpoint count_range (p : Z -> bool) (i : Z) (n : nat) : Z :=
  match n with
  | O => 0
  | S n' => (if p i then 1 else 0) + count_range p (i + 1) n'
  end.

(** ** Automation *)

(** Split every boolean guard of the goal and of the hypotheses. *)
Ltac split_ifs :=
  repeat match goal with
         | |- context [if ?b then _ else _] => destruct b eqn:?
         | H : context [if ?b then _ else _] |- _ => destruct b eqn:?
         end.

(** Case analysis on the outermost guard of the goal. *)
Tactic Notation "cif" ident(E) :=
  match goal with |- context [if ?b then _ else _] => destruct b eqn:E end.

Ltac zbool :=
  repeat match goal with
         | H : _ && _ = true |- _ => apply andb_true_iff in H; destruct H
         | H : _ || _ = false |- _ => apply orb_false_iff in H; destruct H
         | H : negb _ = true |- _ => apply negb_true_iff in H
         | H : negb _ = false |- _ => apply negb_false_iff in H
         | H : (_ <? _) = true |- _ => apply Z.ltb_lt in H
         | H : (_ <? _) = false |- _ => apply Z.ltb_ge in H
         | H : (_ <=? _) = true |- _ => apply Z.leb_le in H
         | H : (_ <=? _) = false |- _ => apply Z.leb_gt in H
         | H : (_ =? _) = true |- _ => apply Z.eqb_eq in H
         | H : (_ =? _) = false |- _ => apply Z.eqb_neq in H
         | H : (_ >? _) = true |- _ => rewrite Z.gtb_ltb in H
         | H : (_ >? _) = false |- _ => rewrite Z.gtb_ltb in H
         | H : (_ >=? _) = true |- _ => rewrite Z.geb_leb in H
         | H : (_ >=? _) = false |- _ => rewrite Z.geb_leb in H
         end.

(** Linear arithmetic with constant division and remainder. *)
Ltac mlia := Z.to_euclidean_division_equations; lia.

Create HintDb npk.
Create Rewrite HintDb npk.

(** ** Lemmas on arrays *)

Lemma aget_aset {A} (a : arr A) i j v : (aset a i v).[j] = if decide (i = j) then v else a.[j].
Proof. unfold aget, aset; simpl. rewrite lookup_insert. by case_decide. Qed.

Lemma aget_aset_eq {A} (a : arr A) i v : (aset a i v).[i] = v.
Proof. rewrite aget_aset. by case_decide. Qed.

Lemma aget_aset_ne {A} (a : arr A) i j v : i <> j -> (aset a i v).[j] = a.[j].
Proof. intros. rewrite aget_aset. by case_decide. Qed.

Lemma aget_afill {A} (v : A) i : (afill v).[i] = v.
Proof. done. Qed.

(** Two arrays with the same cells. *)
Definition aeq {A} (a b : arr A) : Prop := forall i, a.[i] = b.[i].

#[export] Instance aeq_equivalence {A} : Equivalence (@aeq A).
Proof.
  split; [intros a i; done | intros a b H i; by rewrite H | intros a b c H1 H2 i; by rewrite H1, H2].
Qed.

#[export] Instance aget_proper {A} : Proper (aeq ==> eq ==> eq) (@aget A).
Proof. intros a b H i ? <-. apply H. Qed.

#[export] Instance aset_proper {A} : Proper (aeq ==> eq ==> eq ==> aeq) (@aset A).
Proof. intros a b H i ? <- v ? <- j. rewrite !aget_aset. case_decide; auto. Qed.

Lemma aset_same {A} (a : arr A) i : aeq (a.[i <- a.[i]]) a.
Proof. intros j. rewrite aget_aset. case_decide; by subst. Qed.

#[export] Hint Rewrite @aget_aset_eq @aget_afill : npk.

(** ** Lemmas on loops *)

Lemma first_some_Some {A} (f : Z -> option A) n i x :
  first_some f i n = Some x ->
  exists k, i <= k < i + Z.of_nat n /\ f k = Some x /\ forall j, i <= j < k -> f j = None.
Proof.
  revert i; induction n as [|n IH]; intros i H; simpl in H; [done|].
  destruct (f i) eqn:E.
  - inv H. exists i. split; [lia|]. split; [done|]. intros; lia.
  - apply IH in H as (k & Hk & Hf & Hlt). exists k. split; [lia|]. split; [done|].
    intros j Hj. destruct (decide (j = i)) as [->|]; [done|]. apply Hlt; lia.
Qed.

Lemma first_some_None {A} (f : Z -> option A) n i :
  first_some f i n = None <-> forall j, i <= j < i + Z.of_nat n -> f j = None.
Proof.
  revert i; induction n as [|n IH]; intros i; simpl.
  - split; [intros; lia | done].
  - destruct (f i) eqn:E.
    + split; [done|]. intros H. rewrite H in E by lia. done.
    + rewrite IH. split; intros H j Hj.
      * destruct (decide (j = i)) as [->|]; [done|]. apply H; lia.
      * apply H; lia.
Qed.

Lemma first_some_least {A} (f : Z -> option A) n i k x :
  i <= k < i + Z.of_nat n -> f k = Some x -> (forall j, i <= j < k -> f j = None) ->
  first_some f i n = Some x.
Proof.
  revert i; induction n as [|n IH]; intros i Hk Hf Hlt; [lia|]; simpl.
  destruct (decide (k = i)) as [->|]; [by rewrite Hf|].
  rewrite (Hlt i) by lia. apply IH; [lia|done|]. intros; apply Hlt; lia.
Qed.

Lemma first_some_ext {A} (f g : Z -> option A) n i :
  (forall j, i <= j < i + Z.of_nat n -> f j = g j) -> first_some f i n = first_some g i n.
Proof.
  revert i; induction n as [|n IH]; intros i H; simpl; [done|].
  rewrite (H i) by lia. destruct (g i); [done|]. apply IH. intros; apply H; lia.
Qed.

Lemma first_some_shift {A} (f : Z -> option A) d i n :
  first_some f i n = first_some (fun k => f (k - d)) (i + d) n.
Proof.
  revert i; induction n as [|n IH]; intros i; simpl; [done|].
  replace (i + d - d) with i by lia. destruct (f i); [done|]. rewrite IH. f_equal. lia.
Qed.

Lemma first_some_app {A} (f : Z -> option A) n m i :
  first_some f i (n + m) =
  match first_some f i n with Some x => Some x | None => first_some f (i + Z.of_nat n) m end.
Proof.
  revert i; induction n as [|n IH]; intros i; simpl; [f_equal; lia|].
  destruct (f i); [done|]. rewrite IH. destruct (first_some f (i + 1) n); [done|]. f_equal. lia.
Qed.

(** A search chunk by chunk is the search over the whole range. *)
Lemma first_some_chunks {A} (f : Z -> option A) k n i :
  first_some (fun w => first_some f (w * Z.of_nat k) k) i n = first_some f (i * Z.of_nat k) (n * k).
Proof.
  revert i; induction n as [|n IH]; intros i; simpl; [done|].
  rewrite first_some_app. destruct (first_some f (i * Z.of_nat k) k); [done|].
  rewrite IH. f_equal. lia.
Qed.

Lemma find_index_Some p n i k :
  find_index p i n = Some k <->
  i <= k < i + Z.of_nat n /\ p k = true /\ forall j, i <= j < k -> p j = false.
Proof.
  unfold find_index. split.
  - intros H. apply first_some_Some in H as (k' & Hk & Hf & Hlt).
    destruct (p k') eqn:E; inv Hf. repeat split; [lia|lia|done|].
    intros j Hj. specialize (Hlt j Hj). by destruct (p j).
  - intros (Hk & Hp & Hlt). apply first_some_least with (k := k); [done|by rewrite Hp|].
    intros j Hj. by rewrite Hlt.
Qed.

Lemma find_index_None p n i :
  find_index p i n = None <-> forall j, i <= j < i + Z.of_nat n -> p j = false.
Proof.
  unfold find_index. rewrite first_some_None. split; intros H j Hj; specialize (H j Hj);
    destruct (p j); congruence.
Qed.

Lemma find_index_ext p q n i :
  (forall j, i <= j < i + Z.of_nat n -> p j = q j) -> find_index p i n = find_index q i n.
Proof.
  unfold find_index. revert i; induction n as [|n IH]; intros i H; simpl; [done|].
  rewrite (H i) by lia. destruct (q i); [done|]. apply IH. intros; apply H; lia.
Qed.

Lemma for_range_inv {S} (P : Z -> S -> Prop) (f : Z -> S -> S) n i s :
  P i s -> (forall k t, i <= k < i + Z.of_nat n -> P k t -> P (k + 1) (f k t)) ->
  P (i + Z.of_nat n) (for_range f i n s).
Proof.
  revert i s; induction n as [|n IH]; intros i s Hi Hstep; simpl.
  - by replace (i + Z.of_nat 0) with i by lia.
  - replace (i + Z.of_nat (Datatypes.S n)) with ((i + 1) + Z.of_nat n) by lia.
    apply IH; [apply Hstep; [lia|done]|]. intros; apply Hstep; [lia|done].
Qed.

Lemma for_range_app {S} (f : Z -> S -> S) n m i s :
  for_range f i (n + m) s = for_range f (i + Z.of_nat n) m (for_range f i n s).
Proof.
  revert i s; induction n as [|n IH]; intros i s; simpl.
  - f_equal. lia.
  - rewrite IH. f_equal. lia.
Qed.

Lemma for_break_inv {S R} (P : Z -> S -> Prop) (Q : R -> Prop) (f : Z -> S -> S + R) n i s :
  P i s ->
  (forall k t, i <= k < i + Z.of_nat n -> P k t ->
     match f k t with inl t' => P (k + 1) t' | inr r => Q r end) ->
  match for_break f i n s with inl t => P (i + Z.of_nat n) t | inr r => Q r end.
Proof.
  revert i s; induction n as [|n IH]; intros i s Hi Hstep; simpl.
  - by rewrite Z.add_0_r.
  - pose proof (Hstep i s ltac:(lia) Hi) as H. destruct (f i s) as [t|r]; [|done].
    specialize (IH (i + 1) t H). replace (i + Z.of_nat (Datatypes.S n)) with ((i + 1) + Z.of_nat n) by lia.
    apply IH. intros; apply Hstep; [lia|done].
Qed.

(** Two loops agree when their bodies do on every state the first one reaches. *)
Lemma for_break_ext {S R} (P : S -> Prop) (f g : Z -> S -> S + R) n i s :
  P s -> (forall k t, P t -> f k t = g k t /\ match f k t with inl t' => P t' | inr _ => True end) -> for_break f i n s = for_break g i n s.
Proof.
  revert i s; induction n as [|n IH]; intros i s Hs Hf; cbn [for_break]; [done|]. destruct (Hf i s Hs) as [<- Hp]. destruct (f i s) as [t|r]; [|done]. by apply IH.
Qed.

(** A loop whose rounds do not fault does not fault. *)
Lemma forM_inv {S R} (P : Z -> S -> Prop) (Q : R -> Prop) (f : Z -> S -> option (S + R)) n i s :
  P i s ->
  (forall k t, i <= k < i + Z.of_nat n -> P k t ->
     exists r, f k t = Some r /\ match r with inl t' => P (k + 1) t' | inr x => Q x end) ->
  exists r, forM f i n s = Some r /\ match r with inl t => P (i + Z.of_nat n) t | inr x => Q x end.
Proof.
  revert i s; induction n as [|n IH]; intros i s Hi Hstep; simpl.
  - exists (inl s). split; [done|]. by rewrite Z.add_0_r.
  - destruct (Hstep i s ltac:(lia) Hi) as (r & -> & Hr). destruct r as [t|x]; [|exists (inr x); done].
    destruct (IH (i + 1) t Hr) as (r & Hf & Hr'); [intros; apply Hstep; [lia|done]|].
    exists r. split; [done|]. by replace (i + Z.of_nat (Datatypes.S n)) with ((i + 1) + Z.of_nat n) by lia.
Qed.

Lemma loop_nat_add {S R} (f : S -> S + R) n m s :
  loop_nat (n + m) f s = match loop_nat n f s with inl s' => loop_nat m f s' | inr r => inr r end.
Proof. revert s; induction n as [|n IH]; intros s; simpl; [done|]. by destruct (f s). Qed.

Lemma loop_pos_nat {S R} (f : S -> S + R) p s : loop_pos p f s = loop_nat (Pos.to_nat p) f s.
Proof.
  revert s; induction p as [p IH|p IH|]; intros s; cbn [loop_pos].
  - replace (Pos.to_nat p~1) with (1 + (Pos.to_nat p + Pos.to_nat p))%nat by lia.
    rewrite loop_nat_add. cbn [loop_nat]. destruct (f s) as [s'|]; [|done].
    rewrite loop_nat_add, IH. destruct (loop_nat _ f s'); [apply IH|done].
  - replace (Pos.to_nat p~0) with (Pos.to_nat p + Pos.to_nat p)%nat by lia.
    rewrite loop_nat_add, IH. destruct (loop_nat _ f s); [apply IH|done].
  - simpl. by destruct (f s).
Qed.

(** A loop whose body decreases a measure leaves within that many rounds. *)
Lemma loop_nat_terminates {S R} (f : S -> S + R) (mu : S -> Z) (I : S -> Prop) n s :
  I s -> (forall t t', I t -> f t = inl t' -> I t' /\ 0 <= mu t' < mu t) ->
  mu s < Z.of_nat n -> 0 <= mu s -> exists r, loop_nat n f s = inr r.
Proof.
  intros HI Hstep. revert s HI; induction n as [|n IH]; intros s HI Hlt Hge; [lia|]; simpl.
  destruct (f s) as [s'|r] eqn:E; [|eauto].
  destruct (Hstep _ _ HI E) as [HI' Hmu]. apply IH; [done|lia|lia].
Qed.

Lemma loop_nat_inv {S R} (f : S -> S + R) (I : S -> Prop) (Q : R -> Prop) n s :
  I s -> (forall t t', I t -> f t = inl t' -> I t') -> (forall t r, I t -> f t = inr r -> Q r) ->
  match loop_nat n f s with inl t => I t | inr r => Q r end.
Proof.
  intros HI Hstep Hout. revert s HI; induction n as [|n IH]; intros s HI; simpl; [done|].
  destruct (f s) eqn:E; [|by eapply Hout]. apply IH. by eapply Hstep.
Qed.

Lemma count_range_nonneg p n i : 0 <= count_range p i n <= Z.of_nat n.
Proof. revert i; induction n as [|n IH]; intros i; simpl; [lia|]. specialize (IH (i + 1)). destruct (p i); lia. Qed.

Lemma count_range_ext p q n i :
  (forall j, i <= j < i + Z.of_nat n -> p j = q j) -> count_range p i n = count_range q i n.
Proof.
  revert i; induction n as [|n IH]; intros i H; simpl; [done|].
  rewrite (H i) by lia. rewrite (IH (i + 1)); [done|]. intros; apply H; lia.
Qed.

(** Flipping the predicate at one index changes the count by one. *)
Lemma count_range_flip p q n i k :
  i <= k < i + Z.of_nat n -> p k = true -> q k = false ->
  (forall j, j <> k -> p j = q j) -> count_range p i n = count_range q i n + 1.
Proof.
  revert i; induction n as [|n IH]; intros i Hk Hp Hq Hne; [lia|]; simpl.
  destruct (decide (k = i)) as [->|].
  - rewrite Hp, Hq, (count_range_ext p q); [lia|]. intros; apply Hne; lia.
  - rewrite (IH (i + 1)) by (done || lia). rewrite (Hne i) by done. lia.
Qed.

Lemma count_range_zero p n i :
  count_range p i n = 0 <-> forall j, i <= j < i + Z.of_nat n -> p j = false.
Proof.
  revert i; induction n as [|n IH]; intros i; simpl.
  - split; [intros; lia|done].
  - pose proof (count_range_nonneg p n (i + 1)). destruct (p i) eqn:E.
    + split; [lia|]. intros H'. rewrite H' in E by lia. done.
    + rewrite Z.add_0_l, IH. split; intros H' j Hj.
      * destruct (decide (j = i)) as [->|]; [done|]. apply H'; lia.
      * apply H'; lia.
Qed.

(** ** Lemmas on machine integers *)

Lemma u64_range x : 0 <= u64 x < 18446744073709551616.
Proof. unfold u64. apply Z.mod_pos_bound. lia. Qed.

Lemma u64_small x : 0 <= x < 18446744073709551616 -> u64 x = x.
Proof. intros. unfold u64. by apply Z.mod_small. Qed.

Lemma u32_range x : 0 <= u32 x < 4294967296.
Proof. unfold u32. apply Z.mod_pos_bound. lia. Qed.

Lemma u32_small x : 0 <= x < 4294967296 -> u32 x = x.
Proof. intros. unfold u32. by apply Z.mod_small. Qed.

#[export] Hint Rewrite u64_small u32_small using lia : npk.

(** Clearing the low [k] bits of a 64-bit value rounds it down to a multiple of [2^k]. *)
Lemma land_not_mask v k :
  0 <= k < 64 -> 0 <= v < 18446744073709551616 ->
  Z.land v (not64 (2 ^ k - 1)) = v - v mod 2 ^ k.
Proof.
  intros Hk Hv.
  assert (Hpos : 0 < 2 ^ k) by (apply Z.pow_pos_nonneg; lia).
  assert (Hs : Z.land v (not64 (2 ^ k - 1)) = Z.shiftl (Z.shiftr v k) k).
  { unfold not64, u64.
    change 18446744073709551616 with (2 ^ 64).
    replace (2 ^ k - 1) with (Z.ones k) by (rewrite Z.ones_equiv; lia).
    rewrite <- Z.land_ones, (Z.land_comm (Z.lnot _)), Z.land_assoc by lia.
    rewrite (Z.land_ones v) by lia.
    rewrite (Z.mod_small v) by (change (2 ^ 64) with 18446744073709551616; lia).
    rewrite <- Z.ldiff_land. by rewrite Z.ldiff_ones_r by lia. }
  rewrite Hs, Z.shiftr_div_pow2, Z.shiftl_mul_pow2 by lia.
  pose proof (Z.div_mod v (2 ^ k)). lia.
Qed.

Lemma land_page_mask v :
  0 <= v < 18446744073709551616 -> Z.land v (not64 (NPK_PAGE_SIZE - 1)) = v - v mod 4096.
Proof. intros. apply (land_not_mask v 12); lia. Qed.

Lemma land_page_offset v : Z.land v (NPK_PAGE_SIZE - 1) = v mod 4096.
Proof. change (NPK_PAGE_SIZE - 1) with (Z.ones 12). by rewrite Z.land_ones by lia. Qed.

(** A multiple of [2^k] and a value below [2^k] share no bit. *)
Lemma land_aligned a b k : 0 <= k -> a mod 2 ^ k = 0 -> 0 <= b < 2 ^ k -> Z.land a b = 0.
Proof.
  intros Hk Ha Hb. rewrite <- (Z.mod_small b (2 ^ k)) by done.
  rewrite <- Z.land_ones, (Z.land_comm b), Z.land_assoc, Z.land_ones, Ha by done. apply Z.land_0_l.
Qed.

Lemma lor_aligned a b k : 0 <= k -> a mod 2 ^ k = 0 -> 0 <= b < 2 ^ k -> Z.lor a b = a + b.
Proof. intros. rewrite <- Z.add_lor_land, (land_aligned a b k) by done. lia. Qed.

Lemma hasb_testbit flags k : 0 <= k -> hasb flags (2 ^ k) = Z.testbit flags k.
Proof.
  intros Hk. unfold hasb. destruct (Z.testbit flags k) eqn:E.
  - apply negb_true_iff, Z.eqb_neq. intros H.
    apply (f_equal (fun z => Z.testbit z k)) in H.
    rewrite Z.land_spec, E, Z.pow2_bits_true, Z.bits_0 in H by done. done.
  - apply negb_false_iff, Z.eqb_eq, Z.bits_inj'. intros n Hn.
    rewrite Z.land_spec, Z.bits_0. destruct (decide (n = k)) as [->|]; [by rewrite E|].
    rewrite Z.pow2_bits_false by done. apply andb_false_r.
Qed.

Lemma hasb_lor a b m : hasb (Z.lor a b) m = hasb a m || hasb b m.
Proof.
  unfold hasb. rewrite Z.land_lor_distr_l.
  destruct (Z.land a m =? 0) eqn:Ea, (Z.land b m =? 0) eqn:Eb; zbool; simpl.
  - apply negb_false_iff, Z.eqb_eq. rewrite Ea, Eb. done.
  - apply negb_true_iff, Z.eqb_neq. rewrite Z.lor_eq_0_iff. tauto.
  - apply negb_true_iff, Z.eqb_neq. rewrite Z.lor_eq_0_iff. tauto.
  - apply negb_true_iff, Z.eqb_neq. rewrite Z.lor_eq_0_iff. tauto.
Qed.

Lemma hasb_land x m f : hasb (Z.land x m) f = hasb x (Z.land m f).
Proof. unfold hasb. by rewrite Z.land_assoc. Qed.

Lemma hasb_0_r x : hasb x 0 = false.
Proof. unfold hasb. by rewrite Z.land_0_r. Qed.

Lemma in_u64_bits x : 0 <= x -> (forall n, 64 <= n -> Z.testbit x n = false) -> in_u64 x.
Proof.
  intros Hx Hb. split; [done|]. change 18446744073709551616 with (2 ^ 64).
  destruct (decide (x = 0)) as [->|Hne]; [done|].
  apply Z.log2_lt_pow2; [lia|]. destruct (decide (Z.log2 x < 64)); [done|].
  specialize (Hb (Z.log2 x)).
  rewrite Z.bit_log2 in Hb by lia. lia.
Qed.

Lemma bits_in_u64 x n : in_u64 x -> 64 <= n -> Z.testbit x n = false.
Proof.
  intros [Hlo Hhi] Hn. destruct (decide (x = 0)) as [->|Hne]; [apply Z.bits_0|].
  apply Z.bits_above_log2; [done|]. apply Z.log2_lt_pow2; [lia|].
  apply Z.lt_le_trans with (2 ^ 64); [done|]. apply Z.pow_le_mono_r; lia.
Qed.

(** A value without a bit outside [m] is kept by masking with [m]. *)
Lemma land_not64_zero x m : in_u64 x -> in_u64 m -> Z.land x (not64 m) = 0 -> Z.land x m = x.
Proof.
  intros Hx Hm H. apply Z.bits_inj'. intros n Hn. apply (f_equal (fun z => Z.testbit z n)) in H.
  rewrite Z.land_spec, Z.bits_0 in H. rewrite Z.land_spec.
  destruct (decide (n < 64)) as [Hlt|]; [|by rewrite bits_in_u64 by (done || lia)].
  unfold not64, u64 in H. change 18446744073709551616 with (2 ^ 64) in H.
  rewrite Z.mod_pow2_bits_low, Z.lnot_spec in H by lia.
  destruct (Z.testbit x n), (Z.testbit m n); done.
Qed.

Lemma in_u64_lor a b : in_u64 a -> in_u64 b -> in_u64 (Z.lor a b).
Proof.
  intros Ha Hb. apply in_u64_bits.
  - apply Z.lor_nonneg. destruct Ha, Hb. lia.
  - intros n Hn. rewrite Z.lor_spec, !bits_in_u64 by done. done.
Qed.

Lemma in_u64_land a b : in_u64 a -> in_u64 (Z.land a b).
Proof.
  intros Ha. apply in_u64_bits.
  - apply Z.land_nonneg. left. destruct Ha. lia.
  - intros n Hn. rewrite Z.land_spec, bits_in_u64 by done. done.
Qed.

Lemma in_u64_pow2 k : 0 <= k < 64 -> in_u64 (2 ^ k).
Proof.
  intros Hk. split; [apply Z.pow_nonneg; lia|]. change 18446744073709551616 with (2 ^ 64).
  apply Z.pow_lt_mono_r; lia.
Qed.

#[export] Hint Resolve in_u64_lor in_u64_land in_u64_pow2 u64_range : npk.

(** ** Ring buffers

    [n] entries of a ring of [cap] entries from [head] on. *)

Definition ring {A} (cap : Z) (buffer : arr A) (head : Z) (n : nat) : list A :=
  map (fun i => buffer.[(head + Z.of_nat i) mod cap]) (seq 0 n).

Lemma ring_length {A} cap (buffer : arr A) head n : length (ring cap buffer head n) = n.
Proof. unfold ring. by rewrite length_map, length_seq. Qed.

Lemma ring_S {A} cap (buffer : arr A) head n :
  0 <= head < cap -> ring cap buffer head (S n) = buffer.[head] :: ring cap buffer ((head + 1) mod cap) n.
Proof.
  intros Hh. unfold ring. cbn [seq map]. rewrite Z.add_0_r, Z.mod_small by done. f_equal. rewrite <-seq_shift, map_map.
  apply map_ext. intros i. f_equal. rewrite Zplus_mod_idemp_l. f_equal. lia.
Qed.

Lemma ring_app {A} cap (buffer : arr A) head n m :
  ring cap buffer head (n + m) = ring cap buffer head n ++ ring cap buffer ((head + Z.of_nat n) mod cap) m.
Proof.
  unfold ring. rewrite seq_app, map_app. f_equal. cbn [Nat.add]. rewrite <-(Nat.add_0_r n) at 1.
  rewrite <-(fmap_add_seq n 0 m), <-list_fmap_compose. apply map_ext. intros i. cbn. f_equal. rewrite Zplus_mod_idemp_l. f_equal. lia.
Qed.

Lemma ring_ext {A} cap (buffer buffer' : arr A) head n :
  (forall i, 0 <= i < Z.of_nat n -> buffer'.[(head + i) mod cap] = buffer.[(head + i) mod cap]) ->
  ring cap buffer' head n = ring cap buffer head n.
Proof. intros He. unfold ring. apply map_ext_in. intros i Hi. apply in_seq in Hi. apply He. lia. Qed.

Lemma ring_lookup {A} cap (buffer : arr A) head n i : (i < n)%nat -> ring cap buffer head n !! i = Some buffer.[(head + Z.of_nat i) mod cap].
Proof. intros Hi. unfold ring. rewrite list_lookup_fmap, lookup_seq_lt by done. done. Qed.

(** Different entries of the ring have different places. *)
Lemma ring_place_inj cap head i j : 0 < cap -> 0 <= i < cap -> 0 <= j < cap -> (head + i) mod cap = (head + j) mod cap -> i = j.
Proof.
  intros Hc Hi Hj He. assert (Hd : (i - j) mod cap = 0).
  { replace (i - j) with ((head + i) - (head + j)) by lia. rewrite Zminus_mod, He, Z.sub_diag. apply Z.mod_0_l. lia. }
  pose proof (Z.div_mod (i - j) cap ltac:(lia)) as Hq. rewrite Hd in Hq. assert ((i - j) / cap = 0) by nia. nia.
Qed.

(** ** Little-endian integers *)

Fixpoint le_bytes (n : nat) (x : Z) : list Z :=
  match n with O => [] | S n' => x mod 256 :: le_bytes n' (x / 256) end.
Fixpoint le_val (bytes : list Z) : Z :=
  match bytes with [] => 0 | b :: bytes' => b + 256 * le_val bytes' end.

Lemma le_bytes_length n x : length (le_bytes n x) = n.
Proof. revert x; induction n as [|n IH]; intros x; cbn [le_bytes length]; [done|]. by rewrite IH. Qed.

Lemma le_bytes_range n x : Forall (fun b => 0 <= b < 256) (le_bytes n x).
Proof. revert x; induction n as [|n IH]; intros x; cbn [le_bytes]; constructor; [apply Z.mod_pos_bound; lia|apply IH]. Qed.

(** Decoding gives back the value, cut to its width. *)
Lemma le_val_bytes n x : le_val (le_bytes n x) = x mod 2 ^ (8 * Z.of_nat n).
Proof.
  revert x; induction n as [|n IH]; intros x; cbn [le_bytes le_val].
  - change (8 * Z.of_nat 0) with 0. by rewrite Z.pow_0_r, Z.mod_1_r.
  - rewrite IH. replace (8 * Z.of_nat (S n)) with (8 + 8 * Z.of_nat n) by lia. rewrite Z.pow_add_r by lia. change (2 ^ 8) with 256.
    assert (0 < 2 ^ (8 * Z.of_nat n)) by (apply Z.pow_pos_nonneg; lia). rewrite Z.rem_mul_r by lia. lia.
Qed.

(** ** Counting *)

Lemma filter_length_le {A} (P Q : A -> Prop) `{forall x, Decision (P x)} `{forall x, Decision (Q x)} (l : list A) :
  (forall x, Q x -> P x) -> (length (filter Q l) <= length (filter P l))%nat.
Proof.
  intros Hi. induction l as [|x l IH]; [done|]. rewrite !filter_cons. destruct (decide (Q x)), (decide (P x)); cbn; try lia. exfalso; auto.
Qed.

Lemma filter_length_lt {A} (P Q : A -> Prop) `{forall x, Decision (P x)} `{forall x, Decision (Q x)} (l : list A) y :
  (forall x, Q x -> P x) -> y ∈ l -> P y -> ~ Q y -> (length (filter Q l) < length (filter P l))%nat.
Proof.
  intros Hi. induction l as [|x l IH]; [intros Hy; by apply not_elem_of_nil in Hy|]. intros Hy Hp Hq. rewrite !filter_cons. apply elem_of_cons in Hy as [->|Hy].
  - rewrite decide_False, decide_True by done. cbn. pose proof (filter_length_le P Q l Hi). lia.
  - specialize (IH Hy Hp Hq). destruct (decide (Q x)), (decide (P x)); cbn; try lia. exfalso; auto.
Qed.

Lemma filter_ext_in {A} (P Q : A -> Prop) `{forall x, Decision (P x)} `{forall x, Decision (Q x)} (l : list A) :
  (forall x, x ∈ l -> P x <-> Q x) -> filter P l = filter Q l.
Proof.
  induction l as [|x l IH]; intros Hpq; [done|]. rewrite !filter_cons, IH by (intros y Hy; apply Hpq; by right).
  destruct (Hpq x) as [E1 E2]; [by left|]. destruct (decide (P x)), (decide (Q x)); try done; exfalso; auto.
Qed.

Lemma filter_length_flip {A} (P Q : A -> Prop) `{forall x, Decision (P x)} `{forall x, Decision (Q x)} (l : list A) y :
  NoDup l -> y ∈ l -> (forall x, x ∈ l -> x <> y -> P x <-> Q x) -> P y -> ~ Q y -> length (filter P l) = S (length (filter Q l)).
Proof.
  induction l as [|x l IH]; [intros _ Hy; by apply not_elem_of_nil in Hy|]. intros [Hx Hl]%NoDup_cons Hy Hpq Hp Hq. rewrite !filter_cons. apply elem_of_cons in Hy as [->|Hy].
  - rewrite decide_True, decide_False by done. cbn [length]. do 2 f_equal. apply filter_ext_in. intros z Hz. apply Hpq; [by right|]. by intros ->.
  - assert (x <> y) by (intros ->; done). specialize (IH Hl Hy (fun z Hz => Hpq z (list_elem_of_further _ _ _ Hz)) Hp Hq).
    destruct (Hpq x (list_elem_of_here _ _)) as [E1 E2]; [done|]. destruct (decide (P x)), (decide (Q x)); cbn; try lia; exfalso; auto.
Qed.

(** ** Record update

    [r <| field := v |>] is [r] with one field replaced; a record type declares
    its constructor applied to all projections as its [Eta]. *)

Class Eta (R : Type) := eta : R -> R.
Class Setter {R E : Type} (proj : R -> E) := set_field : (E -> E) -> R -> R.

Ltac setter_for R proj :=
  let e := constr:(_ : Eta R) in
  let e := eval hnf in e in
  lazymatch eval pattern proj in e with
  | ?mk _ => let s := eval cbv beta in (fun f => mk (fun r => f (proj r))) in exact s
  end.

#[export] Hint Extern 1 (@Setter ?R ?E ?proj) => setter_for R proj : typeclass_instances.

Notation "r <| proj := v |>" := (set_field (proj := proj) (fun _ => v) r) (at level 12, left associativity, format "r  <| proj  :=  v |>") : npk_scope.

(** Simplifies the fields of updated records and leaves arithmetic alone. *)
Ltac rsimpl := cbn -[Z.modulo Z.div Z.add Z.sub Z.mul Z.opp Z.land Z.lor Z.shiftl Z.shiftr Z.of_nat Z.to_nat Z.leb Z.ltb Z.geb Z.gtb Z.eqb Z.le Z.lt
  aget aset afill ring u64 i64 not64 hasb].
Tactic Notation "rsimpl" "in" hyp(H) := cbn -[Z.modulo Z.div Z.add Z.sub Z.mul Z.opp Z.land Z.lor Z.shiftl Z.shiftr Z.of_nat Z.to_nat Z.leb Z.ltb Z.geb Z.gtb Z.eqb Z.le Z.lt
  aget aset afill ring u64 i64 not64 hasb] in H.
