(* ===== verification/Pmm.v ===== *)
(** * Physical page allocator (src/src/memory/pmm.c)

    The bitmap keeps one bit per 4 KiB frame (1 = used), [page_refs] one
    reference count per frame.  Frames that were never usable memory stay
    marked used with a count of zero. *)

From Stdlib Require Import ZArith Lia Bool ZifyBool.
From stdpp Require Import base numbers list gmap.
From S2P Require Import Prelude.

Definition MAX_TRACKED_PAGES : Z := 1048576.
Definition BITMAP_WORDS : Z := MAX_TRACKED_PAGES / 64.
(** The number of tracked frames as a loop bound. *)
Definition tracked : nat := Z.to_nat MAX_TRACKED_PAGES.
Definition EARLY_RESERVED_END : Z := 16777216.
Definition LIMINE_MEMMAP_USABLE : Z := 0.

Record pmm := Pmm {
  page_bitmap : arr Z;
  page_refs : arr Z;
  total_pages : Z;
  free_pages : Z;
  hhdm_offset : Z
}.

Record limine_memmap_entry := MemmapEntry { me_base : Z; me_length : Z; me_type : Z }.

(** What the allocator reads of the boot information. *)
Record boot_info := BootInfo { bi_hhdm : option Z; bi_memmap : option (list limine_memmap_entry) }.

Definition set_bitmap (s : pmm) (b : arr Z) : pmm :=
  Pmm b (page_refs s) (total_pages s) (free_pages s) (hhdm_offset s).
Definition set_refs (s : pmm) (r : arr Z) : pmm :=
  Pmm (page_bitmap s) r (total_pages s) (free_pages s) (hhdm_offset s).
Definition set_free_pages (s : pmm) (n : Z) : pmm :=
  Pmm (page_bitmap s) (page_refs s) (total_pages s) n (hhdm_offset s).
Definition set_total_pages (s : pmm) (n : Z) : pmm :=
  Pmm (page_bitmap s) (page_refs s) n (free_pages s) (hhdm_offset s).

Definition set_used (s : pmm) (page : Z) : pmm :=
  set_bitmap s ((page_bitmap s).[page / 64 <- Z.lor (page_bitmap s).[page / 64] (Z.shiftl 1 (page mod 64))]).
Definition set_free (s : pmm) (page : Z) : pmm :=
  set_bitmap s ((page_bitmap s).[page / 64 <- Z.land (page_bitmap s).[page / 64] (not64 (Z.shiftl 1 (page mod 64)))]).
Definition is_used (s : pmm) (page : Z) : bool :=
  hasb (Z.shiftr (page_bitmap s).[page / 64] (page mod 64)) 1.

(** One frame of the inner loop of [pmm_init]. *)
Definition pmm_init_page (page : Z) (s : pmm) : pmm :=
  if page * NPK_PAGE_SIZE <? EARLY_RESERVED_END then s
  else if is_used s page then
    let s1 := set_free s page in set_free_pages s1 (free_pages s1 + 1)
  else s.

(** One memory-map entry of [pmm_init]; the sum of base and length is a uint64_t. *)
Definition pmm_init_entry (s : pmm) (entry : limine_memmap_entry) : pmm :=
  let first := me_base entry / NPK_PAGE_SIZE in
  let last := u64 (me_base entry + me_length entry) / NPK_PAGE_SIZE in
  let last := if last >? MAX_TRACKED_PAGES then MAX_TRACKED_PAGES else last in
  if negb (me_type entry =? LIMINE_MEMMAP_USABLE) || (first >=? last) then s
  else
    let s1 := for_range pmm_init_page first (Z.to_nat (last - first)) s in
    set_total_pages s1 (u64 (total_pages s1 + (last - first))).

Definition pmm_init (bi : boot_info) : pmm :=
  let s := Pmm (afill UINT64_MAX) (afill 0) 0 0 (default 0 (bi_hhdm bi)) in
  match bi_memmap bi with
  | None => s
  | Some entries => fold_left pmm_init_entry entries s
  end.

(** The two nested search loops of [pmm_alloc_page]: a word, then its bits. *)
Definition pmm_scan_word (s : pmm) (word : Z) : option Z :=
  if (page_bitmap s).[word] =? UINT64_MAX then None
  else first_some (fun bit =>
         let page := word * 64 + bit in
         if (page >=? MAX_TRACKED_PAGES) || is_used s page then None else Some page) 0 64.
Definition pmm_find_free (s : pmm) : option Z :=
  first_some (pmm_scan_word s) 0 (Z.to_nat BITMAP_WORDS).

(** The physical address of the frame, or 0 when none is free. *)
Definition pmm_alloc_page (s : pmm) : Z * pmm :=
  match pmm_find_free s with
  | Some page =>
      let s1 := set_used s page in
      let s2 := set_refs s1 ((page_refs s1).[page <- 1]) in
      let s3 := if free_pages s2 =? 0 then s2 else set_free_pages s2 (free_pages s2 - 1) in
      (page * NPK_PAGE_SIZE, s3)
  | None => (0, s)
  end.

(** The guard shared by retain, refs and free. *)
Definition pmm_rejects (s : pmm) (physical : Z) : bool :=
  let page := physical / NPK_PAGE_SIZE in
  negb (physical mod NPK_PAGE_SIZE =? 0) || (page >=? MAX_TRACKED_PAGES) || negb (is_used s page).

Definition pmm_retain_page (s : pmm) (physical : Z) : pmm :=
  let page := physical / NPK_PAGE_SIZE in
  if pmm_rejects s physical then s
  else if negb ((page_refs s).[page] =? UINT32_MAX)
       then set_refs s ((page_refs s).[page <- (page_refs s).[page] + 1])
       else s.

Definition pmm_page_refs (s : pmm) (physical : Z) : Z :=
  let page := physical / NPK_PAGE_SIZE in
  if pmm_rejects s physical then 0 else (page_refs s).[page].

Definition pmm_free_page (s : pmm) (physical : Z) : pmm :=
  let page := physical / NPK_PAGE_SIZE in
  if pmm_rejects s physical || ((page_refs s).[page] =? 0) then s
  else
    let s1 := set_refs s ((page_refs s).[page <- (page_refs s).[page] - 1]) in
    if negb ((page_refs s1).[page] =? 0) then s1
    else let s2 := set_free s1 page in set_free_pages s2 (free_pages s2 + 1).

Definition pmm_total_pages (s : pmm) : Z := total_pages s.
Definition pmm_free_pages (s : pmm) : Z := free_pages s.
(** Direct-map addresses; both conversions wrap modulo 2^64. *)
Definition phys_to_virt (s : pmm) (physical : Z) : Z := u64 (physical + hhdm_offset s).
Definition virt_to_phys (s : pmm) (virtual_address : Z) : Z := u64 (virtual_address - hhdm_offset s).

(** ** Specification *)

(** Frame [page] can be handed out. *)
Definition page_is_free (s : pmm) (page : Z) : bool := (0 <=? page) && (page <? MAX_TRACKED_PAGES) && negb (is_used s page).

Record pmm_wf (s : pmm) : Prop := {
  wf_words : forall w, in_u64 (page_bitmap s).[w];
  wf_refs : forall p, 0 <= (page_refs s).[p] <= UINT32_MAX;
  wf_free_refs : forall p, page_is_free s p = true -> (page_refs s).[p] = 0;
  wf_free_count : free_pages s = count_range (page_is_free s) 0 tracked;
  wf_reserved : forall p, page_is_free s p = true -> EARLY_RESERVED_END <= p * NPK_PAGE_SIZE;
  wf_refs_reserved : forall p, 0 <= p -> (page_refs s).[p] <> 0 -> EARLY_RESERVED_END <= p * NPK_PAGE_SIZE
}.

(** A free frame is one the allocator may return as an address. *)
Definition frame_free (s : pmm) (physical : Z) : Prop :=
  physical mod NPK_PAGE_SIZE = 0 /\ page_is_free s (physical / NPK_PAGE_SIZE) = true.

(** ** Lemmas on the bitmap *)

Lemma tracked_Z : Z.of_nat tracked = MAX_TRACKED_PAGES.
Proof. unfold tracked. by rewrite Z2Nat.id. Qed.
#[global] Opaque tracked.

Lemma is_used_testbit s page : 0 <= page -> is_used s page = Z.testbit (page_bitmap s).[page / 64] (page mod 64).
Proof.
  intros H. unfold is_used. rewrite (hasb_testbit _ 0), Z.shiftr_spec by lia. f_equal.
Qed.

Lemma page_split p q : 0 <= p -> 0 <= q -> p / 64 = q / 64 -> p mod 64 = q mod 64 -> p = q.
Proof. intros. rewrite (Z.div_mod p 64), (Z.div_mod q 64) by lia. congruence. Qed.

Lemma is_used_set_used s p q :
  0 <= p -> 0 <= q -> is_used (set_used s p) q = bool_decide (p = q) || is_used s q.
Proof.
  intros Hp Hq. rewrite !is_used_testbit by done. unfold set_used, set_bitmap; simpl.
  rewrite aget_aset. pose proof (Z.mod_pos_bound p 64). pose proof (Z.mod_pos_bound q 64).
  case_decide as E.
  - rewrite Z.lor_spec, E, Z.shiftl_1_l, Z.pow2_bits_eqb by lia.
    destruct (Z.eqb_spec (p mod 64) (q mod 64)).
    + rewrite bool_decide_eq_true_2 by (by apply page_split). by rewrite orb_true_r.
    + rewrite bool_decide_eq_false_2 by congruence. by rewrite orb_false_r.
  - rewrite bool_decide_eq_false_2 by congruence. done.
Qed.

Lemma is_used_set_free s p q :
  0 <= p -> 0 <= q -> is_used (set_free s p) q = negb (bool_decide (p = q)) && is_used s q.
Proof.
  intros Hp Hq. rewrite !is_used_testbit by done. unfold set_free, set_bitmap; simpl.
  rewrite aget_aset. pose proof (Z.mod_pos_bound p 64). pose proof (Z.mod_pos_bound q 64).
  case_decide as E.
  - rewrite Z.land_spec, E. unfold not64, u64. change 18446744073709551616 with (2 ^ 64).
    rewrite Z.mod_pow2_bits_low, Z.lnot_spec, Z.shiftl_1_l, Z.pow2_bits_eqb by lia.
    destruct (Z.eqb_spec (p mod 64) (q mod 64)).
    + rewrite bool_decide_eq_true_2 by (by apply page_split). by rewrite andb_false_r.
    + rewrite bool_decide_eq_false_2 by congruence. by rewrite andb_true_r.
  - rewrite bool_decide_eq_false_2 by congruence. done.
Qed.

Lemma word_has_zero w :
  in_u64 w -> w <> UINT64_MAX -> exists k, 0 <= k < 64 /\ Z.testbit w k = false.
Proof.
  intros [Hlo Hhi] Hne.
  destruct (find_index (fun k => negb (Z.testbit w k)) 0 64) as [k|] eqn:E.
  - apply find_index_Some in E as (Hk & Hb & _). zbool. exists k. split; [lia|done].
  - exfalso. apply Hne. rewrite find_index_None in E.
    apply Z.bits_inj'. intros n Hn. change UINT64_MAX with (Z.ones 64).
    destruct (decide (n < 64)).
    + rewrite Z.ones_spec_low by lia. specialize (E n). zbool.
      apply negb_false_iff, E. lia.
    + rewrite Z.ones_spec_high by lia. destruct (decide (w = 0)) as [->|]; [apply Z.bits_0|].
      apply Z.bits_above_log2; [done|]. apply Z.log2_lt_pow2; [lia|].
      apply Z.lt_le_trans with (2 ^ 64); [done|]. apply Z.pow_le_mono_r; lia.
Qed.

Lemma page_is_free_true s p :
  page_is_free s p = true <-> 0 <= p < MAX_TRACKED_PAGES /\ is_used s p = false.
Proof. unfold page_is_free. rewrite !andb_true_iff, negb_true_iff. lia. Qed.

Lemma page_is_free_out s p : ~ (0 <= p < MAX_TRACKED_PAGES) -> page_is_free s p = false.
Proof. intros. unfold page_is_free. destruct (0 <=? p) eqn:?, (p <? MAX_TRACKED_PAGES) eqn:?; lia. Qed.

(** A word scan is a search among the 64 frames of that word. *)
Lemma pmm_scan_word_spec s w :
  (forall w, in_u64 (page_bitmap s).[w]) -> 0 <= w ->
  pmm_scan_word s w = find_index (page_is_free s) (w * 64) 64.
Proof.
  intros Hw Hpos. unfold pmm_scan_word. destruct (_ =? UINT64_MAX) eqn:E; zbool.
  - symmetry. apply find_index_None. intros p Hp.
    assert (p / 64 = w) as Ew by (symmetry; apply (Z.div_unique p 64 w (p - w * 64)); lia).
    unfold page_is_free. rewrite is_used_testbit, Ew, E by lia. change UINT64_MAX with (Z.ones 64).
    rewrite Z.ones_spec_low by (apply Z.mod_pos_bound; lia). by rewrite andb_false_r.
  - unfold find_index. rewrite (first_some_shift _ (w * 64)).
    apply first_some_ext. intros b Hb. replace (w * 64 + (b - w * 64)) with b by lia.
    unfold page_is_free. destruct (is_used s b); simpl.
    + by rewrite orb_true_r, andb_false_r.
    + rewrite orb_false_r, andb_true_r. destruct (b >=? MAX_TRACKED_PAGES) eqn:?, ((0 <=? b) && (b <? MAX_TRACKED_PAGES)) eqn:?; try done; lia.
Qed.

(** The word-wise search finds the lowest free frame of a linear scan. *)
Lemma pmm_find_free_linear s :
  (forall w, in_u64 (page_bitmap s).[w]) ->
  pmm_find_free s = find_index (page_is_free s) 0 tracked.
Proof.
  intros Hw. unfold pmm_find_free.
  rewrite (first_some_ext _ (fun w => find_index (page_is_free s) (w * Z.of_nat 64) 64))
    by (intros; apply pmm_scan_word_spec; [done|lia]).
  unfold find_index. rewrite first_some_chunks.
  assert (Z.to_nat BITMAP_WORDS * 64 = tracked)%nat as ->; [|done].
  apply Nat2Z.inj. rewrite Nat2Z.inj_mul, tracked_Z, Z2Nat.id by done. done.
Qed.

Lemma pmm_find_free_Some s p :
  (forall w, in_u64 (page_bitmap s).[w]) ->
  pmm_find_free s = Some p -> page_is_free s p = true /\ forall q, q < p -> page_is_free s q = false.
Proof.
  intros Hw. rewrite pmm_find_free_linear, find_index_Some by done. intros (Hr & Hf & Hlt).
  split; [done|]. intros q Hq. destruct (decide (0 <= q)); [apply Hlt; lia|apply page_is_free_out; lia].
Qed.

Lemma pmm_find_free_None s :
  (forall w, in_u64 (page_bitmap s).[w]) -> pmm_find_free s = None -> forall p, page_is_free s p = false.
Proof.
  intros Hw. rewrite pmm_find_free_linear, find_index_None by done. intros H p.
  destruct (decide (0 <= p < MAX_TRACKED_PAGES)); [|by apply page_is_free_out].
  apply H. rewrite tracked_Z. lia.
Qed.

(** ** Each operation on the free set *)

Lemma page_is_free_set_used s p q :
  0 <= p -> page_is_free (set_used s p) q = negb (bool_decide (p = q)) && page_is_free s q.
Proof.
  intros Hp. unfold page_is_free. destruct (0 <=? q) eqn:Hq; [|by rewrite andb_false_r].
  rewrite is_used_set_used by lia. destruct (bool_decide (p = q)), (is_used s q), (q <? MAX_TRACKED_PAGES); done.
Qed.

Lemma page_is_free_set_free s p q :
  0 <= p < MAX_TRACKED_PAGES -> page_is_free (set_free s p) q = bool_decide (p = q) || page_is_free s q.
Proof.
  intros Hp. unfold page_is_free. destruct (0 <=? q) eqn:Hq.
  - rewrite is_used_set_free by lia. case_bool_decide as E; subst; simpl.
    + destruct (q <? MAX_TRACKED_PAGES) eqn:?; [done|lia].
    + by destruct (is_used s q).
  - rewrite bool_decide_eq_false_2 by lia. done.
Qed.

Lemma words_set_used s p w :
  (forall w, in_u64 (page_bitmap s).[w]) -> in_u64 (page_bitmap (set_used s p)).[w].
Proof.
  intros H. simpl. rewrite aget_aset. case_decide; [|done]. rewrite Z.shiftl_1_l.
  pose proof (Z.mod_pos_bound p 64). auto with npk lia.
Qed.

Lemma words_set_free s p w :
  (forall w, in_u64 (page_bitmap s).[w]) -> in_u64 (page_bitmap (set_free s p)).[w].
Proof. intros H. simpl. rewrite aget_aset. case_decide; auto with npk. Qed.

(** Changing the recorded counts does not change the bitmap. *)
Lemma page_is_free_bitmap s t q : page_bitmap s = page_bitmap t -> page_is_free s q = page_is_free t q.
Proof. intros H. unfold page_is_free, is_used. by rewrite H. Qed.

(** Handing out the free frame [p]. *)
Lemma pmm_take_wf s p :
  pmm_wf s -> page_is_free s p = true ->
  pmm_wf (Pmm (page_bitmap (set_used s p)) ((page_refs s).[p <- 1]) (total_pages s) (free_pages s - 1) (hhdm_offset s)).
Proof.
  intros Hwf Hp. pose proof Hp as Hr. rewrite page_is_free_true in Hr. destruct Hr as [Hr _].
  assert (Hfree : forall n q, page_is_free (Pmm (page_bitmap (set_used s p)) n (total_pages s) (free_pages s - 1) (hhdm_offset s)) q
                  = negb (bool_decide (p = q)) && page_is_free s q).
  { intros n q. rewrite <- page_is_free_set_used by lia. by apply page_is_free_bitmap. }
  destruct Hwf as [H1 H2 H3 H4 H5 H6]. split; simpl.
  - intros w. by apply words_set_used.
  - intros q. rewrite aget_aset. case_decide; [unfold UINT32_MAX; lia|done].
  - intros q. rewrite Hfree. intros Hq. zbool. rewrite bool_decide_eq_false in *.
    rewrite aget_aset_ne by done. by apply H3.
  - rewrite (count_range_ext _ (fun q => negb (bool_decide (p = q)) && page_is_free s q)) by (intros; apply Hfree).
    rewrite H4, (count_range_flip (page_is_free s) (fun q => negb (bool_decide (p = q)) && page_is_free s q) _ 0 p); [lia| |done| |].
    + rewrite tracked_Z. lia.
    + by rewrite bool_decide_eq_true_2.
    + intros j Hj. by rewrite bool_decide_eq_false_2.
  - intros q. rewrite Hfree. intros Hq. zbool. by apply H5.
  - intros q Hq. rewrite aget_aset. case_decide; [subst; intros _; by apply H5|by apply H6].
Qed.

(** Returning the used frame [p], whose count has reached zero. *)
Lemma pmm_give_wf s r p :
  pmm_wf s -> 0 <= p < MAX_TRACKED_PAGES -> is_used s p = true -> EARLY_RESERVED_END <= p * NPK_PAGE_SIZE ->
  (forall q, 0 <= r.[q] <= UINT32_MAX) -> r.[p] = 0 -> (forall q, q <> p -> r.[q] = (page_refs s).[q]) ->
  pmm_wf (Pmm (page_bitmap (set_free s p)) r (total_pages s) (free_pages s + 1) (hhdm_offset s)).
Proof.
  intros Hwf Hr Hu He Hrr Hrp Hrq.
  assert (Hfree : forall q, page_is_free (Pmm (page_bitmap (set_free s p)) r (total_pages s) (free_pages s + 1) (hhdm_offset s)) q
                  = bool_decide (p = q) || page_is_free s q).
  { intros q. rewrite <- page_is_free_set_free by lia. by apply page_is_free_bitmap. }
  destruct Hwf as [H1 H2 H3 H4 H5 H6]. split; simpl.
  - intros w. by apply words_set_free.
  - done.
  - intros q. rewrite Hfree. destruct (decide (q = p)) as [->|]; [done|].
    rewrite bool_decide_eq_false_2 by done. intros Hq. rewrite Hrq by done. by apply H3.
  - rewrite (count_range_ext _ (fun q => bool_decide (p = q) || page_is_free s q)) by (intros; apply Hfree).
    rewrite H4. symmetry. apply count_range_flip with (k := p).
    + rewrite tracked_Z. lia.
    + by rewrite bool_decide_eq_true_2.
    + unfold page_is_free. rewrite Hu. by rewrite andb_false_r.
    + intros j Hj. by rewrite bool_decide_eq_false_2.
  - intros q. rewrite Hfree. destruct (decide (q = p)) as [->|]; [done|].
    rewrite bool_decide_eq_false_2 by done. apply H5.
  - intros q Hq. destruct (decide (q = p)) as [->|]; [done|]. rewrite Hrq by done. by apply H6.
Qed.

(** Changing counts of used frames only. *)
Lemma pmm_refs_wf s r :
  pmm_wf s -> (forall q, 0 <= r.[q] <= UINT32_MAX) ->
  (forall q, page_is_free s q = true -> r.[q] = (page_refs s).[q]) ->
  (forall q, 0 <= q -> r.[q] <> 0 -> EARLY_RESERVED_END <= q * NPK_PAGE_SIZE) -> pmm_wf (set_refs s r).
Proof.
  intros [H1 H2 H3 H4 H5 H6] Hr Hq. split; simpl; try done.
  intros q Hf. rewrite Hq by done. by apply H3.
Qed.

(** What [pmm_alloc_page] returns and does to the state. *)
Lemma pmm_alloc_page_cases s :
  pmm_wf s ->
  (pmm_alloc_page s = (0, s) /\ forall p, page_is_free s p = false) \/
  exists p, page_is_free s p = true /\ (forall q, q < p -> page_is_free s q = false) /\
    pmm_alloc_page s =
      (p * NPK_PAGE_SIZE,
       Pmm (page_bitmap (set_used s p)) ((page_refs s).[p <- 1]) (total_pages s) (free_pages s - 1) (hhdm_offset s)).
Proof.
  intros Hwf. unfold pmm_alloc_page. destruct (pmm_find_free s) as [p|] eqn:E.
  - right. apply pmm_find_free_Some in E as [Hp Hlt]; [|apply Hwf]. exists p. repeat split; [done..|].
    simpl. assert (free_pages s <> 0) as Hne.
    { rewrite (wf_free_count _ Hwf), count_range_zero. intros H0.
      pose proof Hp as Hr. rewrite page_is_free_true in Hr. rewrite H0 in Hp; [done|]. rewrite tracked_Z. lia. }
    apply Z.eqb_neq in Hne. rewrite Hne. done.
  - left. split; [done|]. apply pmm_find_free_None; [apply Hwf|done].
Qed.

Lemma pmm_alloc_page_wf s : pmm_wf s -> pmm_wf (pmm_alloc_page s).2.
Proof.
  intros Hwf. destruct (pmm_alloc_page_cases s Hwf) as [[-> _]|(p & Hp & _ & ->)]; [done|].
  by apply pmm_take_wf.
Qed.

Lemma pmm_rejects_false s a :
  0 <= a -> pmm_rejects s a = false ->
  a = a / NPK_PAGE_SIZE * NPK_PAGE_SIZE /\ 0 <= a / NPK_PAGE_SIZE < MAX_TRACKED_PAGES /\ is_used s (a / NPK_PAGE_SIZE) = true.
Proof.
  intros Ha H. unfold pmm_rejects in H. zbool. split; [|split; [|done]].
  - pose proof (Z.div_mod a NPK_PAGE_SIZE). unfold NPK_PAGE_SIZE in *. lia.
  - split; [apply Z.div_pos; unfold NPK_PAGE_SIZE; lia|]. lia.
Qed.

(** Retaining is sound for frames that already carry a reference. *)
Lemma pmm_retain_page_wf s a : 0 <= a -> pmm_page_refs s a <> 0 -> pmm_wf s -> pmm_wf (pmm_retain_page s a).
Proof.
  intros Ha Hne Hwf. unfold pmm_retain_page, pmm_page_refs in *. destruct (pmm_rejects s a) eqn:E; [done|].
  apply pmm_rejects_false in E as (_ & Hr & Hu); [|done].
  destruct (negb _) eqn:Em; [|done]. zbool. apply pmm_refs_wf; [done| | |].
  - intros q. pose proof (wf_refs _ Hwf q). rewrite aget_aset. case_decide; [subst; lia|done].
  - intros q Hq. rewrite aget_aset_ne; [done|]. intros <-. unfold page_is_free in Hq. rewrite Hu in Hq.
    by rewrite andb_false_r in Hq.
  - intros q Hq. rewrite aget_aset. case_decide; [subst; intros _; by apply (wf_refs_reserved _ Hwf)|].
    by apply (wf_refs_reserved _ Hwf).
Qed.

Lemma pmm_free_page_wf s a : 0 <= a -> pmm_wf s -> pmm_wf (pmm_free_page s a).
Proof.
  intros Ha Hwf. unfold pmm_free_page.
  destruct (pmm_rejects s a || _) eqn:E; [done|]. apply orb_false_iff in E as [E1 E2]. zbool.
  apply pmm_rejects_false in E1 as (_ & Hr & Hu); [|done]. set (p := a / NPK_PAGE_SIZE) in *.
  pose proof (wf_refs _ Hwf p). simpl. rewrite aget_aset_eq. destruct (_ =? 0) eqn:E0; simpl.
  - zbool. apply (pmm_give_wf s ((page_refs s).[p <- (page_refs s).[p] - 1])); [done|done|done| | | |].
    + apply (wf_refs_reserved _ Hwf); lia.
    + intros q. rewrite aget_aset. case_decide; [unfold UINT32_MAX; lia|apply Hwf].
    + by rewrite aget_aset_eq.
    + intros q Hq. by rewrite aget_aset_ne.
  - apply pmm_refs_wf; [done| | |].
    + intros q. rewrite aget_aset. case_decide; [zbool; lia|apply Hwf].
    + intros q Hq. rewrite aget_aset_ne; [done|]. intros <-. unfold page_is_free in Hq. rewrite Hu in Hq.
      by rewrite andb_false_r in Hq.
    + intros q Hq. rewrite aget_aset. case_decide; [subst; intros _; by apply (wf_refs_reserved _ Hwf)|].
      by apply (wf_refs_reserved _ Hwf).
Qed.

(** ** Initialisation *)

Lemma pmm_init_page_wf page s : 0 <= page < MAX_TRACKED_PAGES ->
  pmm_wf s /\ (forall p, (page_refs s).[p] = 0) -> 
  pmm_wf (pmm_init_page page s) /\ (forall p, (page_refs (pmm_init_page page s)).[p] = 0).
Proof.
  intros Hp [Hwf Hz]. unfold pmm_init_page. destruct (_ <? EARLY_RESERVED_END) eqn:E; [done|].
  destruct (is_used s page) eqn:Hu; [|done]. split; [|done]. zbool.
  apply (pmm_give_wf s (page_refs s)); try done. apply Hwf.
Qed.

Lemma pmm_init_entry_wf s e :
  0 <= me_base e -> pmm_wf s /\ (forall p, (page_refs s).[p] = 0) ->
  pmm_wf (pmm_init_entry s e) /\ (forall p, (page_refs (pmm_init_entry s e)).[p] = 0).
Proof.
  intros Hb H. unfold pmm_init_entry. set (last := u64 _ / _).
  set (last' := if last >? _ then _ else _). set (first := me_base e / NPK_PAGE_SIZE).
  destruct (_ || _) eqn:E; [done|]. zbool.
  assert (0 <= first) by (apply Z.div_pos; unfold NPK_PAGE_SIZE; lia).
  assert (last' <= MAX_TRACKED_PAGES) by (unfold last'; destruct (last >? _) eqn:?; lia).
  pose proof (for_range_inv (fun _ t => pmm_wf t /\ forall p, (page_refs t).[p] = 0) pmm_init_page
                (Z.to_nat (last' - first)) first s H) as [Hwf Hz].
  { intros k t Hk. apply pmm_init_page_wf. lia. }
  split; [|done]. by destruct Hwf.
Qed.

Lemma pmm_init_wf bi :
  (forall es, bi_memmap bi = Some es -> Forall (fun e => 0 <= me_base e) es) -> pmm_wf (pmm_init bi).
Proof.
  intros Hes. unfold pmm_init. set (s0 := Pmm _ _ _ _ _).
  assert (Hall : forall p, page_is_free s0 p = false).
  { intros p. unfold page_is_free. destruct (0 <=? p) eqn:?; [|done].
    rewrite is_used_testbit by lia. change (page_bitmap s0).[p / 64] with (Z.ones 64).
    rewrite Z.ones_spec_low by (apply Z.mod_pos_bound; lia). by rewrite andb_false_r. }
  assert (H0 : pmm_wf s0 /\ forall p, (page_refs s0).[p] = 0).
  { split; [|done]. split.
    - done.
    - done.
    - done.
    - symmetry. apply count_range_zero. intros; apply Hall.
    - intros p. by rewrite Hall.
    - done. }
  destruct (bi_memmap bi) as [es|]; [|apply H0].
  specialize (Hes es eq_refl). revert H0. generalize s0. clear s0 Hall.
  induction Hes as [|e es He Hes IH]; intros s H0; [apply H0|].
  simpl. apply IH. by apply pmm_init_entry_wf.
Qed.

(** ** Reference counting *)

(** Frame [p] is in use with [r] references while [f] frames are free. *)
Definition in_use (s : pmm) (p r f : Z) : Prop :=
  0 <= p < MAX_TRACKED_PAGES /\ is_used s p = true /\ (page_refs s).[p] = r /\ free_pages s = f.

Lemma pmm_rejects_used s p :
  0 <= p < MAX_TRACKED_PAGES -> pmm_rejects s (p * NPK_PAGE_SIZE) = negb (is_used s p).
Proof.
  intros Hp. unfold pmm_rejects, NPK_PAGE_SIZE. rewrite Z.mod_mul, Z.div_mul by lia. simpl.
  destruct (p >=? MAX_TRACKED_PAGES) eqn:?; [lia|done].
Qed.

Lemma page_of_addr p : p * NPK_PAGE_SIZE / NPK_PAGE_SIZE = p.
Proof. unfold NPK_PAGE_SIZE. by rewrite Z.div_mul. Qed.

Lemma pmm_retain_in_use s p r f :
  in_use s p r f -> r < UINT32_MAX -> in_use (pmm_retain_page s (p * NPK_PAGE_SIZE)) p (r + 1) f.
Proof.
  intros (Hp & Hu & Hr & Hf) Hlt. unfold pmm_retain_page.
  rewrite pmm_rejects_used, Hu, page_of_addr, Hr by done. simpl.
  destruct (r =? UINT32_MAX) eqn:?; [lia|]. simpl. split; [done|]. split; [done|].
  split; [|done]. simpl. by rewrite aget_aset_eq.
Qed.

Lemma pmm_free_in_use s p r f :
  in_use s p r f -> 1 < r -> in_use (pmm_free_page s (p * NPK_PAGE_SIZE)) p (r - 1) f.
Proof.
  intros (Hp & Hu & Hr & Hf) Hlt. unfold pmm_free_page.
  rewrite pmm_rejects_used, Hu, page_of_addr, Hr by done. simpl.
  destruct (r =? 0) eqn:?; [lia|]. rewrite aget_aset_eq. destruct (r - 1 =? 0) eqn:?; [lia|].
  simpl. repeat split; try done; [lia|lia|]. simpl. by rewrite aget_aset_eq.
Qed.

Lemma pmm_free_last s p f :
  in_use s p 1 f ->
  let s' := pmm_free_page s (p * NPK_PAGE_SIZE) in
  page_is_free s' p = true /\ free_pages s' = f + 1 /\ pmm_free_page s' (p * NPK_PAGE_SIZE) = s'.
Proof.
  intros (Hp & Hu & Hr & Hf). simpl.
  assert (E : pmm_free_page s (p * NPK_PAGE_SIZE) =
              set_free_pages (set_free (set_refs s ((page_refs s).[p <- 0])) p) (f + 1)).
  { unfold pmm_free_page. rewrite pmm_rejects_used, Hu, page_of_addr, Hr by done. simpl.
    rewrite aget_aset_eq. simpl. by rewrite Hf. }
  rewrite E. set (s' := set_free_pages _ _).
  assert (Hfree : page_is_free s' p = true).
  { rewrite (page_is_free_bitmap s' (set_free s p)) by done.
    rewrite page_is_free_set_free by done. by rewrite bool_decide_eq_true_2. }
  split; [done|]. split; [done|]. unfold pmm_free_page.
  rewrite page_is_free_true in Hfree. destruct Hfree as [_ Hfree].
  by rewrite pmm_rejects_used, Hfree.
Qed.

Lemma pmm_retain_iter s p r f n :
  in_use s p r f -> r + Z.of_nat n <= UINT32_MAX ->
  in_use (Nat.iter n (fun t => pmm_retain_page t (p * NPK_PAGE_SIZE)) s) p (r + Z.of_nat n) f.
Proof.
  intros H. induction n as [|n IH]; intros Hn; simpl.
  - by rewrite Z.add_0_r.
  - replace (r + Z.of_nat (S n)) with ((r + Z.of_nat n) + 1) by lia.
    apply pmm_retain_in_use; [apply IH; lia|lia].
Qed.

Lemma pmm_free_iter s p r f n :
  in_use s p r f -> Z.of_nat n < r ->
  in_use (Nat.iter n (fun t => pmm_free_page t (p * NPK_PAGE_SIZE)) s) p (r - Z.of_nat n) f.
Proof.
  intros H. induction n as [|n IH]; intros Hn; simpl.
  - by rewrite Z.sub_0_r.
  - replace (r - Z.of_nat (S n)) with ((r - Z.of_nat n) - 1) by lia.
    apply pmm_free_in_use; [apply IH; lia|lia].
Qed.

(** ** Theorems *)

Inductive pmm_step : pmm -> pmm -> Prop :=
| step_alloc s : pmm_step s (pmm_alloc_page s).2
| step_retain s a : 0 <= a -> pmm_page_refs s a <> 0 -> pmm_step s (pmm_retain_page s a)
| step_free s a : 0 <= a -> pmm_step s (pmm_free_page s a).

Definition boot_ok (bi : boot_info) : Prop :=
  match bi_memmap bi with None => True | Some es => Forall (fun e => 0 <= me_base e) es end.

(** Whatever the memory map, every state reached from [pmm_init] by
    allocations, frees of arbitrary addresses and retains of referenced frames
    keeps the allocator well formed: the free counter is the number of clear
    bits, a free frame has no reference and lies above the reserved 16 MiB. *)
Theorem pmm_reachable_wf bi s : boot_ok bi -> rtc pmm_step (pmm_init bi) s -> pmm_wf s.
Proof.
  intros Hb. assert (pmm_wf (pmm_init bi)) as H0.
  { apply pmm_init_wf. intros es E. unfold boot_ok in Hb. by rewrite E in Hb. }
  revert H0. generalize (pmm_init bi). intros s0 H0 Hstar. induction Hstar as [|x y z Hxy _ IH]; [done|].
  apply IH. destruct Hxy; [by apply pmm_alloc_page_wf|by apply pmm_retain_page_wf|by apply pmm_free_page_wf].
Qed.

(** C23: The bitmap search returns the lowest free frame, marks exactly that
    frame used with one reference, and returns 0 only when no frame is free. *)
Theorem pmm_alloc_spec s a s' :
  pmm_wf s -> pmm_alloc_page s = (a, s') ->
  (a = 0 /\ s' = s /\ free_pages s = 0 /\ forall p, page_is_free s p = false) \/
  (a <> 0 /\ frame_free s a /\ (forall b, 0 <= b < a -> ~ frame_free s b) /\
   pmm_page_refs s' a = 1 /\ free_pages s' = free_pages s - 1 /\
   (forall q, page_is_free s' q = negb (bool_decide (q = a / NPK_PAGE_SIZE)) && page_is_free s q) /\
   (forall q, q <> a / NPK_PAGE_SIZE -> (page_refs s').[q] = (page_refs s).[q])).
Proof.
  intros Hwf Heq. destruct (pmm_alloc_page_cases s Hwf) as [[E Hall]|(p & Hp & Hlt & E)]; rewrite E in Heq; inv Heq.
  - left. repeat split; try done. rewrite (wf_free_count _ Hwf). apply count_range_zero. intros; apply Hall.
  - right. pose proof Hp as Hr. rewrite page_is_free_true in Hr. destruct Hr as [Hr Hu].
    pose proof (wf_reserved _ Hwf p Hp). unfold EARLY_RESERVED_END in *.
    rewrite page_of_addr. split; [lia|]. split; [|split; [|split; [|split; [done|split]]]].
    + split; [unfold NPK_PAGE_SIZE; by rewrite Z.mod_mul|by rewrite page_of_addr].
    + intros b Hb [_ Hfb]. rewrite Hlt in Hfb; [done|]. apply Z.div_lt_upper_bound; unfold NPK_PAGE_SIZE in *; lia.
    + unfold pmm_page_refs. rewrite pmm_rejects_used, page_of_addr by done. simpl.
      change (is_used _ p) with (is_used (set_used s p) p).
      rewrite is_used_set_used, bool_decide_eq_true_2 by (done || lia). simpl. by rewrite aget_aset_eq.
    + intros q. rewrite (page_is_free_bitmap _ (set_used s p)) by done.
      rewrite page_is_free_set_used by lia. f_equal. f_equal. apply bool_decide_ext. split; congruence.
    + intros q Hq. simpl. by rewrite aget_aset_ne.
Qed.

(** A frame handed out and retained [n] times stays in use until it has
    been freed [n + 1] times; then it is free again, the free count is what it
    was before the allocation, and one more free changes nothing. *)
Theorem pmm_refcount_balance s a s1 n :
  pmm_wf s -> pmm_alloc_page s = (a, s1) -> a <> 0 -> Z.of_nat n < UINT32_MAX ->
  let retain := fun t => pmm_retain_page t a in
  let free := fun t => pmm_free_page t a in
  let s2 := Nat.iter n retain s1 in
  (forall k, (k <= n)%nat -> ~ frame_free (Nat.iter k free s2) a /\
                             pmm_page_refs (Nat.iter k free s2) a = Z.of_nat (n - k) + 1) /\
  let s3 := Nat.iter (S n) free s2 in
  frame_free s3 a /\ free_pages s3 = free_pages s /\ free s3 = s3.
Proof.
  intros Hwf Heq Hne Hn. simpl.
  destruct (pmm_alloc_page_cases s Hwf) as [[E Hall]|(p & Hp & _ & E)]; rewrite E in Heq; inv Heq.
  pose proof Hp as Hr. rewrite page_is_free_true in Hr. destruct Hr as [Hr Hu].
  set (s1 := Pmm _ _ _ _ _).
  assert (H1 : in_use s1 p 1 (free_pages s - 1)).
  { split; [done|]. split; [|split; [simpl; by rewrite aget_aset_eq|done]].
    change (is_used s1 p) with (is_used (set_used s p) p).
    rewrite is_used_set_used, bool_decide_eq_true_2 by (done || lia). done. }
  pose proof (pmm_retain_iter _ _ _ _ n H1 ltac:(lia)) as H2.
  pose proof (pmm_free_iter _ _ _ _ n H2 ltac:(lia)) as H3.
  replace (1 + Z.of_nat n - Z.of_nat n) with 1 in H3 by lia.
  apply pmm_free_last in H3 as (Hf & Hc & Hd). split; [|split; [split|split]].
  - intros k Hk. pose proof (pmm_free_iter _ _ _ _ k H2 ltac:(lia)) as (_ & Huk & Hrk & _). split.
    + intros [_ Hfk]. rewrite page_of_addr, page_is_free_true in Hfk. destruct Hfk. congruence.
    + unfold pmm_page_refs. rewrite pmm_rejects_used, Huk, page_of_addr, Hrk by done. simpl. lia.
  - unfold NPK_PAGE_SIZE. by rewrite Z.mod_mul.
  - by rewrite page_of_addr.
  - rewrite Hc. lia.
  - done.
Qed.

(** A machine with four usable frames at 16 MiB, and one BIOS frame below. *)
Definition boot_example : boot_info :=
  BootInfo (Some 0) (Some [MemmapEntry 0 4096 0; MemmapEntry 16777216 16384 0; MemmapEntry 33554432 4096 1]).

Lemma boot_example_ok : boot_ok boot_example.
Proof. unfold boot_ok; simpl. repeat constructor; simpl; lia. Qed.

Lemma boot_example_wf : pmm_wf (pmm_init boot_example).
Proof. apply pmm_init_wf. intros es E. inv E. apply boot_example_ok. Qed.

Lemma pmm_reachable_wf_witness : pmm_wf (pmm_alloc_page (pmm_init boot_example)).2.
Proof.
  apply (pmm_reachable_wf boot_example); [apply boot_example_ok|].
  apply rtc_once. constructor.
Defined.

Lemma pmm_alloc_spec_witness :
  (pmm_alloc_page (pmm_init boot_example)).1 = 16777216 /\ frame_free (pmm_init boot_example) 16777216.
Proof.
  assert (E : (pmm_alloc_page (pmm_init boot_example)).1 = 16777216) by (vm_compute; reflexivity).
  split; [exact E|].
  destruct (pmm_alloc_spec (pmm_init boot_example) _ _ boot_example_wf (surjective_pairing _)) as [[H _]|(_ & H & _)].
  - rewrite E in H. lia.
  - rewrite E in H. exact H.
Defined.

Lemma pmm_refcount_balance_witness :
  let '(a, s1) := pmm_alloc_page (pmm_init boot_example) in
  frame_free (Nat.iter 3 (fun t => pmm_free_page t a) (Nat.iter 2 (fun t => pmm_retain_page t a) s1)) a.
Proof.
  destruct (pmm_alloc_page (pmm_init boot_example)) as [a s1] eqn:E.
  assert (Ha : a <> 0).
  { replace a with (pmm_alloc_page (pmm_init boot_example)).1 by (by rewrite E). vm_compute. discriminate. }
  destruct (pmm_refcount_balance (pmm_init boot_example) a s1 2 boot_example_wf E Ha ltac:(unfold UINT32_MAX; lia)) as (_ & H & _).
  exact H.
Defined.

(** Retaining a frame that was never handed out (a firmware frame, marked used
    with no reference) and freeing it again puts it into the free pool. *)
Lemma pmm_retain_unreferenced_frees_reserved :
  let s := pmm_init boot_example in
  pmm_page_refs s 33554432 = 0 /\ page_is_free s 8192 = false /\
  page_is_free (pmm_free_page (pmm_retain_page s 33554432) 33554432) 8192 = true.
Proof. vm_compute. auto. Qed.
