(* ===== verification/Vmm.v ===== *)
(** * Page tables (src/src/memory/vmm.c)

    Physical memory is an array of 64-bit words; the direct map makes the word
    at physical address [p] the word the code reads through [phys_to_virt(p)],
    so a table pointer is modelled by the physical address of the table.  The
    4-level walk, the tables and the leaf entries are those of the code.  TLB
    maintenance (invlpg, the CR3 reload) has no counterpart here. *)

From Stdlib Require Import ZArith Lia Bool ZifyBool.
From stdpp Require Import base numbers list gmap.
From S2P Require Import Prelude Pmm.

Definition VM_PRESENT : Z := 1.
Definition VM_WRITE : Z := 2.
Definition VM_USER : Z := 4.
Definition VM_PWT : Z := 8.
Definition VM_PCD : Z := 16.
Definition VM_NX : Z := 9223372036854775808.
Definition VM_COW : Z := 512.
Definition VM_SHARED : Z := 1024.
Definition VM_DEVICE : Z := 2048.

Definition ENTRY_ADDR_MASK : Z := 0x000ffffffffff000.
Definition PAGE_TABLE_ENTRIES : nat := 512.
Definition USER_LIMIT : Z := 0x0000800000000000.
Definition KERNEL_PML4_FIRST : Z := 256.
Definition VM_PAGE_SIZE : Z := 128.
Definition MMIO_WINDOW_BASE : Z := 0xffffc00000000000.
Definition MMIO_WINDOW_SIZE : Z := 268435456.

(** The frame allocator, physical memory, the CR3 register and the MMIO cursor. *)
Record vmm := Vmm { pm : pmm; ram : arr Z; cr3 : Z; mmio_next_virtual : Z }.

Definition set_pm (s : vmm) (p : pmm) : vmm := Vmm p (ram s) (cr3 s) (mmio_next_virtual s).
Definition set_ram (s : vmm) (r : arr Z) : vmm := Vmm (pm s) r (cr3 s) (mmio_next_virtual s).

(** The 64-bit word at physical address [a]. *)
Definition rd (s : vmm) (a : Z) : Z := (ram s).[a / 8].
Definition wr (s : vmm) (a v : Z) : vmm := set_ram s ((ram s).[a / 8 <- v]).

(** memset(page, 0, 4096) and memcpy(dst, src, 4096) on page-aligned frames. *)
Definition zero_page (s : vmm) (page : Z) : vmm :=
  for_range (fun i t => wr t (page + 8 * i) 0) 0 PAGE_TABLE_ENTRIES s.
Definition copy_page (s : vmm) (dst src : Z) : vmm :=
  for_range (fun i t => wr t (dst + 8 * i) (rd t (src + 8 * i))) 0 PAGE_TABLE_ENTRIES s.

#[global] Arguments zero_page _ _ : simpl never.
#[global] Arguments copy_page _ _ _ : simpl never.

Definition alloc_frame (s : vmm) : Z * vmm :=
  let '(a, p) := pmm_alloc_page (pm s) in (a, set_pm s p).
Definition free_frame (s : vmm) (a : Z) : vmm := set_pm s (pmm_free_page (pm s) a).
Definition retain_frame (s : vmm) (a : Z) : vmm := set_pm s (pmm_retain_page (pm s) a).

Definition canonical (address : Z) : bool :=
  let upper := Z.shiftr address 48 in (upper =? 0) || (upper =? 65535).

Definition leaf_flags (flags : Z) : Z :=
  let value := VM_PRESENT in
  let value := if hasb flags VM_WRITE then Z.lor value VM_WRITE else value in
  let value := if hasb flags VM_USER then Z.lor value VM_USER else value in
  let value := if hasb flags VM_PWT then Z.lor value VM_PWT else value in
  let value := if hasb flags VM_PCD then Z.lor value VM_PCD else value in
  let value := if hasb flags VM_NX then Z.lor value VM_NX else value in
  let value := if hasb flags VM_SHARED then Z.lor value VM_SHARED else value in
  if hasb flags VM_DEVICE then Z.lor value VM_DEVICE else value.

Definition table_flags (flags : Z) : Z :=
  let value := Z.lor VM_PRESENT VM_WRITE in
  if hasb flags VM_USER then Z.lor value VM_USER else value.

Definition table_from_entry (entry : Z) : Z := Z.land entry ENTRY_ADDR_MASK.
Definition read_cr3 (s : vmm) : Z := Z.land (cr3 s) ENTRY_ADDR_MASK.
Definition root_allowed (root : Z) : bool := negb (root =? 0) && (Z.land root (NPK_PAGE_SIZE - 1) =? 0).

(** The index of [va] into a table of level 4, 3, 2, 1. *)
Definition index4 (va : Z) : Z := Z.land (Z.shiftr va 39) 511.
Definition index3 (va : Z) : Z := Z.land (Z.shiftr va 30) 511.
Definition index2 (va : Z) : Z := Z.land (Z.shiftr va 21) 511.
Definition index1 (va : Z) : Z := Z.land (Z.shiftr va 12) 511.

(** [!(e & VM_PRESENT) || (e & VM_PAGE_SIZE)]: the walk stops here. *)
Definition walk_stops (e : Z) : bool := negb (hasb e VM_PRESENT) || hasb e VM_PAGE_SIZE.

Definition leaf_entry_ptr (s : vmm) (root va : Z) : option Z :=
  if negb (root_allowed root) || negb (canonical va) then None
  else
    let entry := rd s (root + 8 * index4 va) in
    if walk_stops entry then None
    else
      let pdpt := table_from_entry entry in
      let entry := rd s (pdpt + 8 * index3 va) in
      if walk_stops entry then None
      else
        let pd := table_from_entry entry in
        let entry := rd s (pd + 8 * index2 va) in
        if walk_stops entry then None
        else Some (table_from_entry entry + 8 * index1 va).

(** Depth-first copy of the user half; [inr] is the early [return false]. *)
Fixpoint clone_user_table (level : nat) (source destination base : Z) (s : vmm) : bool * vmm :=
  match level with
  | O => (false, s)
  | S level' =>
      let body (index : Z) (acc : bool * vmm) : (bool * vmm) + vmm :=
        let '(found, s) := acc in
        let entry := rd s (source + 8 * index) in
        if negb (hasb entry VM_PRESENT) then inl (found, s)
        else if (level =? 1)%nat then
          if negb (hasb entry VM_USER) || hasb entry VM_DEVICE then inl (found, s)
          else
            let s := wr s (destination + 8 * index) entry in
            inl (true, retain_frame s (Z.land entry ENTRY_ADDR_MASK))
        else if hasb entry VM_PAGE_SIZE then inl (found, s)
        else
          let '(child_physical, s) := alloc_frame s in
          if child_physical =? 0 then inr s
          else
            let s := zero_page s child_physical in
            let child_base := u64 (base + Z.shiftl index (Z.of_nat level' * 9 + 12)) in
            let '(child_found, s) := clone_user_table level' (table_from_entry entry) child_physical child_base s in
            if negb child_found then inl (found, free_frame s child_physical)
            else inl (true, wr s (destination + 8 * index)
                   (Z.lor (Z.lor child_physical VM_PRESENT) (Z.land entry (Z.lor VM_WRITE VM_USER))))
      in
      match for_break body 0 PAGE_TABLE_ENTRIES (false, s) with
      | inl r => r
      | inr s => (false, s)
      end
  end.

Fixpoint mark_cow_table (level : nat) (parent child : Z) (s : vmm) : vmm :=
  match level with
  | O => s
  | S level' =>
      for_range (fun index s =>
        let parent_entry := rd s (parent + 8 * index) in
        let child_entry := rd s (child + 8 * index) in
        if negb (hasb parent_entry VM_PRESENT) || negb (hasb child_entry VM_PRESENT) then s
        else if (level =? 1)%nat then
          if negb (hasb parent_entry VM_USER) then s
          else if hasb parent_entry VM_SHARED then s
          else if hasb parent_entry VM_WRITE then
            let parent_entry := Z.lor (Z.land parent_entry (not64 VM_WRITE)) VM_COW in
            let child_entry := Z.lor (Z.land child_entry (not64 VM_WRITE)) VM_COW in
            wr (wr s (parent + 8 * index) parent_entry) (child + 8 * index) child_entry
          else s
        else if hasb parent_entry VM_PAGE_SIZE || hasb child_entry VM_PAGE_SIZE then s
        else mark_cow_table level' (table_from_entry parent_entry) (table_from_entry child_entry) s)
        0 PAGE_TABLE_ENTRIES s
  end.

Definition ensure_table (s : vmm) (parent index flags : Z) : option Z * vmm :=
  let entry := rd s (parent + 8 * index) in
  if hasb entry VM_PAGE_SIZE then (None, s)
  else if hasb entry VM_PRESENT then (Some (table_from_entry entry), s)
  else
    let '(page, s) := alloc_frame s in
    if page =? 0 then (None, s)
    else
      let s := zero_page s page in
      (Some page, wr s (parent + 8 * index) (Z.lor page (table_flags flags))).

Definition vmm_map_page_root (s : vmm) (root virtual_address physical_address flags : Z) : bool * vmm :=
  if negb (root_allowed root) || negb (Z.land virtual_address (NPK_PAGE_SIZE - 1) =? 0) ||
     negb (Z.land physical_address (NPK_PAGE_SIZE - 1) =? 0) || negb (canonical virtual_address) then (false, s)
  else if hasb flags VM_USER &&
          ((virtual_address >=? USER_LIMIT) || (virtual_address >? USER_LIMIT - NPK_PAGE_SIZE)) then (false, s)
  else if hasb physical_address (not64 ENTRY_ADDR_MASK) then (false, s)
  else
    match ensure_table s root (index4 virtual_address) flags with
    | (None, s) => (false, s)
    | (Some pdpt, s) =>
        match ensure_table s pdpt (index3 virtual_address) flags with
        | (None, s) => (false, s)
        | (Some pd, s) =>
            match ensure_table s pd (index2 virtual_address) flags with
            | (None, s) => (false, s)
            | (Some pt, s) =>
                let i1 := index1 virtual_address in
                if hasb (rd s (pt + 8 * i1)) VM_PRESENT then (false, s)
                else (true, wr s (pt + 8 * i1) (Z.lor physical_address (leaf_flags flags)))
            end
        end
    end.

Definition vmm_map_page (s : vmm) (virtual_address physical_address flags : Z) : bool * vmm :=
  vmm_map_page_root s (read_cr3 s) virtual_address physical_address flags.

Definition vmm_protect_page_root (s : vmm) (root virtual_address flags : Z) : bool * vmm :=
  if negb (root_allowed root) || negb (Z.land virtual_address (NPK_PAGE_SIZE - 1) =? 0) ||
     negb (canonical virtual_address) || negb (hasb flags VM_USER) ||
     hasb flags (not64 (Z.lor (Z.lor VM_USER VM_WRITE) VM_NX)) || (virtual_address >=? USER_LIMIT) then (false, s)
  else
    match leaf_entry_ptr s root virtual_address with
    | None => (false, s)
    | Some pte =>
        if negb (hasb (rd s pte) VM_PRESENT) || negb (hasb (rd s pte) VM_USER) then (false, s)
        else
          let old := rd s pte in
          let updated := Z.lor (Z.land old ENTRY_ADDR_MASK) (leaf_flags flags) in
          let updated := Z.lor updated (Z.land old (Z.lor VM_SHARED VM_DEVICE)) in
          let updated := if hasb old VM_COW then Z.land (Z.lor updated VM_COW) (not64 VM_WRITE) else updated in
          (true, wr s pte updated)
    end.

Definition vmm_current_root (s : vmm) : Z := read_cr3 s.

Definition vmm_create_address_space (s : vmm) : Z * vmm :=
  let current := read_cr3 s in
  let '(root, s) := alloc_frame s in
  if root =? 0 then (0, s)
  else
    let s := zero_page s root in
    (root, for_range (fun i t => wr t (root + 8 * i) (rd t (current + 8 * i)))
             KERNEL_PML4_FIRST (Z.to_nat (512 - KERNEL_PML4_FIRST)) s).

Fixpoint destroy_table (level : nat) (table : Z) (s : vmm) : vmm :=
  for_range (fun i s =>
    let entry := rd s (table + 8 * i) in
    if negb (hasb entry VM_PRESENT) then s
    else if hasb entry VM_PAGE_SIZE then
      wr (free_frame s (Z.land entry ENTRY_ADDR_MASK)) (table + 8 * i) 0
    else
      let s :=
        match level with
        | S (S _ as level') =>
            free_frame (destroy_table level' (table_from_entry entry) s) (Z.land entry ENTRY_ADDR_MASK)
        | _ => if hasb entry VM_DEVICE then s else free_frame s (Z.land entry ENTRY_ADDR_MASK)
        end in
      wr s (table + 8 * i) 0) 0 PAGE_TABLE_ENTRIES s.

Definition vmm_destroy_address_space (s : vmm) (root : Z) : vmm :=
  if negb (root_allowed root) || (root =? read_cr3 s) then s
  else
    let s := for_range (fun i s =>
               if negb (hasb (rd s (root + 8 * i)) VM_PRESENT) then s
               else
                 let s := destroy_table 3 (table_from_entry (rd s (root + 8 * i))) s in
                 free_frame s (Z.land (rd s (root + 8 * i)) ENTRY_ADDR_MASK))
               0 (Z.to_nat KERNEL_PML4_FIRST) s in
    free_frame s root.

Definition vmm_clone_user_space (s : vmm) (parent_root : Z) : Z * vmm :=
  if negb (root_allowed parent_root) then (0, s)
  else
    let '(child_root, s) := vmm_create_address_space s in
    if child_root =? 0 then (0, s)
    else
      let '(ok, s) := clone_user_table 4 parent_root child_root 0 s in
      if ok then (child_root, mark_cow_table 4 parent_root child_root s)
      else (0, vmm_destroy_address_space s child_root).

Definition vmm_resolve_cow_fault (s : vmm) (root virtual_address : Z) : bool * vmm :=
  match leaf_entry_ptr s root virtual_address with
  | None => (false, s)
  | Some pte =>
      if negb (hasb (rd s pte) VM_PRESENT) || negb (hasb (rd s pte) VM_USER) || negb (hasb (rd s pte) VM_COW) then (false, s)
      else
        let old_page := Z.land (rd s pte) ENTRY_ADDR_MASK in
        let references := pmm_page_refs (pm s) old_page in
        if references =? 0 then (false, s)
        else if references =? 1 then
          (true, wr s pte (Z.land (Z.lor (rd s pte) VM_WRITE) (not64 VM_COW)))
        else
          let '(new_page, s) := alloc_frame s in
          if new_page =? 0 then (false, s)
          else
            let s := copy_page s new_page old_page in
            let new_entry := Z.lor (Z.land (rd s pte) (not64 ENTRY_ADDR_MASK)) new_page in
            let new_entry := Z.land (Z.lor new_entry VM_WRITE) (not64 VM_COW) in
            (true, free_frame (wr s pte new_entry) old_page)
  end.

Definition vmm_unmap_page_root (s : vmm) (root virtual_address : Z) : Z * vmm :=
  match leaf_entry_ptr s root virtual_address with
  | None => (0, s)
  | Some pte => (Z.land (rd s pte) ENTRY_ADDR_MASK, wr s pte 0)
  end.

Definition vmm_unmap (s : vmm) (virtual_address : Z) : vmm :=
  (vmm_unmap_page_root s (read_cr3 s) virtual_address).2.

Definition vmm_lookup_root (s : vmm) (root virtual_address required_flags : Z) : Z :=
  match leaf_entry_ptr s root virtual_address with
  | None => 0
  | Some pte =>
      let e := rd s pte in
      if negb (hasb e VM_PRESENT) || (hasb required_flags VM_USER && negb (hasb e VM_USER)) ||
         (hasb required_flags VM_WRITE && negb (hasb e VM_WRITE)) ||
         (hasb required_flags VM_NX && negb (hasb e VM_NX)) then 0
      else Z.lor (Z.land e ENTRY_ADDR_MASK) (Z.land virtual_address (NPK_PAGE_SIZE - 1))
  end.

Definition vmm_is_user_range (address length : Z) : bool :=
  if length =? 0 then address <? USER_LIMIT
  else (address <? USER_LIMIT) && (length <=? USER_LIMIT - address) &&
       canonical address && canonical (u64 (address + length - 1)).

(** The mapping loop of [vmm_map_mmio]; on failure it undoes the pages mapped so far. *)
Definition mmio_rollback (virtual_base : Z) (n : nat) (s : vmm) : vmm :=
  for_range (fun k t => (vmm_unmap_page_root t (read_cr3 t)
                           (u64 (virtual_base + (Z.of_nat n - 1 - k) * NPK_PAGE_SIZE))).2) 0 n s.

Definition vmm_map_mmio (s : vmm) (physical_address length : Z) : Z * vmm :=
  if (length =? 0) || (physical_address >? UINT64_MAX - length) then (0, s)
  else
    let offset := Z.land physical_address (NPK_PAGE_SIZE - 1) in
    let physical_page := Z.land physical_address (not64 (NPK_PAGE_SIZE - 1)) in
    if length >? u64 (u64 (UINT64_MAX - offset) - (NPK_PAGE_SIZE - 1)) then (0, s)
    else
      let span := Z.land (u64 (offset + length + NPK_PAGE_SIZE - 1)) (not64 (NPK_PAGE_SIZE - 1)) in
      let next := mmio_next_virtual s in
      if (next <? MMIO_WINDOW_BASE) || (next - MMIO_WINDOW_BASE >? MMIO_WINDOW_SIZE) ||
         (span >? MMIO_WINDOW_SIZE - (next - MMIO_WINDOW_BASE)) then (0, s)
      else
        match for_break (fun k t =>
                match vmm_map_page t (u64 (next + k * NPK_PAGE_SIZE)) (u64 (physical_page + k * NPK_PAGE_SIZE))
                        (Z.lor (Z.lor (Z.lor (Z.lor VM_WRITE VM_NX) VM_DEVICE) VM_PCD) VM_PWT) with
                | (true, t) => inl t
                | (false, t) => inr (mmio_rollback next (Z.to_nat k) t)
                end) 0 (Z.to_nat (span / NPK_PAGE_SIZE)) s with
        | inr s => (0, s)
        | inl s => (u64 (next + offset),
                    Vmm (pm s) (ram s) (cr3 s) (u64 (mmio_next_virtual s + span)))
        end.

Definition vmm_map_identity (s : vmm) (start end_ flags : Z) : vmm :=
  if (start >? end_) || (end_ =? 0) then s
  else
    let start := Z.land start (not64 (NPK_PAGE_SIZE - 1)) in
    if end_ >? UINT64_MAX - (NPK_PAGE_SIZE - 1) then s
    else
      let end_ := Z.land (end_ + NPK_PAGE_SIZE - 1) (not64 (NPK_PAGE_SIZE - 1)) in
      match for_break (fun k t =>
              match vmm_map_page t (start + k * NPK_PAGE_SIZE) (start + k * NPK_PAGE_SIZE) flags with
              | (true, t) => inl t
              | (false, t) => inr t
              end) 0 (Z.to_nat ((end_ - start) / NPK_PAGE_SIZE)) s with
      | inl s => s
      | inr s => s
      end.

(** ** Specification

    The tree as a function of the depth: [tbl s root va d] is the table the walk
    of [va] reaches after [d] steps, [pte s root va] the present leaf entry. *)

Definition ix (va : Z) (d : nat) : Z :=
  match d with O => index4 va | 1%nat => index3 va | 2%nat => index2 va | _ => index1 va end.

Fixpoint tbl (s : vmm) (root va : Z) (d : nat) : option Z :=
  match d with
  | O => Some root
  | S d' => match tbl s root va d' with
            | None => None
            | Some t => let e := rd s (t + 8 * ix va d') in
                        if walk_stops e then None else Some (table_from_entry e)
            end
  end.

Definition pte (s : vmm) (root va : Z) : option Z :=
  match tbl s root va 3 with
  | None => None
  | Some t => let e := rd s (t + 8 * index1 va) in if hasb e VM_PRESENT then Some e else None
  end.

(** Two addresses with the same four indices lie in the same page. *)
Definition same_path (va vb : Z) (n : nat) : Prop := forall i, (i < n)%nat -> ix va i = ix vb i.
Definition same_page (va vb : Z) : Prop := same_path va vb 4.

#[export] Instance same_path_dec va vb n : Decision (same_path va vb n).
Proof.
  induction n as [|n IH]; [left; intros i Hi; lia|].
  destruct IH as [IH|IH]; [|right; intros H; apply IH; intros i Hi; apply H; lia].
  destruct (decide (ix va n = ix vb n)) as [E|E].
  - left. intros i Hi. destruct (decide (i = n)) as [->|]; [done|]. apply IH. lia.
  - right. intros H. apply E, H. lia.
Defined.

(** An address space is a tree: every table is an aligned frame the allocator
    will not hand out, and no table is reached along two different paths. *)
Record aspace_wf (s : vmm) (root : Z) : Prop := {
  aw_pmm : pmm_wf (pm s);
  aw_ram : forall i, in_u64 (ram s).[i];
  aw_tbl : forall va d t, (d <= 3)%nat -> tbl s root va d = Some t ->
             0 < t /\ t mod 4096 = 0 /\ ~ frame_free (pm s) t;
  aw_inj : forall va vb d d' t, (d <= 3)%nat -> (d' <= 3)%nat ->
             tbl s root va d = Some t -> tbl s root vb d' = Some t -> d = d' /\ same_path va vb d
}.

(** ** Lemmas on physical memory *)

Lemma ix_range va d : 0 <= ix va d < 512.
Proof.
  assert (forall x, 0 <= Z.land x 511 < 512) as H.
  { intros x. change 511 with (Z.ones 9). rewrite Z.land_ones by lia. by apply Z.mod_pos_bound. }
  destruct d as [|[|[|d]]]; apply H.
Qed.

Lemma rd_wr s a b v : rd (wr s a v) b = if decide (a / 8 = b / 8) then v else rd s b.
Proof. unfold rd, wr; simpl. apply aget_aset. Qed.

(** Slots of page-aligned tables are distinct words. *)
Lemma slot_eq t i t' i' :
  t mod 4096 = 0 -> t' mod 4096 = 0 -> 0 <= i < 512 -> 0 <= i' < 512 ->
  (t + 8 * i) / 8 = (t' + 8 * i') / 8 <-> t = t' /\ i = i'.
Proof.
  intros Ht Ht' Hi Hi'. pose proof (Z.div_mod t 4096). pose proof (Z.div_mod t' 4096).
  replace (t + 8 * i) with (t / 4096 * 512 * 8 + i * 8) by lia.
  replace (t' + 8 * i') with (t' / 4096 * 512 * 8 + i' * 8) by lia.
  rewrite <- !Z.mul_add_distr_r, !Z.div_mul by lia. lia.
Qed.

Lemma rd_wr_slot s t i t' i' v :
  t mod 4096 = 0 -> t' mod 4096 = 0 -> 0 <= i < 512 -> 0 <= i' < 512 ->
  rd (wr s (t + 8 * i) v) (t' + 8 * i') = if decide (t = t' /\ i = i') then v else rd s (t' + 8 * i').
Proof.
  intros. rewrite rd_wr. pose proof (slot_eq t i t' i').
  destruct (decide ((t + 8 * i) / 8 = (t' + 8 * i') / 8)), (decide (t = t' /\ i = i')); tauto.
Qed.

Lemma zero_page_rd s p t i :
  p mod 4096 = 0 -> t mod 4096 = 0 -> 0 <= i < 512 ->
  rd (zero_page s p) (t + 8 * i) = if decide (t = p) then 0 else rd s (t + 8 * i).
Proof.
  intros Hp Ht Hi.
  pose proof (for_range_inv (fun k u => forall j, 0 <= j < 512 ->
     rd u (t + 8 * j) = if decide (t = p /\ j < k) then 0 else rd s (t + 8 * j))
     (fun i u => wr u (p + 8 * i) 0) PAGE_TABLE_ENTRIES 0 s) as H.
  specialize (H ltac:(intros j Hj; destruct (decide (t = p /\ j < 0)); [lia|done])).
  assert (Hs : forall k u, 0 <= k < 0 + Z.of_nat PAGE_TABLE_ENTRIES ->
     (forall j, 0 <= j < 512 -> rd u (t + 8 * j) = if decide (t = p /\ j < k) then 0 else rd s (t + 8 * j)) ->
     forall j, 0 <= j < 512 -> rd (wr u (p + 8 * k) 0) (t + 8 * j) = if decide (t = p /\ j < k + 1) then 0 else rd s (t + 8 * j)).
  { intros k u Hk Hu j Hj. change (Z.of_nat PAGE_TABLE_ENTRIES) with 512 in Hk.
    rewrite rd_wr_slot, Hu by (done || lia).
    destruct (decide (p = t /\ k = j)), (decide (t = p /\ j < k)), (decide (t = p /\ j < k + 1)); try done; lia. }
  specialize (H Hs i Hi). unfold zero_page. rewrite H. change (0 + Z.of_nat PAGE_TABLE_ENTRIES) with 512.
  destruct (decide (t = p /\ i < 512)), (decide (t = p)); try done; lia.
Qed.

(** Only the words of the page change. *)
Lemma zero_page_ram s p : (forall i, in_u64 (ram s).[i]) -> forall i, in_u64 (ram (zero_page s p)).[i].
Proof.
  intros H. unfold zero_page.
  pose proof (for_range_inv (fun _ u => forall i, in_u64 (ram u).[i]) (fun i u => wr u (p + 8 * i) 0) PAGE_TABLE_ENTRIES 0 s H) as Hi.
  apply Hi. intros k u _ Hu j. simpl. rewrite aget_aset. by case_decide.
Qed.

Lemma zero_page_pm s p : pm (zero_page s p) = pm s.
Proof.
  unfold zero_page. apply (for_range_inv (fun _ u => pm u = pm s) (fun i u => wr u (p + 8 * i) 0) PAGE_TABLE_ENTRIES 0 s); [done|].
  intros k u _ Hu. done.
Qed.

Lemma pm_wr s a v : pm (wr s a v) = pm s.
Proof. done. Qed.

Lemma wr_ram s a v : in_u64 v -> (forall i, in_u64 (ram s).[i]) -> forall i, in_u64 (ram (wr s a v)).[i].
Proof. intros Hv H i. simpl. rewrite aget_aset. by case_decide. Qed.

(** What every page-table update keeps. *)
Definition same_cpu (s s' : vmm) : Prop := cr3 s' = cr3 s /\ mmio_next_virtual s' = mmio_next_virtual s.

#[export] Instance same_cpu_preorder : PreOrder same_cpu.
Proof. split; [done|]. intros s t u [H1 H2] [H3 H4]. split; congruence. Qed.

Lemma same_cpu_wr s a v : same_cpu s (wr s a v).
Proof. done. Qed.

Lemma same_cpu_set_pm s p : same_cpu s (set_pm s p).
Proof. done. Qed.

Lemma zero_page_cpu s p : same_cpu s (zero_page s p).
Proof.
  unfold zero_page. apply (for_range_inv (fun _ u => same_cpu s u) (fun i u => wr u (p + 8 * i) 0) PAGE_TABLE_ENTRIES 0 s); [done|].
  intros k u _ Hu. done.
Qed.

(** Copying a frame onto a different one. *)
Lemma copy_page_rd s dst src t i :
  dst mod 4096 = 0 -> src mod 4096 = 0 -> t mod 4096 = 0 -> dst <> src -> 0 <= i < 512 ->
  rd (copy_page s dst src) (t + 8 * i) = if decide (t = dst) then rd s (src + 8 * i) else rd s (t + 8 * i).
Proof.
  intros Hd Hs Ht Hne Hi. unfold copy_page.
  pose proof (for_range_inv (fun k u => forall v j, v mod 4096 = 0 -> 0 <= j < 512 ->
     rd u (v + 8 * j) = if decide (v = dst /\ j < k) then rd s (src + 8 * j) else rd s (v + 8 * j))
     (fun i u => wr u (dst + 8 * i) (rd u (src + 8 * i))) PAGE_TABLE_ENTRIES 0 s) as H.
  rewrite H; clear H; [change (0 + Z.of_nat PAGE_TABLE_ENTRIES) with 512| | |done|done].
  - destruct (decide (t = dst /\ i < 512)), (decide (t = dst)); try done; lia.
  - intros v j Hv Hj. destruct (decide (v = dst /\ j < 0)); [lia|done].
  - intros k u Hk Hu v j Hv Hj. change (Z.of_nat PAGE_TABLE_ENTRIES) with 512 in Hk.
    rewrite rd_wr_slot, !Hu by (done || lia).
    destruct (decide (src = dst /\ k < k)); [lia|].
    destruct (decide (dst = v /\ k = j)) as [E|], (decide (v = dst /\ j < k + 1)), (decide (v = dst /\ j < k));
      try lia; try done. by destruct E as [_ ->].
Qed.

(** What copying leaves alone. *)
Lemma copy_page_frame s dst src :
  pm (copy_page s dst src) = pm s /\ same_cpu s (copy_page s dst src) /\
  ((forall i, in_u64 (ram s).[i]) -> forall i, in_u64 (ram (copy_page s dst src)).[i]).
Proof.
  unfold copy_page.
  apply (for_range_inv (fun _ u => pm u = pm s /\ same_cpu s u /\
     ((forall i, in_u64 (ram s).[i]) -> forall i, in_u64 (ram u).[i]))
     (fun i u => wr u (dst + 8 * i) (rd u (src + 8 * i))) PAGE_TABLE_ENTRIES 0 s); [done|].
  intros k u _ (H1 & H2 & H3). split; [done|]. split; [done|]. intros H i. apply wr_ram; [apply H3, H|by apply H3].
Qed.

#[export] Hint Resolve same_cpu_wr same_cpu_set_pm zero_page_cpu : npk.
#[global] Opaque zero_page copy_page.

(** ** The walk of the code is the generic walk *)

Lemma leaf_entry_ptr_tbl s root va :
  leaf_entry_ptr s root va =
  if negb (root_allowed root) || negb (canonical va) then None
  else match tbl s root va 3 with None => None | Some t => Some (t + 8 * index1 va) end.
Proof.
  unfold leaf_entry_ptr. destruct (_ || _); [done|]. simpl.
  destruct (walk_stops _); [done|]. destruct (walk_stops _); [done|]. by destruct (walk_stops _).
Qed.

Lemma tbl_le s root va d d' t : (d' <= d)%nat -> tbl s root va d = Some t -> exists t', tbl s root va d' = Some t'.
Proof.
  revert t; induction d as [|d IH]; intros t Hle H.
  - replace d' with O by lia. eauto.
  - destruct (decide (d' = S d)) as [->|]; [eauto|]. simpl in H.
    destruct (tbl s root va d) eqn:E; [|done]. apply (IH z); [lia|done].
Qed.

Lemma tbl_path s root va vb d : same_path va vb d -> tbl s root va d = tbl s root vb d.
Proof.
  induction d as [|d IH]; intros H; simpl; [done|].
  rewrite IH by (intros i Hi; apply H; lia). rewrite (H d) by lia. done.
Qed.

Lemma pte_page s root va vb : same_page va vb -> pte s root va = pte s root vb.
Proof.
  intros H. unfold pte. rewrite (tbl_path s root va vb 3) by (intros i Hi; apply H; lia).
  change (index1 va) with (ix va 3). change (index1 vb) with (ix vb 3). rewrite (H 3%nat) by lia. done.
Qed.

(** ** Adding an empty table below a missing entry *)

Section Extend.
Context (s s' : vmm) (root va : Z) (d : nat) (parent a e' : Z).
Context (Hwf : aspace_wf s root) (Hd : (d <= 2)%nat) (Hp : tbl s root va d = Some parent).
Context (Hold : walk_stops (rd s (parent + 8 * ix va d)) = true).
Context (Hfree : frame_free (pm s) a).
Context (Hrd : forall t i, t mod 4096 = 0 -> 0 <= i < 512 -> t <> a ->
  rd s' (t + 8 * i) = if decide (t = parent /\ i = ix va d) then e' else rd s (t + 8 * i)).
Context (Hnew : forall i, 0 <= i < 512 -> rd s' (a + 8 * i) = 0).
Context (He1 : walk_stops e' = false) (He2 : table_from_entry e' = a).
Context (Hpm : forall t, frame_free (pm s') t -> frame_free (pm s) t /\ t <> a).
Context (Hpwf : pmm_wf (pm s')) (Hram : forall i, in_u64 (ram s').[i]).

Lemma extend_old vb k t : (k <= 3)%nat -> tbl s root vb k = Some t -> t <> a /\ t mod 4096 = 0.
Proof using All.
  intros Hk Ht. destruct (aw_tbl _ _ Hwf vb k t Hk Ht) as (_ & ? & Hn). split; [|done]. by intros ->.
Qed.

Lemma extend_mono vb k t : (k <= 3)%nat -> tbl s root vb k = Some t -> tbl s' root vb k = Some t.
Proof using All.
  revert t; induction k as [|k IH]; intros t Hk H; [done|]. simpl in *.
  destruct (tbl s root vb k) as [t0|] eqn:E; [|done]. rewrite (IH t0) by (lia || done).
  destruct (extend_old vb k t0 ltac:(lia) E) as [Hne Hal].
  rewrite Hrd by (done || apply ix_range). case_decide as Hc; [|done]. exfalso.
  destruct Hc as [-> Hi]. destruct (aw_inj _ _ Hwf vb va k d parent ltac:(lia) ltac:(lia) E Hp) as [-> _].
  rewrite Hi, Hold in H. done.
Qed.

Lemma extend_new vb k t :
  (k <= 3)%nat -> tbl s' root vb k = Some t ->
  tbl s root vb k = Some t \/ (t = a /\ k = S d /\ same_path va vb (S d)).
Proof using All.
  revert t; induction k as [|k IH]; intros t Hk H; [by left|]. simpl in *.
  destruct (tbl s' root vb k) as [t0|] eqn:E; [|done].
  destruct (IH t0 ltac:(lia) eq_refl) as [E0|(-> & -> & _)].
  - rewrite E0. destruct (extend_old vb k t0 ltac:(lia) E0) as [Hne Hal].
    rewrite Hrd in H by (done || apply ix_range). case_decide as Hc; [|by left].
    destruct Hc as [-> Hi]. right. rewrite He1, He2 in H. inv H. split; [done|].
    destruct (aw_inj _ _ Hwf vb va k d parent ltac:(lia) ltac:(lia) E0 Hp) as [-> Hpath]. split; [done|].
    intros i Hi'. destruct (decide (i = d)) as [->|]; [done|]. symmetry. apply Hpath. lia.
  - rewrite Hnew in H by apply ix_range. done.
Qed.

Lemma extend_wf : aspace_wf s' root.
Proof using All.
  split; [done|done| |].
  - intros vb k t Hk Ht. destruct (extend_new vb k t Hk Ht) as [Ho|(-> & -> & _)].
    + destruct (aw_tbl _ _ Hwf vb k t Hk Ho) as (? & ? & Hn). repeat split; [done..|].
      intros Hf. by apply Hn, Hpm.
    + destruct Hfree as [Hm Hf]. split; [|split; [done|]].
      * rewrite page_is_free_true in Hf. pose proof (wf_reserved _ (aw_pmm _ _ Hwf) (a / NPK_PAGE_SIZE)) as Hres.
        rewrite page_is_free_true in Hres. specialize (Hres Hf). unfold NPK_PAGE_SIZE, EARLY_RESERVED_END in *.
        pose proof (Z.div_mod a 4096). lia.
      * intros Hf'. by apply Hpm in Hf' as [_ ?].
  - intros vb vc k k' t Hk Hk' H1 H2.
    pose proof (extend_new vb k t Hk H1) as N1. pose proof (extend_new vc k' t Hk' H2) as N2.
    destruct N1 as [Ho1|(E1 & -> & P1)], N2 as [Ho2|(E2 & -> & P2)].
    + by apply (aw_inj _ _ Hwf vb vc k k' t).
    + by apply extend_old in Ho1 as [? _].
    + by apply extend_old in Ho2 as [? _].
    + split; [done|]. intros i Hi. by rewrite <- P1, <- P2.
Qed.

Lemma extend_pte vb : pte s' root vb = pte s root vb.
Proof using All.
  unfold pte. change (index1 vb) with (ix vb 3). destruct (tbl s root vb 3) as [t|] eqn:E.
  - rewrite (extend_mono vb 3 t) by (lia || done).
    destruct (extend_old vb 3 t ltac:(lia) E) as [Hne Hal].
    rewrite Hrd by (done || apply ix_range). case_decide as Hc; [|done]. exfalso. destruct Hc as [-> _].
    destruct (aw_inj _ _ Hwf vb va 3 d parent ltac:(lia) ltac:(lia) E Hp) as [Hc _]. lia.
  - destruct (tbl s' root vb 3) as [t|] eqn:E'; [|done].
    destruct (extend_new vb 3 t ltac:(lia) E') as [Ho|(-> & _ & _)]; [congruence|].
    rewrite Hnew by apply ix_range. done.
Qed.

Lemma extend_reaches : tbl s' root va (S d) = Some a.
Proof using All.
  simpl. rewrite (extend_mono va d parent) by (lia || done).
  destruct (extend_old va d parent ltac:(lia) Hp) as [Hne Hal].
  rewrite Hrd by (done || apply ix_range). case_decide as Hc; [|tauto]. by rewrite He1, He2.
Qed.
End Extend.

(** ** Writing a leaf entry *)

Section Leaf.
Context (s : vmm) (root va t e' : Z).
Context (Hwf : aspace_wf s root) (Ht : tbl s root va 3 = Some t) (He : in_u64 e').
Let s' := wr s (t + 8 * index1 va) e'.

Lemma leaf_tbl vb k : (k <= 3)%nat -> tbl s' root vb k = tbl s root vb k.
Proof using All.
  induction k as [|k IH]; intros Hk; [done|]. simpl. rewrite IH by lia.
  destruct (tbl s root vb k) as [t0|] eqn:E; [|done].
  destruct (aw_tbl _ _ Hwf vb k t0 ltac:(lia) E) as (_ & Hal & _).
  destruct (aw_tbl _ _ Hwf va 3 t ltac:(lia) Ht) as (_ & Hal' & _).
  unfold s'. change (index1 va) with (ix va 3). rewrite rd_wr_slot by (done || apply ix_range).
  case_decide as Hc; [|done]. exfalso. destruct Hc as [<- _].
  destruct (aw_inj _ _ Hwf vb va k 3 t ltac:(lia) ltac:(lia) E Ht). lia.
Qed.

Lemma leaf_wf : aspace_wf s' root.
Proof using All.
  destruct Hwf as [H1 H2 H3 H4]. split; [done|by apply wr_ram| |].
  - intros vb k u Hk. rewrite leaf_tbl by done. by apply H3.
  - intros vb vc k k' u Hk Hk'. rewrite !leaf_tbl by done. by apply H4.
Qed.

Lemma leaf_pte vb :
  pte s' root vb = if decide (same_page va vb) then (if hasb e' VM_PRESENT then Some e' else None) else pte s root vb.
Proof using All.
  case_decide as Hs.
  - rewrite <- (pte_page _ _ va vb Hs). unfold pte. rewrite leaf_tbl, Ht by lia. unfold s'.
    rewrite rd_wr. by case_decide.
  - unfold pte. rewrite leaf_tbl by lia. destruct (tbl s root vb 3) as [u|] eqn:E; [|done].
    destruct (aw_tbl _ _ Hwf vb 3 u ltac:(lia) E) as (_ & Hal & _).
    destruct (aw_tbl _ _ Hwf va 3 t ltac:(lia) Ht) as (_ & Hal' & _).
    unfold s'. change (index1 va) with (ix va 3). change (index1 vb) with (ix vb 3).
    rewrite rd_wr_slot by (done || apply ix_range). case_decide as Hc; [|done].
    exfalso. destruct Hc as [<- Hi]. apply Hs. intros i Hi'.
    destruct (decide (i = 3%nat)) as [->|]; [done|].
    destruct (aw_inj _ _ Hwf va vb 3 3 t ltac:(lia) ltac:(lia) Ht E) as [_ Hpath]. apply Hpath. lia.
Qed.
End Leaf.

(** ** Bits of entries *)

Lemma aligned_bit a k : a mod 4096 = 0 -> 0 <= k < 12 -> hasb a (2 ^ k) = false.
Proof.
  intros Ha Hk. rewrite hasb_testbit by lia. rewrite <- (Z.mod_pow2_bits_low a 12 k) by lia.
  change (2 ^ 12) with 4096. rewrite Ha. apply Z.bits_0.
Qed.

Lemma addr_mask a : a mod 4096 = 0 -> 0 <= a < 4503599627370496 -> Z.land a ENTRY_ADDR_MASK = a.
Proof.
  intros Ha Hr. change ENTRY_ADDR_MASK with (Z.shiftl (Z.ones 40) 12).
  replace a with (Z.shiftl (a / 4096) 12) by (rewrite Z.shiftl_mul_pow2 by lia; pose proof (Z.div_mod a 4096); lia).
  rewrite <- Z.shiftl_land, Z.land_ones by lia. f_equal. apply Z.mod_small.
  split; [apply Z.div_pos; lia|]. apply Z.div_lt_upper_bound; lia.
Qed.

Lemma addr_mask_aligned e : Z.land e ENTRY_ADDR_MASK mod 4096 = 0.
Proof.
  change ENTRY_ADDR_MASK with (Z.shiftl (Z.ones 40) 12). change 4096 with (2 ^ 12).
  rewrite <- Z.land_ones by lia. apply Z.bits_inj'. intros n Hn.
  rewrite !Z.land_spec, Z.shiftl_spec, Z.bits_0 by lia.
  destruct (decide (n < 12)).
  - rewrite (Z.testbit_neg_r _ (n - 12)) by lia. by rewrite andb_false_r.
  - rewrite (Z.ones_spec_high 12) by lia. by rewrite andb_false_r.
Qed.

Lemma frame_free_bounds p a : pmm_wf p -> frame_free p a -> EARLY_RESERVED_END <= a < 4294967296.
Proof.
  intros Hwf [Hm Hf]. pose proof (wf_reserved _ Hwf _ Hf) as Hres. rewrite page_is_free_true in Hf.
  unfold MAX_TRACKED_PAGES, NPK_PAGE_SIZE in *. pose proof (Z.div_mod a 4096). lia.
Qed.

Lemma table_entry_bits a flags :
  a mod 4096 = 0 -> 0 <= a < 4503599627370496 ->
  walk_stops (Z.lor a (table_flags flags)) = false /\ table_from_entry (Z.lor a (table_flags flags)) = a /\
  in_u64 (Z.lor a (table_flags flags)).
Proof.
  intros Ha Hr. unfold walk_stops, table_from_entry. change VM_PAGE_SIZE with (2 ^ 7).
  rewrite !hasb_lor, (aligned_bit a 7), Z.land_lor_distr_l, addr_mask by (done || lia).
  unfold table_flags. destruct (hasb flags VM_USER); (split; [simpl; by rewrite orb_true_r|]; split; [apply Z.lor_0_r|]);
    (apply in_u64_lor; [split; lia|split; by vm_compute]).
Qed.

(** ** The allocator seen from the page tables *)

Lemma alloc_frame_cases s :
  pmm_wf (pm s) ->
  alloc_frame s = (0, s) \/
  exists a p, alloc_frame s = (a, set_pm s p) /\ a <> 0 /\ frame_free (pm s) a /\ pmm_wf p /\
    (forall t, frame_free p t -> frame_free (pm s) t /\ t <> a) /\
    pmm_page_refs p a = 1 /\
    (forall b, 0 <= b -> b / NPK_PAGE_SIZE <> a / NPK_PAGE_SIZE -> pmm_page_refs p b = pmm_page_refs (pm s) b).
Proof.
  intros Hwf. unfold alloc_frame. destruct (pmm_alloc_page (pm s)) as [a p] eqn:E.
  pose proof (pmm_alloc_page_wf (pm s) Hwf) as Hwf'. rewrite E in Hwf'.
  destruct (pmm_alloc_page_cases (pm s) Hwf) as [[E' _]|(q & Hq & _ & E')]; rewrite E' in E; inv E.
  - left. by destruct s.
  - right. eexists _, _. split; [done|]. pose proof (wf_reserved _ Hwf q Hq). unfold EARLY_RESERVED_END, NPK_PAGE_SIZE in *.
    pose proof Hq as Hr. rewrite page_is_free_true in Hr. destruct Hr as [Hr _].
    split; [lia|]. split; [|split; [done|split; [|split]]].
    + split; [unfold NPK_PAGE_SIZE; by rewrite Z.mod_mul|]. by rewrite page_of_addr.
    + intros t [Ht Hf]. rewrite (page_is_free_bitmap _ (set_used (pm s) q)) in Hf by done.
      rewrite page_is_free_set_used in Hf by lia. zbool. rewrite bool_decide_eq_false in *.
      split; [done|]. intros ->. by rewrite page_of_addr in *.
    + unfold pmm_page_refs. rewrite pmm_rejects_used by done. simpl.
      change (is_used _ q) with (is_used (set_used (pm s) q) q).
      rewrite is_used_set_used, bool_decide_eq_true_2, page_of_addr by (done || lia). simpl. by rewrite aget_aset_eq.
    + intros b Hb0 Hb. rewrite Z.div_mul in Hb by lia. unfold pmm_page_refs, pmm_rejects, NPK_PAGE_SIZE. simpl.
      assert (0 <= b / 4096) by (apply Z.div_pos; lia). rewrite aget_aset_ne by congruence.
      change (is_used (Pmm _ _ _ _ _) (b / 4096)) with (is_used (set_used (pm s) q) (b / 4096)).
      rewrite is_used_set_used, bool_decide_eq_false_2 by (lia || congruence). done.
Qed.

(** [ensure_table] changes no translation, and yields the table one level down. *)
Lemma ensure_table_spec s root va d parent flags r s' :
  aspace_wf s root -> (d <= 2)%nat -> tbl s root va d = Some parent ->
  ensure_table s parent (ix va d) flags = (r, s') ->
  aspace_wf s' root /\ (forall vb, pte s' root vb = pte s root vb) /\ same_cpu s s' /\
  (forall t, r = Some t -> tbl s' root va (S d) = Some t).
Proof.
  intros Hwf Hd Hp. unfold ensure_table. set (e := rd s _).
  destruct (hasb e VM_PAGE_SIZE) eqn:Eps; [intros H; by inv H|].
  destruct (hasb e VM_PRESENT) eqn:Epr.
  { intros H. inv H. split; [done|]. split; [done|]. split; [done|]. intros t Ht. inv Ht. simpl. rewrite Hp. fold e.
    unfold walk_stops. by rewrite Epr, Eps. }
  destruct (alloc_frame_cases s (aw_pmm _ _ Hwf)) as [->|(a & p & -> & Hne & Hfr & Hpwf & Hsub & _)]; simpl.
  { intros H. by inv H. }
  destruct (a =? 0) eqn:E0; [zbool; lia|]. intros H. inv H.
  pose proof (frame_free_bounds _ _ (aw_pmm _ _ Hwf) Hfr) as Hb. unfold EARLY_RESERVED_END in Hb.
  assert (Ham : a mod 4096 = 0) by apply Hfr.
  destruct (table_entry_bits a flags Ham ltac:(lia)) as (B1 & B2 & B3).
  destruct (aw_tbl _ _ Hwf va d parent ltac:(lia) Hp) as (_ & Hpal & Hpfr).
  assert (Hpa : parent <> a) by (by intros ->).
  set (s' := wr _ _ _).
  assert (Hrd : forall t i, t mod 4096 = 0 -> 0 <= i < 512 -> rd s' (t + 8 * i) =
            if decide (t = parent /\ i = ix va d) then Z.lor a (table_flags flags)
            else if decide (t = a) then 0 else rd s (t + 8 * i)).
  { intros t i Ht Hi. unfold s'. rewrite rd_wr_slot by (done || apply ix_range).
    rewrite zero_page_rd by done.
    destruct (decide (parent = t /\ ix va d = i)), (decide (t = parent /\ i = ix va d)); try done; try lia. }
  assert (X : aspace_wf s' root /\ (forall vb, pte s' root vb = pte s root vb) /\ tbl s' root va (S d) = Some a).
  { assert (W : walk_stops (rd s (parent + 8 * ix va d)) = true) by (unfold walk_stops; fold e; by rewrite Epr).
    assert (R : forall t i, t mod 4096 = 0 -> 0 <= i < 512 -> t <> a -> rd s' (t + 8 * i) =
       if decide (t = parent /\ i = ix va d) then Z.lor a (table_flags flags) else rd s (t + 8 * i)).
    { intros t i Ht Hi Hta. rewrite Hrd by done. case_decide; [done|]. by case_decide. }
    assert (N : forall i, 0 <= i < 512 -> rd s' (a + 8 * i) = 0).
    { intros i Hi. rewrite Hrd by done. case_decide as Hc; [by destruct Hc as [-> _]|]. by case_decide. }
    assert (P : forall t, frame_free (pm s') t -> frame_free (pm s) t /\ t <> a).
    { intros t. unfold s'. rewrite pm_wr, zero_page_pm. apply Hsub. }
    assert (PW : pmm_wf (pm s')).
    { unfold s'. by rewrite pm_wr, zero_page_pm. }
    assert (RW : forall i, in_u64 (ram s').[i]) by (apply wr_ram; [done|]; apply zero_page_ram; apply Hwf).
    split; [|split].
    - exact (extend_wf s s' root va d parent a _ Hwf Hd Hp W Hfr R N B1 B2 P PW RW).
    - exact (extend_pte s s' root va d parent a _ Hwf Hd Hp W Hfr R N B1 B2 P PW RW).
    - exact (extend_reaches s s' root va d parent a _ Hwf Hd Hp W Hfr R N B1 B2 P PW RW). }
  destruct X as (X1 & X2 & X3). split; [done|]. split; [done|]. split; [|intros t Ht; by inv Ht].
  etrans; [apply (same_cpu_set_pm s p)|]. etrans; [apply zero_page_cpu|apply same_cpu_wr].
Qed.

Lemma leaf_flags_bits flags : in_u64 (leaf_flags flags) /\ hasb (leaf_flags flags) VM_PRESENT = true.
Proof.
  unfold leaf_flags.
  destruct (hasb flags VM_WRITE), (hasb flags VM_USER), (hasb flags VM_PWT), (hasb flags VM_PCD), (hasb flags VM_NX),
    (hasb flags VM_SHARED), (hasb flags VM_DEVICE); (split; [split; by vm_compute|by vm_compute]).
Qed.

Lemma root_allowed_spec root : root_allowed root = true -> root <> 0 /\ root mod 4096 = 0.
Proof. unfold root_allowed. rewrite land_page_offset. intros. zbool. done. Qed.

(** The guards a successful mapping has passed. *)
Definition map_guards (root va pa flags : Z) : Prop :=
  root_allowed root = true /\ va mod 4096 = 0 /\ pa mod 4096 = 0 /\ canonical va = true /\
  (hasb flags VM_USER = true -> va + NPK_PAGE_SIZE <= USER_LIMIT) /\ Z.land pa (not64 ENTRY_ADDR_MASK) = 0.

(** What a successful call installs, and what a failed one leaves. *)
Lemma vmm_map_page_root_pte s root va pa flags ok s' :
  aspace_wf s root -> in_u64 pa -> vmm_map_page_root s root va pa flags = (ok, s') ->
  aspace_wf s' root /\ same_cpu s s' /\ (ok = true -> pte s root va = None /\ map_guards root va pa flags) /\
  forall vb, pte s' root vb =
    if ok && bool_decide (same_page va vb) then Some (Z.lor pa (leaf_flags flags)) else pte s root vb.
Proof.
  intros Hwf Hpa. unfold vmm_map_page_root. destruct (_ || _) eqn:G1; [intros H; by inv H|].
  destruct (hasb flags VM_USER && _) eqn:G2; [intros H; by inv H|].
  destruct (hasb pa _) eqn:G3; [intros H; by inv H|].
  destruct (ensure_table s root (index4 va) flags) as [r3 s3] eqn:E3.
  destruct (ensure_table_spec s root va 0 root flags r3 s3 Hwf ltac:(lia) eq_refl E3) as (W3 & P3 & C3 & T3).
  destruct r3 as [t3|]; [|intros H; by inv H].
  specialize (T3 t3 eq_refl).
  destruct (ensure_table s3 t3 (index3 va) flags) as [r2 s2] eqn:E2.
  destruct (ensure_table_spec s3 root va 1 t3 flags r2 s2 W3 ltac:(lia) T3 E2) as (W2 & P2 & C2 & T2).
  assert (C23 : same_cpu s s2) by (by trans s3).
  assert (P23 : forall vb, pte s2 root vb = pte s root vb) by (intros; by rewrite P2).
  destruct r2 as [t2|]; [|intros H; by inv H].
  specialize (T2 t2 eq_refl).
  destruct (ensure_table s2 t2 (index2 va) flags) as [r1 s1] eqn:E1.
  destruct (ensure_table_spec s2 root va 2 t2 flags r1 s1 W2 ltac:(lia) T2 E1) as (W1 & P1 & C1 & T1).
  assert (C13 : same_cpu s s1) by (by trans s2).
  assert (P13 : forall vb, pte s1 root vb = pte s root vb) by (intros; by rewrite P1).
  destruct r1 as [t1|]; [|intros H; by inv H].
  specialize (T1 t1 eq_refl).
  destruct (hasb (rd s1 _) VM_PRESENT) eqn:E; intros H; inv H; [by split; [done|]; split|].
  destruct (leaf_flags_bits flags) as [F1 F2].
  assert (in_u64 (Z.lor pa (leaf_flags flags))) by auto with npk.
  split; [by apply (leaf_wf s1 root va)|]. split; [done|]. split.
  - intros _. split; [rewrite <- P13; unfold pte; by rewrite T1, E|].
    unfold map_guards, hasb in *. zbool. rewrite !land_page_offset in *. repeat split; try done.
    intros HU. rewrite HU in G2. simpl in G2. unfold NPK_PAGE_SIZE in *. zbool. lia.
  - intros vb. rewrite (leaf_pte s1 root va) by done. rewrite hasb_lor, F2, orb_true_r, andb_true_l.
    case_decide; [by rewrite bool_decide_eq_true_2|by rewrite bool_decide_eq_false_2].
Qed.

(** ** Translation *)

(** The access check of a lookup against an entry. *)
Definition permits (e required_flags : Z) : bool :=
  negb (hasb required_flags VM_USER && negb (hasb e VM_USER)) &&
  negb (hasb required_flags VM_WRITE && negb (hasb e VM_WRITE)) &&
  negb (hasb required_flags VM_NX && negb (hasb e VM_NX)).

Lemma vmm_lookup_root_pte s root va req :
  vmm_lookup_root s root va req =
  if root_allowed root && canonical va then
    match pte s root va with
    | Some e => if permits e req then Z.lor (Z.land e ENTRY_ADDR_MASK) (va mod 4096) else 0
    | None => 0
    end
  else 0.
Proof.
  unfold vmm_lookup_root, pte. rewrite leaf_entry_ptr_tbl, land_page_offset.
  destruct (root_allowed root); [|done]. destruct (canonical va); [|done]. simpl negb. simpl orb. simpl andb. cbv iota.
  destruct (tbl s root va 3) as [t|]; [|done]. simpl. unfold permits.
  destruct (hasb (rd s _) VM_PRESENT); [|done]. simpl.
  destruct (hasb req VM_USER && _), (hasb req VM_WRITE && _), (hasb req VM_NX && _); done.
Qed.

Lemma shiftr_page va off k : 0 <= off < 4096 -> va mod 4096 = 0 -> 12 <= k -> Z.shiftr (va + off) k = Z.shiftr va k.
Proof.
  intros Ho Hv Hk. replace k with (12 + (k - 12)) by lia. rewrite <- !Z.shiftr_shiftr by lia. f_equal.
  rewrite !Z.shiftr_div_pow2 by lia. change (2 ^ 12) with 4096. pose proof (Z.div_mod va 4096).
  replace (va + off) with (off + va / 4096 * 4096) by lia. rewrite Z.div_add, Z.div_small by lia. lia.
Qed.

Lemma same_page_offset va off : va mod 4096 = 0 -> 0 <= off < 4096 -> same_page va (va + off).
Proof.
  intros Hv Ho i Hi. destruct i as [|[|[|i]]]; simpl; unfold index4, index3, index2, index1;
    by rewrite shiftr_page by lia.
Qed.

Lemma canonical_offset va off : va mod 4096 = 0 -> 0 <= off < 4096 -> canonical (va + off) = canonical va.
Proof. intros. unfold canonical. by rewrite shiftr_page by lia. Qed.

(** The bits of the entry a mapping installs. *)
Lemma leaf_flags_spec flags :
  Z.land (leaf_flags flags) ENTRY_ADDR_MASK = 0 /\ hasb (leaf_flags flags) VM_USER = hasb flags VM_USER /\
  hasb (leaf_flags flags) VM_WRITE = hasb flags VM_WRITE /\ hasb (leaf_flags flags) VM_NX = hasb flags VM_NX /\
  hasb (leaf_flags flags) VM_COW = false /\ hasb (leaf_flags flags) VM_DEVICE = hasb flags VM_DEVICE /\
  hasb (leaf_flags flags) VM_SHARED = hasb flags VM_SHARED.
Proof.
  unfold leaf_flags.
  destruct (hasb flags VM_WRITE), (hasb flags VM_USER), (hasb flags VM_PWT), (hasb flags VM_PCD), (hasb flags VM_NX),
    (hasb flags VM_SHARED), (hasb flags VM_DEVICE); by vm_compute.
Qed.

Lemma addr_no_flags pa m :
  in_u64 pa -> Z.land pa (not64 ENTRY_ADDR_MASK) = 0 -> Z.land ENTRY_ADDR_MASK m = 0 -> hasb pa m = false.
Proof.
  intros Hp H Hm. rewrite <- (land_not64_zero pa ENTRY_ADDR_MASK) by (done || split; by vm_compute).
  unfold hasb. by rewrite <- Z.land_assoc, Hm, Z.land_0_r.
Qed.

Lemma map_entry_bits pa flags :
  in_u64 pa -> Z.land pa (not64 ENTRY_ADDR_MASK) = 0 ->
  Z.land (Z.lor pa (leaf_flags flags)) ENTRY_ADDR_MASK = pa /\
  forall req, permits (Z.lor pa (leaf_flags flags)) req = permits flags req.
Proof.
  intros Hp H. destruct (leaf_flags_spec flags) as (F0 & F1 & F2 & F3 & _). split.
  - rewrite Z.land_lor_distr_l, F0, Z.lor_0_r. apply land_not64_zero; [done|split; by vm_compute|done].
  - intros req. unfold permits. rewrite !hasb_lor, F1, F2, F3.
    rewrite !(addr_no_flags pa) by (done || by vm_compute). done.
Qed.

(** ** Changing and removing a leaf *)

Lemma leaf_entry_ptr_Some s root va a :
  leaf_entry_ptr s root va = Some a ->
  root_allowed root = true /\ canonical va = true /\ exists t, tbl s root va 3 = Some t /\ a = t + 8 * index1 va.
Proof.
  rewrite leaf_entry_ptr_tbl. destruct (root_allowed root), (canonical va); try done.
  simpl orb. cbv iota. destruct (tbl s root va 3) as [t|]; [|done]. intros H. inv H. eauto.
Qed.

Lemma pte_at s root va t : tbl s root va 3 = Some t ->
  pte s root va = if hasb (rd s (t + 8 * index1 va)) VM_PRESENT then Some (rd s (t + 8 * index1 va)) else None.
Proof. intros H. unfold pte. by rewrite H. Qed.

Lemma rd_u64 s a : (forall i, in_u64 (ram s).[i]) -> in_u64 (rd s a).
Proof. intros H. apply H. Qed.

(** Evaluate flag tests on entries built from constants. *)
Ltac flag_bits :=
  repeat (rewrite hasb_lor || rewrite hasb_land);
  repeat match goal with
         | |- context [hasb ?x (Z.land ?m ?f)] =>
             let c := eval vm_compute in (Z.land m f) in
             change (hasb x (Z.land m f)) with (hasb x c)
         | |- context [hasb VM_COW ?f] =>
             let c := eval vm_compute in (hasb VM_COW f) in change (hasb VM_COW f) with c
         | |- context [hasb VM_WRITE ?f] =>
             let c := eval vm_compute in (hasb VM_WRITE f) in change (hasb VM_WRITE f) with c
         end;
  rewrite ?hasb_0_r, ?orb_false_r, ?orb_true_r, ?orb_false_l, ?orb_true_l.

(** The entry [vmm_protect_page_root] writes. *)
Definition protect_entry (old flags : Z) : Z :=
  let updated := Z.lor (Z.land old ENTRY_ADDR_MASK) (leaf_flags flags) in
  let updated := Z.lor updated (Z.land old (Z.lor VM_SHARED VM_DEVICE)) in
  if hasb old VM_COW then Z.land (Z.lor updated VM_COW) (not64 VM_WRITE) else updated.

Lemma protect_entry_u64 old flags : in_u64 old -> in_u64 (protect_entry old flags).
Proof.
  intros H. destruct (leaf_flags_bits flags) as [F _]. unfold protect_entry.
  assert (in_u64 VM_COW) by (split; by vm_compute). destruct (hasb old VM_COW); auto 10 with npk.
Qed.

Lemma land_lor_addr x y : Z.land y ENTRY_ADDR_MASK = 0 -> Z.land (Z.lor x y) ENTRY_ADDR_MASK = Z.land x ENTRY_ADDR_MASK.
Proof. intros H. by rewrite Z.land_lor_distr_l, H, Z.lor_0_r. Qed.

Lemma land_land_addr x m : Z.land m ENTRY_ADDR_MASK = ENTRY_ADDR_MASK ->
  Z.land (Z.land x m) ENTRY_ADDR_MASK = Z.land x ENTRY_ADDR_MASK.
Proof. intros H. by rewrite <- Z.land_assoc, H. Qed.

Lemma land_off_addr x m : Z.land m ENTRY_ADDR_MASK = 0 -> Z.land (Z.land x m) ENTRY_ADDR_MASK = 0.
Proof. intros H. by rewrite <- Z.land_assoc, H, Z.land_0_r. Qed.

Lemma protect_entry_bits old flags :
  let e := protect_entry old flags in
  Z.land e ENTRY_ADDR_MASK = Z.land old ENTRY_ADDR_MASK /\ hasb e VM_PRESENT = true /\
  hasb e VM_USER = hasb flags VM_USER /\ hasb e VM_NX = hasb flags VM_NX /\
  hasb e VM_WRITE = hasb flags VM_WRITE && negb (hasb old VM_COW) /\ hasb e VM_COW = hasb old VM_COW.
Proof.
  destruct (leaf_flags_bits flags) as [_ F]. destruct (leaf_flags_spec flags) as (F0 & F1 & F2 & F3 & F4 & _).
  assert (A : Z.land (Z.land old (Z.lor VM_SHARED VM_DEVICE)) ENTRY_ADDR_MASK = 0) by (apply land_off_addr; by vm_compute).
  unfold protect_entry. destruct (hasb old VM_COW) eqn:E; simpl negb.
  - rewrite land_land_addr, !land_lor_addr by (done || by vm_compute). split; [by rewrite land_land_addr|].
    flag_bits. rewrite ?F, ?F1, ?F2, ?F3, ?F4. flag_bits. rewrite andb_false_r. done.
  - rewrite !land_lor_addr by (done || by vm_compute). split; [by rewrite land_land_addr|].
    flag_bits. rewrite ?F, ?F1, ?F2, ?F3, ?F4. flag_bits. rewrite andb_true_r. done.
Qed.

(** Giving back one of several references keeps the frame in use. *)
Lemma free_frame_shared p a :
  pmm_wf p -> 0 <= a -> 1 < pmm_page_refs p a ->
  pmm_wf (pmm_free_page p a) /\ (forall t, frame_free (pmm_free_page p a) t <-> frame_free p t) /\
  pmm_page_refs (pmm_free_page p a) a = pmm_page_refs p a - 1.
Proof.
  intros Hwf Ha Hr. split; [by apply pmm_free_page_wf|]. unfold pmm_page_refs, pmm_free_page in *.
  destruct (pmm_rejects p a) eqn:E; [lia|]. simpl.
  destruct ((page_refs p).[a / NPK_PAGE_SIZE] =? 0) eqn:E0; [zbool; lia|]. rewrite aget_aset_eq.
  destruct (_ - 1 =? 0) eqn:E1; [zbool; lia|]. simpl. split; [done|].
  change (pmm_rejects (set_refs p _) a) with (pmm_rejects p a). rewrite E. simpl. by rewrite aget_aset_eq.
Qed.

(** A frame with an owner is not a free frame. *)
Lemma refs_not_free p b a : 0 <= b -> pmm_page_refs p b <> 0 -> frame_free p a -> b / NPK_PAGE_SIZE <> a / NPK_PAGE_SIZE.
Proof.
  intros Hb Hr [_ Hf] Heq. rewrite <- Heq in Hf. unfold pmm_page_refs in Hr.
  destruct (pmm_rejects p b) eqn:Er; [done|]. apply pmm_rejects_false in Er as (_ & _ & Hused); [|done].
  rewrite page_is_free_true in Hf. destruct Hf. congruence.
Qed.

(** The well-formedness of a tree depends on the allocator only through its free frames. *)
Lemma aspace_wf_pm s root p :
  aspace_wf s root -> pmm_wf p -> (forall t, frame_free p t -> frame_free (pm s) t) -> aspace_wf (set_pm s p) root.
Proof.
  intros [H1 H2 H3 H4] Hp Hsub.
  assert (T : forall va d, tbl (set_pm s p) root va d = tbl s root va d).
  { intros va d. induction d as [|d IH]; simpl; [done|]. by rewrite IH. }
  split; [done|done| |].
  - intros va d t Hd. rewrite T. intros Ht. destruct (H3 va d t Hd Ht) as (? & ? & Hn). repeat split; [done..|].
    intros Hf. by apply Hn, Hsub.
  - intros va vb d d' t Hd Hd'. rewrite !T. by apply H4.
Qed.

Lemma pte_set_pm s p root va : pte (set_pm s p) root va = pte s root va.
Proof.
  unfold pte. assert (T : forall d, tbl (set_pm s p) root va d = tbl s root va d).
  { intros d. induction d as [|d IH]; simpl; [done|]. by rewrite IH. }
  by rewrite T.
Qed.

(** Overwriting a frame no table lives in leaves every translation. *)
Lemma data_page_tbl s s' root a :
  aspace_wf s root -> frame_free (pm s) a ->
  (forall t i, t mod 4096 = 0 -> 0 <= i < 512 -> t <> a -> rd s' (t + 8 * i) = rd s (t + 8 * i)) ->
  (forall vb k, (k <= 3)%nat -> tbl s' root vb k = tbl s root vb k) /\ (forall vb, pte s' root vb = pte s root vb).
Proof.
  intros Hwf Hfr Hrd.
  assert (N : forall vb k t, (k <= 3)%nat -> tbl s root vb k = Some t ->
              forall i, 0 <= i < 512 -> rd s' (t + 8 * i) = rd s (t + 8 * i)).
  { intros vb k t Hk Ht i Hi. destruct (aw_tbl _ _ Hwf vb k t Hk Ht) as (_ & Hal & Hn). apply Hrd; [done..|].
    by intros ->. }
  assert (T : forall vb k, (k <= 3)%nat -> tbl s' root vb k = tbl s root vb k).
  { intros vb k Hk. induction k as [|k IH]; [done|]. simpl. rewrite IH by lia.
    destruct (tbl s root vb k) as [t|] eqn:E; [|done]. by rewrite (N vb k t ltac:(lia) E _ (ix_range vb k)). }
  split; [done|]. intros vb. unfold pte. change (index1 vb) with (ix vb 3). rewrite T by lia. destruct (tbl s root vb 3) as [t|] eqn:E; [|done].
  by rewrite (N vb 3%nat t ltac:(lia) E _ (ix_range vb 3)).
Qed.

(** The entries a copy-on-write fault installs, in place and for a new frame. *)
Definition cow_entry (e : Z) : Z := Z.land (Z.lor e VM_WRITE) (not64 VM_COW).

Lemma cow_entry_bits e :
  Z.land (cow_entry e) ENTRY_ADDR_MASK = Z.land e ENTRY_ADDR_MASK /\ hasb (cow_entry e) VM_PRESENT = hasb e VM_PRESENT /\
  hasb (cow_entry e) VM_USER = hasb e VM_USER /\ hasb (cow_entry e) VM_WRITE = true /\
  hasb (cow_entry e) VM_COW = false /\ hasb (cow_entry e) VM_NX = hasb e VM_NX.
Proof.
  unfold cow_entry. rewrite land_land_addr, land_lor_addr by (by vm_compute). split; [done|].
  flag_bits. done.
Qed.

Lemma cow_entry_u64 e : in_u64 e -> in_u64 (cow_entry e).
Proof. intros H. unfold cow_entry. assert (in_u64 VM_WRITE) by (split; by vm_compute). auto with npk. Qed.

(** An entry with its frame replaced. *)
Definition retarget (e page : Z) : Z := Z.lor (Z.land e (not64 ENTRY_ADDR_MASK)) page.

Lemma retarget_bits e page :
  page mod 4096 = 0 -> 0 <= page < 4503599627370496 -> in_u64 e ->
  in_u64 (retarget e page) /\ Z.land (retarget e page) ENTRY_ADDR_MASK = page /\
  hasb (retarget e page) VM_PRESENT = hasb e VM_PRESENT /\ hasb (retarget e page) VM_USER = hasb e VM_USER.
Proof.
  intros Hm Hr He. assert (in_u64 page) by (split; lia). unfold retarget. split; [auto with npk|]. split.
  - rewrite Z.land_lor_distr_l, land_off_addr, Z.lor_0_l by (by vm_compute). by apply addr_mask.
  - rewrite !hasb_lor. change (hasb page VM_PRESENT) with (hasb page (2 ^ 0)). change (hasb page VM_USER) with (hasb page (2 ^ 2)).
    rewrite !(aligned_bit page) by (done || lia). flag_bits. done.
Qed.

(** Moving a shared page to the fresh frame [a]. *)
Lemma cow_copy_spec s root va t a p :
  aspace_wf s root -> tbl s root va 3 = Some t -> frame_free (pm s) a -> pmm_wf p ->
  (forall u, frame_free p u -> frame_free (pm s) u /\ u <> a) ->
  let e := rd s (t + 8 * index1 va) in
  let old := Z.land e ENTRY_ADDR_MASK in
  hasb e VM_PRESENT = true -> old <> a ->
  forall s1 s2, s1 = copy_page (set_pm s p) a old ->
  s2 = wr s1 (t + 8 * index1 va) (cow_entry (retarget (rd s1 (t + 8 * index1 va)) a)) ->
  pm s2 = p /\ same_cpu s s2 /\ aspace_wf s2 root /\
  (forall vb, pte s2 root vb = if decide (same_page va vb) then Some (cow_entry (retarget e a)) else pte s root vb) /\
  (forall i, 0 <= i < 512 -> rd s2 (a + 8 * i) = rd s (old + 8 * i)).
Proof.
  intros Hwf Ht Hfr Hp Hsub e old Hpr Hne s1 s2 -> ->. set (s1 := copy_page _ _ _).
  pose proof (frame_free_bounds _ _ (aw_pmm _ _ Hwf) Hfr) as Hb. unfold EARLY_RESERVED_END in Hb.
  assert (Ham : a mod 4096 = 0) by apply Hfr. assert (Hom : old mod 4096 = 0) by apply addr_mask_aligned.
  destruct (aw_tbl _ _ Hwf va 3 t ltac:(lia) Ht) as (_ & Htm & Htf).
  assert (Hta : t <> a) by (by intros ->).
  destruct (copy_page_frame (set_pm s p) a old) as (F1 & F2 & F3). fold s1 in F1, F2, F3.
  assert (R : forall u i, u mod 4096 = 0 -> 0 <= i < 512 -> rd s1 (u + 8 * i) = if decide (u = a) then rd s (old + 8 * i) else rd s (u + 8 * i)).
  { intros u i Hu Hi. unfold s1. by rewrite copy_page_rd. }
  destruct (data_page_tbl s s1 root a Hwf Hfr) as [T1 P1]; [intros u i Hu Hi Hua; rewrite R by done; by case_decide|].
  assert (Hwf1 : aspace_wf s1 root).
  { destruct Hwf as [H1 H2 H3 H4]. split; [by rewrite F1|by apply F3| |].
    - intros vb k u Hk. rewrite T1 by done. intros Hu. destruct (H3 vb k u Hk Hu) as (? & ? & Hn). repeat split; [done..|].
      rewrite F1. intros Hf. apply Hn. by apply Hsub.
    - intros vb vc k k' u Hk Hk'. rewrite !T1 by done. by apply H4. }
  assert (Re : rd s1 (t + 8 * index1 va) = e) by (rewrite (R t (index1 va) Htm (ix_range va 3)); by case_decide).
  assert (Ht1 : tbl s1 root va 3 = Some t) by (rewrite T1 by lia; done).
  destruct (retarget_bits e a Ham ltac:(lia) (rd_u64 _ _ (aw_ram _ _ Hwf))) as (B0 & B1 & B2 & _).
  destruct (cow_entry_bits (retarget e a)) as (_ & C1 & _). rewrite Re.
  pose proof (cow_entry_u64 _ B0) as Hu.
  split; [by rewrite pm_wr|]. split; [etrans; [apply (same_cpu_set_pm s p)|]; etrans; [apply F2|apply same_cpu_wr]|].
  split; [by apply (leaf_wf s1 root va t)|]. split.
  - intros vb. rewrite (leaf_pte s1 root va t) by done. rewrite C1, B2, Hpr. case_decide; [done|]. apply P1.
  - intros i Hi. rewrite (rd_wr_slot s1 t (index1 va) a i _ Htm Ham (ix_range va 3) Hi). case_decide as Hc; [lia|].
    rewrite R by done. by case_decide.
Qed.

(** ** Theorems *)

(** C14: [vmm_map_page_root] refines the update of a partial map from pages to
    entries.  On success the page was unmapped before, every address of it
    translates to the corresponding byte of the frame exactly when the requested
    access is one the flags grant, a user mapping lies below the user limit, and
    no other page changes; on failure no translation changes, although
    intermediate tables may have been added.  The tree stays well formed. *)
Theorem vmm_map_page_root_spec s root va pa flags ok s' :
  aspace_wf s root -> in_u64 pa -> vmm_map_page_root s root va pa flags = (ok, s') ->
  aspace_wf s' root /\
  if ok then
    pte s root va = None /\ (hasb flags VM_USER = true -> va + NPK_PAGE_SIZE <= USER_LIMIT) /\
    (forall off req, 0 <= off < NPK_PAGE_SIZE ->
       vmm_lookup_root s' root (va + off) req = if permits flags req then pa + off else 0) /\
    (forall vb req, ~ same_page va vb -> vmm_lookup_root s' root vb req = vmm_lookup_root s root vb req)
  else forall vb req, vmm_lookup_root s' root vb req = vmm_lookup_root s root vb req.
Proof.
  intros Hwf Hpa Hmap. destruct (vmm_map_page_root_pte _ _ _ _ _ _ _ Hwf Hpa Hmap) as (Hwf' & _ & Hok & Hpte).
  split; [done|]. destruct ok.
  - destruct (Hok eq_refl) as (Hnone & Hr & Hva & Hpal & Hcan & Hus & Hmask). split; [done|]. split; [done|].
    destruct (map_entry_bits pa flags Hpa Hmask) as [B1 B2]. unfold NPK_PAGE_SIZE. split.
    + intros off req Ho. rewrite vmm_lookup_root_pte, Hr, canonical_offset, Hcan, Hpte by done.
      rewrite bool_decide_eq_true_2 by (by apply same_page_offset). simpl. rewrite B1, B2.
      rewrite Z.add_mod, Hva, Z.add_0_l, Z.mod_mod, Z.mod_small by lia.
      by rewrite (lor_aligned pa off 12).
    + intros vb req Hne. rewrite !vmm_lookup_root_pte, Hpte. by rewrite bool_decide_eq_false_2.
  - intros vb req. by rewrite !vmm_lookup_root_pte, Hpte.
Qed.

Lemma vmm_unmap_page_root_pte s root va f s' :
  aspace_wf s root -> vmm_unmap_page_root s root va = (f, s') ->
  aspace_wf s' root /\ same_cpu s s' /\
  (forall vb, root_allowed root = true -> canonical va = true ->
     pte s' root vb = if decide (same_page va vb) then None else pte s root vb) /\
  (forall e, root_allowed root = true -> canonical va = true -> pte s root va = Some e -> f = Z.land e ENTRY_ADDR_MASK).
Proof.
  intros Hwf. unfold vmm_unmap_page_root. destruct (leaf_entry_ptr s root va) as [a|] eqn:E; intros H; inv H.
  - apply leaf_entry_ptr_Some in E as (Hr & Hc & t & Ht & ->).
    split; [by apply (leaf_wf s root va t 0)|]. split; [done|]. split.
    + intros vb _ _. by rewrite (leaf_pte s root va t 0).
    + intros e _ _ He. rewrite (pte_at _ _ _ _ Ht) in He. destruct (hasb _ _); by inv He.
  - split; [done|]. split; [done|].
    assert (N : root_allowed root = true -> canonical va = true -> pte s' root va = None).
    { intros Hr Hc. rewrite leaf_entry_ptr_tbl, Hr, Hc in E. simpl orb in E. cbv iota in E. unfold pte.
      by destruct (tbl s' root va 3). }
    split; [|intros e Hr Hc He; by rewrite N in He].
    intros vb Hr Hc. case_decide as Hs; [|done]. rewrite <- (pte_page _ _ va vb Hs). by apply N.
Qed.

(** Unmapping a page that [vmm_map_page_root] has just mapped returns the
    frame and restores every translation the address space had before. *)
Theorem vmm_map_unmap_roundtrip s root va pa flags s1 f s2 :
  aspace_wf s root -> in_u64 pa ->
  vmm_map_page_root s root va pa flags = (true, s1) -> vmm_unmap_page_root s1 root va = (f, s2) ->
  f = pa /\ aspace_wf s2 root /\
  forall vb req, vmm_lookup_root s2 root vb req = vmm_lookup_root s root vb req.
Proof.
  intros Hwf Hpa Hm Hu.
  destruct (vmm_map_page_root_pte _ _ _ _ _ _ _ Hwf Hpa Hm) as (Hwf1 & _ & Hok & Hp1).
  destruct (Hok eq_refl) as (Hnone & Hr & _ & _ & Hc & _ & Hmask).
  destruct (vmm_unmap_page_root_pte _ _ _ _ _ Hwf1 Hu) as (Hwf2 & _ & Hp2 & Hf).
  destruct (map_entry_bits pa flags Hpa Hmask) as [B _].
  split; [|split; [done|]].
  - rewrite <- B. apply Hf; [done..|]. rewrite Hp1. by rewrite bool_decide_eq_true_2.
  - intros vb req. rewrite !vmm_lookup_root_pte, Hp2, Hp1 by done. case_decide as Hs.
    + by rewrite <- (pte_page s root va vb Hs), Hnone.
    + by rewrite bool_decide_eq_false_2.
Qed.

(** Changing the protection of a user page keeps its frame and every other
    page, and never grants write access to a copy-on-write page: the entry is
    writable exactly when write was asked for and the page is not marked COW.
    A rejected request changes nothing. *)
Theorem vmm_protect_page_root_spec s root va flags ok s' :
  aspace_wf s root -> vmm_protect_page_root s root va flags = (ok, s') ->
  aspace_wf s' root /\
  if ok then
    exists old e, pte s root va = Some old /\ hasb old VM_USER = true /\
      (forall vb, pte s' root vb = if decide (same_page va vb) then Some e else pte s root vb) /\
      Z.land e ENTRY_ADDR_MASK = Z.land old ENTRY_ADDR_MASK /\ hasb e VM_USER = true /\
      hasb e VM_WRITE = hasb flags VM_WRITE && negb (hasb old VM_COW) /\
      hasb e VM_NX = hasb flags VM_NX /\ hasb e VM_COW = hasb old VM_COW
  else s' = s.
Proof.
  intros Hwf. unfold vmm_protect_page_root. destruct (_ || (va >=? USER_LIMIT)) eqn:G; [intros H; by inv H|].
  destruct (leaf_entry_ptr s root va) as [a|] eqn:E; [|intros H; by inv H].
  destruct (negb (hasb _ VM_PRESENT) || _) eqn:G2; [intros H; by inv H|]. intros H. injection H as <- <-.
  apply orb_false_iff in G2 as [Hpr Hus]. apply negb_false_iff in Hpr, Hus.
  apply leaf_entry_ptr_Some in E as (Hr & Hc & t & Ht & ->). set (old := rd s _) in *.
  assert (Hu : in_u64 (protect_entry old flags)) by (apply protect_entry_u64, rd_u64, Hwf).
  destruct (protect_entry_bits old flags) as (B0 & B1 & B2 & B3 & B4 & B5).
  change (wr s _ _) with (wr s (t + 8 * index1 va) (protect_entry old flags)).
  split; [by apply (leaf_wf s root va t)|]. exists old, (protect_entry old flags).
  split; [rewrite (pte_at _ _ _ _ Ht); fold old; by rewrite Hpr|]. split; [done|]. split.
  - intros vb. rewrite (leaf_pte s root va t) by done. by rewrite B1.
  - rewrite B2. rewrite !orb_false_iff, !negb_false_iff in G. split; [done|]. split; [tauto|done].
Qed.

(** What a resolved copy-on-write fault on [va] amounts to. *)
Definition cow_resolved (s : vmm) (root va : Z) (s' : vmm) (old new : Z) : Prop :=
  let po := Z.land old ENTRY_ADDR_MASK in let pn := Z.land new ENTRY_ADDR_MASK in
  aspace_wf s' root /\
  (forall vb, pte s' root vb = if decide (same_page va vb) then Some new else pte s root vb) /\
  hasb new VM_USER = true /\ hasb new VM_WRITE = true /\ hasb new VM_COW = false /\
  ((pmm_page_refs (pm s) po = 1 /\ pn = po /\ pm s' = pm s) \/
   (pmm_page_refs (pm s) po > 1 /\ frame_free (pm s) pn /\
    pmm_page_refs (pm s') po = pmm_page_refs (pm s) po - 1 /\
    forall i, 0 <= i < 512 -> rd s' (pn + 8 * i) = rd s (po + 8 * i))).

Lemma cow_own_resolved s root va t :
  aspace_wf s root -> tbl s root va 3 = Some t ->
  let e := rd s (t + 8 * index1 va) in
  hasb e VM_PRESENT = true -> hasb e VM_USER = true -> pmm_page_refs (pm s) (Z.land e ENTRY_ADDR_MASK) = 1 ->
  cow_resolved s root va (wr s (t + 8 * index1 va) (cow_entry e)) e (cow_entry e).
Proof.
  intros Hwf Ht e Hpr Hus Hr. destruct (cow_entry_bits e) as (B0 & B1 & B2 & B3 & B4 & _).
  assert (Hu : in_u64 (cow_entry e)) by (apply cow_entry_u64, rd_u64, Hwf).
  split; [by apply (leaf_wf s root va t)|].
  split; [intros vb; rewrite (leaf_pte s root va t) by done; by rewrite B1, Hpr|].
  rewrite B2, B3, B4. repeat split; try done. left. rewrite B0. done.
Qed.

Lemma cow_shared_resolved s root va t a p s1 :
  aspace_wf s root -> tbl s root va 3 = Some t ->
  let e := rd s (t + 8 * index1 va) in
  let po := Z.land e ENTRY_ADDR_MASK in
  hasb e VM_PRESENT = true -> hasb e VM_USER = true -> pmm_page_refs (pm s) po > 1 ->
  frame_free (pm s) a -> pmm_wf p -> (forall u, frame_free p u -> frame_free (pm s) u /\ u <> a) ->
  (forall b, 0 <= b -> b / NPK_PAGE_SIZE <> a / NPK_PAGE_SIZE -> pmm_page_refs p b = pmm_page_refs (pm s) b) ->
  s1 = copy_page (set_pm s p) a po ->
  cow_resolved s root va
    (free_frame (wr s1 (t + 8 * index1 va) (cow_entry (retarget (rd s1 (t + 8 * index1 va)) a))) po) e (cow_entry (retarget e a)).
Proof.
  intros Hwf Ht e po Hpr Hus Hrefs Hfr Hpwf Hsub Hrb Es1.
  assert (Hpo : 0 <= po) by (apply Z.land_nonneg; right; by vm_compute).
  assert (Hpa : po / NPK_PAGE_SIZE <> a / NPK_PAGE_SIZE) by (apply (refs_not_free (pm s)); [done|lia|done]).
  remember (wr s1 _ _) as s2 eqn:E2.
  destruct (cow_copy_spec s root va t a p Hwf Ht Hfr Hpwf Hsub Hpr
    (fun H => Hpa (f_equal (fun z => z / NPK_PAGE_SIZE) H)) s1 s2 Es1 E2) as (S1 & S2 & S3 & S4 & S5).
  fold e in S4. fold e po in S5. clear E2 Es1 s1.
  destruct (free_frame_shared p po Hpwf Hpo) as (W1 & W2 & W3); [rewrite Hrb by done; lia|].
  pose proof (frame_free_bounds _ _ (aw_pmm _ _ Hwf) Hfr) as Hb. unfold EARLY_RESERVED_END in Hb.
  destruct (retarget_bits e a (proj1 Hfr) ltac:(lia) (rd_u64 _ _ (aw_ram _ _ Hwf))) as (R0 & R1 & R2 & R3).
  destruct (cow_entry_bits (retarget e a)) as (C0 & C1 & C2 & C3 & C4 & _).
  unfold cow_resolved. fold po. rewrite C0, C2, C3, C4, R1, R3. unfold free_frame. rewrite S1.
  split; [apply aspace_wf_pm; [done|done|rewrite S1; apply W2]|].
  split; [intros vb; rewrite pte_set_pm; apply S4|]. split; [done|]. split; [done|]. split; [done|].
  right. split; [done|]. split; [done|]. split; [|exact S5]. simpl. rewrite W3, Hrb by done. done.
Qed.

(** C34: Resolving a copy-on-write fault makes exactly the faulting page writable
    and clears its COW mark.  A page whose frame has one owner keeps the frame
    and the memory; a shared page moves to a fresh frame that holds the same
    words, and the shared frame loses one reference.  In every other case the
    state is unchanged, and no other page of the address space changes. *)
Theorem vmm_resolve_cow_fault_spec s root va ok s' :
  aspace_wf s root -> vmm_resolve_cow_fault s root va = (ok, s') ->
  if ok then
    exists old new, pte s root va = Some old /\ hasb old VM_USER = true /\ hasb old VM_COW = true /\
      cow_resolved s root va s' old new
  else s' = s.
Proof.
  intros Hwf. unfold vmm_resolve_cow_fault.
  destruct (leaf_entry_ptr s root va) as [a0|] eqn:E; [|intros H; by inv H].
  destruct (negb (hasb _ VM_PRESENT) || _ || _) eqn:G; [intros H; by inv H|].
  rewrite !orb_false_iff, !negb_false_iff in G. destruct G as [[Hpr Hus] Hcow].
  apply leaf_entry_ptr_Some in E as (Hr & Hc & t & Ht & ->).
  assert (Hpte : pte s root va = Some (rd s (t + 8 * index1 va))) by (rewrite (pte_at _ _ _ _ Ht); by rewrite Hpr).
  destruct (_ =? 0) eqn:E0; [intros H; by inv H|]. destruct (_ =? 1) eqn:E1; zbool.
  - intros H. injection H as <- <-. eexists _, _. split; [done|]. split; [done|]. split; [done|].
    by apply cow_own_resolved.
  - destruct (alloc_frame_cases s (aw_pmm _ _ Hwf)) as [->|(a & p & -> & Hne & Hfr & Hpwf & Hsub & _ & Hrb)].
    { intros H. by inv H. }
    apply Z.eqb_neq in Hne. rewrite Hne. remember (copy_page (set_pm s p) a _) as s1 eqn:Es1.
    intros H. injection H as <- <-. eexists _, _. split; [done|]. split; [done|]. split; [done|].
    apply cow_shared_resolved with p; try done.
    pose proof (wf_refs _ (aw_pmm _ _ Hwf) (Z.land (rd s (t + 8 * index1 va)) ENTRY_ADDR_MASK / NPK_PAGE_SIZE)).
    unfold pmm_page_refs in *. destruct (pmm_rejects _ _); lia.
Qed.

(** [vmm_is_user_range] accepts exactly the ranges that start below the user
    limit and end at or below it; neither the sum nor the last byte can wrap. *)
Theorem vmm_is_user_range_spec address length :
  in_u64 address -> in_u64 length ->
  vmm_is_user_range address length = true <-> address < USER_LIMIT /\ address + length <= USER_LIMIT.
Proof.
  intros [Ha _] [Hl _]. unfold vmm_is_user_range, USER_LIMIT. destruct (length =? 0) eqn:E0; zbool; [lia|].
  assert (C : forall x, 0 <= x < 140737488355328 -> canonical x = true).
  { intros x Hx. unfold canonical. rewrite Z.shiftr_div_pow2 by lia. by rewrite Z.div_small by lia. }
  split.
  - intros H. zbool. lia.
  - intros [H1 H2]. rewrite u64_small by lia. rewrite !C by lia. lia.
Qed.

(** ** A concrete machine *)

Lemma empty_root_wf s root :
  pmm_wf (pm s) -> (forall i, in_u64 (ram s).[i]) -> 0 < root -> root mod 4096 = 0 -> ~ frame_free (pm s) root ->
  (forall i, 0 <= i < 512 -> rd s (root + 8 * i) = 0) -> aspace_wf s root.
Proof.
  intros Hp Hr H0 Hm Hf Hz.
  assert (T : forall va d t, tbl s root va d = Some t -> d = O /\ t = root).
  { intros va d. induction d as [|d IH]; intros t Ht; simpl in Ht; [by inv Ht|].
    destruct (tbl s root va d) as [u|] eqn:E; [|done]. destruct (IH u eq_refl) as [-> ->].
    by rewrite Hz in Ht by apply ix_range. }
  split; [done|done| |].
  - intros va d t _ Ht. by destruct (T _ _ _ Ht) as [_ ->].
  - intros va vb d d' t _ _ H1 H2. destruct (T _ _ _ H1) as [-> _], (T _ _ _ H2) as [-> _]. split; [done|]. intros i Hi. lia.
Qed.

(** [n] usable frames above 16 MiB; the first one holds the root table. *)
Definition machine_memmap (n : Z) : boot_info := BootInfo (Some 0) (Some [MemmapEntry 16777216 (n * 4096) 0]).
Definition machine (n : Z) : vmm :=
  Vmm (pmm_alloc_page (pmm_init (machine_memmap n))).2 (afill 0) 16777216 MMIO_WINDOW_BASE.

Lemma machine_pmm_wf n : pmm_wf (pm (machine n)).
Proof.
  apply pmm_alloc_page_wf, pmm_init_wf. intros es E. injection E as <-. repeat constructor. simpl. lia.
Qed.

Lemma machine_wf n : page_is_free (pm (machine n)) 4096 = false -> aspace_wf (machine n) 16777216.
Proof.
  intros H. apply empty_root_wf; [apply machine_pmm_wf|done|lia|done| |done].
  intros [_ Hf]. change (16777216 / NPK_PAGE_SIZE) with 4096 in Hf. congruence.
Qed.

Lemma machine_8_wf : aspace_wf (machine 8) 16777216.
Proof. apply machine_wf. vm_compute. done. Qed.

Definition map_example : bool * vmm := vmm_map_page_root (machine 8) 16777216 4194304 20480 (Z.lor VM_USER VM_WRITE).

Lemma vmm_map_page_root_spec_witness :
  map_example.1 = true /\ vmm_lookup_root map_example.2 16777216 (4194304 + 7) VM_WRITE = 20487.
Proof.
  assert (E : map_example.1 = true) by (vm_compute; reflexivity).
  unfold map_example in *. destruct (vmm_map_page_root _ _ _ _ _) as [ok s'] eqn:Em. simpl in E. subst ok. cbn [snd].
  destruct (vmm_map_page_root_spec (machine 8) 16777216 4194304 20480 _ true s' machine_8_wf ltac:(split; by vm_compute) Em) as (_ & _ & _ & H & _).
  split; [reflexivity|]. rewrite H by (unfold NPK_PAGE_SIZE; lia). reflexivity.
Defined.

Lemma vmm_map_unmap_roundtrip_witness :
  (vmm_unmap_page_root map_example.2 16777216 4194304).1 = 20480.
Proof.
  assert (E : map_example.1 = true) by (vm_compute; reflexivity).
  unfold map_example in *. destruct (vmm_map_page_root _ _ _ _ _) as [ok s'] eqn:Em. simpl in E. subst ok. cbn [snd].
  destruct (vmm_unmap_page_root s' 16777216 4194304) as [f s2] eqn:Eu.
  destruct (vmm_map_unmap_roundtrip (machine 8) 16777216 4194304 20480 _ s' f s2 machine_8_wf ltac:(split; by vm_compute) Em Eu) as (H & _).
  exact H.
Defined.

Lemma map_example_wf : aspace_wf map_example.2 16777216.
Proof.
  unfold map_example. destruct (vmm_map_page_root _ _ _ _ _) as [ok s'] eqn:Em. cbn [snd].
  by destruct (vmm_map_page_root_pte (machine 8) 16777216 4194304 20480 _ ok s' machine_8_wf ltac:(split; by vm_compute) Em) as (H & _).
Qed.

Lemma vmm_protect_page_root_spec_witness :
  (vmm_protect_page_root map_example.2 16777216 4194304 VM_USER).1 = true /\
  exists e, pte (vmm_protect_page_root map_example.2 16777216 4194304 VM_USER).2 16777216 4194304 = Some e /\
    hasb e VM_WRITE = false.
Proof.
  assert (E : (vmm_protect_page_root map_example.2 16777216 4194304 VM_USER).1 = true) by (vm_compute; reflexivity).
  split; [exact E|].
  destruct (vmm_protect_page_root map_example.2 16777216 4194304 VM_USER) as [ok s'] eqn:Ep. simpl in E. subst ok. cbn [snd].
  destruct (vmm_protect_page_root_spec map_example.2 16777216 4194304 VM_USER true s' map_example_wf Ep)
    as (_ & old & e & _ & _ & H & _ & _ & Hw & _).
  exists e. rewrite H, Hw. rewrite decide_True by (intros i _; reflexivity). split; reflexivity.
Defined.

(** A frame with two owners, mapped read-only and marked copy-on-write. *)
Definition shared_frame : vmm := retain_frame (alloc_frame (machine 9)).2 16781312.
Definition shared_map : bool * vmm := vmm_map_page_root shared_frame 16777216 4194304 16781312 VM_USER.
Definition cow_example : vmm :=
  match leaf_entry_ptr shared_map.2 16777216 4194304 with
  | Some a => wr shared_map.2 a (Z.lor (rd shared_map.2 a) VM_COW)
  | None => shared_map.2
  end.

Lemma alloc_frame_wf s root : aspace_wf s root -> aspace_wf (alloc_frame s).2 root.
Proof.
  intros Hwf. destruct (alloc_frame_cases s (aw_pmm _ _ Hwf)) as [->|(a & p & -> & _ & _ & Hp & Hs & _)]; [done|].
  apply aspace_wf_pm; [done|done|]. intros t Ht. by apply Hs.
Qed.

Lemma retain_frame_wf s root a : 0 <= a -> pmm_page_refs (pm s) a <> 0 -> aspace_wf s root -> aspace_wf (retain_frame s a) root.
Proof.
  intros Ha Hr Hwf. apply aspace_wf_pm; [done|by apply pmm_retain_page_wf, Hwf|].
  intros t. unfold frame_free, pmm_retain_page. destruct (pmm_rejects _ _); [done|]. by destruct (negb _).
Qed.

Lemma cow_example_wf : aspace_wf cow_example 16777216.
Proof.
  assert (W : aspace_wf shared_frame 16777216).
  { apply retain_frame_wf; [lia|vm_compute; discriminate|]. apply alloc_frame_wf, machine_wf. vm_compute. done. }
  assert (M : aspace_wf shared_map.2 16777216).
  { unfold shared_map. destruct (vmm_map_page_root _ _ _ _ _) as [ok s'] eqn:Em.
    by destruct (vmm_map_page_root_pte shared_frame 16777216 4194304 16781312 _ ok s' W ltac:(split; by vm_compute) Em) as (H & _). }
  unfold cow_example. destruct (leaf_entry_ptr shared_map.2 16777216 4194304) as [a|] eqn:E; [|done].
  apply leaf_entry_ptr_Some in E as (_ & _ & t & Ht & ->).
  assert (in_u64 VM_COW) by (split; by vm_compute). pose proof (rd_u64 shared_map.2 (t + 8 * index1 4194304) (aw_ram _ _ M)).
  apply (leaf_wf shared_map.2 16777216 4194304 t); [done|done|]. auto with npk.
Qed.

Lemma vmm_resolve_cow_fault_spec_witness :
  (vmm_resolve_cow_fault cow_example 16777216 4194304).1 = true /\
  exists old new, cow_resolved cow_example 16777216 4194304 (vmm_resolve_cow_fault cow_example 16777216 4194304).2 old new.
Proof.
  assert (E : (vmm_resolve_cow_fault cow_example 16777216 4194304).1 = true) by (vm_compute; reflexivity).
  split; [exact E|].
  destruct (vmm_resolve_cow_fault cow_example 16777216 4194304) as [ok s'] eqn:Ep. simpl in E. subst ok. cbn [snd].
  destruct (vmm_resolve_cow_fault_spec cow_example 16777216 4194304 true s' cow_example_wf Ep)
    as (old & new & _ & _ & _ & H). exists old, new. exact H.
Defined.

Lemma vmm_is_user_range_spec_witness : vmm_is_user_range 140737488351232 4096 = true.
Proof. apply vmm_is_user_range_spec; [split; by vm_compute|split; by vm_compute|split; by vm_compute]. Defined.

(** ** A clone that loses pages

    Fourteen frames hold the parent's tables for two distant pages, and leave too
    few for the second half of the copy: the nested failure is taken for an
    empty table, so the clone succeeds without the second page. *)
Definition clone_parent : vmm :=
  let s := machine 14 in
  let '(f1, s) := alloc_frame s in
  let '(f2, s) := alloc_frame s in
  let s := (vmm_map_page_root s 16777216 4096 f1 (Z.lor VM_USER VM_WRITE)).2 in
  (vmm_map_page_root s 16777216 549755817984 f2 (Z.lor VM_USER VM_WRITE)).2.

Lemma vmm_clone_user_space_drops_pages :
  let '(child, s) := vmm_clone_user_space clone_parent 16777216 in
  child <> 0 /\ vmm_lookup_root s child 4096 VM_USER <> 0 /\
  vmm_lookup_root s 16777216 549755817984 VM_USER <> 0 /\ vmm_lookup_root s child 549755817984 VM_USER = 0.
Proof. vm_compute. repeat split; discriminate. Qed.
