(* ===== verification/Heap.v ===== *)
(** * Kernel heap (src/src/memory/heap.c)

    First-fit allocator over a window that grows page by page.  Block headers
    are kept in a map from the header's address to its fields, with the links
    the code keeps; payload bytes are not represented.  A header is 48 bytes
    (40 bytes of fields, aligned to 16).  An address at which the allocator
    never wrote a header reads as the zeroes of a fresh page. *)

From Stdlib Require Import ZArith Lia Bool ZifyBool.
From stdpp Require Import base numbers list gmap fin_maps.
From S2P Require Import Prelude Pmm Vmm.

Definition HEAP_MAGIC : Z := 0x4e504b4845415041.
Definition HEAP_FREED : Z := 0x4e504b4652454544.
Definition NPK_HEAP_BASE : Z := 0xffff900000000000.
Definition NPK_HEAP_LIMIT : Z := 0xffff900004000000.
Definition NPK_HEAP_ALIGNMENT : Z := 16.
(** sizeof(heap_block_t) *)
Definition HDR : Z := 48.

Record heap_block := HB { magic : Z; size : Z; free : bool; next : Z; prev : Z }.

(** What the heap asks of the layers below: frames and kernel mappings. *)
Class PageSource (M : Type) := {
  ps_alloc_page : M -> Z * M;
  ps_map_page : M -> Z -> Z -> Z -> bool * M;
  ps_free_page : M -> Z -> M
}.

#[export] Instance vmm_page_source : PageSource vmm := {
  ps_alloc_page := alloc_frame;
  ps_map_page := vmm_map_page;
  ps_free_page := free_frame
}.

Record heap (M : Type) := Heap {
  heap_head : Z; heap_mapped : Z; heap_free : Z; heap_ready : bool;
  blocks : gmap Z heap_block; pages : M
}.
Arguments Heap {M} _ _ _ _ _ _.
Arguments heap_head {M} _.
Arguments heap_mapped {M} _.
Arguments heap_free {M} _.
Arguments heap_ready {M} _.
Arguments blocks {M} _.
Arguments pages {M} _.

Definition add_overflow_u64 (a b : Z) : bool := b >? UINT64_MAX - a.

Definition align_up_u64 (value alignment : Z) : Z :=
  if (alignment =? 0) || (value >? UINT64_MAX - (alignment - 1)) then 0
  else Z.land (value + alignment - 1) (not64 (alignment - 1)).

Section Model.
Context {M : Type} `{PageSource M}.
Implicit Types s : heap M.

Definition set_blocks s (m : gmap Z heap_block) : heap M :=
  Heap (heap_head s) (heap_mapped s) (heap_free s) (heap_ready s) m (pages s).
Definition set_heap_free s (n : Z) : heap M :=
  Heap (heap_head s) (heap_mapped s) (u64 n) (heap_ready s) (blocks s) (pages s).
Definition set_head s (a : Z) : heap M :=
  Heap a (heap_mapped s) (heap_free s) (heap_ready s) (blocks s) (pages s).

(** The header at an address, and writing it. *)
Definition blk s (a : Z) : heap_block := default (HB 0 0 false 0 0) (blocks s !! a).
Definition setb s (a : Z) (b : heap_block) : heap M := set_blocks s (<[a := b]> (blocks s)).
Definition set_next s (a n : Z) : heap M :=
  let b := blk s a in setb s a (HB (magic b) (size b) (free b) n (prev b)).
Definition set_prev s (a p : Z) : heap M :=
  let b := blk s a in setb s a (HB (magic b) (size b) (free b) (next b) p).
Definition set_size s (a n : Z) : heap M :=
  let b := blk s a in setb s a (HB (magic b) n (free b) (next b) (prev b)).
Definition set_free_flag s (a : Z) (f : bool) : heap M :=
  let b := blk s a in setb s a (HB (magic b) (size b) f (next b) (prev b)).
Definition set_magic s (a m : Z) : heap M :=
  let b := blk s a in setb s a (HB m (size b) (free b) (next b) (prev b)).

Definition pointer_in_heap s (pointer : Z) : bool :=
  (pointer >=? NPK_HEAP_BASE + HDR) && (pointer <? NPK_HEAP_BASE + heap_mapped s).

(** One round of the loop of [map_more]; [inr] is [return false]. *)
Definition map_one s : heap M + heap M :=
  let '(physical, p) := ps_alloc_page (pages s) in
  let with_pages q mapped := Heap (heap_head s) mapped (heap_free s) (heap_ready s) (blocks s) q in
  if physical =? 0 then inr (with_pages p (heap_mapped s))
  else
    let virtual_address := u64 (NPK_HEAP_BASE + heap_mapped s) in
    let '(ok, p) := ps_map_page p virtual_address physical (Z.lor VM_WRITE VM_NX) in
    if negb ok then inr (with_pages (ps_free_page p physical) (heap_mapped s))
    else inl (with_pages p (u64 (heap_mapped s + NPK_PAGE_SIZE))).

Definition map_more s (required_bytes : Z) : bool * heap M :=
  let required := align_up_u64 required_bytes NPK_PAGE_SIZE in
  if (required =? 0) || (required >? NPK_HEAP_LIMIT - NPK_HEAP_BASE) then (false, s)
  else
    match for_break (fun _ t => map_one t) 0
            (Z.to_nat ((required - heap_mapped s + NPK_PAGE_SIZE - 1) / NPK_PAGE_SIZE)) s with
    | inl t => (true, t)
    | inr t => (false, t)
    end.

(** List walks are bounded by the number of headers ever written. *)
Definition walk_fuel s : nat := S (map_size (blocks s)).

Fixpoint find_free_from (fuel : nat) s (block n : Z) : Z :=
  match fuel with
  | O => 0
  | S fuel' =>
      if block =? 0 then 0
      else if free (blk s block) && (size (blk s block) >=? n) then block
      else find_free_from fuel' s (next (blk s block)) n
  end.
Definition find_free s (n : Z) : Z := find_free_from (walk_fuel s) s (heap_head s) n.

Definition split_block s (block n : Z) : bool * heap M :=
  if size (blk s block) <? u64 (n + HDR + NPK_HEAP_ALIGNMENT) then (false, s)
  else
    let tail := u64 (block + HDR + n) in
    let s := setb s tail (HB HEAP_MAGIC (u64 (size (blk s block) - n - HDR)) true (next (blk s block)) block) in
    let s := if negb (next (blk s tail) =? 0) then set_prev s (next (blk s tail)) tail else s in
    let s := set_next s block tail in
    (true, set_size s block n).

Definition merge_with_next s (block : Z) : heap M :=
  let nxt := next (blk s block) in
  if (nxt =? 0) || negb (free (blk s nxt)) then s
  else
    let expected := u64 (block + HDR + size (blk s block)) in
    if negb (nxt =? expected) || negb (magic (blk s nxt) =? HEAP_MAGIC) then s
    else
      let s := set_size s block (u64 (size (blk s block) + HDR + size (blk s nxt))) in
      let s := set_heap_free s (heap_free s + HDR) in
      let s := set_next s block (next (blk s nxt)) in
      let s := if negb (next (blk s block) =? 0) then set_prev s (next (blk s block)) block else s in
      let s := set_magic s nxt HEAP_FREED in
      set_free_flag s nxt true.

Definition kheap_init (p : M) : heap M :=
  let s := Heap 0 0 0 false ∅ p in
  let '(ok, s) := map_more s NPK_PAGE_SIZE in
  if negb ok then s
  else
    let s := set_head s NPK_HEAP_BASE in
    let s := setb s NPK_HEAP_BASE (HB HEAP_MAGIC (NPK_PAGE_SIZE - HDR) true 0 0) in
    let s := set_heap_free s (size (blk s NPK_HEAP_BASE)) in
    Heap (heap_head s) (heap_mapped s) (heap_free s) true (blocks s) (pages s).

(** [while (last->next) last = last->next]. *)
Fixpoint last_from (fuel : nat) s (last : Z) : Z :=
  match fuel with
  | O => last
  | S fuel' => if next (blk s last) =? 0 then last else last_from fuel' s (next (blk s last))
  end.

(** The tail of [kmalloc]: carve the request out of the chosen block. *)
Definition take_block s (block aligned : Z) : Z * heap M :=
  let free_before := size (blk s block) in
  let '(split, s) := split_block s block aligned in
  let s := set_free_flag s block false in
  let used := if split then free_before - size (blk s (next (blk s block))) else free_before in
  (u64 (block + HDR), set_heap_free s (heap_free s - used)).

(** The header of a new last block, linked behind the current one. *)
Definition append_block s (tail tail_size : Z) : heap M :=
  let s := setb s tail (HB HEAP_MAGIC tail_size true 0 0) in
  let s :=
    if heap_head s =? 0 then set_head s tail
    else
      let last := last_from (walk_fuel s) s (heap_head s) in
      set_prev (set_next s last tail) tail last in
  set_heap_free s (heap_free s + size (blk s tail)).

(** Growth of the heap when no block fits: the new block, or 0. *)
Definition grow_heap s (aligned : Z) : Z * heap M :=
  let old_end := u64 (NPK_HEAP_BASE + heap_mapped s) in
  if add_overflow_u64 (heap_mapped s) (u64 (HDR + aligned)) then (0, s)
  else
    let required := u64 (heap_mapped s + HDR + aligned) in
    let '(ok, s) := map_more s required in
    if negb ok then (0, s)
    else (old_end, append_block s old_end (u64 (NPK_HEAP_BASE + heap_mapped s - old_end - HDR))).

Definition kmalloc s (n : Z) : Z * heap M :=
  if negb (heap_ready s) || (n =? 0) then (0, s)
  else
    let aligned := align_up_u64 n NPK_HEAP_ALIGNMENT in
    if aligned =? 0 then (0, s)
    else
      let block := find_free s aligned in
      if block =? 0 then
        let '(block, s) := grow_heap s aligned in
        if block =? 0 then (0, s) else take_block s block aligned
      else take_block s block aligned.

(** The memset of the payload has no counterpart: payload is not represented. *)
Definition kcalloc s (count n : Z) : Z * heap M :=
  if negb (count =? 0) && (n >? UINT64_MAX / count) then (0, s)
  else kmalloc s (u64 (count * n)).

Definition kfree s (pointer : Z) : heap M :=
  if pointer =? 0 then s
  else if negb (pointer_in_heap s pointer) then s
  else
    let block := pointer - HDR in
    if negb (magic (blk s block) =? HEAP_MAGIC) || free (blk s block) || (size (blk s block) =? 0) then s
    else
      let s := set_free_flag s block true in
      let s := set_heap_free s (heap_free s + size (blk s block)) in
      let '(block, s) :=
        if negb (prev (blk s block) =? 0) && free (blk s (prev (blk s block))) then
          let p := prev (blk s block) in
          let s := merge_with_next s p in (prev (blk s block), s)
        else (block, s) in
      merge_with_next s block.

(** One round of the loop of [kheap_validate]; [None] is [return false]. *)
Fixpoint validate_from (fuel : nat) s (block address previous observed : Z) : option (Z * Z) :=
  match fuel with
  | O => None
  | S fuel' =>
      if block =? 0 then Some (address, observed)
      else
        let b := blk s block in
        if negb (block =? address) || negb (magic b =? HEAP_MAGIC) || negb (prev b =? previous) || (size b =? 0) then None
        else if (size b >? NPK_HEAP_LIMIT - NPK_HEAP_BASE) || add_overflow_u64 address (u64 (HDR + size b)) then None
        else validate_from fuel' s (next b) (u64 (address + (HDR + size b))) block
               (if free b then u64 (observed + size b) else observed)
  end.

Definition kheap_validate s : bool :=
  if negb (heap_ready s) then false
  else
    match validate_from (walk_fuel s) s (heap_head s) NPK_HEAP_BASE 0 0 with
    | None => false
    | Some (address, observed_free) =>
        (address =? u64 (NPK_HEAP_BASE + heap_mapped s)) && (observed_free =? heap_free s)
    end.

Definition kheap_mapped_bytes s : Z := heap_mapped s.
Definition kheap_free_bytes s : Z := heap_free s.
End Model.

(** ** Specification: the heap as a list of blocks

    Blocks in address order with their payload size; [seg] says that the
    headers link exactly these blocks, [layout] that they do not overlap. *)

Record ab := AB { st : Z; sz : Z; fr : bool }.

Definition hdst (l : list ab) (d : Z) : Z := match l with [] => d | b :: _ => st b end.
Fixpoint lastst (l : list ab) (d : Z) : Z := match l with [] => d | b :: l' => lastst l' (st b) end.

Fixpoint seg (m : gmap Z heap_block) (p : Z) (l : list ab) (n : Z) : Prop :=
  match l with
  | [] => True
  | b :: l' => m !! st b = Some (HB HEAP_MAGIC (sz b) (fr b) (hdst l' n) p) /\ seg m (st b) l' n
  end.

Fixpoint layout (lo : Z) (l : list ab) (hi : Z) : Prop :=
  match l with
  | [] => lo <= hi
  | b :: l' => lo <= st b /\ st b mod 16 = 0 /\ 0 < sz b /\ sz b mod 16 = 0 /\ layout (st b + HDR + sz b) l' hi
  end.

Fixpoint sumfree (l : list ab) : Z :=
  match l with [] => 0 | b :: l' => (if fr b then sz b else 0) + sumfree l' end.

(** No gap between the blocks: they tile the window. *)
Fixpoint tiles (lo : Z) (l : list ab) (hi : Z) : Prop :=
  match l with [] => lo = hi | b :: l' => lo = st b /\ tiles (st b + HDR + sz b) l' hi end.

(** Everything but the free counter. *)
Record struct_inv {M} (s : heap M) (l : list ab) : Prop := {
  si_ready : heap_ready s = true;
  si_head : heap_head s = NPK_HEAP_BASE /\ hdst l 0 = NPK_HEAP_BASE;
  si_seg : seg (blocks s) 0 l 0;
  si_layout : layout NPK_HEAP_BASE l (NPK_HEAP_BASE + heap_mapped s);
  si_mapped : 0 <= heap_mapped s <= NPK_HEAP_LIMIT - NPK_HEAP_BASE /\ heap_mapped s mod 4096 = 0;
  si_magic : forall a h, blocks s !! a = Some h -> magic h = HEAP_MAGIC -> exists b, b ∈ l /\ st b = a
}.

Definition heap_inv {M} (s : heap M) (l : list ab) : Prop := struct_inv s l /\ heap_free s = sumfree l.

(** ** Lemmas on block lists *)

Lemma seg_app m p l1 l2 n : seg m p (l1 ++ l2) n <-> seg m p l1 (hdst l2 n) /\ seg m (lastst l1 p) l2 n.
Proof.
  revert p; induction l1 as [|b l1 IH]; intros p; simpl; [tauto|]. rewrite IH.
  destruct l1; simpl; tauto.
Qed.

Lemma seg_frame m m' p l n :
  (forall b, b ∈ l -> m' !! st b = m !! st b) -> seg m p l n -> seg m' p l n.
Proof.
  revert p; induction l as [|b l IH]; intros p Hm H; simpl in *; [done|]. destruct H as [H1 H2]. split.
  - rewrite Hm by set_solver. done.
  - apply IH; [|done]. intros; apply Hm; set_solver.
Qed.

Lemma layout_app lo l1 l2 hi : layout lo (l1 ++ l2) hi <-> exists mid, layout lo l1 mid /\ layout mid l2 hi.
Proof.
  revert lo; induction l1 as [|b l1 IH]; intros lo; simpl.
  - split; [intros H; exists lo; split; [lia|done]|]. intros (mid & Hle & H).
    destruct l2 as [|c l2]; simpl in *; [lia|]. repeat split; try apply H. lia.
  - rewrite IH. split.
    + intros (? & ? & ? & ? & mid & ? & ?). exists mid. tauto.
    + intros (mid & (? & ? & ? & ? & ?) & ?). repeat split; try done. exists mid. tauto.
Qed.

Lemma layout_le lo l hi : layout lo l hi -> lo <= hi.
Proof.
  revert lo; induction l as [|b l IH]; intros lo; simpl; [done|]. intros (? & ? & ? & ? & H).
  apply IH in H. unfold HDR in *. lia.
Qed.

Lemma layout_in lo l hi b :
  layout lo l hi -> b ∈ l ->
  lo <= st b /\ st b + HDR + sz b <= hi /\ 0 < sz b /\ st b mod 16 = 0 /\ sz b mod 16 = 0.
Proof.
  revert lo; induction l as [|c l IH]; intros lo H Hb; [set_solver|]. simpl in H.
  destruct H as (H1 & H2 & H3 & H4 & H5). pose proof (layout_le _ _ _ H5).
  apply elem_of_cons in Hb as [->|Hb]; [repeat split; lia|].
  specialize (IH _ H5 Hb). unfold HDR in *. lia.
Qed.

(** The neighbours of a block lie on either side of it. *)
Lemma layout_mid lo l1 b l2 hi :
  layout lo (l1 ++ b :: l2) hi ->
  (forall c, c ∈ l1 -> lo <= st c /\ st c + HDR + sz c <= st b /\ 0 < sz c) /\
  (forall c, c ∈ l2 -> st b + HDR + sz b <= st c /\ st c + HDR + sz c <= hi /\ 0 < sz c) /\
  lo <= st b /\ st b + HDR + sz b <= hi /\ 0 < sz b /\ st b mod 16 = 0 /\ sz b mod 16 = 0.
Proof.
  rewrite layout_app. intros (mid & H1 & H2). simpl in H2. destruct H2 as (? & ? & ? & ? & H2).
  pose proof (layout_le _ _ _ H1). pose proof (layout_le _ _ _ H2). split; [|split].
  - intros c Hc. destruct (layout_in _ _ _ _ H1 Hc) as (? & ? & ? & ? & ?). lia.
  - intros c Hc. destruct (layout_in _ _ _ _ H2 Hc) as (? & ? & ? & ? & ?). lia.
  - repeat split; lia.
Qed.

Lemma sumfree_app l1 l2 : sumfree (l1 ++ l2) = sumfree l1 + sumfree l2.
Proof. induction l1 as [|b l1 IH]; simpl; [done|]. rewrite IH. lia. Qed.

Lemma sumfree_bound lo l hi : layout lo l hi -> 0 <= sumfree l <= hi - lo.
Proof.
  revert lo; induction l as [|b l IH]; intros lo; simpl; [lia|]. intros (? & ? & ? & ? & H).
  apply IH in H. unfold HDR in *. destruct (fr b); lia.
Qed.

Lemma sumfree_parts lo l1 b l2 hi :
  layout lo (l1 ++ b :: l2) hi ->
  0 <= sumfree l1 /\ 0 <= sumfree l2 /\ sumfree l1 + HDR + sz b + sumfree l2 <= hi - lo.
Proof.
  rewrite layout_app. intros (mid & H1 & H2). simpl in H2. destruct H2 as (? & ? & ? & ? & H2).
  apply sumfree_bound in H1, H2. lia.
Qed.

Lemma hdst_bound lo l hi : layout lo l hi -> hdst l 0 = 0 \/ lo <= hdst l 0 /\ hdst l 0 + HDR < hi.
Proof.
  destruct l as [|b l]; simpl; [by left|]. intros (? & ? & ? & ? & H). apply layout_le in H. right. lia.
Qed.

Lemma seg_at m p l1 b l2 n :
  seg m p (l1 ++ b :: l2) n -> m !! st b = Some (HB HEAP_MAGIC (sz b) (fr b) (hdst l2 n) (lastst l1 p)).
Proof. rewrite seg_app. intros [_ H]. apply H. Qed.

Lemma lastst_app l b l' d : lastst (l ++ b :: l') d = lastst l' (st b).
Proof. revert d; induction l as [|c l IH]; intros d; simpl; [done|]. apply IH. Qed.

(** Replacing the blocks [mid] by [mid'], which start at the same address. *)
Lemma seg_replace m m' l1 b mid b' mid' l2 :
  seg m 0 (l1 ++ (b :: mid) ++ l2) 0 -> st b' = st b ->
  (forall c, c ∈ l1 -> m' !! st c = m !! st c) ->
  seg m' (lastst l1 0) (b' :: mid') (hdst l2 0) ->
  match l2 with
  | [] => True
  | c :: l2' => m' !! st c = Some (HB HEAP_MAGIC (sz c) (fr c) (hdst l2' 0) (lastst mid' (st b'))) /\
                forall d, d ∈ l2' -> m' !! st d = m !! st d
  end ->
  seg m' 0 (l1 ++ (b' :: mid') ++ l2) 0.
Proof.
  rewrite !(seg_app _ _ l1). intros [H1 H2] Hst Hl1 Hmid Hl2. split.
  - apply (seg_frame m); [done|]. simpl in *. by rewrite Hst.
  - rewrite seg_app in *. split; [done|]. destruct H2 as [_ H2]. destruct l2 as [|c l2']; [done|].
    destruct Hl2 as [Hc Hl2]. simpl in *. split; [done|]. apply (seg_frame m); [done|]. apply H2.
Qed.

Lemma layout_replace lo l1 mid mid' l2 hi :
  (forall a b, layout a mid b -> layout a mid' b) -> layout lo (l1 ++ mid ++ l2) hi -> layout lo (l1 ++ mid' ++ l2) hi.
Proof.
  intros H. rewrite !layout_app. intros (x & H1 & H2). exists x. split; [done|].
  rewrite layout_app in *. destruct H2 as (y & H2 & H3). exists y. auto.
Qed.

Section Steps.
Context {M : Type} `{PageSource M}.
Implicit Types (s : heap M) (l : list ab).

Lemma lookup_setb s a b c : blocks (setb s a b) !! c = if decide (a = c) then Some b else blocks s !! c.
Proof. simpl. by rewrite lookup_insert. Qed.

Lemma blk_setb s a b c : blk (setb s a b) c = if decide (a = c) then b else blk s c.
Proof. unfold blk. rewrite lookup_setb. by case_decide. Qed.

Lemma blk_lookup s a h : blocks s !! a = Some h -> blk s a = h.
Proof. unfold blk. by intros ->. Qed.

Lemma blk_set_heap_free s n a : blk (set_heap_free s n) a = blk s a.
Proof. done. Qed.

Lemma blocks_set_heap_free s n : blocks (set_heap_free s n) = blocks s.
Proof. done. Qed.

(** Numeric facts about a block of the list. *)
Lemma struct_mid s l1 b l2 :
  struct_inv s (l1 ++ b :: l2) ->
  blk s (st b) = HB HEAP_MAGIC (sz b) (fr b) (hdst l2 0) (lastst l1 0) /\
  (forall c, c ∈ l1 -> NPK_HEAP_BASE <= st c /\ st c + HDR + sz c <= st b /\ 0 < sz c) /\
  (forall c, c ∈ l2 -> st b + HDR + sz b <= st c /\ 0 < sz c) /\
  NPK_HEAP_BASE <= st b /\ st b + HDR + sz b <= NPK_HEAP_BASE + heap_mapped s /\
  st b + HDR + sz b <= NPK_HEAP_LIMIT /\ 0 < sz b /\ st b mod 16 = 0 /\ sz b mod 16 = 0.
Proof.
  intros [_ _ Hseg Hlay [Hm _] _]. split; [apply blk_lookup; by apply (seg_at _ _ _ _ _ _ Hseg)|].
  destruct (layout_mid _ _ _ _ _ Hlay) as (A & B & C & D & E & F & G). split; [done|].
  split; [intros c Hc; destruct (B c Hc) as (? & ? & ?); lia|]. repeat split; lia.
Qed.

Ltac heap_consts := unfold NPK_HEAP_BASE, NPK_HEAP_LIMIT, HDR, NPK_HEAP_ALIGNMENT in *.
Ltac slot := repeat first [rewrite decide_True by (done || lia) | rewrite decide_False by (done || lia)].

(** [if (next) next->prev = p], for the block that follows in the list. *)
Definition relink s l (p : Z) : heap M :=
  if negb (hdst l 0 =? 0) then set_prev s (hdst l 0) p else s.

Lemma relink_lookup s l p a :
  (forall c l', l = c :: l' -> st c <> 0 /\ exists q, blocks s !! st c = Some (HB HEAP_MAGIC (sz c) (fr c) (hdst l' 0) q)) ->
  blocks (relink s l p) !! a =
  match l with
  | c :: l' => if decide (st c = a) then Some (HB HEAP_MAGIC (sz c) (fr c) (hdst l' 0) p) else blocks s !! a
  | [] => blocks s !! a
  end.
Proof.
  intros Hl. unfold relink. destruct l as [|c l']; simpl; [done|].
  destruct (Hl c l' eq_refl) as [Hne [q Hq]]. apply Z.eqb_neq in Hne. rewrite Hne. simpl.
  rewrite lookup_insert, (blk_lookup _ _ _ Hq). by case_decide.
Qed.

Lemma relink_fields s l p :
  heap_ready (relink s l p) = heap_ready s /\ heap_head (relink s l p) = heap_head s /\
  heap_mapped (relink s l p) = heap_mapped s /\ heap_free (relink s l p) = heap_free s.
Proof. unfold relink. by destruct (negb _). Qed.

(** Rebuilding the invariant after the blocks [b :: mid] became [b' :: mid']. *)
Lemma struct_rebuild s s' l1 b mid b' mid' l2 :
  struct_inv s (l1 ++ (b :: mid) ++ l2) -> st b' = st b ->
  heap_ready s' = heap_ready s /\ heap_head s' = heap_head s /\ heap_mapped s' = heap_mapped s ->
  (forall x y, layout x (b :: mid) y -> layout x (b' :: mid') y) ->
  (forall c, c ∈ l1 -> blocks s' !! st c = blocks s !! st c) ->
  seg (blocks s') (lastst l1 0) (b' :: mid') (hdst l2 0) ->
  match l2 with
  | [] => True
  | c :: l2' => blocks s' !! st c = Some (HB HEAP_MAGIC (sz c) (fr c) (hdst l2' 0) (lastst mid' (st b'))) /\
                forall d, d ∈ l2' -> blocks s' !! st d = blocks s !! st d
  end ->
  (forall a h, blocks s' !! a = Some h -> magic h = HEAP_MAGIC ->
     (exists c, c ∈ (b' :: mid') ++ l2 /\ st c = a) \/ (blocks s !! a = Some h /\ forall c, c ∈ mid -> st c <> a)) ->
  struct_inv s' (l1 ++ (b' :: mid') ++ l2).
Proof.
  intros [R1 [R2 R2'] R3 R4 R5 R6] Hst (F1 & F2 & F3) Hlay Hl1 Hmid Hl2 Hmag. split.
  - congruence.
  - split; [congruence|]. destruct l1; simpl in *; congruence.
  - by apply (seg_replace (blocks s) _ l1 b mid).
  - rewrite F3. by apply (layout_replace _ l1 (b :: mid)).
  - by rewrite F3.
  - intros a h Ha Hm. destruct (Hmag a h Ha Hm) as [(c & Hc & <-)|[Ho Hn]]; [exists c; split; [set_solver|done]|].
    destruct (R6 a h Ho Hm) as (c & Hc & <-). rewrite !elem_of_app, elem_of_cons in Hc.
    destruct Hc as [Hc|[[->|Hc]|Hc]].
    + exists c. split; [set_solver|done].
    + exists b'. split; [set_solver|done].
    + by destruct (Hn c Hc).
    + exists c. split; [set_solver|done].
Qed.

Lemma struct_after s l1 b c l2 :
  struct_inv s (l1 ++ b :: c :: l2) -> forall d, d ∈ l2 -> st c + HDR + sz c <= st d.
Proof.
  intros Hs d Hd. rewrite (cons_middle b l1), app_assoc in Hs.
  destruct (struct_mid _ _ _ _ Hs) as (_ & _ & L & _). by apply L.
Qed.

(** Splitting a block of at least [n + 64] bytes. *)
Lemma split_block_struct s l1 b l2 n :
  struct_inv s (l1 ++ b :: l2) -> 0 < n -> n mod 16 = 0 -> n + HDR + NPK_HEAP_ALIGNMENT <= sz b ->
  let tail := AB (st b + HDR + n) (sz b - n - HDR) true in
  exists s', split_block s (st b) n = (true, s') /\
    struct_inv s' (l1 ++ AB (st b) n (fr b) :: tail :: l2) /\ heap_free s' = heap_free s /\ heap_mapped s' = heap_mapped s.
Proof.
  intros Hs Hn Hn16 Hsz tail.
  destruct (struct_mid _ _ _ _ Hs) as (Eb & L1 & L2 & B1 & B2 & B3 & B4 & B5 & B6).
  heap_consts. unfold split_block. rewrite Eb. cbn [size next]. heap_consts.
  rewrite !u64_small by lia. destruct (sz b <? _) eqn:E; [zbool; lia|]. eexists. split; [reflexivity|].
  pose proof (si_seg _ _ Hs) as Rseg. pose proof (seg_at _ _ _ _ _ _ Rseg) as Ab.
  set (s1 := setb s _ _).
  assert (E1 : next (blk s1 (st b + 48 + n)) = hdst l2 0) by (unfold s1; rewrite blk_setb; by slot).
  rewrite E1. fold (relink s1 l2 (st b + 48 + n)).
  assert (Hl2 : forall c l', l2 = c :: l' -> st c <> 0 /\ exists q, blocks s1 !! st c = Some (HB HEAP_MAGIC (sz c) (fr c) (hdst l' 0) q)).
  { intros c l' ->. destruct (L2 c ltac:(set_solver)). split; [lia|]. exists (st b).
    unfold s1. rewrite lookup_setb. slot. rewrite (cons_middle b l1), app_assoc in Rseg.
    apply seg_at in Rseg. by rewrite lastst_app in Rseg. }
  set (s2 := relink s1 l2 _).
  assert (A : forall a, blocks (set_size (set_next s2 (st b) (st b + 48 + n)) (st b) n) !! a =
    if decide (st b = a) then Some (HB HEAP_MAGIC n (fr b) (st b + 48 + n) (lastst l1 0)) else blocks s2 !! a).
  { intros a.
    assert (Es2 : blk s2 (st b) = HB HEAP_MAGIC (sz b) (fr b) (hdst l2 0) (lastst l1 0)).
    { apply blk_lookup. unfold s2. rewrite relink_lookup by done. unfold s1. destruct l2 as [|c l2'].
      - rewrite lookup_setb. by slot.
      - destruct (L2 c ltac:(set_solver)). slot. rewrite lookup_setb. by slot. }
    unfold set_size, set_next. rewrite !lookup_setb, !blk_setb, Es2. slot. cbn. repeat case_decide; done. }
  assert (A2 : forall a, blocks s2 !! a = match l2 with
     | c :: l' => if decide (st c = a) then Some (HB HEAP_MAGIC (sz c) (fr c) (hdst l' 0) (st tail)) else blocks s1 !! a
     | [] => blocks s1 !! a end) by (intros; unfold s2; by rewrite relink_lookup).
  assert (A1 : forall a, blocks s1 !! a = if decide (st tail = a) then Some (HB HEAP_MAGIC (sz tail) true (hdst l2 0) (st b)) else blocks s !! a).
  { intros a. unfold s1. by rewrite lookup_setb. }
  destruct (relink_fields s1 l2 (st b + 48 + n)) as (F1 & F2 & F3 & F4). fold s2 in F1, F2, F3, F4.
  set (s3 := set_size _ _ _) in *. change (heap_free s3) with (heap_free s2).
  assert (F : heap_ready s3 = heap_ready s /\ heap_head s3 = heap_head s /\ heap_mapped s3 = heap_mapped s) by done.
  clearbody s3. split; [|split; [exact F4|apply F]]. clear F1 F2 F3 F4 E1 Hl2.
  assert (Et : st tail = st b + 48 + n) by done. assert (Es : sz tail = sz b - n - 48) by done.
  assert (Ef : fr tail = true) by done. rewrite <- Et in A. clearbody tail.
  assert (X1 : blocks s3 !! st b = Some (HB HEAP_MAGIC n (fr b) (st tail) (lastst l1 0))) by (rewrite A; by slot).
  assert (X2 : blocks s3 !! st tail = Some (HB HEAP_MAGIC (sz tail) true (hdst l2 0) (st b))).
  { rewrite A, A2. slot. destruct l2 as [|d l2']; [|destruct (L2 d ltac:(set_solver)); slot]; rewrite A1; by slot. }
  assert (X3 : forall d l2', l2 = d :: l2' -> blocks s3 !! st d = Some (HB HEAP_MAGIC (sz d) (fr d) (hdst l2' 0) (st tail))).
  { intros d l2' ->. destruct (L2 d ltac:(set_solver)). rewrite A, A2. by slot. }
  assert (X4 : forall a, a <> st b -> a <> st tail -> a <> hdst l2 0 \/ l2 = [] -> blocks s3 !! a = blocks s !! a).
  { intros a N1 N2 N3. rewrite A, A2. slot. destruct l2 as [|d l2']; simpl in *; [|destruct N3; [|done]; slot]; rewrite A1; by slot. }
  clear A A2 A1.
  apply (struct_rebuild s _ l1 b [] (AB (st b) n (fr b)) [tail] l2); [done|done|done| | | | |].
  - intros x y. simpl. heap_consts. intros (? & ? & ? & ? & ?). repeat split; try done; try mlia.
  - intros c Hc. destruct (L1 c Hc) as (? & ? & ?). apply X4; [lia|lia|].
    destruct l2 as [|d l2']; [by right|]. destruct (L2 d ltac:(set_solver)). left. simpl. lia.
  - simpl. by rewrite Ef.
  - destruct l2 as [|d l2']; [done|]. split; [by apply X3|]. intros e He. pose proof (struct_after _ _ _ _ _ Hs e He).
    destruct (L2 d ltac:(set_solver)), (L2 e ltac:(set_solver)). heap_consts. apply X4; simpl; lia.
  - intros a h Ha Hm. destruct (decide (a = st b)) as [->|N1]; [left; exists (AB (st b) n (fr b)); set_solver|].
    destruct (decide (a = st tail)) as [->|N2]; [left; exists tail; set_solver|].
    destruct l2 as [|d l2']; [right; rewrite <- X4; set_solver|].
    destruct (decide (a = st d)) as [->|N3]; [left; exists d; set_solver|].
    right. rewrite X4 in Ha by auto. set_solver.
Qed.

(** Changing the free flag of a block. *)
Lemma set_free_flag_struct s l1 b l2 f :
  struct_inv s (l1 ++ b :: l2) ->
  struct_inv (set_free_flag s (st b) f) (l1 ++ AB (st b) (sz b) f :: l2) /\ heap_free (set_free_flag s (st b) f) = heap_free s /\ heap_mapped (set_free_flag s (st b) f) = heap_mapped s.
Proof.
  intros Hs. destruct (struct_mid _ _ _ _ Hs) as (Eb & L1 & L2 & _). heap_consts. split; [|done].
  assert (A : forall a, blocks (set_free_flag s (st b) f) !! a =
     if decide (st b = a) then Some (HB HEAP_MAGIC (sz b) f (hdst l2 0) (lastst l1 0)) else blocks s !! a).
  { intros a. unfold set_free_flag. by rewrite lookup_setb, Eb. }
  assert (F : forall c, c ∈ l1 \/ c ∈ l2 -> blocks (set_free_flag s (st b) f) !! st c = blocks s !! st c).
  { intros c Hc. rewrite A. pose proof (L1 c). pose proof (L2 c). destruct (decide (st b = st c)); [|done].
    destruct Hc as [Hc|Hc]; [destruct (L1 c Hc)|destruct (L2 c Hc)]; pose proof (struct_mid _ _ _ _ Hs) as (_ & _ & _ & _ & _ & _ & ? & _); lia. }
  apply (struct_rebuild s _ l1 b [] (AB (st b) (sz b) f) [] l2); [done|done|done| | | | |].
  - intros x y. done.
  - auto.
  - simpl. rewrite A. by slot.
  - destruct l2 as [|d l2']; [done|]. split; [|intros e He; apply F; right; set_solver].
    rewrite F by (right; set_solver). pose proof (si_seg _ _ Hs) as Rseg.
    rewrite (cons_middle b l1), app_assoc in Rseg. apply seg_at in Rseg. by rewrite lastst_app in Rseg.
  - intros a h. rewrite A. case_decide as Hd; intros Ha Hm.
    + left. exists (AB (st b) (sz b) f). set_solver.
    + right. set_solver.
Qed.

(** The header writes of a merge, in order. *)
Definition merged s (b c : ab) l2 : heap M :=
  let s1 := set_heap_free (set_size s (st b) (sz b + HDR + sz c)) (heap_free s + HDR) in
  let s2 := relink (set_next s1 (st b) (hdst l2 0)) l2 (st b) in
  set_free_flag (set_magic s2 (st c) HEAP_FREED) (st c) true.

Lemma merge_eq s l1 b c l2 :
  struct_inv s (l1 ++ b :: c :: l2) -> fr c = true -> st c = st b + HDR + sz b ->
  merge_with_next s (st b) = merged s b c l2.
Proof.
  intros Hs Hfr Hst. destruct (struct_mid _ _ _ _ Hs) as (Eb & L1 & L2 & B1 & B2 & B3 & B4 & B5 & B6).
  pose proof Hs as Hs'. rewrite (cons_middle b l1), app_assoc in Hs'.
  destruct (struct_mid _ _ _ _ Hs') as (Ec & _ & M2 & C1 & C2 & C3 & C4 & C5 & C6). rewrite lastst_app in Ec. simpl in Ec.
  unfold merge_with_next, merged. rewrite Eb. cbn [next size hdst]. rewrite Ec. cbn [free magic size next]. heap_consts.
  rewrite Hfr, !(u64_small (st b + _ + _)), !(u64_small (sz b + _ + _)) by lia.
  replace (st c =? 0) with false by lia. replace (st c =? st b + 48 + sz b) with true by lia. cbn [negb orb].
  rewrite Z.eqb_refl. cbn [negb]. set (s1 := set_heap_free _ _).
  assert (E1 : blk s1 (st c) = blk s (st c)).
  { change (blk s1 (st c)) with (blk (set_size s (st b) (sz b + 48 + sz c)) (st c)). unfold set_size. rewrite blk_setb. by slot. }
  rewrite E1, Ec. cbn [next]. set (s2 := set_next s1 (st b) _).
  assert (E2 : next (blk s2 (st b)) = hdst l2 0) by (unfold s2, set_next; rewrite blk_setb; by slot).
  rewrite E2. done.
Qed.

(** Merging a block with a free, adjacent successor. *)
Lemma merge_struct s l1 b c l2 :
  struct_inv s (l1 ++ b :: c :: l2) -> fr c = true -> st c = st b + HDR + sz b ->
  struct_inv (merge_with_next s (st b)) (l1 ++ AB (st b) (sz b + HDR + sz c) (fr b) :: l2) /\
  heap_free (merge_with_next s (st b)) = u64 (heap_free s + HDR) /\
  heap_mapped (merge_with_next s (st b)) = heap_mapped s.
Proof.
  intros Hs Hfr Hst. rewrite (merge_eq _ _ _ _ _ Hs Hfr Hst).
  destruct (struct_mid _ _ _ _ Hs) as (Eb & L1 & L2 & B1 & B2 & B3 & B4 & B5 & B6).
  pose proof Hs as Hs'. rewrite (cons_middle b l1), app_assoc in Hs'.
  destruct (struct_mid _ _ _ _ Hs') as (Ec & _ & M2 & C1 & C2 & C3 & C4 & C5 & C6). rewrite lastst_app in Ec. simpl in Ec.
  heap_consts. unfold merged. heap_consts. set (s1 := set_next _ _ _). set (s2 := relink s1 l2 (st b)).
  assert (A1 : forall a, blocks s1 !! a = if decide (st b = a) then Some (HB HEAP_MAGIC (sz b + 48 + sz c) (fr b) (hdst l2 0) (lastst l1 0)) else blocks s !! a).
  { intros a. unfold s1, set_next. rewrite lookup_setb, blk_set_heap_free, blocks_set_heap_free.
    unfold set_size. rewrite blk_setb, lookup_setb, Eb. slot. cbn. repeat case_decide; done. }
  assert (A2 : forall a, blocks s2 !! a = match l2 with
     | d :: l' => if decide (st d = a) then Some (HB HEAP_MAGIC (sz d) (fr d) (hdst l' 0) (st b)) else blocks s1 !! a
     | [] => blocks s1 !! a end).
  { intros a. unfold s2. apply relink_lookup. intros d l' ->. destruct (M2 d ltac:(set_solver)). split; [lia|].
    exists (st c). rewrite A1. slot. pose proof (si_seg _ _ Hs') as Rseg.
    rewrite (cons_middle c), app_assoc in Rseg. apply seg_at in Rseg. by rewrite lastst_app in Rseg. }
  destruct (relink_fields s1 l2 (st b)) as (F1 & F2 & F3 & F4). fold s2 in F1, F2, F3, F4.
  set (s3 := set_free_flag _ _ _).
  assert (A3 : forall a h, blocks s3 !! a = Some h -> a = st c -> magic h = HEAP_FREED).
  { intros a h Ha ->. unfold s3, set_free_flag, set_magic in Ha. rewrite lookup_setb, blk_setb in Ha. revert Ha. slot.
    intros Ha. by inv Ha. }
  assert (A4 : forall a, a <> st c -> blocks s3 !! a = blocks s2 !! a).
  { intros a Ha. unfold s3, set_free_flag, set_magic. rewrite !lookup_setb. by slot. }
  assert (F : heap_ready s3 = heap_ready s /\ heap_head s3 = heap_head s /\ heap_mapped s3 = heap_mapped s) by done.
  split; [|split; [exact F4|apply F]]. clearbody s3. clear F1 F2 F3 F4.
  assert (X1 : blocks s3 !! st b = Some (HB HEAP_MAGIC (sz b + 48 + sz c) (fr b) (hdst l2 0) (lastst l1 0))).
  { rewrite A4, A2 by lia. destruct l2 as [|d l2']; [|destruct (M2 d ltac:(set_solver)); slot]; rewrite A1; by slot. }
  assert (X3 : forall d l2', l2 = d :: l2' -> blocks s3 !! st d = Some (HB HEAP_MAGIC (sz d) (fr d) (hdst l2' 0) (st b))).
  { intros d l2' ->. destruct (M2 d ltac:(set_solver)). rewrite A4, A2 by lia. by slot. }
  assert (X4 : forall a, a <> st b -> a <> st c -> a <> hdst l2 0 \/ l2 = [] -> blocks s3 !! a = blocks s !! a).
  { intros a N1 N2 N3. rewrite A4, A2 by done. destruct l2 as [|d l2']; simpl in *; [|destruct N3; [|done]; slot]; rewrite A1; by slot. }
  clear A4 A2 A1 s2 s1.
  apply (struct_rebuild s _ l1 b [c] (AB (st b) (sz b + 48 + sz c) (fr b)) [] l2); [done|done|done| | |done| |].
  - intros x y. simpl. heap_consts. intros (? & ? & ? & ? & ? & ? & ? & ? & ?). repeat split; try done; try mlia.
  - intros a Ha. destruct (L1 a Ha) as (? & ? & ?). apply X4; [lia|lia|].
    destruct l2 as [|d l2']; [by right|]. destruct (M2 d ltac:(set_solver)). left. simpl. lia.
  - destruct l2 as [|d l2']; [done|]. split; [by apply X3|]. intros e He. pose proof (struct_after _ _ _ _ _ Hs' e He).
    destruct (M2 d ltac:(set_solver)), (M2 e ltac:(set_solver)). heap_consts. apply X4; simpl; lia.
  - intros a h Ha Hm. destruct (decide (a = st b)) as [->|N1]; [left; exists (AB (st b) (sz b + 48 + sz c) (fr b)); set_solver|].
    destruct (decide (a = st c)) as [->|N2]; [rewrite (A3 _ _ Ha eq_refl) in Hm; done|].
    destruct l2 as [|d l2']; [right; rewrite X4 in Ha by auto; set_solver|].
    destruct (decide (a = st d)) as [->|N3]; [left; exists d; set_solver|].
    right. rewrite X4 in Ha by auto. set_solver.
Qed.

Lemma merge_skip s l1 b l2 :
  struct_inv s (l1 ++ b :: l2) -> (forall c l', l2 = c :: l' -> fr c = false \/ st c <> st b + HDR + sz b) ->
  merge_with_next s (st b) = s.
Proof.
  intros Hs Hc. destruct (struct_mid _ _ _ _ Hs) as (Eb & L1 & L2 & B1 & B2 & B3 & B4 & B5 & B6).
  unfold merge_with_next. rewrite Eb. cbn [next size]. destruct l2 as [|c l2']; [done|]. simpl hdst.
  rewrite (cons_middle b l1), app_assoc in Hs. destruct (struct_mid _ _ _ _ Hs) as (Ec & _). rewrite Ec. cbn [free magic].
  heap_consts. rewrite u64_small by lia. destruct (Hc c l2' eq_refl) as [->|Hne]; [by rewrite orb_true_r|].
  destruct (_ || _); [done|]. replace (st c =? _) with false by lia. done.
Qed.

(** ** Walks *)

Lemma starts_increasing lo l hi : layout lo l hi -> NoDup (st <$> l).
Proof.
  revert lo; induction l as [|b l IH]; intros lo Hl; simpl; [constructor|]. simpl in Hl.
  destruct Hl as (? & ? & ? & ? & Hl). constructor; [|by eapply IH].
  intros Hin. apply list_elem_of_fmap in Hin as (c & Hc & Hcl). destruct (layout_in _ _ _ _ Hl Hcl). unfold HDR in *. lia.
Qed.

Lemma seg_lookup m p l n b : seg m p l n -> b ∈ l -> is_Some (m !! st b).
Proof.
  intros Hs Hb. apply list_elem_of_split in Hb as (l1 & l2 & ->). rewrite (seg_at _ _ _ _ _ _ Hs). eauto.
Qed.

(** The bound of the walks covers the whole list. *)
Lemma walk_fuel_enough s l : struct_inv s l -> (length l < walk_fuel s)%nat.
Proof.
  intros Hs. unfold walk_fuel. apply Nat.lt_succ_r.
  rewrite <- (length_fmap st). rewrite <- (size_list_to_set (C := gset Z) (st <$> l)) by (eapply starts_increasing, Hs).
  change (map_size (blocks s)) with (base.size (blocks s)). rewrite <- size_dom. apply subseteq_size. intros a.
  rewrite elem_of_list_to_set, list_elem_of_fmap. intros (b & -> & Hb). apply elem_of_dom.
  by apply (seg_lookup _ 0 l 0); [apply Hs|].
Qed.

Definition fits (n : Z) (b : ab) : bool := fr b && (sz b >=? n).

Lemma find_free_from_spec s l1 l2 n fuel :
  struct_inv s (l1 ++ l2) -> (length l2 < fuel)%nat ->
  (find_free_from fuel s (hdst l2 0) n = 0 /\ forall c, c ∈ l2 -> fits n c = false) \/
  exists m1 b m2, l2 = m1 ++ b :: m2 /\ fits n b = true /\ (forall c, c ∈ m1 -> fits n c = false) /\
    find_free_from fuel s (hdst l2 0) n = st b.
Proof.
  revert l1 fuel; induction l2 as [|b l2 IH]; intros l1 fuel Hs Hf; destruct fuel as [|fuel]; simpl in Hf; try lia.
  { left. split; [done|]. set_solver. }
  destruct (struct_mid _ _ _ _ Hs) as (Eb & _ & _ & B1 & _). simpl. rewrite Eb. cbn [free size next]. heap_consts.
  replace (st b =? 0) with false by lia. destruct (fits n b) eqn:E; unfold fits in E; rewrite E.
  - right. exists [], b, l2. split; [done|]. split; [done|]. split; [set_solver|done].
  - rewrite (cons_middle b l1), app_assoc in Hs. destruct (IH _ fuel Hs ltac:(lia)) as [[R Hn]|(m1 & c & m2 & -> & Hc & Hm & R)].
    + left. split; [done|]. intros c Hc. apply elem_of_cons in Hc as [->|Hc]; [done|by apply Hn].
    + right. exists (b :: m1), c, m2. split; [done|]. split; [done|]. split; [|done].
      intros d Hd. apply elem_of_cons in Hd as [->|Hd]; [done|by apply Hm].
Qed.

Lemma find_free_spec s l n :
  struct_inv s l ->
  (find_free s n = 0 /\ forall c, c ∈ l -> fits n c = false) \/
  exists l1 b l2, l = l1 ++ b :: l2 /\ fits n b = true /\ (forall c, c ∈ l1 -> fits n c = false) /\ find_free s n = st b.
Proof.
  intros Hs. unfold find_free. destruct (si_head _ _ Hs) as [-> <-].
  by apply (find_free_from_spec s [] l); [|apply walk_fuel_enough].
Qed.

Lemma last_from_spec s p b l2 fuel :
  seg (blocks s) p (b :: l2) 0 -> (forall c, c ∈ l2 -> st c <> 0) -> (length l2 < fuel)%nat ->
  last_from fuel s (st b) = lastst l2 (st b).
Proof.
  revert p b fuel; induction l2 as [|c l2 IH]; intros p b fuel Hs Hz Hf; destruct fuel as [|fuel]; simpl in Hf; try lia.
  - destruct Hs as [Eb _]. simpl. by rewrite (blk_lookup _ _ _ Eb).
  - destruct Hs as [Eb Hs]. simpl. rewrite (blk_lookup _ _ _ Eb). cbn [next hdst].
    assert (st c <> 0) by (apply Hz; set_solver). replace (st c =? 0) with false by lia.
    apply (IH (st b)); [done|intros; apply Hz; set_solver|lia].
Qed.

Lemma walk_fuel_setb s a b : (walk_fuel s <= walk_fuel (setb s a b))%nat.
Proof.
  unfold walk_fuel. simpl. apply le_n_S. change (base.size (blocks s) <= base.size (<[a:=b]> (blocks s)))%nat.
  rewrite map_size_insert. destruct (blocks s !! a); simpl; lia.
Qed.

(** ** Allocation *)

(** The blocks a request of [n] bytes leaves of [b]. *)
Definition carve (b : ab) (n : Z) : list ab :=
  if sz b <? n + HDR + NPK_HEAP_ALIGNMENT then [AB (st b) (sz b) false]
  else [AB (st b) n false; AB (st b + HDR + n) (sz b - n - HDR) true].

Lemma take_block_spec s l1 b l2 n :
  heap_inv s (l1 ++ b :: l2) -> 0 < n -> n mod 16 = 0 -> fits n b = true ->
  exists s', take_block s (st b) n = (st b + HDR, s') /\ heap_inv s' (l1 ++ carve b n ++ l2) /\ heap_mapped s' = heap_mapped s.
Proof.
  intros [Hs Hf] Hn Hn16 Hfit. destruct (struct_mid _ _ _ _ Hs) as (Eb & L1 & L2 & B1 & B2 & B3 & B4 & B5 & B6).
  pose proof (sumfree_parts _ _ _ _ _ (si_layout _ _ Hs)) as Hsf. rewrite sumfree_app in Hf. simpl in Hf.
  pose proof (si_mapped _ _ Hs) as [Hmap _].
  unfold fits in Hfit. apply andb_true_iff in Hfit as [Hfr Hsz]. rewrite Hfr in Hf. unfold take_block, carve. rewrite Eb. cbn [size].
  destruct (sz b <? _) eqn:Esz.
  - assert (Esp : split_block s (st b) n = (false, s)).
    { unfold split_block. rewrite Eb. cbn [size]. heap_consts. rewrite u64_small by lia. by rewrite Esz. }
    rewrite Esp. destruct (set_free_flag_struct s l1 b l2 false Hs) as (Hs' & Hf' & Hm'). heap_consts.
    rewrite u64_small by lia. eexists. split; [done|]. split; [|done]. split; [by destruct Hs'|].
    cbn [heap_free set_heap_free]. rewrite Hf', Hf, u64_small by lia. rewrite sumfree_app. simpl. lia.
  - zbool. destruct (split_block_struct s l1 b l2 n Hs Hn Hn16 Esz) as (s1 & -> & Hs1 & Hf1 & Hm1).
    pose proof (set_free_flag_struct s1 l1 (AB (st b) n (fr b)) _ false Hs1) as (Hs2 & Hf2 & Hm2). cbn [st sz] in Hs2, Hf2, Hm2.
    set (s2 := set_free_flag s1 (st b) false) in *. clearbody s2.
    destruct (struct_mid _ _ _ _ Hs2) as (Eb2 & _). cbn [st] in Eb2. rewrite Eb2. cbn [next hdst st].
    pose proof Hs2 as Hs3. rewrite cons_middle, app_assoc in Hs3.
    destruct (struct_mid _ _ _ _ Hs3) as (Et & _). cbn [st] in Et. rewrite Et. cbn [size sz]. heap_consts.
    rewrite u64_small by lia. eexists. split; [done|]. split; [|simpl; congruence]. split; [by destruct Hs2|].
    cbn [heap_free set_heap_free]. rewrite Hf2, Hf1, Hf, u64_small by lia. rewrite sumfree_app. simpl. lia.
Qed.

(** Growth never touches the headers; it only adds pages at the end. *)
Definition grown s s' : Prop :=
  blocks s' = blocks s /\ heap_head s' = heap_head s /\ heap_ready s' = heap_ready s /\ heap_free s' = heap_free s.

#[local] Instance grown_preorder : PreOrder grown.
Proof. split; [done|]. intros s t u (? & ? & ? & ?) (? & ? & ? & ?). repeat split; congruence. Qed.

Lemma map_one_spec s :
  match map_one s with
  | inl t => grown s t /\ heap_mapped t = u64 (heap_mapped s + NPK_PAGE_SIZE)
  | inr t => grown s t /\ heap_mapped t = heap_mapped s
  end.
Proof.
  unfold map_one. destruct (ps_alloc_page (pages s)) as [a p]. destruct (a =? 0); [done|].
  destruct (ps_map_page p _ a _) as [ok q]. by destruct ok.
Qed.

Lemma map_more_spec s r ok s' :
  0 <= heap_mapped s <= NPK_HEAP_LIMIT - NPK_HEAP_BASE -> heap_mapped s mod 4096 = 0 -> in_u64 r ->
  map_more s r = (ok, s') ->
  grown s s' /\ heap_mapped s <= heap_mapped s' <= NPK_HEAP_LIMIT - NPK_HEAP_BASE /\ heap_mapped s' mod 4096 = 0 /\
  (ok = true -> r <= heap_mapped s').
Proof.
  intros Hm Hm4 Hr.
  assert (Hno : forall t, (false, s) = (ok, t) -> grown s t /\ heap_mapped s <= heap_mapped t <= NPK_HEAP_LIMIT - NPK_HEAP_BASE /\
    heap_mapped t mod 4096 = 0 /\ (ok = true -> r <= heap_mapped t)) by (intros t E; inv E; repeat split; lia || done).
  unfold map_more, align_up_u64, NPK_PAGE_SIZE. destruct (_ || (r >? _)) eqn:E0; [apply Hno|].
  apply orb_false_iff in E0 as [_ E0]. zbool. unfold UINT64_MAX, in_u64 in *.
  replace (4096 - 1) with (NPK_PAGE_SIZE - 1) by done. rewrite land_page_mask by lia.
  set (req := r + 4096 - 1 - _). destruct (_ || _) eqn:E1; [apply Hno|]. zbool.
  assert (Hreq : r <= req /\ req mod 4096 = 0) by (unfold req; split; mlia).
  set (k := Z.to_nat _). heap_consts.
  assert (Hk : Z.of_nat k = Z.max 0 ((req - heap_mapped s) / 4096)) by (unfold k; mlia).
  pose proof (for_break_inv (fun i t => grown s t /\ heap_mapped t = heap_mapped s + 4096 * i)
     (fun t => grown s t /\ heap_mapped s <= heap_mapped t <= 67108864 /\ heap_mapped t mod 4096 = 0)
     (fun _ t => map_one t) k 0 s ltac:(split; [done|lia])) as Hinv.
  clearbody k req. assert (Hstep : forall i t, 0 <= i < 0 + Z.of_nat k -> grown s t /\ heap_mapped t = heap_mapped s + 4096 * i ->
    match map_one t with inl t' => grown s t' /\ heap_mapped t' = heap_mapped s + 4096 * (i + 1)
    | inr t' => grown s t' /\ heap_mapped s <= heap_mapped t' <= 67108864 /\ heap_mapped t' mod 4096 = 0 end).
  { intros i t Hi [G E]. pose proof (map_one_spec t) as Ho. assert (4096 * (i + 1) <= req - heap_mapped s) by mlia.
    destruct (map_one t) as [t'|t']; destruct Ho as [G' E']; (split; [by trans t|]); rewrite E', E.
    - unfold NPK_PAGE_SIZE. rewrite u64_small by lia. lia.
    - split; [lia|]. mlia. }
  specialize (Hinv Hstep).
  destruct (for_break _ 0 k s) as [t|t]; intros E; injection E as <- <-.
  - destruct Hinv as [G E]. split; [done|]. rewrite E. split; [mlia|]. split; [mlia|]. intros _. mlia.
  - destruct Hinv as (G & E & E4). done.
Qed.

Lemma layout_mono lo l hi hi' : layout lo l hi -> hi <= hi' -> layout lo l hi'.
Proof.
  revert lo; induction l as [|b l IH]; intros lo Hl Hle; simpl in *; [lia|].
  destruct Hl as (? & ? & ? & ? & Hl). repeat split; try done. by apply IH.
Qed.

Lemma grown_struct s s' l :
  struct_inv s l -> grown s s' -> heap_mapped s <= heap_mapped s' <= NPK_HEAP_LIMIT - NPK_HEAP_BASE ->
  heap_mapped s' mod 4096 = 0 -> struct_inv s' l.
Proof.
  intros [R1 R2 R3 R4 R5 R6] (G1 & G2 & G3 & G4) Hm H4. split.
  - congruence.
  - by rewrite G2.
  - by rewrite G1.
  - eapply layout_mono; [done|lia].
  - split; [lia|done].
  - by rewrite G1.
Qed.

(** Linking a new block after the last one. *)
Lemma append_struct s l0 b0 t :
  struct_inv s (l0 ++ [b0]) -> st t mod 16 = 0 -> 0 < sz t -> sz t mod 16 = 0 -> fr t = true ->
  st b0 + HDR + sz b0 <= st t -> st t + HDR + sz t <= NPK_HEAP_BASE + heap_mapped s ->
  let s1 := setb s (st t) (HB HEAP_MAGIC (sz t) true 0 0) in
  let s2 := set_prev (set_next s1 (st b0) (st t)) (st t) (st b0) in
  struct_inv s2 (l0 ++ [b0; t]).
Proof.
  intros Hs H16 Hpos Hsz Hfr Hgap Hend s1 s2.
  destruct (struct_mid _ _ _ _ Hs) as (Eb & L1 & _ & B1 & B2 & B3 & B4 & B5 & B6).
  assert (A : forall a, blocks s2 !! a = if decide (a = st t) then Some (HB HEAP_MAGIC (sz t) true 0 (st b0))
     else if decide (a = st b0) then Some (HB HEAP_MAGIC (sz b0) (fr b0) (st t) (lastst l0 0)) else blocks s !! a).
  { intros a. unfold s2, set_prev, set_next, s1. heap_consts. rewrite !lookup_setb, !blk_setb. slot. rewrite Eb. cbn.
    repeat case_decide; subst; try done; lia. }
  destruct Hs as [R1 [R2 R2'] R3 R4 R5 R6]. split; [done| | | |done|].
  - split; [done|]. by destruct l0.
  - apply seg_app in R3 as [R3 _]. apply seg_app. heap_consts. split.
    + apply (seg_frame (blocks s)); [|done]. intros c Hc. destruct (L1 c Hc) as (? & ? & ?). rewrite A. by slot.
    + simpl. rewrite !A. slot. by rewrite Hfr.
  - apply layout_app in R4 as (mid & M1 & M2). apply layout_app. exists mid. split; [done|]. simpl in *.
    heap_consts. destruct M2 as (? & ? & ? & ? & ?). repeat split; try done; lia.
  - intros a h. rewrite A. case_decide as D1; [intros; exists t; set_solver|].
    case_decide as D2; [intros; exists b0; set_solver|]. intros Ha Hm. destruct (R6 a h Ha Hm) as (c & Hc & <-).
    exists c. set_solver.
Qed.

Lemma append_block_spec s l0 b0 t :
  struct_inv s (l0 ++ [b0]) -> st t mod 16 = 0 -> 0 < sz t -> sz t mod 16 = 0 -> fr t = true ->
  st b0 + HDR + sz b0 <= st t -> st t + HDR + sz t <= NPK_HEAP_BASE + heap_mapped s ->
  struct_inv (append_block s (st t) (sz t)) (l0 ++ [b0; t]) /\
  heap_free (append_block s (st t) (sz t)) = u64 (heap_free s + sz t) /\
  heap_mapped (append_block s (st t) (sz t)) = heap_mapped s.
Proof.
  intros Hs H16 Hpos Hsz Hfr Hgap Hend. pose proof (append_struct s l0 b0 t Hs H16 Hpos Hsz Hfr Hgap Hend) as Ha.
  destruct (struct_mid _ _ _ _ Hs) as (_ & L1 & _ & B1 & B2 & B3 & B4 & _). destruct (si_head _ _ Hs) as [Hh Hh'].
  unfold append_block. cbv zeta in Ha. set (s1 := setb s (st t) _) in *.
  change (heap_head s1) with (heap_head s). rewrite Hh. change (NPK_HEAP_BASE =? 0) with false. cbv iota.
  assert (El : last_from (walk_fuel s1) s1 NPK_HEAP_BASE = st b0).
  { assert (Hseg : seg (blocks s1) 0 (l0 ++ [b0]) 0).
    { apply (seg_frame (blocks s)); [|apply Hs]. heap_consts. intros c Hc. unfold s1. rewrite lookup_setb. apply elem_of_app in Hc as [Hc|Hc].
      - destruct (L1 c Hc) as (? & ? & ?). by slot.
      - apply list_elem_of_singleton in Hc as ->. by slot. }
    assert (Hz : forall c, c ∈ l0 ++ [b0] -> st c <> 0).
    { intros c Hc. destruct (layout_in _ _ _ _ (si_layout _ _ Hs) Hc). heap_consts. lia. }
    pose proof (walk_fuel_enough s _ Hs). pose proof (walk_fuel_setb s (st t) (HB HEAP_MAGIC (sz t) true 0 0)) as Hw. fold s1 in Hw.
    assert (Hlast : forall d, lastst (l0 ++ [b0]) d = st b0) by (intros; by rewrite lastst_app).
    destruct (l0 ++ [b0]) as [|x l]; [by destruct l0|]. simpl in Hh'. rewrite <- Hh'.
    rewrite (last_from_spec s1 0 x l) by (done || (intros; apply Hz; set_solver) || (simpl in *; lia)). apply (Hlast 0). }
  rewrite El. split; [by destruct Ha|]. split; [|done].
  assert (Esz : size (blk (set_prev (set_next s1 (st b0) (st t)) (st t) (st b0)) (st t)) = sz t).
  { heap_consts. unfold set_prev. rewrite blk_setb. slot. cbn [size]. unfold set_next. rewrite blk_setb. slot.
    unfold s1. rewrite blk_setb. by slot. }
  cbv zeta. by rewrite Esz.
Qed.

Lemma grow_heap_spec s l n r s' :
  heap_inv s l -> 0 < n <= UINT64_MAX - 63 -> n mod 16 = 0 -> grow_heap s n = (r, s') ->
  (r = 0 /\ heap_inv s' l /\ heap_mapped s <= heap_mapped s') \/
  exists b, r = st b /\ st b = NPK_HEAP_BASE + heap_mapped s /\ fits n b = true /\ heap_inv s' (l ++ [b]) /\
    NPK_HEAP_BASE + heap_mapped s' = st b + HDR + sz b.
Proof.
  intros [Hs Hf] Hn H16. pose proof (si_mapped _ _ Hs) as [Hm Hm4].
  assert (Hne : exists l0 b0, l = l0 ++ [b0]).
  { destruct (si_head _ _ Hs) as [_ Hh]. destruct l as [|x l]; [done|]. destruct (exists_last (l := x :: l)) as (l0 & b0 & ->); [done|eauto]. }
  destruct Hne as (l0 & b0 & ->). destruct (struct_mid _ _ _ _ Hs) as (_ & L1 & _ & B1 & B2 & B3 & _).
  unfold grow_heap, add_overflow_u64, UINT64_MAX in *. heap_consts. rewrite !u64_small by lia.
  destruct (_ >? _) eqn:E; [intros X; injection X as <- <-; left; split; [done|]; split; [by split|lia]|]. zbool.
  rewrite u64_small by lia. destruct (map_more s _) as [ok s1] eqn:Em.
  apply map_more_spec in Em as (G & Hm1 & Hm14 & Hok); [|done|done|split; lia]. heap_consts.
  assert (Hs1 : struct_inv s1 (l0 ++ [b0])) by (by apply (grown_struct s)).
  pose proof G as (G1 & G2 & G3 & G4). destruct ok; cbn [negb].
  2: { intros X. injection X as <- <-. left. split; [done|]. split; [split; [done|congruence]|lia]. }
  specialize (Hok eq_refl). rewrite !u64_small by lia.
  set (t := AB (18446620928407240704 + heap_mapped s) (heap_mapped s1 - heap_mapped s - 48) true).
  replace (18446620928407240704 + heap_mapped s1 - (18446620928407240704 + heap_mapped s) - 48) with (sz t) by (simpl; lia).
  change (18446620928407240704 + heap_mapped s) with (st t).
  destruct (append_block_spec s1 l0 b0 t Hs1) as (A1 & A2 & A3); [simpl; mlia|simpl; lia|simpl; mlia|done|heap_consts; simpl; lia|heap_consts; simpl; lia|].
  remember (append_block s1 (st t) (sz t)) as s2 eqn:E2. clear E2. intros X. injection X as <- <-. right. exists t. split; [done|]. split; [done|]. split; [unfold fits; simpl; lia|].
  rewrite <- app_assoc. split; [split; [done|]|rewrite A3; heap_consts; simpl; lia].
  rewrite A2, G4, Hf. pose proof (sumfree_bound _ _ _ (si_layout _ _ A1)) as Hb. rewrite A3 in Hb.
  rewrite (app_assoc l0 [b0] [t] : l0 ++ [b0; t] = _) in *. rewrite (sumfree_app (l0 ++ [b0])) in *. simpl in *.
  heap_consts. rewrite u64_small by lia. rewrite !sumfree_app. simpl. lia.
Qed.

(** ** The two entry points *)

Lemma align_up_16 n :
  0 < n <= UINT64_MAX - 63 ->
  let a := align_up_u64 n NPK_HEAP_ALIGNMENT in n <= a < n + 16 /\ a mod 16 = 0 /\ a <= UINT64_MAX - 63.
Proof.
  intros Hn. unfold align_up_u64, UINT64_MAX, NPK_HEAP_ALIGNMENT in *.
  destruct (_ || _) eqn:E; [apply orb_true_iff in E; destruct E; zbool; lia|].
  change (16 - 1) with (2 ^ 4 - 1). rewrite (land_not_mask _ 4) by lia. change (2 ^ 4) with 16. split; [mlia|]. split; mlia.
Qed.

(** What an allocation of [n] bytes does to the list of blocks. *)
Lemma kmalloc_cases s l n p s' :
  heap_inv s l -> 0 < n <= UINT64_MAX - 63 -> kmalloc s n = (p, s') ->
  let a := align_up_u64 n NPK_HEAP_ALIGNMENT in
  (p = 0 /\ heap_inv s' l /\ heap_mapped s <= heap_mapped s' /\ forall c, c ∈ l -> fits a c = false) \/
  exists l1 b l2, p = st b + HDR /\ fits a b = true /\ heap_inv s' (l1 ++ carve b a ++ l2) /\
    ((l = l1 ++ b :: l2 /\ heap_mapped s' = heap_mapped s) \/
     (l = l1 /\ l2 = [] /\ st b = NPK_HEAP_BASE + heap_mapped s /\ NPK_HEAP_BASE + heap_mapped s' = st b + HDR + sz b)).
Proof.
  intros Hs Hn Hk a. pose proof (align_up_16 n Hn) as (A1 & A2 & A3). fold a in A1, A2, A3. revert Hk.
  unfold kmalloc. rewrite (si_ready _ _ (proj1 Hs)). fold a.
  replace (n =? 0) with false by lia. replace (a =? 0) with false by lia. cbn [negb orb]. cbv iota.
  destruct (find_free_spec s l a (proj1 Hs)) as [[-> Hno]|(l1 & b & l2 & -> & Hfit & _ & ->)].
  - change (0 =? 0) with true. cbv iota. destruct (grow_heap s a) as [r s1] eqn:Eg.
    destruct (grow_heap_spec s l a r s1 Hs ltac:(lia) A2 Eg) as [(-> & Hs1 & Hm1)|(b & -> & Hb1 & Hb2 & Hs1 & Hb3)].
    + change (0 =? 0) with true. cbv iota. intros X. injection X as <- <-. by left.
    + replace (st b =? 0) with false by (heap_consts; pose proof (si_mapped _ _ (proj1 Hs)); lia). cbv iota.
      destruct (take_block_spec s1 l b [] a Hs1 ltac:(lia) A2 Hb2) as (s2 & -> & Hs2 & Hm2).
      intros X. injection X as <- <-. right. exists l, b, []. split; [done|]. split; [done|]. split; [done|].
      right. split; [done|]. split; [done|]. split; [done|]. by rewrite Hm2.
  - destruct (struct_mid _ _ _ _ (proj1 Hs)) as (_ & _ & _ & B1 & _). heap_consts.
    replace (st b =? 0) with false by lia. cbv iota.
    destruct (take_block_spec s l1 b l2 a Hs ltac:(lia) A2 Hfit) as (s2 & -> & Hs2 & Hm2). heap_consts.
    intros X. injection X as <- <-. right. exists l1, b, l2. split; [done|]. split; [done|]. split; [done|]. by left.
Qed.

(** Merging a free block with its successor, on the list. *)
Definition amerge (b : ab) l2 : list ab :=
  match l2 with
  | c :: l2' => if fr c && (st c =? st b + HDR + sz b) then AB (st b) (sz b + HDR + sz c) (fr b) :: l2' else b :: l2
  | [] => [b]
  end.

Lemma merge_spec s l1 b l2 :
  heap_inv s (l1 ++ b :: l2) -> fr b = true ->
  heap_inv (merge_with_next s (st b)) (l1 ++ amerge b l2) /\ heap_mapped (merge_with_next s (st b)) = heap_mapped s.
Proof.
  intros [Hs Hf] Hfr. destruct l2 as [|c l2]; simpl.
  { rewrite (merge_skip _ l1 b []) by done. by split. }
  destruct (fr c && _) eqn:E.
  - apply andb_true_iff in E as [Ec Est]. apply Z.eqb_eq in Est.
    destruct (merge_struct s l1 b c l2 Hs Ec Est) as (Hs' & Hf' & Hm'). split; [|done]. split; [done|].
    pose proof (sumfree_bound _ _ _ (si_layout _ _ Hs')) as Hb. rewrite Hm' in Hb. pose proof (si_mapped _ _ Hs) as [? _].
    rewrite Hf', Hf. rewrite sumfree_app in *. simpl in *. rewrite Hfr, Ec in *. heap_consts.
    rewrite u64_small by lia. rewrite sumfree_app. simpl. lia.
  - rewrite (merge_skip _ l1 b (c :: l2) Hs); [by split|]. intros c' l' X. injection X as <- <-.
    apply andb_false_iff in E as [E|E]; [by left|]. right. by apply Z.eqb_neq.
Qed.

(** The merged-away header keeps its link to the block it was merged into. *)
Lemma merge_prev s l1 b c l2 :
  struct_inv s (l1 ++ b :: c :: l2) -> prev (blk (merge_with_next s (st b)) (st c)) = st b.
Proof.
  intros Hs. pose proof Hs as Hs'. rewrite (cons_middle b l1), app_assoc in Hs'.
  destruct (struct_mid _ _ _ _ Hs') as (Ec & L1 & M2 & C1 & C2 & C3 & C4 & C5 & C6). rewrite lastst_app in Ec. simpl in Ec.
  destruct (L1 b ltac:(set_solver)) as (_ & Hlt & Hpos). heap_consts.
  destruct (fr c && (st c =? st b + 48 + sz b)) eqn:E.
  2: { rewrite (merge_skip s l1 b (c :: l2)); [by rewrite Ec|done|]. intros c' l' X. injection X as <- <-.
       apply andb_false_iff in E as [E|E]; [by left|right; by apply Z.eqb_neq]. }
  apply andb_true_iff in E as [E1 E2]. apply Z.eqb_eq in E2. rewrite (merge_eq s l1 b c l2 Hs E1 E2). unfold merged.
  set (s1 := set_next _ _ _). set (s2 := relink s1 l2 (st b)).
  assert (E3 : blk s2 (st c) = blk s1 (st c)).
  { unfold s2, relink. destruct (negb _); [|done]. unfold set_prev. rewrite blk_setb. rewrite decide_False; [done|].
    destruct l2 as [|d l2]; simpl; [lia|]. destruct (M2 d ltac:(set_solver)). lia. }
  assert (E4 : blk s1 (st c) = blk s (st c)).
  { unfold s1, set_next. rewrite blk_setb. slot. rewrite blk_set_heap_free. unfold set_size. rewrite blk_setb. by slot. }
  unfold set_free_flag, set_magic. rewrite !blk_setb. slot. cbn [prev]. by rewrite E3, E4, Ec.
Qed.

Lemma amerge_head b l2 : exists h t, amerge b l2 = h :: t /\ st h = st b /\ fr h = fr b.
Proof. destruct l2 as [|c l2]; simpl; [eauto|]. destruct (fr c && _); eauto. Qed.

(** Freeing the block [b], on the list. *)
Definition afree (l1 : list ab) (b : ab) (l2 : list ab) : list ab :=
  let b' := AB (st b) (sz b) true in
  match last l1 with
  | Some a => if fr a then take (pred (length l1)) l1 ++
                             match amerge a (b' :: l2) with [] => [] | h :: t => amerge h t end
              else l1 ++ amerge b' l2
  | None => l1 ++ amerge b' l2
  end.

Lemma kfree_accepts s l1 b l2 :
  heap_inv s (l1 ++ b :: l2) -> fr b = false ->
  heap_inv (kfree s (st b + HDR)) (afree l1 b l2) /\ heap_mapped (kfree s (st b + HDR)) = heap_mapped s.
Proof.
  intros [Hs Hf] Hfr. destruct (struct_mid _ _ _ _ Hs) as (Eb & L1 & L2 & B1 & B2 & B3 & B4 & B5 & B6).
  unfold kfree, pointer_in_heap. pose proof (sumfree_parts _ _ _ _ _ (si_layout _ _ Hs)) as Hsf. pose proof (si_mapped _ _ Hs) as [Hmap _].
  replace (st b + HDR =? 0) with false by (heap_consts; lia).
  replace (_ && _) with true by (heap_consts; lia). cbn [negb]. cbv iota.
  replace (st b + HDR - HDR) with (st b) by lia. rewrite Eb. cbn [magic free size].
  rewrite Hfr, Z.eqb_refl. replace (sz b =? 0) with false by lia. cbn [negb orb]. cbv iota.
  destruct (set_free_flag_struct s l1 b l2 true Hs) as (Hs1 & Hf1 & Hm1). set (s1 := set_free_flag s (st b) true) in *.
  set (b' := AB (st b) (sz b) true) in *. clearbody s1. destruct (struct_mid _ _ _ _ Hs1) as (Eb1 & _). change (st b') with (st b) in Eb1.
  set (s2 := set_heap_free s1 _).
  assert (Hs2 : heap_inv s2 (l1 ++ b' :: l2)).
  { split; [by destruct Hs1|]. unfold s2. cbn [heap_free set_heap_free]. rewrite Eb1. cbn [size].
    rewrite Hf1, Hf. rewrite !sumfree_app. simpl. rewrite Hfr. heap_consts. rewrite u64_small by lia. lia. }
  assert (Hm2 : heap_mapped s2 = heap_mapped s) by (unfold s2; simpl; congruence).
  assert (Eb2 : blk s2 (st b) = HB HEAP_MAGIC (sz b) true (hdst l2 0) (lastst l1 0)) by exact Eb1.
  clearbody s2. rewrite Eb2. cbn [prev]. clear s1 Hs1 Hf1 Hm1 Eb1. rewrite <- Hm2. clear Hm2.
  unfold afree. fold b'. destruct (last l1) as [a|] eqn:El.
  2: { apply last_None in El as ->. simpl. by apply (merge_spec s2 [] b' l2). }
  apply last_Some in El as [l0 ->]. rewrite lastst_app. simpl lastst.
  destruct (L1 a ltac:(set_solver)) as (? & ? & ?). replace (st a =? 0) with false by (heap_consts; lia). cbn [negb andb].
  pose proof Hs2 as Hs3. rewrite <- app_assoc in Hs3. simpl in Hs3.
  destruct (struct_mid _ _ _ _ (proj1 Hs3)) as (Ea & _). rewrite Ea. cbn [free].
  destruct (fr a) eqn:Efa.
  - change (st b) with (st b'). rewrite (merge_prev s2 l0 a b' l2) by apply Hs3.
    destruct (merge_spec s2 l0 a (b' :: l2) Hs3 Efa) as [Hs4 Hm4].
    destruct (amerge_head a (b' :: l2)) as (h & t & Eh & Est & Efh). rewrite Eh in *. rewrite Efa in Efh.
    rewrite length_app, take_app_le by (simpl; lia). simpl. replace (pred (length l0 + 1)) with (length l0) by lia.
    rewrite firstn_all. destruct (merge_spec _ l0 h t Hs4 Efh) as [X1 X2]. rewrite Est in X1, X2. split; [done|congruence].
  - by apply (merge_spec s2 (l0 ++ [a]) b' l2).
Qed.

Lemma kfree_rejects s l p :
  heap_inv s l -> (forall b, b ∈ l -> fr b = false -> st b + HDR <> p) -> kfree s p = s.
Proof.
  intros [Hs _] Hno. unfold kfree. destruct (p =? 0); [done|]. destruct (pointer_in_heap s p); [|done]. cbn [negb]. cbv iota.
  destruct (magic (blk s (p - HDR)) =? HEAP_MAGIC) eqn:Em; [|done]. cbn [negb orb]. apply Z.eqb_eq in Em.
  destruct (blocks s !! (p - HDR)) as [h|] eqn:E; [|unfold blk in Em; by rewrite E in Em].
  rewrite (blk_lookup _ _ _ E) in *. destruct (si_magic _ _ Hs _ _ E Em) as (b & Hb & Est).
  assert (Hfr : fr b = true) by (destruct (fr b) eqn:Ef; [done|]; by apply (Hno b Hb) in Ef; lia).
  apply list_elem_of_split in Hb as (l1 & l2 & ->). pose proof (seg_at _ _ _ _ _ _ (si_seg _ _ Hs)) as X.
  rewrite Est, E in X. injection X as ->. cbn [free]. by rewrite Hfr.
Qed.

(** ** The self-check *)

Lemma tiles_app lo l1 l2 hi : tiles lo (l1 ++ l2) hi <-> exists mid, tiles lo l1 mid /\ tiles mid l2 hi.
Proof.
  revert lo; induction l1 as [|b l1 IH]; intros lo; simpl.
  - split; [intros; exists lo; done|]. by intros (mid & -> & ?).
  - rewrite IH. split; [intros (? & mid & ? & ?); exists mid; done|intros (mid & (? & ?) & ?); eauto].
Qed.

Lemma validate_from_complete s p l a hi obs fuel :
  seg (blocks s) p l 0 -> layout a l hi -> tiles a l hi -> NPK_HEAP_BASE <= a -> hi <= NPK_HEAP_LIMIT ->
  0 <= obs <= a - NPK_HEAP_BASE -> (length l < fuel)%nat ->
  validate_from fuel s (hdst l 0) a p obs = Some (hi, obs + sumfree l).
Proof.
  revert p a obs fuel; induction l as [|b l IH]; intros p a obs fuel Hseg Hlay Ht Ha Hhi Ho Hf; destruct fuel as [|fuel]; simpl in Hf; try lia.
  { simpl in *. subst. f_equal. f_equal. lia. }
  destruct Hseg as [Eb Hseg]. destruct Hlay as (L1 & L2 & L3 & L4 & Hlay). destruct Ht as [-> Ht].
  pose proof (layout_le _ _ _ Hlay). heap_consts. simpl. rewrite (blk_lookup _ _ _ Eb). cbn [magic size next prev free].
  rewrite !Z.eqb_refl. replace (st b =? 0) with false by lia. replace (sz b =? 0) with false by lia. cbn [negb orb].
  unfold add_overflow_u64, UINT64_MAX. heap_consts. rewrite !(u64_small (48 + _)), !(u64_small (st b + _)), !(u64_small (obs + _)) by lia.
  replace (_ || _) with false by lia. replace (st b + (48 + sz b)) with (st b + 48 + sz b) by lia.
  destruct (fr b); rewrite IH by (done || lia); f_equal; f_equal; lia.
Qed.

Lemma validate_from_sound s p l a obs fuel x o :
  seg (blocks s) p l 0 -> (forall b, b ∈ l -> st b <> 0) -> (forall b, b ∈ l -> st b + HDR + sz b < 18446744073709551616 /\ 0 <= st b /\ 0 < sz b) ->
  (length l < fuel)%nat -> validate_from fuel s (hdst l 0) a p obs = Some (x, o) -> tiles a l x.
Proof.
  revert p a obs fuel; induction l as [|b l IH]; intros p a obs fuel Hseg Hz Hb Hf; destruct fuel as [|fuel]; simpl in Hf; try lia.
  { simpl. intros X. by inv X. }
  destruct Hseg as [Eb Hseg]. assert (st b <> 0) by (apply Hz; set_solver). simpl.
  rewrite (blk_lookup _ _ _ Eb). cbn [magic size next prev free]. replace (st b =? 0) with false by lia.
  destruct (negb (st b =? a)) eqn:E; [done|]. apply negb_false_iff, Z.eqb_eq in E as <-. cbn [orb].
  destruct (_ || _); [done|]. destruct (_ || _); [done|]. intros X. split; [done|].
  apply IH in X; [|done|intros; apply Hz; set_solver|intros; apply Hb; set_solver|lia].
  destruct (Hb b ltac:(set_solver)) as (? & ? & ?). unfold HDR in *. rewrite u64_small in X by lia.
  by replace (st b + (48 + sz b)) with (st b + 48 + sz b) in X by lia.
Qed.

Lemma validate_iff s l :
  heap_inv s l -> kheap_validate s = true <-> tiles NPK_HEAP_BASE l (NPK_HEAP_BASE + heap_mapped s).
Proof.
  intros [Hs Hf]. destruct (si_head _ _ Hs) as [Hh Hh']. pose proof (si_mapped _ _ Hs) as [Hm _].
  pose proof (walk_fuel_enough s l Hs) as Hw. unfold kheap_validate. rewrite (si_ready _ _ Hs). cbn [negb]. cbv iota.
  rewrite Hh, <- Hh' at 1. rewrite u64_small by (heap_consts; lia). split.
  - destruct (validate_from _ s _ _ 0 0) as [[x o]|] eqn:E; [|done]. intros X. apply andb_true_iff in X as [X _]. apply Z.eqb_eq in X as ->.
    apply validate_from_sound in E; [done|apply Hs| | |done]; intros b Hb;
      destruct (layout_in _ _ _ _ (si_layout _ _ Hs) Hb) as (? & ? & ? & _); heap_consts; lia.
  - intros Ht. rewrite (validate_from_complete s 0 l NPK_HEAP_BASE (NPK_HEAP_BASE + heap_mapped s));
      [|apply Hs|apply Hs|done|lia|heap_consts; lia|lia|done].
    rewrite Z.eqb_refl. simpl. rewrite Hf. apply Z.eqb_refl.
Qed.

Lemma tiles_carve x b n y : tiles x [b] y -> tiles x (carve b n) y.
Proof. unfold carve. destruct (_ <? _); simpl; [done|]. heap_consts. lia. Qed.

Lemma tiles_amerge x b l y : tiles x (b :: l) y -> tiles x (amerge b l) y.
Proof.
  destruct l as [|c l]; simpl; [done|]. destruct (fr c && _); simpl; [|done]. intros (-> & E & H'). split; [done|].
  rewrite <- E in H'. by rewrite !Z.add_assoc in *.
Qed.

Lemma tiles_afree x l1 b l2 y : tiles x (l1 ++ b :: l2) y -> tiles x (afree l1 b l2) y.
Proof.
  set (b' := AB (st b) (sz b) true). intros Ht. assert (Ht' : tiles x (l1 ++ b' :: l2) y).
  { apply tiles_app. apply tiles_app in Ht. exact Ht. }
  clear Ht. unfold afree. fold b'. assert (Hno : tiles x (l1 ++ amerge b' l2) y).
  { apply tiles_app in Ht' as (m & H1 & H2). apply tiles_app. exists m. split; [done|]. by apply tiles_amerge. }
  destruct (last l1) as [a|] eqn:El; [|done]. destruct (fr a); [|done]. apply last_Some in El as [l0 ->].
  rewrite length_app, take_app_le by (simpl; lia). replace (pred (length l0 + length [a])) with (length l0) by (simpl; lia). rewrite firstn_all.
  rewrite <- app_assoc in Ht'. apply tiles_app in Ht' as (m & H1 & H2). apply tiles_app. exists m. split; [done|].
  apply tiles_amerge in H2. destruct (amerge_head a (b' :: l2)) as (h & t & E & _). simpl app in H2. rewrite E in *. by apply tiles_amerge.
Qed.

Lemma kheap_init_spec p :
  heap_ready (kheap_init p) = true ->
  heap_inv (kheap_init p) [AB NPK_HEAP_BASE (NPK_PAGE_SIZE - HDR) true] /\ heap_mapped (kheap_init p) = NPK_PAGE_SIZE.
Proof.
  unfold kheap_init. set (s0 := Heap 0 0 0 false ∅ p). destruct (map_more s0 NPK_PAGE_SIZE) as [ok s] eqn:E.
  assert (Hok : ok = true -> heap_mapped s = NPK_PAGE_SIZE).
  { intros ->. unfold map_more in E. change (align_up_u64 NPK_PAGE_SIZE NPK_PAGE_SIZE) with 4096 in E.
    change (heap_mapped s0) with 0 in E. heap_consts. simpl in E. pose proof (map_one_spec s0) as Ho.
    destruct (map_one s0) as [t|t]; [|done]. injection E as <-. destruct Ho as [_ ->]. done. }
  apply map_more_spec in E as ((G1 & G2 & G3 & G4) & Hm & Hm4 & _); [|heap_consts; simpl; lia|done|split; done].
  destruct ok; cbn [negb]; [|by rewrite G3]. specialize (Hok eq_refl). intros _. rewrite blk_setb. rewrite decide_True by done. cbn [size].
  split; [|exact Hok]. split; [|done]. split; cbn [heap_ready heap_head blocks heap_mapped set_heap_free set_head setb set_blocks]; rewrite ?Hok.
  - done.
  - done.
  - split; [|done]. cbn [st]. rewrite lookup_insert. by rewrite decide_True.
  - simpl. unfold NPK_PAGE_SIZE. heap_consts. repeat split; try done; lia.
  - split; [unfold NPK_PAGE_SIZE; heap_consts; lia|done].
  - intros a h Ha _. rewrite G1 in Ha. change (blocks s0) with (∅ : gmap Z heap_block) in Ha.
    apply lookup_insert_Some in Ha as [[<- _]|[_ Ha]]; [|by rewrite lookup_empty in Ha].
    exists (AB NPK_HEAP_BASE (NPK_PAGE_SIZE - HDR) true). set_solver.
Qed.

(** A call on the heap; sizes that would overflow the request are left out. *)
Inductive heap_step : heap M -> heap M -> Prop :=
| hs_malloc s n p s' : 0 < n <= UINT64_MAX - 63 -> kmalloc s n = (p, s') -> heap_step s s'
| hs_free s p : heap_step s (kfree s p).

(** The same, where a failed allocation has not mapped part of its pages. *)
Inductive clean_step : heap M -> heap M -> Prop :=
| cs_malloc s n p s' : 0 < n <= UINT64_MAX - 63 -> kmalloc s n = (p, s') -> (p = 0 -> heap_mapped s' = heap_mapped s) -> clean_step s s'
| cs_free s p : clean_step s (kfree s p).

Lemma kfree_inv s l p :
  heap_inv s l -> exists l', heap_inv (kfree s p) l' /\ heap_mapped (kfree s p) = heap_mapped s /\
    forall x y, tiles x l y -> tiles x l' y.
Proof.
  intros Hs. destruct (decide (Exists (fun b => fr b = false /\ st b + HDR = p) l)) as [He|He].
  - apply Exists_exists in He as (b & Hb & Hfr & <-). apply list_elem_of_split in Hb as (l1 & l2 & ->).
    destruct (kfree_accepts s l1 b l2 Hs Hfr). exists (afree l1 b l2). split; [done|]. split; [done|].
    intros x y. apply tiles_afree.
  - rewrite (kfree_rejects s l p Hs); [by exists l|]. intros b Hb Hfr Hst. apply He, Exists_exists. eauto.
Qed.

Lemma heap_step_inv s s' l : heap_inv s l -> heap_step s s' -> exists l', heap_inv s' l'.
Proof.
  intros Hs Hstep. destruct Hstep as [s n p s' Hn Hk|s p].
  - destruct (kmalloc_cases s l n p s' Hs Hn Hk) as [(_ & ? & _)|(l1 & b & l2 & _ & _ & ? & _)]; eauto.
  - destruct (kfree_inv s l p Hs) as (l' & ? & _). eauto.
Qed.

Lemma clean_step_inv s s' l :
  heap_inv s l -> tiles NPK_HEAP_BASE l (NPK_HEAP_BASE + heap_mapped s) -> clean_step s s' ->
  exists l', heap_inv s' l' /\ tiles NPK_HEAP_BASE l' (NPK_HEAP_BASE + heap_mapped s').
Proof.
  intros Hs Ht Hstep. destruct Hstep as [s n p s' Hn Hk Hclean|s p].
  - destruct (kmalloc_cases s l n p s' Hs Hn Hk) as [(-> & ? & _)|(l1 & b & l2 & Hp & Hfit & Hs' & Hcase)].
    + exists l. split; [done|]. by rewrite (Hclean eq_refl).
    + eexists. split; [done|]. destruct Hcase as [[-> Hm]|(-> & -> & Hst & Hend)].
      * rewrite Hm. apply tiles_app in Ht as (x & T1 & T2). apply tiles_app. exists x. split; [done|].
        apply (tiles_app x [b] l2) in T2 as (y & T2 & T3). apply tiles_app. exists y. split; [by apply tiles_carve|done].
      * apply tiles_app. exists (NPK_HEAP_BASE + heap_mapped s). split; [done|]. rewrite app_nil_r. apply tiles_carve.
        simpl. rewrite Hend. done.
  - destruct (kfree_inv s l p Hs) as (l' & ? & Hm & Htl). exists l'. split; [done|]. rewrite Hm. by apply Htl.
Qed.

Lemma carve_head b n : sz b >= n -> exists t, carve b n = AB (st b) (if sz b <? n + HDR + NPK_HEAP_ALIGNMENT then sz b else n) false :: t.
Proof. intros _. unfold carve. destruct (_ <? _); eauto. Qed.

(** Block [c] keeps its place and lies outside the block [b]. *)
Definition kept_apart (l' : list ab) (b c : ab) : Prop :=
  c ∈ l' /\ (st c + HDR + sz c <= st b \/ st b + HDR + sz b <= st c).


Lemma amerge_in b l c : c ∈ l -> fr c = false -> c ∈ amerge b l.
Proof.
  destruct l as [|d l]; [set_solver|]. simpl. intros Hc Hf. destruct (fr d && _) eqn:E; [|set_solver].
  apply elem_of_cons in Hc as [->|Hc]; [|set_solver]. apply andb_true_iff in E as [E _]. congruence.
Qed.

Lemma afree_in l1 b l2 c : c ∈ l1 \/ c ∈ l2 -> fr c = false -> c ∈ afree l1 b l2.
Proof.
  intros Hc Hf. unfold afree. set (b' := AB _ _ true).
  assert (Hno : c ∈ l1 ++ amerge b' l2).
  { apply elem_of_app. destruct Hc; [by left|right; by apply amerge_in]. }
  destruct (last l1) as [a|] eqn:El; [|done]. destruct (fr a) eqn:Ea; [|done]. apply last_Some in El as [l0 ->].
  rewrite length_app, take_app_le by (simpl; lia). replace (pred (length l0 + length [a])) with (length l0) by (simpl; lia). rewrite firstn_all.
  apply elem_of_app. destruct Hc as [Hc|Hc].
  - apply elem_of_app in Hc as [Hc|Hc]; [by left|]. apply list_elem_of_singleton in Hc as ->. congruence.
  - right. pose proof (amerge_in a (b' :: l2) c ltac:(set_solver) Hf) as Hin.
    destruct (amerge_head a (b' :: l2)) as (h & t & E & _ & Eh). rewrite E in *. rewrite Ea in Eh.
    apply elem_of_cons in Hin as [->|Hin]; [congruence|]. by apply amerge_in.
Qed.

Lemma amerge_alloc b l c : c ∈ amerge b l -> fr c = false -> fr b = true -> c ∈ l.
Proof.
  destruct l as [|d l]; simpl.
  - intros Hc Hf Hb. apply list_elem_of_singleton in Hc as ->. congruence.
  - destruct (fr d && _); intros Hc Hf Hb; apply elem_of_cons in Hc as [->|Hc]; simpl in *; try congruence; set_solver.
Qed.

Lemma afree_alloc l1 b l2 c : c ∈ afree l1 b l2 -> fr c = false -> c ∈ l1 \/ c ∈ l2.
Proof.
  unfold afree. set (b' := AB _ _ true). intros Hc Hf.
  assert (Hno : c ∈ l1 ++ amerge b' l2 -> c ∈ l1 \/ c ∈ l2).
  { rewrite elem_of_app. intros [?|H']; [by left|right]. by apply (amerge_alloc b'). }
  destruct (last l1) as [a|] eqn:El; [|auto]. destruct (fr a) eqn:Ea; [|auto]. apply last_Some in El as [l0 ->].
  revert Hc. rewrite length_app, take_app_le by (simpl; lia).
  replace (pred (length l0 + length [a])) with (length l0) by (simpl; lia). rewrite firstn_all, elem_of_app.
  intros [Hc|Hc]; [left; set_solver|]. destruct (amerge_head a (b' :: l2)) as (h & t & E & _ & Eh). rewrite E in Hc.
  apply amerge_alloc in Hc; [|done|congruence]. assert (Hin : c ∈ amerge a (b' :: l2)) by (rewrite E; set_solver).
  apply amerge_alloc in Hin; [|done|done]. apply elem_of_cons in Hin as [->|Hin]; [done|by right].
Qed.

(** Freeing the payload of a block in use keeps every other block in use
    where it is, keeps the heap well formed, and makes a second free of the same
    pointer do nothing. *)
Theorem kfree_spec s l b :
  heap_inv s l -> b ∈ l -> fr b = false ->
  let s' := kfree s (st b + HDR) in
  (exists l', heap_inv s' l' /\ forall c, fr c = false -> c ∈ l' <-> c ∈ l /\ c <> b) /\
  kfree s' (st b + HDR) = s'.
Proof.
  intros Hs Hb Hfr. apply list_elem_of_split in Hb as (l1 & l2 & ->).
  destruct (kfree_accepts s l1 b l2 Hs Hfr) as [Hs' _].
  destruct (struct_mid _ _ _ _ (proj1 Hs)) as (_ & L1 & L2 & _ & _ & _ & Hpos & _). unfold HDR in L1, L2.
  assert (Hsep : forall c, c ∈ l1 \/ c ∈ l2 -> st c <> st b).
  { intros c [Hc|Hc]; [destruct (L1 c Hc) as (? & ? & ?)|destruct (L2 c Hc) as [? ?]]; lia. }
  split.
  - eexists. split; [done|]. intros c Hf. split.
    + intros Hc. apply afree_alloc in Hc; [|done]. split; [set_solver|]. intros ->. by apply (Hsep b) in Hc.
    + intros [Hc Hne]. apply afree_in; [|done]. rewrite elem_of_app, elem_of_cons in Hc. naive_solver.
  - apply (kfree_rejects _ _ _ Hs'). intros c Hc Hf Heq. apply (afree_alloc l1 b l2 c) in Hc; [|done].
    apply Hsep in Hc. lia.
Qed.

(** Pointers that are not the payload of a block in use are rejected:
    [kfree] of a wild, interior, already freed or null pointer changes nothing. *)
Theorem kfree_rejects_wild s l p :
  heap_inv s l -> (forall b, b ∈ l -> fr b = false -> st b + HDR <> p) -> kfree s p = s.
Proof. intros. by apply (kfree_rejects s l). Qed.

(** In every state reached from a successful [kheap_init] by allocations
    and frees of arbitrary pointers, the headers describe a list of aligned,
    pairwise disjoint blocks inside the mapped window, and the free counter is
    the sum of the sizes of the free ones. *)
Theorem heap_reachable_inv p s :
  heap_ready (kheap_init p) = true -> rtc heap_step (kheap_init p) s -> exists l, heap_inv s l.
Proof.
  intros Hr Hst. apply kheap_init_spec in Hr as [Hs _]. revert Hs. generalize [AB NPK_HEAP_BASE (NPK_PAGE_SIZE - HDR) true].
  induction Hst as [x|x y z Hxy _ IH]; intros l Hl; [eauto|]. destruct (heap_step_inv x y l Hl Hxy) as [l' Hl']. by apply (IH l').
Qed.

(** As long as no allocation fails halfway through mapping its pages,
    [kheap_validate] accepts every reachable heap: the blocks tile the window. *)
Theorem heap_reachable_validates p s :
  heap_ready (kheap_init p) = true -> rtc clean_step (kheap_init p) s -> kheap_validate s = true.
Proof.
  intros Hr Hst. apply kheap_init_spec in Hr as [Hs Hm].
  assert (Ht : tiles NPK_HEAP_BASE [AB NPK_HEAP_BASE (NPK_PAGE_SIZE - HDR) true] (NPK_HEAP_BASE + heap_mapped (kheap_init p))) by (by rewrite Hm).
  clear Hm. revert Hs Ht. generalize [AB NPK_HEAP_BASE (NPK_PAGE_SIZE - HDR) true].
  induction Hst as [x|x y z Hxy _ IH]; intros l Hl Ht; [by apply (validate_iff x l)|].
  destruct (clean_step_inv x y l Hl Ht Hxy) as (l' & Hl' & Ht'). by apply (IH l').
Qed.

(** On a well-formed heap [kheap_validate] succeeds exactly when the blocks
    leave no gap between the base and the end of the mapped window. *)
Theorem kheap_validate_iff s l :
  heap_inv s l -> kheap_validate s = true <-> tiles NPK_HEAP_BASE l (NPK_HEAP_BASE + heap_mapped s).
Proof. apply validate_iff. Qed.
End Steps.

(** ** A concrete heap over the page-table model *)

Notation heap_example := (kheap_init (machine 16)).

Lemma heap_example_inv : heap_inv heap_example [AB NPK_HEAP_BASE 4048 true].
Proof. apply kheap_init_spec. vm_compute. reflexivity. Qed.

Lemma heap_example_step n : 0 < n <= UINT64_MAX - 63 -> heap_step heap_example (kmalloc heap_example n).2.
Proof. intros Hn. by apply (hs_malloc _ n (kmalloc heap_example n).1); [|destruct (kmalloc heap_example n)]. Qed.


(** The heap after one allocation. *)
Definition heap_one : heap vmm := (kmalloc heap_example 100).2.

Lemma heap_one_block : exists l b, heap_inv heap_one l /\ b ∈ l /\ fr b = false /\ st b + HDR = NPK_HEAP_BASE + 48.
Proof.
  assert (E : (kmalloc heap_example 100).1 = NPK_HEAP_BASE + 48) by (vm_compute; reflexivity).
  destruct (kmalloc_cases heap_example _ 100 _ _ heap_example_inv ltac:(split; [lia|by vm_compute]) (surjective_pairing _))
    as [(H & _)|(l1 & b & l2 & Hp & Hfit & Hs & _)]; [rewrite E in H; discriminate|].
  unfold fits in Hfit. apply andb_true_iff in Hfit as [_ Hsz].
  destruct (carve_head b (align_up_u64 100 NPK_HEAP_ALIGNMENT) ltac:(lia)) as [t Et]. rewrite Et in Hs.
  eexists _, _. split; [exact Hs|]. split; [apply elem_of_app; right; left|]. split; [reflexivity|].
  cbn [st]. rewrite <- Hp. exact E.
Qed.

Lemma kfree_spec_witness :
  kfree (kfree heap_one (NPK_HEAP_BASE + 48)) (NPK_HEAP_BASE + 48) = kfree heap_one (NPK_HEAP_BASE + 48).
Proof.
  destruct heap_one_block as (l & b & Hs & Hb & Hf & Hst). rewrite <- Hst.
  exact (proj2 (kfree_spec heap_one l b Hs Hb Hf)).
Defined.

Lemma kfree_rejects_wild_witness : kfree heap_example (NPK_HEAP_BASE + 512) = heap_example.
Proof.
  apply (kfree_rejects_wild heap_example [AB NPK_HEAP_BASE 4048 true]); [exact heap_example_inv|].
  intros b Hb Hf. apply list_elem_of_singleton in Hb. rewrite Hb in Hf. discriminate Hf.
Defined.

Lemma heap_reachable_inv_witness : exists l, heap_inv heap_one l.
Proof.
  apply (heap_reachable_inv (machine 16)); [vm_compute; reflexivity|].
  apply rtc_once. apply (heap_example_step 100). split; [lia|by vm_compute].
Defined.

Lemma heap_reachable_validates_witness : kheap_validate (kfree heap_one 0) = true.
Proof.
  apply (heap_reachable_validates (machine 16)); [vm_compute; reflexivity|].
  apply rtc_l with heap_one; [|apply rtc_once; constructor].
  apply (cs_malloc _ 100 (kmalloc heap_example 100).1); [split; [lia|by vm_compute]|apply surjective_pairing|].
  intros H. exfalso. revert H. vm_compute. discriminate.
Defined.

Lemma kheap_validate_iff_witness : kheap_validate heap_example = true.
Proof. apply (kheap_validate_iff heap_example _ heap_example_inv). vm_compute. split; [reflexivity|reflexivity]. Defined.

(** ** Two defects *)

(** An allocation that runs out of frames after mapping some of its pages
    leaves [heap_mapped] advanced without a block for the new pages: the
    self-check fails from then on and the pages are never used. *)
Lemma kmalloc_partial_growth_breaks_validate :
  let s := kheap_init (machine 7) in
  kheap_validate s = true /\
  (kmalloc s 12000).1 = 0 /\ kheap_mapped_bytes (kmalloc s 12000).2 = 12288 /\
  kheap_validate (kmalloc s 12000).2 = false.
Proof. vm_compute. repeat split. Qed.

(** The overflow check of the growth path is made on a sum that has already
    wrapped: a request for the largest aligned size succeeds on a 64 MiB heap. *)
Lemma kmalloc_size_wraps : (kmalloc heap_example (UINT64_MAX - 15)).1 = NPK_HEAP_BASE + 4096 + 48.
Proof. vm_compute. reflexivity. Qed.
