(* ===== verification/Kmem.v ===== *)
(** * Kernel memory: the heap, the page tables and the direct map

    The state the kernel's memory users share: the heap over the page tables
    over the frame allocator.  Physical memory is also accessed byte by byte
    through the direct map; the bytes of a word are little-endian. *)

From Stdlib Require Import ZArith Lia Bool ZifyBool.
From stdpp Require Import base numbers list gmap.
From S2P Require Import Prelude Pmm Vmm Heap.

Definition kmem : Type := heap vmm.

Definition set_pages (s : kmem) (p : vmm) : kmem :=
  Heap (heap_head s) (heap_mapped s) (heap_free s) (heap_ready s) (blocks s) p.

(** Running a page-table operation on the kernel state. *)
Definition on_pages {A} (f : vmm -> A * vmm) (s : kmem) : A * kmem :=
  let '(a, p) := f (pages s) in (a, set_pages s p).
Definition on_pages_ (f : vmm -> vmm) (s : kmem) : kmem := set_pages s (f (pages s)).

Definition k_alloc_page (s : kmem) : Z * kmem := on_pages alloc_frame s.
Definition k_free_page (s : kmem) (a : Z) : kmem := on_pages_ (fun v => free_frame v a) s.
Definition k_retain_page (s : kmem) (a : Z) : kmem := on_pages_ (fun v => retain_frame v a) s.
Definition k_map_page_root (s : kmem) (root va pa flags : Z) : bool * kmem :=
  on_pages (fun v => vmm_map_page_root v root va pa flags) s.
Definition k_unmap_page_root (s : kmem) (root va : Z) : Z * kmem :=
  on_pages (fun v => vmm_unmap_page_root v root va) s.
Definition k_protect_page_root (s : kmem) (root va flags : Z) : bool * kmem :=
  on_pages (fun v => vmm_protect_page_root v root va flags) s.
Definition k_lookup_root (s : kmem) (root va flags : Z) : Z := vmm_lookup_root (pages s) root va flags.
Definition k_resolve_cow_fault (s : kmem) (root va : Z) : bool * kmem :=
  on_pages (fun v => vmm_resolve_cow_fault v root va) s.
Definition k_zero_page (s : kmem) (a : Z) : kmem := on_pages_ (fun v => zero_page v a) s.

(** ** Bytes *)

Definition rd8 (s : vmm) (a : Z) : Z := Z.land (Z.shiftr (rd s a) (8 * (a mod 8))) 255.
Definition wr8 (s : vmm) (a v : Z) : vmm :=
  let sh := 8 * (a mod 8) in
  wr s a (Z.lor (Z.land (rd s a) (not64 (Z.shiftl 255 sh))) (Z.shiftl v sh)).

(** memcpy to and from physical memory. *)
Fixpoint write_bytes (s : vmm) (a : Z) (bs : list Z) : vmm :=
  match bs with [] => s | b :: bs' => write_bytes (wr8 s a b) (a + 1) bs' end.
Fixpoint read_bytes (s : vmm) (a : Z) (n : nat) : list Z :=
  match n with O => [] | S n' => rd8 s a :: read_bytes s (a + 1) n' end.

Definition k_write_bytes (s : kmem) (a : Z) (bs : list Z) : kmem := on_pages_ (fun v => write_bytes v a bs) s.
Definition k_read_bytes (s : kmem) (a : Z) (n : nat) : list Z := read_bytes (pages s) a n.

(** ** Lemmas *)

Lemma byte_shift a : 0 <= 8 * (a mod 8) <= 56.
Proof. mlia. Qed.

Lemma testbit_255 n : 0 <= n -> Z.testbit 255 n = (n <? 8).
Proof.
  intros Hn. change 255 with (Z.ones 8). destruct (n <? 8) eqn:E; zbool;
    [apply Z.ones_spec_low|apply Z.ones_spec_high]; lia.
Qed.

Lemma rd8_bits s a n : 0 <= n -> Z.testbit (rd8 s a) n = (n <? 8) && Z.testbit (rd s a) (n + 8 * (a mod 8)).
Proof.
  intros Hn. unfold rd8. rewrite Z.land_spec, Z.shiftr_spec, testbit_255 by lia. apply andb_comm.
Qed.

Lemma wr8_word_bits w v sh n :
  0 <= v < 256 -> 0 <= sh <= 56 -> 0 <= n < 64 ->
  Z.testbit (Z.lor (Z.land w (not64 (Z.shiftl 255 sh))) (Z.shiftl v sh)) n =
  if (sh <=? n) && (n <? sh + 8) then Z.testbit v (n - sh) else Z.testbit w n.
Proof.
  intros Hv Hs Hn. rewrite Z.lor_spec, Z.land_spec. unfold not64, u64. change 18446744073709551616 with (2 ^ 64).
  rewrite Z.mod_pow2_bits_low, Z.lnot_spec by lia.
  destruct (sh <=? n) eqn:E1; zbool; simpl.
  - rewrite !Z.shiftl_spec, testbit_255 by lia. destruct (n <? sh + 8) eqn:E2; zbool.
    + replace (n - sh <? 8) with true by lia. by rewrite andb_false_r.
    + replace (n - sh <? 8) with false by lia. rewrite andb_true_r.
      assert (Z.testbit v (n - sh) = false) as ->; [|apply orb_false_r].
      destruct (decide (v = 0)) as [->|]; [apply Z.bits_0|]. apply Z.bits_above_log2; [lia|].
      apply Z.lt_le_trans with 8; [apply Z.log2_lt_pow2; lia|lia].
  - rewrite !Z.shiftl_spec_low by lia. by rewrite andb_true_r, orb_false_r.
Qed.

(** Writing a byte changes that byte only. *)
Lemma rd8_wr8 s a b v : 0 <= v < 256 -> rd8 (wr8 s a v) b = if decide (a = b) then v else rd8 s b.
Proof.
  intros Hv. apply Z.bits_inj'. intros n Hn. rewrite rd8_bits by done. unfold wr8. rewrite rd_wr.
  pose proof (byte_shift a). pose proof (byte_shift b).
  destruct (n <? 8) eqn:E; zbool; simpl.
  - case_decide as Hw.
    + rewrite wr8_word_bits by lia. case_decide as Hab.
      * subst b. replace ((_ <=? _) && _) with true by lia. f_equal. lia.
      * assert (a mod 8 <> b mod 8) by mlia. replace ((_ <=? _) && _) with false by lia.
        rewrite rd8_bits by done. replace (n <? 8) with true by lia. simpl. unfold rd. by rewrite Hw.
    + rewrite decide_False by congruence. rewrite rd8_bits by done. by replace (n <? 8) with true by lia.
  - case_decide.
    + destruct (decide (v = 0)) as [->|]; [by rewrite Z.bits_0|]. symmetry. apply Z.bits_above_log2; [lia|].
      apply Z.lt_le_trans with 8; [apply Z.log2_lt_pow2; lia|lia].
    + rewrite rd8_bits by done. by replace (n <? 8) with false by lia.
Qed.

Lemma write_bytes_rd8 s a bs b :
  Forall (fun v => 0 <= v < 256) bs ->
  rd8 (write_bytes s a bs) b =
  if decide (a <= b < a + Z.of_nat (length bs)) then nth (Z.to_nat (b - a)) bs 0 else rd8 s b.
Proof.
  revert s a; induction bs as [|v bs IH]; intros s a Hb; cbn [write_bytes length nth].
  - rewrite decide_False by lia. done.
  - inv Hb. rewrite IH by done. destruct (decide (a + 1 <= b < a + 1 + Z.of_nat (length bs))).
    + rewrite decide_True by lia. replace (Z.to_nat (b - a)) with (S (Z.to_nat (b - (a + 1)))) by lia. done.
    + rewrite rd8_wr8 by done. case_decide as Hab.
      * subst. rewrite decide_True by lia. by replace (Z.to_nat (b - b)) with O by lia.
      * rewrite decide_False by lia. done.
Qed.

(** What is read back is what was written. *)
Lemma read_write_bytes s a bs :
  Forall (fun v => 0 <= v < 256) bs -> read_bytes (write_bytes s a bs) a (length bs) = bs.
Proof.
  intros Hb. assert (H : forall k n, (k + n = length bs)%nat ->
    read_bytes (write_bytes s a bs) (a + Z.of_nat k) n = drop k bs).
  { intros k n. revert k; induction n as [|n IH]; intros k Hk; simpl.
    - symmetry. apply drop_ge. lia.
    - rewrite write_bytes_rd8 by done. rewrite decide_True by lia.
      replace (Z.to_nat (a + Z.of_nat k - a)) with k by lia.
      replace (a + Z.of_nat k + 1) with (a + Z.of_nat (S k)) by lia. rewrite IH by lia.
      destruct (lookup_lt_is_Some_2 bs k) as [x Hx]; [lia|]. rewrite (drop_S _ _ _ Hx). f_equal.
      by apply nth_lookup_Some. }
  specialize (H 0%nat (length bs) eq_refl). by rewrite Z.add_0_r in H.
Qed.

Lemma wr8_pm s a v : pm (wr8 s a v) = pm s.
Proof. done. Qed.

Lemma write_bytes_pm s a bs : pm (write_bytes s a bs) = pm s.
Proof. revert s a; induction bs as [|v bs IH]; intros s a; simpl; [done|]. by rewrite IH. Qed.
