(* ===== verification/UserMem.v ===== *)
(** * The memory a user program sees

    The bytes of an address space through its page tables.  While every user
    page has a frame of its own that is neither free nor a table, mapping a
    fresh page and writing to a page change exactly what they should. *)

From Stdlib Require Import ZArith Lia Bool ZifyBool.
From stdpp Require Import base numbers list gmap.
From S2P Require Import Prelude Pmm Vmm Heap Kmem.

Definition frame_of (e : Z) : Z := Z.land e ENTRY_ADDR_MASK.

(** A page that is not mapped reads as zero: it will be provided zeroed. *)
Definition ubyte (s : vmm) (root x : Z) : Z :=
  if (0 <=? x) && (x <? USER_LIMIT) then
    match pte s root x with Some e => rd8 s (frame_of e + x mod 4096) | None => 0 end
  else 0.

Definition user_address (va : Z) : Prop := 0 <= va < USER_LIMIT.

(** A program can read at [x]. *)
Definition umapped (s : vmm) (root x : Z) : Prop :=
  exists e, pte s root x = Some e /\ hasb e VM_USER = true /\ frame_of e + x mod 4096 <> 0.

(** Frame [f] holds data: it is in use and no table of the address space. *)
Definition data_frame (s : vmm) (root f : Z) : Prop :=
  ~ frame_free (pm s) f /\ forall vb d t, (d <= 3)%nat -> tbl s root vb d = Some t -> t <> f.

Record uspace (s : vmm) (root : Z) : Prop := {
  us_wf : aspace_wf s root;
  us_data : forall va e, user_address va -> pte s root va = Some e -> data_frame s root (frame_of e);
  us_inj : forall va vb e e', user_address va -> user_address vb -> pte s root va = Some e -> pte s root vb = Some e' ->
    frame_of e = frame_of e' -> same_page va vb }.

Lemma frame_of_aligned e : frame_of e mod 4096 = 0.
Proof. apply addr_mask_aligned. Qed.

Lemma frame_of_nonneg e : 0 <= frame_of e.
Proof. apply Z.land_nonneg. right. by vm_compute. Qed.

(** The byte at an offset of an aligned frame is in one of its words. *)
Lemma rd8_frame s s' f off :
  f mod 4096 = 0 -> 0 <= off < 4096 -> (forall i, 0 <= i < 512 -> rd s' (f + 8 * i) = rd s (f + 8 * i)) -> rd8 s' (f + off) = rd8 s (f + off).
Proof.
  intros Hf Ho Hr. unfold rd8. assert (E : rd s' (f + off) = rd s (f + off)); [|by rewrite E].
  specialize (Hr (off / 8) ltac:(mlia)). unfold rd in *. replace ((f + off) / 8) with ((f + 8 * (off / 8)) / 8) by mlia. exact Hr.
Qed.

(** ** Steps that keep the tables *)

Lemma same_tables s s' root :
  (forall vb k t, (k <= 3)%nat -> tbl s root vb k = Some t -> forall i, 0 <= i < 512 -> rd s' (t + 8 * i) = rd s (t + 8 * i)) ->
  (forall vb k, (k <= 3)%nat -> tbl s' root vb k = tbl s root vb k) /\ (forall vb, pte s' root vb = pte s root vb).
Proof.
  intros N. assert (T : forall vb k, (k <= 3)%nat -> tbl s' root vb k = tbl s root vb k).
  { intros vb k Hk. induction k as [|k IH]; [done|]. simpl. rewrite IH by lia.
    destruct (tbl s root vb k) as [t|] eqn:E; [|done]. by rewrite (N vb k t ltac:(lia) E _ (ix_range vb k)). }
  split; [done|]. intros vb. unfold pte. change (index1 vb) with (ix vb 3). rewrite T by lia. destruct (tbl s root vb 3) as [t|] eqn:E; [|done].
  by rewrite (N vb 3%nat t ltac:(lia) E _ (ix_range vb 3)).
Qed.

(** Frame [f] is neither a table nor behind a user page. *)
Definition spare (s : vmm) (root f : Z) : Prop :=
  (forall vb d t, (d <= 3)%nat -> tbl s root vb d = Some t -> t <> f) /\ forall va e, user_address va -> pte s root va = Some e -> frame_of e <> f.

(** Words of tables are kept, and only spare frames become free. *)
Record keeps_tables (s s' : vmm) (root : Z) : Prop := {
  kt_pmm : pmm_wf (pm s');
  kt_ram : forall i, in_u64 (ram s').[i];
  kt_free : forall t, frame_free (pm s') t -> frame_free (pm s) t \/ spare s root t;
  kt_rd : forall vb k t, (k <= 3)%nat -> tbl s root vb k = Some t -> forall i, 0 <= i < 512 -> rd s' (t + 8 * i) = rd s (t + 8 * i) }.

Lemma keeps_uspace s s' root : uspace s root -> keeps_tables s s' root -> uspace s' root /\ (forall vb, pte s' root vb = pte s root vb).
Proof.
  intros [[W1 W2 W3 W4] D J] [K1 K2 K3 K4]. destruct (same_tables s s' root K4) as [T P]. split; [|done]. constructor.
  - constructor; [done|done| |].
    + intros va d t Hd. rewrite T by done. intros Ht. destruct (W3 va d t Hd Ht) as (A & B & C). split; [done|]. split; [done|]. intros Hf. apply K3 in Hf as [Hf|[Hf _]]; [done|]. by apply (Hf va d t).
    + intros va vb d d' t Hd Hd'. rewrite !T by done. by apply W4.
  - intros va e Hva. rewrite P. intros Hp. destruct (D va e Hva Hp) as [D1 D2]. split; [intros Hf; apply K3 in Hf as [Hf|[_ Hf]]; [done|by apply (Hf va e)]|]. intros vb d t Hd. rewrite T by done. by apply D2.
  - intros va vb e e' Hva Hvb. rewrite !P. by apply J.
Qed.

(** ** Writing to a page *)

Lemma rd_write_bytes s a bs w :
  (forall x, a <= x < a + Z.of_nat (length bs) -> x / 8 <> w / 8) -> rd (write_bytes s a bs) w = rd s w.
Proof.
  revert s a; induction bs as [|b bs IH]; intros s a Hn; [done|]. cbn [write_bytes]. cbn [length] in Hn. rewrite IH by (intros x Hx; apply Hn; lia).
  unfold wr8. rewrite rd_wr. rewrite decide_False; [done|]. apply Hn. lia.
Qed.

Lemma wr8_ram s a v : 0 <= v < 256 -> (forall i, in_u64 (ram s).[i]) -> forall i, in_u64 (ram (wr8 s a v)).[i].
Proof.
  intros Hv Hr. unfold wr8. apply wr_ram; [|done]. apply in_u64_lor; [apply in_u64_land; apply rd_u64, Hr|].
  pose proof (byte_shift a) as Hs. rewrite Z.shiftl_mul_pow2 by lia. split; [apply Z.mul_nonneg_nonneg; [lia|apply Z.pow_nonneg; lia]|].
  apply Z.lt_le_trans with (256 * 2 ^ (8 * (a mod 8))); [apply Z.mul_lt_mono_pos_r; [apply Z.pow_pos_nonneg; lia|lia]|].
  replace 256 with (2 ^ 8) by done. rewrite <-Z.pow_add_r by lia. change 18446744073709551616 with (2 ^ 64). apply Z.pow_le_mono_r; lia.
Qed.

Lemma write_bytes_ram s a bs : Forall (fun v => 0 <= v < 256) bs -> (forall i, in_u64 (ram s).[i]) -> forall i, in_u64 (ram (write_bytes s a bs)).[i].
Proof. revert s a; induction bs as [|b bs IH]; intros s a Hb Hr; [done|]. inv Hb. cbn [write_bytes]. apply IH; [done|]. by apply wr8_ram. Qed.

Lemma same_page_mod va x : 0 <= va < USER_LIMIT -> 0 <= x < USER_LIMIT -> same_page va x <-> va / 4096 = x / 4096.
Proof.
  intros Hv Hx. unfold USER_LIMIT in *. split.
  - intros Hs. pose proof (Hs 0%nat ltac:(lia)) as H0. pose proof (Hs 1%nat ltac:(lia)) as H1. pose proof (Hs 2%nat ltac:(lia)) as H2. pose proof (Hs 3%nat ltac:(lia)) as H3.
    cbn [ix] in *. unfold index4, index3, index2, index1 in *. change 511 with (Z.ones 9) in *. rewrite !Z.land_ones in * by lia. rewrite !Z.shiftr_div_pow2 in * by lia.
    change (2 ^ 39) with 549755813888 in *. change (2 ^ 30) with 1073741824 in *. change (2 ^ 21) with 2097152 in *. change (2 ^ 12) with 4096 in *. change (2 ^ 9) with 512 in *. mlia.
  - intros E. replace va with (4096 * (va / 4096) + va mod 4096) by mlia. replace x with (4096 * (va / 4096) + x mod 4096) by mlia.
    intros i Hi. rewrite <-(same_page_offset (4096 * (va / 4096)) (va mod 4096)), <-(same_page_offset (4096 * (va / 4096)) (x mod 4096)); try done; mlia.
Qed.

Lemma table_aligned s root vb k t : aspace_wf s root -> (k <= 3)%nat -> tbl s root vb k = Some t -> t mod 4096 = 0.
Proof. intros W Hk Ht. by destruct (aw_tbl _ _ W vb k t Hk Ht) as (_ & ? & _). Qed.

(** Bytes written inside the frame of a user page are seen in that page, and
    nothing else changes. *)
Lemma write_page s root a e bs :
  uspace s root -> user_address a -> pte s root a = Some e -> Forall (fun v => 0 <= v < 256) bs -> a mod 4096 + Z.of_nat (length bs) <= 4096 ->
  let s' := write_bytes s (frame_of e + a mod 4096) bs in
  uspace s' root /\ (forall vb, pte s' root vb = pte s root vb) /\
  forall x, ubyte s' root x = if decide (a <= x < a + Z.of_nat (length bs)) then nth (Z.to_nat (x - a)) bs 0 else ubyte s root x.
Proof.
  intros U Ha He Hb Hl s'. destruct (us_data _ _ U a e Ha He) as [D1 D2]. pose proof (frame_of_aligned e) as Hal. pose proof (us_wf _ _ U) as W.
  destruct (keeps_uspace s s' root U) as [U' P].
  { constructor; [unfold s'; rewrite write_bytes_pm; apply W|apply write_bytes_ram; [done|apply W]|intros t Hff; left; revert Hff; unfold s'; by rewrite write_bytes_pm|].
    intros vb k t Hk Ht i Hi. apply rd_write_bytes. intros x Hx Heq. pose proof (table_aligned _ _ _ _ _ W Hk Ht). apply (D2 vb k t Hk Ht). mlia. }
  split; [done|]. split; [done|]. intros x. unfold ubyte. rewrite P. destruct ((0 <=? x) && (x <? USER_LIMIT)) eqn:Ex.
  2: { rewrite decide_False; [done|]. unfold user_address, USER_LIMIT in *. mlia. }
  assert (Hx : user_address x) by (unfold user_address, USER_LIMIT in *; lia). unfold s'. destruct (decide (a <= x < a + Z.of_nat (length bs))) as [Hin|Hout].
  - assert (Hs : same_page a x) by (apply same_page_mod; [done|done|]; mlia). rewrite <-(pte_page s root a x Hs), He. rewrite write_bytes_rd8 by done.
    rewrite decide_True by mlia. f_equal. f_equal. mlia.
  - destruct (pte s root x) as [e'|] eqn:Ee; [|done]. rewrite write_bytes_rd8 by done. rewrite decide_False; [done|]. intros Hc.
    pose proof (frame_of_aligned e') as Hal'. assert (Hf : frame_of e = frame_of e') by mlia. pose proof (us_inj _ _ U a x e e' Ha Hx He Ee Hf) as Hs.
    apply same_page_mod in Hs; [|done|done]. rewrite Hf in Hc. mlia.
Qed.

(** ** Mapping a page *)

(** Every table of the new state is one of the old state or was free. *)
Record data_kept (s s' : vmm) (root f : Z) : Prop := {
  dk_data : data_frame s' root f;
  dk_rd : forall i, 0 <= i < 512 -> rd s' (f + 8 * i) = rd s (f + 8 * i) }.

Lemma data_kept_trans s1 s2 s3 root f : data_kept s1 s2 root f -> data_kept s2 s3 root f -> data_kept s1 s3 root f.
Proof. intros [A1 A2] [B1 B2]. constructor; [done|]. intros i Hi. by rewrite B2, A2. Qed.

Lemma ensure_table_data s root va d parent flags r s' f :
  aspace_wf s root -> (d <= 2)%nat -> tbl s root va d = Some parent -> ensure_table s parent (ix va d) flags = (r, s') ->
  f mod 4096 = 0 -> data_frame s root f -> data_kept s s' root f.
Proof.
  intros Hwf Hd Hp. unfold ensure_table. set (e := rd s _). destruct (hasb e VM_PAGE_SIZE) eqn:Eps; [intros X; by inv X|]. destruct (hasb e VM_PRESENT) eqn:Epr; [intros X; by inv X|].
  destruct (alloc_frame_cases s (aw_pmm _ _ Hwf)) as [->|(a & p & -> & Hne & Hfr & Hpwf & Hsub & _)]; [intros X; by inv X|].
  destruct (a =? 0) eqn:E0; [zbool; lia|]. intros X Hf [D1 D2]. inv X. pose proof (frame_free_bounds _ _ (aw_pmm _ _ Hwf) Hfr) as Hb. unfold EARLY_RESERVED_END in Hb.
  assert (Ham : a mod 4096 = 0) by apply Hfr. destruct (table_entry_bits a flags Ham ltac:(lia)) as (B1 & B2 & B3).
  destruct (aw_tbl _ _ Hwf va d parent ltac:(lia) Hp) as (_ & Hpal & Hpfr). assert (Hpa : parent <> a) by (by intros ->). set (s' := wr _ _ _).
  assert (Hrd : forall t i, t mod 4096 = 0 -> 0 <= i < 512 -> rd s' (t + 8 * i) = if decide (t = parent /\ i = ix va d) then Z.lor a (table_flags flags) else if decide (t = a) then 0 else rd s (t + 8 * i)).
  { intros t i Ht Hi. unfold s'. rewrite rd_wr_slot by (done || apply ix_range). rewrite zero_page_rd by done. destruct (decide (parent = t /\ ix va d = i)), (decide (t = parent /\ i = ix va d)); try done; lia. }
  assert (W : walk_stops (rd s (parent + 8 * ix va d)) = true) by (unfold walk_stops; fold e; by rewrite Epr).
  assert (R : forall t i, t mod 4096 = 0 -> 0 <= i < 512 -> t <> a -> rd s' (t + 8 * i) = if decide (t = parent /\ i = ix va d) then Z.lor a (table_flags flags) else rd s (t + 8 * i)).
  { intros t i Ht Hi Hta. rewrite Hrd by done. case_decide; [done|]. by case_decide. }
  assert (N : forall i, 0 <= i < 512 -> rd s' (a + 8 * i) = 0) by (intros i Hi; rewrite Hrd by done; case_decide as Hc; [by destruct Hc as [-> _]|]; by case_decide).
  assert (P : forall t, frame_free (pm s') t -> frame_free (pm s) t /\ t <> a) by (intros t; unfold s'; rewrite pm_wr, zero_page_pm; apply Hsub).
  assert (PW : pmm_wf (pm s')) by (unfold s'; by rewrite pm_wr, zero_page_pm). assert (RW : forall i, in_u64 (ram s').[i]) by (apply wr_ram; [done|]; apply zero_page_ram; apply Hwf).
  assert (Hfa : f <> a) by (intros ->; contradiction). assert (Hfp : f <> parent) by (intros ->; by apply (D2 va d parent ltac:(lia) Hp)).
  constructor; [split; [intros Hff; by apply D1, P|]|intros i Hi; rewrite R by done; by rewrite decide_False by tauto].
  intros vb k t Hk Ht. destruct (extend_new s s' root va d parent a _ Hwf Hd Hp W Hfr R N B1 B2 P PW RW vb k t Hk Ht) as [Ho|(-> & _)]; [by apply (D2 vb k)|congruence].
Qed.

Lemma map_page_data s root va pa flags ok s' f :
  aspace_wf s root -> in_u64 pa -> vmm_map_page_root s root va pa flags = (ok, s') -> f mod 4096 = 0 -> data_frame s root f -> data_kept s s' root f.
Proof.
  intros Hwf Hpa. unfold vmm_map_page_root. intros Hm Hf D. assert (K0 : data_kept s s root f) by by constructor. destruct (_ || _); [by inv Hm|]. destruct (hasb flags VM_USER && _); [by inv Hm|].
  destruct (hasb pa _); [by inv Hm|]. destruct (ensure_table s root (index4 va) flags) as [r3 s3] eqn:E3.
  destruct (ensure_table_spec s root va 0 root flags r3 s3 Hwf ltac:(lia) eq_refl E3) as (W3 & _ & _ & T3). pose proof (ensure_table_data s root va 0 root flags r3 s3 f Hwf ltac:(lia) eq_refl E3 Hf D) as K3.
  destruct r3 as [t3|]; [|by inv Hm]. specialize (T3 t3 eq_refl). destruct (ensure_table s3 t3 (index3 va) flags) as [r2 s2] eqn:E2.
  destruct (ensure_table_spec s3 root va 1 t3 flags r2 s2 W3 ltac:(lia) T3 E2) as (W2 & _ & _ & T2). pose proof (ensure_table_data s3 root va 1 t3 flags r2 s2 f W3 ltac:(lia) T3 E2 Hf (dk_data _ _ _ _ K3)) as K2.
  pose proof (data_kept_trans _ _ _ _ _ K3 K2) as K23. destruct r2 as [t2|]; [|by inv Hm]. specialize (T2 t2 eq_refl). destruct (ensure_table s2 t2 (index2 va) flags) as [r1 s1] eqn:E1.
  destruct (ensure_table_spec s2 root va 2 t2 flags r1 s1 W2 ltac:(lia) T2 E1) as (W1 & _ & _ & T1). pose proof (ensure_table_data s2 root va 2 t2 flags r1 s1 f W2 ltac:(lia) T2 E1 Hf (dk_data _ _ _ _ K2)) as K1.
  pose proof (data_kept_trans _ _ _ _ _ K23 K1) as K13. destruct r1 as [t1|]; [|by inv Hm]. specialize (T1 t1 eq_refl). destruct (hasb (rd s1 _) VM_PRESENT); inv Hm; [done|].
  destruct (leaf_flags_bits flags) as [F1 _]. assert (Hu : in_u64 (Z.lor pa (leaf_flags flags))) by auto with npk. eapply data_kept_trans; [exact K13|]. destruct (dk_data _ _ _ _ K13) as [D1 D2]. constructor.
  - split; [done|]. intros vb k t Hk. rewrite (leaf_tbl s1 root va t1) by done. by apply D2.
  - intros i Hi. change (index1 va) with (ix va 3). rewrite rd_wr_slot; [|by apply (table_aligned s1 root va 3)|done|apply ix_range|done]. rewrite decide_False; [done|]. intros [-> _]. by apply (D2 va 3%nat f ltac:(lia) T1).
Qed.

(** ** Providing a zeroed page *)

Lemma free_page_free p a t : 0 <= a -> frame_free (pmm_free_page p a) t -> frame_free p t \/ t / 4096 = a / 4096.
Proof.
  intros Ha [Ht Hf]. destruct (decide (t / 4096 = a / 4096)) as [|Hne]; [by right|left]. split; [done|]. revert Hf. unfold pmm_free_page. destruct (pmm_rejects p a) eqn:Er; [done|].
  cbn [orb]. apply pmm_rejects_false in Er as (_ & Hr & _); [|done]. destruct (_ =? 0); [done|]. cbv zeta. destruct (negb _); [done|].
  match goal with |- context [set_free ?s1 ?q] => change (page_is_free (set_free s1 q) (t / NPK_PAGE_SIZE) = true -> page_is_free s1 (t / NPK_PAGE_SIZE) = true); rewrite (page_is_free_set_free s1 q) end.
  - unfold NPK_PAGE_SIZE. rewrite bool_decide_eq_false_2 by congruence. done.
  - unfold NPK_PAGE_SIZE, MAX_TRACKED_PAGES in *. mlia.
Qed.

Lemma set_pm_uspace s root p :
  uspace s root -> pmm_wf p -> (forall t, frame_free p t -> frame_free (pm s) t \/ spare s root t) -> uspace (set_pm s p) root /\ (forall x, ubyte (set_pm s p) root x = ubyte s root x) /\ forall vb, pte (set_pm s p) root vb = pte s root vb.
Proof.
  intros U Hp Hs. destruct (keeps_uspace s (set_pm s p) root U) as [U' P]; [constructor; try done; apply (us_wf _ _ U)|]. split; [done|]. split; [|done]. intros x. unfold ubyte. by rewrite P.
Qed.

Lemma zero_page_rd8 s a f off : a mod 4096 = 0 -> f mod 4096 = 0 -> 0 <= off < 4096 -> rd8 (zero_page s a) (f + off) = if decide (f = a) then 0 else rd8 s (f + off).
Proof.
  intros Ha Hf Ho. case_decide as E.
  - subst f. unfold rd8. assert (Hz : rd (zero_page s a) (a + off) = 0).
    { pose proof (zero_page_rd s a a (off / 8) Ha Ha ltac:(mlia)) as Z0. rewrite decide_True in Z0 by done. unfold rd in *. replace ((a + off) / 8) with ((a + 8 * (off / 8)) / 8) by mlia. exact Z0. }
    rewrite Hz. by rewrite Z.shiftr_0_l, Z.land_0_l.
  - apply rd8_frame; [done|done|]. intros i Hi. rewrite zero_page_rd by done. by case_decide.
Qed.

Section Fresh.
Context (s : vmm) (root a : Z) (U : uspace s root) (Hfr : frame_free (pm s) a).

Lemma fresh_not_table vb d t : (d <= 3)%nat -> tbl s root vb d = Some t -> t <> a.
Proof using All. intros Hd Ht ->. by destruct (aw_tbl _ _ (us_wf _ _ U) vb d a Hd Ht) as (_ & _ & Hn). Qed.

Lemma fresh_not_data va e : user_address va -> pte s root va = Some e -> frame_of e <> a.
Proof using All. intros Hva He E. destruct (us_data _ _ U va e Hva He) as [Hn _]. by rewrite E in Hn. Qed.

Lemma fresh_bounds : a mod 4096 = 0 /\ in_u64 a /\ 0 < a < 4294967296.
Proof using All. pose proof (frame_free_bounds _ _ (aw_pmm _ _ (us_wf _ _ U)) Hfr) as Hb. unfold EARLY_RESERVED_END in Hb. split; [apply Hfr|]. unfold in_u64. lia. Qed.

Context (page flags : Z) (p : pmm) (Hpage : user_address page) (Hpm : page mod 4096 = 0) (Hwf : pmm_wf p) (Hsub : forall t, frame_free p t -> frame_free (pm s) t /\ t <> a).

Lemma fresh_alloc : uspace (set_pm s p) root /\ data_frame (set_pm s p) root a /\ (forall x, ubyte (set_pm s p) root x = ubyte s root x) /\ forall vb, pte (set_pm s p) root vb = pte s root vb.
Proof using All.
  destruct (set_pm_uspace s root p U Hwf) as (U1 & B1 & P1); [intros t Ht; left; by apply Hsub|]. split; [done|]. split; [|done]. split; [intros Hf; by apply Hsub in Hf as [_ ?]|].
  intros vb d t Hd. destruct (same_tables s (set_pm s p) root) as [T _]; [done|]. rewrite T by done. by apply fresh_not_table.
Qed.

Lemma fresh_map ok s2 :
  vmm_map_page_root (set_pm s p) root page a flags = (ok, s2) ->
  let s3 := if ok then zero_page s2 a else free_frame s2 a in
  uspace s3 root /\ (forall x, ubyte s3 root x = ubyte s root x) /\
  forall vb, pte s3 root vb = if ok && bool_decide (same_page page vb) then Some (Z.lor a (leaf_flags flags)) else pte s root vb.
Proof using All.
  intros Hm. destruct fresh_bounds as (Ha & Hau & Hab). destruct fresh_alloc as (U1 & D1 & B1 & P1).
  destruct (vmm_map_page_root_pte _ _ _ _ _ _ _ (us_wf _ _ U1) Hau Hm) as (W2 & _ & Hok & P2). pose proof (fun f => map_page_data _ _ _ _ _ _ _ f (us_wf _ _ U1) Hau Hm) as M.
  destruct (M a Ha D1) as [D2 _]. set (new := Z.lor a (leaf_flags flags)) in *.
  assert (Hnew : ok = true -> frame_of new = a) by (intros E; destruct (Hok E) as (_ & _ & _ & _ & _ & _ & Hmask); by apply (map_entry_bits a flags Hau Hmask)).
  assert (Hold : forall va e, user_address va -> pte s root va = Some e -> data_kept (set_pm s p) s2 root (frame_of e)) by (intros va e Hva He; apply M; [apply frame_of_aligned|]; apply (us_data _ _ U1 va); [done|by rewrite P1]).
  assert (U2 : uspace s2 root).
  { constructor; [done| |].
    - intros va e Hva. rewrite P2, P1. destruct (ok && bool_decide (same_page page va)) eqn:E; [|intros He; apply (Hold va e Hva He)].
      intros [= <-]. apply andb_true_iff in E as [E _]. by rewrite Hnew.
    - intros va vb e e' Hva Hvb. rewrite !P2, !P1. destruct (ok && bool_decide (same_page page va)) eqn:E, (ok && bool_decide (same_page page vb)) eqn:E'.
      + apply andb_true_iff in E as [_ E%bool_decide_eq_true], E' as [_ E'%bool_decide_eq_true]. intros _ _ _ i Hi. by rewrite <-(E i Hi), <-(E' i Hi).
      + intros [= <-] He'. apply andb_true_iff in E as [E _]. rewrite Hnew by done. intros X. by destruct (fresh_not_data vb e' Hvb He').
      + intros He [= <-]. apply andb_true_iff in E' as [E' _]. rewrite Hnew by done. intros X. by destruct (fresh_not_data va e Hva He).
      + intros He He'. by apply (us_inj _ _ U va vb). }
  assert (Hbyte : forall x e, user_address x -> pte s root x = Some e -> forall off, 0 <= off < 4096 -> rd8 s2 (frame_of e + off) = rd8 s (frame_of e + off)).
  { intros x e Hx He off Ho. destruct (Hold x e Hx He) as [_ R]. apply rd8_frame; [apply frame_of_aligned|done|exact R]. }
  destruct ok; cbv zeta; cbn [andb] in *.
  - destruct (keeps_uspace s2 (zero_page s2 a) root U2) as [U3 P3].
    { constructor; [rewrite zero_page_pm; apply W2|apply zero_page_ram, W2|intros t; rewrite zero_page_pm; by left|].
      intros vb k t Hk Ht i Hi. rewrite zero_page_rd; [|done|by apply (table_aligned s2 root vb k)|done]. rewrite decide_False; [done|]. by apply (proj2 D2 vb k). }
    split; [done|]. split; [|intros vb; by rewrite P3, P2, P1]. intros x. unfold ubyte. rewrite P3, P2, P1. destruct ((0 <=? x) && (x <? USER_LIMIT)) eqn:Ex; [|done].
    assert (Hx : user_address x) by (unfold user_address; lia). case_bool_decide as Hs.
    + rewrite Hnew by done. rewrite zero_page_rd8 by (done || mlia). rewrite decide_True by done. destruct (Hok eq_refl) as (Hn & _). rewrite P1 in Hn. rewrite <-(pte_page s root page x Hs), Hn. done.
    + destruct (pte s root x) as [e|] eqn:Ee; [|done]. rewrite zero_page_rd8; [|done|apply frame_of_aligned|mlia]. rewrite decide_False by (by apply (fresh_not_data x)). apply (Hbyte x); [done|done|mlia].
  - destruct (set_pm_uspace s2 root (pmm_free_page (pm s2) a) U2) as (U3 & B3 & P3); [apply pmm_free_page_wf; [lia|apply W2]| |].
    { intros t Ht. apply free_page_free in Ht as Ht'; [|lia]. destruct Ht' as [|E]; [by left|right]. destruct Ht as [Ht _]. unfold NPK_PAGE_SIZE in Ht. assert (t = a) as -> by mlia.
      split; [apply D2|]. intros va e Hva. rewrite P2, P1. by apply fresh_not_data. }
    split; [done|]. split; [|intros vb; unfold free_frame; by rewrite P3, P2, P1]. intros x. unfold free_frame. rewrite B3. unfold ubyte. rewrite P2, P1. destruct ((0 <=? x) && (x <? USER_LIMIT)) eqn:Ex; [|done].
    destruct (pte s root x) as [e|] eqn:Ee; [|done]. apply (Hbyte x); [unfold user_address; lia|done|mlia].
Qed.

Lemma fresh_map_mapped ok s2 x :
  vmm_map_page_root (set_pm s p) root page a flags = (ok, s2) -> umapped s root x -> umapped (if ok then zero_page s2 a else free_frame s2 a) root x.
Proof using All.
  intros Hm (e & He & Hu). destruct (fresh_map ok s2 Hm) as (_ & _ & P). destruct fresh_alloc as (U1 & _ & _ & P1). destruct fresh_bounds as (_ & Hau & _).
  destruct (vmm_map_page_root_pte _ _ _ _ _ _ _ (us_wf _ _ U1) Hau Hm) as (_ & _ & Hok & _). exists e. rewrite P. destruct (ok && _) eqn:E; [|done]. apply andb_true_iff in E as [E Hs%bool_decide_eq_true].
  destruct (Hok E) as [Hn _]. rewrite P1 in Hn. by rewrite <-(pte_page s root page x Hs), Hn in He.
Qed.
End Fresh.

(** ** Copy on write *)

Lemma rd8_copy s s' f f' off :
  f mod 4096 = 0 -> f' mod 4096 = 0 -> 0 <= off < 4096 -> (forall i, 0 <= i < 512 -> rd s' (f' + 8 * i) = rd s (f + 8 * i)) -> rd8 s' (f' + off) = rd8 s (f + off).
Proof.
  intros Hf Hf' Ho Hr. unfold rd8. replace ((f' + off) mod 8) with ((f + off) mod 8) by mlia. assert (E : rd s' (f' + off) = rd s (f + off)); [|by rewrite E].
  specialize (Hr (off / 8) ltac:(mlia)). unfold rd in *. replace ((f' + off) / 8) with ((f' + 8 * (off / 8)) / 8) by mlia. replace ((f + off) / 8) with ((f + 8 * (off / 8)) / 8) by mlia. exact Hr.
Qed.

(** A leaf of a user page is rewritten to an entry with frame [f]. *)
Lemma leaf_uspace s root va t e' f :
  uspace s root -> user_address va -> tbl s root va 3 = Some t -> in_u64 e' -> hasb e' VM_PRESENT = true -> frame_of e' = f ->
  data_frame s root f -> (forall vb e, user_address vb -> ~ same_page va vb -> pte s root vb = Some e -> frame_of e <> f) ->
  let s' := wr s (t + 8 * index1 va) e' in
  uspace s' root /\ (forall vb, pte s' root vb = if decide (same_page va vb) then Some e' else pte s root vb) /\
  forall g i, g mod 4096 = 0 -> data_frame s root g -> 0 <= i < 512 -> rd s' (g + 8 * i) = rd s (g + 8 * i).
Proof.
  intros U Hva Ht He Hp Hf D Hn s'. pose proof (us_wf _ _ U) as W. assert (P : forall vb, pte s' root vb = if decide (same_page va vb) then Some e' else pte s root vb) by (intros vb; unfold s'; rewrite (leaf_pte s root va t e' W Ht He); by rewrite Hp).
  pose proof (leaf_tbl s root va t e' W Ht He) as T. fold s' in T.
  assert (Dk : forall g, data_frame s root g -> data_frame s' root g) by (intros g [G1 G2]; split; [done|]; intros vb d u Hd; rewrite T by done; by apply G2).
  split; [|split; [done|]].
  - constructor; [by apply leaf_wf| |].
    + intros vb e Hvb. rewrite P. case_decide as Hs; [intros [= <-]; rewrite Hf; by apply Dk|]. intros Hpe. apply Dk. by apply (us_data _ _ U vb).
    + intros vb vc e e2 Hvb Hvc. rewrite !P. case_decide as H1; case_decide as H2.
      * intros _ _ _ i Hi. by rewrite <-(H1 i Hi), <-(H2 i Hi).
      * intros [= <-] Hpe E. rewrite Hf in E. by destruct (Hn vc e2 Hvc H2 Hpe).
      * intros Hpe [= <-] E. rewrite Hf in E. by destruct (Hn vb e Hvb H1 Hpe).
      * by apply (us_inj _ _ U).
  - intros g i Hg [_ G2] Hi. unfold s'. change (index1 va) with (ix va 3). rewrite rd_wr_slot; [|by apply (table_aligned s root va 3)|done|apply ix_range|done].
    rewrite decide_False; [done|]. intros [-> _]. by apply (G2 va 3%nat g ltac:(lia) Ht).
Qed.

Lemma cow_shared_uspace s root va t a p :
  uspace s root -> user_address va -> tbl s root va 3 = Some t ->
  let e := rd s (t + 8 * index1 va) in let old := frame_of e in
  hasb e VM_PRESENT = true -> 1 < pmm_page_refs (pm s) old ->
  frame_free (pm s) a -> pmm_wf p -> (forall u, frame_free p u -> frame_free (pm s) u /\ u <> a) ->
  (forall b, 0 <= b -> b / NPK_PAGE_SIZE <> a / NPK_PAGE_SIZE -> pmm_page_refs p b = pmm_page_refs (pm s) b) ->
  let s1 := copy_page (set_pm s p) a old in
  let s3 := free_frame (wr s1 (t + 8 * index1 va) (cow_entry (retarget (rd s1 (t + 8 * index1 va)) a))) old in
  uspace s3 root /\ (forall x, ubyte s3 root x = ubyte s root x) /\ forall x, umapped s root x -> umapped s3 root x.
Proof.
  intros U Hva Ht e old Hpr Hrefs Hfr Hpwf Hsub Hrb s1 s3. pose proof (us_wf _ _ U) as W. destruct (fresh_bounds s root a U Hfr) as (Ha & Hau & Hab).
  assert (Hpte : pte s root va = Some e) by (rewrite (pte_at _ _ _ _ Ht); fold e; by rewrite Hpr). pose proof (us_data _ _ U va e Hva Hpte) as D. fold old in D.
  assert (Hoa : old <> a) by (intros Eq; rewrite Eq in D; by destruct D). pose proof (frame_of_aligned e) as Hol. fold old in Hol.
  destruct (copy_page_frame (set_pm s p) a old) as (F1 & _ & F3). fold s1 in F1, F3. cbn [pm set_pm] in F1.
  assert (R1 : forall g i, g mod 4096 = 0 -> 0 <= i < 512 -> rd s1 (g + 8 * i) = if decide (g = a) then rd s (old + 8 * i) else rd s (g + 8 * i)) by (intros g i Hg Hi; unfold s1; by rewrite copy_page_rd).
  assert (KT : keeps_tables s s1 root).
  { constructor; [by rewrite F1|apply F3, W|intros u; rewrite F1; intros Hu; left; by apply Hsub|]. intros vb k u Hk Hu i Hi. rewrite R1; [|by apply (table_aligned s root vb k)|done].
    rewrite decide_False; [done|]. by apply (fresh_not_table s root a U Hfr vb k). }
  destruct (keeps_uspace s s1 root U KT) as [U1 P1]. destruct (same_tables s s1 root (kt_rd _ _ _ KT)) as [T1 _].
  assert (Dk : forall g, data_frame s root g -> data_frame s1 root g) by (intros g [G1 G2]; split; [rewrite F1; intros X; by apply G1, Hsub|]; intros vb d u Hd; rewrite T1 by done; by apply G2).
  assert (Da : data_frame s1 root a) by (split; [rewrite F1; intros X; by apply Hsub in X as [_ ?]|]; intros vb d u Hd; rewrite T1 by done; by apply (fresh_not_table s root a U Hfr)).
  assert (Ht1 : tbl s1 root va 3 = Some t) by (rewrite T1 by lia; done).
  assert (Re : rd s1 (t + 8 * index1 va) = e) by (change (index1 va) with (ix va 3); rewrite R1; [|by apply (table_aligned s root va 3)|apply ix_range]; rewrite decide_False; [done|]; by apply (fresh_not_table s root a U Hfr va 3%nat)).
  destruct (retarget_bits e a Ha ltac:(lia) (rd_u64 _ _ (aw_ram _ _ W))) as (B0 & B1 & B2 & Bu). destruct (cow_entry_bits (retarget e a)) as (C0 & C1 & Cu & _).
  destruct (leaf_uspace s1 root va t (cow_entry (retarget e a)) a U1 Hva Ht1 (cow_entry_u64 _ B0)) as (U2 & P2 & R2); [by rewrite C1, B2|unfold frame_of; by rewrite C0|done| |].
  { intros vb e2 Hvb _. rewrite P1. by apply (fresh_not_data s root a U Hfr). }
  assert (Hpd : old / NPK_PAGE_SIZE <> a / NPK_PAGE_SIZE) by (apply (refs_not_free (pm s)); [apply frame_of_nonneg|lia|done]).
  destruct (free_frame_shared p old Hpwf (frame_of_nonneg e)) as (W1 & W2 & _); [rewrite Hrb; [lia|apply frame_of_nonneg|done]|].
  unfold s3. clear s3. rewrite Re. set (s2 := wr s1 _ _) in *. destruct (set_pm_uspace s2 root (pmm_free_page (pm s2) old) U2) as (U3 & B3 & P3); [change (pm s2) with (pm s1); by rewrite F1|intros u; change (pm s2) with (pm s1); rewrite F1; intros Hu; left; by apply W2|].
  assert (Hfa : frame_of (cow_entry (retarget e a)) = a) by (unfold frame_of; by rewrite C0).
  split; [done|]. split.
  2: { intros x (e2 & He2 & Hu2 & Hn2). unfold umapped, free_frame. rewrite P3, P2, P1. case_decide as Hs; [|by exists e2]. rewrite <-(pte_page s root va x Hs), Hpte in He2. injection He2 as <-.
    eexists. split; [done|]. rewrite Hfa, Cu, Bu. split; [done|mlia]. }
  intros x. unfold free_frame. rewrite B3. unfold ubyte. rewrite P2, P1. destruct ((0 <=? x) && (x <? USER_LIMIT)) eqn:Ex; [|done]. assert (Hx : user_address x) by (unfold user_address; lia). case_decide as Hs.
  - rewrite <-(pte_page s root va x Hs), Hpte. rewrite Hfa. apply rd8_copy; [done|done|mlia|].
    intros i Hi. rewrite R2 by done. rewrite R1 by done. by rewrite decide_True.
  - destruct (pte s root x) as [e2|] eqn:Ee; [|done]. apply rd8_frame; [apply frame_of_aligned|mlia|]. intros i Hi. rewrite R2; [|apply frame_of_aligned|apply Dk, (us_data _ _ U x); done|done].
    rewrite R1 by (done || apply frame_of_aligned). rewrite decide_False; [done|]. by apply (fresh_not_data s root a U Hfr x).
Qed.

Lemma cow_uspace s root va ok s' :
  uspace s root -> user_address va -> vmm_resolve_cow_fault s root va = (ok, s') -> uspace s' root /\ (forall x, ubyte s' root x = ubyte s root x) /\ forall x, umapped s root x -> umapped s' root x.
Proof.
  intros U Hva. pose proof (us_wf _ _ U) as W. unfold vmm_resolve_cow_fault. destruct (leaf_entry_ptr s root va) as [a0|] eqn:E; [|intros X; by inv X].
  destruct (negb (hasb _ VM_PRESENT) || _ || _) eqn:G; [intros X; by inv X|]. rewrite !orb_false_iff, !negb_false_iff in G. destruct G as [[Hpr Hus] Hcow].
  apply leaf_entry_ptr_Some in E as (Hr & Hc & t & Ht & ->). set (e := rd s (t + 8 * index1 va)) in *. set (old := Z.land e ENTRY_ADDR_MASK) in *.
  assert (Hpte : pte s root va = Some e) by (rewrite (pte_at _ _ _ _ Ht); fold e; by rewrite Hpr). pose proof (us_data _ _ U va e Hva Hpte) as D. fold (frame_of e) in old. pose proof (rd_u64 s (t + 8 * index1 va) (aw_ram _ _ W)) as Heu. fold e in Heu.
  assert (Hex : forall vb e2, user_address vb -> ~ same_page va vb -> pte s root vb = Some e2 -> frame_of e2 <> old) by (intros vb e2 Hvb Hns Hpe E; by apply Hns, (us_inj _ _ U va vb e e2)).
  destruct (_ =? 0) eqn:E0; [intros X; by inv X|]. destruct (_ =? 1) eqn:E1; zbool.
  - intros X. injection X as _ <-. change (Z.land (Z.lor e VM_WRITE) (not64 VM_COW)) with (cow_entry e). destruct (cow_entry_bits e) as (B0 & B1 & Bu & _).
    destruct (leaf_uspace s root va t (cow_entry e) old U Hva Ht (cow_entry_u64 _ Heu) ltac:(by rewrite B1) B0 D Hex) as (U' & P' & R'). split; [done|]. split.
    2: { intros x (e2 & He2 & Hu2 & Hn2). unfold umapped. rewrite P'. case_decide as Hs; [|by exists e2]. rewrite <-(pte_page s root va x Hs), Hpte in He2. injection He2 as <-.
      eexists. split; [done|]. split; [by rewrite Bu|]. unfold frame_of in *. by rewrite B0. }
    intros x. unfold ubyte. rewrite P'.
    destruct ((0 <=? x) && (x <? USER_LIMIT)) eqn:Ex; [|done]. assert (Hx : user_address x) by (unfold user_address; lia). case_decide as Hs.
    + rewrite <-(pte_page s root va x Hs), Hpte. change (frame_of (cow_entry e)) with (Z.land (cow_entry e) ENTRY_ADDR_MASK). rewrite B0. apply rd8_frame; [apply frame_of_aligned|mlia|]. intros i Hi. apply R'; [apply frame_of_aligned|done|done].
    + destruct (pte s root x) as [e2|] eqn:Ee; [|done]. apply rd8_frame; [apply frame_of_aligned|mlia|]. intros i Hi. apply R'; [apply frame_of_aligned|by apply (us_data _ _ U x)|done].
  - destruct (alloc_frame_cases s (aw_pmm _ _ W)) as [->|(a & p & -> & Hne & Hfr & Hpwf & Hsub & _ & Hrb)]; [intros X; by inv X|]. apply Z.eqb_neq in Hne. rewrite Hne.
    intros X. injection X as _ <-. apply (cow_shared_uspace s root va t a p U Hva Ht Hpr); try done.
    change (1 < pmm_page_refs (pm s) old). pose proof (wf_refs _ (aw_pmm _ _ W) (old / NPK_PAGE_SIZE)). revert E0 E1. unfold pmm_page_refs. destruct (pmm_rejects _ _); lia.
Qed.

(** ** A new address space *)

(** The loop that shares the kernel half. *)
Definition share_kernel (root current : Z) (s : vmm) : vmm :=
  for_range (fun i t => wr t (root + 8 * i) (rd t (current + 8 * i))) KERNEL_PML4_FIRST (Z.to_nat (512 - KERNEL_PML4_FIRST)) s.

Lemma share_kernel_rd s root current g i :
  root mod 4096 = 0 -> current mod 4096 = 0 -> root <> current -> g mod 4096 = 0 -> 0 <= i < 512 ->
  rd (share_kernel root current s) (g + 8 * i) = if decide (g = root /\ 256 <= i) then rd s (current + 8 * i) else rd s (g + 8 * i).
Proof.
  intros Hr Hc Hne Hg Hi. unfold share_kernel.
  pose proof (for_range_inv (fun k u => forall v j, v mod 4096 = 0 -> 0 <= j < 512 ->
     rd u (v + 8 * j) = if decide (v = root /\ 256 <= j < k) then rd s (current + 8 * j) else rd s (v + 8 * j))
     (fun i t => wr t (root + 8 * i) (rd t (current + 8 * i))) (Z.to_nat (512 - KERNEL_PML4_FIRST)) KERNEL_PML4_FIRST s) as L.
  change (KERNEL_PML4_FIRST + Z.of_nat (Z.to_nat (512 - KERNEL_PML4_FIRST))) with 512 in L. change KERNEL_PML4_FIRST with 256 in L at 1 2 3. rewrite L; [|clear L..|done|done].
  - destruct (decide (g = root /\ 256 <= i < 512)), (decide (g = root /\ 256 <= i)); try done; lia.
  - intros v j Hv Hj. by rewrite decide_False by lia.
  - intros k u Hk Hu v j Hv Hj. rewrite rd_wr_slot by (done || lia). rewrite !Hu by (done || lia). rewrite (decide_False (P := current = root /\ _)) by lia.
    destruct (decide (root = v /\ k = j)) as [[-> ->]|Hn]; [by rewrite decide_True by lia|]. destruct (decide (v = root /\ 256 <= j < k)), (decide (v = root /\ 256 <= j < k + 1)); try done; lia.
Qed.

Lemma share_kernel_frame s root current :
  pm (share_kernel root current s) = pm s /\ ((forall i, in_u64 (ram s).[i]) -> forall i, in_u64 (ram (share_kernel root current s)).[i]).
Proof.
  unfold share_kernel. apply (for_range_inv (fun _ u => pm u = pm s /\ ((forall i, in_u64 (ram s).[i]) -> forall i, in_u64 (ram u).[i]))); [done|].
  intros k u _ [Hp Hu]. split; [done|]. intros Hs. apply wr_ram; [apply rd_u64|]; by apply Hu.
Qed.

Lemma user_index va : user_address va -> ix va 0 < 256.
Proof.
  intros [H1 H2]. unfold USER_LIMIT in H2. cbn [ix]. unfold index4. change 511 with (Z.ones 9). rewrite Z.land_ones, Z.shiftr_div_pow2 by lia. mlia.
Qed.

Section Create.
Context (s : vmm) (current root : Z) (p : pmm) (W : aspace_wf s current) (Hfr : frame_free (pm s) root) (Hwf : pmm_wf p).
Context (Hsub : forall t, frame_free p t -> frame_free (pm s) t /\ t <> root).
Notation s' := (share_kernel root current (zero_page (set_pm s p) root)).

Lemma create_current : current mod 4096 = 0 /\ root mod 4096 = 0 /\ root <> current /\ 0 < root.
Proof using All.
  destruct (aw_tbl _ _ W 0 0%nat current ltac:(lia) eq_refl) as (C1 & C2 & C3). split; [done|]. split; [apply Hfr|]. split; [by intros ->|].
  pose proof (frame_free_bounds _ _ (aw_pmm _ _ W) Hfr) as Hb. unfold EARLY_RESERVED_END in Hb. lia.
Qed.

Lemma create_rd g i : g mod 4096 = 0 -> 0 <= i < 512 -> rd s' (g + 8 * i) = if decide (g = root) then (if decide (256 <= i) then rd s (current + 8 * i) else 0) else rd s (g + 8 * i).
Proof using All.
  intros Hg Hi. destruct create_current as (C1 & C2 & C3 & _). rewrite share_kernel_rd by done. rewrite !zero_page_rd by done.
  destruct (decide (g = root)) as [->|Hn]; [|by rewrite decide_False by tauto]. rewrite (decide_False (P := current = root)) by done. case_decide; case_decide; try done; lia.
Qed.

(** The walk below the new root: nothing in the user half, the kernel's tables in the other. *)
Lemma create_tbl va d : (d <= 2)%nat -> tbl s' root va (S d) = if decide (256 <= ix va 0) then tbl s current va (S d) else None.
Proof using All.
  intros Hd. destruct create_current as (C1 & C2 & C3 & _). induction d as [|d IH].
  - cbn [tbl]. rewrite create_rd by (done || apply ix_range). rewrite decide_True by done. case_decide; done.
  - change (tbl s' root va (S (S d))) with (match tbl s' root va (S d) with None => None | Some t => let e := rd s' (t + 8 * ix va (S d)) in if walk_stops e then None else Some (table_from_entry e) end).
    rewrite IH by lia. case_decide; [|done]. change (tbl s current va (S (S d))) with (match tbl s current va (S d) with None => None | Some t => let e := rd s (t + 8 * ix va (S d)) in if walk_stops e then None else Some (table_from_entry e) end).
    destruct (tbl s current va (S d)) as [t|] eqn:Et; [|done]. destruct (aw_tbl _ _ W va (S d) t ltac:(lia) Et) as (T1 & T2 & T3). rewrite create_rd by (done || apply ix_range).
    rewrite decide_False; [done|]. by intros ->.
Qed.

Lemma create_wf : aspace_wf s' root.
Proof using All.
  destruct create_current as (C1 & C2 & C3 & C4). destruct (share_kernel_frame (zero_page (set_pm s p) root) root current) as [F1 F2]. rewrite zero_page_pm in F1.
  constructor; [by rewrite F1|apply F2, zero_page_ram, W| |].
  - intros va d t Hd. rewrite F1. cbn [pm set_pm]. destruct d as [|d]; [intros [= <-]; split; [done|]; split; [done|]; intros X; by apply Hsub in X as [_ ?]|].
    rewrite create_tbl by lia. case_decide; [|done]. intros Ht. destruct (aw_tbl _ _ W va (S d) t Hd Ht) as (T1 & T2 & T3). split; [done|]. split; [done|]. intros X. by apply T3, Hsub.
  - assert (Hroot : forall va d, (S d <= 3)%nat -> tbl s' root va (S d) <> Some root) by (intros va d Hd; rewrite create_tbl by lia; case_decide; [|done]; intros Ht; by destruct (aw_tbl _ _ W va (S d) root Hd Ht) as (_ & _ & ?)).
    intros va vb [|d] [|d'] t Hd Hd'.
    + intros _ _. split; [done|]. intros i Hi. lia.
    + intros [= <-] Ht. by apply Hroot in Ht.
    + intros Ht [= <-]. by apply Hroot in Ht.
    + rewrite !create_tbl by lia. case_decide; [|done]. case_decide; [|done]. by apply (aw_inj _ _ W).
Qed.

Lemma create_pte va : pte s' root va = if decide (256 <= ix va 0) then pte s current va else None.
Proof using All.
  unfold pte. rewrite create_tbl by lia. case_decide; [|done]. destruct (tbl s current va 3) as [t|] eqn:Et; [|done]. destruct (aw_tbl _ _ W va 3%nat t ltac:(lia) Et) as (T1 & T2 & T3).
  change (index1 va) with (ix va 3). rewrite create_rd by (done || apply ix_range). by rewrite decide_False by (intros ->; done).
Qed.
End Create.

Lemma create_unfold s :
  vmm_create_address_space s = let '(root, t) := alloc_frame s in if root =? 0 then (0, t) else (root, share_kernel root (read_cr3 s) (zero_page t root)).
Proof. unfold vmm_create_address_space, share_kernel. done. Qed.

Lemma create_fresh s root p s' :
  aspace_wf s (read_cr3 s) -> frame_free (pm s) root -> pmm_wf p -> (forall t, frame_free p t -> frame_free (pm s) t /\ t <> root) ->
  s' = share_kernel root (read_cr3 s) (zero_page (set_pm s p) root) ->
  uspace s' root /\ root <> read_cr3 s /\ (forall x, user_address x -> pte s' root x = None /\ ubyte s' root x = 0) /\
  (forall va, KERNEL_PML4_FIRST <= index4 va -> pte s' root va = pte s (read_cr3 s) va).
Proof.
  intros W Hfr Hpwf Hsub Es. destruct (create_current s (read_cr3 s) root p W Hfr Hpwf Hsub) as (_ & _ & C3 & _). pose proof (create_pte s (read_cr3 s) root p W Hfr Hpwf Hsub) as P.
  pose proof (create_wf s (read_cr3 s) root p W Hfr Hpwf Hsub) as W'. rewrite <-Es in P, W'. clear Es.
  assert (N : forall x, user_address x -> pte s' root x = None) by (intros x Hx; rewrite P, decide_False; [done|]; pose proof (user_index x Hx); lia).
  split; [constructor; [done|intros va e Hva He; by rewrite N in He|intros va vb e e' Hva _ He; by rewrite N in He]|]. split; [done|]. split.
  - intros x Hx. split; [by apply N|]. unfold ubyte. rewrite N by done. by destruct (_ && _).
  - intros va Hva. rewrite P, decide_True; [done|]. exact Hva.
Qed.

(** C8: A new address space maps no user page, and in the kernel half exactly what
    the current one maps. *)
Theorem vmm_create_address_space_spec s root s' :
  aspace_wf s (read_cr3 s) -> vmm_create_address_space s = (root, s') -> root <> 0 ->
  uspace s' root /\ root <> read_cr3 s /\ (forall x, user_address x -> pte s' root x = None /\ ubyte s' root x = 0) /\
  (forall va, KERNEL_PML4_FIRST <= index4 va -> pte s' root va = pte s (read_cr3 s) va).
Proof.
  intros W. rewrite create_unfold. destruct (alloc_frame_cases s (aw_pmm _ _ W)) as [->|(a & p & -> & Hne & Hfr & Hpwf & Hsub & _)].
  - intros X Hn. by destruct Hn; injection X as <- _.
  - rewrite (proj2 (Z.eqb_neq a 0) Hne). generalize (create_fresh s a p (share_kernel a (read_cr3 s) (zero_page (set_pm s p) a)) W Hfr Hpwf Hsub eq_refl).
    generalize (share_kernel a (read_cr3 s) (zero_page (set_pm s p) a)). intros t L X _. by injection X as <- <-.
Qed.
