(* ===== verification/Elf.v ===== *)
(** * ELF loader (src/src/exec/elf.c)

    An image is a list of bytes, read little-endian; a read outside of it is
    [None], so that a theorem about [Some] results also says that the code does
    not read past the end of the image.  The loader works on the kernel heap
    over the page tables. *)

From Stdlib Require Import ZArith Lia Bool ZifyBool.
From stdpp Require Import base numbers list gmap option.
From S2P Require Import Prelude Pmm Vmm Heap Kmem.

Definition NPK_MAX_PHNUM : Z := 64.
Definition NPK_MAX_ELF_PAGES : Z := 65536.
Definition ELF_EINVAL : Z := -22.
Definition ELF_EFAULT : Z := -14.
Definition ELF_ENOMEM : Z := -12.
Definition ELF_ENOEXEC : Z := -8.
Definition ELF_DYNAMIC_ENTRY_SIZE : Z := 16.
Definition ELFCLASS64 : Z := 2.
Definition ELFDATA2LSB : Z := 1.
Definition ET_EXEC : Z := 2.
Definition ET_DYN : Z := 3.
Definition EM_X86_64 : Z := 62.
Definition EV_CURRENT : Z := 1.
Definition PT_LOAD : Z := 1.
Definition PT_DYNAMIC : Z := 2.
Definition PT_INTERP : Z := 3.
Definition PT_PHDR : Z := 6.
Definition PF_X : Z := 1.
Definition PF_W : Z := 2.
Definition PF_R : Z := 4.
Definition NPK_USER_MIN : Z := 0x10000.
Definition NPK_USER_MAX : Z := 0x0000800000000000.
Definition NPK_USER_DYN_BASE : Z := 0x0000004000000000.
Definition NPK_ELF_INTERP_MAX : Z := 256.
(** sizeof(elf64_header_t), sizeof(elf64_program_header_t) *)
Definition EHDR : Z := 64.
Definition PHDR : Z := 56.

Definition image := list Z.
Definition image_size (img : image) : Z := Z.of_nat (length img).

Definition byte_at (img : image) (i : Z) : option Z := if 0 <=? i then img !! Z.to_nat i else None.

(** [n] bytes at [i], little-endian. *)
Fixpoint le_at (img : image) (i : Z) (n : nat) : option Z :=
  match n with
  | O => Some 0
  | S n' => b ← byte_at img i; r ← le_at img (i + 1) n'; Some (b + 256 * r)
  end.

Record elf64_header := Ehdr {
  e_type : Z; e_machine : Z; e_version : Z; e_entry : Z; e_phoff : Z;
  e_ehsize : Z; e_phentsize : Z; e_phnum : Z }.

Record elf64_program_header := Phdr {
  p_type : Z; p_flags : Z; p_offset : Z; p_vaddr : Z; p_filesz : Z; p_memsz : Z; p_align : Z }.

Definition read_header (img : image) : option elf64_header :=
  t ← le_at img 16 2; m ← le_at img 18 2; v ← le_at img 20 4; e ← le_at img 24 8; po ← le_at img 32 8;
  eh ← le_at img 52 2; pe ← le_at img 54 2; pn ← le_at img 56 2;
  Some (Ehdr t m v e po eh pe pn).

(** [programs[i]] of the table at [phoff]. *)
Definition read_program (img : image) (phoff i : Z) : option elf64_program_header :=
  let a := phoff + PHDR * i in
  t ← le_at img a 4; f ← le_at img (a + 4) 4; o ← le_at img (a + 8) 8; v ← le_at img (a + 16) 8;
  fs ← le_at img (a + 32) 8; ms ← le_at img (a + 40) 8; al ← le_at img (a + 48) 8;
  Some (Phdr t f o v fs ms al).

Definition add_overflows (a b : Z) : bool := b >? UINT64_MAX - a.
Definition mul_overflows (a b : Z) : bool := negb (a =? 0) && (b >? UINT64_MAX / a).
Definition is_power_of_two (value : Z) : bool := negb (value =? 0) && (Z.land value (value - 1) =? 0).
Definition align_down (value : Z) : Z := Z.land value (not64 (NPK_PAGE_SIZE - 1)).
Definition align_up (value : Z) : option Z :=
  if value >? UINT64_MAX - (NPK_PAGE_SIZE - 1) then None
  else Some (Z.land (value + NPK_PAGE_SIZE - 1) (not64 (NPK_PAGE_SIZE - 1))).

Definition user_span (start length bias : Z) : option Z :=
  if add_overflows start bias then None
  else
    let absolute := start + bias in
    if (absolute <? NPK_USER_MIN) || (absolute >=? NPK_USER_MAX) || (length =? 0) || add_overflows absolute length then None
    else
      let end_ := absolute + length in
      if (end_ >? NPK_USER_MAX) || (end_ <=? absolute) then None else Some end_.

(** The byte range and the page range of a loadable segment. *)
Record seg_range := SegRange { sr_start : Z; sr_end : Z; sr_page_start : Z; sr_page_end : Z }.

Definition segment_range_valid (ph : elf64_program_header) (size bias : Z) : option seg_range :=
  if (p_filesz ph >? p_memsz ph) || (p_memsz ph =? 0) then None
  else if (p_offset ph >? size) || (p_filesz ph >? size - p_offset ph) then None
  else if (p_align ph >? 1) &&
          (negb (is_power_of_two (p_align ph)) ||
           negb (p_vaddr ph mod p_align ph =? p_offset ph mod p_align ph)) then None
  else if hasb (p_flags ph) PF_W && hasb (p_flags ph) PF_X then None
  else
    match user_span (p_vaddr ph) (p_memsz ph) bias with
    | None => None
    | Some end_ =>
        let start := p_vaddr ph + bias in
        if start <? NPK_USER_MIN then None
        else
          let page_start := align_down start in
          match align_up end_ with
          | None => None
          | Some page_end =>
              if (page_end <=? NPK_USER_MAX) && (page_end >? page_start)
              then Some (SegRange start end_ page_start page_end) else None
          end
    end.

Definition load_segments_overlap (img : image) (phoff index bias current_start current_end : Z) : option bool :=
  r ← forM (fun j (_ : unit) =>
        ph ← read_program img phoff j;
        Some (if negb (p_type ph =? PT_LOAD) then inl tt
              else match segment_range_valid ph (image_size img) bias with
                   | None => inr true
                   | Some r => if (current_start <? sr_page_end r) && (sr_start r <? current_end) then inr true else inl tt
                   end)) 0 (Z.to_nat index) tt;
  Some (match r with inl _ => false | inr b => b end).

Definition dynamic_table_valid (img : image) (ph : elf64_program_header) : option bool :=
  if (p_filesz ph =? 0) || (p_filesz ph >? p_memsz ph) || negb (p_filesz ph mod ELF_DYNAMIC_ENTRY_SIZE =? 0) ||
     (p_offset ph >? image_size img) || (p_filesz ph >? image_size img - p_offset ph) then Some false
  else
    r ← forM (fun i (_ : unit) =>
          tag ← le_at img (p_offset ph + ELF_DYNAMIC_ENTRY_SIZE * i) 8;
          Some (if i64 tag =? 0 then inr true else if i64 tag <? 0 then inr false else inl tt))
          0 (Z.to_nat (p_filesz ph / ELF_DYNAMIC_ENTRY_SIZE)) tt;
    Some (match r with inl _ => false | inr b => b end).

(** The component length is a size_t difference, so it wraps. *)
Definition interpreter_field_valid (img : image) (ph : elf64_program_header) : option bool :=
  if (p_filesz ph =? 0) || (p_filesz ph >? p_memsz ph) || (p_filesz ph >? NPK_ELF_INTERP_MAX) ||
     (p_offset ph >? image_size img) || (p_filesz ph >? image_size img - p_offset ph) then Some false
  else
    let value i := byte_at img (p_offset ph + i) in
    z ← value (p_filesz ph - 1); f ← value 0;
    if negb (z =? 0) || negb (f =? 47) then Some false
    else
      r ← forM (fun i component_start =>
            c ← value i;
            if (c =? 0) || (c <? 32) || (c =? 127) then Some (inr false)
            else if negb (c =? 47) && negb (i + 1 =? p_filesz ph - 1) then Some (inl component_start)
            else
              let component_length := u64 (i - component_start) in
              if component_length =? 2 then
                a ← value component_start; b ← value (component_start + 1);
                Some (if (a =? 46) && (b =? 46) then inr false else inl (i + 1))
              else Some (inl (i + 1))) 0 (Z.to_nat (p_filesz ph - 1)) 1;
      Some (match r with inl _ => true | inr b => b end).

(** The parsed header, or [None] inside when the checks reject it. *)
Definition header_valid (img : image) : option (option elf64_header) :=
  if image_size img <? EHDR then Some None
  else
    i0 ← byte_at img 0; i1 ← byte_at img 1; i2 ← byte_at img 2; i3 ← byte_at img 3;
    i4 ← byte_at img 4; i5 ← byte_at img 5; i6 ← byte_at img 6; h ← read_header img;
    Some (
      if negb (i0 =? 127) || negb (i1 =? 69) || negb (i2 =? 76) || negb (i3 =? 70) then None
      else if negb (i4 =? ELFCLASS64) || negb (i5 =? ELFDATA2LSB) || negb (i6 =? EV_CURRENT) then None
      else if negb (e_type h =? ET_EXEC) && negb (e_type h =? ET_DYN) then None
      else if negb (e_machine h =? EM_X86_64) || negb (e_version h =? EV_CURRENT) then None
      else if negb (e_ehsize h =? EHDR) || negb (e_phentsize h =? PHDR) || (e_phnum h =? 0) || (e_phnum h >? NPK_MAX_PHNUM) then None
      else if mul_overflows (e_phnum h) (e_phentsize h) || add_overflows (e_phoff h) (e_phnum h * e_phentsize h) ||
              (e_phoff h >? image_size img) || (e_phnum h * e_phentsize h >? image_size img - e_phoff h) then None
      else Some h).

(** The variables of the validation loop. *)
Record vstate := VState { vs_page_count : Z; vs_loaded : Z; vs_entry_valid : bool; vs_interp : bool; vs_dynamic : bool }.

(** One program header; [inr tt] is [return false]. *)
Definition validate_program (img : image) (phoff bias absolute_entry i : Z) (v : vstate) : option (vstate + unit) :=
  ph ← read_program img phoff i;
  if p_type ph =? PT_INTERP then
    ok ← interpreter_field_valid img ph;
    Some (if vs_interp v || negb ok then inr tt
          else inl (VState (vs_page_count v) (vs_loaded v) (vs_entry_valid v) true (vs_dynamic v)))
  else if p_type ph =? PT_DYNAMIC then
    ok ← dynamic_table_valid img ph;
    Some (if vs_dynamic v || negb ok then inr tt
          else inl (VState (vs_page_count v) (vs_loaded v) (vs_entry_valid v) (vs_interp v) true))
  else if negb (p_type ph =? PT_LOAD) then Some (inl v)
  else
    match segment_range_valid ph (image_size img) bias with
    | None => Some (inr tt)
    | Some r =>
        ov ← load_segments_overlap img phoff i bias (sr_page_start r) (sr_page_end r);
        let span := sr_page_end r - sr_page_start r in
        Some (if (ov : bool) then inr tt
              else if span >? NPK_MAX_ELF_PAGES * NPK_PAGE_SIZE - vs_page_count v * NPK_PAGE_SIZE then inr tt
              else inl (VState (vs_page_count v + span / NPK_PAGE_SIZE) (vs_loaded v + 1)
                          (vs_entry_valid v ||
                           ((absolute_entry >=? sr_start r) && (absolute_entry <? sr_end r) && hasb (p_flags ph) PF_X))
                          (vs_interp v) (vs_dynamic v)))
    end.

Definition elf64_validate_at_bias (img : image) (bias : Z) : option bool :=
  hv ← header_valid img;
  match hv with
  | None => Some false
  | Some h =>
      if negb (Z.land bias (NPK_PAGE_SIZE - 1) =? 0) then Some false
      else if (e_type h =? ET_EXEC) && negb (bias =? 0) then Some false
      else if (e_type h =? ET_DYN) && (bias <? NPK_USER_DYN_BASE) then Some false
      else if add_overflows (e_entry h) bias then Some false
      else
        r ← forM (validate_program img (e_phoff h) bias (e_entry h + bias)) 0 (Z.to_nat (e_phnum h))
              (VState 0 0 false false false);
        Some (match r with
              | inr _ => false
              | inl v => negb ((vs_loaded v =? 0) || (vs_page_count v =? 0) ||
                               (vs_page_count v >? NPK_MAX_ELF_PAGES) || negb (vs_entry_valid v))
              end)
  end.

Definition elf64_validate (img : image) : option bool :=
  hv ← header_valid img;
  match hv with
  | None => Some false
  | Some h => elf64_validate_at_bias img (if e_type h =? ET_DYN then NPK_USER_DYN_BASE else 0)
  end.

(** The bytes at [i], [i + n). *)
Fixpoint bytes_at (img : image) (i : Z) (n : nat) : option (list Z) :=
  match n with
  | O => Some []
  | S n' => b ← byte_at img i; r ← bytes_at img (i + 1) n'; Some (b :: r)
  end.

(** The result code and the string written to [path] (its first byte when there is no interpreter). *)
Definition elf64_get_interpreter (img : image) (path_capacity : Z) : option (Z * list Z) :=
  hv ← header_valid img;
  match hv with
  | None => Some (ELF_ENOEXEC, [])
  | Some h =>
      if path_capacity <? 2 then Some (ELF_ENOEXEC, [])
      else
        r ← forM (fun i (_ : unit) =>
              ph ← read_program img (e_phoff h) i;
              if negb (p_type ph =? PT_INTERP) then Some (inl tt)
              else
                ok ← interpreter_field_valid img ph;
                if negb ok || (p_filesz ph >=? path_capacity) then Some (inr (ELF_ENOEXEC, []))
                else bs ← bytes_at img (p_offset ph) (Z.to_nat (p_filesz ph)); Some (inr (p_filesz ph - 1, bs)))
              0 (Z.to_nat (e_phnum h)) tt;
        Some (match r with inl _ => (0, [0]) | inr x => x end)
  end.

Definition locate_program_header (img : image) (h : elf64_header) (bias : Z) : option Z :=
  let table_size := e_phnum h * e_phentsize h in
  r ← forM (fun i (_ : unit) =>
        ph ← read_program img (e_phoff h) i;
        Some (if (p_type ph =? PT_PHDR) && (p_vaddr ph <=? UINT64_MAX - bias) then inr (p_vaddr ph + bias) else inl tt))
        0 (Z.to_nat (e_phnum h)) tt;
  match r with
  | inr x => Some x
  | inl _ =>
      r ← forM (fun i (_ : unit) =>
            ph ← read_program img (e_phoff h) i;
            let delta := u64 (e_phoff h - p_offset ph) in
            Some (if negb (p_type ph =? PT_LOAD) || (e_phoff h <? p_offset ph) || (table_size >? p_filesz ph) ||
                     (delta >? p_filesz ph - table_size) || (p_vaddr ph >? UINT64_MAX - delta) ||
                     (u64 (p_vaddr ph + delta) >? UINT64_MAX - bias) then inl tt
                  else inr (p_vaddr ph + delta + bias)))
            0 (Z.to_nat (e_phnum h)) tt;
      Some (match r with inl _ => 0 | inr x => x end)
  end.

(** ** Loading *)

Record elf_load_result := LoadResult {
  lr_entry : Z; lr_image_base : Z; lr_image_end : Z; lr_load_bias : Z; lr_stack_top : Z;
  lr_address_space_root : Z; lr_loaded_segments : Z; lr_program_header : Z;
  lr_program_header_count : Z; lr_program_header_size : Z; lr_has_interp : bool; lr_interpreter : list Z }.

(** The variables of the first pass over the segments. *)
Record pstate := PState { ps_low : Z; ps_high : Z; ps_count : Z; ps_loaded : Z; ps_entry : bool }.

Definition measure_program (img : image) (h : elf64_header) (bias i : Z) (v : pstate) : option (pstate + unit) :=
  ph ← read_program img (e_phoff h) i;
  if negb (p_type ph =? PT_LOAD) then Some (inl v)
  else
    match segment_range_valid ph (image_size img) bias with
    | None => Some (inr tt)
    | Some r =>
        let entry := e_entry h + bias in
        Some (inl (PState (if sr_start r <? ps_low v then sr_start r else ps_low v)
                          (if sr_end r >? ps_high v then sr_end r else ps_high v)
                          (ps_count v + (sr_page_end r - sr_page_start r) / NPK_PAGE_SIZE)
                          (ps_loaded v + 1)
                          (ps_entry v || ((entry >=? sr_start r) && (entry <? sr_end r) && hasb (p_flags ph) PF_X))))
    end.

(** The kernel state and the records of the pages mapped so far, newest first. *)
Record lstate := LState { ls_k : kmem; ls_records : list (Z * Z) }.

Definition segment_flags (ph : elf64_program_header) : Z :=
  let flags := VM_USER in
  let flags := if hasb (p_flags ph) PF_W then Z.lor flags VM_WRITE else flags in
  if negb (hasb (p_flags ph) PF_X) then Z.lor flags VM_NX else flags.

(** One page of a segment; [inr error] leaves both loops. *)
Definition load_page (img : image) (root page_count bias : Z) (ph : elf64_program_header) (r : seg_range) (k : Z) (l : lstate)
    : option (lstate + (Z * lstate)) :=
  let va := sr_page_start r + k * NPK_PAGE_SIZE in
  let '(physical, s) := k_alloc_page (ls_k l) in
  if (physical =? 0) || (Z.of_nat (length (ls_records l)) >=? page_count) then
    let s := if negb (physical =? 0) then k_free_page s physical else s in
    Some (inr (ELF_ENOMEM, LState s (ls_records l)))
  else
    let '(ok, s) := k_map_page_root s root va physical (segment_flags ph) in
    if negb ok then Some (inr (ELF_ENOMEM, LState (k_free_page s physical) (ls_records l)))
    else
      let s := k_zero_page s physical in
      let file_start := p_vaddr ph + bias in
      let file_end := file_start + p_filesz ph in
      let copy_start := if sr_start r >? va then sr_start r else va in
      let copy_end := if file_end <? va + NPK_PAGE_SIZE then file_end else va + NPK_PAGE_SIZE in
      if copy_end >? copy_start then
        let source_delta := copy_start - file_start in
        if (source_delta >? p_filesz ph) || (copy_end - copy_start >? p_filesz ph - source_delta) then
          Some (inr (ELF_EFAULT, LState s (ls_records l)))
        else
          bs ← bytes_at img (p_offset ph + source_delta) (Z.to_nat (copy_end - copy_start));
          Some (inl (LState (k_write_bytes s (physical + (copy_start - va)) bs) ((va, physical) :: ls_records l)))
      else Some (inl (LState s ((va, physical) :: ls_records l))).

Definition load_program (img : image) (h : elf64_header) (root page_count bias i : Z) (l : lstate)
    : option (lstate + (Z * lstate)) :=
  ph ← read_program img (e_phoff h) i;
  if negb (p_type ph =? PT_LOAD) then Some (inl l)
  else
    match segment_range_valid ph (image_size img) bias with
    | None => Some (inr (ELF_ENOEXEC, l))
    | Some r =>
        forM (load_page img root page_count bias ph r) 0
          (Z.to_nat ((sr_page_end r - sr_page_start r) / NPK_PAGE_SIZE)) l
    end.

(** Undo the recorded pages, newest first. *)
Fixpoint unload (root : Z) (records : list (Z * Z)) (s : kmem) : kmem :=
  match records with
  | [] => s
  | (va, _) :: records' =>
      let '(physical, s) := k_unmap_page_root s root va in
      unload root records' (if negb (physical =? 0) then k_free_page s physical else s)
  end.

(** sizeof(elf_page_record_t) *)
Definition RECORD_SIZE : Z := 16.

Definition elf64_load_in_address_space (img : image) (root load_bias : Z) (s : kmem)
    : option ((Z + elf_load_result) * kmem) :=
  hv ← header_valid img;
  match hv with
  | None => Some (inl ELF_EINVAL, s)
  | Some h =>
      if root =? 0 then Some (inl ELF_EINVAL, s)
      else if negb (Z.land load_bias (NPK_PAGE_SIZE - 1) =? 0) then Some (inl ELF_EINVAL, s)
      else if (e_type h =? ET_EXEC) && negb (load_bias =? 0) then Some (inl ELF_EINVAL, s)
      else if (e_type h =? ET_DYN) && (load_bias <? NPK_USER_DYN_BASE) then Some (inl ELF_EINVAL, s)
      else
        valid ← elf64_validate_at_bias img load_bias;
        if negb valid then Some (inl ELF_ENOEXEC, s)
        else
          m ← forM (measure_program img h load_bias) 0 (Z.to_nat (e_phnum h)) (PState UINT64_MAX 0 0 0 false);
          match m with
          | inr _ => Some (inl ELF_ENOEXEC, s)
          | inl v =>
              if negb (ps_entry v) || (ps_count v =? 0) || (ps_count v >? NPK_MAX_ELF_PAGES) then Some (inl ELF_ENOEXEC, s)
              else
                let '(records, s) := kcalloc s (ps_count v) RECORD_SIZE in
                if records =? 0 then Some (inl ELF_ENOMEM, s)
                else
                  r ← forM (load_program img h root (ps_count v) load_bias) 0 (Z.to_nat (e_phnum h)) (LState s []);
                  match r with
                  | inl l =>
                      phdr ← locate_program_header img h load_bias;
                      interp ← elf64_get_interpreter img NPK_ELF_INTERP_MAX;
                      let path := interp.2 in
                      let s := kfree (ls_k l) records in
                      Some (inr (LoadResult (e_entry h + load_bias) (ps_low v) (ps_high v) load_bias 0 root (ps_loaded v)
                                   phdr (e_phnum h) (e_phentsize h) (negb (default 0 (head path) =? 0)) path), s)
                  | inr (error, l) => Some (inl error, kfree (unload root (ls_records l) (ls_k l)) records)
                  end
          end
  end.

Definition elf64_load (img : image) (s : kmem) : option ((Z + elf_load_result) * kmem) :=
  hv ← header_valid img;
  match hv with
  | None => Some (inl ELF_EINVAL, s)
  | Some h => elf64_load_in_address_space img (vmm_current_root (pages s)) (if e_type h =? ET_DYN then NPK_USER_DYN_BASE else 0) s
  end.

(** ** Reads stay inside the image *)

(** The image consists of bytes. *)
Definition bytes_ok (img : image) : Prop := Forall (fun b => 0 <= b < 256) img.

Lemma byte_at_Some img i : bytes_ok img -> 0 <= i < image_size img -> exists b, byte_at img i = Some b /\ 0 <= b < 256.
Proof.
  intros Hb [H0 Hi]. unfold byte_at, image_size in *. replace (0 <=? i) with true by lia.
  destruct (lookup_lt_is_Some_2 img (Z.to_nat i)) as [b E]; [lia|]. exists b. split; [done|].
  exact (Forall_lookup_1 _ _ _ _ Hb E).
Qed.

Lemma le_at_Some img n i :
  bytes_ok img -> 0 <= i -> i + Z.of_nat n <= image_size img ->
  exists v, le_at img i n = Some v /\ 0 <= v < 256 ^ Z.of_nat n.
Proof.
  intros Hb. revert i; induction n as [|n IH]; intros i H0 Hi; simpl le_at.
  - exists 0. split; [done|]. change (256 ^ Z.of_nat 0) with 1. lia.
  - destruct (byte_at_Some img i Hb ltac:(lia)) as (b & -> & Hv). destruct (IH (i + 1)) as (v & -> & Hr); [lia|lia|].
    simpl. exists (b + 256 * v). split; [done|]. rewrite Nat2Z.inj_succ, Z.pow_succ_r by lia. lia.
Qed.

Lemma bytes_at_Some img n i :
  bytes_ok img -> 0 <= i -> i + Z.of_nat n <= image_size img ->
  exists bs, bytes_at img i n = Some bs /\ length bs = n /\ bytes_ok bs.
Proof.
  intros Hb. revert i; induction n as [|n IH]; intros i H0 Hi; simpl.
  - exists []. split; [done|]. split; [done|]. constructor.
  - destruct (byte_at_Some img i Hb ltac:(lia)) as (b & -> & Hv). destruct (IH (i + 1)) as (bs & -> & Hl & Hr); [lia|lia|].
    simpl. exists (b :: bs). split; [done|]. split; [by simpl; f_equal|]. by constructor.
Qed.

Definition program_ok (ph : elf64_program_header) : Prop :=
  in_u64 (p_offset ph) /\ in_u64 (p_vaddr ph) /\ in_u64 (p_filesz ph) /\ in_u64 (p_memsz ph) /\ in_u64 (p_align ph).

Lemma read_program_Some img phoff i :
  bytes_ok img -> 0 <= phoff -> 0 <= i -> phoff + PHDR * (i + 1) <= image_size img ->
  exists ph, read_program img phoff i = Some ph /\ program_ok ph.
Proof.
  intros Hb H0 Hi Hs. unfold read_program, PHDR in *. set (a := phoff + 56 * i).
  destruct (le_at_Some img 4 a Hb) as (v0 & -> & _); [lia..|]. destruct (le_at_Some img 4 (a + 4) Hb) as (v1 & -> & _); [lia..|].
  destruct (le_at_Some img 8 (a + 8) Hb) as (v2 & -> & R2); [lia..|]. destruct (le_at_Some img 8 (a + 16) Hb) as (v3 & -> & R3); [lia..|].
  destruct (le_at_Some img 8 (a + 32) Hb) as (v4 & -> & R4); [lia..|]. destruct (le_at_Some img 8 (a + 40) Hb) as (v5 & -> & R5); [lia..|].
  destruct (le_at_Some img 8 (a + 48) Hb) as (v6 & -> & R6); [lia..|].
  eexists. split; [done|]. repeat split; simpl; try lia.
Qed.

Definition header_ok (img : image) (h : elf64_header) : Prop :=
  0 <= e_phoff h /\ e_phoff h + PHDR * e_phnum h <= image_size img /\ 0 < e_phnum h <= NPK_MAX_PHNUM /\
  e_phentsize h = PHDR /\ in_u64 (e_entry h) /\ (e_type h = ET_EXEC \/ e_type h = ET_DYN).

Lemma header_valid_Some img :
  bytes_ok img -> exists r, header_valid img = Some r /\ match r with Some h => header_ok img h | None => True end.
Proof.
  intros Hb. unfold header_valid, EHDR. destruct (_ <? 64) eqn:E; [by exists None|]. zbool.
  destruct (byte_at_Some img 0 Hb) as (b0 & -> & _); [lia|]. destruct (byte_at_Some img 1 Hb) as (b1 & -> & _); [lia|].
  destruct (byte_at_Some img 2 Hb) as (b2 & -> & _); [lia|]. destruct (byte_at_Some img 3 Hb) as (b3 & -> & _); [lia|].
  destruct (byte_at_Some img 4 Hb) as (b4 & -> & _); [lia|]. destruct (byte_at_Some img 5 Hb) as (b5 & -> & _); [lia|].
  destruct (byte_at_Some img 6 Hb) as (b6 & -> & _); [lia|]. unfold read_header.
  destruct (le_at_Some img 2 16 Hb) as (v0 & -> & _); [lia..|]. destruct (le_at_Some img 2 18 Hb) as (v1 & -> & _); [lia..|].
  destruct (le_at_Some img 4 20 Hb) as (v2 & -> & _); [lia..|]. destruct (le_at_Some img 8 24 Hb) as (v3 & -> & R3); [lia..|].
  destruct (le_at_Some img 8 32 Hb) as (v4 & -> & R4); [lia..|]. destruct (le_at_Some img 2 52 Hb) as (v5 & -> & _); [lia..|].
  destruct (le_at_Some img 2 54 Hb) as (v6 & -> & R6); [lia..|]. destruct (le_at_Some img 2 56 Hb) as (v7 & -> & R7); [lia..|].
  cbn [mbind option_bind e_type e_machine e_version e_ehsize e_phentsize e_phnum e_phoff].
  eexists. split; [reflexivity|].
  repeat match goal with |- context [if ?b then None else _] => destruct b eqn:?; [exact I|] end.
  unfold header_ok, in_u64, NPK_MAX_PHNUM, PHDR, ET_EXEC, ET_DYN in *. cbn [e_phoff e_phnum e_phentsize e_entry e_type].
  zbool. repeat split; lia.
Qed.

(** Pass a guard that returns [None]. *)
Ltac peel E := match goal with |- (if ?b then None else _) = _ -> _ => destruct b eqn:E; [discriminate|] end.

(** What an accepted segment satisfies. *)
Lemma segment_range_valid_spec ph size bias r :
  program_ok ph -> in_u64 bias -> segment_range_valid ph size bias = Some r ->
  sr_start r = p_vaddr ph + bias /\ sr_end r = p_vaddr ph + bias + p_memsz ph /\
  NPK_USER_MIN <= sr_start r /\ sr_start r < sr_end r /\
  sr_page_start r = sr_start r - sr_start r mod 4096 /\ sr_end r <= sr_page_end r < sr_end r + 4096 /\
  sr_page_end r mod 4096 = 0 /\ sr_page_end r <= NPK_USER_MAX /\
  p_filesz ph <= p_memsz ph /\ p_offset ph + p_filesz ph <= size /\
  ~ (hasb (p_flags ph) PF_W = true /\ hasb (p_flags ph) PF_X = true).
Proof.
  intros (Ho & Hv & Hf & Hm & _) Hbias. unfold segment_range_valid, user_span, align_up.
  peel E1. peel E2. peel E3. peel E4.
  destruct (add_overflows _ bias) eqn:E5; [discriminate|]. destruct (_ || add_overflows _ _) eqn:E6; [discriminate|].
  destruct ((_ >? NPK_USER_MAX) || _) eqn:E7; [discriminate|]. peel E8. cbv zeta.
  destruct (_ >? UINT64_MAX - _) eqn:E9; [discriminate|]. destruct ((_ <=? NPK_USER_MAX) && _) eqn:E10; [|discriminate].
  intros X. injection X as <-.
  unfold align_down, add_overflows, UINT64_MAX, NPK_USER_MIN, NPK_USER_MAX, in_u64, NPK_PAGE_SIZE in *. zbool.
  cbn [sr_start sr_end sr_page_start sr_page_end].
  change (4096 - 1) with (NPK_PAGE_SIZE - 1) in *. rewrite !land_page_mask in * by (unfold NPK_PAGE_SIZE; lia).
  unfold NPK_PAGE_SIZE in *. repeat split; mlia.
Qed.

(** Close a round of a loop that does not fault. *)
Ltac fin := eexists; split; [reflexivity|first [exact I | simpl; lia | done]].

Lemma interpreter_field_valid_Some img ph :
  bytes_ok img -> program_ok ph -> exists b, interpreter_field_valid img ph = Some b.
Proof.
  intros Hb (Ho & _ & Hf & _). unfold interpreter_field_valid. destruct (_ || _) eqn:E; [eauto|].
  unfold NPK_ELF_INTERP_MAX, in_u64 in *. zbool.
  assert (V : forall i, 0 <= i < p_filesz ph -> exists b, byte_at img (p_offset ph + i) = Some b).
  { intros i Hi. destruct (byte_at_Some img (p_offset ph + i) Hb ltac:(lia)) as (b & -> & _). eauto. }
  destruct (V (p_filesz ph - 1) ltac:(lia)) as [z ->]. destruct (V 0 ltac:(lia)) as [f ->]. cbn [mbind option_bind].
  destruct (_ || _); [eauto|].
  match goal with |- context [forM ?f 0 ?n 1] =>
    destruct (forM_inv (fun i cs => 1 <= cs <= Z.max 1 i) (fun _ : bool => True) f n 0 1) as (r & -> & _) end.
  - lia.
  - intros i cs Hi Hcs. destruct (V i ltac:(lia)) as [c ->]. cbn [mbind option_bind].
    cif G1; [fin|]. cif G2; [fin|]. cif E2; [|fin].
    assert (i - cs = 2) by (unfold u64 in E2; mlia).
    destruct (V cs ltac:(lia)) as [a ->]. destruct (V (cs + 1) ltac:(lia)) as [b ->]. cbn [mbind option_bind].
    cif G3; fin.
  - cbn [mbind option_bind]. eauto.
Qed.

Lemma dynamic_table_valid_Some img ph :
  bytes_ok img -> program_ok ph -> exists b, dynamic_table_valid img ph = Some b.
Proof.
  intros Hb (Ho & _ & Hf & _). unfold dynamic_table_valid, ELF_DYNAMIC_ENTRY_SIZE, in_u64 in *. destruct (_ || _) eqn:E; [eauto|]. zbool.
  match goal with |- context [forM ?f 0 ?n tt] =>
    destruct (forM_inv (fun _ _ => True) (fun _ : bool => True) f n 0 tt) as (r & -> & _) end.
  - done.
  - intros i u Hi _. destruct (le_at_Some img 8 (p_offset ph + 16 * i) Hb) as (v & -> & _); [lia|mlia|].
    cbn [mbind option_bind]. destruct (_ =? 0); [fin|]. destruct (_ <? 0); fin.
  - cbn [mbind option_bind]. eauto.
Qed.

(** ** The segments of an image *)

Section Segments.
Context (img : image) (h : elf64_header) (bias : Z).
Context (Hb : bytes_ok img) (Hh : header_ok img h) (Hbias : in_u64 bias).

(** Program header [j] is a loadable segment with range [r]. *)
Definition loads (j : Z) (r : seg_range) : Prop :=
  exists ph, read_program img (e_phoff h) j = Some ph /\ p_type ph = PT_LOAD /\
             segment_range_valid ph (image_size img) bias = Some r.

(** Every loadable header below [n] has a range. *)
Definition loads_valid (n : Z) : Prop :=
  forall j ph, 0 <= j < n -> read_program img (e_phoff h) j = Some ph -> p_type ph = PT_LOAD -> exists r, loads j r.

Definition pages_disjoint (r r' : seg_range) : Prop :=
  sr_page_end r <= sr_page_start r' \/ sr_page_end r' <= sr_page_start r.

Lemma program_at j : 0 <= j < e_phnum h -> exists ph, read_program img (e_phoff h) j = Some ph /\ program_ok ph.
Proof using All.
  intros Hj. destruct Hh as (H0 & H1 & _). apply read_program_Some; [done|done|lia|]. unfold PHDR in *. lia.
Qed.

Lemma loads_spec j r :
  0 <= j < e_phnum h -> loads j r ->
  NPK_USER_MIN <= sr_start r < sr_end r /\ sr_page_start r <= sr_start r < sr_page_start r + 4096 /\
  sr_page_start r mod 4096 = 0 /\ sr_page_end r mod 4096 = 0 /\ sr_end r <= sr_page_end r <= NPK_USER_MAX.
Proof using All.
  intros Hj (ph & Hr & _ & Hs). destruct (program_at j Hj) as (ph' & Hr' & Hok). rewrite Hr in Hr'. injection Hr' as <-.
  destruct (segment_range_valid_spec ph _ _ r Hok Hbias Hs) as (A & B & C & D & E & F & G & I & _).
  rewrite E. repeat split; try mlia.
Qed.

(** The overlap test on byte starts is the overlap of the page ranges. *)
Lemma load_segments_overlap_spec i r :
  0 <= i < e_phnum h -> loads i r -> loads_valid i ->
  exists b, load_segments_overlap img (e_phoff h) i bias (sr_page_start r) (sr_page_end r) = Some b /\
    (b = false <-> forall j r', 0 <= j < i -> loads j r' -> pages_disjoint r' r).
Proof using All.
  intros Hi Hr Hv. unfold load_segments_overlap. destruct (loads_spec i r Hi Hr) as (A1 & A2 & A3 & A4 & A5).
  match goal with |- context [forM ?f 0 ?n tt] =>
    destruct (forM_inv (fun k _ => forall j r', 0 <= j < k -> loads j r' -> pages_disjoint r' r)
      (fun b : bool => b = true /\ exists j r', 0 <= j < i /\ loads j r' /\ ~ pages_disjoint r' r) f n 0 tt) as (x & -> & Hx) end.
  - intros j r' Hj. lia.
  - intros k u Hk IH. destruct (program_at k ltac:(lia)) as (ph & Hph & _). rewrite Hph. cbn [mbind option_bind].
    eexists. split; [reflexivity|]. destruct (p_type ph =? PT_LOAD) eqn:Et; cbn [negb]; zbool.
    + destruct (Hv k ph ltac:(lia) Hph Et) as [r' Hr']. pose proof Hr' as (ph' & Hph' & _ & Hs). rewrite Hph in Hph'. injection Hph' as <-.
      rewrite Hs. destruct (loads_spec k r' ltac:(lia) Hr') as (B1 & B2 & B3 & B4 & B5). unfold pages_disjoint in *.
      destruct ((_ <? _) && _) eqn:E; zbool.
      * split; [done|]. exists k, r'. split; [lia|]. split; [done|]. mlia.
      * intros j r'' Hj Hr''. destruct (decide (j = k)) as [->|]; [|exact (IH j r'' ltac:(lia) Hr'')].
        destruct Hr'' as (ph'' & Hp'' & _ & Hs''). rewrite Hph in Hp''. injection Hp'' as <-. rewrite Hs in Hs''. injection Hs'' as <-. mlia.
    + intros j r'' Hj Hr''. destruct (decide (j = k)) as [->|]; [|exact (IH j r'' ltac:(lia) Hr'')].
      destruct Hr'' as (ph'' & Hp'' & Ht & _). rewrite Hph in Hp''. injection Hp'' as <-. done.
  - cbn [mbind option_bind]. eexists. split; [reflexivity|]. destruct x as [u|b].
    + split; [|done]. intros _ j r' Hj. apply Hx. lia.
    + destruct Hx as [-> (j & r' & Hj & Hr' & Hn)]. split; [done|]. intros Hall. by destruct Hn; apply (Hall j).
Qed.

(** The pages header [j] contributes, and the sum over the first [n] headers. *)
Definition pages_of (j : Z) : Z :=
  match read_program img (e_phoff h) j with
  | Some ph => if p_type ph =? PT_LOAD then
                 match segment_range_valid ph (image_size img) bias with
                 | Some r => (sr_page_end r - sr_page_start r) / NPK_PAGE_SIZE
                 | None => 0
                 end
               else 0
  | None => 0
  end.
Fixpoint total_pages_of (n : nat) : Z :=
  match n with O => 0 | S n' => total_pages_of n' + pages_of (Z.of_nat n') end.

Definition has_type (t j : Z) : Prop := exists ph, read_program img (e_phoff h) j = Some ph /\ p_type ph = t.

(** The entry point lies in an executable segment among the first [n] headers. *)
Definition entry_in_text (n : Z) : Prop :=
  exists j ph r, 0 <= j < n /\ read_program img (e_phoff h) j = Some ph /\ p_type ph = PT_LOAD /\
    segment_range_valid ph (image_size img) bias = Some r /\
    sr_start r <= e_entry h + bias < sr_end r /\ hasb (p_flags ph) PF_X = true.

(** What has been established about the first [n] headers. *)
Record prefix_ok (n : Z) : Prop := {
  po_loads : loads_valid n;
  po_disjoint : forall i j ri rj, 0 <= i < j -> j < n -> loads i ri -> loads j rj -> pages_disjoint ri rj;
  po_interp : forall i j, 0 <= i < n -> 0 <= j < n -> has_type PT_INTERP i -> has_type PT_INTERP j -> i = j;
  po_interp_valid : forall j ph, 0 <= j < n -> read_program img (e_phoff h) j = Some ph -> p_type ph = PT_INTERP ->
    interpreter_field_valid img ph = Some true;
  po_dynamic : forall i j, 0 <= i < n -> 0 <= j < n -> has_type PT_DYNAMIC i -> has_type PT_DYNAMIC j -> i = j;
  po_dynamic_valid : forall j ph, 0 <= j < n -> read_program img (e_phoff h) j = Some ph -> p_type ph = PT_DYNAMIC ->
    dynamic_table_valid img ph = Some true
}.

Record vinv (n : Z) (v : vstate) : Prop := {
  vi_prefix : prefix_ok n;
  vi_interp : vs_interp v = false -> forall j, 0 <= j < n -> ~ has_type PT_INTERP j;
  vi_dynamic : vs_dynamic v = false -> forall j, 0 <= j < n -> ~ has_type PT_DYNAMIC j;
  vi_pages : vs_page_count v = total_pages_of (Z.to_nat n) /\ 0 <= vs_page_count v <= NPK_MAX_ELF_PAGES;
  vi_entry : vs_entry_valid v = true -> entry_in_text n
}.

(** Header [n] is not of type [t]. *)
Lemma has_type_last n ph t j :
  read_program img (e_phoff h) n = Some ph -> p_type ph <> t -> 0 <= j < n + 1 -> has_type t j -> 0 <= j < n.
Proof.
  intros Hn Ht Hj (ph' & Hp & Ht'). destruct (decide (j = n)) as [->|]; [|lia]. rewrite Hn in Hp. injection Hp as <-. done.
Qed.

(** Extending the checked prefix by one header. *)
Lemma prefix_ok_step n ph :
  0 <= n -> prefix_ok n -> read_program img (e_phoff h) n = Some ph ->
  (p_type ph = PT_LOAD -> exists r, loads n r /\ forall j r', 0 <= j < n -> loads j r' -> pages_disjoint r' r) ->
  (p_type ph = PT_INTERP -> interpreter_field_valid img ph = Some true /\ forall j, 0 <= j < n -> ~ has_type PT_INTERP j) ->
  (p_type ph = PT_DYNAMIC -> dynamic_table_valid img ph = Some true /\ forall j, 0 <= j < n -> ~ has_type PT_DYNAMIC j) ->
  prefix_ok (n + 1).
Proof.
  intros H0 [P1 P2 P3 P3' P4 P4'] Hn HL HI HD.
  assert (U : forall t i j, (p_type ph = t -> forall k, 0 <= k < n -> ~ has_type t k) ->
     (forall i j, 0 <= i < n -> 0 <= j < n -> has_type t i -> has_type t j -> i = j) ->
     0 <= i < n + 1 -> 0 <= j < n + 1 -> has_type t i -> has_type t j -> i = j).
  { intros t i j Hone Hold Hi Hj Ti Tj. destruct (decide (p_type ph = t)) as [Et|Et].
    - destruct (decide (i = n)), (decide (j = n)); subst; try done; exfalso.
      + by apply (Hone eq_refl j ltac:(lia)).
      + by apply (Hone eq_refl i ltac:(lia)).
      + by apply (Hone eq_refl i ltac:(lia)).
    - apply (Hold i j); [by apply (has_type_last n ph t)|by apply (has_type_last n ph t)|done|done]. }
  assert (V : forall (t : Z) (f : elf64_program_header -> option bool), (p_type ph = t -> f ph = Some true) ->
     (forall j p, 0 <= j < n -> read_program img (e_phoff h) j = Some p -> p_type p = t -> f p = Some true) ->
     forall j p, 0 <= j < n + 1 -> read_program img (e_phoff h) j = Some p -> p_type p = t -> f p = Some true).
  { intros t f Hone Hold j p Hj Hp Ht. destruct (decide (j = n)) as [->|]; [|apply (Hold j); [lia|done|done]].
    rewrite Hn in Hp. injection Hp as <-. by apply Hone. }
  split.
  - intros j ph' Hj Hp Ht. destruct (decide (j = n)) as [->|]; [|apply (P1 j ph'); [lia|done|done]].
    rewrite Hn in Hp. injection Hp as <-. destruct (HL Ht) as (r & Hr & _). eauto.
  - intros i j ri rj Hij Hj Hi Hlj. destruct (decide (j = n)) as [->|]; [|apply (P2 i j); [lia|lia|done|done]].
    pose proof Hlj as (ph' & Hp & Ht & Hs). rewrite Hn in Hp. injection Hp as <-. destruct (HL Ht) as (r & (ph'' & Hp & _ & Hs') & Hd).
    rewrite Hn in Hp. injection Hp as <-. rewrite Hs in Hs'. injection Hs' as <-. by apply (Hd i).
  - intros i j. apply (U PT_INTERP i j); [intros Ht; apply (HI Ht)|done].
  - apply (V PT_INTERP (interpreter_field_valid img)); [intros Ht; apply (HI Ht)|done].
  - intros i j. apply (U PT_DYNAMIC i j); [intros Ht; apply (HD Ht)|done].
  - apply (V PT_DYNAMIC (dynamic_table_valid img)); [intros Ht; apply (HD Ht)|done].
Qed.

Lemma total_pages_step n : 0 <= n -> total_pages_of (Z.to_nat (n + 1)) = total_pages_of (Z.to_nat n) + pages_of n.
Proof. intros Hn. replace (Z.to_nat (n + 1)) with (S (Z.to_nat n)) by lia. simpl. by rewrite Z2Nat.id. Qed.

Lemma entry_in_text_mono n : entry_in_text n -> entry_in_text (n + 1).
Proof. intros (j & ph & r & ? & ? & ? & ? & ? & ?). exists j, ph, r. repeat split; try done; lia. Qed.

(** A header that is not loadable. *)
Lemma vinv_other n ph v si sd :
  0 <= n -> read_program img (e_phoff h) n = Some ph -> p_type ph <> PT_LOAD -> vinv n v -> prefix_ok (n + 1) ->
  (si = false -> vs_interp v = false /\ p_type ph <> PT_INTERP) -> (sd = false -> vs_dynamic v = false /\ p_type ph <> PT_DYNAMIC) ->
  vinv (n + 1) (VState (vs_page_count v) (vs_loaded v) (vs_entry_valid v) si sd).
Proof.
  intros Hn Hp Ht [V1 V2 V3 [V4 V4'] V5] Hpre Hsi Hsd. split; simpl.
  - done.
  - intros E j Hj Hj'. destruct (Hsi E) as [E' Ht']. apply (V2 E' j); [by apply (has_type_last n ph PT_INTERP)|done].
  - intros E j Hj Hj'. destruct (Hsd E) as [E' Ht']. apply (V3 E' j); [by apply (has_type_last n ph PT_DYNAMIC)|done].
  - split; [|done]. rewrite total_pages_step by done. unfold pages_of. rewrite Hp.
    replace (p_type ph =? PT_LOAD) with false by lia. lia.
  - intros E. apply entry_in_text_mono. auto.
Qed.

Lemma validate_program_step n v :
  0 <= n < e_phnum h -> vinv n v ->
  exists r, validate_program img (e_phoff h) bias (e_entry h + bias) n v = Some r /\
    match r with inl v' => vinv (n + 1) v' | inr _ => True end.
Proof using All.
  intros Hn Hv. destruct (program_at n Hn) as (ph & Hph & Hok). unfold validate_program. rewrite Hph. cbn [mbind option_bind].
  destruct (p_type ph =? PT_INTERP) eqn:Et1; zbool.
  { destruct (interpreter_field_valid_Some img ph Hb Hok) as [ok Eok]. rewrite Eok. cbn [mbind option_bind].
    destruct (vs_interp v || negb ok) eqn:E; [fin|]. apply orb_false_iff in E as [Ei Eo]. apply negb_false_iff in Eo as ->.
    eexists. split; [reflexivity|]. apply (vinv_other n ph); try done; [lia|by rewrite Et1| |by rewrite Et1].
    apply (prefix_ok_step n ph); [lia|apply Hv|done|by rewrite Et1| |by rewrite Et1]. intros _. split; [done|by apply Hv]. }
  destruct (p_type ph =? PT_DYNAMIC) eqn:Et2; zbool.
  { destruct (dynamic_table_valid_Some img ph Hb Hok) as [ok Eok]. rewrite Eok. cbn [mbind option_bind].
    destruct (vs_dynamic v || negb ok) eqn:E; [fin|]. apply orb_false_iff in E as [Ei Eo]. apply negb_false_iff in Eo as ->.
    eexists. split; [reflexivity|]. apply (vinv_other n ph); try done; [lia|by rewrite Et2|].
    apply (prefix_ok_step n ph); [lia|apply Hv|done|by rewrite Et2|by rewrite Et2|]. intros _. split; [done|by apply Hv]. }
  destruct (p_type ph =? PT_LOAD) eqn:Et3; cbn [negb]; zbool.
  2: { eexists. split; [reflexivity|]. replace v with (VState (vs_page_count v) (vs_loaded v) (vs_entry_valid v) (vs_interp v) (vs_dynamic v)) by (by destruct v).
       apply (vinv_other n ph); try done; [lia|]. by apply (prefix_ok_step n ph); [lia|apply Hv|..]. }
  destruct (segment_range_valid ph (image_size img) bias) as [r|] eqn:Es; [|fin].
  assert (Hl : loads n r) by (exists ph; done).
  destruct (load_segments_overlap_spec n r Hn Hl (po_loads _ (vi_prefix _ _ Hv))) as (b & -> & Hbd). cbn [mbind option_bind].
  destruct b; [fin|]. destruct (_ >? _) eqn:Esp; [fin|]. zbool. eexists. split; [reflexivity|].
  destruct (loads_spec n r Hn Hl) as (A1 & A2 & A3 & A4 & A5).
  destruct Hv as [V1 V2 V3 [V4 V4'] V5]. split; cbn [vs_page_count vs_loaded vs_entry_valid vs_interp vs_dynamic].
  - apply (prefix_ok_step n ph); [lia|done|done| |by rewrite Et3|by rewrite Et3]. intros _. exists r. split; [done|]. by apply Hbd.
  - intros E j Hj Hj'. apply (V2 E j); [apply (has_type_last n ph PT_INTERP); try done; by rewrite Et3|done].
  - intros E j Hj Hj'. apply (V3 E j); [apply (has_type_last n ph PT_DYNAMIC); try done; by rewrite Et3|done].
  - rewrite total_pages_step by lia. unfold pages_of. rewrite Hph, Et3, Z.eqb_refl, Es. unfold NPK_PAGE_SIZE, NPK_MAX_ELF_PAGES in *.
    split; [lia|mlia].
  - intros E. apply orb_true_iff in E as [E|E]; [by apply entry_in_text_mono, V5|]. zbool. exists n, ph, r. repeat split; try done; lia.
Qed.
End Segments.

(** C21: Validating an image never reads outside of it, whatever bytes it holds;
    and an accepted image has only loadable segments inside the user range and
    inside the file, none both writable and executable, with pairwise disjoint
    page ranges of at most 65536 pages in total, at most one interpreter and
    one dynamic table, both well formed, and its entry point inside an
    executable segment. *)
Theorem elf64_validate_at_bias_spec img bias :
  bytes_ok img -> in_u64 bias ->
  exists b, elf64_validate_at_bias img bias = Some b /\
    (b = true -> exists h, header_valid img = Some (Some h) /\ prefix_ok img h bias (e_phnum h) /\
       entry_in_text img h bias (e_phnum h) /\ total_pages_of img h bias (Z.to_nat (e_phnum h)) <= NPK_MAX_ELF_PAGES /\
       forall j ph r, 0 <= j < e_phnum h -> read_program img (e_phoff h) j = Some ph -> p_type ph = PT_LOAD ->
         segment_range_valid ph (image_size img) bias = Some r ->
         NPK_USER_MIN <= sr_start r /\ sr_start r = p_vaddr ph + bias /\ sr_page_end r <= NPK_USER_MAX /\
         p_offset ph + p_filesz ph <= image_size img /\ p_filesz ph <= p_memsz ph /\
         ~ (hasb (p_flags ph) PF_W = true /\ hasb (p_flags ph) PF_X = true)).
Proof.
  intros Hb Hbias. unfold elf64_validate_at_bias. destruct (header_valid_Some img Hb) as (r & -> & Hr). cbn [mbind option_bind].
  destruct r as [h|]; [|by exists false]. destruct (negb (_ =? 0)); [by exists false|].
  destruct (_ && negb _); [by exists false|]. destruct (_ && _); [by exists false|]. destruct (add_overflows _ _); [by exists false|].
  destruct (forM_inv (vinv img h bias) (fun _ : unit => True) (validate_program img (e_phoff h) bias (e_entry h + bias))
    (Z.to_nat (e_phnum h)) 0 (VState 0 0 false false false)) as (x & -> & Hx).
  - split; simpl; [split; repeat intro; lia|intros _ j Hj; lia|intros _ j Hj; lia|unfold NPK_MAX_ELF_PAGES; lia|done].
  - intros k v Hk Hv. apply (validate_program_step img h bias Hb Hr Hbias k v); [lia|done].
  - cbn [mbind option_bind]. eexists. split; [reflexivity|]. destruct x as [v|]; [|done]. intros E. zbool.
    rewrite Z.add_0_l, Z2Nat.id in Hx by (destruct Hr as (_ & _ & ? & _); lia). destruct Hx as [X1 X2 X3 [X4 X4'] X5].
    exists h. split; [done|]. split; [done|]. split; [by apply X5|]. split; [lia|].
    intros j ph r Hj Hp Ht Hs. destruct (program_at img h bias Hb Hr Hbias j Hj) as (ph' & Hp' & Hok). rewrite Hp in Hp'. injection Hp' as <-.
    destruct (segment_range_valid_spec ph _ _ r Hok Hbias Hs) as (A & B & C & D & E' & F & G & I & J & K & L). done.
Qed.

(** ** Concrete images *)


Definition ehdr_bytes (type entry phnum : Z) : list Z :=
  [127; 69; 76; 70; 2; 1; 1; 0; 0; 0; 0; 0; 0; 0; 0; 0] ++ le_bytes 2 type ++ le_bytes 2 62 ++ le_bytes 4 1 ++
  le_bytes 8 entry ++ le_bytes 8 64 ++ le_bytes 8 0 ++ le_bytes 4 0 ++ le_bytes 2 64 ++ le_bytes 2 56 ++ le_bytes 2 phnum ++
  le_bytes 2 0 ++ le_bytes 2 0 ++ le_bytes 2 0.

Definition phdr_bytes (type flags offset vaddr filesz memsz align : Z) : list Z :=
  le_bytes 4 type ++ le_bytes 4 flags ++ le_bytes 8 offset ++ le_bytes 8 vaddr ++ le_bytes 8 0 ++ le_bytes 8 filesz ++
  le_bytes 8 memsz ++ le_bytes 8 align.

(** A static program with one text and one data segment. *)
Definition small_elf : image :=
  ehdr_bytes 2 0x400080 2 ++ phdr_bytes 1 5 0 0x400000 184 184 4096 ++ phdr_bytes 1 6 176 0x4010b0 8 64 4096 ++
  [72; 49; 192; 195; 0; 0; 0; 0].

Lemma small_elf_ok : bytes_ok small_elf.
Proof.
  assert (E : forallb (fun b => (0 <=? b) && (b <? 256)) small_elf = true) by (vm_compute; reflexivity).
  apply Forall_forall. intros b Hb. rewrite forallb_forall in E.
  specialize (E b Hb). cbv beta in E. lia.
Qed.

Lemma elf64_validate_at_bias_spec_witness :
  elf64_validate_at_bias small_elf 0 = Some true /\
  exists h, entry_in_text small_elf h 0 (e_phnum h).
Proof.
  assert (E : elf64_validate_at_bias small_elf 0 = Some true) by (vm_compute; reflexivity). split; [exact E|].
  destruct (elf64_validate_at_bias_spec small_elf 0 small_elf_ok ltac:(split; by vm_compute)) as (b & Eb & H).
  rewrite E in Eb. injection Eb as <-. destruct (H eq_refl) as (h & _ & _ & H' & _). exists h. exact H'.
Defined.

(** An image whose PT_INTERP holds the given string, without the final NUL. *)
Definition interp_elf (path : list Z) : image :=
  ehdr_bytes 3 0x80 2 ++ phdr_bytes 1 5 0 0 176 176 4096 ++
  phdr_bytes 3 4 176 0 (Z.of_nat (length path) + 1) (Z.of_nat (length path) + 1) 1 ++ path ++ [0].

(** The traversal check measures the last component without its last byte: the
    path "/.." is accepted and "/..x" is refused. *)
Lemma interpreter_dotdot_check :
  elf64_validate (interp_elf [47; 46; 46]) = Some true /\ elf64_validate (interp_elf [47; 46; 46; 120]) = Some false /\
  elf64_validate (interp_elf [47; 46; 46; 47]) = Some false.
Proof. vm_compute. repeat split. Qed.

(** A 256-byte interpreter field passes validation, but the loader's buffer is
    one byte too small for it and the image is loaded as if it had none. *)
Lemma interpreter_longest_ignored :
  let img := interp_elf (47 :: repeat 97 254) in
  elf64_validate img = Some true /\ elf64_get_interpreter img NPK_ELF_INTERP_MAX = Some (ELF_ENOEXEC, []).
Proof. vm_compute. repeat split. Qed.

(** Loading the small program: its two segments, two pages. *)
Lemma small_elf_loads :
  match elf64_load small_elf (kheap_init (machine 24)) with
  | Some (inr r, s) =>
      lr_entry r = 0x400080 /\ lr_loaded_segments r = 2 /\
      read_bytes (pages s) (k_lookup_root s 16777216 0x4010b0 VM_USER) 8 = [72; 49; 192; 195; 0; 0; 0; 0] /\
      k_lookup_root s 16777216 0x400080 VM_WRITE = 0
  | _ => False
  end.
Proof. vm_compute. repeat split. Qed.
