(* ===== verification/Vm.v ===== *)
(** * Virtual memory areas (src/src/memory/vm.c)

    The list of areas of a process, the operations that reserve, split, protect
    and release them, and the faults that materialise their pages.  What the
    code asks of the rest of the kernel (heap, frames, page tables, file
    handles) is the class [VmOps]; the theorems on the areas hold for every
    instance.  The linked list is a list of nodes, each with the address the
    heap gave it. *)

From Stdlib Require Import ZArith Lia Bool ZifyBool.
From stdpp Require Import base numbers list gmap.
From S2P Require Import Prelude Pmm Vmm.

Definition VM_EINVAL : Z := -22.
Definition VM_ENOMEM : Z := -12.
Definition VM_EEXIST : Z := -17.
Definition VM_USER_MMAP_BASE : Z := 0x0000001000000000.
Definition VM_USER_MMAP_LIMIT : Z := 0x0000400000000000.
Definition NPK_USER_MIN : Z := 0x0000000000010000.
Definition NPK_USER_MAX : Z := 0x0000800000000000.
Definition NPK_PROT_READ : Z := 1.
Definition NPK_PROT_WRITE : Z := 2.
Definition NPK_PROT_EXEC : Z := 4.
Definition NPK_MAP_SHARED : Z := 1.
Definition NPK_MAP_PRIVATE : Z := 2.
Definition NPK_MAP_FIXED : Z := 16.
Definition NPK_MAP_ANONYMOUS : Z := 32.
Definition NPK_MAP_HEAP : Z := 0x100.
Definition NPK_MAP_SHARED_OBJECT : Z := 0x200.
Definition NPK_MAP_DEVICE : Z := 0x400.
(** sizeof(npk_vma_t) *)
Definition VMA_SIZE : Z := 64.

(** One node; [v_node] is its address, the order of the list is [next]. *)
Record npk_vma := Vma {
  v_start : Z; v_end : Z; v_protection : Z; v_flags : Z;
  v_backing_handle : Z; v_backing_offset : Z; v_backing_size : Z; v_node : Z }.

(** The fields of [process_t] that describe the address space. *)
Record mm := Mm {
  m_alive : bool; m_root : Z; m_mmap_cursor : Z; m_brk_start : Z; m_brk_end : Z;
  m_stack_top : Z; m_stack_bottom : Z; m_stack_limit : Z; m_vmas : list npk_vma }.

Definition set_vmas (m : mm) (l : list npk_vma) : mm :=
  Mm (m_alive m) (m_root m) (m_mmap_cursor m) (m_brk_start m) (m_brk_end m) (m_stack_top m) (m_stack_bottom m) (m_stack_limit m) l.
Definition set_cursor (m : mm) (c : Z) : mm :=
  Mm (m_alive m) (m_root m) c (m_brk_start m) (m_brk_end m) (m_stack_top m) (m_stack_bottom m) (m_stack_limit m) (m_vmas m).
Definition set_brk (m : mm) (s e : Z) : mm :=
  Mm (m_alive m) (m_root m) (m_mmap_cursor m) s e (m_stack_top m) (m_stack_bottom m) (m_stack_limit m) (m_vmas m).
Definition set_stack_bottom (m : mm) (b : Z) : mm :=
  Mm (m_alive m) (m_root m) (m_mmap_cursor m) (m_brk_start m) (m_brk_end m) (m_stack_top m) b (m_stack_limit m) (m_vmas m).

(** What vm.c uses of the heap, the frame allocator, the page tables and the VFS. *)
Class VmOps (K : Type) := {
  vo_kmalloc : K -> Z -> Z * K;
  vo_kfree : K -> Z -> K;
  vo_alloc_page : K -> Z * K;
  vo_free_page : K -> Z -> K;
  vo_retain_page : K -> Z -> K;
  vo_zero_page : K -> Z -> K;
  vo_map_page_root : K -> Z -> Z -> Z -> Z -> bool * K;
  vo_unmap_page_root : K -> Z -> Z -> Z * K;
  vo_protect_page_root : K -> Z -> Z -> Z -> bool * K;
  vo_lookup_root : K -> Z -> Z -> Z -> Z;
  vo_resolve_cow_fault : K -> Z -> Z -> bool * K;
  vo_vfs_file_backed : K -> Z -> bool;
  vo_vfs_size : K -> Z -> Z;
  vo_vfs_retain : K -> Z -> Z * K;
  vo_vfs_close : K -> Z -> K;
  vo_vfs_is_shared_memory : K -> Z -> bool;
  vo_vfs_shm_page_count : K -> Z -> Z;
  vo_vfs_shm_page : K -> Z -> Z -> Z;
  (** [vfs_read_at(fd, phys_to_virt(physical), count, offset)] *)
  vo_vfs_read_at : K -> Z -> Z -> Z -> Z -> Z * K
}.

Definition add_overflow (a b : Z) : bool := b >? UINT64_MAX - a.
Definition page_align (value : Z) : Z := Z.land value (not64 (NPK_PAGE_SIZE - 1)).
Definition page_align_up (value : Z) : option Z :=
  if value >? UINT64_MAX - (NPK_PAGE_SIZE - 1) then None
  else Some (Z.land (value + NPK_PAGE_SIZE - 1) (not64 (NPK_PAGE_SIZE - 1))).

Definition overlaps (l : list npk_vma) (start end_ : Z) : bool :=
  existsb (fun v => (start <? v_end v) && (end_ >? v_start v)) l.

Definition page_flags_for (protection : Z) : Z :=
  let flags := VM_USER in
  let flags := if hasb protection NPK_PROT_WRITE then Z.lor flags VM_WRITE else flags in
  if negb (hasb protection NPK_PROT_EXEC) then Z.lor flags VM_NX else flags.

Definition covers (address : Z) (v : npk_vma) : bool := (address >=? v_start v) && (address <? v_end v).
Definition find_vma (l : list npk_vma) (address : Z) : option npk_vma := List.find (covers address) l.
Definition find_heap_vma (m : mm) : option npk_vma := List.find (fun v => hasb (v_flags v) NPK_MAP_HEAP) (m_vmas m).

(** The list around the first node that satisfies [p]. *)
Fixpoint split_first {A} (p : A -> bool) (l : list A) : option (list A * A * list A) :=
  match l with
  | [] => None
  | x :: l' => if p x then Some ([], x, l')
               else match split_first p l' with
                    | Some (l1, y, l2) => Some (x :: l1, y, l2)
                    | None => None
                    end
  end.

(** [protection & ~7] and the write-and-execute test. *)
Definition bad_protection (protection : Z) : bool :=
  hasb protection (not64 7) || (hasb protection NPK_PROT_WRITE && hasb protection NPK_PROT_EXEC).

(** One round of the address search of [vm_map_anonymous]: [inr None] is ENOMEM. *)
Definition mmap_search_step (l : list npk_vma) (size start : Z) : Z + option Z :=
  if add_overflow start size || (u64 (start + size) >? VM_USER_MMAP_LIMIT) || overlaps l start (u64 (start + size)) then
    let start := u64 (start + NPK_PAGE_SIZE) in
    if (start <? VM_USER_MMAP_BASE) || (start >=? VM_USER_MMAP_LIMIT) then inr None else inl start
  else inr (Some start).

(** The window has fewer than 2^34 pages. *)
Definition MMAP_ROUNDS : positive := 17179869184.

Definition mmap_search (l : list npk_vma) (size start : Z) : option Z :=
  match loop_pos MMAP_ROUNDS (mmap_search_step l size) start with
  | inr r => r
  | inl _ => None
  end.

Section Model.
Context {K : Type} `{VmOps K}.

Definition vm_map_anonymous (k : K) (m : mm) (hint length protection flags : Z) : (Z + Z) * K * mm :=
  if negb (m_alive m) || (length =? 0) || negb (hasb flags NPK_MAP_ANONYMOUS) ||
     negb (hasb flags (Z.lor NPK_MAP_SHARED NPK_MAP_PRIVATE)) || bad_protection protection then (inl VM_EINVAL, k, m)
  else
    match page_align_up length with
    | None => (inl VM_EINVAL, k, m)
    | Some size =>
        if (size =? 0) || (size >? VM_USER_MMAP_LIMIT - VM_USER_MMAP_BASE) then (inl VM_EINVAL, k, m)
        else
          let start :=
            if hasb flags NPK_MAP_FIXED then
              if negb (Z.land hint (NPK_PAGE_SIZE - 1) =? 0) then inl VM_EINVAL else inr hint
            else
              let start := if negb (hint =? 0) then page_align hint
                           else if negb (m_mmap_cursor m =? 0) then m_mmap_cursor m else VM_USER_MMAP_BASE in
              let start := if start <? VM_USER_MMAP_BASE then VM_USER_MMAP_BASE else start in
              match mmap_search (m_vmas m) size start with
              | None => inl VM_ENOMEM
              | Some start => inr start
              end in
          match start with
          | inl e => (inl e, k, m)
          | inr start =>
              if (start <? NPK_USER_MIN) || add_overflow start size || (u64 (start + size) >? NPK_USER_MAX) ||
                 overlaps (m_vmas m) start (u64 (start + size)) then (inl VM_EEXIST, k, m)
              else
                let '(node, k) := vo_kmalloc k VMA_SIZE in
                if node =? 0 then (inl VM_ENOMEM, k, m)
                else
                  let v := Vma start (u64 (start + size)) protection flags (-1) 0 0 node in
                  (inr start, k, set_cursor (set_vmas m (v :: m_vmas m)) (u64 (v_end v + NPK_PAGE_SIZE)))
          end
    end.

(** Unmapping the pages of [address, end): each frame loses one reference. *)
Definition unmap_pages (k : K) (root address end_ : Z) : K :=
  for_range (fun i k =>
    let '(physical, k) := vo_unmap_page_root k root (address + i * NPK_PAGE_SIZE) in
    if negb (physical =? 0) then vo_free_page k physical else k)
    0 (Z.to_nat ((end_ - address + NPK_PAGE_SIZE - 1) / NPK_PAGE_SIZE)) k.

(** The node with other bounds, and the adjusted file window. *)
Definition with_bounds (v : npk_vma) (s e off size node : Z) : npk_vma :=
  Vma s e (v_protection v) (v_flags v) (v_backing_handle v) off size node.

Definition vm_unmap (k : K) (m : mm) (address length : Z) : Z * K * mm :=
  if negb (m_alive m) || negb (Z.land address (NPK_PAGE_SIZE - 1) =? 0) || (length =? 0) then (VM_EINVAL, k, m)
  else
    match page_align_up length with
    | None => (VM_EINVAL, k, m)
    | Some size =>
        if add_overflow address size then (VM_EINVAL, k, m)
        else
          let end_ := address + size in
          match split_first (fun v => (address >=? v_start v) && (end_ <=? v_end v)) (m_vmas m) with
          | None => (VM_EINVAL, k, m)
          | Some (l1, v, l2) =>
              if hasb (v_flags v) NPK_MAP_HEAP then (VM_EINVAL, k, m)
              else if (address >? v_start v) && (end_ <? v_end v) then
                let '(node, k) := vo_kmalloc k VMA_SIZE in
                if node =? 0 then (VM_ENOMEM, k, m)
                else
                  let right := with_bounds v end_ (v_end v) (v_backing_offset v) (v_backing_size v) node in
                  if v_backing_handle v >=? 0 then
                    let '(rc, k) := vo_vfs_retain k (v_backing_handle v) in
                    if negb (rc =? 0) then (VM_ENOMEM, vo_kfree k node, m)
                    else
                      let right_delta := end_ - v_start v in
                      let right := with_bounds v end_ (v_end v) (u64 (v_backing_offset v + right_delta))
                                     (if right_delta <? v_backing_size v then v_backing_size v - right_delta else 0) node in
                      let left_size := address - v_start v in
                      let left := with_bounds v (v_start v) address (v_backing_offset v)
                                    (if left_size <? v_backing_size v then left_size else v_backing_size v) (v_node v) in
                      (0, unmap_pages k (m_root m) address end_, set_vmas m (l1 ++ left :: right :: l2))
                  else
                    let left := with_bounds v (v_start v) address (v_backing_offset v) (v_backing_size v) (v_node v) in
                    (0, unmap_pages k (m_root m) address end_, set_vmas m (l1 ++ left :: right :: l2))
              else if (address =? v_start v) && (end_ =? v_end v) then
                let k := unmap_pages k (m_root m) address end_ in
                let k := if v_backing_handle v >=? 0 then vo_vfs_close k (v_backing_handle v) else k in
                (0, vo_kfree k (v_node v), set_vmas m (l1 ++ l2))
              else if address =? v_start v then
                let delta := end_ - v_start v in
                let v' := if v_backing_handle v >=? 0
                          then with_bounds v end_ (v_end v) (u64 (v_backing_offset v + delta))
                                 (if delta <? v_backing_size v then v_backing_size v - delta else 0) (v_node v)
                          else with_bounds v end_ (v_end v) (v_backing_offset v) (v_backing_size v) (v_node v) in
                (0, unmap_pages k (m_root m) address end_, set_vmas m (l1 ++ v' :: l2))
              else if end_ =? v_end v then
                let left_size := address - v_start v in
                let v' := if v_backing_handle v >=? 0
                          then with_bounds v (v_start v) address (v_backing_offset v)
                                 (if left_size <? v_backing_size v then left_size else v_backing_size v) (v_node v)
                          else with_bounds v (v_start v) address (v_backing_offset v) (v_backing_size v) (v_node v) in
                (0, unmap_pages k (m_root m) address end_, set_vmas m (l1 ++ v' :: l2))
              else (VM_EINVAL, k, m)
          end
    end.

(** Change the first node that contains [address], as the code does through
    the pointer [find_vma] returns. *)
Definition update_vma (l : list npk_vma) (address : Z) (f : npk_vma -> npk_vma) : option (list npk_vma) :=
  match split_first (covers address) l with
  | None => None
  | Some (l1, v, l2) => Some (l1 ++ f v :: l2)
  end.

Definition set_backing (v : npk_vma) (flags handle offset size : Z) : npk_vma :=
  Vma (v_start v) (v_end v) (v_protection v) flags handle offset size (v_node v).

(** The common tail of the file and shared-object mappings: retain the handle
    and turn the reservation into a mapping of it. *)
Definition attach_handle (k : K) (m : mm) (handle mapped length : Z) (f : npk_vma -> npk_vma) : (Z + Z) * K * mm :=
  let '(rc, k) := vo_vfs_retain k handle in
  if negb (rc =? 0) then
    let '(_, k, m) := vm_unmap k m mapped length in (inl VM_EINVAL, k, m)
  else
    match update_vma (m_vmas m) mapped f with
    | None =>
        let k := vo_vfs_close k handle in
        let '(_, k, m) := vm_unmap k m mapped length in (inl VM_EINVAL, k, m)
    | Some l => (inr mapped, k, set_vmas m l)
    end.

Definition vm_map_file (k : K) (m : mm) (handle hint length protection flags offset : Z) : (Z + Z) * K * mm :=
  if negb (m_alive m) || (handle <? 0) || (length =? 0) || hasb flags NPK_MAP_ANONYMOUS ||
     negb (hasb flags (Z.lor NPK_MAP_SHARED NPK_MAP_PRIVATE)) || bad_protection protection ||
     negb (Z.land offset (NPK_PAGE_SIZE - 1) =? 0) ||
     (hasb protection NPK_PROT_WRITE && hasb flags NPK_MAP_SHARED) || negb (vo_vfs_file_backed k handle) then (inl VM_EINVAL, k, m)
  else
    let file_size := vo_vfs_size k handle in
    if (file_size <? 0) || (offset >? UINT64_MAX - length) then (inl VM_EINVAL, k, m)
    else
      match vm_map_anonymous k m hint length protection (Z.lor flags NPK_MAP_ANONYMOUS) with
      | (inl e, k, m) => (inl e, k, m)
      | (inr mapped, k, m) =>
          attach_handle k m handle mapped length (fun v =>
            let available := if offset <? file_size then file_size - offset else 0 in
            let mapping_size := v_end v - v_start v in
            set_backing v (Z.land (v_flags v) (not64 NPK_MAP_ANONYMOUS)) handle offset
              (if available <? mapping_size then available else mapping_size))
      end.

Definition vm_map_shared (k : K) (m : mm) (handle hint length protection flags offset : Z) : (Z + Z) * K * mm :=
  if negb (m_alive m) || (handle <? 0) || (length =? 0) || hasb flags NPK_MAP_ANONYMOUS ||
     negb (hasb flags NPK_MAP_SHARED) || hasb flags NPK_MAP_PRIVATE || bad_protection protection ||
     negb (Z.land offset (NPK_PAGE_SIZE - 1) =? 0) || negb (vo_vfs_is_shared_memory k handle) then (inl VM_EINVAL, k, m)
  else
    let page_count := vo_vfs_shm_page_count k handle in
    if (page_count =? 0) || (offset >? UINT64_MAX - length) || (offset + length >? page_count * NPK_PAGE_SIZE) then (inl VM_EINVAL, k, m)
    else
      match vm_map_anonymous k m hint length protection (Z.lor flags NPK_MAP_ANONYMOUS) with
      | (inl e, k, m) => (inl e, k, m)
      | (inr mapped, k, m) =>
          attach_handle k m handle mapped length (fun v =>
            set_backing v (Z.lor (Z.land (v_flags v) (not64 NPK_MAP_ANONYMOUS)) NPK_MAP_SHARED_OBJECT) handle offset
              (v_end v - v_start v))
      end.

Definition vm_map_device (k : K) (m : mm) (hint physical length protection flags : Z) : (Z + Z) * K * mm :=
  if negb (m_alive m) || (length =? 0) || hasb flags NPK_MAP_ANONYMOUS || negb (hasb flags NPK_MAP_SHARED) ||
     hasb flags NPK_MAP_PRIVATE || hasb protection (not64 7) || hasb protection NPK_PROT_EXEC ||
     negb (Z.land physical (NPK_PAGE_SIZE - 1) =? 0) then (inl VM_EINVAL, k, m)
  else
    match page_align_up length with
    | None => (inl VM_EINVAL, k, m)
    | Some size =>
        if (size =? 0) || (physical >? UINT64_MAX - size) then (inl VM_EINVAL, k, m)
        else
          match vm_map_anonymous k m hint size protection (Z.lor flags NPK_MAP_ANONYMOUS) with
          | (inl e, k, m) => (inl e, k, m)
          | (inr mapped, k, m) =>
              match update_vma (m_vmas m) mapped (fun v =>
                      set_backing v (Z.lor (Z.land (v_flags v) (not64 NPK_MAP_ANONYMOUS)) NPK_MAP_DEVICE)
                        (v_backing_handle v) (v_backing_offset v) (v_backing_size v)) with
              | None => let '(_, k, m) := vm_unmap k m mapped size in (inl VM_EINVAL, k, m)
              | Some l =>
                  let m := set_vmas m l in
                  match for_break (fun i k =>
                          let offset := i * NPK_PAGE_SIZE in
                          match vo_map_page_root k (m_root m) (mapped + offset) (physical + offset)
                                  (Z.lor (page_flags_for protection) VM_DEVICE) with
                          | (true, k) => inl k
                          | (false, k) => inr k
                          end) 0 (Z.to_nat (size / NPK_PAGE_SIZE)) k with
                  | inl k => (inr mapped, k, m)
                  | inr k => let '(_, k, m) := vm_unmap k m mapped size in (inl VM_ENOMEM, k, m)
                  end
              end
          end
    end.

Definition vm_reserve_range (k : K) (m : mm) (start length protection flags : Z) : Z * K * mm :=
  if negb (m_alive m) || (start <? NPK_USER_MIN) || negb (Z.land start (NPK_PAGE_SIZE - 1) =? 0) || (length =? 0) then (VM_EINVAL, k, m)
  else
    match page_align_up length with
    | None => (VM_EINVAL, k, m)
    | Some size =>
        if (size =? 0) || add_overflow start size || (u64 (start + size) >? NPK_USER_MAX) || bad_protection protection ||
           overlaps (m_vmas m) start (u64 (start + size)) then (VM_EINVAL, k, m)
        else
          let '(node, k) := vo_kmalloc k VMA_SIZE in
          if node =? 0 then (VM_ENOMEM, k, m)
          else (0, k, set_vmas m (Vma start (start + size) protection flags (-1) 0 0 node :: m_vmas m))
    end.

Definition vm_reserve_heap (k : K) (m : mm) (start limit : Z) : Z * K * mm :=
  if negb (m_alive m) || (start >=? limit) || (match find_heap_vma m with Some _ => true | None => false end) then (VM_EINVAL, k, m)
  else
    let '(result, k, m) := vm_reserve_range k m start (limit - start) (Z.lor NPK_PROT_READ NPK_PROT_WRITE)
                             (Z.lor (Z.lor NPK_MAP_PRIVATE NPK_MAP_ANONYMOUS) NPK_MAP_HEAP) in
    if negb (result =? 0) then (result, k, m) else (0, k, set_brk m start start).

Definition vm_resize_heap (k : K) (m : mm) (new_end : Z) : Z * K * mm :=
  match find_heap_vma m with
  | None => (VM_EINVAL, k, m)
  | Some heap =>
      if negb (m_alive m) || negb (Z.land new_end (NPK_PAGE_SIZE - 1) =? 0) || (new_end <? v_start heap) || (new_end >? v_end heap)
      then (VM_EINVAL, k, m)
      else
        let k := if new_end <? m_brk_end m then unmap_pages k (m_root m) new_end (m_brk_end m) else k in
        (0, k, set_brk m (m_brk_start m) new_end)
  end.

Definition split_vma_at (k : K) (m : mm) (point : Z) : bool * K * mm :=
  match split_first (fun v => negb ((point <=? v_start v) || (point >=? v_end v))) (m_vmas m) with
  | None => (true, k, m)
  | Some (l1, v, l2) =>
      let '(node, k) := vo_kmalloc k VMA_SIZE in
      if node =? 0 then (false, k, m)
      else if v_backing_handle v >=? 0 then
        let '(rc, k) := vo_vfs_retain k (v_backing_handle v) in
        if negb (rc =? 0) then (false, vo_kfree k node, m)
        else
          let delta := point - v_start v in
          let right := with_bounds v point (v_end v) (u64 (v_backing_offset v + delta))
                         (if delta <? v_backing_size v then v_backing_size v - delta else 0) node in
          let left := with_bounds v (v_start v) point (v_backing_offset v)
                        (if delta <? v_backing_size v then delta else v_backing_size v) (v_node v) in
          (true, k, set_vmas m (l1 ++ left :: right :: l2))
      else
        let right := with_bounds v point (v_end v) (v_backing_offset v) (v_backing_size v) node in
        let left := with_bounds v (v_start v) point (v_backing_offset v) (v_backing_size v) (v_node v) in
        (true, k, set_vmas m (l1 ++ left :: right :: l2))
  end.

(** One round of the coverage check of [vm_protect]; [inr] leaves the loop. *)
Definition protect_walk_step (l : list npk_vma) (end_ cursor : Z) : Z + bool :=
  if negb (cursor <? end_) then inr true
  else
    match find_vma l cursor with
    | None => inr false
    | Some v =>
        if v_end v <=? cursor then inr false
        else if hasb (v_flags v) NPK_MAP_HEAP then inr false
        else inl (if v_end v <? end_ then v_end v else end_)
    end.

(** Each round leaves an area for good, so the list bounds the rounds. *)
Definition protect_walk (l : list npk_vma) (address end_ : Z) : bool :=
  match loop_nat (length l + 2) (protect_walk_step l end_) address with
  | inr b => b
  | inl _ => false
  end.

Definition set_protection (protection : Z) (v : npk_vma) : npk_vma :=
  Vma (v_start v) (v_end v) protection (v_flags v) (v_backing_handle v) (v_backing_offset v) (v_backing_size v) (v_node v).

Definition vm_protect (k : K) (m : mm) (address length protection : Z) : Z * K * mm :=
  if negb (m_alive m) || negb (Z.land address (NPK_PAGE_SIZE - 1) =? 0) || (length =? 0) || bad_protection protection then (VM_EINVAL, k, m)
  else
    match page_align_up length with
    | None => (VM_EINVAL, k, m)
    | Some size =>
        if add_overflow address size || (address <? NPK_USER_MIN) || (u64 (address + size) >? NPK_USER_MAX) then (VM_EINVAL, k, m)
        else
          let end_ := address + size in
          if negb (protect_walk (m_vmas m) address end_) then (VM_EINVAL, k, m)
          else
            let '(ok, k, m) := split_vma_at k m address in
            if negb ok then (VM_ENOMEM, k, m)
            else
              let '(ok, k, m) := split_vma_at k m end_ in
              if negb ok then (VM_ENOMEM, k, m)
              else
                let m := set_vmas m (map (fun v => if (v_start v <? address) || (v_end v >? end_) then v else set_protection protection v)
                                         (m_vmas m)) in
                let flags := page_flags_for protection in
                match for_break (fun i k =>
                        let page := address + i * NPK_PAGE_SIZE in
                        if negb (vo_lookup_root k (m_root m) page VM_USER =? 0) then
                          match vo_protect_page_root k (m_root m) page flags with
                          | (true, k) => inl k
                          | (false, k) => inr k
                          end
                        else inl k) 0 (Z.to_nat (size / NPK_PAGE_SIZE)) k with
                | inl k => (0, k, m)
                | inr k => (VM_EINVAL, k, m)
                end
    end.

(** The saved [next] pointers make the loop visit the nodes of the list as it
    was; unmapping a whole area removes only that node. *)
Definition vm_revoke_device_mappings (k : K) (m : mm) : K * mm :=
  fold_left (fun '(k, m) v =>
    if hasb (v_flags v) NPK_MAP_DEVICE then
      let '(_, k, m) := vm_unmap k m (v_start v) (v_end v - v_start v) in (k, m)
    else (k, m)) (m_vmas m) (k, m).

Definition vm_range_owned (m : mm) (address length protection : Z) : bool :=
  if negb (vmm_is_user_range address length) || add_overflow address length then false
  else
    let end_ := address + length in
    existsb (fun v => (address >=? v_start v) && (end_ <=? v_end v) && (Z.land (v_protection v) protection =? protection)) (m_vmas m).

Definition vm_destroy_all (k : K) (m : mm) : K * mm :=
  (fold_left (fun k v =>
     let k := if v_backing_handle v >=? 0 then vo_vfs_close k (v_backing_handle v) else k in
     vo_kfree k (v_node v)) (m_vmas m) k, set_vmas m []).

Definition set_node (v : npk_vma) (node : Z) : npk_vma :=
  Vma (v_start v) (v_end v) (v_protection v) (v_flags v) (v_backing_handle v) (v_backing_offset v) (v_backing_size v) node.

(** The copies made so far are the child's list; a failure releases them. *)
Fixpoint clone_vmas (k : K) (source : list npk_vma) (child : mm) : bool * K * mm :=
  match source with
  | [] => (true, k, child)
  | v :: source' =>
      if hasb (v_flags v) NPK_MAP_DEVICE then clone_vmas k source' child
      else
        let '(node, k) := vo_kmalloc k VMA_SIZE in
        if node =? 0 then let '(k, child) := vm_destroy_all k child in (false, k, child)
        else
          let copy := set_node v node in
          if v_backing_handle copy >=? 0 then
            let '(rc, k) := vo_vfs_retain k (v_backing_handle copy) in
            if negb (rc =? 0) then
              let k := vo_kfree k node in
              let '(k, child) := vm_destroy_all k child in (false, k, child)
            else clone_vmas k source' (set_vmas child (m_vmas child ++ [copy]))
          else clone_vmas k source' (set_vmas child (m_vmas child ++ [copy]))
  end.

Definition vm_clone_metadata (k : K) (parent child : mm) : bool * K * mm :=
  clone_vmas k (m_vmas parent) (set_vmas child []).

(** ** Materialising pages *)

Definition map_zero_page (k : K) (m : mm) (page protection : Z) : bool * K :=
  if (m_root m =? 0) || negb (vmm_is_user_range page NPK_PAGE_SIZE) then (false, k)
  else
    let flags := page_flags_for protection in
    let flags := if negb (hasb protection NPK_PROT_WRITE) then Z.land flags (not64 VM_WRITE) else flags in
    let '(physical, k) := vo_alloc_page k in
    if physical =? 0 then (false, k)
    else
      let '(ok, k) := vo_map_page_root k (m_root m) page physical flags in
      if negb ok then (false, vo_free_page k physical) else (true, vo_zero_page k physical).

Definition map_file_page (k : K) (m : mm) (v : npk_vma) (page : Z) : bool * K :=
  if (v_backing_handle v <? 0) || (page <? v_start v) || (page >=? v_end v) || negb (vmm_is_user_range page NPK_PAGE_SIZE) then (false, k)
  else
    let '(physical, k) := vo_alloc_page k in
    if physical =? 0 then (false, k)
    else
      let k := vo_zero_page k physical in
      let delta := page - v_start v in
      let '(ok, k) :=
        if delta <? v_backing_size v then
          let amount := v_backing_size v - delta in
          let amount := if amount >? NPK_PAGE_SIZE then NPK_PAGE_SIZE else amount in
          let file_offset := u64 (v_backing_offset v + delta) in
          let '(copied, k) := vo_vfs_read_at k (v_backing_handle v) physical amount file_offset in
          (copied =? amount, k)
        else (true, k) in
      if negb ok then (false, vo_free_page k physical)
      else
        let '(ok, k) := vo_map_page_root k (m_root m) page physical (page_flags_for (v_protection v)) in
        if negb ok then (false, vo_free_page k physical) else (true, k).

Definition map_shared_page (k : K) (m : mm) (v : npk_vma) (page : Z) : bool * K :=
  if (v_backing_handle v <? 0) || (page <? v_start v) || (page >=? v_end v) || negb (vmm_is_user_range page NPK_PAGE_SIZE) then (false, k)
  else
    let delta := page - v_start v in
    if delta >=? v_backing_size v then (false, k)
    else
      let page_index := u64 (v_backing_offset v + delta) / NPK_PAGE_SIZE in
      let physical := vo_vfs_shm_page k (v_backing_handle v) page_index in
      if physical =? 0 then (false, k)
      else
        let k := vo_retain_page k physical in
        let '(ok, k) := vo_map_page_root k (m_root m) page physical (Z.lor (page_flags_for (v_protection v)) VM_SHARED) in
        if negb ok then (false, vo_free_page k physical) else (true, k).

Definition stack_page_allowed (m : mm) (page user_rsp : Z) (from_kernel : bool) : bool :=
  if (m_stack_top m =? 0) || (m_stack_limit m =? 0) then false
  else if (page <? m_stack_limit m) || (page >=? m_stack_top m) then false
  else if page >=? m_stack_bottom m then true
  else if from_kernel then true
  else if (user_rsp <? m_stack_limit m) || (user_rsp >? m_stack_top m) then false
  else
    let rsp_page := Z.land user_rsp (not64 (NPK_PAGE_SIZE - 1)) in
    u64 (page + NPK_PAGE_SIZE) >=? rsp_page.

(** Map one page of the area (or of the stack) and record the stack growth. *)
Definition materialise (k : K) (m : mm) (vma : option npk_vma) (page protection : Z) (stack : bool) : bool * K * mm :=
  let '(mapped, k) :=
    match vma with
    | Some v =>
        if hasb (v_flags v) NPK_MAP_SHARED_OBJECT then map_shared_page k m v page
        else if v_backing_handle v >=? 0 then map_file_page k m v page
        else map_zero_page k m page protection
    | None => map_zero_page k m page protection
    end in
  if negb mapped then (false, k, m)
  else (true, k, if stack && (page <? m_stack_bottom m) then set_stack_bottom m page else m).

Definition PROT_ANY : Z := Z.lor (Z.lor NPK_PROT_READ NPK_PROT_WRITE) NPK_PROT_EXEC.

(** [vma && (vma->flags & NPK_MAP_HEAP) && address >= brk_end]. *)
Definition beyond_brk (m : mm) (vma : option npk_vma) (address : Z) : bool :=
  match vma with
  | Some v => hasb (v_flags v) NPK_MAP_HEAP && (address >=? m_brk_end m)
  | None => false
  end.

Definition vm_ensure_user_page (k : K) (m : mm) (address : Z) (write : bool) : bool * K * mm :=
  if negb (m_alive m) || negb (vmm_is_user_range address 1) then (false, k, m)
  else
    let page := Z.land address (not64 (NPK_PAGE_SIZE - 1)) in
    let required := Z.lor VM_USER (if write then VM_WRITE else 0) in
    if negb (vo_lookup_root k (m_root m) address required =? 0) then (true, k, m)
    else
      let vma := find_vma (m_vmas m) address in
      let protection := match vma with Some v => v_protection v | None => 0 end in
      let stack := stack_page_allowed m page 0 true in
      if beyond_brk m vma address then (false, k, m)
      else if (match vma with None => true | Some _ => false end) && negb stack then (false, k, m)
      else if write && negb (hasb protection NPK_PROT_WRITE) && negb stack then (false, k, m)
      else if negb write && negb (hasb protection PROT_ANY) && negb stack then (false, k, m)
      else
        let protection := if stack then Z.lor NPK_PROT_READ NPK_PROT_WRITE else protection in
        materialise k m vma page protection stack.

Definition vm_handle_page_fault (k : K) (m : mm) (fault_address error_code user_rsp : Z) : bool * K * mm :=
  if negb (m_alive m) || negb (vmm_is_user_range fault_address 1) then (false, k, m)
  else
    let write := hasb error_code 2 in
    if hasb error_code 1 then
      if negb write then (false, k, m)
      else let '(ok, k) := vo_resolve_cow_fault k (m_root m) fault_address in (ok, k, m)
    else
      let instruction := hasb error_code 16 in
      let page := Z.land fault_address (not64 (NPK_PAGE_SIZE - 1)) in
      if instruction || negb (vmm_is_user_range page NPK_PAGE_SIZE) then (false, k, m)
      else
        let vma := find_vma (m_vmas m) fault_address in
        let stack := stack_page_allowed m page user_rsp false in
        if beyond_brk m vma fault_address then (false, k, m)
        else if (match vma with None => true | Some _ => false end) && negb stack then (false, k, m)
        else
          let protection := if stack then Z.lor NPK_PROT_READ NPK_PROT_WRITE
                            else match vma with Some v => v_protection v | None => 0 end in
          if write && negb (hasb protection NPK_PROT_WRITE) then (false, k, m)
          else if negb write && negb (hasb protection PROT_ANY) then (false, k, m)
          else materialise k m vma page protection stack.
End Model.

(** ** Specification

    Areas are page aligned, non-empty, inside the user range, never writable
    and executable at once, and pairwise disjoint. *)

Record vma_ok (v : npk_vma) : Prop := {
  vo_aligned : v_start v mod 4096 = 0 /\ v_end v mod 4096 = 0;
  vo_range : NPK_USER_MIN <= v_start v /\ v_start v < v_end v /\ v_end v <= NPK_USER_MAX;
  vo_wx : bad_protection (v_protection v) = false
}.

Definition apart (v w : npk_vma) : Prop := v_end v <= v_start w \/ v_end w <= v_start v.

Fixpoint all_apart (l : list npk_vma) : Prop :=
  match l with [] => True | v :: l' => (forall w, w ∈ l' -> apart v w) /\ all_apart l' end.

Definition vmas_ok (l : list npk_vma) : Prop := Forall vma_ok l /\ all_apart l.

Definition mm_ok (m : mm) : Prop := vmas_ok (m_vmas m) /\ m_mmap_cursor m mod 4096 = 0 /\ in_u64 (m_mmap_cursor m).

(** What an address belongs to: protection, flags, handle, and for a file
    mapping the file position and whether the file has data there. *)
Record area := Area { a_protection : Z; a_flags : Z; a_handle : Z; a_file : option (Z * bool) }.

Definition view_of (v : npk_vma) (a : Z) : area :=
  Area (v_protection v) (v_flags v) (v_backing_handle v)
    (if v_backing_handle v >=? 0
     then Some (u64 (v_backing_offset v + (a - v_start v)), a - v_start v <? v_backing_size v) else None).

Definition vm_view (l : list npk_vma) (a : Z) : option area := (fun v => view_of v a) <$> find_vma l a.

(** ** Lemmas on area lists *)

Lemma split_first_Some {A} (p : A -> bool) l l1 x l2 :
  split_first p l = Some (l1, x, l2) -> l = l1 ++ x :: l2 /\ p x = true /\ forall y, y ∈ l1 -> p y = false.
Proof.
  revert l1; induction l as [|y l IH]; intros l1 E; simpl in E; [done|].
  destruct (p y) eqn:Ey; [injection E as <- <- <-; split; [done|]; split; [done|]; set_solver|].
  destruct (split_first p l) as [[[l1' x'] l2']|]; [|done]. injection E as <- -> ->.
  destruct (IH l1' eq_refl) as (-> & Hx & Hl). split; [done|]. split; [done|].
  intros z Hz. apply elem_of_cons in Hz as [->|Hz]; [done|by apply Hl].
Qed.

Lemma split_first_None {A} (p : A -> bool) l : split_first p l = None -> forall y, y ∈ l -> p y = false.
Proof.
  induction l as [|y l IH]; intros E z Hz; [set_solver|]. simpl in E. destruct (p y) eqn:Ey; [done|].
  destruct (split_first p l) as [[[? ?] ?]|]; [done|]. apply elem_of_cons in Hz as [->|Hz]; [done|by apply IH].
Qed.

Lemma all_apart_app l1 l2 :
  all_apart (l1 ++ l2) <-> all_apart l1 /\ all_apart l2 /\ forall v w, v ∈ l1 -> w ∈ l2 -> apart v w.
Proof.
  induction l1 as [|x l1 IH]; simpl.
  - split; [intros; split; [done|]; split; [done|]; set_solver|tauto].
  - rewrite IH. split.
    + intros (Hx & H1 & H2 & H3). repeat split; try done.
      * intros w Hw. apply Hx. set_solver.
      * intros v w Hv Hw. apply elem_of_cons in Hv as [->|Hv]; [apply Hx; set_solver|by apply H3].
    + intros ((Hx & H1) & H2 & H3). split; [|split; [done|split; [done|]]].
      * intros w Hw. apply elem_of_app in Hw as [Hw|Hw]; [by apply Hx|apply H3; set_solver].
      * intros v w Hv Hw. apply H3; set_solver.
Qed.

Definition within (v w : npk_vma) : Prop := v_start v <= v_start w /\ v_end w <= v_end v.

Lemma apart_within v w x : within v w -> apart v x -> apart w x.
Proof. unfold within, apart. lia. Qed.

Lemma apart_sym v w : apart v w -> apart w v.
Proof. unfold apart. lia. Qed.

(** Replacing an area by areas inside of it. *)
Lemma vmas_replace l1 v l2 vs :
  vmas_ok (l1 ++ v :: l2) -> vmas_ok vs -> Forall (within v) vs -> vmas_ok (l1 ++ vs ++ l2).
Proof.
  intros [Hf Ha] [Hvf Hva] Hw. rewrite Forall_app, Forall_cons in Hf. destruct Hf as (F1 & Fv & F2).
  apply all_apart_app in Ha as (A1 & A2 & A3). simpl in A2. destruct A2 as [Av A2]. rewrite Forall_forall in Hw. split.
  - rewrite !Forall_app. done.
  - apply all_apart_app. split; [done|]. split.
    + apply all_apart_app. split; [done|]. split; [done|]. intros x y Hx Hy. apply (apart_within v); [by apply Hw|by apply Av].
    + intros x y Hx Hy. apply elem_of_app in Hy as [Hy|Hy]; [|apply A3; set_solver].
      apply apart_sym, (apart_within v); [by apply Hw|]. apply apart_sym, A3; set_solver.
Qed.

Lemma vmas_ok_nil : vmas_ok [].
Proof. split; [constructor|done]. Qed.

Lemma vmas_ok_one v : vma_ok v -> vmas_ok [v].
Proof. intros. split; [by rewrite !Forall_cons, Forall_nil|]. split; [set_solver|done]. Qed.

Lemma vmas_ok_two v w : vma_ok v -> vma_ok w -> apart v w -> vmas_ok [v; w].
Proof. intros. split; [by rewrite !Forall_cons, Forall_nil|]. split; [|split; [set_solver|done]]. intros x Hx. apply list_elem_of_singleton in Hx as ->. done. Qed.

Lemma vmas_mid l1 v l2 : vmas_ok (l1 ++ v :: l2) -> vma_ok v.
Proof. intros [Hf _]. rewrite Forall_app, Forall_cons in Hf. tauto. Qed.

Lemma overlaps_false l s e : overlaps l s e = false -> forall v, v ∈ l -> e <= v_start v \/ v_end v <= s.
Proof.
  unfold overlaps. intros H v Hv. destruct (decide (e <= v_start v \/ v_end v <= s)) as [|Hn]; [done|]. exfalso.
  assert (existsb (fun v => (s <? v_end v) && (e >? v_start v)) l = true); [|congruence].
  apply existsb_exists. exists v. split; [by apply list_elem_of_In|]. lia.
Qed.

Lemma overlaps_true l s e : overlaps l s e = true -> exists v, v ∈ l /\ s < v_end v /\ v_start v < e.
Proof. unfold overlaps. intros H. apply existsb_exists in H as (v & Hv & E). exists v. split; [by apply list_elem_of_In|]. lia. Qed.

(** ** Lemmas on the view *)

Lemma find_vma_app l1 l2 a : find_vma (l1 ++ l2) a = match find_vma l1 a with Some v => Some v | None => find_vma l2 a end.
Proof. induction l1 as [|v l1 IH]; simpl; [done|]. by destruct (covers a v). Qed.

Lemma vm_view_app l1 l2 a : vm_view (l1 ++ l2) a = match vm_view l1 a with Some x => Some x | None => vm_view l2 a end.
Proof. unfold vm_view. rewrite find_vma_app. by destruct (find_vma l1 a). Qed.

Lemma vm_view_cons v l a : vm_view (v :: l) a = if covers a v then Some (view_of v a) else vm_view l a.
Proof. unfold vm_view, find_vma. simpl. by destruct (covers a v). Qed.

Lemma find_vma_None l a : (forall v, v ∈ l -> covers a v = false) -> find_vma l a = None.
Proof.
  induction l as [|v l IH]; simpl; intros Hl; [done|]. rewrite (Hl v) by set_solver. apply IH. intros; apply Hl; set_solver.
Qed.

(** Replacing an area by others changes the view only where they differ. *)
Lemma vm_view_replace l1 v l2 vs a (r : option area) :
  vmas_ok (l1 ++ v :: l2) -> (covers a v = true -> vm_view vs a = r) -> (covers a v = false -> vm_view vs a = None) ->
  vm_view (l1 ++ vs ++ l2) a =
  if covers a v then r else vm_view (l1 ++ v :: l2) a.
Proof.
  intros [_ Ha] H1 H2. apply all_apart_app in Ha as (A1 & A2 & A3). rewrite !vm_view_app, vm_view_cons.
  destruct (covers a v) eqn:E.
  - assert (N1 : vm_view l1 a = None).
    { unfold vm_view. rewrite find_vma_None; [done|]. intros w Hw. specialize (A3 w v Hw ltac:(set_solver)). unfold covers, apart in *. lia. }
    assert (N2 : vm_view l2 a = None).
    { unfold vm_view. rewrite find_vma_None; [done|]. intros w Hw. destruct A2 as [A2 _]. specialize (A2 w Hw). unfold covers, apart in *. lia. }
    rewrite N1, H1, N2 by done. by destruct r.
  - destruct (vm_view l1 a); [done|]. by rewrite H2.
Qed.

(** ** Splitting an area *)

Definition left_part (v : npk_vma) (p : Z) : npk_vma :=
  let d := p - v_start v in
  with_bounds v (v_start v) p (v_backing_offset v)
    (if v_backing_handle v >=? 0 then if d <? v_backing_size v then d else v_backing_size v else v_backing_size v) (v_node v).

Definition right_part (v : npk_vma) (p node : Z) : npk_vma :=
  let d := p - v_start v in
  if v_backing_handle v >=? 0
  then with_bounds v p (v_end v) (u64 (v_backing_offset v + d)) (if d <? v_backing_size v then v_backing_size v - d else 0) node
  else with_bounds v p (v_end v) (v_backing_offset v) (v_backing_size v) node.

Lemma right_part_bounds v p node : v_start (right_part v p node) = p /\ v_end (right_part v p node) = v_end v /\
  v_protection (right_part v p node) = v_protection v.
Proof. unfold right_part. by destruct (_ >=? 0). Qed.

Lemma left_part_view v p a : a < p -> view_of (left_part v p) a = view_of v a.
Proof.
  intros Ha. unfold view_of, left_part; simpl. destruct (v_backing_handle v >=? 0); [|done].
  do 3 f_equal. destruct (_ <? v_backing_size v) eqn:E; lia.
Qed.

Lemma right_part_view v p node a : p <= a -> view_of (right_part v p node) a = view_of v a.
Proof.
  intros Ha. unfold view_of, right_part. destruct (v_backing_handle v >=? 0) eqn:E; simpl; rewrite E; [|done].
  do 2 f_equal. apply (f_equal2 pair).
  - unfold u64. rewrite Zplus_mod_idemp_l. f_equal. lia.
  - destruct (_ <? v_backing_size v) eqn:E'; lia.
Qed.

Lemma left_part_ok v p : vma_ok v -> v_start v < p <= v_end v -> p mod 4096 = 0 -> vma_ok (left_part v p).
Proof. intros [[H1 H2] H3 H4] Hp Hm. split; simpl; [done|lia|done]. Qed.

Lemma right_part_ok v p node : vma_ok v -> v_start v <= p < v_end v -> p mod 4096 = 0 -> vma_ok (right_part v p node).
Proof.
  intros [[H1 H2] H3 H4] Hp Hm. destruct (right_part_bounds v p node) as (E1 & E2 & E3). split; rewrite ?E1, ?E2, ?E3; [done|lia|done].
Qed.

Lemma covers_left v p a : p <= v_end v -> covers a (left_part v p) = covers a v && (a <? p).
Proof. unfold covers. simpl. lia. Qed.

Lemma covers_right v p node a : v_start v <= p -> covers a (right_part v p node) = covers a v && (p <=? a).
Proof. unfold covers. destruct (right_part_bounds v p node) as (E1 & E2 & _). rewrite E1, E2. lia. Qed.

(** An area cut at [p] and [q]: what is left of it on both sides. *)
Lemma cut_view v p q node a :
  v_start v <= p -> p <= q -> q <= v_end v ->
  let vs := (if v_start v <? p then [left_part v p] else []) ++ (if q <? v_end v then [right_part v q node] else []) in
  vm_view vs a = if covers a v && negb ((p <=? a) && (a <? q)) then Some (view_of v a) else None.
Proof.
  intros Hp Hpq Hq vs. unfold vs. rewrite vm_view_app. destruct (v_start v <? p) eqn:E1, (q <? v_end v) eqn:E2;
    rewrite ?vm_view_cons, ?covers_left, ?covers_right by lia; change (vm_view [] a) with (@None area);
    destruct (covers a v) eqn:Ec; unfold covers in Ec; simpl; try done.
  - destruct (a <? p) eqn:E3; [rewrite left_part_view by lia; by replace (negb _) with true by lia|].
    destruct (q <=? a) eqn:E4; [rewrite right_part_view by lia; by replace (negb _) with true by lia|]. by replace (negb _) with false by lia.
  - destruct (a <? p) eqn:E3; [rewrite left_part_view by lia; by replace (negb _) with true by lia|]. by replace (negb _) with false by lia.
  - destruct (q <=? a) eqn:E4; [rewrite right_part_view by lia; by replace (negb _) with true by lia|]. by replace (negb _) with false by lia.
  - by replace (negb _) with false by lia.
Qed.

Lemma cut_ok v p q node :
  vma_ok v -> v_start v <= p -> p <= q -> q <= v_end v -> p mod 4096 = 0 -> q mod 4096 = 0 ->
  let vs := (if v_start v <? p then [left_part v p] else []) ++ (if q <? v_end v then [right_part v q node] else []) in
  vmas_ok vs /\ Forall (within v) vs.
Proof.
  intros Hv Hp Hpq Hq Hpm Hqm vs. unfold vs. destruct (right_part_bounds v q node) as (E1 & E2 & _).
  assert (Wl : within v (left_part v p)) by (unfold within; simpl; lia).
  assert (Wr : within v (right_part v q node)) by (unfold within; rewrite E1, E2; lia).
  destruct (v_start v <? p) eqn:Ep, (q <? v_end v) eqn:Eq; simpl.
  - split; [|by rewrite !Forall_cons, Forall_nil]. apply vmas_ok_two; [apply left_part_ok; [done|lia|done]|apply right_part_ok; [done|lia|done]|].
    unfold apart. rewrite E1. simpl. lia.
  - split; [apply vmas_ok_one, left_part_ok; [done|lia|done]|by rewrite !Forall_cons, Forall_nil].
  - split; [apply vmas_ok_one, right_part_ok; [done|lia|done]|by rewrite !Forall_cons, Forall_nil].
  - split; [apply vmas_ok_nil|done].
Qed.

Lemma page_align_up_spec n size :
  in_u64 n -> page_align_up n = Some size -> n <= size < n + 4096 /\ size mod 4096 = 0 /\ in_u64 size.
Proof.
  intros Hn. unfold page_align_up, UINT64_MAX, NPK_PAGE_SIZE, in_u64 in *. destruct (_ >? _) eqn:E; [done|]. zbool.
  intros X. injection X as <-. change (4096 - 1) with (NPK_PAGE_SIZE - 1). rewrite land_page_mask by lia. mlia.
Qed.

Lemma page_align_spec n : in_u64 n -> page_align n = n - n mod 4096.
Proof. intros [? ?]. unfold page_align. by rewrite land_page_mask. Qed.

Section Ops.
Context {K : Type} `{VmOps K}.

Ltac cif_true := match goal with |- context [if ?b then _ else _] => replace b with true by lia end.
Ltac cif_false := match goal with |- context [if ?b then _ else _] => replace b with false by lia end.

(** What is left of the area that contains the unmapped range. *)
Definition cut (v : npk_vma) (p q node : Z) : list npk_vma :=
  (if v_start v <? p then [left_part v p] else []) ++ (if q <? v_end v then [right_part v q node] else []).

Lemma vm_unmap_cases (k k' : K) m m' address length rc :
  in_u64 address -> in_u64 length -> vm_unmap k m address length = (rc, k', m') ->
  (rc <> 0 /\ m' = m) \/
  (rc = 0 /\ exists l1 v l2 size node, m_vmas m = l1 ++ v :: l2 /\ page_align_up length = Some size /\
     address mod 4096 = 0 /\ v_start v <= address /\ address + size <= v_end v /\
     m' = set_vmas m (l1 ++ cut v address (address + size) node ++ l2)).
Proof.
  intros Ha Hl. unfold vm_unmap. rewrite land_page_offset.
  destruct (negb (m_alive m) || _ || _) eqn:G; [intros X; injection X as <- <- <-; by left|].
  destruct (page_align_up length) as [size|] eqn:Es; [|intros X; injection X as <- <- <-; by left].
  destruct (page_align_up_spec _ _ Hl Es) as (Hs1 & Hs2 & _).
  destruct (add_overflow address size); [intros X; injection X as <- <- <-; by left|].
  destruct (split_first _ (m_vmas m)) as [[[l1 v] l2]|] eqn:Esp; [|intros X; injection X as <- <- <-; by left].
  apply split_first_Some in Esp as (El & Hv & _). destruct (hasb (v_flags v) _); [intros X; injection X as <- <- <-; by left|]. zbool.
  assert (Hcut : forall node mid, mid = cut v address (address + size) node ++ l2 ->
    (0 <> 0 /\ set_vmas m (l1 ++ mid) = m) \/ (0 = 0 /\ exists l1' v' l2' size' node', m_vmas m = l1' ++ v' :: l2' /\
     Some size = Some size' /\ address mod 4096 = 0 /\ v_start v' <= address /\ address + size' <= v_end v' /\
     set_vmas m (l1 ++ mid) = set_vmas m (l1' ++ cut v' address (address + size') node' ++ l2'))).
  { intros node mid ->. right. split; [done|]. exists l1, v, l2, size, node. repeat split; try done; lia. }
  destruct ((address >? _) && _) eqn:E1; zbool.
  { destruct (vo_kmalloc k VMA_SIZE) as [node k1]. destruct (node =? 0); [intros X; injection X as <- <- <-; by left|].
    destruct (v_backing_handle v >=? 0) eqn:Eh.
    - destruct (vo_vfs_retain k1 _) as [r k2]. destruct (negb _); intros X; injection X as <- <- <-; [by left|].
      apply (Hcut node). unfold cut, left_part, right_part. rewrite Eh. do 2 cif_true. done.
    - intros X; injection X as <- <- <-. apply (Hcut node). unfold cut, left_part, right_part. rewrite Eh. do 2 cif_true. done. }
  destruct ((address =? _) && _) eqn:E2; zbool.
  { intros X; injection X as <- <- <-. apply (Hcut 0). unfold cut. do 2 cif_false. done. }
  destruct (address =? _) eqn:E3; zbool.
  { intros X; injection X as <- <- <-. apply (Hcut (v_node v)). unfold cut, right_part. cif_false. cif_true. simpl. by destruct (_ >=? 0). }
  destruct (_ =? v_end v) eqn:E4; zbool; [|intros X; injection X as <- <- <-; by left].
  intros X; injection X as <- <- <-. apply (Hcut 0). unfold cut, left_part. cif_true. cif_false. simpl. by destruct (_ >=? 0).
Qed.

Lemma vm_unmap_ok (k k' : K) m m' address length rc :
  in_u64 address -> in_u64 length -> mm_ok m -> vm_unmap k m address length = (rc, k', m') -> mm_ok m'.
Proof.
  intros Ha Hl (Hv & Hc) E. destruct (vm_unmap_cases _ _ _ _ _ _ _ Ha Hl E) as [[_ ->]|(_ & l1 & v & l2 & size & node & El & Es & Hm & H1 & H2 & ->)]; [by split|].
  destruct (page_align_up_spec _ _ Hl Es) as (Hs1 & Hs2 & _). split; [|done]. simpl. rewrite El in Hv.
  destruct (cut_ok v address (address + size) node) as [O1 O2]; [by apply (vmas_mid l1 v l2)|done|unfold in_u64 in *; lia|done|done|mlia|].
  by apply (vmas_replace l1 v l2).
Qed.

(** C9: A successful [vm_unmap] removes exactly the addresses of the range from
    the areas of the process: every other address keeps its protection, flags,
    handle and file position, even when the area around the range is split or
    trimmed.  A failing call leaves the areas alone. *)
Theorem vm_unmap_view (k k' : K) m m' address length rc :
  in_u64 address -> in_u64 length -> mm_ok m -> vm_unmap k m address length = (rc, k', m') ->
  if rc =? 0 then
    exists size, page_align_up length = Some size /\
    forall a, vm_view (m_vmas m') a = if (address <=? a) && (a <? address + size) then None else vm_view (m_vmas m) a
  else m' = m.
Proof.
  intros Ha Hl (Hv & Hc) E. destruct (vm_unmap_cases _ _ _ _ _ _ _ Ha Hl E) as [[Hrc ->]|(-> & l1 & v & l2 & size & node & El & Es & Hm & H1 & H2 & ->)].
  { by replace (rc =? 0) with false by lia. }
  exists size. split; [done|]. intros a. destruct (page_align_up_spec _ _ Hl Es) as (Hs1 & Hs2 & [? _]). simpl. rewrite El in *.
  rewrite (vm_view_replace l1 v l2 _ a (if (address <=? a) && (a <? address + size) then None else Some (view_of v a))); [|done|..].
  - destruct (covers a v) eqn:Ec; [destruct (_ && _) eqn:Er; [done|]|].
    + destruct Hv as [_ Hap]. apply all_apart_app in Hap as (_ & _ & Hap). rewrite vm_view_app, vm_view_cons, Ec.
      unfold vm_view at 1. rewrite find_vma_None; [done|]. intros w Hw. specialize (Hap w v Hw ltac:(set_solver)). unfold covers, apart in *. lia.
    + destruct (_ && _) eqn:Er; [|done]. unfold covers in Ec. lia.
  - intros Ec. unfold cut. rewrite cut_view by lia. rewrite Ec, andb_true_l. by destruct ((address <=? a) && _).
  - intros Ec. unfold cut. rewrite cut_view by lia. by rewrite Ec.
Qed.

(** ** The address search *)

(** Address [c] can hold an area of [size] bytes in the mmap window. *)
Definition slot_free (l : list npk_vma) (size c : Z) : Prop :=
  c + size <= VM_USER_MMAP_LIMIT /\ overlaps l c (c + size) = false.

Lemma search_step_spec l size c :
  VM_USER_MMAP_BASE <= c < 18446744073709551616 -> 0 <= size <= VM_USER_MMAP_LIMIT ->
  match mmap_search_step l size c with
  | inl c' => c' = c + NPK_PAGE_SIZE /\ c' < VM_USER_MMAP_LIMIT /\ ~ slot_free l size c
  | inr (Some r) => r = c /\ slot_free l size c
  | inr None => ~ slot_free l size c /\ VM_USER_MMAP_LIMIT <= c + NPK_PAGE_SIZE
  end.
Proof.
  intros Hc Hs. unfold mmap_search_step, add_overflow, slot_free, UINT64_MAX, NPK_PAGE_SIZE, VM_USER_MMAP_BASE, VM_USER_MMAP_LIMIT in *.
  destruct (decide (c + size < 18446744073709551616)) as [Hlt|Hge].
  - rewrite !(u64_small (c + size)) by lia. destruct (overlaps l c (c + size)) eqn:Eo.
    + rewrite orb_true_r. destruct (decide (c + 4096 < 18446744073709551616)).
      * rewrite u64_small by lia. cif E; zbool; [|split; [lia|]; split; [lia|intros [_ ?]; congruence]].
        split; [intros [_ ?]; congruence|]. apply orb_true_iff in E as [?|?]; zbool; lia.
      * assert (u64 (c + 4096) < 4096) by (unfold u64; mlia). cif_true. split; [intros [_ ?]; congruence|lia].
    + rewrite orb_false_r. cif E.
      * assert (35184372088832 * 2 < c + size) by (apply orb_true_iff in E as [?|?]; zbool; lia).
        destruct (decide (c + 4096 < 18446744073709551616)).
        -- rewrite u64_small by lia. cif E2; zbool; [|split; [lia|]; split; [lia|intros [? _]; lia]].
           split; [intros [? _]; lia|]. apply orb_true_iff in E2 as [?|?]; zbool; lia.
        -- assert (u64 (c + 4096) < 4096) by (unfold u64; mlia). cif_true. split; [intros [? _]; lia|lia].
      * zbool. split; [done|]. split; [lia|done].
  - cif_true. destruct (decide (c + 4096 < 18446744073709551616)).
    + rewrite u64_small by lia. cif E2; zbool; [|split; [lia|]; split; [lia|intros [? _]; lia]].
      split; [intros [? _]; lia|]. lia.
    + assert (u64 (c + 4096) < 4096) by (unfold u64; mlia). cif_true. split; [intros [? _]; lia|lia].
Qed.

(** The search ends, and finds the first page-aligned candidate that is free. *)
Lemma mmap_search_spec l size start :
  VM_USER_MMAP_BASE <= start < 18446744073709551616 -> 0 <= size <= VM_USER_MMAP_LIMIT ->
  match mmap_search l size start with
  | Some r => start <= r /\ (r - start) mod 4096 = 0 /\ slot_free l size r /\
              forall c, start <= c < r -> (c - start) mod 4096 = 0 -> ~ slot_free l size c
  | None => forall c, start <= c < VM_USER_MMAP_LIMIT -> (c - start) mod 4096 = 0 -> ~ slot_free l size c
  end.
Proof.
  intros Hst Hs. unfold mmap_search. rewrite loop_pos_nat.
  set (I := fun c => VM_USER_MMAP_BASE <= c < 18446744073709551616 /\ start <= c /\ (c - start) mod 4096 = 0 /\
    forall d, start <= d < c -> (d - start) mod 4096 = 0 -> ~ slot_free l size d).
  assert (I0 : I start) by (repeat split; try lia; by replace (start - start) with 0 by lia).
  assert (Istep : forall t t', I t -> mmap_search_step l size t = inl t' -> I t' /\ t' = t + 4096 /\ t' < VM_USER_MMAP_LIMIT).
  { intros t t' (H1 & H2 & H3 & H4) E. pose proof (search_step_spec l size t H1 Hs) as Hsp. rewrite E in Hsp.
    unfold NPK_PAGE_SIZE in Hsp. destruct Hsp as (-> & Hlt & Hno). split; [|done].
    unfold VM_USER_MMAP_BASE, VM_USER_MMAP_LIMIT in *. repeat split; try lia; [mlia|].
    intros d Hd Hdm. destruct (decide (d = t)) as [->|]; [done|]. apply H4; [|done]. mlia. }
  destruct (loop_nat_terminates (mmap_search_step l size) (fun t => Z.max 0 ((VM_USER_MMAP_LIMIT - t) / 4096)) I
    (Pos.to_nat MMAP_ROUNDS) start I0) as [r Er].
  - intros t t' Ht E. destruct (Istep t t' Ht E) as (Ht' & -> & Hlt). split; [done|].
    unfold VM_USER_MMAP_LIMIT in *. mlia.
  - rewrite positive_nat_Z. unfold VM_USER_MMAP_LIMIT, VM_USER_MMAP_BASE, MMAP_ROUNDS in *. mlia.
  - lia.
  - pose proof (loop_nat_inv (mmap_search_step l size) I (fun r => exists t, I t /\ mmap_search_step l size t = inr r)
      (Pos.to_nat MMAP_ROUNDS) start I0) as Hinv. rewrite Er in Hinv |- *.
    destruct Hinv as (t & (H1 & H2 & H3 & H4) & Et); [intros t t' Ht E; by apply (Istep t t')|intros t x Ht E; eauto|].
    pose proof (search_step_spec l size t H1 Hs) as Hsp. rewrite Et in Hsp. clear Er Et. destruct r as [r|].
    + destruct Hsp as [-> Hfree]. repeat split; try done; apply Hfree.
    + destruct Hsp as [Hno Hle]. intros c Hc Hcm. destruct (decide (c < t)); [apply H4; [lia|done]|].
      destruct (decide (c = t)) as [->|]; [done|]. unfold NPK_PAGE_SIZE in Hle. mlia.
Qed.

(** Where the search of a mapping without MAP_FIXED starts. *)
Definition mmap_start (m : mm) (hint : Z) : Z :=
  let start := if negb (hint =? 0) then page_align hint
               else if negb (m_mmap_cursor m =? 0) then m_mmap_cursor m else VM_USER_MMAP_BASE in
  if start <? VM_USER_MMAP_BASE then VM_USER_MMAP_BASE else start.

Lemma mmap_start_spec m hint :
  mm_ok m -> in_u64 hint -> VM_USER_MMAP_BASE <= mmap_start m hint < 18446744073709551616 /\ mmap_start m hint mod 4096 = 0.
Proof.
  intros (_ & Hc & Hc') Hh. unfold mmap_start. rewrite page_align_spec by done. unfold in_u64, VM_USER_MMAP_BASE in *.
  destruct (negb (hint =? 0)), (negb (m_mmap_cursor m =? 0)); cif E; zbool; split; mlia.
Qed.

(** The area a successful anonymous mapping adds. *)
Definition new_area (start size protection flags node : Z) : npk_vma := Vma start (start + size) protection flags (-1) 0 0 node.

Lemma vm_map_anonymous_cases (k k' : K) m m' hint length protection flags r :
  mm_ok m -> in_u64 hint -> in_u64 length -> vm_map_anonymous k m hint length protection flags = (r, k', m') ->
  (exists e, r = inl e /\ m' = m) \/
  exists start size node, r = inr start /\ page_align_up length = Some size /\ 0 < size <= VM_USER_MMAP_LIMIT /\ start mod 4096 = 0 /\
    NPK_USER_MIN <= start /\ start + size <= NPK_USER_MAX /\ overlaps (m_vmas m) start (start + size) = false /\
    bad_protection protection = false /\
    (hasb flags NPK_MAP_FIXED = false -> mmap_search (m_vmas m) size (mmap_start m hint) = Some start) /\
    (hasb flags NPK_MAP_FIXED = true -> start = hint) /\
    m' = set_cursor (set_vmas m (new_area start size protection flags node :: m_vmas m)) (start + size + NPK_PAGE_SIZE).
Proof.
  intros Hm Hh Hl. unfold vm_map_anonymous.
  destruct (_ || bad_protection protection) eqn:G; [intros X; injection X as <- <- <-; left; eauto|].
  apply orb_false_iff in G as [G Hbp]. zbool.
  destruct (page_align_up length) as [size|] eqn:Es; [|intros X; injection X as <- <- <-; left; eauto].
  destruct (page_align_up_spec _ _ Hl Es) as (Hs1 & Hs2 & Hs3).
  destruct ((size =? 0) || _) eqn:G2; [intros X; injection X as <- <- <-; left; eauto|]. zbool.
  fold (mmap_start m hint). destruct (mmap_start_spec m hint Hm Hh) as [M1 M2].
  assert (Hfin : forall start, start mod 4096 = 0 -> in_u64 start ->
     (hasb flags NPK_MAP_FIXED = false -> mmap_search (m_vmas m) size (mmap_start m hint) = Some start) ->
     (hasb flags NPK_MAP_FIXED = true -> start = hint) ->
     (if (start <? NPK_USER_MIN) || add_overflow start size || (u64 (start + size) >? NPK_USER_MAX) || overlaps (m_vmas m) start (u64 (start + size))
      then (inl VM_EEXIST, k, m) else
      let '(node, k) := vo_kmalloc k VMA_SIZE in
      if node =? 0 then (inl VM_ENOMEM, k, m) else
      let v := Vma start (u64 (start + size)) protection flags (-1) 0 0 node in
      (inr start, k, set_cursor (set_vmas m (v :: m_vmas m)) (u64 (v_end v + NPK_PAGE_SIZE)))) = (r, k', m') ->
     (exists e, r = inl e /\ m' = m) \/
     exists start0 size0 node, r = inr start0 /\ Some size = Some size0 /\ 0 < size0 <= VM_USER_MMAP_LIMIT /\ start0 mod 4096 = 0 /\
       NPK_USER_MIN <= start0 /\ start0 + size0 <= NPK_USER_MAX /\ overlaps (m_vmas m) start0 (start0 + size0) = false /\
       bad_protection protection = false /\
       (hasb flags NPK_MAP_FIXED = false -> mmap_search (m_vmas m) size0 (mmap_start m hint) = Some start0) /\
       (hasb flags NPK_MAP_FIXED = true -> start0 = hint) /\
       m' = set_cursor (set_vmas m (new_area start0 size0 protection flags node :: m_vmas m)) (start0 + size0 + NPK_PAGE_SIZE)).
  { intros start Hal Hst Hsr Hfx. destruct (_ || overlaps _ _ _) eqn:G3; [intros X; injection X as <- <- <-; left; eauto|].
    destruct (vo_kmalloc k VMA_SIZE) as [node k1]. destruct (node =? 0); [intros X; injection X as <- <- <-; left; eauto|].
    apply orb_false_iff in G3 as [G3 Hov]. unfold add_overflow, UINT64_MAX, NPK_USER_MIN, NPK_USER_MAX, in_u64, NPK_PAGE_SIZE in *. zbool.
    rewrite (u64_small (start + size)) in * by lia. cbn [v_end]. rewrite (u64_small (start + size + 4096)) by lia.
    intros X. injection X as <- <- <-. right. exists start, size, node. unfold VM_USER_MMAP_LIMIT, VM_USER_MMAP_BASE in *. repeat split; try done; lia. }
  destruct (hasb flags NPK_MAP_FIXED) eqn:Ef.
  - rewrite land_page_offset. destruct (negb _) eqn:G4; [intros X; injection X as <- <- <-; left; eauto|]. zbool.
    apply (Hfin hint); done.
  - pose proof (mmap_search_spec (m_vmas m) size (mmap_start m hint) M1) as Hsp.
    destruct (mmap_search _ _ _) as [start|] eqn:Esr; [|intros X; injection X as <- <- <-; left; eauto].
    destruct Hsp as (S1 & S2 & S3 & _); [unfold in_u64, VM_USER_MMAP_BASE, VM_USER_MMAP_LIMIT in *; lia|].
    apply (Hfin start); [mlia| |done|done]. destruct S3 as [S3 _]. unfold in_u64, VM_USER_MMAP_BASE, VM_USER_MMAP_LIMIT in *. lia.
Qed.

Lemma vmas_ok_add l v : vmas_ok l -> vma_ok v -> overlaps l (v_start v) (v_end v) = false -> vmas_ok (v :: l).
Proof.
  intros [Hf Ha] Hv Ho. split; [by constructor|]. split; [|done]. intros w Hw.
  destruct (overlaps_false _ _ _ Ho w Hw); unfold apart; lia.
Qed.

Lemma new_area_ok start size protection flags node :
  0 < size -> start mod 4096 = 0 -> size mod 4096 = 0 -> NPK_USER_MIN <= start -> start + size <= NPK_USER_MAX ->
  bad_protection protection = false -> vma_ok (new_area start size protection flags node).
Proof. intros. split; simpl; [split; [done|mlia]|lia|done]. Qed.

Lemma vm_map_anonymous_ok (k k' : K) m m' hint length protection flags r :
  mm_ok m -> in_u64 hint -> in_u64 length -> vm_map_anonymous k m hint length protection flags = (r, k', m') -> mm_ok m'.
Proof.
  intros Hm Hh Hl E.
  destruct (vm_map_anonymous_cases _ _ _ _ _ _ _ _ _ Hm Hh Hl E) as [(e & _ & ->)|(start & size & node & _ & Es & H1 & H2 & H3 & H4 & H5 & H6 & _ & _ & ->)]; [done|].
  destruct (page_align_up_spec _ _ Hl Es) as (_ & Hs2 & _). destruct Hm as [Hm _]. split; [|split].
  - apply vmas_ok_add; [done|by apply new_area_ok; try lia|done].
  - simpl. unfold NPK_PAGE_SIZE. mlia.
  - simpl. unfold NPK_USER_MIN, NPK_USER_MAX, NPK_PAGE_SIZE, in_u64 in *. lia.
Qed.


(** ** Changing the protection *)

Lemma find_vma_Some l a v : find_vma l a = Some v -> v ∈ l /\ covers a v = true.
Proof. intros E. apply find_some in E as [E1 E2]. split; [by apply list_elem_of_In|done]. Qed.

Lemma find_vma_unique l a v : vmas_ok l -> v ∈ l -> covers a v = true -> find_vma l a = Some v.
Proof.
  intros Hl Hv Hc. apply list_elem_of_split in Hv as (l1 & l2 & ->). destruct Hl as [_ Ha].
  apply all_apart_app in Ha as (_ & _ & Ha). rewrite find_vma_app, find_vma_None.
  - unfold find_vma. simpl. by rewrite Hc.
  - intros w Hw. specialize (Ha w v Hw ltac:(set_solver)). unfold covers, apart in *. lia.
Qed.

(** Areas that end after [c]. *)
Fixpoint areas_after (l : list npk_vma) (c : Z) : Z :=
  match l with [] => 0 | v :: l' => (if c <? v_end v then 1 else 0) + areas_after l' c end.

Lemma areas_after_bound l c : 0 <= areas_after l c <= Z.of_nat (length l).
Proof. induction l; simpl; [lia|]. destruct (_ <? _); lia. Qed.

Lemma areas_after_le l c c' : c <= c' -> areas_after l c' <= areas_after l c.
Proof. intros. induction l as [|v l IH]; simpl; [lia|]. destruct (c <? v_end v) eqn:E1, (c' <? v_end v) eqn:E2; lia. Qed.

Lemma areas_after_lt l c c' v : v ∈ l -> c < v_end v <= c' -> areas_after l c' < areas_after l c.
Proof.
  intros Hv Hc. apply list_elem_of_split in Hv as (l1 & l2 & ->). induction l1 as [|w l1 IH]; simpl.
  - pose proof (areas_after_le l2 c c' ltac:(lia)). destruct (c <? v_end v) eqn:E1, (c' <? v_end v) eqn:E2; lia.
  - destruct (c <? v_end w) eqn:E1, (c' <? v_end w) eqn:E2; lia.
Qed.

(** [a] lies in an area that is not the heap. *)
Definition in_plain_area (l : list npk_vma) (a : Z) : Prop :=
  exists v, find_vma l a = Some v /\ hasb (v_flags v) NPK_MAP_HEAP = false.

(** The coverage check decides that the whole range lies in areas other than
    the heap; the length of the list is enough rounds. *)
Lemma protect_walk_spec l address end_ :
  vmas_ok l -> (protect_walk l address end_ = true <-> forall a, address <= a < end_ -> in_plain_area l a).
Proof.
  intros Hl. unfold protect_walk. set (n := (length l + 2)%nat).
  set (I := fun c => address <= c /\ forall a, address <= a < c -> a < end_ -> in_plain_area l a).
  set (mu := fun c => if c <? end_ then 1 + areas_after l c else 0).
  assert (Hstep : forall c c', I c -> protect_walk_step l end_ c = inl c' -> I c' /\ 0 <= mu c' < mu c).
  { intros c c' [Hac Hc]. unfold protect_walk_step. cif E1; [done|]. zbool. destruct (find_vma l c) as [v|] eqn:Ef; [|done].
    destruct (v_end v <=? c) eqn:E2; [done|]. destruct (hasb _ _) eqn:E3; [done|].
    destruct (find_vma_Some _ _ _ Ef) as [Hv Hcv]. intros X. injection X as <-. split.
    - split; [destruct (_ <? end_); lia|]. intros a Ha Hlt. destruct (decide (a < c)); [apply Hc; lia|]. exists v. split; [|done].
      apply find_vma_unique; [done|done|]. unfold covers in *. destruct (_ <? end_) eqn:?; lia.
    - unfold mu. replace (c <? end_) with true by lia. pose proof (areas_after_bound l c).
      destruct (v_end v <? end_) eqn:E4; [|replace (end_ <? end_) with false by lia; lia].
      rewrite E4. pose proof (areas_after_lt l c (v_end v) v Hv ltac:(lia)). pose proof (areas_after_bound l (v_end v)). lia. }
  assert (I0 : I address) by (split; [lia|]; intros a; lia).
  destruct (loop_nat_terminates (protect_walk_step l end_) mu I n address I0 Hstep) as [r Er];
    [pose proof (areas_after_bound l address); unfold mu, n; destruct (_ <? _); lia| |].
  { unfold mu. pose proof (areas_after_bound l address). destruct (_ <? _); lia. }
  pose proof (loop_nat_inv (protect_walk_step l end_) I (fun r => r = true <-> forall a, address <= a < end_ -> in_plain_area l a)
    n address I0) as Hinv. rewrite Er in Hinv |- *. clear Er. apply Hinv; [intros c c' Hc E; by apply (Hstep c c')|].
  intros c b [Hac Hc]. unfold protect_walk_step. cif E1; zbool.
  { intros X. injection X as <-. split; [|done]. intros _ a Ha. apply Hc; lia. }
  assert (Hneg : ~ in_plain_area l c -> (false = true <-> forall a, address <= a < end_ -> in_plain_area l a)).
  { intros Hn. split; [done|]. intros Hall. exfalso. apply Hn, Hall. lia. }
  destruct (find_vma l c) as [v|] eqn:Ef; [|intros X; injection X as <-; apply Hneg; intros (v & Hv & _); congruence].
  destruct (find_vma_Some _ _ _ Ef) as [_ Hcv]. unfold covers in Hcv. cif E2; [lia|].
  destruct (hasb _ _) eqn:E3; [|done]. intros X; injection X as <-. apply Hneg. intros (w & Hw & Hf). congruence.
Qed.

(** No area has [p] strictly inside. *)
Definition uncut (l : list npk_vma) (p : Z) : Prop := forall v, v ∈ l -> p <= v_start v \/ v_end v <= p.

Lemma vm_view_cut_same l1 v l2 p node a :
  vmas_ok (l1 ++ v :: l2) -> v_start v < p < v_end v ->
  vm_view (l1 ++ left_part v p :: right_part v p node :: l2) a = vm_view (l1 ++ v :: l2) a.
Proof.
  intros Hok Hp. change (left_part v p :: right_part v p node :: l2) with ([left_part v p; right_part v p node] ++ l2).
  rewrite (vm_view_replace l1 v l2 _ a (Some (view_of v a))); [|done|..].
  - destruct (covers a v) eqn:Ec; [|done]. unfold vm_view. rewrite (find_vma_unique _ a v); [done|done|set_solver|done].
  - intros Ec. rewrite !vm_view_cons, covers_left, covers_right, Ec by lia. simpl. destruct (a <? p) eqn:E; [by rewrite left_part_view by lia|].
    replace (p <=? a) with true by lia. by rewrite right_part_view by lia.
  - intros Ec. rewrite !vm_view_cons, covers_left, covers_right, Ec by lia. done.
Qed.

Lemma split_vma_at_spec (k k' : K) m m' point ok :
  vmas_ok (m_vmas m) -> point mod 4096 = 0 -> split_vma_at k m point = (ok, k', m') ->
  exists l', m' = set_vmas m l' /\ vmas_ok l' /\ (forall a, vm_view l' a = vm_view (m_vmas m) a) /\
    (ok = true -> uncut l' point) /\ (forall q, uncut (m_vmas m) q -> uncut l' q).
Proof.
  intros Hok Hp. unfold split_vma_at. destruct (split_first _ _) as [[[l1 v] l2]|] eqn:Esp.
  2: { intros X; injection X as <- <- <-. exists (m_vmas m). split; [by destruct m|]. split; [done|]. split; [done|]. split; [|done].
       intros _ w Hw. pose proof (split_first_None _ _ Esp w Hw). simpl in *. lia. }
  apply split_first_Some in Esp as (El & Hv & _). zbool.
  assert (Hsame : forall k', (false, k, m) = (ok, k', m') -> exists l', m' = set_vmas m l' /\ vmas_ok l' /\ (forall a, vm_view l' a = vm_view (m_vmas m) a) /\
    (ok = true -> uncut l' point) /\ (forall q, uncut (m_vmas m) q -> uncut l' q)).
  { intros k1 X; injection X as <- <- <-. exists (m_vmas m). by destruct m. }
  assert (Hcut : forall node, exists l', set_vmas m (l1 ++ left_part v point :: right_part v point node :: l2) = set_vmas m l' /\ vmas_ok l' /\
    (forall a, vm_view l' a = vm_view (m_vmas m) a) /\ (true = true -> uncut l' point) /\ (forall q, uncut (m_vmas m) q -> uncut l' q)).
  { intros node. eexists. split; [done|]. rewrite El in Hok |- *. destruct (right_part_bounds v point node) as (R1 & R2 & _).
    destruct (cut_ok v point point node) as [O1 O2]; [by apply (vmas_mid l1 v l2)|lia|lia|lia|done|done|].
    replace (v_start v <? point) with true in * by lia. replace (point <? v_end v) with true in * by lia. split; [|split; [|split]].
    - by apply (vmas_replace l1 v l2 [left_part v point; right_part v point node]).
    - intros a. apply vm_view_cut_same; [done|lia].
    - intros _ w Hw. destruct Hok as [_ Ha]. apply all_apart_app in Ha as (_ & [A1 _] & A3).
      rewrite elem_of_app, !elem_of_cons in Hw. destruct Hw as [Hw|[->|[->|Hw]]]; [|simpl; lia|lia|].
      + specialize (A3 w v Hw ltac:(set_solver)). unfold apart in A3. lia.
      + specialize (A1 w Hw). unfold apart in A1. lia.
    - intros q Hq w Hw. pose proof (Hq v ltac:(set_solver)). rewrite elem_of_app, !elem_of_cons in Hw.
      destruct Hw as [Hw|[->|[->|Hw]]]; [apply Hq; set_solver|simpl; lia|lia|apply Hq; set_solver]. }
  destruct (vo_kmalloc k VMA_SIZE) as [node k1]. destruct (node =? 0); [intros X; injection X as <- <- <-; by apply (Hsame k)|].
  specialize (Hcut node). unfold left_part, right_part in Hcut. destruct (v_backing_handle v >=? 0).
  - destruct (vo_vfs_retain k1 _) as [rc k2]. destruct (negb _); intros X; injection X as <- <- <-; [by apply (Hsame k)|done].
  - intros X; injection X as <- <- <-. done.
Qed.

(** ** Marking the areas of a range *)

Definition protect_areas (protection address end_ : Z) (l : list npk_vma) : list npk_vma :=
  map (fun v => if (v_start v <? address) || (v_end v >? end_) then v else set_protection protection v) l.

Definition with_protection (protection : Z) (x : area) : area := Area protection (a_flags x) (a_handle x) (a_file x).

Lemma protect_areas_ok protection address end_ l :
  bad_protection protection = false -> vmas_ok l -> vmas_ok (protect_areas protection address end_ l).
Proof.
  intros Hp [Hf Ha]. split.
  - unfold protect_areas. apply Forall_map. eapply Forall_impl; [exact Hf|]. intros v [H1 H2 H3]. cif E; by constructor.
  - clear Hf. induction l as [|v l IH]; simpl in *; [done|]. destruct Ha as [Hv Ha]. split; [|by apply IH].
    intros w Hw. apply list_elem_of_fmap in Hw as (w' & -> & Hw'). specialize (Hv w' Hw'). unfold apart in *.
    destruct ((v_start v <? _) || _), ((v_start w' <? _) || _); done.
Qed.

Lemma protect_areas_view protection address end_ l a :
  vmas_ok l -> uncut l address -> uncut l end_ ->
  vm_view (protect_areas protection address end_ l) a =
  if (address <=? a) && (a <? end_) then with_protection protection <$> vm_view l a else vm_view l a.
Proof.
  intros [Hf _] Hu1 Hu2. induction l as [|v l IH]; [by destruct (_ && _)|]. rewrite Forall_cons in Hf. destruct Hf as [Hv Hf].
  unfold protect_areas. simpl. rewrite !vm_view_cons. fold (protect_areas protection address end_ l).
  rewrite IH by (try done; intros w Hw; (apply Hu1 || apply Hu2); set_solver).
  pose proof (Hu1 v ltac:(set_solver)). pose proof (Hu2 v ltac:(set_solver)).
  destruct Hv as [_ Hr _]. assert (Hc : forall b : bool, covers a (if b then v else set_protection protection v) = covers a v) by (by intros []).
  rewrite Hc. destruct (covers a v) eqn:Ec; [|done]. unfold covers in Ec.
  destruct ((v_start v <? address) || _) eqn:E1, ((address <=? a) && _) eqn:E2; try done; zbool; exfalso; lia.
Qed.

Lemma vm_protect_cases (k k' : K) m m' address length protection rc :
  mm_ok m -> in_u64 length -> vm_protect k m address length protection = (rc, k', m') ->
  exists l', m' = set_vmas m l' /\ vmas_ok l' /\
  ((rc <> 0 /\ forall a, vm_view l' a = vm_view (m_vmas m) a) \/
   exists size, page_align_up length = Some size /\ bad_protection protection = false /\
     (forall a, address <= a < address + size -> in_plain_area (m_vmas m) a) /\
     forall a, vm_view l' a = if (address <=? a) && (a <? address + size)
                              then with_protection protection <$> vm_view (m_vmas m) a else vm_view (m_vmas m) a).
Proof.
  intros (Hok & _) Hl. unfold vm_protect.
  assert (Hno : forall e k1, e <> 0 -> (e, k1, m) = (rc, k', m') -> exists l', m' = set_vmas m l' /\ vmas_ok l' /\
    ((rc <> 0 /\ forall a, vm_view l' a = vm_view (m_vmas m) a) \/
     exists size, page_align_up length = Some size /\ bad_protection protection = false /\
     (forall a, address <= a < address + size -> in_plain_area (m_vmas m) a) /\
     forall a, vm_view l' a = if (address <=? a) && (a <? address + size)
                              then with_protection protection <$> vm_view (m_vmas m) a else vm_view (m_vmas m) a)).
  { intros e k1 He X; injection X as <- <- <-. exists (m_vmas m). split; [by destruct m|]. split; [done|]. by left. }
  destruct (_ || bad_protection protection) eqn:G; [by apply Hno|]. apply orb_false_iff in G as [G Hbp].
  destruct (page_align_up length) as [size|] eqn:Es; [|by apply Hno].
  destruct (page_align_up_spec _ _ Hl Es) as (Hs1 & Hs2 & Hs3). rewrite land_page_offset in G.
  destruct (add_overflow address size || _ || _); [by apply Hno|]. destruct (protect_walk _ _ _) eqn:Ew; [|by apply Hno].
  pose proof (proj1 (protect_walk_spec _ _ _ Hok) Ew) as Hcov. clear Ew Hno. cbn [negb].
  assert (Hal : address mod 4096 = 0) by lia. assert (Hae : (address + size) mod 4096 = 0) by mlia.
  destruct (split_vma_at k m address) as [[ok1 k1] m1] eqn:E1.
  destruct (split_vma_at_spec _ _ _ _ _ _ Hok Hal E1) as (l1 & -> & O1 & V1 & U1 & _). destruct ok1; simpl.
  2: { intros X; injection X as <- <- <-. exists l1. split; [done|]. split; [done|]. by left. }
  destruct (split_vma_at k1 (set_vmas m l1) (address + size)) as [[ok2 k2] m2] eqn:E2.
  destruct (split_vma_at_spec k1 k2 (set_vmas m l1) m2 _ _ O1 Hae E2) as (l2 & -> & O2 & V2 & U2 & U3). destruct ok2; simpl.
  2: { intros X; injection X as <- <- <-. exists l2. split; [by destruct m|]. split; [done|]. left. split; [done|]. intros a. by rewrite V2, V1. }
  fold (protect_areas protection address (address + size) l2).
  assert (Hfin : exists l', set_vmas (set_vmas (set_vmas m l1) l2) (protect_areas protection address (address + size) l2) = set_vmas m l' /\
    vmas_ok l' /\ (forall a, vm_view l' a = if (address <=? a) && (a <? address + size)
                              then with_protection protection <$> vm_view (m_vmas m) a else vm_view (m_vmas m) a)).
  { eexists. split; [by destruct m|]. split; [by apply protect_areas_ok|]. intros a. rewrite protect_areas_view; [|done|by apply U3, U1|by apply U2].
    by rewrite V2, V1. }
  destruct Hfin as (l' & -> & O3 & V3). intros X. exists l'.
  split; [destruct (for_break _ _ _ _); by injection X as <- <- <-|]. split; [done|]. right. by exists size.
Qed.

Lemma vm_protect_ok (k k' : K) m m' address length protection rc :
  mm_ok m -> in_u64 length -> vm_protect k m address length protection = (rc, k', m') -> mm_ok m'.
Proof.
  intros Hm Hl E. destruct (vm_protect_cases _ _ _ _ _ _ _ _ Hm Hl E) as (l' & -> & Hl' & _). by split; [|apply Hm].
Qed.

(** C33: A successful [vm_protect] gives every address of the range the new
    protection and changes nothing else of any area, in or out of the range;
    it succeeds only when the whole range is covered by areas other than the
    heap.  A failing call either leaves every address as it was, or has
    already marked the whole range. *)
Theorem vm_protect_view (k k' : K) m m' address length protection rc :
  mm_ok m -> in_u64 length -> vm_protect k m address length protection = (rc, k', m') ->
  let marked := exists size, page_align_up length = Some size /\
     (forall a, address <= a < address + size -> in_plain_area (m_vmas m) a) /\
     forall a, vm_view (m_vmas m') a = if (address <=? a) && (a <? address + size)
                              then with_protection protection <$> vm_view (m_vmas m) a else vm_view (m_vmas m) a in
  if rc =? 0 then marked else marked \/ forall a, vm_view (m_vmas m') a = vm_view (m_vmas m) a.
Proof.
  intros Hm Hl E marked. destruct (vm_protect_cases _ _ _ _ _ _ _ _ Hm Hl E) as (l' & -> & _ & [[Hrc Hv]|(size & H1 & H2 & H3 & H4)]).
  - replace (rc =? 0) with false by lia. by right.
  - assert marked by (by exists size). destruct (rc =? 0); [done|by left].
Qed.

(** ** The remaining operations keep the areas well formed *)

Lemma update_vma_ok l a f l' :
  (forall v, v_start (f v) = v_start v /\ v_end (f v) = v_end v /\ v_protection (f v) = v_protection v) ->
  vmas_ok l -> update_vma l a f = Some l' -> vmas_ok l'.
Proof.
  intros Hf Hl. unfold update_vma. destruct (split_first _ _) as [[[l1 v] l2]|] eqn:Esp; [|done].
  apply split_first_Some in Esp as (-> & _). intros X. injection X as <-. destruct (Hf v) as (F1 & F2 & F3).
  apply (vmas_replace l1 v l2 [f v]); [done| |].
  - apply vmas_ok_one. destruct (vmas_mid _ _ _ Hl) as [H1 H2 H3]. constructor; rewrite ?F1, ?F2, ?F3; done.
  - rewrite Forall_cons, Forall_nil. unfold within. lia.
Qed.

Lemma attach_handle_ok (k k' : K) m m' handle mapped length f r :
  (forall v, v_start (f v) = v_start v /\ v_end (f v) = v_end v /\ v_protection (f v) = v_protection v) ->
  in_u64 mapped -> in_u64 length -> mm_ok m -> attach_handle k m handle mapped length f = (r, k', m') -> mm_ok m'.
Proof.
  intros Hf Ha Hl Hm. unfold attach_handle. destruct (vo_vfs_retain k handle) as [rc k1]. destruct (negb _).
  - destruct (vm_unmap k1 m mapped length) as [[x k2] m2] eqn:Eu. intros X; injection X as <- <- <-. by apply (vm_unmap_ok _ _ _ _ _ _ _ Ha Hl Hm Eu).
  - destruct (update_vma _ _ _) as [l|] eqn:El.
    + intros X; injection X as <- <- <-. destruct Hm as [Hm Hc]. split; [by apply (update_vma_ok _ _ _ _ Hf Hm El)|done].
    + destruct (vm_unmap _ m mapped length) as [[x k2] m2] eqn:Eu. intros X; injection X as <- <- <-. by apply (vm_unmap_ok _ _ _ _ _ _ _ Ha Hl Hm Eu).
Qed.

Lemma vm_map_anonymous_range (k k' : K) m m' hint length protection flags r :
  mm_ok m -> in_u64 hint -> in_u64 length -> vm_map_anonymous k m hint length protection flags = (inr r, k', m') -> in_u64 r.
Proof.
  intros Hm Hh Hl E. destruct (vm_map_anonymous_cases _ _ _ _ _ _ _ _ _ Hm Hh Hl E) as [(e & ? & _)|(start & size & node & X & _ & H1 & _ & H3 & H4 & _)]; [done|].
  injection X as ->. unfold in_u64, NPK_USER_MIN, NPK_USER_MAX in *. lia.
Qed.

Lemma vm_map_file_ok (k k' : K) m m' handle hint length protection flags offset r :
  mm_ok m -> in_u64 hint -> in_u64 length ->
  vm_map_file k m handle hint length protection flags offset = (r, k', m') -> mm_ok m'.
Proof.
  intros Hm Hh Hl. unfold vm_map_file. cif E0; [intros X; by injection X as <- <- <-|].
  cif E1; [intros X; by injection X as <- <- <-|].
  destruct (vm_map_anonymous _ _ _ _ _ _) as [[[e|mapped] k1] m1] eqn:Em; pose proof (vm_map_anonymous_ok _ _ _ _ _ _ _ _ _ Hm Hh Hl Em).
  - intros X; by injection X as <- <- <-.
  - apply attach_handle_ok; [done|by apply (vm_map_anonymous_range _ _ _ _ _ _ _ _ _ Hm Hh Hl Em)|done|done].
Qed.

Lemma vm_map_shared_ok (k k' : K) m m' handle hint length protection flags offset r :
  mm_ok m -> in_u64 hint -> in_u64 length ->
  vm_map_shared k m handle hint length protection flags offset = (r, k', m') -> mm_ok m'.
Proof.
  intros Hm Hh Hl. unfold vm_map_shared. cif E0; [intros X; by injection X as <- <- <-|].
  cif E1; [intros X; by injection X as <- <- <-|].
  destruct (vm_map_anonymous _ _ _ _ _ _) as [[[e|mapped] k1] m1] eqn:Em; pose proof (vm_map_anonymous_ok _ _ _ _ _ _ _ _ _ Hm Hh Hl Em).
  - intros X; by injection X as <- <- <-.
  - apply attach_handle_ok; [done|by apply (vm_map_anonymous_range _ _ _ _ _ _ _ _ _ Hm Hh Hl Em)|done|done].
Qed.

Lemma vm_map_device_ok (k k' : K) m m' hint physical length protection flags r :
  mm_ok m -> in_u64 hint -> in_u64 length ->
  vm_map_device k m hint physical length protection flags = (r, k', m') -> mm_ok m'.
Proof.
  intros Hm Hh Hl. unfold vm_map_device. cif E0; [intros X; by injection X as <- <- <-|].
  destruct (page_align_up length) as [size|] eqn:Es; [|intros X; by injection X as <- <- <-].
  destruct (page_align_up_spec _ _ Hl Es) as (_ & _ & Hs). cif E1; [intros X; by injection X as <- <- <-|].
  destruct (vm_map_anonymous _ _ _ _ _ _) as [[[e|mapped] k1] m1] eqn:Em; pose proof (vm_map_anonymous_ok _ _ _ _ _ _ _ _ _ Hm Hh Hs Em) as Hm1.
  { intros X; by injection X as <- <- <-. }
  pose proof (vm_map_anonymous_range _ _ _ _ _ _ _ _ _ Hm Hh Hs Em) as Ha.
  assert (Hun : forall e k2 m2, mm_ok m2 -> (let '(_, k, m) := vm_unmap k2 m2 mapped size in (@inl Z Z e, k, m)) = (r, k', m') -> mm_ok m').
  { intros e k2 m2 Hm2. destruct (vm_unmap k2 m2 mapped size) as [[x k3] m3] eqn:Eu. intros X; injection X as <- <- <-.
    by apply (vm_unmap_ok _ _ _ _ _ _ _ Ha Hs Hm2 Eu). }
  destruct (update_vma _ _ _) as [l|] eqn:El; [|by apply Hun].
  assert (Hm2 : mm_ok (set_vmas m1 l)) by (destruct Hm1 as [Hv Hc]; split; [by eapply (update_vma_ok _ _ _ _ _ Hv El)|done]).
  destruct (for_break _ _ _ _); [intros X; by injection X as <- <- <-|by apply Hun].
  Unshelve. done.
Qed.

Lemma vm_reserve_range_ok (k k' : K) m m' start length protection flags rc :
  mm_ok m -> in_u64 start -> in_u64 length ->
  vm_reserve_range k m start length protection flags = (rc, k', m') -> mm_ok m'.
Proof.
  intros Hm Hst Hl. unfold vm_reserve_range. rewrite land_page_offset. cif E0; [intros X; by injection X as <- <- <-|].
  destruct (page_align_up length) as [size|] eqn:Es; [|intros X; by injection X as <- <- <-].
  destruct (page_align_up_spec _ _ Hl Es) as (Hs1 & Hs2 & Hs3). cif E1; [intros X; by injection X as <- <- <-|].
  destruct (vo_kmalloc k VMA_SIZE) as [node k1]. cif E2; [intros X; by injection X as <- <- <-|].
  intros X; injection X as <- <- <-. destruct Hm as [Hv Hc]. split; [|done].
  apply orb_false_iff in E1 as [E1 Eo]. apply orb_false_iff in E1 as [E1 Ep].
  unfold add_overflow, UINT64_MAX, NPK_USER_MIN, NPK_USER_MAX, in_u64 in *. zbool. rewrite u64_small in * by lia.
  apply vmas_ok_add; [done|apply (new_area_ok start size); unfold NPK_USER_MIN, NPK_USER_MAX; try done; lia|done].
Qed.

Lemma vm_reserve_heap_ok (k k' : K) m m' start limit rc :
  mm_ok m -> in_u64 start -> in_u64 limit -> vm_reserve_heap k m start limit = (rc, k', m') -> mm_ok m'.
Proof.
  intros Hm Hst Hl. unfold vm_reserve_heap. cif E0; [intros X; by injection X as <- <- <-|].
  apply orb_false_iff in E0 as [E0 _]. zbool.
  destruct (vm_reserve_range _ _ _ _ _ _) as [[x k1] m1] eqn:Er.
  assert (mm_ok m1) by (eapply vm_reserve_range_ok; [exact Hm|exact Hst| |exact Er]; unfold in_u64 in *; lia).
  cif E1; intros X; by injection X as <- <- <-.
Qed.

Lemma vm_resize_heap_areas (k k' : K) m m' new_end rc :
  vm_resize_heap k m new_end = (rc, k', m') -> m_vmas m' = m_vmas m /\ m_mmap_cursor m' = m_mmap_cursor m.
Proof.
  unfold vm_resize_heap. destruct (find_heap_vma m); [|intros X; by injection X as <- <- <-].
  cif E0; intros X; by injection X as <- <- <-.
Qed.

Lemma vm_revoke_ok (k k' : K) m m' : mm_ok m -> vm_revoke_device_mappings k m = (k', m') -> mm_ok m'.
Proof.
  intros Hm. unfold vm_revoke_device_mappings. pose proof (proj1 (proj1 Hm)) as Hf. revert Hf. generalize (m_vmas m) as l.
  intros l. revert k m Hm. induction l as [|v l IH]; intros k m Hm Hf; simpl; [intros X; by injection X as <- <-|].
  rewrite Forall_cons in Hf. destruct Hf as [[_ Hr _] Hf]. cif E; [|by apply IH].
  destruct (vm_unmap _ _ _ _) as [[x k1] m1] eqn:Eu. apply IH; [|done].
  eapply vm_unmap_ok; [| |exact Hm|exact Eu]; unfold in_u64, NPK_USER_MIN, NPK_USER_MAX in *; lia.
Qed.

Lemma vm_destroy_all_ok (k : K) m : mm_ok m -> mm_ok (vm_destroy_all k m).2.
Proof. intros [_ Hc]. split; [apply vmas_ok_nil|done]. Qed.

Lemma materialise_areas (k k' : K) m m' vma page protection stack ok :
  materialise k m vma page protection stack = (ok, k', m') -> m_vmas m' = m_vmas m /\ m_mmap_cursor m' = m_mmap_cursor m.
Proof.
  unfold materialise. destruct (match vma with Some _ => _ | None => _ end) as [mapped k1].
  cif E; [intros X; by injection X as <- <- <-|]. intros X; injection X as <- <- <-. by destruct (_ && _).
Qed.

Lemma vm_ensure_areas (k k' : K) m m' address write ok :
  vm_ensure_user_page k m address write = (ok, k', m') -> m_vmas m' = m_vmas m /\ m_mmap_cursor m' = m_mmap_cursor m.
Proof. unfold vm_ensure_user_page. repeat (cif E; [intros X; by injection X as <- <- <-|clear E]). apply materialise_areas. Qed.

Lemma vm_fault_areas (k k' : K) m m' address code rsp ok :
  vm_handle_page_fault k m address code rsp = (ok, k', m') -> m_vmas m' = m_vmas m /\ m_mmap_cursor m' = m_mmap_cursor m.
Proof.
  unfold vm_handle_page_fault. cif E; [intros X; by injection X as <- <- <-|clear E]. cif E.
  { cif E'; [intros X; by injection X as <- <- <-|]. destruct (vo_resolve_cow_fault _ _ _) as [b k1]. intros X; by injection X as <- <- <-. }
  clear E. repeat (cif E; [intros X; by injection X as <- <- <-|clear E]). apply materialise_areas.
Qed.
End Ops.
