(* ===== verification/VmRun.v ===== *)
(** * Sequences of area operations (src/src/memory/vm.c)

    The references that areas hold on file and shared-memory handles, the
    invariant of whole sequences of operations, file mappings and fork, and a
    small kernel on which every operation is run. *)

From Stdlib Require Import ZArith Lia Bool ZifyBool.
From stdpp Require Import base numbers list gmap.
From S2P Require Import Prelude Pmm Vmm Vm.

(** ** Handle references

    Each file or shared-object area owns one reference of its handle.  The
    laws say what retaining and closing do to the reference counts of the VFS
    and that nothing else vm.c calls touches them. *)

Class HandleLaws (K : Type) `{VmOps K} := {
  refs : K -> Z -> Z;
  refs_retain : forall k h h', refs (vo_vfs_retain k h).2 h' = refs k h' + (if ((vo_vfs_retain k h).1 =? 0) && (h =? h') then 1 else 0);
  refs_close : forall k h h', 0 < refs k h -> refs (vo_vfs_close k h) h' = refs k h' - (if h =? h' then 1 else 0);
  refs_kmalloc : forall k n h, refs (vo_kmalloc k n).2 h = refs k h;
  refs_kfree : forall k n h, refs (vo_kfree k n) h = refs k h;
  refs_alloc : forall k h, refs (vo_alloc_page k).2 h = refs k h;
  refs_free : forall k p h, refs (vo_free_page k p) h = refs k h;
  refs_retain_page : forall k p h, refs (vo_retain_page k p) h = refs k h;
  refs_zero : forall k p h, refs (vo_zero_page k p) h = refs k h;
  refs_map : forall k r v p f h, refs (vo_map_page_root k r v p f).2 h = refs k h;
  refs_unmap : forall k r v h, refs (vo_unmap_page_root k r v).2 h = refs k h;
  refs_protect : forall k r v f h, refs (vo_protect_page_root k r v f).2 h = refs k h;
  refs_cow : forall k r v h, refs (vo_resolve_cow_fault k r v).2 h = refs k h;
  refs_read : forall k f p n o h, refs (vo_vfs_read_at k f p n o).2 h = refs k h
}.

#[export] Hint Rewrite @refs_kmalloc @refs_kfree @refs_alloc @refs_free @refs_retain_page @refs_zero @refs_map @refs_unmap
  @refs_protect @refs_cow @refs_read using typeclasses eauto : refs.

Definition holds (h : Z) (v : npk_vma) : Z := if (v_backing_handle v >=? 0) && (v_backing_handle v =? h) then 1 else 0.

(** The areas of the list that hold a reference of [h]. *)
Fixpoint held (h : Z) (l : list npk_vma) : Z :=
  match l with [] => 0 | v :: l' => holds h v + held h l' end.

Section Handles.
Context {K : Type} `{HandleLaws K}.

(** The references are those of the areas and [base], those of other owners. *)
Definition balanced (base : Z -> Z) (k : K) (l : list npk_vma) : Prop :=
  forall h, 0 <= base h /\ refs k h = base h + held h l.

Lemma held_app h l1 l2 : held h (l1 ++ l2) = held h l1 + held h l2.
Proof. induction l1; simpl; lia. Qed.

Lemma held_nonneg h l : 0 <= held h l.
Proof. induction l as [|v l]; simpl; [lia|]. unfold holds. destruct (_ && _); lia. Qed.

Lemma refs_unmap_pages (k : K) root a e h : refs (unmap_pages k root a e) h = refs k h.
Proof.
  unfold unmap_pages. apply (for_range_inv (fun _ k' => refs k' h = refs k h)); [done|]. intros i k' _ E.
  destruct (vo_unmap_page_root _ _ _) as [p k2] eqn:Eu. pose proof (refs_unmap k' root (a + i * NPK_PAGE_SIZE) h) as X. rewrite Eu in X. simpl in X.
  destruct (negb _); rewrite ?refs_free; lia.
Qed.

Lemma balanced_close base (k : K) l1 v l2 :
  v_backing_handle v >= 0 -> balanced base k (l1 ++ v :: l2) -> balanced base (vo_vfs_close k (v_backing_handle v)) (l1 ++ l2).
Proof.
  intros Hh Hb h. destruct (Hb h) as [B1 B2]. destruct (Hb (v_backing_handle v)) as [B3 B4].
  rewrite held_app in *. simpl in *. pose proof (held_nonneg (v_backing_handle v) l1). pose proof (held_nonneg (v_backing_handle v) l2).
  unfold holds in *. split; [done|]. rewrite refs_close; [|destruct (_ && _) eqn:E in B4; lia].
  destruct (v_backing_handle v =? h) eqn:E; [|destruct (_ && _) eqn:E' in B2; lia].
  replace (_ && _) with true in B2 by lia. lia.
Qed.

Lemma balanced_frame base (k k' : K) l l' :
  (forall h, refs k' h = refs k h) -> (forall h, held h l' = held h l) -> balanced base k l -> balanced base k' l'.
Proof. intros Hk Hl Hb h. destruct (Hb h). rewrite Hk, Hl. done. Qed.

Lemma kmalloc_refs (k k' : K) n x : vo_kmalloc k n = (x, k') -> forall h, refs k' h = refs k h.
Proof. intros E h. pose proof (refs_kmalloc k n h) as X. by rewrite E in X. Qed.

Lemma retain_refs (k k' : K) f rc : vo_vfs_retain k f = (rc, k') -> forall h, refs k' h = refs k h + (if (rc =? 0) && (f =? h) then 1 else 0).
Proof. intros E h. pose proof (refs_retain k f h) as X. by rewrite E in X. Qed.

Lemma balanced_retain base (k k' : K) l1 l2 w handle :
  v_backing_handle w = handle -> handle >= 0 -> vo_vfs_retain k handle = (0, k') -> balanced base k (l1 ++ l2) -> balanced base k' (l1 ++ w :: l2).
Proof.
  intros Hw Hh E Hb h. destruct (Hb h) as [B1 B2]. rewrite (retain_refs _ _ _ _ E). rewrite held_app in *. simpl. unfold holds.
  rewrite Hw. replace (handle >=? 0) with true by lia. simpl. lia.
Qed.

Lemma retain_failed base (k k' : K) l handle rc :
  vo_vfs_retain k handle = (rc, k') -> rc <> 0 -> balanced base k l -> balanced base k' l.
Proof. intros E Hrc Hb h. destruct (Hb h). rewrite (retain_refs _ _ _ _ E). replace (rc =? 0) with false by lia. simpl. lia. Qed.

Lemma held_swap h l1 v w l2 : v_backing_handle w = v_backing_handle v -> held h (l1 ++ w :: l2) = held h (l1 ++ v :: l2).
Proof. intros E. rewrite !held_app. simpl. unfold holds. by rewrite E. Qed.

Lemma held_split_anon h l1 v w w' l2 :
  v_backing_handle w = v_backing_handle v -> v_backing_handle w' = v_backing_handle v -> v_backing_handle v < 0 ->
  held h (l1 ++ w :: w' :: l2) = held h (l1 ++ v :: l2).
Proof. intros E E' Hn. rewrite !held_app. simpl. unfold holds. rewrite E, E'. replace (v_backing_handle v >=? 0) with false by lia. simpl. lia. Qed.

Lemma vm_unmap_balanced base (k k' : K) m m' address length rc :
  vm_unmap k m address length = (rc, k', m') -> balanced base k (m_vmas m) -> balanced base k' (m_vmas m').
Proof.
  intros E Hb. revert E. unfold vm_unmap. cif G; [intros X; by injection X as <- <- <-|]. clear G.
  destruct (page_align_up length) as [size|]; [|intros X; by injection X as <- <- <-].
  cif G; [intros X; by injection X as <- <- <-|]. clear G.
  destruct (split_first _ _) as [[[l1 v] l2]|] eqn:Esp; [|intros X; by injection X as <- <- <-].
  apply split_first_Some in Esp as (El & _ & _). cif G; [intros X; by injection X as <- <- <-|]. clear G. rewrite El in Hb.
  assert (Hsw : forall (w : npk_vma) (k1 : K), v_backing_handle w = v_backing_handle v ->
    balanced base (unmap_pages k (m_root m) address (address + size)) (l1 ++ w :: l2)).
  { intros w k1 Hw. eapply balanced_frame; [| |exact Hb]; intros h; [apply refs_unmap_pages|by apply held_swap]. }
  cif G1; [|cif G2; [|cif G3; [|cif G4; [|intros X; injection X as <- <- <-; by rewrite El]]]].
  - destruct (vo_kmalloc k VMA_SIZE) as [node k1] eqn:Ek. pose proof (kmalloc_refs _ _ _ _ Ek) as Rk.
    assert (Hb1 : balanced base k1 (l1 ++ v :: l2)) by (by eapply balanced_frame; [| |exact Hb]).
    cif G; [intros X; injection X as <- <- <-; by rewrite El|]. destruct (v_backing_handle v >=? 0) eqn:Eh.
    + destruct (vo_vfs_retain _ _) as [r k2] eqn:Er. cif G'; intros X; injection X as <- <- <-; simpl.
      * rewrite El. eapply balanced_frame; [intros h; apply refs_kfree|done|]. eapply retain_failed; [exact Er|lia|done].
      * replace r with 0 in Er by lia. eapply balanced_frame; [intros h; apply refs_unmap_pages|done|].
        rewrite cons_middle, app_assoc. apply (balanced_retain base k1 k2 _ _ _ (v_backing_handle v)); [done|lia|exact Er|]. rewrite <- app_assoc. simpl.
        by eapply balanced_frame; [| |exact Hb1]; [|intros h; apply held_swap].
    + intros X; injection X as <- <- <-. simpl. eapply balanced_frame; [intros h; apply refs_unmap_pages| |exact Hb1].
      intros h. apply held_split_anon; [done|done|lia].
  - intros X; injection X as <- <- <-. simpl. eapply balanced_frame; [intros h; apply refs_kfree|done|]. cif Eh.
    + apply balanced_close; [lia|]. eapply balanced_frame; [intros h; apply refs_unmap_pages|done|done].
    + eapply balanced_frame; [intros h; apply refs_unmap_pages| |exact Hb]. intros h. rewrite !held_app. simpl. unfold holds. by rewrite Eh.
  - intros X; injection X as <- <- <-. apply (Hsw _ k). by destruct (_ >=? 0).
  - intros X; injection X as <- <- <-. apply (Hsw _ k). by destruct (_ >=? 0).
Qed.

Lemma vm_map_anonymous_balanced base (k k' : K) m m' hint length protection flags r :
  vm_map_anonymous k m hint length protection flags = (r, k', m') -> balanced base k (m_vmas m) -> balanced base k' (m_vmas m').
Proof.
  intros E Hb. revert E. unfold vm_map_anonymous. cif G; [intros X; by injection X as <- <- <-|].
  destruct (page_align_up length) as [size|]; [|intros X; by injection X as <- <- <-]. cif G1; [intros X; by injection X as <- <- <-|].
  match goal with |- context [match ?x with inl _ => _ | inr _ => _ end] => destruct x as [e|start] end; [intros X; by injection X as <- <- <-|].
  cif G2; [intros X; by injection X as <- <- <-|]. destruct (vo_kmalloc k VMA_SIZE) as [node k1] eqn:Ek.
  pose proof (kmalloc_refs _ _ _ _ Ek) as Rk. cif G3; intros X; injection X as <- <- <-; by eapply balanced_frame; [| |exact Hb].
Qed.

(** A successful reservation is the head of the list, where the file and
    shared-object mappings find it. *)
Lemma reservation_head (k k' : K) m m' hint length protection flags start :
  mm_ok m -> in_u64 hint -> in_u64 length -> vm_map_anonymous k m hint length protection flags = (inr start, k', m') ->
  exists size node, page_align_up length = Some size /\ 0 < size /\ m_vmas m' = new_area start size protection flags node :: m_vmas m.
Proof.
  intros Hm Hh Hl E. destruct (vm_map_anonymous_cases _ _ _ _ _ _ _ _ _ Hm Hh Hl E) as [(e & X & _)|(s & size & node & X & Es & Hs & _ & _ & _ & _ & _ & _ & _ & ->)]; [done|].
  injection X as ->. exists size, node. done || (split; [done|]; split; [lia|done]).
Qed.

Lemma update_vma_head v l a f : covers a v = true -> update_vma (v :: l) a f = Some (f v :: l).
Proof. intros Hc. unfold update_vma. simpl. by rewrite Hc. Qed.

Lemma attach_handle_balanced base (k k' : K) m m' v l handle mapped length f r :
  m_vmas m = v :: l -> covers mapped v = true -> v_backing_handle v < 0 -> v_backing_handle (f v) = handle -> handle >= 0 ->
  attach_handle k m handle mapped length f = (r, k', m') -> balanced base k (m_vmas m) -> balanced base k' (m_vmas m').
Proof.
  intros El Hc Hv Hf Hh E Hb. revert E. unfold attach_handle. destruct (vo_vfs_retain k handle) as [rc k1] eqn:Er. cif G.
  - destruct (vm_unmap _ _ _ _) as [[x k2] m2] eqn:Eu. intros X; injection X as <- <- <-.
    eapply vm_unmap_balanced; [exact Eu|]. eapply retain_failed; [exact Er|lia|done].
  - rewrite El, update_vma_head by done. intros X; injection X as <- <- <-. replace rc with 0 in Er by lia. simpl.
    apply (balanced_retain base k k1 [] l (f v) handle); [done|done|done|]. simpl. eapply balanced_frame; [done| |exact Hb].
    intros h. rewrite El. simpl. unfold holds. replace (v_backing_handle v >=? 0) with false by lia. done.
Qed.

Lemma vm_map_file_balanced base (k k' : K) m m' handle hint length protection flags offset r :
  mm_ok m -> in_u64 hint -> in_u64 length -> vm_map_file k m handle hint length protection flags offset = (r, k', m') ->
  balanced base k (m_vmas m) -> balanced base k' (m_vmas m').
Proof.
  intros Hm Hh Hl E Hb. revert E. unfold vm_map_file. cif G; [intros X; by injection X as <- <- <-|]. cif G1; [intros X; by injection X as <- <- <-|].
  destruct (vm_map_anonymous _ _ _ _ _ _) as [[[e|mapped] k1] m1] eqn:Em; pose proof (vm_map_anonymous_balanced _ _ _ _ _ _ _ _ _ _ Em Hb) as Hb1.
  - intros X; by injection X as <- <- <-.
  - destruct (reservation_head _ _ _ _ _ _ _ _ _ Hm Hh Hl Em) as (size & node & _ & Hs & El). intros E.
    eapply (attach_handle_balanced base k1 k' m1 m' _ _ _ _ _ _ _ El); [| | | |exact E|done]; [unfold covers; simpl; lia|done|done|lia].
Qed.

Lemma vm_map_shared_balanced base (k k' : K) m m' handle hint length protection flags offset r :
  mm_ok m -> in_u64 hint -> in_u64 length -> vm_map_shared k m handle hint length protection flags offset = (r, k', m') ->
  balanced base k (m_vmas m) -> balanced base k' (m_vmas m').
Proof.
  intros Hm Hh Hl E Hb. revert E. unfold vm_map_shared. cif G; [intros X; by injection X as <- <- <-|]. cif G1; [intros X; by injection X as <- <- <-|].
  destruct (vm_map_anonymous _ _ _ _ _ _) as [[[e|mapped] k1] m1] eqn:Em; pose proof (vm_map_anonymous_balanced _ _ _ _ _ _ _ _ _ _ Em Hb) as Hb1.
  - intros X; by injection X as <- <- <-.
  - destruct (reservation_head _ _ _ _ _ _ _ _ _ Hm Hh Hl Em) as (size & node & _ & Hs & El). intros E.
    eapply (attach_handle_balanced base k1 k' m1 m' _ _ _ _ _ _ _ El); [| | | |exact E|done]; [unfold covers; simpl; lia|done|done|lia].
Qed.

Lemma vm_map_device_balanced base (k k' : K) m m' hint physical length protection flags r :
  mm_ok m -> in_u64 hint -> in_u64 length -> vm_map_device k m hint physical length protection flags = (r, k', m') ->
  balanced base k (m_vmas m) -> balanced base k' (m_vmas m').
Proof.
  intros Hm Hh Hl E Hb. revert E. unfold vm_map_device. cif G; [intros X; by injection X as <- <- <-|].
  destruct (page_align_up length) as [size|] eqn:Es; [|intros X; by injection X as <- <- <-].
  destruct (page_align_up_spec _ _ Hl Es) as (_ & _ & Hs). cif E1; [intros X; by injection X as <- <- <-|].
  destruct (vm_map_anonymous _ _ _ _ _ _) as [[[e|mapped] k1] m1] eqn:Em; pose proof (vm_map_anonymous_balanced _ _ _ _ _ _ _ _ _ _ Em Hb) as Hb1.
  { intros X; by injection X as <- <- <-. }
  destruct (reservation_head _ _ _ _ _ _ _ _ _ Hm Hh Hs Em) as (size' & node & _ & Hs' & El).
  rewrite El, update_vma_head by (unfold covers; simpl; lia).
  match goal with |- context [set_vmas m1 ?l] => set (m2 := set_vmas m1 l) end.
  assert (Hb2 : balanced base k1 (m_vmas m2)) by (eapply balanced_frame; [done| |exact Hb1]; intros h; by rewrite El).
  match goal with |- context [for_break ?f ?i ?n k1] =>
    assert (Hinv : match for_break f i n k1 with inl k2 => balanced base k2 (m_vmas m2) | inr k2 => balanced base k2 (m_vmas m2) end);
    [|destruct (for_break f i n k1) as [k3|k3]] end.
  - apply (for_break_inv (fun _ k2 => balanced base k2 (m_vmas m2)) (fun k2 => balanced base k2 (m_vmas m2))); [done|].
    intros i k2 _ Hb3. match goal with |- context [vo_map_page_root ?a ?b ?c ?d ?e] =>
      pose proof (refs_map a b c d e) as Rm; destruct (vo_map_page_root a b c d e) as [ok k4] end. simpl in Rm.
    destruct ok; by eapply balanced_frame; [| |exact Hb3].
  - intros X; by injection X as <- <- <-.
  - destruct (vm_unmap k3 m2 mapped size) as [[x k4] m4] eqn:Eu. intros X; injection X as <- <- <-.
    by eapply vm_unmap_balanced; [exact Eu|].
Qed.

Lemma vm_reserve_range_balanced base (k k' : K) m m' start length protection flags rc :
  vm_reserve_range k m start length protection flags = (rc, k', m') -> balanced base k (m_vmas m) -> balanced base k' (m_vmas m').
Proof.
  intros E Hb. revert E. unfold vm_reserve_range. cif G; [intros X; by injection X as <- <- <-|].
  destruct (page_align_up length) as [size|]; [|intros X; by injection X as <- <- <-]. cif G1; [intros X; by injection X as <- <- <-|].
  destruct (vo_kmalloc k VMA_SIZE) as [node k1] eqn:Ek. pose proof (kmalloc_refs _ _ _ _ Ek) as Rk.
  cif G3; intros X; injection X as <- <- <-; by eapply balanced_frame; [| |exact Hb].
Qed.

Lemma vm_reserve_heap_balanced base (k k' : K) m m' start limit rc :
  vm_reserve_heap k m start limit = (rc, k', m') -> balanced base k (m_vmas m) -> balanced base k' (m_vmas m').
Proof.
  intros E Hb. revert E. unfold vm_reserve_heap. cif G; [intros X; by injection X as <- <- <-|].
  destruct (vm_reserve_range _ _ _ _ _ _) as [[x k1] m1] eqn:Er. pose proof (vm_reserve_range_balanced _ _ _ _ _ _ _ _ _ _ Er Hb).
  cif G1; intros X; by injection X as <- <- <-.
Qed.

Lemma vm_resize_heap_balanced base (k k' : K) m m' new_end rc :
  vm_resize_heap k m new_end = (rc, k', m') -> balanced base k (m_vmas m) -> balanced base k' (m_vmas m').
Proof.
  intros E Hb. revert E. unfold vm_resize_heap. destruct (find_heap_vma m); [|intros X; by injection X as <- <- <-].
  cif G; intros X; injection X as <- <- <-; [done|]. cbn [m_vmas set_brk]. cif G1; [|done].
  eapply balanced_frame; [intros h; apply refs_unmap_pages|done|done].
Qed.

Lemma split_vma_at_balanced base (k k' : K) m m' point ok :
  split_vma_at k m point = (ok, k', m') -> balanced base k (m_vmas m) -> balanced base k' (m_vmas m').
Proof.
  intros E Hb. revert E. unfold split_vma_at. destruct (split_first _ _) as [[[l1 v] l2]|] eqn:Esp; [|intros X; by injection X as <- <- <-].
  apply split_first_Some in Esp as (El & _ & _). rewrite El in Hb.
  destruct (vo_kmalloc k VMA_SIZE) as [node k1] eqn:Ek. pose proof (kmalloc_refs _ _ _ _ Ek) as Rk.
  assert (Hb1 : balanced base k1 (l1 ++ v :: l2)) by (by eapply balanced_frame; [| |exact Hb]).
  cif G; [intros X; injection X as <- <- <-; by rewrite El|]. destruct (v_backing_handle v >=? 0) eqn:Eh.
  - destruct (vo_vfs_retain _ _) as [r k2] eqn:Er. cif G'; intros X; injection X as <- <- <-; simpl.
    + rewrite El. eapply balanced_frame; [intros h; apply refs_kfree|done|]. eapply retain_failed; [exact Er|lia|done].
    + replace r with 0 in Er by lia. rewrite cons_middle, app_assoc.
      apply (balanced_retain base k1 k2 _ _ _ (v_backing_handle v)); [done|lia|exact Er|]. rewrite <- app_assoc. simpl.
      by eapply balanced_frame; [| |exact Hb1]; [|intros h; apply held_swap].
  - intros X; injection X as <- <- <-. simpl. apply (balanced_frame base k1 k1 (l1 ++ v :: l2)); [done| |exact Hb1].
    intros h. apply held_split_anon; [done|done|lia].
Qed.

Lemma held_map h f l : (forall v, v_backing_handle (f v) = v_backing_handle v) -> held h (map f l) = held h l.
Proof. intros Hf. induction l as [|v l IH]; simpl; [done|]. unfold holds. by rewrite Hf, IH. Qed.

Lemma vm_protect_balanced base (k k' : K) m m' address length protection rc :
  vm_protect k m address length protection = (rc, k', m') -> balanced base k (m_vmas m) -> balanced base k' (m_vmas m').
Proof.
  intros E Hb. revert E. unfold vm_protect. cif G; [intros X; by injection X as <- <- <-|].
  destruct (page_align_up length) as [size|]; [|intros X; by injection X as <- <- <-]. cif G1; [intros X; by injection X as <- <- <-|].
  cif G2; [intros X; by injection X as <- <- <-|].
  destruct (split_vma_at k m address) as [[ok1 k1] m1] eqn:E1. pose proof (split_vma_at_balanced _ _ _ _ _ _ _ E1 Hb) as Hb1.
  cif G3; [intros X; by injection X as <- <- <-|].
  destruct (split_vma_at k1 m1 (address + size)) as [[ok2 k2] m2] eqn:E2. pose proof (split_vma_at_balanced _ _ _ _ _ _ _ E2 Hb1) as Hb2.
  cif G4; [intros X; by injection X as <- <- <-|].
  match goal with |- context [set_vmas m2 ?l] => set (m3 := set_vmas m2 l) end.
  assert (Hb3 : balanced base k2 (m_vmas m3)).
  { eapply balanced_frame; [done| |exact Hb2]. intros h. apply held_map. intros v. cbv beta. by cif Gv. }
  match goal with |- context [for_break ?f ?i ?n k2] =>
    assert (Hinv : match for_break f i n k2 with inl k2 => balanced base k2 (m_vmas m3) | inr k2 => balanced base k2 (m_vmas m3) end);
    [|destruct (for_break f i n k2) as [k3|k3]; intros X; by injection X as <- <- <-] end.
  apply (for_break_inv (fun _ k2 => balanced base k2 (m_vmas m3)) (fun k2 => balanced base k2 (m_vmas m3))); [done|].
  intros i k4 _ Hb4. cif G5; [|done]. match goal with |- context [vo_protect_page_root ?a ?b ?c ?d] =>
      pose proof (refs_protect a b c d) as Rm; destruct (vo_protect_page_root a b c d) as [ok k5] end. simpl in Rm.
  destruct ok; by eapply balanced_frame; [| |exact Hb4].
Qed.

Lemma vm_revoke_balanced base (k k' : K) m m' :
  vm_revoke_device_mappings k m = (k', m') -> balanced base k (m_vmas m) -> balanced base k' (m_vmas m').
Proof.
  unfold vm_revoke_device_mappings. generalize (m_vmas m) at 1 as l. intros l. revert k m.
  induction l as [|v l IH]; intros k m; simpl; [intros X; by injection X as <- <-|]. cif G; [|by apply IH].
  destruct (vm_unmap _ _ _ _) as [[x k1] m1] eqn:Eu. intros E Hb. apply (IH k1 m1 E). by eapply vm_unmap_balanced; [exact Eu|].
Qed.

Lemma vm_destroy_all_balanced base (k k' : K) m m' :
  vm_destroy_all k m = (k', m') -> balanced base k (m_vmas m) -> balanced base k' (m_vmas m').
Proof.
  unfold vm_destroy_all. intros X; injection X as <- <-. simpl. revert k. induction (m_vmas m) as [|v l IH]; intros k Hb; simpl; [done|].
  apply IH. eapply balanced_frame; [intros h; apply refs_kfree|done|]. cif E; [apply (balanced_close base k [] v l); [lia|done]|].
  eapply balanced_frame; [done| |exact Hb]. intros h. simpl. unfold holds. by rewrite E.
Qed.

Lemma clone_vmas_balanced base source (k k' : K) child child' ok :
  clone_vmas k source child = (ok, k', child') -> balanced base k (m_vmas child) -> balanced base k' (m_vmas child').
Proof.
  revert k child. induction source as [|v l IH]; intros k child; simpl; [intros X; by injection X as <- <- <-|].
  cif G; [by apply IH|]. destruct (vo_kmalloc k VMA_SIZE) as [node k1] eqn:Ek. pose proof (kmalloc_refs _ _ _ _ Ek) as Rk. intros E Hb.
  assert (Hb1 : balanced base k1 (m_vmas child)) by (by eapply balanced_frame; [| |exact Hb]). revert E. cif G1.
  { intros X; injection X as <- <- <-. by apply (vm_destroy_all_balanced base k1 _ child). }
  destruct (v_backing_handle v >=? 0) eqn:Eh.
  - destruct (vo_vfs_retain _ _) as [r k2] eqn:Er. cif G2.
    + intros X; injection X as <- <- <-. apply (vm_destroy_all_balanced base (vo_kfree k2 node) _ child); [done|].
      eapply balanced_frame; [intros h; apply refs_kfree|done|]. eapply retain_failed; [exact Er|lia|done].
    + intros E. apply (IH _ _ E). replace r with 0 in Er by lia. apply (balanced_retain base k1 k2 _ [] _ (v_backing_handle v)); [done|lia|done|].
      by rewrite app_nil_r.
  - intros E. apply (IH _ _ E). apply (balanced_frame base k1 k1 (m_vmas child)); [done| |exact Hb1]. intros h. simpl. rewrite held_app. simpl. unfold holds. simpl.
    rewrite Eh. simpl. lia.
Qed.

Lemma map_zero_refs (k k' : K) m page protection ok :
  map_zero_page k m page protection = (ok, k') -> forall h, refs k' h = refs k h.
Proof.
  intros E h. revert E. unfold map_zero_page. cif G; [intros X; by injection X as <- <-|].
  destruct (vo_alloc_page k) as [p k1] eqn:Ea. pose proof (refs_alloc k h) as R1. rewrite Ea in R1. simpl in R1.
  cif G1; [intros X; injection X as <- <-; lia|].
  match goal with |- context [vo_map_page_root ?a ?b ?c ?d ?e] =>
      pose proof (refs_map a b c d e h) as R2; destruct (vo_map_page_root a b c d e) as [b2 k2] end. simpl in R2.
  cif G2; intros X; injection X as <- <-; rewrite ?refs_free, ?refs_zero; lia.
Qed.

Lemma map_file_refs (k k' : K) m v page ok :
  map_file_page k m v page = (ok, k') -> forall h, refs k' h = refs k h.
Proof.
  intros E h. revert E. unfold map_file_page. cif G; [intros X; by injection X as <- <-|].
  destruct (vo_alloc_page k) as [p k1] eqn:Ea. pose proof (refs_alloc k h) as R1. rewrite Ea in R1. simpl in R1.
  cif G1; [intros X; injection X as <- <-; lia|].
  match goal with |- (let '(_, _) := ?e in _) = _ -> _ => assert (R2 : refs e.2 h = refs k h); [|destruct e as [b2 k2]] end.
  { cif G2; [|simpl; rewrite refs_zero; lia]. match goal with |- context [vo_vfs_read_at ?a ?b ?c ?d ?e] =>
      pose proof (refs_read a b c d e h) as R2; destruct (vo_vfs_read_at a b c d e) as [b2 k2] end.
    simpl in *. rewrite refs_zero in R2. lia. }
  simpl in R2. cif G3; [intros X; injection X as <- <-; rewrite refs_free; lia|].
  match goal with |- context [vo_map_page_root ?a ?b ?c ?d ?e] =>
      pose proof (refs_map a b c d e h) as R3; destruct (vo_map_page_root a b c d e) as [b3 k3] end. simpl in R3.
  cif G4; intros X; injection X as <- <-; rewrite ?refs_free; lia.
Qed.

Lemma map_shared_refs (k k' : K) m v page ok :
  map_shared_page k m v page = (ok, k') -> forall h, refs k' h = refs k h.
Proof.
  intros E h. revert E. unfold map_shared_page. cif G; [intros X; by injection X as <- <-|].
  cif G0; [intros X; by injection X as <- <-|]. cif G1; [intros X; by injection X as <- <-|].
  match goal with |- context [vo_map_page_root ?a ?b ?c ?d ?e] =>
      pose proof (refs_map a b c d e h) as R3; destruct (vo_map_page_root a b c d e) as [b3 k3] end. simpl in R3.
  rewrite refs_retain_page in R3. cif G4; intros X; injection X as <- <-; rewrite ?refs_free; lia.
Qed.

Lemma materialise_refs (k k' : K) m m' vma page protection stack ok :
  materialise k m vma page protection stack = (ok, k', m') -> forall h, refs k' h = refs k h.
Proof.
  intros E h. revert E. unfold materialise.
  match goal with |- (let '(_, _) := ?e in _) = _ -> _ => assert (R : refs e.2 h = refs k h); [|destruct e as [b2 k2]] end.
  { assert (Hp : forall e : bool * K, (forall ok k', e = (ok, k') -> refs k' h = refs k h) -> refs e.2 h = refs k h).
    { intros [b k1] Hx. by apply (Hx b k1). }
    apply Hp. intros b k1 E. destruct vma as [v|]; [|by eapply map_zero_refs].
    destruct (hasb _ _); [by eapply map_shared_refs|]. destruct (_ >=? 0); [by eapply map_file_refs|by eapply map_zero_refs]. }
  cif G; intros X; by injection X as <- <- <-.
Qed.

Lemma vm_ensure_refs (k k' : K) m m' address write ok :
  vm_ensure_user_page k m address write = (ok, k', m') -> forall h, refs k' h = refs k h.
Proof. unfold vm_ensure_user_page. repeat (cif E; [intros X; by injection X as <- <- <-|clear E]). apply materialise_refs. Qed.

Lemma vm_fault_refs (k k' : K) m m' address code rsp ok :
  vm_handle_page_fault k m address code rsp = (ok, k', m') -> forall h, refs k' h = refs k h.
Proof.
  unfold vm_handle_page_fault. cif E; [intros X; by injection X as <- <- <-|clear E]. cif E.
  { cif E'; [intros X; by injection X as <- <- <-|]. destruct (vo_resolve_cow_fault _ _ _) as [b k1] eqn:Ec.
    intros X; injection X as <- <- <-. intros h. pose proof (refs_cow k (m_root m) address h) as R. by rewrite Ec in R. }
  clear E. repeat (cif E; [intros X; by injection X as <- <- <-|clear E]). apply materialise_refs.
Qed.

(** ** Sequences of operations *)

Inductive vm_op :=
| OMapAnonymous (hint length protection flags : Z)
| OMapFile (handle hint length protection flags offset : Z)
| OMapShared (handle hint length protection flags offset : Z)
| OMapDevice (hint physical length protection flags : Z)
| OReserve (start length protection flags : Z)
| OReserveHeap (start limit : Z)
| OResizeHeap (new_end : Z)
| OProtect (address length protection : Z)
| OUnmap (address length : Z)
| ORevoke
| ODestroy
| OEnsure (address : Z) (write : bool)
| OFault (address code rsp : Z).

Definition run_op (op : vm_op) (s : K * mm) : K * mm :=
  let '(k, m) := s in
  match op with
  | OMapAnonymous hint length protection flags => let '(_, k, m) := vm_map_anonymous k m hint length protection flags in (k, m)
  | OMapFile handle hint length protection flags offset => let '(_, k, m) := vm_map_file k m handle hint length protection flags offset in (k, m)
  | OMapShared handle hint length protection flags offset => let '(_, k, m) := vm_map_shared k m handle hint length protection flags offset in (k, m)
  | OMapDevice hint physical length protection flags => let '(_, k, m) := vm_map_device k m hint physical length protection flags in (k, m)
  | OReserve start length protection flags => let '(_, k, m) := vm_reserve_range k m start length protection flags in (k, m)
  | OReserveHeap start limit => let '(_, k, m) := vm_reserve_heap k m start limit in (k, m)
  | OResizeHeap new_end => let '(_, k, m) := vm_resize_heap k m new_end in (k, m)
  | OProtect address length protection => let '(_, k, m) := vm_protect k m address length protection in (k, m)
  | OUnmap address length => let '(_, k, m) := vm_unmap k m address length in (k, m)
  | ORevoke => vm_revoke_device_mappings k m
  | ODestroy => vm_destroy_all k m
  | OEnsure address write => let '(_, k, m) := vm_ensure_user_page k m address write in (k, m)
  | OFault address code rsp => let '(_, k, m) := vm_handle_page_fault k m address code rsp in (k, m)
  end.

(** The arguments are 64-bit values. *)
Definition op_args (op : vm_op) : Prop :=
  match op with
  | OMapAnonymous a b _ _ | OMapFile _ a b _ _ _ | OMapShared _ a b _ _ _ | OMapDevice a _ b _ _ | OReserve a b _ _
  | OReserveHeap a b | OProtect a b _ | OUnmap a b => in_u64 a /\ in_u64 b
  | _ => True
  end.

Definition run_ops (ops : list vm_op) (s : K * mm) : K * mm := fold_left (fun s op => run_op op s) ops s.

Definition vm_inv (base : Z -> Z) (s : K * mm) : Prop := mm_ok s.2 /\ balanced base s.1 (m_vmas s.2).

Lemma mm_ok_same m m' : m_vmas m' = m_vmas m /\ m_mmap_cursor m' = m_mmap_cursor m -> mm_ok m -> mm_ok m'.
Proof. intros [E1 E2] Hm. unfold mm_ok. by rewrite E1, E2. Qed.

Lemma run_op_inv base op s : op_args op -> vm_inv base s -> vm_inv base (run_op op s).
Proof.
  destruct s as [k m]. intros Ha [Hm Hb]. simpl in Hm, Hb. unfold vm_inv. destruct op; simpl in *; try destruct Ha as [Ha1 Ha2].
  - destruct (vm_map_anonymous _ _ _ _ _ _) as [[r k1] m1] eqn:E. split; [eapply vm_map_anonymous_ok; [exact Hm|exact Ha1|exact Ha2|exact E]|by eapply vm_map_anonymous_balanced].
  - destruct (vm_map_file _ _ _ _ _ _ _ _) as [[r k1] m1] eqn:E. split; [eapply vm_map_file_ok; [exact Hm|exact Ha1|exact Ha2|exact E]|].
    eapply vm_map_file_balanced; [exact Hm|exact Ha1|exact Ha2|exact E|exact Hb].
  - destruct (vm_map_shared _ _ _ _ _ _ _ _) as [[r k1] m1] eqn:E. split; [eapply vm_map_shared_ok; [exact Hm|exact Ha1|exact Ha2|exact E]|].
    eapply vm_map_shared_balanced; [exact Hm|exact Ha1|exact Ha2|exact E|exact Hb].
  - destruct (vm_map_device _ _ _ _ _ _ _) as [[r k1] m1] eqn:E. split; [eapply vm_map_device_ok; [exact Hm|exact Ha1|exact Ha2|exact E]|].
    eapply vm_map_device_balanced; [exact Hm|exact Ha1|exact Ha2|exact E|exact Hb].
  - destruct (vm_reserve_range _ _ _ _ _ _) as [[r k1] m1] eqn:E. split; [eapply vm_reserve_range_ok; [exact Hm|exact Ha1|exact Ha2|exact E]|by eapply vm_reserve_range_balanced].
  - destruct (vm_reserve_heap _ _ _ _) as [[r k1] m1] eqn:E. split; [eapply vm_reserve_heap_ok; [exact Hm|exact Ha1|exact Ha2|exact E]|by eapply vm_reserve_heap_balanced].
  - destruct (vm_resize_heap _ _ _) as [[r k1] m1] eqn:E. split; [|by eapply vm_resize_heap_balanced].
    eapply mm_ok_same; [|exact Hm]. by eapply vm_resize_heap_areas.
  - destruct (vm_protect _ _ _ _ _) as [[r k1] m1] eqn:E. split; [eapply vm_protect_ok; [exact Hm|exact Ha2|exact E]|by eapply vm_protect_balanced].
  - destruct (vm_unmap _ _ _ _) as [[r k1] m1] eqn:E. split; [eapply vm_unmap_ok; [exact Ha1|exact Ha2|exact Hm|exact E]|by eapply vm_unmap_balanced].
  - destruct (vm_revoke_device_mappings _ _) as [k1 m1] eqn:E. split; [by eapply vm_revoke_ok|by eapply vm_revoke_balanced].
  - split; [by apply (vm_destroy_all_ok k)|]. by eapply (vm_destroy_all_balanced base k _ m (set_vmas m [])).
  - destruct (vm_ensure_user_page _ _ _ _) as [[r k1] m1] eqn:E. pose proof (vm_ensure_areas _ _ _ _ _ _ _ E) as X. split; [by apply (mm_ok_same m)|].
    eapply balanced_frame; [by eapply vm_ensure_refs| |exact Hb]. intros h. simpl. by rewrite (proj1 X).
  - destruct (vm_handle_page_fault _ _ _ _ _) as [[r k1] m1] eqn:E. pose proof (vm_fault_areas _ _ _ _ _ _ _ _ E) as X. split; [by apply (mm_ok_same m)|].
    eapply balanced_frame; [by eapply vm_fault_refs| |exact Hb]. intros h. simpl. by rewrite (proj1 X).
Qed.

End Handles.

(** ** File mappings and fork *)

Section More.
Context {K : Type} `{VmOps K}.

(** A successful file mapping makes exactly the returned range a window of
    the file: address [start + d] shows the file at [offset + d], with data up
    to the end of the file and of the area, and no other address changes.  It
    is refused for a writable shared mapping. *)
Theorem vm_map_file_view (k k' : K) m m' handle hint length protection flags offset start :
  mm_ok m -> in_u64 hint -> in_u64 length ->
  vm_map_file k m handle hint length protection flags offset = (inr start, k', m') ->
  (hasb protection NPK_PROT_WRITE && hasb flags NPK_MAP_SHARED = false) /\
  exists size, page_align_up length = Some size /\
  forall a, vm_view (m_vmas m') a =
    if (start <=? a) && (a <? start + size)
    then Some (Area protection (Z.land (Z.lor flags NPK_MAP_ANONYMOUS) (not64 NPK_MAP_ANONYMOUS)) handle
           (Some (u64 (offset + (a - start)), a - start <? Z.min size (Z.max 0 (vo_vfs_size k handle - offset)))))
    else vm_view (m_vmas m) a.
Proof.
  intros Hm Hh Hl E. revert E. unfold vm_map_file. cif G; [done|]. cif G1; [done|].
  destruct (vm_map_anonymous _ _ _ _ _ _) as [[[e|mapped] k1] m1] eqn:Em; [done|].
  destruct (reservation_head _ _ _ _ _ _ _ _ _ Hm Hh Hl Em) as (size & node & Es & Hs & El).
  unfold attach_handle. destruct (vo_vfs_retain k1 handle) as [rc k2]. cif G2; [by destruct (vm_unmap _ _ _ _) as [[? ?] ?]|].
  rewrite El, update_vma_head by (unfold covers; simpl; lia). intros X; injection X as <- <- <-.
  split; [lia|]. exists size. split; [done|]. intros a. cbn [m_vmas set_vmas]. rewrite vm_view_cons. unfold covers, view_of. cbn -[Z.lor Z.land not64].
  replace (handle >=? 0) with true by lia. replace ((a >=? mapped) && (a <? mapped + size)) with ((mapped <=? a) && (a <? mapped + size)) by lia.
  cif E; [|done]. do 4 f_equal. destruct (offset <? _) eqn:E1; cif E2; lia.
Qed.

Definition plain (v : npk_vma) : bool := negb (hasb (v_flags v) NPK_MAP_DEVICE).

Lemma clone_vmas_spec source (k k' : K) child child' ok :
  clone_vmas k source child = (ok, k', child') ->
  if ok then exists copies, child' = set_vmas child (m_vmas child ++ copies) /\
               Forall2 (fun v w => w = set_node v (v_node w)) (List.filter plain source) copies
  else m_vmas child' = [] /\ m_mmap_cursor child' = m_mmap_cursor child.
Proof.
  revert k child. induction source as [|v l IH]; intros k child; simpl.
  { intros X; injection X as <- <- <-. exists []. rewrite app_nil_r. by destruct child. }
  unfold plain at 1. destruct (hasb (v_flags v) NPK_MAP_DEVICE); [by apply IH|]. simpl.
  destruct (vo_kmalloc k VMA_SIZE) as [node k1]. cif G1; [intros X; by injection X as <- <- <-|].
  assert (Hnext : forall k2, clone_vmas k2 l (set_vmas child (m_vmas child ++ [set_node v node])) = (ok, k', child') ->
    if ok then exists copies, child' = set_vmas child (m_vmas child ++ copies) /\
               Forall2 (fun v w => w = set_node v (v_node w)) (v :: List.filter plain l) copies
    else m_vmas child' = [] /\ m_mmap_cursor child' = m_mmap_cursor child).
  { intros k2 E. apply IH in E. destruct ok; [|done]. destruct E as (copies & -> & Hc). exists (set_node v node :: copies).
    split; [|by constructor]. simpl. by rewrite <- app_assoc. }
  destruct (v_backing_handle v >=? 0); [|by apply Hnext].
  destruct (vo_vfs_retain _ _) as [r k2]. cif G2; [intros X; by injection X as <- <- <-|by apply Hnext].
Qed.

Lemma copies_view l copies a :
  Forall2 (fun v w => w = set_node v (v_node w)) l copies -> vm_view copies a = vm_view l a.
Proof.
  induction 1 as [|v w l copies Hw _ IH]; [done|]. rewrite !vm_view_cons, IH. rewrite Hw. done.
Qed.

Lemma filter_vmas_ok (p : npk_vma -> bool) l : vmas_ok l -> vmas_ok (List.filter p l).
Proof.
  intros [Hf Ha]. split; [rewrite Forall_forall in Hf |- *; intros v Hv; apply Hf; apply list_elem_of_In, filter_In in Hv as [Hv _]; by apply list_elem_of_In|].
  clear Hf. induction l as [|v l IH]; simpl; [done|]. destruct Ha as [Hv Ha]. destruct (p v); [|by apply IH]. split; [|by apply IH].
  intros w Hw. apply Hv. apply list_elem_of_In, filter_In in Hw as [Hw _]. by apply list_elem_of_In.
Qed.

Lemma copies_ok l copies : Forall2 (fun v w => w = set_node v (v_node w)) l copies -> vmas_ok l -> vmas_ok copies.
Proof.
  intros H2 [Hf Ha].
  induction H2 as [|v w l c Hw Hl IH]; [apply vmas_ok_nil|]. rewrite Forall_cons in Hf. destruct Hf as [Hv Hf], Ha as [Hav Ha].
  destruct (IH Hf Ha) as [F1 A1]. split; [constructor; [|done]|split; [|done]].
  - rewrite Hw. destruct Hv as [H1 H2 H3]. by constructor.
  - intros x Hx. assert (exists y, y ∈ l /\ v_start x = v_start y /\ v_end x = v_end y) as (y & Hy & E1 & E2).
    { clear -Hl Hx. induction Hl as [|a b l c Hb _ IH]; [set_solver|]. apply elem_of_cons in Hx as [->|Hx].
      - exists a. rewrite Hb. split; [set_solver|done].
      - destruct (IH Hx) as (y & Hy & E). exists y. split; [set_solver|done]. }
    specialize (Hav y Hy). unfold apart in *. rewrite E1, E2, Hw. done.
Qed.

(** Fork gives the child the parent's areas and nothing else: on success
    every address of the child has the parent's protection, flags, handle and
    file window, except that device areas are not inherited; on failure the
    child is left with no area. *)
Theorem vm_clone_metadata_view (k k' : K) parent child child' ok :
  mm_ok parent -> vm_clone_metadata k parent child = (ok, k', child') ->
  vmas_ok (m_vmas child') /\
  forall a, vm_view (m_vmas child') a =
    if ok then match find_vma (m_vmas parent) a with
               | Some v => if hasb (v_flags v) NPK_MAP_DEVICE then None else Some (view_of v a)
               | None => None
               end
    else None.
Proof.
  intros [Hok _] E. apply clone_vmas_spec in E. destruct ok; [|destruct E as [-> _]; split; [apply vmas_ok_nil|done]].
  destruct E as (copies & -> & Hc). simpl. split; [eapply copies_ok; [exact Hc|by apply filter_vmas_ok]|].
  intros a. rewrite (copies_view _ _ a Hc). clear Hc. revert Hok. generalize (m_vmas parent) as l.
  induction l as [|v l IH]; intros Hok; [done|]. unfold find_vma. simpl. fold (find_vma l a).
  assert (Hok' : vmas_ok l) by (destruct Hok as [F A]; rewrite Forall_cons in F; split; [apply F|apply A]).
  unfold plain at 1. destruct (hasb (v_flags v) NPK_MAP_DEVICE) eqn:Ed; simpl; rewrite ?vm_view_cons, IH by done; destruct (covers a v) eqn:Ec; try done.
  - rewrite Ed. rewrite find_vma_None; [done|]. intros w Hw. destruct Hok as [_ [A _]]. specialize (A w Hw). unfold covers, apart in *. lia.
  - by rewrite Ed.
Qed.
End More.

(** ** A small kernel

    The least a kernel can offer the areas: nodes numbered in order, handles
    that always can be retained, page tables that accept every page. *)

Record ledger := Ledger { lg_next : Z; lg_refs : arr Z }.

#[export] Instance ledger_ops : VmOps ledger := {
  vo_kmalloc k _ := (lg_next k, Ledger (lg_next k + 64) (lg_refs k));
  vo_kfree k _ := k;
  vo_alloc_page k := (4096, k);
  vo_free_page k _ := k;
  vo_retain_page k _ := k;
  vo_zero_page k _ := k;
  vo_map_page_root k _ _ _ _ := (true, k);
  vo_unmap_page_root k _ _ := (0, k);
  vo_protect_page_root k _ _ _ := (true, k);
  vo_lookup_root _ _ _ _ := 0;
  vo_resolve_cow_fault k _ _ := (false, k);
  vo_vfs_file_backed _ _ := true;
  vo_vfs_size _ _ := 5000;
  vo_vfs_retain k h := (0, Ledger (lg_next k) ((lg_refs k).[h <- (lg_refs k).[h] + 1]));
  vo_vfs_close k h := Ledger (lg_next k) ((lg_refs k).[h <- (lg_refs k).[h] - 1]);
  vo_vfs_is_shared_memory _ _ := false;
  vo_vfs_shm_page_count _ _ := 0;
  vo_vfs_shm_page _ _ _ := 0;
  vo_vfs_read_at k _ _ n _ := (n, k)
}.

#[export] Program Instance ledger_laws : HandleLaws ledger := { refs k h := (lg_refs k).[h] }.
Next Obligation. intros k h h'. simpl. rewrite aget_aset. destruct (decide (h = h')) as [->|]; [rewrite Z.eqb_refl; done|]. replace (h =? h') with false by lia. lia. Qed.
Next Obligation. intros k h h' _. simpl. rewrite aget_aset. destruct (decide (h = h')) as [->|]; [rewrite Z.eqb_refl; done|]. replace (h =? h') with false by lia. lia. Qed.
Solve All Obligations with done.

(** A process with no area and a kernel where handle 3 is open once. *)
Definition mm0 : mm := Mm true 4096 0 0 0 0 0 0 [].
Definition ledger0 : ledger := Ledger 64 ((afill 0).[3 <- 1]).

Lemma mm0_ok : mm_ok mm0.
Proof. split; [apply vmas_ok_nil|done]. Qed.

Lemma ledger0_inv : vm_inv (fun h => if h =? 3 then 1 else 0) (ledger0, mm0).
Proof.
  split; [apply mm0_ok|]. intros h. simpl. rewrite aget_aset, aget_afill.
  destruct (decide (3 = h)) as [<-|]; [done|]. replace (h =? 3) with false by lia. lia.
Qed.

Definition file_ops : list vm_op :=
  [OMapFile 3 0 10000 NPK_PROT_READ NPK_MAP_PRIVATE 0; OMapAnonymous 0 8192 3 34; OUnmap (VM_USER_MMAP_BASE + 4096) 4096;
   OProtect VM_USER_MMAP_BASE 4096 5; OUnmap VM_USER_MMAP_BASE 4096].

(** The state after mapping three pages of a file. *)
Notation mapped_file := (vm_map_file ledger0 mm0 3 0 10000 NPK_PROT_READ NPK_MAP_PRIVATE 0).
Definition file_mm : mm := Eval vm_compute in mapped_file.2.
Definition file_ledger : ledger := Eval vm_compute in mapped_file.1.2.

Lemma mapped_file_eq : mapped_file = (inr VM_USER_MMAP_BASE, file_ledger, file_mm).
Proof. vm_compute. reflexivity. Qed.

Lemma file_mm_ok : mm_ok file_mm.
Proof. eapply vm_map_file_ok; [apply mm0_ok| | |exact mapped_file_eq]; unfold in_u64; lia. Qed.


Lemma vm_map_file_view_witness : exists size, page_align_up 10000 = Some size /\
  forall a, vm_view (m_vmas file_mm) a =
    if (VM_USER_MMAP_BASE <=? a) && (a <? VM_USER_MMAP_BASE + size)
    then Some (Area 1 2 3 (Some (u64 (0 + (a - VM_USER_MMAP_BASE)), a - VM_USER_MMAP_BASE <? Z.min size (Z.max 0 (5000 - 0)))))
    else None.
Proof.
  exact (proj2 (vm_map_file_view ledger0 file_ledger mm0 file_mm 3 0 10000 NPK_PROT_READ NPK_MAP_PRIVATE 0 VM_USER_MMAP_BASE mm0_ok
    ltac:(unfold in_u64; lia) ltac:(unfold in_u64; lia) mapped_file_eq)).
Defined.

(** The middle page of the mapping removed. *)
Lemma vm_unmap_view_witness : exists k' m', vm_unmap file_ledger file_mm (VM_USER_MMAP_BASE + 4096) 4096 = (0, k', m') /\
  exists size, page_align_up 4096 = Some size /\
  forall a, vm_view (m_vmas m') a = if (VM_USER_MMAP_BASE + 4096 <=? a) && (a <? VM_USER_MMAP_BASE + 4096 + size) then None else vm_view (m_vmas file_mm) a.
Proof.
  eexists _, _. split; [vm_compute; reflexivity|].
  eapply (vm_unmap_view file_ledger _ file_mm _ (VM_USER_MMAP_BASE + 4096) 4096 0);
    [unfold in_u64, VM_USER_MMAP_BASE; lia|unfold in_u64; lia|apply file_mm_ok|vm_compute; reflexivity].
Defined.

Lemma vm_protect_view_witness : exists k' m', vm_protect file_ledger file_mm (VM_USER_MMAP_BASE + 4096) 4096 5 = (0, k', m') /\
  exists size, page_align_up 4096 = Some size /\
     (forall a, VM_USER_MMAP_BASE + 4096 <= a < VM_USER_MMAP_BASE + 4096 + size -> in_plain_area (m_vmas file_mm) a) /\
     forall a, vm_view (m_vmas m') a = if (VM_USER_MMAP_BASE + 4096 <=? a) && (a <? VM_USER_MMAP_BASE + 4096 + size)
                              then with_protection 5 <$> vm_view (m_vmas file_mm) a else vm_view (m_vmas file_mm) a.
Proof.
  eexists _, _. split; [vm_compute; reflexivity|].
  eapply (vm_protect_view file_ledger _ file_mm _ (VM_USER_MMAP_BASE + 4096) 4096 5 0);
    [apply file_mm_ok|unfold in_u64; lia|vm_compute; reflexivity].
Defined.

Lemma vm_clone_metadata_view_witness : exists k' child',
  vm_clone_metadata file_ledger file_mm mm0 = (true, k', child') /\ vmas_ok (m_vmas child').
Proof.
  eexists _, _. split; [vm_compute; reflexivity|].
  eapply (vm_clone_metadata_view file_ledger _ file_mm mm0 _ true); [apply file_mm_ok|vm_compute; reflexivity].
Defined.


(** ** What the areas do not enforce *)

(** Once the cursor is past the mmap window a mapping without a hint never
    searches the free part of the window. *)
Lemma cursor_past_window `{VmOps K} (k : K) m length protection flags :
  mm_ok m -> in_u64 length -> VM_USER_MMAP_LIMIT <= m_mmap_cursor m < 18446744073709551616 - NPK_PAGE_SIZE -> hasb flags NPK_MAP_FIXED = false ->
  exists e, vm_map_anonymous k m 0 length protection flags = (inl e, k, m).
Proof.
  intros Hm Hl Hc Hf. unfold vm_map_anonymous. cif G; [eauto|]. destruct (page_align_up length) as [size|] eqn:Es; [|eauto]. cif G1; [eauto|].
  rewrite Hf. fold (mmap_start m 0). pose proof (mmap_start_spec m 0 Hm ltac:(unfold in_u64; lia)) as [M1 _].
  assert (Ems : mmap_start m 0 = m_mmap_cursor m).
  { unfold mmap_start, VM_USER_MMAP_BASE, VM_USER_MMAP_LIMIT in *. simpl. replace (m_mmap_cursor m =? 0) with false by lia. simpl. cif E; lia. }
  destruct (page_align_up_spec _ _ Hl Es) as (_ & _ & Hs). zbool.
  pose proof (mmap_search_spec (m_vmas m) size (mmap_start m 0) M1) as Hsp.
  destruct (mmap_search _ _ _) as [r|]; [|eauto]. exfalso.
  destruct Hsp as (S1 & _ & [S2 _] & _); unfold in_u64, VM_USER_MMAP_BASE, VM_USER_MMAP_LIMIT in *; lia.
Qed.

(** One fixed mapping above the window is enough: every later mapping without
    a hint fails although the window is empty. *)
Lemma fixed_mapping_exhausts_window :
  exists k m, vm_map_anonymous ledger0 mm0 0x500000000000 4096 3 50 = (inr 0x500000000000, k, m) /\
  (vm_map_anonymous k m 0 4096 3 34).1.1 = inl VM_ENOMEM /\ slot_free (m_vmas m) 4096 VM_USER_MMAP_BASE.
Proof. eexists _, _. split; [vm_compute; reflexivity|]. split; [vm_compute; reflexivity|]. split; [vm_compute; discriminate|vm_compute; reflexivity]. Qed.

(** A writable shared file mapping is refused by [vm_map_file], yet
    [vm_protect] makes a read-only one writable. *)
Lemma protect_makes_shared_file_writable :
  exists k m a, vm_map_file ledger0 mm0 3 0 4096 NPK_PROT_READ NPK_MAP_SHARED 0 = (inr VM_USER_MMAP_BASE, k, m) /\
  vm_view (m_vmas (vm_protect k m VM_USER_MMAP_BASE 4096 3).2) VM_USER_MMAP_BASE = Some a /\
  hasb (a_protection a) NPK_PROT_WRITE = true /\ hasb (a_flags a) NPK_MAP_SHARED = true /\
  (vm_map_file ledger0 mm0 3 0 4096 3 NPK_MAP_SHARED 0).1.1 = inl VM_EINVAL.
Proof. eexists _, _, _. repeat split; vm_compute; reflexivity. Qed.

(** An executable device mapping is refused by [vm_map_device], yet
    [vm_protect] makes one. *)
Lemma protect_makes_device_executable :
  exists k m a, vm_map_device ledger0 mm0 0 0xfd000000 4096 NPK_PROT_READ NPK_MAP_SHARED = (inr VM_USER_MMAP_BASE, k, m) /\
  vm_view (m_vmas (vm_protect k m VM_USER_MMAP_BASE 4096 5).2) VM_USER_MMAP_BASE = Some a /\
  hasb (a_protection a) NPK_PROT_EXEC = true /\ hasb (a_flags a) NPK_MAP_DEVICE = true.
Proof. eexists _, _, _. repeat split; vm_compute; reflexivity. Qed.

(** An instruction fetch from a page that is not present is never resolved,
    whatever the areas allow. *)
Lemma instruction_fetch_not_resolved `{VmOps K} (k : K) m address code rsp :
  hasb code 1 = false -> hasb code 16 = true -> vm_handle_page_fault k m address code rsp = (false, k, m).
Proof. intros E1 E2. unfold vm_handle_page_fault. rewrite E1, E2. by destruct (_ || _). Qed.
