(* ===== verification/Kstring.v ===== *)
(** * The kernel string routines (src/src/string.c)

    Memory is an array of bytes indexed by address; the block routines are the
    loops of the code on it.  A C string is the list of bytes from its pointer
    on, and what follows the list reads as the terminator. *)

From Stdlib Require Import ZArith Lia Bool ZifyBool.
From stdpp Require Import base numbers list gmap.
From S2P Require Import Prelude.

Definition mem : Type := arr Z.

(** ** Blocks *)

Definition memset (m : mem) (dst value count : Z) : mem :=
  for_range (fun i m => m.[dst + i <- u8 value]) 0 (Z.to_nat count) m.

Definition memcpy (m : mem) (dst src count : Z) : mem :=
  for_range (fun i m => m.[dst + i <- m.[src + i]]) 0 (Z.to_nat count) m.

(** The downward loop runs [i] from [count] to 1. *)
Definition memmove (m : mem) (dst src count : Z) : mem :=
  if dst <? src then for_range (fun i m => m.[dst + i <- m.[src + i]]) 0 (Z.to_nat count) m
  else if dst >? src then for_range (fun j m => let i := count - j in m.[dst + (i - 1) <- m.[src + (i - 1)]]) 0 (Z.to_nat count) m
  else m.

Definition memcmp (m : mem) (a b count : Z) : Z :=
  match for_break (fun i (_ : unit) => if negb (m.[a + i] =? m.[b + i]) then inr (if m.[a + i] <? m.[b + i] then -1 else 1) else inl tt)
          0 (Z.to_nat count) tt with
  | inr r => r
  | inl _ => 0
  end.

(** ** Strings *)

Definition cstr : Type := list Z.
Definition chr (s : cstr) : Z := match s with [] => 0 | c :: _ => c end.

Fixpoint strlen (s : cstr) : Z :=
  match s with
  | [] => 0
  | c :: s' => if c =? 0 then 0 else 1 + strlen s'
  end.

Fixpoint strcmp (a b : cstr) : Z :=
  match a with
  | [] => 0 - u8 (chr b)
  | c :: a' => if negb (c =? 0) && (c =? chr b) then strcmp a' (tail b) else u8 c - u8 (chr b)
  end.

Fixpoint strncmp (a b : cstr) (count : nat) : Z :=
  match count with
  | O => 0
  | S count' => if negb (chr a =? chr b) || (chr a =? 0) then u8 (chr a) - u8 (chr b) else strncmp (tail a) (tail b) count'
  end.

(** ** Specification *)

Definition is_byte (c : Z) : Prop := 0 <= c < 256.

(** The characters of the string: the bytes before the first terminator. *)
Fixpoint text (s : cstr) : list Z :=
  match s with
  | [] => []
  | c :: s' => if c =? 0 then [] else c :: text s'
  end.

(** A range of addresses holds [f], the rest what it held. *)
Definition patched (m m' : mem) (lo hi : Z) (f : Z -> Z) : Prop :=
  forall a, m'.[a] = if (lo <=? a) && (a <? hi) then f a else m.[a].

Lemma patched_step m m' lo hi f a v :
  patched m m' lo hi f -> a = hi -> lo <= hi -> v = f a -> patched m (m'.[a <- v]) lo (hi + 1) f.
Proof.
  intros Hp -> Hle -> b. rewrite aget_aset. destruct (decide (hi = b)) as [<-|Hne].
  - by replace ((lo <=? hi) && (hi <? hi + 1)) with true by lia.
  - rewrite (Hp b). by replace (b <? hi + 1) with (b <? hi) by lia.
Qed.

Lemma patched_down m m' lo hi f a v :
  patched m m' lo hi f -> a = lo - 1 -> lo <= hi -> v = f a -> patched m (m'.[a <- v]) (lo - 1) hi f.
Proof.
  intros Hp -> Hle -> b. rewrite aget_aset. destruct (decide (lo - 1 = b)) as [<-|Hne].
  - by replace ((lo - 1 <=? lo - 1) && (lo - 1 <? hi)) with true by lia.
  - rewrite (Hp b). by replace (lo - 1 <=? b) with (lo <=? b) by lia.
Qed.

Lemma patched_refl m lo f : patched m m lo lo f.
Proof. intros a. by replace ((lo <=? a) && (a <? lo)) with false by lia. Qed.

Lemma patched_empty m lo hi f : hi <= lo -> patched m m lo hi f.
Proof. intros H a. by replace ((lo <=? a) && (a <? hi)) with false by lia. Qed.

Lemma memset_spec m dst value count : patched m (memset m dst value count) dst (dst + count) (fun _ => u8 value).
Proof.
  destruct (decide (count <= 0)).
  { unfold memset. replace (Z.to_nat count) with O by lia. apply patched_empty. lia. }
  unfold memset. replace (dst + count) with (dst + (0 + Z.of_nat (Z.to_nat count))) by lia.
  apply (for_range_inv (fun k m' => patched m m' dst (dst + k) (fun _ => u8 value))); [rewrite Z.add_0_r; apply patched_refl|].
  intros k t Hk Ht. rewrite Z.add_assoc. by apply patched_step; [..|lia|].
Qed.

Lemma copy_up m dst src count :
  dst <= src \/ src + count <= dst ->
  patched m (for_range (fun i m => m.[dst + i <- m.[src + i]]) 0 (Z.to_nat count) m) dst (dst + count) (fun a => m.[src + (a - dst)]).
Proof.
  intros Hd. destruct (decide (count <= 0)).
  { replace (Z.to_nat count) with O by lia. apply patched_empty. lia. }
  replace (dst + count) with (dst + (0 + Z.of_nat (Z.to_nat count))) by lia.
  apply (for_range_inv (fun k m' => patched m m' dst (dst + k) (fun a => m.[src + (a - dst)]))); [rewrite Z.add_0_r; apply patched_refl|].
  intros k t Hk Ht. rewrite Z.add_assoc. apply patched_step; [done|done|lia|].
  rewrite (Ht (src + k)). replace ((dst <=? src + k) && (src + k <? dst + k)) with false by lia. f_equal. lia.
Qed.

(** [memmove] copies the source as it was before the call, byte for byte,
    and changes nothing outside the destination, also when the two overlap in
    either direction. *)
Theorem memmove_spec m dst src count :
  patched m (memmove m dst src count) dst (dst + count) (fun a => m.[src + (a - dst)]).
Proof.
  unfold memmove. destruct (dst <? src) eqn:E1; [apply copy_up; lia|]. destruct (dst >? src) eqn:E2.
  - destruct (decide (count <= 0)).
    { replace (Z.to_nat count) with O by lia. apply patched_empty. lia. }
    pose proof (for_range_inv (fun k m' => patched m m' (dst + (count - k)) (dst + count) (fun a => m.[src + (a - dst)]))
      (fun j m => let i := count - j in m.[dst + (i - 1) <- m.[src + (i - 1)]]) (Z.to_nat count) 0 m) as H.
    cbv beta zeta in H. replace (dst + (count - (0 + Z.of_nat (Z.to_nat count)))) with dst in H by lia. apply H.
    { replace (dst + (count - 0)) with (dst + count) by lia. apply patched_refl. }
    intros k t Hk Ht. replace (dst + (count - (k + 1))) with (dst + (count - k) - 1) by lia.
    apply patched_down; [done|lia|lia|]. rewrite (Ht (src + (count - k - 1))).
    replace ((dst + (count - k) <=? src + (count - k - 1)) && _) with false by lia. f_equal. lia.
  - replace dst with src by lia. intros a. destruct (_ && _); [|done]. f_equal. lia.
Qed.

(** [memcpy] copies the source as it was before the call when the blocks do
    not overlap, or overlap with the destination first. *)
Theorem memcpy_spec m dst src count :
  dst <= src \/ src + count <= dst ->
  patched m (memcpy m dst src count) dst (dst + count) (fun a => m.[src + (a - dst)]).
Proof. apply copy_up. Qed.

(** [memcmp] is the lexicographic comparison of the two blocks as unsigned
    bytes. *)
Theorem memcmp_spec m a b count :
  (memcmp m a b count = 0 /\ (forall i, 0 <= i < count -> m.[a + i] = m.[b + i])) \/
  exists k, 0 <= k < count /\ (forall i, 0 <= i < k -> m.[a + i] = m.[b + i]) /\
    ((memcmp m a b count = -1 /\ m.[a + k] < m.[b + k]) \/ (memcmp m a b count = 1 /\ m.[a + k] > m.[b + k])).
Proof.
  unfold memcmp.
  pose proof (for_break_inv (fun k (_ : unit) => forall i, 0 <= i < k -> m.[a + i] = m.[b + i])
    (fun r => exists k, 0 <= k < count /\ (forall i, 0 <= i < k -> m.[a + i] = m.[b + i]) /\
       ((r = -1 /\ m.[a + k] < m.[b + k]) \/ (r = 1 /\ m.[a + k] > m.[b + k])))
    (fun i (_ : unit) => if negb (m.[a + i] =? m.[b + i]) then inr (if m.[a + i] <? m.[b + i] then -1 else 1) else inl tt)
    (Z.to_nat count) 0 tt) as H.
  destruct (for_break _ _ _ _) as [u|r].
  - left. split; [done|]. intros i Hi. apply H; [lia| |lia].
    intros k [] Hk Hp. destruct (m.[a + k] =? m.[b + k]) eqn:E; simpl.
    + intros j Hj. destruct (decide (j = k)) as [->|]; [lia|apply Hp; lia].
    + exists k. split; [lia|]. split; [done|]. cif E'; [left|right]; lia.
  - right. apply H; [lia|]. intros k [] Hk Hp. destruct (m.[a + k] =? m.[b + k]) eqn:E; simpl.
    + intros j Hj. destruct (decide (j = k)) as [->|]; [lia|apply Hp; lia].
    + exists k. split; [lia|]. split; [done|]. cif E'; [left|right]; lia.
Qed.

(** ** Strings *)

Lemma strlen_text s : strlen s = Z.of_nat (length (text s)).
Proof. induction s as [|c s IH]; simpl; [done|]. destruct (c =? 0); simpl; lia. Qed.

Lemma text_no_nul s : Forall (fun c => c <> 0) (text s).
Proof. induction s as [|c s IH]; simpl; [done|]. destruct (c =? 0) eqn:E; [done|]. constructor; [lia|done]. Qed.

Lemma text_id s : Forall (fun c => c <> 0) s -> text s = s.
Proof. induction 1 as [|c s Hc _ IH]; simpl; [done|]. replace (c =? 0) with false by lia. by rewrite IH. Qed.

Lemma u8_byte c : is_byte c -> u8 c = c.
Proof. intros. unfold u8. by rewrite Z.mod_small. Qed.

Lemma text_chr s : text s = if chr s =? 0 then [] else chr s :: text (tail s).
Proof. by destruct s. Qed.

(** [strcmp] returns 0 exactly when the strings have the same characters. *)
Lemma strcmp_eq a b : Forall is_byte a -> Forall is_byte b -> strcmp a b = 0 <-> text a = text b.
Proof.
  intros Ha. revert b. induction Ha as [|c a Hc Ha IH]; intros b Hb; simpl.
  - rewrite (text_chr b). assert (is_byte (chr b)) by (by destruct Hb). rewrite u8_byte by done.
    destruct (chr b =? 0) eqn:E; split; try done; lia.
  - assert (Hb0 : is_byte (chr b)) by (by destruct Hb). assert (Hbt : Forall is_byte (tail b)) by (by destruct Hb).
    rewrite (text_chr b), !u8_byte by done. destruct (c =? 0) eqn:E0; simpl.
    + destruct (chr b =? 0) eqn:E1; split; try done; lia.
    + destruct (c =? chr b) eqn:E1.
      * replace (chr b =? 0) with false by lia. replace c with (chr b) by lia. rewrite IH by done. split; [by intros ->|by injection 1].
      * split; [lia|]. destruct (chr b =? 0); [done|]. injection 1. lia.
Qed.

(** [strncmp] returns 0 exactly when the strings agree on their first
    [count] characters. *)
Lemma strncmp_eq a b count :
  Forall is_byte a -> Forall is_byte b -> strncmp a b count = 0 <-> take count (text a) = take count (text b).
Proof.
  revert a b. induction count as [|n IH]; intros a b Ha Hb; simpl; [done|].
  assert (Ha0 : is_byte (chr a)) by (by destruct Ha). assert (Hat : Forall is_byte (tail a)) by (by destruct Ha).
  assert (Hb0 : is_byte (chr b)) by (by destruct Hb). assert (Hbt : Forall is_byte (tail b)) by (by destruct Hb).
  rewrite (text_chr a), (text_chr b), !u8_byte by done. destruct (chr a =? chr b) eqn:E; simpl.
  - replace (chr b) with (chr a) by lia. destruct (chr a =? 0); [split; [done|lia]|]. rewrite IH by done. simpl. split; [congruence|by injection 1].
  - split; [lia|]. destruct (chr a =? 0) eqn:E1, (chr b =? 0) eqn:E2; try lia; try done. injection 1. lia.
Qed.

Lemma memcpy_spec_witness : patched (afill 7) (memcpy (afill 7) 100 200 16) 100 116 (fun a => (afill 7).[200 + (a - 100)]).
Proof. apply memcpy_spec. left. lia. Defined.
