(* ===== verification/Path.v ===== *)
(** * Paths (src/src/fs/vfs.c)

    Canonical paths, their resolution against a working directory, and the
    comparison of archive names with directories.  A path buffer is the list of
    the characters written so far. *)

From Stdlib Require Import ZArith Lia Bool ZifyBool.
From stdpp Require Import base numbers list gmap.
From S2P Require Import Prelude Kstring.

Definition SLASH : Z := 47.
Definition DOT : Z := 46.
Definition VFS_NAME_CAPACITY : Z := 256.
Definition PERSIST_NAME_CAPACITY : Z := 48.

Definition len (s : list Z) : Z := Z.of_nat (length s).

(** ** Canonical paths *)

Fixpoint skip_slashes (s : cstr) : cstr :=
  match s with
  | [] => []
  | c :: s' => if c =? SLASH then skip_slashes s' else s
  end.

(** The characters up to the next separator or the end, and what follows. *)
Fixpoint take_component (s : cstr) : list Z * cstr :=
  match s with
  | [] => ([], [])
  | c :: s' => if (c =? 0) || (c =? SLASH) then ([], s) else let '(n, r) := take_component s' in (c :: n, r)
  end.

(** Dropping the last name of the buffer, given in reverse. *)
Fixpoint drop_name (r : list Z) : list Z :=
  match r with
  | [] => []
  | c :: r' => if negb (c =? SLASH) then drop_name r' else r'
  end.

Definition pop_name (output : list Z) : list Z := reverse (drop_name (reverse output)).

(** One round of the loop; [inr] leaves it, with [None] for a path too long. *)
Definition canonicalize_step (capacity : Z) (st : cstr * list Z) : (cstr * list Z) + option (list Z) :=
  let '(path, output) := st in
  if chr path =? 0 then inr (Some output)
  else
    let path := skip_slashes path in
    if chr path =? 0 then inr (Some output)
    else
      let '(name, path) := take_component path in
      if bool_decide (name = [DOT]) then inl (path, output)
      else if bool_decide (name = [DOT; DOT]) then inl (path, pop_name output)
      else if len output + 1 + len name >=? capacity then inr None
      else inl (path, output ++ SLASH :: name).

Definition canonicalize_path (path : cstr) (capacity : Z) : option (list Z) :=
  if (capacity <? 2) || negb (chr path =? SLASH) then None
  else
    match loop_nat (S (length path)) (canonicalize_step capacity) (tail path, []) with
    | inr (Some output) => Some (if bool_decide (output = []) then [SLASH] else output)
    | _ => None
    end.

Definition vfs_resolve_path (cwd path : cstr) (capacity : Z) : option (list Z) :=
  if (capacity <? 2) || negb (chr cwd =? SLASH) || (chr path =? 0) then None
  else
    let cwd_length := strlen cwd in
    let path_length := strlen path in
    if chr path =? SLASH then
      if path_length >=? VFS_NAME_CAPACITY then None else canonicalize_path (text path) capacity
    else
      let separator := if negb (cwd_length =? 0) && bool_decide (last (text cwd) = Some SLASH) then 0 else 1 in
      if cwd_length + separator + path_length >=? VFS_NAME_CAPACITY then None
      else canonicalize_path (text cwd ++ (if separator =? 0 then [] else [SLASH]) ++ text path) capacity.

(** ** Archive names *)

Definition copy_name (capacity : Z) (source : cstr) : option (list Z) :=
  if (capacity =? 0) || (strlen source + 1 >? capacity) then None else Some (text source).

Definition initrd_name_matches (archive_name canonical : cstr) : bool :=
  if chr archive_name =? SLASH then strcmp archive_name canonical =? 0
  else (chr canonical =? SLASH) && (strcmp archive_name (tail canonical) =? 0).

Definition skip_root (name : cstr) : cstr := if chr name =? SLASH then tail name else name.

(** [names] are the names of the archive files, in order. *)
Definition initrd_directory_exists (names : list cstr) (canonical : cstr) : bool :=
  if strcmp canonical [SLASH] =? 0 then true
  else
    let directory_length := strlen canonical - 1 in
    if directory_length =? 0 then true
    else
      existsb (fun name =>
        let name := skip_root name in
        (strlen name >? directory_length) &&
        (strncmp name (tail canonical) (Z.to_nat directory_length) =? 0) &&
        (chr (drop (Z.to_nat directory_length) name) =? SLASH)) names.

Definition initrd_child_from_name (directory archive_name : cstr) (capacity : Z) : option (list Z * bool) :=
  if capacity =? 0 then None
  else
    let name := skip_root archive_name in
    let directory_length := if strcmp directory [SLASH] =? 0 then 0 else strlen directory - 1 in
    if negb (directory_length =? 0) &&
       ((strlen name <=? directory_length) || negb (strncmp name (tail directory) (Z.to_nat directory_length) =? 0) ||
        negb (chr (drop (Z.to_nat directory_length) name) =? SLASH)) then None
    else
      let relative := drop (Z.to_nat (directory_length + (if negb (directory_length =? 0) then 1 else 0))) name in
      let '(child, rest) := take_component relative in
      if (len child =? 0) || (len child + 1 >? capacity) then None
      else Some (child, chr rest =? SLASH).

Definition initrd_child_seen (names : list cstr) (directory child : cstr) (is_directory : bool) : bool :=
  existsb (fun name =>
    match initrd_child_from_name directory name VFS_NAME_CAPACITY with
    | None => false
    | Some (previous, previous_directory) => Bool.eqb previous_directory is_directory && (strcmp previous child =? 0)
    end) names.

(** [seen] are the names before [names]. *)
Fixpoint initrd_child_from (directory : cstr) (seen names : list cstr) (wanted : Z) (capacity : Z) : option (list Z * bool) :=
  match names with
  | [] => None
  | name :: names' =>
      match initrd_child_from_name directory name capacity with
      | None => initrd_child_from directory (seen ++ [name]) names' wanted capacity
      | Some (child, d) =>
          if initrd_child_seen seen directory child d then initrd_child_from directory (seen ++ [name]) names' wanted capacity
          else if wanted =? 0 then Some (child, d)
          else initrd_child_from directory (seen ++ [name]) names' (wanted - 1) capacity
      end
  end.

Definition initrd_child_at (names : list cstr) (directory : cstr) (wanted capacity : Z) : option (list Z * bool) :=
  initrd_child_from directory [] names wanted capacity.

(** "/persist/" *)
Definition PERSIST_PREFIX : list Z := [47; 112; 101; 114; 115; 105; 115; 116; 47].

Definition persistent_extract_name (path : cstr) (capacity : Z) : option (list Z) :=
  if (capacity =? 0) || negb (strncmp path PERSIST_PREFIX 9 =? 0) then None
  else
    let source := drop 9 path in
    let length := strlen source in
    if (length =? 0) || (length >=? capacity) then None
    else if existsb (Z.eqb SLASH) (text source) then None
    else Some (text source).

(** ** Specification: a path is the list of its names *)

Fixpoint split_slash (s : list Z) : list (list Z) :=
  match s with
  | [] => [[]]
  | c :: s' =>
      if c =? SLASH then [] :: split_slash s'
      else match split_slash s' with [] => [[c]] | h :: t => (c :: h) :: t end
  end.

Definition nonempty (n : list Z) : bool := negb (bool_decide (n = [])).
Definition components (s : list Z) : list (list Z) := List.filter nonempty (split_slash s).

(** Following one name from a directory given by its names. *)
Definition enter (dir : list (list Z)) (name : list Z) : list (list Z) :=
  if bool_decide (name = [DOT]) then dir
  else if bool_decide (name = [DOT; DOT]) then removelast dir
  else dir ++ [name].

Definition normalize (names : list (list Z)) : list (list Z) := fold_left enter names [].

Definition buffer (dir : list (list Z)) : list Z := concat (map (cons SLASH) dir).
Definition render (dir : list (list Z)) : list Z := if bool_decide (dir = []) then [SLASH] else buffer dir.

(** A name that a canonical path can have. *)
Record proper (n : list Z) : Prop := {
  pr_nonempty : n <> [];
  pr_chars : Forall (fun c => c <> SLASH /\ c <> 0) n;
  pr_dot : n <> [DOT];
  pr_dotdot : n <> [DOT; DOT]
}.

(** The walk with the bound on the buffer at each step. *)
Fixpoint walk (capacity : Z) (dir names : list (list Z)) : option (list (list Z)) :=
  match names with
  | [] => Some dir
  | n :: names' =>
      if bool_decide (n = [DOT]) || bool_decide (n = [DOT; DOT]) then walk capacity (enter dir n) names'
      else if len (buffer dir) + 1 + len n >=? capacity then None
      else walk capacity (enter dir n) names'
  end.

(** ** Lemmas *)

Lemma split_slash_nonnil s : split_slash s <> [].
Proof. destruct s as [|c s]; simpl; [done|]. destruct (c =? SLASH); [done|]. by destruct (split_slash s). Qed.

Lemma split_slash_app a b : split_slash (a ++ SLASH :: b) = split_slash a ++ split_slash b.
Proof.
  induction a as [|c a IH]; simpl; [done|]. destruct (c =? SLASH); [by rewrite IH|]. rewrite IH.
  pose proof (split_slash_nonnil a). by destruct (split_slash a).
Qed.

Lemma components_app a b : components (a ++ SLASH :: b) = components a ++ components b.
Proof. unfold components. by rewrite split_slash_app, List.filter_app. Qed.

Lemma components_slash s : components (SLASH :: s) = components s.
Proof. done. Qed.

Lemma split_slash_name n : Forall (fun c => c <> SLASH) n -> split_slash n = [n].
Proof. induction 1 as [|c n Hc _ IH]; simpl; [done|]. replace (c =? SLASH) with false by (unfold SLASH in *; lia). by rewrite IH. Qed.

Lemma components_name n : n <> [] -> Forall (fun c => c <> SLASH) n -> components n = [n].
Proof. intros Hn Hc. unfold components. rewrite split_slash_name by done. simpl. unfold nonempty. by rewrite bool_decide_eq_false_2. Qed.

Lemma components_cons n s : n <> [] -> Forall (fun c => c <> SLASH) n -> components (n ++ SLASH :: s) = n :: components s.
Proof. intros Hn Hc. by rewrite components_app, components_name. Qed.

Lemma proper_noslash n : proper n -> Forall (fun c => c <> SLASH) n.
Proof. intros [_ H _ _]. eapply Forall_impl; [exact H|]. by intros c []. Qed.

Lemma components_buffer dir : Forall proper dir -> components (buffer dir) = dir.
Proof.
  induction 1 as [|n dir Hn Hd IH]; [done|]. unfold buffer. simpl. rewrite components_slash. fold (buffer dir).
  destruct Hd as [|m dir Hm Hd].
  - unfold buffer. simpl. rewrite app_nil_r. apply components_name; [apply Hn|by apply proper_noslash].
  - rewrite <- IH at 2. unfold buffer. simpl. rewrite components_cons; [|apply Hn|by apply proper_noslash].
    by rewrite components_slash.
Qed.

Lemma buffer_app a b : buffer (a ++ b) = buffer a ++ buffer b.
Proof. unfold buffer. by rewrite map_app, concat_app. Qed.

Lemma buffer_one n : buffer [n] = SLASH :: n.
Proof. unfold buffer. simpl. by rewrite app_nil_r. Qed.

Lemma drop_name_app n r : Forall (fun c => c <> SLASH) n -> drop_name (n ++ SLASH :: r) = r.
Proof. induction 1 as [|c n Hc _ IH]; [done|]. simpl. replace (c =? SLASH) with false by (unfold SLASH in *; lia). done. Qed.

Lemma pop_buffer dir : Forall proper dir -> pop_name (buffer dir) = buffer (removelast dir).
Proof.
  intros Hd. destruct dir as [|x l _] using rev_ind; [done|]. rewrite removelast_last. rewrite Forall_app, Forall_cons in Hd.
  destruct Hd as (_ & Hx & _). unfold pop_name. rewrite buffer_app, buffer_one. rewrite reverse_app, reverse_cons, <- app_assoc. simpl.
  rewrite drop_name_app; [by rewrite reverse_involutive|]. apply Forall_reverse. by apply proper_noslash.
Qed.

Lemma removelast_forall {A} (P : A -> Prop) l : Forall P l -> Forall P (removelast l).
Proof.
  intros Hl. destruct l as [|x l _] using rev_ind; [done|]. rewrite removelast_last. by apply Forall_app in Hl as [? _].
Qed.

Lemma text_skip s : components (text (skip_slashes s)) = components (text s).
Proof.
  induction s as [|c s IH]; simpl; [done|]. destruct (c =? SLASH) eqn:E; [|done]. unfold SLASH in *.
  replace (c =? 0) with false by lia. replace c with 47 by lia. by rewrite components_slash.
Qed.

Lemma skip_slashes_len s : (length (skip_slashes s) <= length s)%nat.
Proof. induction s as [|c s IH]; simpl; [lia|]. destruct (c =? SLASH); simpl; lia. Qed.

Lemma skip_slashes_head s : chr (skip_slashes s) <> SLASH.
Proof. induction s as [|c s IH]; simpl; [done|]. destruct (c =? SLASH) eqn:E; [done|]. simpl. lia. Qed.

Lemma take_component_spec s n r :
  take_component s = (n, r) ->
  s = n ++ r /\ Forall (fun c => c <> SLASH /\ c <> 0) n /\ (chr r = 0 \/ chr r = SLASH).
Proof.
  revert n r; induction s as [|c s IH]; intros n r; simpl; [intros X; injection X as <- <-; split; [done|]; split; [done|by left]|].
  destruct ((c =? 0) || (c =? SLASH)) eqn:E.
  - intros X; injection X as <- <-. split; [done|]. split; [done|]. simpl. zbool. apply orb_true_iff in E as [?|?]; lia.
  - destruct (take_component s) as [n' r']. intros X; injection X as <- <-. destruct (IH n' r' eq_refl) as (-> & Hn & Hr).
    split; [done|]. split; [|done]. constructor; [zbool; lia|done].
Qed.

Lemma text_app_name n r : Forall (fun c => c <> 0) n -> text (n ++ r) = n ++ text r.
Proof. induction 1 as [|c n Hc _ IH]; [done|]. simpl. replace (c =? 0) with false by lia. by rewrite IH. Qed.

Lemma components_take s n r :
  take_component s = (n, r) -> n <> [] -> components (text s) = n :: components (text r).
Proof.
  intros E Hn. destruct (take_component_spec _ _ _ E) as (-> & Hc & Hr).
  assert (Hc0 : Forall (fun c => c <> 0) n) by (eapply Forall_impl; [exact Hc|]; tauto).
  assert (Hcs : Forall (fun c => c <> SLASH) n) by (eapply Forall_impl; [exact Hc|]; tauto).
  rewrite text_app_name by done. destruct r as [|c r]; [simpl; rewrite app_nil_r; by apply components_name|].
  simpl in Hr. simpl. destruct (c =? 0) eqn:Ez; [rewrite app_nil_r; by apply components_name|].
  assert (c = SLASH) as -> by lia. rewrite components_cons by done. by rewrite components_slash.
Qed.

Lemma enter_proper dir n :
  Forall proper dir -> n <> [] -> Forall (fun c => c <> SLASH /\ c <> 0) n -> Forall proper (enter dir n).
Proof.
  intros Hd Hn Hc. unfold enter. destruct (bool_decide (n = [DOT])) eqn:E1; [done|].
  destruct (bool_decide (n = [DOT; DOT])) eqn:E2; [by apply removelast_forall|].
  apply Forall_app. split; [done|]. constructor; [|done]. split; try done; by apply bool_decide_eq_false in E1, E2.
Qed.

(** One round follows the first name of the rest of the path. *)
Lemma canonicalize_step_spec capacity path dir :
  Forall proper dir ->
  match canonicalize_step capacity (path, buffer dir) with
  | inr r => r = match walk capacity dir (components (text path)) with Some d => Some (buffer d) | None => None end
  | inl (path', output) =>
      exists dir', output = buffer dir' /\ Forall proper dir' /\ (length path' < length path)%nat /\
        walk capacity dir (components (text path)) = walk capacity dir' (components (text path'))
  end.
Proof.
  intros Hd. unfold canonicalize_step. destruct (chr path =? 0) eqn:E0.
  { rewrite text_chr, E0. done. }
  rewrite <- text_skip. pose proof (skip_slashes_len path) as Hlen. pose proof (skip_slashes_head path) as Hh.
  destruct (chr (skip_slashes path) =? 0) eqn:E1; [rewrite text_chr, E1; done|].
  destruct (take_component (skip_slashes path)) as [n r] eqn:Et.
  destruct (take_component_spec _ _ _ Et) as (Es & Hc & Hr).
  assert (Hn : n <> []). { intros ->. simpl in Es. rewrite <- Es in Hr. destruct Hr; lia. }
  rewrite (components_take _ _ _ Et Hn). simpl walk.
  assert (Hlt : (length r < length path)%nat).
  { assert (length (skip_slashes path) = length n + length r)%nat as X by (rewrite Es, length_app; done). destruct n; [done|]. simpl in X. lia. }
  assert (He : Forall proper (enter dir n)) by (by apply enter_proper).
  unfold enter in *. destruct (bool_decide (n = [DOT])); simpl; [by exists dir|].
  destruct (bool_decide (n = [DOT; DOT])); simpl.
  { exists (removelast dir). split; [by apply pop_buffer|]. done. }
  destruct (_ >=? capacity); [done|]. exists (dir ++ [n]). split; [by rewrite buffer_app, buffer_one|]. done.
Qed.

Lemma canonicalize_loop capacity fuel path dir :
  (length path < fuel)%nat -> Forall proper dir ->
  loop_nat fuel (canonicalize_step capacity) (path, buffer dir) =
  inr (match walk capacity dir (components (text path)) with Some d => Some (buffer d) | None => None end).
Proof.
  revert path dir; induction fuel as [|fuel IH]; intros path dir Hf Hd; [lia|]. cbn [loop_nat].
  pose proof (canonicalize_step_spec capacity path dir Hd) as H.
  destruct (canonicalize_step _ _) as [[path' output]|r]; [|by rewrite H].
  destruct H as (dir' & -> & Hd' & Hl & ->). apply IH; [lia|done].
Qed.

Lemma buffer_nil_iff dir : buffer dir = [] <-> dir = [].
Proof. destruct dir; [done|]. unfold buffer. simpl. split; [done|]. by intros. Qed.

(** The walk is [normalize], with proper names and a buffer within bounds. *)
Lemma walk_spec capacity dir names d :
  Forall proper dir -> len (buffer dir) < capacity -> Forall (fun n => n <> [] /\ Forall (fun c => c <> SLASH /\ c <> 0) n) names ->
  walk capacity dir names = Some d -> d = fold_left enter names dir /\ Forall proper d /\ len (buffer d) < capacity.
Proof.
  intros Hd Hb Hn. revert dir Hd Hb. induction Hn as [|n names [Hn1 Hn2] _ IH]; intros dir Hd Hb; simpl; [intros X; by injection X as <-|].
  assert (He : Forall proper (enter dir n)) by (by apply enter_proper).
  unfold enter in *. destruct (bool_decide (n = [DOT])); simpl; [by apply IH|].
  destruct (bool_decide (n = [DOT; DOT])); simpl.
  - apply IH; [done|]. destruct dir as [|x l _] using rev_ind; [done|]. rewrite removelast_last. rewrite buffer_app in Hb.
    unfold len in *. rewrite length_app in Hb. lia.
  - destruct (_ >=? capacity) eqn:E; [done|]. apply IH; [done|]. rewrite buffer_app, buffer_one. unfold len in *. rewrite length_app. simpl. lia.
Qed.

Lemma components_chars s : Forall (fun c => c <> 0) s -> Forall (fun n => n <> [] /\ Forall (fun c => c <> SLASH /\ c <> 0) n) (components s).
Proof.
  intros Hs. apply Forall_forall. intros n Hn. apply list_elem_of_In, filter_In in Hn as [Hn Hne]. split.
  { unfold nonempty in Hne. apply negb_true_iff, bool_decide_eq_false in Hne. done. }
  clear Hne. revert n Hn. induction Hs as [|c s Hc _ IH]; intros n Hn; simpl in Hn.
  - by destruct Hn as [<-|[]].
  - destruct (c =? SLASH) eqn:E; [destruct Hn as [<-|Hn]; [done|by apply IH]|].
    destruct (split_slash s) as [|h t] eqn:Es; [by apply split_slash_nonnil in Es|].
    destruct Hn as [<-|Hn]; [|by apply IH; right]. constructor; [split; [unfold SLASH in *; lia|done]|]. apply IH. by left.
Qed.

Definition names_size (names : list (list Z)) : Z := foldr (fun n k => 1 + len n + k) 0 names.

Lemma components_size s : names_size (components s) <= len s + 1.
Proof.
  unfold components. assert (H : names_size (split_slash s) = len s + 1).
  { induction s as [|c s IH]; [done|]. simpl. destruct (c =? SLASH); simpl.
    - unfold names_size, len in *. simpl. rewrite IH. lia.
    - destruct (split_slash s) as [|h t] eqn:Es; [by apply split_slash_nonnil in Es|].
      unfold names_size, len in *. simpl in *. lia. }
  rewrite <- H. clear H. unfold names_size. induction (split_slash s) as [|n l IH]; simpl; [lia|]. unfold len in *. destruct (nonempty n); simpl; lia.
Qed.

Lemma walk_total capacity dir names :
  len (buffer dir) + names_size names < capacity -> walk capacity dir names = Some (fold_left enter names dir).
Proof.
  revert dir; induction names as [|n names IH]; intros dir Hs; [done|]. simpl in *.
  assert (Hge : 0 <= names_size names) by (clear; induction names; simpl; unfold len in *; lia).
  assert (Hen : len (buffer (enter dir n)) <= len (buffer dir) + 1 + len n).
  { unfold enter, len. destruct (bool_decide (n = [DOT])); [lia|]. destruct (bool_decide (n = [DOT; DOT])).
    - destruct dir as [|x l _] using rev_ind; [simpl; lia|]. rewrite removelast_last, buffer_app, length_app. lia.
    - rewrite buffer_app, buffer_one, length_app. simpl. lia. }
  destruct (_ || _); [apply IH; lia|]. replace (_ >=? capacity) with false by lia. apply IH. lia.
Qed.

Lemma canonicalize_walk path capacity :
  2 <= capacity -> chr path = SLASH ->
  canonicalize_path path capacity = match walk capacity [] (components (text path)) with Some d => Some (render d) | None => None end.
Proof.
  intros Hc Hp. unfold canonicalize_path. replace ((capacity <? 2) || _) with false by lia.
  destruct path as [|c path]; [done|]. simpl in Hp. subst c. change (tail (SLASH :: path)) with path.
  rewrite (canonicalize_loop capacity _ path []); [|simpl; lia|done]. simpl text. rewrite components_slash.
  destruct (walk _ _ _) as [d|]; [|done]. unfold render. f_equal.
  destruct (bool_decide (d = [])) eqn:E; [apply bool_decide_eq_true in E; by subst d|].
  apply bool_decide_eq_false in E. rewrite bool_decide_eq_false_2; [done|]. by rewrite buffer_nil_iff.
Qed.

Lemma fold_enter_proper dir names : Forall proper names -> fold_left enter names dir = dir ++ names.
Proof.
  intros Hn. revert dir. induction Hn as [|n names [H1 H2 H3 H4] _ IH]; intros dir; simpl; [by rewrite app_nil_r|].
  unfold enter at 2. rewrite !bool_decide_eq_false_2 by done. by rewrite IH, <- app_assoc.
Qed.

Lemma text_render dir : Forall proper dir -> text (render dir) = render dir.
Proof.
  intros Hd. apply text_id. unfold render. destruct (bool_decide (dir = [])); [by constructor|].
  induction Hd as [|n dir Hn _ IH]; [done|]. unfold buffer. simpl. constructor; [done|]. apply Forall_app. split; [|done].
  destruct Hn as [_ Hc _ _]. eapply Forall_impl; [exact Hc|]. by intros c [].
Qed.

Lemma components_render dir : Forall proper dir -> components (render dir) = dir.
Proof.
  intros Hd. unfold render. destruct (bool_decide (dir = [])) eqn:E; [apply bool_decide_eq_true in E; by subst dir|by apply components_buffer].
Qed.

Lemma names_size_buffer d : names_size d = len (buffer d).
Proof.
  induction d as [|n d IH]; [done|]. change (names_size (n :: d)) with (1 + len n + names_size d). rewrite IH.
  unfold buffer, len. simpl. rewrite length_app. lia.
Qed.

Lemma canonicalize_result path capacity out :
  canonicalize_path path capacity = Some out ->
  exists d, out = render d /\ d = normalize (components (text path)) /\ Forall proper d /\ len out < capacity.
Proof.
  intros E. assert (2 <= capacity /\ chr path = SLASH) as [Hc Hp].
  { unfold canonicalize_path in E. destruct ((capacity <? 2) || _) eqn:G; [done|]. lia. }
  rewrite canonicalize_walk in E by done. destruct (walk _ _ _) as [d|] eqn:Ew; [|done]. injection E as <-.
  apply walk_spec in Ew as (Ed & Hd & Hb); [|done|simpl; unfold len; simpl; lia|apply components_chars, text_no_nul].
  exists d. split; [done|]. split; [done|]. split; [done|].
  unfold render; destruct (bool_decide _); [unfold len; simpl; lia|done].
Qed.

(** C22: A canonical path is the name list of the path with every "." dropped and
    every ".." cancelling the name before it: whenever the call succeeds the
    result is that list rendered with one separator before each name, it fits
    the buffer with its terminator, its names are proper, and making it
    canonical again changes nothing. *)
Theorem canonicalize_path_sound path capacity out :
  canonicalize_path path capacity = Some out ->
  out = render (normalize (components (text path))) /\ len out < capacity /\
  Forall proper (components out) /\ canonicalize_path out capacity = Some out.
Proof.
  intros E. destruct (canonicalize_result _ _ _ E) as (d & -> & Ed & Hd & Hl). assert (2 <= capacity) as Hc.
  { unfold canonicalize_path in E. destruct ((capacity <? 2) || _) eqn:G; [done|]. lia. }
  split; [by rewrite Ed|]. split; [done|]. rewrite components_render by done. split; [done|].
  assert (Hr : chr (render d) = SLASH).
  { unfold render. destruct (bool_decide (d = [])) eqn:E'; [done|]. apply bool_decide_eq_false in E'. by destruct d. }
  rewrite canonicalize_walk by done. rewrite text_render, components_render by done.
  rewrite walk_total; [by rewrite fold_enter_proper|]. rewrite names_size_buffer. change (len (buffer [])) with 0. unfold render in Hl.
  destruct (bool_decide (d = [])) eqn:E'; [apply bool_decide_eq_true in E'; rewrite E'; change (len (buffer [])) with 0; lia|lia].
Qed.

(** Canonicalisation cannot fail on an absolute path that is shorter than the
    buffer: it terminates with the normalised name list. *)
Theorem canonicalize_path_total path capacity :
  chr path = SLASH -> 2 <= capacity -> len (text path) < capacity ->
  canonicalize_path path capacity = Some (render (normalize (components (text path)))).
Proof.
  intros Hp Hc Hl. rewrite canonicalize_walk by done. rewrite walk_total; [done|].
  destruct path as [|c path]; [done|]. simpl in Hp. subst c. simpl text in *. rewrite components_slash.
  pose proof (components_size (text path)). unfold buffer, len in *. simpl in *. lia.
Qed.

Lemma last_slash s : last s = Some SLASH -> exists s', s = s' ++ [SLASH].
Proof. intros E. apply last_Some in E as [s' ->]. by exists s'. Qed.

Lemma text_idem s : text (text s) = text s.
Proof. apply text_id, text_no_nul. Qed.

(** Resolving a path follows its names from the root when it is absolute and
    from the working directory when it is relative. *)
Theorem vfs_resolve_path_spec cwd path capacity out :
  vfs_resolve_path cwd path capacity = Some out ->
  out = render (normalize ((if chr path =? SLASH then [] else components (text cwd)) ++ components (text path))) /\ len out < capacity.
Proof.
  unfold vfs_resolve_path. cif G; [done|]. cif Es.
  - cif G1; [done|]. intros E. apply canonicalize_result in E as (d & -> & -> & _ & Hl). split; [|done]. simpl. by rewrite text_idem.
  - destruct (negb (strlen cwd =? 0) && bool_decide (last (text cwd) = Some SLASH)) eqn:Ed; (cif G1; [done|]).
    all: intros E; apply canonicalize_result in E as (d & -> & -> & _ & Hl); split; [|done]; do 2 f_equal; simpl in Hl |- *.
    all: rewrite text_id by (rewrite ?Forall_app, ?Forall_cons; repeat split; (apply text_no_nul || done)).
    + apply andb_true_iff in Ed as [_ Ed]. apply bool_decide_eq_true in Ed. apply last_slash in Ed as [s' ->].
      rewrite <- app_assoc. simpl. rewrite !components_app. simpl. unfold components at 3. simpl. by rewrite app_nil_r.
    + by rewrite components_app.
Qed.

(** ** Directories of the archive *)

Lemma strlen_len s : strlen s = len (text s).
Proof. apply strlen_text. Qed.

Lemma text_tail s : chr s <> 0 -> text (tail s) = tail (text s).
Proof. intros H. rewrite (text_chr s). by replace (chr s =? 0) with false by lia. Qed.

Lemma bytes_tail s : Forall is_byte s -> Forall is_byte (tail s).
Proof. by destruct 1. Qed.

Lemma skip_root_bytes name : Forall is_byte name -> Forall is_byte (skip_root name).
Proof. intros H. unfold skip_root. destruct (chr name =? SLASH); [by apply bytes_tail|done]. Qed.

(** [name] strictly below [dir], which is given without its leading separator. *)
Lemma below_spec name dir :
  Forall is_byte name -> Forall is_byte dir -> dir = text dir ->
  (strlen name >? len dir) && (strncmp name dir (Z.to_nat (len dir)) =? 0) && (chr (drop (Z.to_nat (len dir)) name) =? SLASH) = true <->
  exists rest, text name = dir ++ SLASH :: rest.
Proof.
  intros Hn Hd Ht. rewrite strlen_len. unfold len. rewrite Nat2Z.id. rewrite !andb_true_iff, !Z.eqb_eq, strncmp_eq by done.
  rewrite <- Ht, (take_ge dir) by lia. split.
  - intros [[H1 H2] H3]. assert (Hl : (length dir < length (text name))%nat) by lia.
    assert (Hc : chr (drop (length dir) (text name)) = chr (drop (length dir) name)).
    { clear -Hl. revert name Hl. generalize (length dir) as n. induction n as [|n IH]; intros name Hl.
      - destruct name as [|c name]; [done|]. simpl in *. destruct (c =? 0) eqn:E; [simpl in Hl; lia|done].
      - destruct name as [|c name]; [done|]. simpl in *. destruct (c =? 0) eqn:E; [simpl in Hl; lia|]. simpl. apply IH. simpl in Hl. lia. }
    exists (tail (drop (length dir) (text name))). rewrite <- H2 at 1. rewrite <- (take_drop (length dir) (text name)) at 1. f_equal.
    destruct (drop (length dir) (text name)) as [|c r] eqn:Ed; [apply (f_equal length) in Ed; rewrite length_drop in Ed; simpl in Ed; lia|].
    simpl in *. f_equal. lia.
  - intros [rest E]. rewrite E. split; [split|].
    + rewrite length_app. simpl. lia.
    + by rewrite take_app_length.
    + assert (H : forall n s, (n < length (text s))%nat -> chr (drop n s) = chr (drop n (text s))).
      { induction n as [|n IH]; intros s Hl; (destruct s as [|c s]; [simpl in Hl; lia|]); simpl in *; destruct (c =? 0) eqn:Ez; simpl in *; try lia. apply IH. lia. }
      rewrite H by (rewrite E, length_app; simpl; lia). by rewrite E, drop_app_length.
Qed.

(** The archive has the directory [canonical] exactly when it is the root or
    some file of the archive lies below it. *)
Theorem initrd_directory_exists_spec names canonical :
  Forall (Forall is_byte) names -> Forall is_byte canonical -> text canonical = canonical -> chr canonical = SLASH ->
  initrd_directory_exists names canonical = true <->
  canonical = [SLASH] \/ exists name rest, name ∈ names /\ text (skip_root name) = tail canonical ++ SLASH :: rest.
Proof.
  intros Hn Hb Ht Hc. unfold initrd_directory_exists. rewrite strlen_len, Ht.
  assert (Hroot : strcmp canonical [SLASH] =? 0 = true <-> canonical = [SLASH]).
  { rewrite Z.eqb_eq, strcmp_eq; [by rewrite Ht|done|repeat constructor; unfold SLASH; lia]. }
  destruct (strcmp canonical [SLASH] =? 0) eqn:E0.
  { split; [intros _; left; by apply Hroot|done]. }
  assert (Hne : canonical <> [SLASH]) by (intros X; apply Hroot in X; congruence).
  destruct canonical as [|c dir]; [done|]. simpl in Hc. subst c. simpl in Ht. injection Ht as Ht. simpl tail.
  assert (Hdir : dir <> []) by congruence.
  replace (len (SLASH :: dir) - 1) with (len dir) by (unfold len; simpl; lia).
  replace (len dir =? 0) with false by (destruct dir; [done|unfold len; simpl; lia]).
  rewrite Forall_cons in Hb. destruct Hb as [_ Hb]. rewrite existsb_exists. split.
  - intros (name & Hin & E). apply list_elem_of_In in Hin. right. rewrite Forall_forall in Hn. specialize (Hn name Hin).
    apply below_spec in E as [rest E]; [eauto|by apply skip_root_bytes|done|done].
  - intros [?|(name & rest & Hin & E)]; [done|]. exists name. split; [by apply list_elem_of_In|]. rewrite Forall_forall in Hn. specialize (Hn name Hin).
    apply below_spec; [by apply skip_root_bytes|done|done|eauto].
Qed.

(** The children a directory has by the archive, one per file, and the same
    without repetitions. *)
Definition children (names : list cstr) (directory : cstr) : list (list Z * bool) :=
  omap (fun name => initrd_child_from_name directory name VFS_NAME_CAPACITY) names.

Fixpoint uniq {A} `{EqDecision A} (seen l : list A) : list A :=
  match l with
  | [] => []
  | x :: l' => if bool_decide (x ∈ seen) then uniq (seen ++ [x]) l' else x :: uniq (seen ++ [x]) l'
  end.

Lemma child_text directory name child d :
  Forall is_byte name -> initrd_child_from_name directory name VFS_NAME_CAPACITY = Some (child, d) -> text child = child /\ Forall is_byte child.
Proof.
  intros Hb. unfold initrd_child_from_name. cif E0; [done|]. cif E1; [done|].
  match goal with |- context [take_component (drop ?k ?x)] => assert (Hx : Forall is_byte (drop k x));
    [apply Forall_drop; by apply skip_root_bytes|destruct (take_component (drop k x)) as [n r] eqn:Et] end.
  cif E2; [done|]. intros X. injection X as <- <-. destruct (take_component_spec _ _ _ Et) as (Es & Hc & _).
  split; [apply text_id; eapply Forall_impl; [exact Hc|]; by intros c []|]. rewrite Es in Hx. by apply Forall_app in Hx as [Hx _].
Qed.

Lemma child_seen_spec names directory child d :
  Forall (Forall is_byte) names -> text child = child -> Forall is_byte child ->
  initrd_child_seen names directory child d = bool_decide ((child, d) ∈ children names directory).
Proof.
  intros Hn Ht Hb. apply eq_bool_prop_intro. rewrite bool_decide_spec. unfold initrd_child_seen. rewrite Is_true_true, existsb_exists.
  unfold children. rewrite list_elem_of_omap. split.
  - intros (name & Hin & E). destruct (initrd_child_from_name _ _ _) as [[p pd]|] eqn:Ep; [|done].
    apply andb_true_iff in E as [E1 E2]. apply list_elem_of_In in Hin. rewrite Forall_forall in Hn. specialize (Hn name Hin).
    destruct (child_text _ _ _ _ Hn Ep) as [Hpt Hpb]. apply Z.eqb_eq, strcmp_eq in E2; [|done|done]. rewrite Hpt, Ht in E2. subst p.
    apply eqb_prop in E1. subst pd. eauto.
  - intros (name & Hin & Ep). exists name. split; [by apply list_elem_of_In|]. rewrite Ep.
    rewrite eqb_reflx. apply Z.eqb_eq, strcmp_eq; done.
Qed.

(** Listing a directory of the archive yields each child once, in the order
    of the first file that shows it: entry [wanted] is element [wanted] of the
    children without repetitions, and the listing ends after the last one. *)
Theorem initrd_child_at_spec names directory wanted :
  Forall (Forall is_byte) names -> 0 <= wanted ->
  initrd_child_at names directory wanted VFS_NAME_CAPACITY = uniq [] (children names directory) !! Z.to_nat wanted.
Proof.
  intros Hn Hw. unfold initrd_child_at. change (@nil (list Z * bool)) with (children [] directory).
  assert (Hs : Forall (Forall is_byte) ([] : list cstr)) by constructor. revert Hs wanted Hw. generalize ([] : list cstr) as seen.
  induction Hn as [|name names Hb Hn IH]; intros seen Hs wanted Hw; [done|]. cbn [initrd_child_from].
  assert (Hs' : Forall (Forall is_byte) (seen ++ [name])) by (apply Forall_app; split; [done|by constructor]).
  assert (Hch : children (seen ++ [name]) directory = children seen directory ++ children [name] directory)
    by (unfold children; apply omap_app).
  assert (Hcc : children (name :: names) directory = children [name] directory ++ children names directory)
    by (apply (omap_app (fun name => initrd_child_from_name directory name VFS_NAME_CAPACITY) [name] names)).
  assert (Hc1 : children [name] directory = match initrd_child_from_name directory name VFS_NAME_CAPACITY with Some c => [c] | None => [] end)
    by (unfold children; simpl; by destruct (initrd_child_from_name _ _ _)).
  rewrite Hcc, Hc1. rewrite Hc1 in Hch. clear Hcc Hc1.
  destruct (initrd_child_from_name directory name VFS_NAME_CAPACITY) as [[child d]|] eqn:Ec;
    [|etransitivity; [by apply (IH (seen ++ [name]) Hs' wanted Hw)|]; rewrite app_nil_r in Hch; by rewrite <- Hch].
  cbn [app uniq].
  destruct (child_text _ _ _ _ Hb Ec) as [Ht Hcb]. rewrite child_seen_spec by done. rewrite <- Hch.
  destruct (bool_decide _); [by apply IH|]. destruct (wanted =? 0) eqn:E; [by replace (Z.to_nat wanted) with O by lia|].
  replace (Z.to_nat wanted) with (S (Z.to_nat (wanted - 1))) by lia. simpl. apply IH; [done|lia].
Qed.

(** The name of a persistent file is what follows "/persist/" in its path: it
    is not empty, holds no separator and fits its field with the terminator. *)
Theorem persistent_extract_name_spec path capacity name :
  Forall is_byte path -> 0 < capacity ->
  persistent_extract_name path capacity = Some name <->
  text path = PERSIST_PREFIX ++ name /\ name <> [] /\ len name < capacity /\ SLASH ∉ name.
Proof.
  intros Hb Hc. unfold persistent_extract_name. replace (capacity =? 0) with false by lia. rewrite orb_false_l.
  assert (Hp : strncmp path PERSIST_PREFIX 9 = 0 <-> take 9 (text path) = PERSIST_PREFIX).
  { rewrite strncmp_eq; [done|done|]. unfold PERSIST_PREFIX. repeat constructor; lia. }
  assert (Hd : take 9 (text path) = PERSIST_PREFIX -> text path = PERSIST_PREFIX ++ text (drop 9 path)).
  { intros E. rewrite <- (take_drop 9 (text path)), E at 1. f_equal. assert (Hl : length (take 9 (text path)) = 9%nat) by (by rewrite E).
    clear E Hp Hb. rewrite length_take in Hl. assert (9 <= length (text path))%nat as Hl' by lia. clear Hl. revert path Hl'. generalize 9%nat.
    induction n as [|n IH]; intros path Hl; [done|]. destruct path as [|c path]; [simpl in Hl; lia|]. simpl in *.
    destruct (c =? 0); simpl in *; [lia|]. apply IH. lia. }
  assert (Hs : forall s, existsb (Z.eqb SLASH) s = false <-> SLASH ∉ s).
  { intros s. rewrite <- not_true_iff_false, existsb_exists. split.
    - intros H Hin. apply H. exists SLASH. split; [by apply list_elem_of_In|lia].
    - intros H (c & Hin & E). apply H. apply list_elem_of_In in Hin. by replace SLASH with c by lia. }
  destruct (strncmp path PERSIST_PREFIX 9 =? 0) eqn:E; cbn [negb].
  - apply Z.eqb_eq, Hp, Hd in E. rewrite strlen_len. rewrite E. split.
    + cif G; [done|]. destruct (existsb _ _) eqn:Es; [done|]. intros X; injection X as <-. split; [done|]. apply Hs in Es.
      split; [|split; [lia|done]]. intros X. rewrite X in G. unfold len in G. simpl in G. lia.
    + intros (X & Hne & Hlen & Hsl). apply app_inv_head in X. rewrite X.
      replace ((len name =? 0) || (len name >=? capacity)) with false by (destruct name; [done|unfold len in *; simpl in *; lia]).
      rewrite (proj2 (Hs name)) by done. done.
  - split; [done|]. intros (X & _). assert (strncmp path PERSIST_PREFIX 9 = 0); [|lia]. apply Hp. by rewrite X.
Qed.

(** ** Examples *)

(** "/bin/../etc/./motd" *)
Definition path_example : cstr := [47; 98; 105; 110; 47; 46; 46; 47; 101; 116; 99; 47; 46; 47; 109; 111; 116; 100].
(** "etc/motd", "etc/init/rc" and "/bin/sh" *)
Definition names_example : list cstr :=
  [[101; 116; 99; 47; 109; 111; 116; 100]; [101; 116; 99; 47; 105; 110; 105; 116; 47; 114; 99]; [47; 98; 105; 110; 47; 115; 104]].

Ltac bytes := repeat (apply Forall_cons; split; [unfold is_byte; lia|]); try apply Forall_nil; done.

Lemma names_example_bytes : Forall (Forall is_byte) names_example.
Proof. unfold names_example. rewrite !Forall_cons, !Forall_nil. unfold is_byte. lia. Qed.

Lemma canonicalize_path_sound_witness :
  canonicalize_path path_example 256 = Some [47; 101; 116; 99; 47; 109; 111; 116; 100] /\
  Forall proper (components [47; 101; 116; 99; 47; 109; 111; 116; 100]).
Proof.
  assert (E : canonicalize_path path_example 256 = Some [47; 101; 116; 99; 47; 109; 111; 116; 100]) by (vm_compute; reflexivity).
  split; [exact E|]. apply (canonicalize_path_sound path_example 256). exact E.
Defined.

Lemma canonicalize_path_total_witness :
  canonicalize_path path_example 256 = Some (render (normalize (components (text path_example)))).
Proof. apply canonicalize_path_total; vm_compute; reflexivity || discriminate. Defined.

Lemma vfs_resolve_path_spec_witness :
  let out := [47; 101; 116; 99; 47; 109; 111; 116; 100] in
  vfs_resolve_path [47; 98; 105; 110] [46; 46; 47; 101; 116; 99; 47; 109; 111; 116; 100] 256 = Some out /\ len out < 256.
Proof.
  assert (E : vfs_resolve_path [47; 98; 105; 110] [46; 46; 47; 101; 116; 99; 47; 109; 111; 116; 100] 256 = Some [47; 101; 116; 99; 47; 109; 111; 116; 100])
    by (vm_compute; reflexivity).
  split; [exact E|]. apply (vfs_resolve_path_spec _ _ _ _ E).
Defined.

Lemma initrd_directory_exists_spec_witness : initrd_directory_exists names_example [47; 101; 116; 99] = true.
Proof.
  apply initrd_directory_exists_spec; [apply names_example_bytes|bytes|vm_compute; reflexivity|reflexivity|].
  right. exists [101; 116; 99; 47; 109; 111; 116; 100], [109; 111; 116; 100]. split; [left|vm_compute; reflexivity].
Defined.

Lemma initrd_child_at_spec_witness :
  initrd_child_at names_example [47] 1 VFS_NAME_CAPACITY = uniq [] (children names_example [47]) !! 1%nat.
Proof. apply (initrd_child_at_spec names_example [47] 1); [apply names_example_bytes|lia]. Defined.

Lemma persistent_extract_name_spec_witness : persistent_extract_name (PERSIST_PREFIX ++ [97; 98]) 48 = Some [97; 98].
Proof.
  apply persistent_extract_name_spec; [unfold PERSIST_PREFIX; simpl; bytes|lia|].
  split; [vm_compute; reflexivity|]. split; [done|]. split; [vm_compute; reflexivity|]. unfold SLASH. set_solver.
Defined.
