(* ===== verification/Newc.v ===== *)
(** * The initramfs archive (src/src/fs/vfs.c, src/tools/make_initramfs.py)

    The parser of the newc archive the boot loader passes, on a buffer of bytes
    of which [size] belong to the archive; a read outside the buffer is [None].
    The writer of the build tool is modelled as well, so that what it packs is
    what the kernel registers. *)

From Stdlib Require Import ZArith Lia Bool ZifyBool.
From stdpp Require Import base numbers list gmap.
From S2P Require Import Prelude Kstring Path.

Definition MAX_INITRD_FILES : Z := 64.

(** A registered file: its name, its bytes and where they start. *)
Record initrd_file := InitrdFile { if_name : cstr; if_data : list Z; if_size : Z }.

Definition byte_of (buf : list Z) (i : Z) : option Z := if 0 <=? i then buf !! Z.to_nat i else None.
Definition slice (buf : list Z) (i n : Z) : list Z := take (Z.to_nat n) (drop (Z.to_nat i) buf).

Definition add_overflow (a b : Z) : bool := b >? UINT64_MAX - a.
Definition align4_checked (value : Z) : option Z :=
  if value >? UINT64_MAX - 3 then None else Some (Z.land (value + 3) (not64 3)).

(** A hexadecimal digit, in either case. *)
Definition hex_digit (c : Z) : option Z :=
  if (c >=? 48) && (c <=? 57) then Some (c - 48)
  else if (c >=? 97) && (c <=? 102) then Some (c - 97 + 10)
  else if (c >=? 65) && (c <=? 70) then Some (c - 65 + 10)
  else None.

(** A character that is no digit returns 0 at once. *)
Fixpoint hex_loop (buf : list Z) (i : Z) (n : nat) (value : Z) : option Z :=
  match n with
  | O => Some value
  | S n' =>
      match byte_of buf i with
      | None => None
      | Some c =>
          match hex_digit c with
          | Some d => hex_loop buf (i + 1) n' (Z.lor (u32 (Z.shiftl value 4)) d)
          | None => Some 0
          end
      end
  end.

Definition hex_field (buf : list Z) (i : Z) (length : nat) : option Z := hex_loop buf i length 0.

(** [strncmp] of the archive at [i] with a literal: 0 when they agree. *)
Fixpoint strncmp_at (buf : list Z) (i : Z) (lit : cstr) (count : nat) : option Z :=
  match count with
  | O => Some 0
  | S count' =>
      match byte_of buf i with
      | None => None
      | Some c => if negb (c =? chr lit) || (c =? 0) then Some (u8 c - u8 (chr lit)) else strncmp_at buf (i + 1) (tail lit) count'
      end
  end.

(** "070701" and "TRAILER!!!" *)
Definition NEWC_MAGIC : list Z := [48; 55; 48; 55; 48; 49].
Definition NEWC_TRAILER : list Z := [84; 82; 65; 73; 76; 69; 82; 33; 33; 33].

Definition vfs_register_file (files : list initrd_file) (f : initrd_file) : list initrd_file :=
  if Z.of_nat (length files) >=? MAX_INITRD_FILES then files else files ++ [f].

(** One archive member; [inr] leaves the loop. *)
Definition parse_newc_step (buf : list Z) (size : Z) (st : Z * list initrd_file) : option ((Z * list initrd_file) + list initrd_file) :=
  let '(offset, files) := st in
  if negb ((offset <=? size) && (size - offset >=? 110)) then Some (inr files)
  else
    magic ← strncmp_at buf offset NEWC_MAGIC 6;
    if negb (magic =? 0) then Some (inr files)
    else
      mode ← hex_field buf (offset + 14) 8;
      file_size ← hex_field buf (offset + 54) 8;
      name_size ← hex_field buf (offset + 94) 8;
      if (name_size =? 0) || (name_size >? size - offset - 110) then Some (inr files)
      else
        let name_offset := offset + 110 in
        if add_overflow name_offset name_size then Some (inr files)
        else
          match align4_checked (name_offset + name_size) with
          | None => Some (inr files)
          | Some name_end =>
              if name_end >? size then Some (inr files)
              else
                trailer ← strncmp_at buf name_offset NEWC_TRAILER 10;
                if trailer =? 0 then Some (inr files)
                else if add_overflow name_end file_size then Some (inr files)
                else
                  match align4_checked (name_end + file_size) with
                  | None => Some (inr files)
                  | Some data_end =>
                      if data_end >? size then Some (inr files)
                      else
                        files ← (if Z.land mode 0xf000 =? 0x8000 then
                                   last ← byte_of buf (name_offset + name_size - 1);
                                   Some (if last =? 0 then vfs_register_file files
                                           (InitrdFile (drop (Z.to_nat name_offset) buf) (slice buf name_end file_size) file_size)
                                         else files)
                                 else Some files);
                        Some (inl (data_end, files))
                  end
          end.

(** Every member advances the offset, so the size bounds the rounds. *)
Fixpoint parse_newc_loop (fuel : nat) (buf : list Z) (size : Z) (st : Z * list initrd_file) : option (list initrd_file) :=
  match fuel with
  | O => Some st.2
  | S fuel' =>
      r ← parse_newc_step buf size st;
      match r with
      | inl st => parse_newc_loop fuel' buf size st
      | inr files => Some files
      end
  end.

Definition parse_newc (buf : list Z) (size : Z) (files : list initrd_file) : option (list initrd_file) :=
  parse_newc_loop (S (Z.to_nat size)) buf size (0, files).

(** ** The writer of the build tool *)

Definition hex_char (d : Z) : Z := if d <? 10 then 48 + d else 87 + d.
Fixpoint field_digits (n : nat) (value : Z) : list Z :=
  match n with
  | O => []
  | S n' => hex_char (value / 16 ^ Z.of_nat n' mod 16) :: field_digits n' value
  end.

(** [f'{value:08x}'] for a value below 2^32. *)
Definition field (value : Z) : list Z := field_digits 8 value.

Definition pad4 (s : list Z) : list Z := s ++ repeat 0 (Z.to_nat ((- len s) mod 4)).

Definition record (name data : list Z) (mode : Z) : list Z :=
  let name_bytes := name ++ [0] in
  let header := NEWC_MAGIC ++ field 0 ++ field mode ++ field 0 ++ field 0 ++ field 1 ++ field 0 ++ field (len data) ++
                field 0 ++ field 0 ++ field 0 ++ field 0 ++ field (len name_bytes) ++ field 0 in
  pad4 (pad4 (header ++ name_bytes) ++ data).

Definition archive (members : list (list Z * list Z * Z)) : list Z :=
  concat (map (fun '(name, data, mode) => record name data mode) members) ++ record NEWC_TRAILER [] 0.

(** ** Lemmas on the buffer *)

Lemma len_app a b : len (a ++ b) = len a + len b.
Proof. unfold len. rewrite length_app. lia. Qed.

Lemma len_nonneg s : 0 <= len s.
Proof. unfold len. lia. Qed.

Lemma byte_of_app pre s i : 0 <= i -> byte_of (pre ++ s) (len pre + i) = byte_of s i.
Proof.
  intros Hi. unfold byte_of, len. replace (0 <=? _) with true by lia. replace (0 <=? i) with true by lia.
  rewrite lookup_app_r by lia. f_equal. lia.
Qed.

Lemma byte_of_in buf i : 0 <= i < len buf -> exists c, byte_of buf i = Some c.
Proof.
  intros Hi. unfold byte_of, len in *. replace (0 <=? i) with true by lia. apply lookup_lt_is_Some. lia.
Qed.

Lemma byte_of_mid a c b : byte_of (a ++ c :: b) (len a) = Some c.
Proof. unfold byte_of, len. replace (0 <=? _) with true by lia. rewrite Nat2Z.id. by apply list_lookup_middle. Qed.

Lemma byte_of_head c s : byte_of (c :: s) 0 = Some c.
Proof. done. Qed.

Lemma hex_loop_app pre s i n v : 0 <= i -> hex_loop (pre ++ s) (len pre + i) n v = hex_loop s i n v.
Proof.
  revert i v; induction n as [|n IH]; intros i v Hi; simpl; [done|]. rewrite byte_of_app by done.
  destruct (byte_of s i) as [c|]; [|done]. destruct (hex_digit c); [|done]. rewrite <- Z.add_assoc. apply IH. lia.
Qed.

Lemma strncmp_at_app pre s i lit n : 0 <= i -> strncmp_at (pre ++ s) (len pre + i) lit n = strncmp_at s i lit n.
Proof.
  revert i lit; induction n as [|n IH]; intros i lit Hi; simpl; [done|]. rewrite byte_of_app by done.
  destruct (byte_of s i) as [c|]; [|done]. destruct (_ || _); [done|]. rewrite <- Z.add_assoc. apply IH. lia.
Qed.

Lemma hex_digit_range c d : hex_digit c = Some d -> 0 <= d < 16.
Proof.
  unfold hex_digit. do 3 (cif E; [intros X; injection X as <-; lia|clear E]).
  done.
Qed.

Lemma shift4_range v : 0 <= v -> 0 <= u32 (Z.shiftl v 4) < 4294967296 /\ u32 (Z.shiftl v 4) mod 2 ^ 4 = 0.
Proof. intros Hv. unfold u32. rewrite Z.shiftl_mul_pow2 by lia. mlia. Qed.

Lemma hex_step v d : 0 <= v -> 0 <= d < 16 -> Z.lor (u32 (Z.shiftl v 4)) d = u32 (16 * v) + d.
Proof.
  intros Hv Hd. destruct (shift4_range v Hv) as [_ Hm]. rewrite (lor_aligned _ _ 4) by lia. f_equal. f_equal. rewrite Z.shiftl_mul_pow2 by lia. lia.
Qed.

Lemma hex_loop_total buf i n v :
  0 <= i -> i + Z.of_nat n <= len buf -> 0 <= v < 4294967296 -> exists r, hex_loop buf i n v = Some r /\ 0 <= r < 4294967296.
Proof.
  revert i v; induction n as [|n IH]; intros i v Hi Hl Hv; simpl; [eauto|].
  destruct (byte_of_in buf i ltac:(lia)) as [c ->]. destruct (hex_digit c) as [d|] eqn:E; [|exists 0; split; [done|lia]].
  apply hex_digit_range in E. apply IH; [lia|lia|]. rewrite hex_step by lia. unfold u32. mlia.
Qed.

Lemma strncmp_at_total buf i lit n : 0 <= i -> i + Z.of_nat n <= len buf -> exists r, strncmp_at buf i lit n = Some r.
Proof.
  revert i lit; induction n as [|n IH]; intros i lit Hi Hl; simpl; [eauto|].
  destruct (byte_of_in buf i ltac:(lia)) as [c ->]. destruct (_ || _); [eauto|]. apply IH; lia.
Qed.

Lemma align4_spec v r : 0 <= v -> align4_checked v = Some r -> v <= r < v + 4 /\ r mod 4 = 0.
Proof.
  intros Hv. unfold align4_checked, UINT64_MAX. cif E; [done|]. intros X. injection X as <-.
  pose proof (land_not_mask (v + 3) 2 ltac:(lia) ltac:(lia)) as H. change (2 ^ 2 - 1) with 3 in H. change (2 ^ 2) with 4 in H. rewrite H. mlia.
Qed.

(** ** What the parser registers *)

(** A file whose name ends and whose data lies inside the archive. *)
Record file_inside (buf : list Z) (size : Z) (f : initrd_file) : Prop := {
  fi_name : exists o, 0 <= o /\ if_name f = drop (Z.to_nat o) buf /\ exists k, o <= k < size /\ byte_of buf k = Some 0;
  fi_data : exists o, 0 <= o /\ o + if_size f <= size /\ if_data f = slice buf o (if_size f) /\ len (if_data f) = if_size f
}.

Lemma slice_len buf o n : 0 <= o -> 0 <= n -> o + n <= len buf -> len (slice buf o n) = n.
Proof. intros. unfold slice, len in *. rewrite length_take, length_drop. lia. Qed.

Opaque strncmp_at hex_loop.

(** The round is safe: it advances past a header and registers at most one file. *)
Definition round_ok (buf : list Z) (size offset : Z) (files : list initrd_file) (r : option ((Z * list initrd_file) + list initrd_file)) : Prop :=
  match r with
  | None => False
  | Some (inr files') => files' = files
  | Some (inl (offset', files')) => offset + 110 < offset' <= size /\ offset' mod 4 = 0 /\
        exists new, files' = files ++ new /\ Forall (file_inside buf size) new /\
          (Z.of_nat (length files) <= MAX_INITRD_FILES -> Z.of_nat (length files') <= MAX_INITRD_FILES)
  end.

Lemma parse_newc_step_spec buf size offset files :
  0 <= offset -> offset mod 4 = 0 -> 0 <= size -> size + 8 <= len buf ->
  round_ok buf size offset files (parse_newc_step buf size (offset, files)).
Proof.
  intros Ho Hom Hs Hl. unfold parse_newc_step. cif G0; [done|].
  destruct (strncmp_at_total buf offset NEWC_MAGIC 6 Ho ltac:(lia)) as [mg ->]. simpl. cif G1; [done|].
  destruct (hex_loop_total buf (offset + 14) 8 0 ltac:(lia) ltac:(lia) ltac:(lia)) as (mode & Em & _).
  destruct (hex_loop_total buf (offset + 54) 8 0 ltac:(lia) ltac:(lia) ltac:(lia)) as (fsize & Ef & Hf).
  destruct (hex_loop_total buf (offset + 94) 8 0 ltac:(lia) ltac:(lia) ltac:(lia)) as (nsize & En & Hn).
  unfold hex_field. rewrite Em, Ef, En. simpl. cif G2; [done|]. cif G3; [done|].
  destruct (align4_checked (offset + 110 + nsize)) as [name_end|] eqn:Ea; [|done]. apply align4_spec in Ea as [Ha1 Ha2]; [|lia].
  cif G4; [done|]. destruct (strncmp_at_total buf (offset + 110) NEWC_TRAILER 10 ltac:(lia)) as [tr ->]; [mlia|]. simpl.
  cif G5; [done|]. cif G6; [done|].
  destruct (align4_checked (name_end + fsize)) as [data_end|] eqn:Ed; [|done]. apply align4_spec in Ed as [Hd1 Hd2]; [|lia].
  cif G7; [done|]. destruct (byte_of_in buf (offset + 110 + nsize - 1) ltac:(lia)) as [last El].
  assert (Hnil : round_ok buf size offset files (Some (inl (data_end, files)))).
  { split; [lia|]. split; [done|]. exists []. by rewrite app_nil_r. }
  cif G8; simpl; [|done]. rewrite El. simpl. cif G9; [|done]. unfold vfs_register_file. cif G10; [done|].
  split; [lia|]. split; [done|]. eexists. split; [done|]. split.
  - rewrite Forall_cons, Forall_nil. split; [|done]. split; simpl.
    + exists (offset + 110). split; [lia|]. split; [done|]. exists (offset + 110 + nsize - 1). split; [lia|]. by replace 0 with last by lia.
    + exists name_end. split; [lia|]. split; [lia|]. split; [done|]. apply slice_len; lia.
  - intros _. rewrite length_app. simpl. unfold MAX_INITRD_FILES in *. lia.
Qed.

Lemma parse_newc_loop_spec fuel buf size offset files :
  0 <= offset -> offset mod 4 = 0 -> 0 <= size -> size + 8 <= len buf -> size - offset < Z.of_nat fuel ->
  exists new, parse_newc_loop fuel buf size (offset, files) = Some (files ++ new) /\ Forall (file_inside buf size) new /\
    (Z.of_nat (length files) <= MAX_INITRD_FILES -> Z.of_nat (length (files ++ new)) <= MAX_INITRD_FILES) /\
    (forall fuel', (fuel <= fuel')%nat -> parse_newc_loop fuel' buf size (offset, files) = Some (files ++ new)).
Proof.
  revert offset files; induction fuel as [|fuel IH]; intros offset files Ho Hom Hs Hl Hf.
  { exists []. rewrite app_nil_r. split; [done|]. split; [done|]. split; [done|]. intros [|f'] _; simpl; [done|].
    unfold parse_newc_step. by replace (negb _) with true by lia. }
  pose proof (parse_newc_step_spec buf size offset files Ho Hom Hs Hl) as H. cbn [parse_newc_loop].
  destruct (parse_newc_step buf size (offset, files)) as [[[o' f']|f']|] eqn:Es; simpl; [| |done].
  - destruct H as (H1 & H2 & new & -> & H3 & H4). destruct (IH o' (files ++ new)) as (new' & E & F & L & M); [lia|done|done|done|lia|].
    exists (new ++ new'). rewrite app_assoc. split; [done|]. split; [by apply Forall_app|]. split; [intros; apply L; by apply H4|].
    intros [|f2] Hf2; [lia|]. cbn [parse_newc_loop]. rewrite Es. simpl. apply M. lia.
  - simpl in H. subst f'. exists []. rewrite app_nil_r. split; [done|]. split; [done|]. split; [done|].
    intros [|f2] Hf2; [lia|]. cbn [parse_newc_loop]. by rewrite Es.
Qed.

(** C31: Parsing an arbitrary archive terminates and reads at most 8 bytes past
    its end; every file it registers has a terminated name and its data inside
    the archive, and at most 64 files are registered. *)
Theorem parse_newc_safe buf size :
  0 <= size -> size + 8 <= len buf ->
  exists files, parse_newc buf size [] = Some files /\ Forall (file_inside buf size) files /\
    Z.of_nat (length files) <= MAX_INITRD_FILES /\
    (forall fuel, (Z.to_nat size < fuel)%nat -> parse_newc_loop fuel buf size (0, []) = Some files).
Proof.
  intros Hs Hl. destruct (parse_newc_loop_spec (S (Z.to_nat size)) buf size 0 [] ltac:(lia) eq_refl Hs Hl ltac:(lia)) as (new & E & F & L & M).
  exists new. split; [exact E|]. split; [done|]. split; [apply L; simpl; unfold MAX_INITRD_FILES; lia|]. intros fuel Hf. apply M. lia.
Qed.

(** ** What the build tool packs is what the kernel registers *)

Transparent strncmp_at hex_loop.

Lemma hex_digit_char d : 0 <= d < 16 -> hex_digit (hex_char d) = Some d.
Proof.
  intros Hd. unfold hex_digit, hex_char. destruct (d <? 10) eqn:E.
  - replace ((48 + d >=? 48) && (48 + d <=? 57)) with true by lia. f_equal. lia.
  - replace ((87 + d >=? 48) && (87 + d <=? 57)) with false by lia. replace ((87 + d >=? 97) && (87 + d <=? 102)) with true by lia. f_equal. lia.
Qed.

Lemma hex_loop_digits n a v b acc :
  0 <= acc -> 0 <= v -> (acc + 1) * 16 ^ Z.of_nat n <= 4294967296 ->
  hex_loop (a ++ field_digits n v ++ b) (len a) n acc = Some (acc * 16 ^ Z.of_nat n + v mod 16 ^ Z.of_nat n).
Proof.
  revert a acc; induction n as [|n IH]; intros a acc Ha Hv Hb.
  { change (16 ^ Z.of_nat 0) with 1. simpl. f_equal. rewrite Z.mod_1_r. lia. }
  cbn [hex_loop field_digits app]. rewrite byte_of_mid.
  assert (Hp : 0 < 16 ^ Z.of_nat n) by (apply Z.pow_pos_nonneg; lia).
  assert (E16 : 16 ^ Z.of_nat (S n) = 16 * 16 ^ Z.of_nat n) by (rewrite Nat2Z.inj_succ, Z.pow_succ_r; lia).
  rewrite E16 in *. set (d := v / 16 ^ Z.of_nat n mod 16). assert (Hd : 0 <= d < 16) by (apply Z.mod_pos_bound; lia).
  rewrite hex_digit_char by done. rewrite hex_step by lia. assert (Hacc : 16 * acc < 4294967296) by nia. rewrite u32_small by lia.
  replace (len a + 1) with (len (a ++ [hex_char d])) by (by rewrite len_app).
  replace (a ++ hex_char d :: field_digits n v ++ b) with ((a ++ [hex_char d]) ++ field_digits n v ++ b) by (by rewrite <- app_assoc).
  rewrite IH by nia. f_equal. unfold d. rewrite (Z.mul_comm 16 (16 ^ Z.of_nat n)). rewrite Z.rem_mul_r by lia. lia.
Qed.

Lemma hex_field_field a v b : 0 <= v < 4294967296 -> hex_field (a ++ field v ++ b) (len a) 8 = Some v.
Proof.
  intros Hv. unfold hex_field, field. rewrite hex_loop_digits; [|lia|lia|by vm_compute]. change (16 ^ Z.of_nat 8) with 4294967296.
  f_equal. rewrite Z.mod_small; lia.
Qed.

Lemma strncmp_at_cons c s i lit n : 0 <= i -> strncmp_at (c :: s) (1 + i) lit n = strncmp_at s i lit n.
Proof. apply (strncmp_at_app [c] s). Qed.

Lemma strncmp_at_lit lit name rest :
  Forall (fun c => c <> 0) lit -> Forall is_byte lit -> Forall is_byte name -> Forall (fun c => c <> 0) name ->
  exists r, strncmp_at (name ++ 0 :: rest) 0 lit (length lit) = Some r /\ (r = 0 <-> take (length lit) name = lit).
Proof.
  intros Hl Hlb. revert name. induction Hl as [|c lit Hc Hl IH]; intros name Hb Hn; [by exists 0|].
  rewrite Forall_cons in Hlb. destruct Hlb as [Hcb Hlb]. simpl length.
  destruct name as [|d name]; cbn [app strncmp_at].
  - rewrite byte_of_head. simpl. rewrite orb_true_r. eexists. split; [done|].
    rewrite (u8_byte c) by done. change (u8 0) with 0. split; [intros; lia|done].
  - rewrite Forall_cons in Hb, Hn. destruct Hb as [Hdb Hb], Hn as [Hd Hn]. rewrite byte_of_head. simpl chr. simpl tail.
    replace (d =? 0) with false by lia. rewrite orb_false_r. destruct (d =? c) eqn:E; cbn [negb].
    + rewrite (strncmp_at_cons d (name ++ 0 :: rest) 0) by lia. destruct (IH Hlb name Hb Hn) as (r & -> & Hr). exists r. split; [done|].
      simpl take. rewrite Hr. replace d with c by lia. split; [congruence|by injection 1].
    + eexists. split; [done|]. rewrite !u8_byte by done. split; [intros; lia|]. simpl. injection 1. lia.
Qed.

Lemma strncmp_at_prefix lit rest : Forall (fun c => c <> 0) lit -> strncmp_at (lit ++ rest) 0 lit (length lit) = Some 0.
Proof.
  induction 1 as [|c lit Hc _ IH]; [done|]. simpl length. cbn [app strncmp_at]. rewrite byte_of_head. simpl chr. simpl tail.
  rewrite Z.eqb_refl. replace (c =? 0) with false by lia. cbn [negb orb]. by rewrite (strncmp_at_cons c (lit ++ rest) 0) by lia.
Qed.

Lemma pad4_len s : len (pad4 s) = len s + (- len s) mod 4.
Proof. unfold pad4. rewrite len_app. f_equal. unfold len. rewrite repeat_length. mlia. Qed.

Lemma field_len v : len (field v) = 8.
Proof. done. Qed.

Lemma align4_pad pre s :
  len pre mod 4 = 0 -> len pre + len s <= UINT64_MAX - 3 -> align4_checked (len pre + len s) = Some (len pre + len (pad4 s)).
Proof.
  intros Hm Hl. pose proof (len_nonneg pre). pose proof (len_nonneg s). unfold align4_checked. replace (_ >? _) with false by lia. f_equal.
  unfold UINT64_MAX in Hl. pose proof (land_not_mask (len pre + len s + 3) 2 ltac:(lia) ltac:(lia)) as H1.
  change (2 ^ 2 - 1) with 3 in H1. change (2 ^ 2) with 4 in H1. rewrite H1, pad4_len. mlia.
Qed.

(** The fixed part of a record. *)
Definition header (name data : list Z) (mode : Z) : list Z :=
  NEWC_MAGIC ++ field 0 ++ field mode ++ field 0 ++ field 0 ++ field 1 ++ field 0 ++ field (len data) ++
  field 0 ++ field 0 ++ field 0 ++ field 0 ++ field (len (name ++ [0])) ++ field 0.

Lemma header_len name data mode : len (header name data mode) = 110.
Proof. done. Qed.

Lemma header_magic name data mode rest : strncmp_at (header name data mode ++ rest) 0 NEWC_MAGIC 6 = Some 0.
Proof. unfold header. rewrite <- app_assoc. apply (strncmp_at_prefix NEWC_MAGIC). unfold NEWC_MAGIC. repeat constructor; lia. Qed.

Lemma header_mode name data mode rest : 0 <= mode < 4294967296 -> hex_field (header name data mode ++ rest) 14 8 = Some mode.
Proof.
  intros Hm. unfold header. replace 14 with (len (NEWC_MAGIC ++ field 0)) by done.
  rewrite <- !app_assoc, (app_assoc NEWC_MAGIC). by apply hex_field_field.
Qed.

Lemma header_size name data mode rest : len data < 4294967296 -> hex_field (header name data mode ++ rest) 54 8 = Some (len data).
Proof.
  intros Hm. pose proof (len_nonneg data). unfold header.
  set (a := NEWC_MAGIC ++ field 0 ++ field mode ++ field 0 ++ field 0 ++ field 1 ++ field 0). replace 54 with (len a) by done.
  match goal with |- hex_field (?x ++ rest) _ _ = _ => replace (x ++ rest) with (a ++ field (len data) ++ (field 0 ++ field 0 ++ field 0 ++ field 0 ++ field (len (name ++ [0])) ++ field 0) ++ rest)
    by (unfold a; by rewrite <- !app_assoc) end.
  apply hex_field_field. lia.
Qed.

Lemma header_name_size name data mode rest :
  len (name ++ [0]) < 4294967296 -> hex_field (header name data mode ++ rest) 94 8 = Some (len (name ++ [0])).
Proof.
  intros Hm. pose proof (len_nonneg (name ++ [0])). unfold header.
  set (a := NEWC_MAGIC ++ field 0 ++ field mode ++ field 0 ++ field 0 ++ field 1 ++ field 0 ++ field (len data) ++ field 0 ++ field 0 ++ field 0 ++ field 0).
  replace 94 with (len a) by done.
  match goal with |- hex_field (?x ++ rest) _ _ = _ => replace (x ++ rest) with (a ++ field (len (name ++ [0])) ++ field 0 ++ rest)
    by (unfold a; by rewrite <- !app_assoc) end.
  apply hex_field_field. lia.
Qed.

Lemma pad4_eq s : pad4 s = s ++ repeat 0 (Z.to_nat ((- len s) mod 4)).
Proof. done. Qed.

Lemma record_pad name data mode : record name data mode = pad4 (pad4 (header name data mode ++ name ++ [0]) ++ data).
Proof. unfold record, header. by rewrite <- !app_assoc. Qed.

Opaque field record header pad4 strncmp_at hex_loop.

(** A member the tool can pack: a proper name, sizes that fit their fields. *)
Record member_ok (m : list Z * list Z * Z) : Prop := {
  mo_bytes : Forall is_byte m.1.1;
  mo_name : Forall (fun c => c <> 0) m.1.1;
  mo_trailer : take 10 m.1.1 <> NEWC_TRAILER;
  mo_sizes : len (m.1.1 ++ [0]) < 4294967296 /\ len m.1.2 < 4294967296;
  mo_mode : 0 <= m.2 < 4294967296
}.

Definition regular (m : list Z * list Z * Z) : bool := Z.land m.2 0xf000 =? 0x8000.

Lemma record_split name data mode :
  record name data mode = header name data mode ++ name ++ 0 :: repeat 0 (Z.to_nat ((- len (header name data mode ++ name ++ [0])) mod 4)) ++
    data ++ repeat 0 (Z.to_nat ((- len (pad4 (header name data mode ++ name ++ [0]) ++ data)) mod 4)).
Proof.
  rewrite record_pad.
  unfold pad4 at 1. unfold pad4 at 1. by rewrite <- !app_assoc.
Qed.

Lemma parse_member pre post name data mode files :
  member_ok (name, data, mode) -> len pre mod 4 = 0 -> len (pre ++ record name data mode ++ post) <= UINT64_MAX - 8 ->
  let buf := pre ++ record name data mode ++ post in
  exists f, text (if_name f) = name /\ if_data f = data /\ if_size f = len data /\
  parse_newc_step buf (len buf) (len pre, files) =
    Some (inl (len pre + len (record name data mode), if regular (name, data, mode) then vfs_register_file files f else files)).
Proof.
  intros [Hnb Hn Ht [Hs1 Hs2] Hm] Hpre Hlen buf. cbn [fst snd] in *. pose proof (len_nonneg pre) as P1. pose proof (len_nonneg data) as P2. pose proof (len_nonneg post) as P3.
  set (hn := header name data mode ++ name ++ [0]). pose proof (pad4_len hn) as Ep1.
  assert (Ehn : len hn = 110 + len (name ++ [0])) by (unfold hn; by rewrite len_app, header_len).
  pose proof (pad4_len (pad4 hn ++ data)) as Ep2. rewrite len_app in Ep2. assert (Erec : len (record name data mode) = len (pad4 (pad4 hn ++ data))) by (by rewrite record_pad).
  assert (Hnz : 0 < len (name ++ [0])) by (rewrite len_app; pose proof (len_nonneg name); unfold len; simpl; lia).
  assert (Ebuf : len buf = len pre + len (record name data mode) + len post) by (unfold buf; rewrite !len_app; lia).
  rewrite !len_app in Hlen.
  set (tl := name ++ 0 :: repeat 0 (Z.to_nat ((- len hn) mod 4)) ++ data ++ repeat 0 (Z.to_nat ((- len (pad4 hn ++ data)) mod 4)) ++ post).
  assert (Eb : buf = pre ++ header name data mode ++ tl).
  { unfold buf, tl. rewrite record_split. fold hn. rewrite <- !app_assoc. simpl. by rewrite <- !app_assoc. }
  exists (InitrdFile (drop (Z.to_nat (len pre + 110)) buf) data (len data)). split; [|split; [done|split; [done|]]].
  { simpl. rewrite Eb. unfold len. replace (Z.to_nat _) with (length (pre ++ header name data mode)) by (rewrite length_app; unfold len; pose proof (header_len name data mode); unfold len in *; lia).
    rewrite app_assoc, drop_app_length. unfold tl. rewrite text_app_name by done. simpl. by rewrite app_nil_r. }
  assert (Hge : len hn <= len (pad4 hn) < len hn + 4 /\ len (pad4 hn) + len data <= len (record name data mode)) by mlia.
  clear Ep1 Ep2. unfold parse_newc_step. replace (negb _) with false by lia.
  assert (M1 : strncmp_at buf (len pre) NEWC_MAGIC 6 = Some 0).
  { rewrite Eb, <- (Z.add_0_r (len pre)), strncmp_at_app by lia. apply header_magic. }
  assert (M2 : hex_field buf (len pre + 14) 8 = Some mode).
  { unfold hex_field. rewrite Eb, hex_loop_app by lia. by apply header_mode. }
  assert (M3 : hex_field buf (len pre + 54) 8 = Some (len data)).
  { unfold hex_field. rewrite Eb, hex_loop_app by lia. by apply header_size. }
  assert (M4 : hex_field buf (len pre + 94) 8 = Some (len (name ++ [0]))).
  { unfold hex_field. rewrite Eb, hex_loop_app by lia. by apply header_name_size. }
  rewrite M1. simpl. rewrite M2. simpl. rewrite M3. simpl. rewrite M4. simpl.
  replace ((len (name ++ [0]) =? 0) || (len (name ++ [0]) >? len buf - len pre - 110)) with false by lia.
  unfold add_overflow. unfold UINT64_MAX in *. replace (len (name ++ [0]) >? _) with false by lia.
  assert (Ea : align4_checked (len pre + 110 + len (name ++ [0])) = Some (len pre + len (pad4 hn))).
  { rewrite <- Z.add_assoc, <- Ehn. apply align4_pad; [done|unfold UINT64_MAX; lia]. }
  rewrite Ea. replace (_ >? len buf) with false by lia.
  assert (Htr : exists r, strncmp_at buf (len pre + 110) NEWC_TRAILER 10 = Some r /\ (r = 0 <-> take 10 name = NEWC_TRAILER)).
  { rewrite Eb, strncmp_at_app by lia. replace 110 with (len (header name data mode) + 0) by (by rewrite header_len). rewrite strncmp_at_app by lia.
    apply (strncmp_at_lit NEWC_TRAILER); [unfold NEWC_TRAILER; repeat constructor; lia|unfold NEWC_TRAILER; repeat constructor; lia|done|done]. }
  destruct Htr as (r & -> & Hr). simpl. replace (r =? 0) with false by (symmetry; apply Z.eqb_neq; tauto).
  replace (len data >? _) with false by lia.
  assert (Ed : align4_checked (len pre + len (pad4 hn) + len data) = Some (len pre + len (record name data mode))).
  { rewrite Erec, <- Z.add_assoc, <- len_app. apply align4_pad; [done|rewrite len_app; unfold UINT64_MAX; lia]. }
  rewrite Ed. replace (_ >? len buf) with false by lia. unfold regular. simpl. destruct (Z.land mode 61440 =? 32768); [|done].
  assert (El : byte_of buf (len pre + 110 + len (name ++ [0]) - 1) = Some 0).
  { replace (len pre + 110 + len (name ++ [0]) - 1) with (len (pre ++ header name data mode ++ name)) by (rewrite !len_app, header_len; unfold len; simpl; lia).
    rewrite Eb. unfold tl. rewrite (app_assoc (header _ _ _)), app_assoc. apply byte_of_mid. }
  rewrite El. simpl. do 3 f_equal. f_equal. unfold slice.
  replace buf with ((pre ++ pad4 hn) ++ data ++ repeat 0 (Z.to_nat ((- len (pad4 hn ++ data)) mod 4)) ++ post).
  2: { rewrite Eb. unfold tl. generalize (repeat 0 (Z.to_nat ((- len (pad4 hn ++ data)) mod 4))) as R2. intros R2.
       rewrite (pad4_eq hn). generalize (repeat 0 (Z.to_nat ((- len hn) mod 4))) as R1. intros R1. unfold hn.
       rewrite <- !app_assoc. simpl. by rewrite <- ?app_assoc. }
  replace (Z.to_nat (len pre + len (pad4 hn))) with (length (pre ++ pad4 hn)) by (rewrite length_app; unfold len; lia).
  rewrite drop_app_length. unfold len. rewrite Nat2Z.id. by rewrite take_app_length.
Qed.

Lemma record_aligned name data mode : len (record name data mode) mod 4 = 0 /\ 110 < len (record name data mode).
Proof.
  rewrite record_pad. set (s := pad4 (header name data mode ++ name ++ [0]) ++ data). pose proof (pad4_len s) as E.
  assert (H : 110 < len s).
  { unfold s. rewrite len_app. pose proof (pad4_len (header name data mode ++ name ++ [0])) as E2. rewrite !len_app, header_len in E2.
    pose proof (len_nonneg name). pose proof (len_nonneg data). assert (len [0] = 1) by done. mlia. }
  mlia.
Qed.

(** The trailer stops the parser. *)
Lemma parse_trailer pre files :
  len pre mod 4 = 0 -> len (pre ++ record NEWC_TRAILER [] 0) <= UINT64_MAX - 8 ->
  parse_newc_step (pre ++ record NEWC_TRAILER [] 0) (len (pre ++ record NEWC_TRAILER [] 0)) (len pre, files) = Some (inr files).
Proof.
  intros Hm Hl. pose proof (len_nonneg pre). set (buf := pre ++ record NEWC_TRAILER [] 0) in *.
  assert (Er : len (record NEWC_TRAILER [] 0) = 124) by (rewrite record_pad, !pad4_len, !len_app, !pad4_len, !len_app, header_len; reflexivity).
  assert (Eb : len buf = len pre + 124) by (unfold buf; rewrite len_app; lia).
  assert (Es : exists tl, buf = pre ++ header NEWC_TRAILER [] 0 ++ NEWC_TRAILER ++ tl).
  { unfold buf. rewrite record_split. eexists. reflexivity. }
  destruct Es as [tl Es]. unfold parse_newc_step. replace (negb _) with false by lia.
  assert (M1 : strncmp_at buf (len pre) NEWC_MAGIC 6 = Some 0).
  { rewrite Es, <- (Z.add_0_r (len pre)), strncmp_at_app by lia. apply header_magic. }
  assert (M2 : hex_field buf (len pre + 14) 8 = Some 0).
  { unfold hex_field. rewrite Es, hex_loop_app by lia. apply header_mode. lia. }
  assert (M3 : hex_field buf (len pre + 54) 8 = Some 0).
  { unfold hex_field. rewrite Es, hex_loop_app by lia. by apply (header_size NEWC_TRAILER [] 0). }
  assert (M4 : hex_field buf (len pre + 94) 8 = Some 11).
  { unfold hex_field. rewrite Es, hex_loop_app by lia. by apply (header_name_size NEWC_TRAILER [] 0). }
  rewrite M1. simpl. rewrite M2. simpl. rewrite M3. simpl. rewrite M4. simpl.
  replace (11 >? len buf - len pre - 110) with false by lia. unfold add_overflow, UINT64_MAX in *. replace (11 >? _) with false by lia.
  assert (Ea : align4_checked (len pre + 110 + 11) = Some (len pre + 124)).
  { replace (len pre + 110 + 11) with (len pre + len (header NEWC_TRAILER [] 0 ++ NEWC_TRAILER ++ [0])) by (rewrite !len_app, header_len; unfold len; simpl; lia).
    rewrite align4_pad; [|done|rewrite !len_app, header_len; change (len NEWC_TRAILER) with 10; change (len [0]) with 1; unfold UINT64_MAX; lia].
    rewrite pad4_len, !len_app, header_len. reflexivity. }
  rewrite Ea. replace (_ >? len buf) with false by lia.
  assert (M5 : strncmp_at buf (len pre + 110) NEWC_TRAILER 10 = Some 0).
  { rewrite Es, strncmp_at_app by lia. replace 110 with (len (header NEWC_TRAILER [] 0) + 0) by (by rewrite header_len). rewrite strncmp_at_app by lia.
    apply (strncmp_at_prefix NEWC_TRAILER). unfold NEWC_TRAILER. repeat constructor; lia. }
  by rewrite M5.
Qed.

Lemma parse_members members pre files fuel :
  Forall member_ok members -> len pre mod 4 = 0 ->
  let buf := pre ++ archive members in
  len buf <= UINT64_MAX - 8 -> Z.of_nat (length files + length members) <= MAX_INITRD_FILES -> len buf - len pre < Z.of_nat fuel ->
  exists new, parse_newc_loop fuel buf (len buf) (len pre, files) = Some (files ++ new) /\
    map (fun f => (text (if_name f), if_data f)) new = map fst (List.filter regular members).
Proof.
  intros Hm. revert pre files fuel. induction Hm as [|[[name data] mode] members Hmem Hm IH]; intros pre files fuel Hpre buf Hl Hc Hf.
  - destruct fuel as [|fuel]; [pose proof (record_aligned NEWC_TRAILER [] 0); unfold buf, archive in Hf; simpl in Hf; rewrite len_app in Hf; lia|].
    exists []. rewrite app_nil_r. split; [|done]. cbn [parse_newc_loop]. unfold buf, archive in *. simpl app in *. by rewrite parse_trailer.
  - destruct (record_aligned name data mode) as [A1 A2].
    assert (Eb : buf = pre ++ record name data mode ++ archive members) by (unfold buf, archive; simpl; by rewrite <- app_assoc).
    destruct fuel as [|fuel]; [rewrite Eb, !len_app in Hf; pose proof (len_nonneg (archive members)); lia|].
    destruct (parse_member pre (archive members) name data mode files Hmem Hpre) as (f & F1 & F2 & F3 & Es); [by rewrite <- Eb|].
    cbn [parse_newc_loop]. rewrite <- Eb in Es. rewrite Es. simpl.
    assert (Eb' : buf = (pre ++ record name data mode) ++ archive members) by (by rewrite <- app_assoc).
    set (files' := if regular (name, data, mode) then vfs_register_file files f else files).
    destruct (IH (pre ++ record name data mode) files' fuel) as (new & E & F).
    + rewrite len_app. mlia.
    + by rewrite <- Eb'.
    + unfold files', vfs_register_file. simpl in Hc. destruct (regular _); [|lia]. replace (_ >=? _) with false by (unfold MAX_INITRD_FILES in *; lia).
      rewrite length_app. simpl. lia.
    + rewrite <- Eb', len_app. lia.
    + rewrite <- Eb', len_app in E. rewrite E. unfold files', vfs_register_file. simpl in Hc.
      replace (_ >=? _) with false by (unfold MAX_INITRD_FILES in *; lia).
      destruct (regular (name, data, mode)) eqn:Er.
      * exists (f :: new). rewrite <- app_assoc. split; [done|]. cbn [map fst]. by rewrite F1, F2, F.
      * by exists new.
Qed.

(** C30: Parsing an archive written by the build tool registers exactly the regular
    files packed into it, with their names and contents and in their order. *)
Theorem newc_roundtrip members :
  Forall member_ok members -> (length members <= 64)%nat -> len (archive members) <= UINT64_MAX - 8 ->
  exists files, parse_newc (archive members) (len (archive members)) [] = Some files /\
    map (fun f => (text (if_name f), if_data f)) files = map fst (List.filter regular members).
Proof.
  intros Hm Hc Hl. apply (parse_members members [] [] (S (Z.to_nat (len (archive members))))); [done|done|done|unfold MAX_INITRD_FILES; simpl; lia|].
  simpl. change (len []) with 0. lia.
Qed.

Transparent field record header pad4 strncmp_at hex_loop.

(** ** Examples *)

(** "a" holding two bytes, a directory "d", and "b/c" holding none. *)
Definition members_example : list (list Z * list Z * Z) := [([97], [1; 2], 0x81a4); ([100], [], 0x41ed); ([98; 47; 99], [], 0x81ed)].

Lemma newc_roundtrip_witness :
  exists files, parse_newc (archive members_example) (len (archive members_example)) [] = Some files /\
    map (fun f => (text (if_name f), if_data f)) files = [([97], [1; 2]); ([98; 47; 99], [])].
Proof.
  apply newc_roundtrip; [|simpl; lia|vm_compute; discriminate].
  unfold members_example. rewrite !Forall_cons, Forall_nil.
  repeat split; try (cbn [fst snd]; repeat constructor; unfold is_byte; lia); try (vm_compute; congruence).
Defined.

Lemma parse_newc_safe_witness :
  exists files, parse_newc (archive members_example ++ repeat 255 8) (len (archive members_example)) [] = Some files /\
    Z.of_nat (length files) <= MAX_INITRD_FILES.
Proof.
  destruct (parse_newc_safe (archive members_example ++ repeat 255 8) (len (archive members_example))) as (files & E & _ & L & _);
    [unfold len; lia|rewrite len_app; unfold len; simpl; lia|].
  exists files. by split.
Defined.

(** A name field "TR" without terminator at the very end of the archive: the
    comparison with the trailer name reads past the archive. *)
Lemma parse_newc_reads_past_end :
  let hdr := NEWC_MAGIC ++ field 0 ++ field 0x81a4 ++ field 0 ++ field 0 ++ field 1 ++ field 0 ++ field 0 ++
             field 0 ++ field 0 ++ field 0 ++ field 0 ++ field 2 ++ field 0 in
  parse_newc (hdr ++ [84; 82]) 112 [] = None.
Proof. vm_compute. reflexivity. Qed.
