(* ===== verification/Ata.v ===== *)
(** * The ATA disk (src/src/drivers/ata.c)

    Whole-sector requests on the primary disk.  The driver moves one sector at
    a time and flushes it before it starts the next one, and leaves the request
    at the first failure.  The device is a parameter of the run: [dk_writes]
    says how each of the coming sector writes ends and [dk_reads] how each of
    the coming sector reads ends; a transfer after the end of the schedule
    succeeds.  A write may fail before the sector reaches the medium ([Lost])
    or after it ([Late]: the flush reports the error); the port protocol inside
    one sector is hardware. *)

From Stdlib Require Import ZArith Lia Bool ZifyBool.
From stdpp Require Import base numbers list.
From S2P Require Import Prelude.

Open Scope Z_scope.
Open Scope npk_scope.

Definition NPK_SECTOR_SIZE : Z := 512.
Definition ATA_LBA28_MAX : Z := 0x10000000.

(** The 512 bytes of a sector. *)
Definition sector : Type := list Z.

Inductive outcome := Done | Lost | Late.

Record disk := Disk {
  dk_present : bool; dk_writable : bool; dk_sectors : Z;
  dk_data : arr sector; dk_writes : list outcome; dk_reads : list bool }.

(** The number of sectors the IDENTIFY data reports: the 28-bit capacity, or
    the 48-bit one when the device has the extended address feature. *)
Definition identify_sectors (w : arr Z) : Z :=
  let sectors := Z.lor w.[60] (Z.shiftl w.[61] 16) in
  if negb (Z.land w.[83] (Z.shiftl 1 10) =? 0) then
    let high := Z.lor (u32 (Z.shiftl w.[103] 16)) w.[102] in
    Z.lor (Z.lor (u64 (Z.shiftl high 32)) (u32 (Z.shiftl w.[101] 16))) w.[100]
  else sectors.

Definition check_request (d : disk) (lba count buffer : Z) : Z :=
  if negb (dk_present d) || (count =? 0) || (count >? 255) || (buffer =? 0) || (lba >=? ATA_LBA28_MAX) ||
     (count >? ATA_LBA28_MAX - lba) || (lba + count >? dk_sectors d) then -22
  else if negb (Z.land buffer 1 =? 0) then -22
  else 0.

(** The sectors that reach the buffer before the first failure. *)
Fixpoint read_loop (d : disk) (lba : Z) (count : nat) : Z * list sector * disk :=
  match count with
  | O => (0, [], d)
  | S count' =>
      let d' := Disk (dk_present d) (dk_writable d) (dk_sectors d) (dk_data d) (dk_writes d) (tail (dk_reads d)) in
      if default true (head (dk_reads d)) then
        let '(rc, rest, d'') := read_loop d' (lba + 1) count' in
        (rc, (dk_data d).[lba] :: rest, d'')
      else (-5, [], d')
  end.

Definition ata_read_sectors (d : disk) (lba count buffer : Z) : Z * list sector * disk :=
  let check := check_request d lba count buffer in
  if negb (check =? 0) then (check, [], d) else read_loop d lba (Z.to_nat count).

(** One sector write: what the medium and the driver see. *)
Definition put_sector (d : disk) (lba : Z) (s : sector) : bool * disk :=
  let data := match head (dk_writes d) with Some Lost => dk_data d | _ => (dk_data d).[lba <- s] end in
  (match head (dk_writes d) with None | Some Done => true | _ => false end,
   Disk (dk_present d) (dk_writable d) (dk_sectors d) data (tail (dk_writes d)) (dk_reads d)).

Fixpoint write_loop (d : disk) (lba : Z) (secs : list sector) : Z * disk :=
  match secs with
  | [] => (0, d)
  | s :: secs' =>
      let '(ok, d') := put_sector d lba s in
      if ok then write_loop d' (lba + 1) secs' else (-5, d')
  end.

Definition ata_write_sectors (d : disk) (lba buffer : Z) (secs : list sector) : Z * disk :=
  let check := check_request d lba (Z.of_nat (length secs)) buffer in
  if negb (check =? 0) || negb (dk_writable d) then ((if negb (check =? 0) then check else -30), d)
  else write_loop d lba secs.

(** ** A sequence of sector writes

    A request, and a sequence of requests each of which is made only when the
    one before it succeeded, is a list of sector writes in order: whatever the
    device does, the medium holds a prefix of the list, the whole list when
    the request succeeded. *)

Fixpoint put_seq (d : disk) (ws : list (Z * sector)) : Z * disk :=
  match ws with
  | [] => (0, d)
  | (lba, s) :: ws' => let '(ok, d') := put_sector d lba s in if ok then put_seq d' ws' else (-5, d')
  end.

Fixpoint extent (lba : Z) (secs : list sector) : list (Z * sector) :=
  match secs with [] => [] | s :: secs' => (lba, s) :: extent (lba + 1) secs' end.

Definition apply_writes (ws : list (Z * sector)) (data : arr sector) : arr sector :=
  foldl (fun a w => a.[w.1 <- w.2]) data ws.

Definition same_device (d d' : disk) : Prop :=
  dk_present d' = dk_present d /\ dk_writable d' = dk_writable d /\ dk_sectors d' = dk_sectors d /\ dk_reads d' = dk_reads d.

Lemma write_loop_seq d lba secs : write_loop d lba secs = put_seq d (extent lba secs).
Proof.
  revert d lba; induction secs as [|s secs IH]; intros d lba; [done|]. cbn [write_loop extent put_seq].
  destruct (put_sector d lba s) as [[] d']; [apply IH|done].
Qed.

Lemma put_sector_device d lba s : same_device d (put_sector d lba s).2.
Proof. done. Qed.

Lemma put_seq_app d ws1 ws2 :
  put_seq d (ws1 ++ ws2) = let '(rc, d') := put_seq d ws1 in if rc =? 0 then put_seq d' ws2 else (rc, d').
Proof.
  revert d; induction ws1 as [|[lba s] ws1 IH]; intros d; [done|].
  cbn [put_seq app]. destruct (put_sector d lba s) as [[] d']; [apply IH|done].
Qed.

Lemma put_seq_spec d ws :
  exists n, (n <= length ws)%nat /\ dk_data (put_seq d ws).2 = apply_writes (take n ws) (dk_data d) /\
    same_device d (put_seq d ws).2 /\ ((put_seq d ws).1 = 0 /\ n = length ws \/ (put_seq d ws).1 = -5).
Proof.
  revert d; induction ws as [|[lba s] ws IH]; intros d; [exists 0%nat; repeat split; by left|].
  cbn [put_seq]. unfold put_sector. destruct (dk_writes d) as [|[] r]; cbn [hd_error tl].
  - match goal with |- context [put_seq ?d' _] => destruct (IH d') as (n & Hn & Hd & Hs & Hr) end.
    exists (S n). split; [simpl; lia|]. split; [done|]. split; [done|]. destruct Hr as [[Hr ->]|Hr]; [by left|by right].
  - match goal with |- context [put_seq ?d' _] => destruct (IH d') as (n & Hn & Hd & Hs & Hr) end.
    exists (S n). split; [simpl; lia|]. split; [done|]. split; [done|]. destruct Hr as [[Hr ->]|Hr]; [by left|by right].
  - exists 0%nat. split; [simpl; lia|]. split; [done|]. split; [done|]. by right.
  - exists 1%nat. split; [simpl; lia|]. split; [done|]. split; [done|]. by right.
Qed.

Lemma put_seq_clean d ws : dk_writes d = [] -> (put_seq d ws).1 = 0 /\ dk_writes (put_seq d ws).2 = [].
Proof.
  revert d; induction ws as [|[lba s] ws IH]; intros d Hd; [done|]. simpl. unfold put_sector. rewrite Hd. simpl. by apply IH.
Qed.

(** A schedule that loses the write after the first [n]. *)
Definition crash_after (n : nat) : list outcome := replicate n Done ++ [Lost].

Lemma extent_app lba s1 s2 : extent lba (s1 ++ s2) = extent lba s1 ++ extent (lba + Z.of_nat (length s1)) s2.
Proof.
  revert lba; induction s1 as [|s s1 IH]; intros lba; [simpl; f_equal; lia|]. simpl. rewrite IH. do 3 f_equal. lia.
Qed.

Lemma apply_writes_other ws data a : (forall w, w ∈ ws -> w.1 <> a) -> (apply_writes ws data).[a] = data.[a].
Proof.
  revert data; induction ws as [|w ws IH]; intros data Hw; [done|]. simpl. rewrite IH by (intros w' Hin; apply Hw; by right).
  rewrite aget_aset. case_match; [|done]. exfalso. eapply (Hw w); [left|]. lia.
Qed.

Lemma extent_range lba secs w : w ∈ extent lba secs -> lba <= w.1 < lba + Z.of_nat (length secs).
Proof.
  revert lba; induction secs as [|s secs IH]; intros lba Hin; simpl in Hin; [by apply not_elem_of_nil in Hin|].
  apply elem_of_cons in Hin as [->|Hin]; simpl; [lia|]. apply IH in Hin. lia.
Qed.

(** The [n] sectors from [lba] on. *)
Fixpoint sectors_at (data : arr sector) (lba : Z) (n : nat) : list sector :=
  match n with O => [] | S n' => data.[lba] :: sectors_at data (lba + 1) n' end.

Lemma sectors_at_ext data data' lba n :
  (forall a, lba <= a < lba + Z.of_nat n -> data'.[a] = data.[a]) -> sectors_at data' lba n = sectors_at data lba n.
Proof.
  revert lba; induction n as [|n IH]; intros lba H; [done|]. simpl. f_equal; [apply H; lia|apply IH; intros a Ha; apply H; lia].
Qed.

Lemma sectors_at_extent data lba secs : sectors_at (apply_writes (extent lba secs) data) lba (length secs) = secs.
Proof.
  revert data lba; induction secs as [|s secs IH]; intros data lba; [done|]. cbn [extent length sectors_at]. f_equal.
  - etransitivity; [apply (apply_writes_other (extent (lba + 1) secs) (data.[lba <- s]))|].
    + intros w Hw. apply extent_range in Hw. lia.
    + rewrite aget_aset. by case_match; [|lia].
  - apply (IH (data.[lba <- s])).
Qed.

Lemma read_loop_spec d lba n :
  dk_reads d = [] -> read_loop d lba n = (0, sectors_at (dk_data d) lba n, d).
Proof.
  revert lba; induction n as [|n IH]; intros lba Hd; [done|]. cbn [read_loop sectors_at]. rewrite Hd. simpl. 
  destruct d as [p w s a ws r]; simpl in *; subst r. rewrite IH by done. done.
Qed.

Lemma extent_length lba secs : length (extent lba secs) = length secs.
Proof. revert lba; induction secs as [|s secs IH]; intros lba; simpl; [done|]. by rewrite IH. Qed.

Lemma extent_take lba secs n : take n (extent lba secs) = extent lba (take n secs).
Proof. revert lba secs; induction n as [|n IH]; intros lba [|s secs]; simpl; [done..|]. by rewrite IH. Qed.

(** ** Requests *)

Lemma ata_write_cases d lba buffer secs :
  ((ata_write_sectors d lba buffer secs).1 = -22 \/ (ata_write_sectors d lba buffer secs).1 = -30) /\
    (ata_write_sectors d lba buffer secs).2 = d \/
  ata_write_sectors d lba buffer secs = put_seq d (extent lba secs) /\
  check_request d lba (Z.of_nat (length secs)) buffer = 0 /\
  exists n, (n <= length secs)%nat /\
    dk_data (ata_write_sectors d lba buffer secs).2 = apply_writes (extent lba (take n secs)) (dk_data d) /\
    same_device d (ata_write_sectors d lba buffer secs).2 /\
    ((ata_write_sectors d lba buffer secs).1 = 0 /\ n = length secs \/ (ata_write_sectors d lba buffer secs).1 = -5).
Proof.
  unfold ata_write_sectors. assert (Hc : forall c, check_request d lba c buffer = 0 \/ check_request d lba c buffer = -22).
  { intros c. unfold check_request. split_ifs; naive_solver. }
  destruct (Hc (Z.of_nat (length secs))) as [Hck|Hck]; rewrite Hck; cbn [negb Z.eqb orb]; [|left; naive_solver].
  destruct (dk_writable d); cbn [negb]; [|left; naive_solver].
  right. rewrite write_loop_seq. destruct (put_seq_spec d (extent lba secs)) as (n & Hn & Hd & Hs & Hr).
  rewrite extent_length in Hn, Hr. split; [done|]. split; [done|]. exists n. by rewrite Hd, extent_take.
Qed.

(** A write request is refused with the disk untouched (the code -22 of an
    invalid request, -30 of a read-only device), or it leaves on the medium
    the first [n] of its sectors at their addresses and every other sector as
    it was, whatever the device does in the middle of it; it reports success
    only with all of them on the medium. *)
Theorem ata_write_sectors_spec d lba buffer secs :
  let '(rc, d') := ata_write_sectors d lba buffer secs in
  same_device d d' /\
  ((rc = -22 \/ rc = -30) /\ d' = d \/
   exists n, (n <= length secs)%nat /\ dk_data d' = apply_writes (extent lba (take n secs)) (dk_data d) /\
     (rc = 0 /\ n = length secs \/ rc = -5)).
Proof.
  pose proof (ata_write_cases d lba buffer secs) as Hc. destruct (ata_write_sectors d lba buffer secs) as [rc d'].
  cbn [fst snd] in Hc. destruct Hc as [[Hrc ->]|(_ & _ & n & Hn & Hd & Hs & Hr)]; [by split; [|left]|].
  split; [done|]. right. by exists n.
Qed.

(** What a successful write request put on the disk is what the next read
    of the same sectors returns, as long as the device serves the read. *)
Theorem ata_write_read d lba buffer secs d' :
  ata_write_sectors d lba buffer secs = (0, d') -> dk_reads d = [] ->
  ata_read_sectors d' lba (Z.of_nat (length secs)) buffer = (0, secs, d').
Proof.
  intros Hw Hr. destruct (ata_write_cases d lba buffer secs) as [[Hbad Hd']|(Hok & Hck & n & Hn & Hdata & Hs & Hres)].
  { rewrite Hw in Hbad; simpl in Hbad. lia. }
  rewrite Hw in *; cbn [fst snd] in *. destruct Hres as [[_ ->]|?]; [|lia].
  unfold ata_read_sectors. destruct Hs as (H1 & H2 & H3 & H4).
  replace (check_request d' lba (Z.of_nat (length secs)) buffer) with 0.
  2: { rewrite <-Hck. unfold check_request. by rewrite H1, H3. }
  simpl. rewrite Nat2Z.id, read_loop_spec by (by rewrite H4). by rewrite Hdata, firstn_all, sectors_at_extent.
Qed.

Lemma ata_write_read_witness :
  exists d', ata_read_sectors d' 3 2 16 = (0, [[1; 2]; [3; 4]], d').
Proof.
  set (d := Disk true true 8 (afill []) [] []).
  exists (ata_write_sectors d 3 16 [[1; 2]; [3; 4]]).2.
  apply (ata_write_read d 3 16 [[1; 2]; [3; 4]] _); [vm_compute; reflexivity|reflexivity].
Defined.
