(* ===== verification/Npkfs.v ===== *)
(** * The persistent file system NPKFS (src/src/fs/vfs.c, the [persistent_*] part)

    The on-disk structures byte by byte, their CRC-32, the two copies of the
    metadata and the commit sequence that writes them, recovery at boot, and
    the inode table.  Records hold the fields of the C structures; [enc_*] and
    [dec_*] are their memory layout (little-endian, no padding). *)

From Stdlib Require Import ZArith Lia Bool ZifyBool.
From stdpp Require Import base numbers list.
From S2P Require Import Prelude Kstring Path Ata.

Open Scope Z_scope.
Open Scope npk_scope.

Definition PERSIST_MAGIC : Z := 0x4e504b46.
Definition PERSIST_VERSION : Z := 2.
Definition PERSIST_MAX_FILES : Z := 64.
Definition PERSIST_DATA_SECTORS : Z := 128.
Definition PERSIST_SUPER_PRIMARY : Z := 1.
Definition PERSIST_INODE_PRIMARY : Z := 2.
Definition PERSIST_SUPER_BACKUP : Z := 10.
Definition PERSIST_TXN_SECTOR : Z := 11.
Definition PERSIST_INODE_BACKUP : Z := 12.
Definition PERSIST_INODE_SECTORS : Z := 8.
Definition PERSIST_DATA_START : Z := 32.
Definition PERSIST_FILE_BYTES : Z := PERSIST_DATA_SECTORS * NPK_SECTOR_SIZE.
Definition PERSIST_TXN_MAGIC : Z := 0x4e504b54.
Definition PERSIST_TXN_PREPARE : Z := 1.
Definition PERSIST_TXN_CLEAR : Z := 0.

Record persistent_inode_disk := Inode {
  i_used : Z; i_reserved : list Z; i_size : Z; i_start_sector : Z; i_mode : Z; i_name : list Z }.

Record persistent_superblock := Super {
  s_magic : Z; s_version : Z; s_inode_count : Z; s_data_start : Z; s_next_sector : Z; s_generation : Z;
  s_inode_checksum : Z; s_checksum : Z; s_reserved : list Z }.

Record persistent_txn := Txn {
  t_magic : Z; t_version : Z; t_state : Z; t_target_generation : Z; t_inode_checksum : Z; t_checksum : Z; t_reserved : list Z }.

(** ** Memory layout *)

Definition le32 (x : Z) : list Z := [x mod 256; x / 256 mod 256; x / 65536 mod 256; x / 16777216 mod 256].
Definition byte_at (off : nat) (bs : list Z) : Z := default 0 (bs !! off).
Definition rd32 (off : nat) (bs : list Z) : Z :=
  byte_at off bs + 256 * byte_at (S off) bs + 65536 * byte_at (S (S off)) bs + 16777216 * byte_at (S (S (S off))) bs.

Definition enc_inode (i : persistent_inode_disk) : list Z :=
  i_used i :: i_reserved i ++ le32 (i_size i) ++ le32 (i_start_sector i) ++ le32 (i_mode i) ++ i_name i.
Definition dec_inode (bs : list Z) : persistent_inode_disk :=
  Inode (byte_at 0 bs) (take 3 (drop 1 bs)) (rd32 4 bs) (rd32 8 bs) (rd32 12 bs) (take 48 (drop 16 bs)).

Definition enc_super (s : persistent_superblock) : list Z :=
  le32 (s_magic s) ++ le32 (s_version s) ++ le32 (s_inode_count s) ++ le32 (s_data_start s) ++ le32 (s_next_sector s) ++
  le32 (s_generation s) ++ le32 (s_inode_checksum s) ++ le32 (s_checksum s) ++ s_reserved s.
Definition dec_super (bs : list Z) : persistent_superblock :=
  Super (rd32 0 bs) (rd32 4 bs) (rd32 8 bs) (rd32 12 bs) (rd32 16 bs) (rd32 20 bs) (rd32 24 bs) (rd32 28 bs) (take 480 (drop 32 bs)).

Definition enc_txn (t : persistent_txn) : list Z :=
  le32 (t_magic t) ++ le32 (t_version t) ++ le32 (t_state t) ++ le32 (t_target_generation t) ++ le32 (t_inode_checksum t) ++
  le32 (t_checksum t) ++ t_reserved t.
Definition dec_txn (bs : list Z) : persistent_txn :=
  Txn (rd32 0 bs) (rd32 4 bs) (rd32 8 bs) (rd32 12 bs) (rd32 16 bs) (rd32 20 bs) (take 488 (drop 24 bs)).

(** A block of [k] pieces of [n] bytes. *)
Fixpoint chunk (n k : nat) (bs : list Z) : list (list Z) :=
  match k with O => [] | S k' => take n bs :: chunk n k' (drop n bs) end.

Definition enc_table (l : list persistent_inode_disk) : list Z := concat (map enc_inode l).
Definition enc_inodes (l : list persistent_inode_disk) : list sector := chunk 512 8 (enc_table l).
Definition dec_inodes (secs : list sector) : list persistent_inode_disk := map dec_inode (chunk 64 64 (concat secs)).

Definition zero_inode : persistent_inode_disk := Inode 0 (replicate 3 0) 0 0 0 (replicate 48 0).
Definition zero_super : persistent_superblock := Super 0 0 0 0 0 0 0 0 (replicate 480 0).

(** ** Checksums *)

Definition crc_bit (crc : Z) : Z := Z.lxor (Z.shiftr crc 1) (Z.land 0xedb88320 (u32 (- Z.land crc 1))).

Definition persistent_checksum_bytes (bytes : list Z) : Z :=
  u32 (Z.lnot (foldl (fun crc b => Nat.iter 8 crc_bit (Z.lxor crc b)) 0xffffffff bytes)).

Definition persistent_inode_checksum (inodes : list persistent_inode_disk) : Z := persistent_checksum_bytes (enc_table inodes).

Definition super_with_checksum (s : persistent_superblock) (c : Z) : persistent_superblock :=
  Super (s_magic s) (s_version s) (s_inode_count s) (s_data_start s) (s_next_sector s) (s_generation s) (s_inode_checksum s) c (s_reserved s).
Definition persistent_super_checksum (s : persistent_superblock) : Z := persistent_checksum_bytes (enc_super (super_with_checksum s 0)).

Definition txn_with_checksum (t : persistent_txn) (c : Z) : persistent_txn :=
  Txn (t_magic t) (t_version t) (t_state t) (t_target_generation t) (t_inode_checksum t) c (t_reserved t).
Definition persistent_txn_checksum (t : persistent_txn) : Z := persistent_checksum_bytes (enc_txn (txn_with_checksum t 0)).

(** ** State *)

Record npkfs := Npkfs {
  persistent_super : persistent_superblock; persistent_inodes : list persistent_inode_disk;
  persistent_backup_inodes : list persistent_inode_disk; persistent_ready : bool; persistent_active_slot : bool; n_disk : disk }.

Definition with_disk (fs : npkfs) (d : disk) : npkfs :=
  Npkfs (persistent_super fs) (persistent_inodes fs) (persistent_backup_inodes fs) (persistent_ready fs) (persistent_active_slot fs) d.
Definition with_super (fs : npkfs) (s : persistent_superblock) : npkfs :=
  Npkfs s (persistent_inodes fs) (persistent_backup_inodes fs) (persistent_ready fs) (persistent_active_slot fs) (n_disk fs).
Definition with_inodes (fs : npkfs) (l : list persistent_inode_disk) : npkfs :=
  Npkfs (persistent_super fs) l (persistent_backup_inodes fs) (persistent_ready fs) (persistent_active_slot fs) (n_disk fs).

(** The address of the buffer of a request: every caller's buffer is aligned. *)
Definition BUFFER : Z := 16.

(** ** Writing the metadata *)

Definition count_used (l : list persistent_inode_disk) : Z :=
  foldl (fun n i => if negb (i_used i =? 0) then n + 1 else n) 0 l.

Definition next_super_of (fs : npkfs) : persistent_superblock :=
  let s := persistent_super fs in
  let s' := Super (s_magic s) (s_version s) (count_used (persistent_inodes fs)) (s_data_start s) (s_next_sector s)
              (s_generation s + 1) (persistent_inode_checksum (persistent_inodes fs)) 0 (s_reserved s) in
  super_with_checksum s' (persistent_super_checksum s').

Definition make_txn (state target_generation inode_checksum : Z) : persistent_txn :=
  let t := Txn PERSIST_TXN_MAGIC PERSIST_VERSION state target_generation inode_checksum 0 (replicate 488 0) in
  txn_with_checksum t (persistent_txn_checksum t).

(** [if (ata_write_sectors(...) != 0) return -5;] and the rest. *)
Definition write_or_fail (fs : npkfs) (lba : Z) (secs : list sector) (k : npkfs -> Z * npkfs) : Z * npkfs :=
  let '(rc, d) := ata_write_sectors (n_disk fs) lba BUFFER secs in
  if negb (rc =? 0) then (-5, with_disk fs d) else k (with_disk fs d).

Definition persistent_write_metadata (fs : npkfs) : Z * npkfs :=
  if negb (persistent_ready fs) then (-19, fs)
  else if s_next_sector (persistent_super fs) <? PERSIST_DATA_START then (-5, fs)
  else if s_next_sector (persistent_super fs) >? dk_sectors (n_disk fs) then (-5, fs)
  else if s_generation (persistent_super fs) =? 0xffffffff then (-5, fs)
  else
    let next_super := next_super_of fs in
    let txn := make_txn PERSIST_TXN_PREPARE (s_generation next_super) (s_inode_checksum next_super) in
    let clear := make_txn PERSIST_TXN_CLEAR 0 0 in
    write_or_fail fs PERSIST_TXN_SECTOR [enc_txn txn] (fun fs =>
    write_or_fail fs PERSIST_INODE_BACKUP (enc_inodes (persistent_inodes fs)) (fun fs =>
    write_or_fail fs PERSIST_SUPER_BACKUP [enc_super next_super] (fun fs =>
    write_or_fail fs PERSIST_INODE_PRIMARY (enc_inodes (persistent_inodes fs)) (fun fs =>
    write_or_fail fs PERSIST_SUPER_PRIMARY [enc_super next_super] (fun fs =>
    write_or_fail fs PERSIST_TXN_SECTOR [enc_txn clear] (fun fs =>
      (0, Npkfs next_super (persistent_inodes fs) (persistent_backup_inodes fs) (persistent_ready fs) false (n_disk fs)))))))).

(** ** Validation *)

Definition persistent_inode_valid (i : persistent_inode_disk) (sectors : Z) : bool :=
  if (i_used i =? 0) || (byte_at 0 (i_name i) =? 0) || negb (byte_at 47 (i_name i) =? 0) || (i_size i >? PERSIST_FILE_BYTES) ||
     (i_start_sector i <? PERSIST_DATA_START) || (i_start_sector i >? sectors) || (PERSIST_DATA_SECTORS >? sectors - i_start_sector i)
  then false else true.

(** The loop over the table: the number of inodes in use, or none as soon as
    one in use is not valid. *)
Fixpoint count_valid (l : list persistent_inode_disk) (sectors count : Z) : option Z :=
  match l with
  | [] => Some count
  | i :: l' =>
      if i_used i =? 0 then count_valid l' sectors count
      else if negb (persistent_inode_valid i sectors) then None
      else count_valid l' sectors (count + 1)
  end.

Definition persistent_super_slot_valid (s : persistent_superblock) (inodes : list persistent_inode_disk) (sectors : Z) : bool :=
  if negb (s_magic s =? PERSIST_MAGIC) || negb (s_version s =? PERSIST_VERSION) || negb (s_data_start s =? PERSIST_DATA_START) ||
     (s_inode_count s >? PERSIST_MAX_FILES) || (s_next_sector s <? PERSIST_DATA_START) || (s_next_sector s >? sectors) ||
     (s_generation s =? 0) || negb (s_checksum s =? persistent_super_checksum s) ||
     negb (s_inode_checksum s =? persistent_inode_checksum inodes) then false
  else match count_valid inodes sectors 0 with None => false | Some count => count =? s_inode_count s end.

Definition persistent_txn_valid (t : persistent_txn) : bool :=
  (t_magic t =? PERSIST_TXN_MAGIC) && (t_version t =? PERSIST_VERSION) &&
  ((t_state t =? PERSIST_TXN_PREPARE) || (t_state t =? PERSIST_TXN_CLEAR)) && (t_checksum t =? persistent_txn_checksum t).

(** ** Formatting and recovery *)

Definition format_super : persistent_superblock :=
  Super PERSIST_MAGIC PERSIST_VERSION 0 PERSIST_DATA_START PERSIST_DATA_START 0 0 0 (replicate 480 0).

Definition persistent_format (fs : npkfs) : npkfs :=
  (persistent_write_metadata
     (Npkfs format_super (replicate 64 zero_inode) (replicate 64 zero_inode) true false (n_disk fs))).2.

(** A buffer of sectors after a request that filled the first of them. *)
Definition filled (buffer read : list sector) : list sector := read ++ drop (length read) buffer.

(** [ata_read_sectors(super) == 0 && ata_read_sectors(inodes) == 0]: the
    result and the two buffers. *)
Definition read_slot (d : disk) (super_lba inode_lba : Z) (inodes : list persistent_inode_disk) :
    bool * persistent_superblock * list persistent_inode_disk * disk :=
  let '(rc, secs, d) := ata_read_sectors d super_lba 1 BUFFER in
  let super := dec_super (concat (filled [enc_super zero_super] secs)) in
  if negb (rc =? 0) then (false, super, inodes, d)
  else
    let '(rc, secs, d) := ata_read_sectors d inode_lba PERSIST_INODE_SECTORS BUFFER in
    (rc =? 0, super, dec_inodes (filled (enc_inodes inodes) secs), d).

Definition persistent_init (fs : npkfs) : npkfs :=
  let d := n_disk fs in
  let fs := Npkfs (persistent_super fs) (persistent_inodes fs) (persistent_backup_inodes fs) false false d in
  if negb (dk_present d) || negb (dk_writable d) || (dk_sectors d <? PERSIST_DATA_START + PERSIST_DATA_SECTORS) then fs
  else
    let '(primary_read, primary_super, inodes, d) := read_slot d PERSIST_SUPER_PRIMARY PERSIST_INODE_PRIMARY (persistent_inodes fs) in
    let '(backup_read, backup_super, backup_inodes, d) := read_slot d PERSIST_SUPER_BACKUP PERSIST_INODE_BACKUP (persistent_backup_inodes fs) in
    let '(rc, secs, d) := ata_read_sectors d PERSIST_TXN_SECTOR 1 BUFFER in
    let txn := dec_txn (concat (filled [replicate 512 0] secs)) in
    let txn_read := rc =? 0 in
    let primary_valid := primary_read && persistent_super_slot_valid primary_super inodes (dk_sectors d) in
    let backup_valid := backup_read && persistent_super_slot_valid backup_super backup_inodes (dk_sectors d) in
    if negb primary_valid && negb backup_valid then
      persistent_format (Npkfs (persistent_super fs) inodes backup_inodes false false d)
    else
      let fs :=
        if backup_valid && (negb primary_valid || (s_generation backup_super >? s_generation primary_super))
        then Npkfs backup_super backup_inodes backup_inodes true true d
        else Npkfs primary_super inodes backup_inodes true false d in
      if txn_read && persistent_txn_valid txn && (t_state txn =? PERSIST_TXN_PREPARE) then
        with_disk fs (ata_write_sectors d PERSIST_TXN_SECTOR BUFFER [enc_txn (make_txn PERSIST_TXN_CLEAR 0 0)]).2
      else fs.

(** ** Inodes *)

Definition inode_at (fs : npkfs) (i : nat) : persistent_inode_disk := default zero_inode (persistent_inodes fs !! i).
Definition set_inode (fs : npkfs) (i : nat) (v : persistent_inode_disk) : npkfs := with_inodes fs (<[i := v]> (persistent_inodes fs)).

Fixpoint find_inode (p : persistent_inode_disk -> bool) (l : list persistent_inode_disk) (i : nat) : option nat :=
  match l with [] => None | x :: l' => if p x then Some i else find_inode p l' (S i) end.

Definition persistent_find (fs : npkfs) (name : cstr) : option nat :=
  find_inode (fun i => negb (i_used i =? 0) && (strcmp (i_name i) name =? 0)) (persistent_inodes fs) 0.

(** [memcpy(inode->name, name, strlen(name) + 1)] into a cleared inode. *)
Definition name_field (name : cstr) : list Z := text name ++ replicate (48 - length (text name)) 0.

Definition with_next_sector (s : persistent_superblock) (next count : Z) : persistent_superblock :=
  Super (s_magic s) (s_version s) count (s_data_start s) next (s_generation s) (s_inode_checksum s) (s_checksum s) (s_reserved s).

Definition persistent_create (fs : npkfs) (name : cstr) : option nat * npkfs :=
  let s := persistent_super fs in
  let sectors := dk_sectors (n_disk fs) in
  if negb (persistent_ready fs) || (strlen name >=? PERSIST_NAME_CAPACITY) || (s_inode_count s >=? PERSIST_MAX_FILES) then (None, fs)
  else if (s_next_sector s >? sectors) || (PERSIST_DATA_SECTORS >? sectors - s_next_sector s) then (None, fs)
  else
    match find_inode (fun i => i_used i =? 0) (persistent_inodes fs) 0 with
    | None => (None, fs)
    | Some idx =>
        let inode := Inode 1 (replicate 3 0) 0 (s_next_sector s) 33206 (name_field name) in
        let fs := set_inode fs idx inode in
        let fs := with_super fs (with_next_sector s (u32 (s_next_sector s + PERSIST_DATA_SECTORS)) (u32 (s_inode_count s + 1))) in
        let '(rc, d) := ata_write_sectors (n_disk fs) (i_start_sector inode) BUFFER (replicate 128 (replicate 512 0)) in
        let fs := with_disk fs d in
        let '(rc, fs) := if negb (rc =? 0) then (rc, fs) else persistent_write_metadata fs in
        if negb (rc =? 0) then
          let fs := set_inode fs idx zero_inode in
          let s := persistent_super fs in
          let fs := with_super fs (with_next_sector s (u32 (s_next_sector s - PERSIST_DATA_SECTORS)) (u32 (s_inode_count s - 1))) in
          (None, (persistent_write_metadata fs).2)
        else (Some idx, fs)
    end.

Definition with_size (i : persistent_inode_disk) (size : Z) : persistent_inode_disk :=
  Inode (i_used i) (i_reserved i) size (i_start_sector i) (i_mode i) (i_name i).

(** The inode, the size and the data of the descriptor. *)
Definition persistent_sync_descriptor (fs : npkfs) (idx : nat) (size : Z) (data : list sector) : Z * npkfs :=
  let fs := set_inode fs idx (with_size (inode_at fs idx) (u32 size)) in
  let '(rc, d) := ata_write_sectors (n_disk fs) (i_start_sector (inode_at fs idx)) BUFFER data in
  if negb (rc =? 0) then (-5, with_disk fs d) else persistent_write_metadata (with_disk fs d).

(** ** Layout lemmas *)

#[local] Arguments firstn : simpl never.

Definition is_u32 (x : Z) : Prop := 0 <= x < 2 ^ 32.

Record inode_wf (i : persistent_inode_disk) : Prop := {
  iw_used : is_byte (i_used i); iw_reserved : length (i_reserved i) = 3%nat; iw_size : is_u32 (i_size i);
  iw_start : is_u32 (i_start_sector i); iw_mode : is_u32 (i_mode i); iw_name : length (i_name i) = 48%nat }.

Record super_wf (s : persistent_superblock) : Prop := {
  sw_magic : is_u32 (s_magic s); sw_version : is_u32 (s_version s); sw_count : is_u32 (s_inode_count s);
  sw_start : is_u32 (s_data_start s); sw_next : is_u32 (s_next_sector s); sw_gen : is_u32 (s_generation s);
  sw_icrc : is_u32 (s_inode_checksum s); sw_crc : is_u32 (s_checksum s); sw_reserved : length (s_reserved s) = 480%nat }.

Lemma le32_val x : is_u32 x -> x mod 256 + 256 * (x / 256 mod 256) + 65536 * (x / 65536 mod 256) + 16777216 * (x / 16777216 mod 256) = x.
Proof. unfold is_u32. intros. mlia. Qed.

Lemma dec_enc_super s : super_wf s -> dec_super (enc_super s) = s.
Proof.
  intros [H1 H2 H3 H4 H5 H6 H7 H8 H9]. destruct s as [a b c d e f g h r]; simpl in *. unfold dec_super, enc_super, rd32, byte_at. simpl.
  rewrite !le32_val by done. f_equal. rewrite drop_0. apply firstn_all2. lia.
Qed.

Lemma enc_super_len s : length (s_reserved s) = 480%nat -> length (enc_super s) = 512%nat.
Proof. intros H. unfold enc_super. rewrite !length_app, H. done. Qed.

Lemma enc_txn_len t : length (t_reserved t) = 488%nat -> length (enc_txn t) = 512%nat.
Proof. intros H. unfold enc_txn. rewrite !length_app, H. done. Qed.

Lemma enc_inode_len i : inode_wf i -> length (enc_inode i) = 64%nat.
Proof. intros [_ H1 _ _ _ H2]. unfold enc_inode. cbn [length]. rewrite !length_app, H1, H2. done. Qed.

Lemma dec_enc_inode i : inode_wf i -> dec_inode (enc_inode i) = i.
Proof.
  intros [H1 H2 H3 H4 H5 H6]. destruct i as [u r s st m n]; simpl in *.
  destruct r as [|r0 [|r1 [|r2 [|]]]]; try done. unfold dec_inode, enc_inode, rd32, byte_at. simpl.
  rewrite !le32_val by done. f_equal. rewrite drop_0. apply firstn_all2. lia.
Qed.

Lemma concat_chunk n k bs : length bs = (n * k)%nat -> concat (chunk n k bs) = bs.
Proof.
  revert bs; induction k as [|k IH]; intros bs Hl; simpl.
  - rewrite Nat.mul_0_r in Hl. by destruct bs.
  - rewrite IH by (rewrite length_drop; lia). apply take_drop.
Qed.

Lemma chunk_concat n ls : Forall (fun l => length l = n) ls -> chunk n (length ls) (concat ls) = ls.
Proof.
  induction 1 as [|l ls Hl Hls IH]; [done|]. simpl. rewrite take_app_length' by done. by rewrite drop_app_length', IH by done.
Qed.

Lemma chunk_length n k bs : length (chunk n k bs) = k.
Proof. revert bs; induction k as [|k IH]; intros bs; simpl; [done|by rewrite IH]. Qed.

(** The inode table that fits its block. *)
Definition table_wf (l : list persistent_inode_disk) : Prop := length l = 64%nat /\ Forall inode_wf l.

Lemma enc_table_len l : table_wf l -> length (enc_table l) = 4096%nat.
Proof.
  intros [Hl Hw]. assert (H : length (enc_table l) = (64 * length l)%nat).
  { clear Hl. induction Hw as [|i l Hi Hw IH]; [done|]. 
    change (enc_table (i :: l)) with (enc_inode i ++ enc_table l). rewrite length_app, IH, enc_inode_len by done. cbn [length]. lia. }
  by rewrite H, Hl.
Qed.

Lemma dec_enc_inodes l : table_wf l -> dec_inodes (enc_inodes l) = l.
Proof.
  intros Hw. unfold dec_inodes, enc_inodes. rewrite concat_chunk by (by apply enc_table_len).
  destruct Hw as [Hl Hw]. pose proof (chunk_concat 64 (map enc_inode l)) as Hc.
  rewrite length_map, Hl in Hc. unfold enc_table. rewrite Hc.
  - rewrite map_map. clear Hl Hc. induction Hw as [|i l Hi Hw IH]; [done|]. cbn [map]. by rewrite dec_enc_inode, IH.
  - apply Forall_map. eapply Forall_impl; [exact Hw|]. intros i Hi. by apply enc_inode_len.
Qed.

Lemma crc_u32 bs : is_u32 (persistent_checksum_bytes bs).
Proof. unfold persistent_checksum_bytes, is_u32, u32. apply Z.mod_pos_bound. done. Qed.

(** ** The commit sequence *)

Definition disk_ok (d : disk) : Prop :=
  dk_present d = true /\ dk_writable d = true /\ PERSIST_DATA_START + PERSIST_DATA_SECTORS <= dk_sectors d.

Lemma disk_ok_same d d' : disk_ok d -> same_device d d' -> disk_ok d'.
Proof. intros (H1 & H2 & H3) (E1 & E2 & E3 & E4). unfold disk_ok. by rewrite E1, E2, E3. Qed.

Lemma check_meta d lba count : disk_ok d -> 1 <= lba -> 1 <= count -> lba + count <= 160 -> check_request d lba count BUFFER = 0.
Proof.
  unfold disk_ok, PERSIST_DATA_START, PERSIST_DATA_SECTORS, check_request, BUFFER, ATA_LBA28_MAX. intros (-> & _ & H1) H2 H3 H4. cif E; [exfalso; cbn in E; lia|done].
Qed.

Lemma write_or_fail_seq fs lba secs k :
  disk_ok (n_disk fs) -> 1 <= lba -> (1 <= length secs)%nat -> lba + Z.of_nat (length secs) <= 160 ->
  write_or_fail fs lba secs k =
    let '(rc, d) := put_seq (n_disk fs) (extent lba secs) in if rc =? 0 then k (with_disk fs d) else (-5, with_disk fs d).
Proof.
  intros Hd H1 H2 H3. unfold write_or_fail, ata_write_sectors. rewrite check_meta by (done || lia).
  destruct Hd as (_ & -> & _). cbn [negb Z.eqb orb]. rewrite write_loop_seq. destruct (put_seq _ _) as [rc d]. by destruct (rc =? 0).
Qed.

(** The sector writes of a commit, in order. *)
Definition backup_writes (fs : npkfs) : list (Z * sector) :=
  extent PERSIST_TXN_SECTOR [enc_txn (make_txn PERSIST_TXN_PREPARE (s_generation (next_super_of fs)) (s_inode_checksum (next_super_of fs)))] ++
  extent PERSIST_INODE_BACKUP (enc_inodes (persistent_inodes fs)).
Definition primary_writes (fs : npkfs) : list (Z * sector) :=
  extent PERSIST_INODE_PRIMARY (enc_inodes (persistent_inodes fs)).
Definition meta_writes (fs : npkfs) : list (Z * sector) :=
  backup_writes fs ++ extent PERSIST_SUPER_BACKUP [enc_super (next_super_of fs)] ++
  primary_writes fs ++ extent PERSIST_SUPER_PRIMARY [enc_super (next_super_of fs)] ++
  extent PERSIST_TXN_SECTOR [enc_txn (make_txn PERSIST_TXN_CLEAR 0 0)].

Definition commit_guards (fs : npkfs) : Prop :=
  persistent_ready fs = true /\ PERSIST_DATA_START <= s_next_sector (persistent_super fs) <= dk_sectors (n_disk fs) /\
  s_generation (persistent_super fs) <> 0xffffffff.

Lemma commit_step fs d lba secs ws k (f : disk -> Z * npkfs) :
  disk_ok d -> 1 <= lba -> (1 <= length secs)%nat -> lba + Z.of_nat (length secs) <= 160 ->
  (forall d', disk_ok d' ->
    k (with_disk fs d') = let '(rc, d'') := put_seq d' ws in if rc =? 0 then f d'' else (-5, with_disk fs d'')) ->
  write_or_fail (with_disk fs d) lba secs k =
    let '(rc, d') := put_seq d (extent lba secs ++ ws) in if rc =? 0 then f d' else (-5, with_disk fs d').
Proof.
  intros Hd H1 H2 H3 Hk. rewrite write_or_fail_seq by done. cbn [n_disk with_disk]. rewrite put_seq_app.
  destruct (put_seq_spec d (extent lba secs)) as (n & _ & _ & Hs & Hr).
  destruct (put_seq d (extent lba secs)) as [rc d']. cbn [fst snd] in *. destruct (rc =? 0) eqn:E; [|by rewrite E].
  apply Hk. by eapply disk_ok_same.
Qed.

Lemma write_metadata_seq fs :
  disk_ok (n_disk fs) -> commit_guards fs ->
  persistent_write_metadata fs =
    let '(rc, d) := put_seq (n_disk fs) (meta_writes fs) in
    if rc =? 0 then (0, Npkfs (next_super_of fs) (persistent_inodes fs) (persistent_backup_inodes fs) (persistent_ready fs) false d)
    else (-5, with_disk fs d).
Proof.
  intros Hd (H1 & H2 & H3). unfold persistent_write_metadata. rewrite H1. cbn [negb].
  cif E1; [lia|]. cif E2; [lia|]. cif E3; [lia|]. unfold meta_writes, backup_writes, primary_writes. rewrite <-!app_assoc.
  assert (Hl : length (enc_inodes (persistent_inodes fs)) = 8%nat) by apply chunk_length.
  assert (Hfs : fs = with_disk fs (n_disk fs)) by (by destruct fs). rewrite Hfs at 1.
  rewrite <-(app_nil_r (extent PERSIST_TXN_SECTOR [enc_txn (make_txn PERSIST_TXN_CLEAR 0 0)])).
  apply commit_step; [done|done|simpl; lia|done|]. intros d1 Hd1.
  apply commit_step; [done|done|cbn [with_disk persistent_inodes]; lia|cbn [with_disk persistent_inodes]; rewrite Hl; done|]. intros d2 Hd2.
  apply commit_step; [done|done|simpl; lia|done|]. intros d3 Hd3.
  apply commit_step; [done|done|cbn [with_disk persistent_inodes]; lia|cbn [with_disk persistent_inodes]; rewrite Hl; done|]. intros d4 Hd4.
  apply commit_step; [done|done|simpl; lia|done|]. intros d5 Hd5.
  apply commit_step; [done|done|simpl; lia|done|]. intros d6 Hd6. cbn [put_seq]. cbn [with_disk persistent_inodes persistent_backup_inodes persistent_ready n_disk Z.eqb].
  by rewrite <-H1.
Qed.

(** ** Recovery *)

Definition slot : Type := persistent_superblock * list persistent_inode_disk.

(** What a copy of the metadata on the medium holds. *)
Definition slot_at (data : arr sector) (super_lba inode_lba : Z) : slot :=
  (dec_super data.[super_lba], dec_inodes (sectors_at data inode_lba 8)).
Definition primary_slot (data : arr sector) : slot := slot_at data PERSIST_SUPER_PRIMARY PERSIST_INODE_PRIMARY.
Definition backup_slot (data : arr sector) : slot := slot_at data PERSIST_SUPER_BACKUP PERSIST_INODE_BACKUP.

Definition slot_valid (s : slot) (sectors : Z) : bool := persistent_super_slot_valid s.1 s.2 sectors.

(** The slot recovery takes. *)
Definition recover (data : arr sector) (sectors : Z) : option slot :=
  let p := primary_slot data in
  let b := backup_slot data in
  if slot_valid b sectors && (negb (slot_valid p sectors) || (s_generation b.1 >? s_generation p.1)) then Some b
  else if slot_valid p sectors then Some p else None.

Definition metadata (fs : npkfs) : slot := (persistent_super fs, persistent_inodes fs).

Lemma sectors_at_length data lba n : length (sectors_at data lba n) = n.
Proof. revert lba; induction n as [|n IH]; intros lba; simpl; [done|by rewrite IH]. Qed.

Lemma read_slot_spec d super_lba inode_lba inodes :
  disk_ok d -> dk_reads d = [] -> 1 <= super_lba -> 1 <= inode_lba -> super_lba <= 150 -> inode_lba <= 150 ->
  read_slot d super_lba inode_lba inodes = (true, (slot_at (dk_data d) super_lba inode_lba).1, (slot_at (dk_data d) super_lba inode_lba).2, d).
Proof.
  intros Hd Hr H1 H2 H3 H4. unfold read_slot, ata_read_sectors, PERSIST_INODE_SECTORS. rewrite !check_meta by (done || lia). cbn [negb Z.eqb].
  rewrite read_loop_spec by done. cbn [negb Z.eqb]. rewrite check_meta by (done || lia). cbn [negb Z.eqb].
  rewrite read_loop_spec by done. unfold slot_at. cbn [fst snd]. f_equal. f_equal. f_equal.
  change (sectors_at (dk_data d) super_lba (Z.to_nat 1)) with [(dk_data d).[super_lba]].
  unfold filled. cbn [length drop app concat]. by rewrite app_nil_r.
Qed.

Lemma persistent_init_spec fs :
  disk_ok (n_disk fs) -> dk_reads (n_disk fs) = [] ->
  match recover (dk_data (n_disk fs)) (dk_sectors (n_disk fs)) with
  | Some s => metadata (persistent_init fs) = s /\ persistent_ready (persistent_init fs) = true
  | None => exists fs', persistent_init fs = persistent_format fs' /\ n_disk fs' = n_disk fs
  end.
Proof.
  intros Hd Hr. unfold persistent_init. pose proof Hd as (H1 & H2 & H3). rewrite H1, H2.
  replace (dk_sectors (n_disk fs) <? _) with false by lia. cbn [negb orb].
  rewrite read_slot_spec by (done || lia). cbn [persistent_inodes persistent_backup_inodes].
  rewrite read_slot_spec by (done || lia). unfold ata_read_sectors. rewrite check_meta by (done || lia). cbn [negb Z.eqb].
  rewrite read_loop_spec by done. unfold recover, slot_valid. fold (primary_slot (dk_data (n_disk fs))) (backup_slot (dk_data (n_disk fs))).
  set (p := primary_slot _). set (b := backup_slot _). set (t := dec_txn _). cbn [andb Z.eqb].
  set (tv := persistent_txn_valid t && (t_state t =? PERSIST_TXN_PREPARE)).
  destruct (persistent_super_slot_valid p.1 p.2 _) eqn:Ep, (persistent_super_slot_valid b.1 b.2 _) eqn:Eb; cbn [negb andb orb].
  - destruct (_ >? _); cbn [negb andb orb]; destruct tv; (split; [symmetry; apply surjective_pairing|done]).
  - destruct tv; (split; [symmetry; apply surjective_pairing|done]).
  - destruct tv; (split; [symmetry; apply surjective_pairing|done]).
  - eexists. split; [reflexivity|done].
Qed.

(** ** A commit is atomic *)

(** The metadata in memory is fit to be written. *)
Record committable (fs : npkfs) : Prop := {
  cm_guards : commit_guards fs;
  cm_table : table_wf (persistent_inodes fs);
  cm_super : super_wf (persistent_super fs);
  cm_magic : s_magic (persistent_super fs) = PERSIST_MAGIC;
  cm_version : s_version (persistent_super fs) = PERSIST_VERSION;
  cm_start : s_data_start (persistent_super fs) = PERSIST_DATA_START;
  cm_inodes : Forall (fun i => i_used i <> 0 -> persistent_inode_valid i (dk_sectors (n_disk fs)) = true) (persistent_inodes fs) }.

Lemma count_valid_spec l sectors c :
  Forall (fun i => i_used i <> 0 -> persistent_inode_valid i sectors = true) l ->
  count_valid l sectors c = Some (foldl (fun n i => if negb (i_used i =? 0) then n + 1 else n) c l) /\
  c <= foldl (fun n i => if negb (i_used i =? 0) then n + 1 else n) c l <= c + Z.of_nat (length l).
Proof.
  intros H. revert c; induction H as [|i l Hi Hl IH]; intros c; [split; [done|simpl; lia]|].
  cbn [count_valid foldl length]. destruct (i_used i =? 0) eqn:E; cbn [negb].
  - destruct (IH c) as [-> ?]. split; [done|lia].
  - rewrite Hi by lia. cbn [negb]. destruct (IH (c + 1)) as [-> ?]. split; [done|lia].
Qed.

Lemma next_super_wf fs : committable fs -> super_wf (next_super_of fs).
Proof.
  intros [(G1 & G2 & G3) [Ht1 Ht2] Hs Hm Hv Hd Hi]. destruct (count_valid_spec _ _ 0 Hi) as [_ Hc]. rewrite Ht1 in Hc.
  destruct Hs. unfold is_u32 in *. constructor; cbn; unfold is_u32; try apply crc_u32; try done; unfold count_used; lia.
Qed.

Lemma next_super_valid fs : committable fs -> slot_valid (next_super_of fs, persistent_inodes fs) (dk_sectors (n_disk fs)) = true.
Proof.
  intros [(G1 & G2 & G3) [Ht1 Ht2] Hs Hm Hv Hd Hi]. destruct (count_valid_spec _ _ 0 Hi) as [Hcv Hc]. rewrite Ht1 in Hc.
  unfold slot_valid, persistent_super_slot_valid. cbn [fst snd]. rewrite Hcv. destruct Hs. unfold is_u32 in *.
  replace (s_checksum (next_super_of fs)) with (persistent_super_checksum (next_super_of fs)) by done.
  change (s_inode_checksum (next_super_of fs)) with (persistent_inode_checksum (persistent_inodes fs)).
  change (s_inode_count (next_super_of fs)) with (count_used (persistent_inodes fs)).
  change (s_generation (next_super_of fs)) with (s_generation (persistent_super fs) + 1).
  change (s_next_sector (next_super_of fs)) with (s_next_sector (persistent_super fs)).
  change (s_magic (next_super_of fs)) with (s_magic (persistent_super fs)).
  change (s_version (next_super_of fs)) with (s_version (persistent_super fs)).
  change (s_data_start (next_super_of fs)) with (s_data_start (persistent_super fs)).
  rewrite Hm, Hv, Hd, !Z.eqb_refl. cbn [negb orb]. unfold count_used, PERSIST_MAX_FILES.
  replace (_ >? 64) with false by lia. replace (_ <? _) with false by lia. replace (_ >? _) with false by lia. by replace (_ =? 0) with false by lia.
Qed.

(** Both copies on the medium hold [s]. *)
Definition stored (data : arr sector) (s : slot) : Prop := primary_slot data = s /\ backup_slot data = s.

Lemma slot_at_ext data data' sl il :
  data'.[sl] = data.[sl] -> (forall a, il <= a < il + 8 -> data'.[a] = data.[a]) -> slot_at data' sl il = slot_at data sl il.
Proof. intros H1 H2. unfold slot_at. rewrite H1. by rewrite (sectors_at_ext data data'). Qed.

Lemma apply_writes_app ws1 ws2 data : apply_writes (ws1 ++ ws2) data = apply_writes ws2 (apply_writes ws1 data).
Proof. unfold apply_writes. apply foldl_app. Qed.

(** Writing the inodes and then the superblock of a slot. *)
Lemma slot_written data fs sl il :
  table_wf (persistent_inodes fs) -> super_wf (next_super_of fs) -> ~ (il <= sl < il + 8) ->
  slot_at (apply_writes (extent il (enc_inodes (persistent_inodes fs)) ++ extent sl [enc_super (next_super_of fs)]) data) sl il =
  (next_super_of fs, persistent_inodes fs).
Proof.
  intros Ht Hs Hne. rewrite apply_writes_app. set (data1 := apply_writes (extent il _) data). unfold slot_at. cbn [extent apply_writes foldl fst snd].
  rewrite aget_aset_eq, dec_enc_super by done. f_equal. rewrite (sectors_at_ext data1).
  - unfold data1. etransitivity; [|apply (dec_enc_inodes _ Ht)]. f_equal.
    pose proof (sectors_at_extent data il (enc_inodes (persistent_inodes fs))) as H. unfold enc_inodes in H at 2. by rewrite chunk_length in H.
  - intros a Ha. apply aget_aset_ne. lia.
Qed.

Lemma recover_primary data s sectors :
  primary_slot data = s -> slot_valid s sectors = true -> s_generation (backup_slot data).1 <= s_generation s.1 ->
  recover data sectors = Some s.
Proof.
  intros Hp Hv Hg. unfold recover. rewrite Hp, Hv. replace (_ >? _) with false by lia. by rewrite andb_false_r.
Qed.

Lemma recover_backup data s sectors :
  backup_slot data = s -> slot_valid s sectors = true -> s_generation (primary_slot data).1 < s_generation s.1 ->
  recover data sectors = Some s.
Proof.
  intros Hp Hv Hg. unfold recover. rewrite Hp, Hv. replace (_ >? _) with true by lia. by rewrite orb_true_r.
Qed.

Lemma backup_writes_length fs : length (backup_writes fs) = 9%nat.
Proof. unfold backup_writes. rewrite length_app, !extent_length. unfold enc_inodes. by rewrite chunk_length. Qed.

Lemma primary_writes_length fs : length (primary_writes fs) = 8%nat.
Proof. unfold primary_writes. rewrite extent_length. apply chunk_length. Qed.

Lemma meta_writes_length fs : length (meta_writes fs) = 20%nat.
Proof. unfold meta_writes. rewrite !length_app, backup_writes_length, primary_writes_length. done. Qed.

Lemma take_elem {A} (x : A) n l : x ∈ take n l -> x ∈ l.
Proof. rewrite <-(take_drop n l) at 2. intros. apply elem_of_app. by left. Qed.

Lemma backup_range fs w : w ∈ backup_writes fs -> 11 <= w.1 < 20.
Proof.
  unfold backup_writes. intros [H|H]%elem_of_app; apply extent_range in H; [unfold PERSIST_TXN_SECTOR in H; cbn [length] in H; lia|].
  unfold enc_inodes, PERSIST_INODE_BACKUP in H. rewrite chunk_length in H. lia.
Qed.

Lemma primary_range fs w : w ∈ primary_writes fs -> 2 <= w.1 < 10.
Proof.
  unfold primary_writes. intros H. apply extent_range in H. unfold enc_inodes, PERSIST_INODE_PRIMARY in H. rewrite chunk_length in H. lia.
Qed.

(** The medium after the first [n] writes, in the three phases of a commit. *)
Lemma phase_backup fs data n :
  (n <= 9)%nat -> let data' := apply_writes (take n (meta_writes fs)) data in
  primary_slot data' = primary_slot data /\ (backup_slot data').1 = (backup_slot data).1.
Proof.
  intros Hn data'. assert (Ho : forall a, 1 <= a <= 10 -> data'.[a] = data.[a]).
  { intros a Ha. apply apply_writes_other. intros w Hw. unfold meta_writes in Hw.
    rewrite take_app_le in Hw by (rewrite backup_writes_length; lia). apply take_elem, backup_range in Hw. lia. }
  split; [apply slot_at_ext; [apply Ho; unfold PERSIST_SUPER_PRIMARY; lia|intros a Ha; apply Ho; unfold PERSIST_INODE_PRIMARY in Ha; lia]|].
  unfold backup_slot, slot_at. cbn [fst]. by rewrite Ho by (unfold PERSIST_SUPER_BACKUP; lia).
Qed.

Lemma phase_primary fs data n :
  table_wf (persistent_inodes fs) -> super_wf (next_super_of fs) -> (10 <= n)%nat ->
  backup_slot (apply_writes (take n (meta_writes fs)) data) = (next_super_of fs, persistent_inodes fs) /\
  ((n <= 18)%nat -> (primary_slot (apply_writes (take n (meta_writes fs)) data)).1 = (primary_slot data).1).
Proof.
  intros Ht Hs Hn. unfold meta_writes. rewrite app_assoc, take_app_ge by (rewrite length_app, backup_writes_length; cbn; lia).
  rewrite length_app, backup_writes_length, apply_writes_app. cbn [length Nat.add extent].
  set (d1 := apply_writes (backup_writes fs ++ _) data). set (rest := take (n - 10) _). split.
  - etransitivity; [|apply (slot_written (apply_writes (extent PERSIST_TXN_SECTOR [enc_txn (make_txn PERSIST_TXN_PREPARE (s_generation (next_super_of fs)) (s_inode_checksum (next_super_of fs)))]) data) fs PERSIST_SUPER_BACKUP PERSIST_INODE_BACKUP Ht Hs); unfold PERSIST_SUPER_BACKUP, PERSIST_INODE_BACKUP; lia].
    rewrite <-apply_writes_app, app_assoc. fold (backup_writes fs). cbn [extent]. fold d1.
    assert (Ho : forall a, 10 <= a -> a <> 11 -> (apply_writes rest d1).[a] = d1.[a]).
    { intros a Ha Hb. apply apply_writes_other. intros w Hw. apply take_elem, elem_of_app in Hw as [Hw%primary_range|Hw]; [lia|].
      apply elem_of_app in Hw as [Hw%list_elem_of_singleton|Hw%list_elem_of_singleton]; subst w; cbn; unfold PERSIST_SUPER_PRIMARY, PERSIST_TXN_SECTOR; lia. }
    apply slot_at_ext; [apply Ho; unfold PERSIST_SUPER_BACKUP; lia|intros a Ha; apply Ho; unfold PERSIST_INODE_BACKUP in Ha; lia].
  - intros Hn'. unfold primary_slot, slot_at. cbn [fst]. f_equal. transitivity (d1.[PERSIST_SUPER_PRIMARY]).
    + apply apply_writes_other. intros w Hw. unfold rest in Hw. rewrite take_app_le in Hw by (rewrite primary_writes_length; lia).
      apply take_elem, primary_range in Hw. unfold PERSIST_SUPER_PRIMARY. lia.
    + apply apply_writes_other. intros w [Hw%backup_range|Hw%list_elem_of_singleton]%elem_of_app; [|subst w; cbn]; unfold PERSIST_SUPER_PRIMARY, PERSIST_SUPER_BACKUP in *; lia.
Qed.

Lemma phase_done fs data n :
  table_wf (persistent_inodes fs) -> super_wf (next_super_of fs) -> (19 <= n)%nat ->
  primary_slot (apply_writes (take n (meta_writes fs)) data) = (next_super_of fs, persistent_inodes fs).
Proof.
  intros Ht Hs Hn. unfold meta_writes. rewrite !app_assoc, take_app_ge
    by (rewrite !length_app, backup_writes_length, primary_writes_length; cbn; lia).
  rewrite apply_writes_app. set (rest := take _ _). rewrite <-(app_assoc (backup_writes fs ++ _)), apply_writes_app.
  set (d0 := apply_writes (backup_writes fs ++ _) data). etransitivity; [|apply (slot_written d0 fs PERSIST_SUPER_PRIMARY PERSIST_INODE_PRIMARY Ht Hs)];
    [|unfold PERSIST_SUPER_PRIMARY, PERSIST_INODE_PRIMARY; lia].
  assert (Ho : forall d a, a <> 11 -> (apply_writes rest d).[a] = d.[a]).
  { intros d a Ha. apply apply_writes_other. intros w Hw. apply take_elem, list_elem_of_singleton in Hw. subst w. cbn. unfold PERSIST_TXN_SECTOR. lia. }
  apply slot_at_ext; [apply Ho; unfold PERSIST_SUPER_PRIMARY; lia|intros a Ha; apply Ho; unfold PERSIST_INODE_PRIMARY in Ha; lia].
Qed.

Lemma commit_prefix fs data s0 n sectors :
  committable fs -> sectors = dk_sectors (n_disk fs) -> stored data s0 -> slot_valid s0 sectors = true ->
  s_generation s0.1 = s_generation (persistent_super fs) ->
  let data' := apply_writes (take n (meta_writes fs)) data in
  recover data' sectors = Some (if (n <? 10)%nat then s0 else (next_super_of fs, persistent_inodes fs)) /\
  ((20 <= n)%nat -> stored data' (next_super_of fs, persistent_inodes fs)).
Proof.
  intros Hc -> [Hp Hb] Hv Hg data'. pose proof (next_super_valid fs Hc) as Hv'. pose proof (next_super_wf fs Hc) as Hs'.
  pose proof (cm_table fs Hc) as Ht. destruct (n <? 10)%nat eqn:En.
  { destruct (phase_backup fs data n) as [H1 H2]; [lia|]. fold data' in H1, H2. split; [|lia].
    apply recover_primary; [congruence|done|]. rewrite H2, Hb. lia. }
  destruct (phase_primary fs data n Ht Hs') as [H1 H2]; [lia|]. fold data' in H1, H2. destruct (n <=? 18)%nat eqn:En'.
  - split; [|lia]. apply recover_backup; [done|done|]. rewrite H2, Hp by lia. rewrite Hg. cbn [fst]. cbn. lia.
  - pose proof (phase_done fs data n Ht Hs' ltac:(lia)) as H3. fold data' in H3. split; [|done].
    apply recover_primary; [done|done|]. by rewrite H1.
Qed.


(** ** The inode table and the data area *)

(** The extents of two files do not meet. *)
Definition apart (a b : persistent_inode_disk) : Prop :=
  i_start_sector a + PERSIST_DATA_SECTORS <= i_start_sector b \/ i_start_sector b + PERSIST_DATA_SECTORS <= i_start_sector a.

Definition used (l : list persistent_inode_disk) (k : nat) (i : persistent_inode_disk) : Prop := l !! k = Some i /\ i_used i <> 0.

Record slot_wf (sectors : Z) (s : slot) : Prop := {
  sl_super : super_wf s.1;
  sl_magic : s_magic s.1 = PERSIST_MAGIC;
  sl_version : s_version s.1 = PERSIST_VERSION;
  sl_start : s_data_start s.1 = PERSIST_DATA_START;
  sl_next : PERSIST_DATA_START <= s_next_sector s.1 <= sectors;
  sl_table : table_wf s.2;
  sl_valid : forall k i, used s.2 k i -> persistent_inode_valid i sectors = true;
  sl_below : forall k i, used s.2 k i -> i_start_sector i + PERSIST_DATA_SECTORS <= s_next_sector s.1;
  sl_apart : forall k i k' i', used s.2 k i -> used s.2 k' i' -> k <> k' -> apart i i' }.

Definition npk_wf (fs : npkfs) : Prop := disk_ok (n_disk fs) /\ slot_wf (dk_sectors (n_disk fs)) (metadata fs).

Lemma slot_wf_committable fs :
  npk_wf fs -> persistent_ready fs = true -> s_generation (persistent_super fs) <> 0xffffffff -> committable fs.
Proof.
  intros [Hd [H1 H2 H3 H4 H5 H6 H7 H8 H9]] Hr Hg. constructor; try done. apply Forall_lookup. intros k i Hk Hu. by apply (H7 k i).
Qed.

Lemma slot_wf_next fs : npk_wf fs -> s_generation (persistent_super fs) <> 0xffffffff -> persistent_ready fs = true ->
  slot_wf (dk_sectors (n_disk fs)) (next_super_of fs, persistent_inodes fs).
Proof.
  intros Hw Hg Hr. pose proof (next_super_wf fs (slot_wf_committable fs Hw Hr Hg)) as Hs.
  destruct Hw as [Hd [H1 H2 H3 H4 H5 H6 H7 H8 H9]]. by constructor.
Qed.

(** A write confined to the metadata sectors. *)
Definition data_kept (d d' : disk) : Prop := forall a, PERSIST_DATA_START <= a -> (dk_data d').[a] = (dk_data d).[a].

Lemma write_metadata_mem fs :
  npk_wf fs ->
  let '(rc, fs') := persistent_write_metadata fs in
  npk_wf fs' /\ same_device (n_disk fs) (n_disk fs') /\ data_kept (n_disk fs) (n_disk fs') /\
  persistent_ready fs' = persistent_ready fs /\ persistent_inodes fs' = persistent_inodes fs /\
  (rc = 0 /\ persistent_super fs' = next_super_of fs \/ rc <> 0 /\ persistent_super fs' = persistent_super fs).
Proof.
  intros Hw. destruct (decide (commit_guards fs)) as [Hg|Hg].
  - rewrite write_metadata_seq by (done || apply Hw). destruct Hg as (G1 & G2 & G3).
    destruct (put_seq_spec (n_disk fs) (meta_writes fs)) as (n & Hn & Hdata & Hsame & Hr).
    destruct (put_seq (n_disk fs) (meta_writes fs)) as [rc d]. cbn [fst snd] in *.
    assert (Hk : data_kept (n_disk fs) d).
    { intros a Ha. unfold PERSIST_DATA_START in Ha. rewrite Hdata. apply apply_writes_other. intros w Hin%take_elem.
      unfold meta_writes in Hin. rewrite !elem_of_app in Hin. destruct Hin as [H%backup_range|[H%list_elem_of_singleton|[H%primary_range|[H%list_elem_of_singleton|H%list_elem_of_singleton]]]];
        try subst w; cbn [fst]; unfold PERSIST_SUPER_BACKUP, PERSIST_SUPER_PRIMARY, PERSIST_TXN_SECTOR in *; lia. }
    assert (Hok : disk_ok d) by (eapply disk_ok_same; [apply Hw|done]). pose proof Hsame as (E1 & E2 & E3 & E4).
    destruct (rc =? 0); cbn [n_disk persistent_inodes persistent_super persistent_ready with_disk].
    + split; [|by repeat (split; [done|]); left]. split; [done|]. cbn [n_disk]. rewrite E3. by apply slot_wf_next.
    + split; [|by repeat (split; [done|]); right]. split; [done|]. cbn [n_disk with_disk]. rewrite E3. apply Hw.
  - unfold persistent_write_metadata. unfold commit_guards in Hg.
    split_ifs; try (split; [done|]; by repeat (split; [done|]); right).
    exfalso. apply Hg. destruct (persistent_ready fs); [|done]. split; [done|]. lia.
Qed.

Lemma find_inode_some p l k j :
  find_inode p l k = Some j -> (k <= j)%nat /\ exists x, l !! (j - k)%nat = Some x /\ p x = true /\
    forall m y, (m < j - k)%nat -> l !! m = Some y -> p y = false.
Proof.
  revert k; induction l as [|x l IH]; intros k H; [done|]. simpl in H. destruct (p x) eqn:E.
  - injection H as <-. split; [lia|]. exists x. rewrite Nat.sub_diag. split; [done|]. split; [done|]. intros; lia.
  - apply IH in H as (Hle & y & Hy & Hp & Hmin). split; [lia|]. exists y. replace (j - k)%nat with (S (j - S k)) by lia.
    split; [done|]. split; [done|]. intros [|m] z Hm Hz; simpl in Hz; [by simplify_eq|]. apply (Hmin m); [lia|done].
Qed.

Lemma find_inode_none p l k : find_inode p l k = None <-> Forall (fun x => p x = false) l.
Proof.
  revert k; induction l as [|x l IH]; intros k; simpl; [split; [constructor|done]|].
  destruct (p x) eqn:E; [split; [done|intros H; inversion H; congruence]|]. rewrite IH. split; [by constructor|by intros H; inversion H].
Qed.

Lemma table_wf_insert l k i : table_wf l -> inode_wf i -> table_wf (<[k := i]> l).
Proof. intros [H1 H2] Hi. split; [by rewrite length_insert|by apply Forall_insert]. Qed.

Lemma used_insert l k i k' i' : used (<[k := i]> l) k' i' -> k' = k /\ i' = i /\ i_used i <> 0 \/ k' <> k /\ used l k' i'.
Proof.
  intros [H Hu]. destruct (decide (k' = k)) as [->|Hne].
  - apply list_lookup_insert_Some in H as [(_ & -> & _)|[? _]]; [by left|done].
  - right. rewrite list_lookup_insert_ne in H by done. by split.
Qed.

Lemma zero_inode_wf : inode_wf zero_inode.
Proof. constructor; cbn; unfold is_byte, is_u32; done || lia. Qed.

(** Clearing an inode keeps the table in order. *)
Lemma slot_wf_clear sectors s l k : slot_wf sectors (s, l) -> slot_wf sectors (s, <[k := zero_inode]> l).
Proof.
  intros [H1 H2 H3 H4 H5 H6 H7 H8 H9]. constructor; cbn [fst snd] in *; try done.
  - apply table_wf_insert; [done|apply zero_inode_wf].
  - intros k' i' Hu. apply used_insert in Hu as [(_ & _ & ?)|[_ Hu]]; [done|by apply (H7 k')].
  - intros k' i' Hu. apply used_insert in Hu as [(_ & _ & ?)|[_ Hu]]; [done|by apply (H8 k')].
  - intros k1 i1 k2 i2 Hu1 Hu2. apply used_insert in Hu1 as [(_ & _ & ?)|[_ Hu1]], Hu2 as [(_ & _ & ?)|[_ Hu2]]; try done. by apply H9.
Qed.

(** Changing the size of a file keeps it in order. *)
Lemma slot_wf_size sectors s l k i size :
  slot_wf sectors (s, l) -> used l k i -> 0 <= size <= PERSIST_FILE_BYTES -> slot_wf sectors (s, <[k := with_size i size]> l).
Proof.
  intros [H1 H2 H3 H4 H5 H6 H7 H8 H9] Hi Hs. constructor; cbn [fst snd] in *; try done.
  - apply table_wf_insert; [done|]. destruct H6 as [_ H6]. destruct (proj1 (Forall_lookup _ _) H6 k i (proj1 Hi)). constructor; try done.
    unfold PERSIST_FILE_BYTES, PERSIST_DATA_SECTORS, NPK_SECTOR_SIZE in Hs. unfold is_u32. cbn. lia.
  - intros k' i' Hu. apply used_insert in Hu as [(-> & -> & _)|[_ Hu]]; [|by apply (H7 k')].
    pose proof (H7 k i Hi) as Hv. unfold persistent_inode_valid in *. cbn [with_size i_used i_name i_size i_start_sector].
    revert Hv. destruct (i_size i >? PERSIST_FILE_BYTES); [by rewrite orb_true_r|]. by replace (size >? PERSIST_FILE_BYTES) with false by lia.
  - intros k' i' Hu. apply used_insert in Hu as [(-> & -> & _)|[_ Hu]]; [exact (H8 k i Hi)|by apply (H8 k')].
  - intros k1 i1 k2 i2 Hu1 Hu2 Hne. apply used_insert in Hu1 as [(-> & -> & _)|[_ Hu1]], Hu2 as [(-> & -> & _)|[_ Hu2]]; try done.
    + by apply (H9 k i k2 i2).
    + by apply (H9 k1 i1 k i).
    + by apply (H9 k1 i1 k2 i2).
Qed.

Lemma ata_write_extent d lba secs :
  let d' := (ata_write_sectors d lba BUFFER secs).2 in
  same_device d d' /\ (forall a, ~ (lba <= a < lba + Z.of_nat (length secs)) -> (dk_data d').[a] = (dk_data d).[a]) /\
  ((ata_write_sectors d lba BUFFER secs).1 = 0 -> sectors_at (dk_data d') lba (length secs) = secs).
Proof.
  destruct (ata_write_cases d lba BUFFER secs) as [[Hrc ->]|(Hw & _ & n & Hn & Hd & Hs & Hr)].
  - split; [done|]. split; [done|]. lia.
  - intros d'. split; [done|]. unfold d'. rewrite Hd. split.
    + intros a Ha. apply apply_writes_other. intros w Hw'. apply extent_range in Hw'. rewrite length_take in Hw'. lia.
    + intros H0. destruct Hr as [[_ ->]|Hr]; [|lia]. rewrite firstn_all. apply sectors_at_extent.
Qed.

Definition file_data (fs : npkfs) (i : persistent_inode_disk) : list sector := sectors_at (dk_data (n_disk fs)) (i_start_sector i) 128.

(** Every other file in use, and its data, is as it was. *)
Definition others_kept (fs fs' : npkfs) (idx : nat) : Prop :=
  forall k i, k <> idx -> used (persistent_inodes fs) k i <-> used (persistent_inodes fs') k i.
Definition others_data_kept (fs fs' : npkfs) (idx : nat) : Prop :=
  forall k i, k <> idx -> used (persistent_inodes fs) k i -> file_data fs' i = file_data fs i.

Lemma file_data_kept fs fs' i lo :
  PERSIST_DATA_START <= i_start_sector i ->
  (forall a, PERSIST_DATA_START <= a -> ~ (lo <= a < lo + 128) -> (dk_data (n_disk fs')).[a] = (dk_data (n_disk fs)).[a]) ->
  i_start_sector i + PERSIST_DATA_SECTORS <= lo \/ lo + PERSIST_DATA_SECTORS <= i_start_sector i ->
  file_data fs' i = file_data fs i.
Proof. intros H1 H2 H3. apply sectors_at_ext. intros a Ha. unfold PERSIST_DATA_SECTORS in H3. apply H2; lia. Qed.

Lemma valid_start i sectors : persistent_inode_valid i sectors = true -> PERSIST_DATA_START <= i_start_sector i.
Proof. unfold persistent_inode_valid. cif E; [done|]. intros _. lia. Qed.

Lemma npk_wf_disk fs d : npk_wf fs -> same_device (n_disk fs) d -> npk_wf (with_disk fs d).
Proof.
  intros [H1 H2] Hs. split; [by eapply disk_ok_same|]. destruct Hs as (_ & _ & E & _). cbn [n_disk with_disk]. rewrite E. exact H2.
Qed.

Lemma inode_at_some fs k i : persistent_inodes fs !! k = Some i -> inode_at fs k = i.
Proof. intros H. unfold inode_at. by rewrite H. Qed.


(** ** Creating a file *)

Definition new_inode (fs : npkfs) (name : cstr) : persistent_inode_disk :=
  Inode 1 (replicate 3 0) 0 (s_next_sector (persistent_super fs)) 33206 (name_field name).

Lemma slot_wf_new sectors s l idx new count :
  slot_wf sectors (s, l) -> inode_wf new -> i_start_sector new = s_next_sector s ->
  persistent_inode_valid new sectors = true -> s_next_sector s + PERSIST_DATA_SECTORS <= Z.min sectors 0xffffffff -> is_u32 count ->
  slot_wf sectors (with_next_sector s (s_next_sector s + PERSIST_DATA_SECTORS) count, <[idx := new]> l).
Proof.
  intros [H1 H2 H3 H4 H5 H6 H7 H8 H9] Hw Hst Hv Hle Hc. unfold PERSIST_DATA_SECTORS in *.
  constructor; cbn [fst snd] in *; try (cbn; done || lia).
  - destruct H1. constructor; cbn; try done. unfold is_u32 in *. lia.
  - by apply table_wf_insert.
  - intros k' i' Hu. apply used_insert in Hu as [(-> & -> & _)|[_ Hu]]; [done|by apply (H7 k')].
  - intros k' i' Hu. cbn [with_next_sector s_next_sector]. apply used_insert in Hu as [(-> & -> & _)|[_ Hu]]; [unfold PERSIST_DATA_SECTORS; lia|].
    pose proof (H8 k' i' Hu). unfold PERSIST_DATA_SECTORS in *. lia.
  - intros k1 i1 k2 i2 Hu1 Hu2 Hne. apply used_insert in Hu1 as [(-> & -> & _)|[_ Hu1]], Hu2 as [(-> & -> & _)|[_ Hu2]]; try done.
    + right. rewrite Hst. by apply (H8 k2).
    + left. rewrite Hst. by apply (H8 k1).
    + by apply (H9 k1 i1 k2 i2).
Qed.

Lemma name_field_wf name : strlen name < PERSIST_NAME_CAPACITY -> length (name_field name) = 48%nat /\ byte_at 47 (name_field name) = 0.
Proof.
  rewrite strlen_text. unfold PERSIST_NAME_CAPACITY. intros H. unfold name_field. split; [rewrite length_app, length_replicate; lia|].
  unfold byte_at. rewrite lookup_app_r by lia. rewrite lookup_replicate_2 by lia. done.
Qed.

Lemma new_inode_ok fs name sectors :
  super_wf (persistent_super fs) -> strlen name < PERSIST_NAME_CAPACITY -> text name <> [] ->
  PERSIST_DATA_START <= s_next_sector (persistent_super fs) -> s_next_sector (persistent_super fs) + PERSIST_DATA_SECTORS <= sectors ->
  inode_wf (new_inode fs name) /\ persistent_inode_valid (new_inode fs name) sectors = true.
Proof.
  intros Hs Hn Ht H1 H2. destruct (name_field_wf name Hn) as [Hl H47]. split.
  - destruct Hs. constructor; try (cbn; unfold is_byte, is_u32; done || lia).
  - unfold persistent_inode_valid. cbn [new_inode i_used i_name i_size i_start_sector]. rewrite H47.
    assert (H0 : byte_at 0 (name_field name) <> 0).
    { unfold byte_at, name_field. pose proof (text_no_nul name) as Hf. destruct (text name); [done|]. by inversion Hf. }
    unfold PERSIST_FILE_BYTES, PERSIST_DATA_SECTORS, NPK_SECTOR_SIZE in *. cif E; [exfalso; lia|done].
Qed.

Lemma create_undo s count next :
  super_wf s -> 
  let s1 := with_next_sector s (u32 (s_next_sector s + next)) (u32 (s_inode_count s + count)) in
  with_next_sector s1 (u32 (s_next_sector s1 - next)) (u32 (s_inode_count s1 - count)) = s.
Proof.
  intros [_ _ Hc _ Hn _ _ _ _]. destruct s as [a b c d e f g h r]. unfold is_u32 in *. unfold with_next_sector, u32. cbn in *. f_equal.
  - rewrite Zminus_mod_idemp_l. rewrite Z.mod_small; lia.
  - rewrite Zminus_mod_idemp_l. rewrite Z.mod_small; lia.
Qed.

Lemma write_zero_bound d lba secs :
  (ata_write_sectors d lba BUFFER secs).1 = 0 -> lba + Z.of_nat (length secs) <= ATA_LBA28_MAX.
Proof.
  intros H0. destruct (ata_write_cases d lba BUFFER secs) as [[Hrc _]|(_ & Hck & _)]; [lia|].
  revert Hck. unfold check_request. cif E; [done|]. intros _. unfold ATA_LBA28_MAX in *. lia.
Qed.

(** What a failed creation leaves: the slot cleared, the superblock as before. *)
Lemma create_failed fs fs2 idx new :
  npk_wf fs -> persistent_inodes fs2 = <[idx := new]> (persistent_inodes fs) ->
  persistent_super fs2 = with_next_sector (persistent_super fs) (u32 (s_next_sector (persistent_super fs) + PERSIST_DATA_SECTORS)) (u32 (s_inode_count (persistent_super fs) + 1)) ->
  same_device (n_disk fs) (n_disk fs2) ->
  let fs3 := set_inode fs2 idx zero_inode in
  let s := persistent_super fs3 in
  let fs4 := with_super fs3 (with_next_sector s (u32 (s_next_sector s - PERSIST_DATA_SECTORS)) (u32 (s_inode_count s - 1))) in
  npk_wf fs4 /\ persistent_inodes fs4 = <[idx := zero_inode]> (persistent_inodes fs).
Proof.
  intros [Hd Hw] Hin Hsup Hsame fs3 s fs4. assert (E : persistent_inodes fs4 = <[idx := zero_inode]> (persistent_inodes fs)).
  { cbn. rewrite Hin. by rewrite list_insert_insert_eq. }
  split; [|done]. split; [by eapply disk_ok_same|]. unfold metadata. rewrite E. replace (persistent_super fs4) with (persistent_super fs).
  - destruct Hsame as (_ & _ & Es & _). change (n_disk fs4) with (n_disk fs2). rewrite Es. by apply slot_wf_clear.
  - symmetry. unfold fs4, s, fs3. cbn [with_super persistent_super set_inode with_inodes]. rewrite Hsup. apply create_undo, Hw.
Qed.

Lemma same_device_trans d1 d2 d3 : same_device d1 d2 -> same_device d2 d3 -> same_device d1 d3.
Proof. unfold same_device. naive_solver congruence. Qed.

Lemma used_fresh l idx old new k i :
  l !! idx = Some old -> i_used old = 0 -> k <> idx \/ i_used new = 0 -> used l k i <-> used (<[idx := new]> l) k i.
Proof.
  intros Ho Hu Hk. unfold used. destruct (decide (k = idx)) as [->|Hne]; [|by rewrite list_lookup_insert_ne by done].
  rewrite list_lookup_insert_eq by (by eapply lookup_lt_Some). rewrite Ho. destruct Hk as [?|Hn]; [done|]. naive_solver.
Qed.

Lemma create_fail_final fs fs2 idx new old :
  npk_wf fs -> persistent_inodes fs !! idx = Some old -> i_used old = 0 ->
  persistent_inodes fs2 = <[idx := new]> (persistent_inodes fs) ->
  persistent_super fs2 = with_next_sector (persistent_super fs) (u32 (s_next_sector (persistent_super fs) + PERSIST_DATA_SECTORS)) (u32 (s_inode_count (persistent_super fs) + 1)) ->
  same_device (n_disk fs) (n_disk fs2) ->
  (forall a, PERSIST_DATA_START <= a -> ~ (s_next_sector (persistent_super fs) <= a < s_next_sector (persistent_super fs) + 128) ->
    (dk_data (n_disk fs2)).[a] = (dk_data (n_disk fs)).[a]) ->
  let fs3 := set_inode fs2 idx zero_inode in
  let s := persistent_super fs3 in
  let fs' := (persistent_write_metadata (with_super fs3 (with_next_sector s (u32 (s_next_sector s - PERSIST_DATA_SECTORS)) (u32 (s_inode_count s - 1))))).2 in
  npk_wf fs' /\ forall k i, (used (persistent_inodes fs) k i <-> used (persistent_inodes fs') k i) /\
    (used (persistent_inodes fs) k i -> file_data fs' i = file_data fs i).
Proof.
  intros Hw Ho Hu Hin Hsup Hsame Hout fs3 s. destruct (create_failed fs fs2 idx new Hw Hin Hsup Hsame) as [Hw4 E4].
  fold fs3 in Hw4, E4. fold s in Hw4, E4. set (fs4 := with_super fs3 _) in *.
  pose proof (write_metadata_mem fs4 Hw4) as Hm. destruct (persistent_write_metadata fs4) as [rc fs']. cbn [snd].
  destruct Hm as (Hw' & _ & Hk & _ & Hi' & _). split; [done|]. intros k i. split.
  - rewrite Hi', E4. apply (used_fresh _ _ old); [done..|by right].
  - intros Hui. destruct Hw as [_ Hw]. apply (file_data_kept _ _ _ (s_next_sector (persistent_super fs))).
    + by eapply valid_start, (sl_valid _ _ Hw k i).
    + intros a Ha Hna. rewrite Hk by done. by apply Hout.
    + left. by apply (sl_below _ _ Hw k i).
Qed.

(** Creating a file takes an unused inode and an extent beyond every other
    file, fills the extent with zeros on the disk and commits the table; it
    moves or changes no other file.  When the disk fails or nothing is free,
    the files are the same as before.  The file system stays in order in every
    case. *)
Theorem persistent_create_spec fs name :
  npk_wf fs -> text name <> [] ->
  let '(r, fs') := persistent_create fs name in
  npk_wf fs' /\
  match r with
  | Some idx =>
      ~ (exists i, used (persistent_inodes fs) idx i) /\ used (persistent_inodes fs') idx (new_inode fs name) /\
      file_data fs' (new_inode fs name) = replicate 128 (replicate 512 0) /\
      others_kept fs fs' idx /\ others_data_kept fs fs' idx
  | None =>
      forall k i, (used (persistent_inodes fs) k i <-> used (persistent_inodes fs') k i) /\
        (used (persistent_inodes fs) k i -> file_data fs' i = file_data fs i)
  end.
Proof.
  intros Hw Ht. unfold persistent_create. pose proof Hw as [Hd Hs]. cif E1; [by split|]. cif E2; [by split|].
  destruct (find_inode _ _ 0) as [idx|] eqn:Ef; [|by split].
  apply find_inode_some in Ef as (_ & old & Ho & Hu & _). rewrite Nat.sub_0_r in Ho. apply Z.eqb_eq in Hu. fold (new_inode fs name).
  change (i_start_sector (new_inode fs name)) with (s_next_sector (persistent_super fs)).
  set (fs1 := with_super _ _). change (n_disk fs1) with (n_disk fs).
  pose proof (ata_write_extent (n_disk fs) (s_next_sector (persistent_super fs)) (replicate 128 (replicate 512 0))) as (Hsame & Hout & Hin).
  pose proof (write_zero_bound (n_disk fs) (s_next_sector (persistent_super fs)) (replicate 128 (replicate 512 0))) as Hb.
  destruct (ata_write_sectors _ _ _ _) as [rc d]. rewrite length_replicate in *. cbn [fst snd] in *. unfold ATA_LBA28_MAX in Hb.
  destruct (rc =? 0) eqn:Erc; cbn [negb].
  2: { rewrite Erc. cbn [negb]. apply (create_fail_final fs (with_disk fs1 d) idx (new_inode fs name) old); try done. intros a Ha Hna. by apply Hout. }
  assert (Hw2 : npk_wf (with_disk fs1 d)).
  { destruct (new_inode_ok fs name (dk_sectors (n_disk fs))) as [Hn1 Hn2]; [apply Hs|lia|done|apply Hs|lia|].
    split; [by eapply disk_ok_same|]. cbn [n_disk with_disk]. pose proof Hsame as (_ & _ & -> & _). unfold metadata. cbn [persistent_super persistent_inodes with_disk fs1 with_super set_inode with_inodes].
    replace (u32 (s_next_sector (persistent_super fs) + PERSIST_DATA_SECTORS)) with (s_next_sector (persistent_super fs) + PERSIST_DATA_SECTORS).
    - apply slot_wf_new; try done; [unfold PERSIST_DATA_SECTORS in *; lia|]. unfold is_u32, u32. apply Z.mod_pos_bound. done.
    - pose proof (sl_next _ _ Hs). unfold PERSIST_DATA_START, PERSIST_DATA_SECTORS, metadata in *. cbn [fst] in *. unfold u32. rewrite Z.mod_small; lia. }
  pose proof (write_metadata_mem _ Hw2) as Hm. destruct (persistent_write_metadata (with_disk fs1 d)) as [rc' fs3].
  destruct Hm as (Hw3 & Hsame3 & Hk3 & _ & Hi3 & Hsup). destruct (rc' =? 0) eqn:Erc'; cbn [negb].
  - split; [done|]. rewrite Hi3. cbn [persistent_inodes with_disk fs1 with_super set_inode with_inodes]. split; [intros [i [Hi Hui]]; congruence|].
    split; [split; [apply list_lookup_insert_eq; by eapply lookup_lt_Some|done]|]. split.
    { unfold file_data. rewrite <-Hin by lia. apply sectors_at_ext. intros a Ha. apply Hk3. pose proof (sl_next _ _ Hs) as Hnx. cbn in Ha, Hnx. lia. }
    split; [intros k i Hne; rewrite Hi3; apply (used_fresh _ _ old); [done..|by left]|].
    intros k i Hne Hui. apply (file_data_kept _ _ _ (s_next_sector (persistent_super fs))).
    + by eapply valid_start, (sl_valid _ _ Hs k i).
    + intros a Ha Hna. rewrite Hk3 by done. by apply Hout.
    + left. by apply (sl_below _ _ Hs k i).
  - apply (create_fail_final fs fs3 idx (new_inode fs name) old); try done.
    + by destruct Hsup as [[? _]|[_ ?]]; [lia|].
    + by eapply same_device_trans.
    + intros a Ha Hna. rewrite Hk3 by done. by apply Hout.
Qed.

(** ** Looking files up *)

Definition names_bytes (fs : npkfs) : Prop := Forall (fun i => Forall is_byte (i_name i)) (persistent_inodes fs).

Lemma text_app_nul s n : Forall (fun c => c <> 0) s -> text (s ++ replicate (S n) 0) = s.
Proof. induction 1 as [|c s Hc Hs IH]; [done|]. cbn [app text]. replace (c =? 0) with false by lia. by rewrite IH. Qed.

Lemma text_name_field name : strlen name < PERSIST_NAME_CAPACITY -> text (name_field name) = text name.
Proof.
  rewrite strlen_text. unfold PERSIST_NAME_CAPACITY, name_field. intros H. replace (48 - length (text name))%nat with (S (47 - length (text name))) by lia.
  apply text_app_nul, text_no_nul.
Qed.

Lemma text_bytes s : Forall is_byte s -> Forall is_byte (text s).
Proof. induction 1 as [|c s Hc Hs IH]; cbn; [done|]. destruct (c =? 0); [done|by constructor]. Qed.

Lemma name_field_bytes name : Forall is_byte name -> Forall is_byte (name_field name).
Proof. intros H. apply Forall_app. split; [by apply text_bytes|]. apply Forall_replicate. unfold is_byte. lia. Qed.

(** The files that match a name. *)
Definition named (name : cstr) (i : persistent_inode_disk) : Prop := i_used i <> 0 /\ text (i_name i) = text name.

Lemma find_matches name i :
  Forall is_byte name -> Forall is_byte (i_name i) -> negb (i_used i =? 0) && (strcmp (i_name i) name =? 0) = true <-> named name i.
Proof. intros H1 H2. unfold named. rewrite <-strcmp_eq by done. lia. Qed.

(** Lookup by name: a file is found exactly when the table has one in use
    under that name, and the one found is the first such entry. *)
Theorem persistent_find_spec fs name :
  Forall is_byte name -> names_bytes fs ->
  match persistent_find fs name with
  | Some idx => (exists i, persistent_inodes fs !! idx = Some i /\ named name i) /\
      forall k i, (k < idx)%nat -> persistent_inodes fs !! k = Some i -> ~ named name i
  | None => forall k i, persistent_inodes fs !! k = Some i -> ~ named name i
  end.
Proof.
  intros Hb Hn. assert (Hm : forall k i, persistent_inodes fs !! k = Some i ->
    negb (i_used i =? 0) && (strcmp (i_name i) name =? 0) = true <-> named name i).
  { intros k i Hk. apply find_matches; [done|]. by apply (proj1 (Forall_lookup _ _) Hn k). }
  unfold persistent_find. destruct (find_inode _ _ 0) as [idx|] eqn:E.
  - apply find_inode_some in E as (_ & i & Hi & Hp & Hmin). rewrite Nat.sub_0_r in Hi, Hmin. split; [exists i; split; [done|by apply (Hm idx)]|].
    intros k j Hk Hj Hnm. apply (Hm k j Hj) in Hnm. by rewrite (Hmin k j) in Hnm.
  - intros k i Hk Hnm. apply (Hm k i Hk) in Hnm. apply find_inode_none in E. by rewrite (proj1 (Forall_lookup _ _) E k i Hk) in Hnm.
Qed.

Lemma find_inode_insert p l k idx new :
  (idx < length l)%nat -> p new = true -> Forall (fun x => p x = false) l -> find_inode p (<[idx := new]> l) k = Some (k + idx)%nat.
Proof.
  revert k idx; induction l as [|x l IH]; intros k idx Hl Hp Hf; [simpl in Hl; lia|]. inversion Hf; subst.
  destruct idx as [|idx]; cbn [insert list_insert find_inode]; [rewrite Hp; f_equal; lia|].
  destruct (p x); [done|]. simpl in Hl. rewrite IH by (done || lia). f_equal. lia.
Qed.

Lemma find_inode_insert_other p l k idx old new :
  l !! idx = Some old -> p old = false -> p new = false -> find_inode p (<[idx := new]> l) k = find_inode p l k.
Proof.
  revert k idx; induction l as [|x l IH]; intros k idx Hl Ho Hn; [done|].
  destruct idx as [|idx]; cbn [insert list_insert find_inode]; [simpl in Hl; simplify_eq; by rewrite Ho, Hn|].
  destruct (p x); [done|]. by apply IH.
Qed.

Lemma write_or_fail_inodes l fs lba secs k :
  persistent_inodes fs = l -> (forall d, persistent_inodes (k (with_disk fs d)).2 = l) -> persistent_inodes (write_or_fail fs lba secs k).2 = l.
Proof. intros H0 H. unfold write_or_fail. destruct (ata_write_sectors _ _ _ _) as [rc d]. destruct (negb (rc =? 0)); [done|apply H]. Qed.

Lemma write_metadata_inodes fs : persistent_inodes (persistent_write_metadata fs).2 = persistent_inodes fs.
Proof.
  unfold persistent_write_metadata. split_ifs; try done.
  repeat (apply write_or_fail_inodes; [done|intros ?]). done.
Qed.

Lemma persistent_create_inodes fs name idx fs' :
  persistent_create fs name = (Some idx, fs') ->
  persistent_inodes fs' = <[idx := new_inode fs name]> (persistent_inodes fs) /\
  (exists old, persistent_inodes fs !! idx = Some old /\ i_used old = 0) /\ strlen name < PERSIST_NAME_CAPACITY.
Proof.
  unfold persistent_create. cif E1; [done|]. cif E2; [done|]. destruct (find_inode _ _ 0) as [k|] eqn:Ef; [|done].
  apply find_inode_some in Ef as (_ & old & Ho & Hu & _). rewrite Nat.sub_0_r in Ho. fold (new_inode fs name).
  set (fs1 := with_super _ _). destruct (ata_write_sectors _ _ _ _) as [rc d].
  destruct (rc =? 0) eqn:Erc; cbn [negb]; [|by rewrite Erc].
  pose proof (write_metadata_inodes (with_disk fs1 d)) as Hm.
  destruct (persistent_write_metadata (with_disk fs1 d)) as [rc' fs3]. destruct (rc' =? 0); cbn [negb]; [|done].
  intros [= -> ->]. cbn [snd] in Hm. split; [by rewrite Hm|]. split; [exists old; split; [done|lia]|lia].
Qed.

(** A file that was created is found under its name, at the inode the
    creation returned, and no lookup of another name changes. *)
Theorem persistent_create_find fs name idx fs' other :
  Forall is_byte name -> Forall is_byte other -> names_bytes fs -> persistent_find fs name = None ->
  persistent_create fs name = (Some idx, fs') ->
  persistent_find fs' name = Some idx /\ (text other <> text name -> persistent_find fs' other = persistent_find fs other).
Proof.
  intros Hb Hb' Hn Hf Hc. apply persistent_create_inodes in Hc as (Hi & (old & Ho & Hu) & Hl). unfold persistent_find in *. rewrite Hi.
  assert (Hnew : forall o, Forall is_byte o -> negb (i_used (new_inode fs name) =? 0) && (strcmp (i_name (new_inode fs name)) o =? 0) = true <-> text name = text o).
  { intros o Hbo. rewrite find_matches; [|done|by apply name_field_bytes]. unfold named. cbn [new_inode i_used i_name].
    rewrite text_name_field by done. naive_solver lia. }
  split.
  - apply find_inode_none in Hf. rewrite find_inode_insert; [done|by eapply lookup_lt_Some|by apply Hnew|done].
  - intros Hne. apply (find_inode_insert_other _ _ _ _ old); [done|by rewrite Hu|].
    apply not_true_is_false. rewrite Hnew by done. congruence.
Qed.

(** ** Formatting *)

Lemma npk_wf_format fs : disk_ok (n_disk fs) -> npk_wf (persistent_format fs).
Proof.
  intros Hd. unfold persistent_format. set (fs1 := Npkfs _ _ _ _ _ _).
  assert (Hu : forall k i, ~ used (replicate 64 zero_inode) k i) by (intros k i [[-> _]%lookup_replicate_1 Hu]; done).
  assert (Hw : npk_wf fs1).
  { split; [done|]. constructor; cbn [metadata fst snd fs1 persistent_super persistent_inodes]; try done.
    - destruct Hd as (_ & _ & Hd). change (n_disk fs1) with (n_disk fs). cbn [format_super s_next_sector]. unfold PERSIST_DATA_START, PERSIST_DATA_SECTORS in *. lia.
    - split; [by rewrite length_replicate|]. apply Forall_replicate, zero_inode_wf.
    - intros k i H. by destruct (Hu k i).
    - intros k i H. by destruct (Hu k i).
    - intros k i k' i' H. by destruct (Hu k i). }
  pose proof (write_metadata_mem fs1 Hw) as Hm. destruct (persistent_write_metadata fs1). apply Hm.
Qed.

(** ** Examples *)

Definition disk_example : disk := Disk true true 1000 (afill (replicate 512 0)) [] [].
Definition boot (d : disk) : npkfs := persistent_init (Npkfs zero_super (replicate 64 zero_inode) (replicate 64 zero_inode) false false d).
Definition fs_example : npkfs := persistent_format (Npkfs zero_super (replicate 64 zero_inode) (replicate 64 zero_inode) false false disk_example).
Definition reschedule (d : disk) (w : list outcome) : disk := Disk (dk_present d) (dk_writable d) (dk_sectors d) (dk_data d) w (dk_reads d).

Lemma reschedule_same d w : same_device d (reschedule d w).
Proof. done. Qed.

Definition name_example : cstr := [110; 111; 116; 101].

Lemma fs_example_wf : npk_wf fs_example.
Proof. apply npk_wf_format. by vm_compute. Qed.

Definition fs_torn : npkfs := with_disk fs_example (reschedule (n_disk fs_example) (crash_after 12)).

Lemma fs_torn_wf : npk_wf fs_torn.
Proof. exact (npk_wf_disk fs_example _ fs_example_wf (reschedule_same _ _)). Qed.

Lemma fs_torn_committable : committable fs_torn.
Proof.
  apply slot_wf_committable; [apply fs_torn_wf|vm_compute; reflexivity|].
  replace (s_generation (persistent_super fs_torn)) with 1 by (vm_compute; reflexivity). lia.
Qed.

Lemma fs_torn_stored : stored (dk_data (n_disk fs_torn)) (metadata fs_torn).
Proof. split; vm_compute; reflexivity. Qed.

Lemma fs_torn_valid : slot_valid (metadata fs_torn) (dk_sectors (n_disk fs_torn)) = true.
Proof. vm_compute. reflexivity. Qed.


(** A file system with one file, not yet committed. *)
Definition add_file (fs : npkfs) (name : cstr) (count : Z) : npkfs :=
  with_super (set_inode fs 0 (new_inode fs name))
    (with_next_sector (persistent_super fs) (s_next_sector (persistent_super fs) + PERSIST_DATA_SECTORS) count).

Lemma add_file_wf fs name count :
  npk_wf fs -> s_next_sector (persistent_super fs) = 32 -> 160 <= dk_sectors (n_disk fs) -> strlen name < PERSIST_NAME_CAPACITY ->
  text name <> [] -> is_u32 count -> npk_wf (add_file fs name count) /\ used (persistent_inodes (add_file fs name count)) 0 (new_inode fs name).
Proof.
  intros [Hd Hs] Hn Hx Hl Ht Hc. destruct (new_inode_ok fs name (dk_sectors (n_disk fs))) as [H1 H2];
    [apply Hs|done|done|rewrite Hn; done|rewrite Hn; unfold PERSIST_DATA_SECTORS; lia|]. split.
  - split; [exact Hd|]. change (n_disk (add_file fs name count)) with (n_disk fs). apply slot_wf_new; try done. unfold PERSIST_DATA_SECTORS. lia.
  - split; [|done]. apply list_lookup_insert_eq. destruct (sl_table _ _ Hs) as [Hlen _]. cbn in Hlen. lia.
Qed.

Definition fs_file : npkfs := add_file fs_example name_example 1.

Lemma fs_file_ok : npk_wf fs_file /\ used (persistent_inodes fs_file) 0 (new_inode fs_example name_example).
Proof.
  apply add_file_wf; [apply fs_example_wf|vm_compute; reflexivity| |done|done|done].
  replace (dk_sectors (n_disk fs_example)) with 1000 by (vm_compute; reflexivity). lia.
Qed.

Definition data_example : list sector := replicate 128 (replicate 512 7).


Lemma persistent_create_spec_witness : npk_wf (persistent_create fs_file [97; 98]).2.
Proof.
  assert (Ht : text [97; 98] <> []) by done. pose proof (persistent_create_spec fs_file [97; 98] (proj1 fs_file_ok) Ht) as H.
  destruct (persistent_create fs_file [97; 98]) as [r fs']. exact (proj1 H).
Defined.

Lemma add_file_bytes fs name count : names_bytes fs -> Forall is_byte name -> names_bytes (add_file fs name count).
Proof. intros Hf Hn. apply Forall_insert; [exact Hf|by apply name_field_bytes]. Qed.

Lemma fs_file_bytes : names_bytes fs_file.
Proof.
  apply add_file_bytes; [|repeat constructor; done].
  unfold names_bytes. replace (persistent_inodes fs_example) with (replicate 64 zero_inode) by (vm_compute; reflexivity).
  apply Forall_replicate. cbn [zero_inode i_name]. apply Forall_replicate. done.
Qed.

Lemma persistent_find_spec_witness : exists i, persistent_inodes fs_file !! 0%nat = Some i /\ named name_example i.
Proof.
  assert (Hb : Forall is_byte name_example) by (repeat constructor; done).
  pose proof (persistent_find_spec fs_file name_example Hb fs_file_bytes) as H.
  assert (E : persistent_find fs_file name_example = Some 0%nat) by (vm_compute; reflexivity). rewrite E in H. exact (proj1 H).
Defined.

Lemma persistent_create_find_witness :
  let fs' := (persistent_create fs_file [97; 98]).2 in
  persistent_find fs' [97; 98] = Some 1%nat /\ persistent_find fs' name_example = persistent_find fs_file name_example.
Proof.
  assert (Hb : Forall is_byte [97; 98]) by (repeat constructor; done).
  assert (Hb' : Forall is_byte name_example) by (repeat constructor; done).
  assert (E : (persistent_create fs_file [97; 98]).1 = Some 1%nat) by (vm_compute; reflexivity).
  assert (E0 : persistent_find fs_file [97; 98] = None) by (vm_compute; reflexivity).
  intros fs'. pose proof (persistent_create_find fs_file [97; 98] 1 fs' name_example Hb Hb' fs_file_bytes E0) as H.
  destruct H as [H1 H2]; [by rewrite (surjective_pairing (persistent_create fs_file [97; 98])), E|]. split; [exact H1|]. by apply H2.
Defined.

(** Recovery from the backup copy does not protect it: the next commit starts
    by overwriting the backup inodes while the primary copy is still torn, so a
    second interruption leaves no valid copy and the next boot formats.  Here
    both syncs write 128 data sectors and are cut short in the metadata. *)
Lemma second_crash_formats :
  let crash n size fs :=
    boot (reschedule (n_disk (persistent_sync_descriptor (with_disk fs (reschedule (n_disk fs) (crash_after (128 + n)))) 0 size data_example).2) []) in
  let fs1 := (persistent_write_metadata fs_file).2 in
  let fs2 := crash 12%nat 10 fs1 in
  persistent_find fs2 name_example = Some 0%nat /\ i_size (inode_at fs2 0) = 10 /\
  persistent_find (crash 5%nat 20 fs2) name_example = None /\ s_generation (persistent_super (crash 5%nat 20 fs2)) = 1.
Proof. vm_compute. repeat split. Qed.
