(* ===== verification/Procfs.v ===== *)
(** * Process file system (src/src/fs/procfs.c)

    Text snapshots of kernel counters.  The counters (ticks, frequency, pages,
    the current process) are the argument [procinfo]; buffers are the bytes
    written so far. *)

From Stdlib Require Import ZArith Lia Bool ZifyBool Ascii String.
From stdpp Require Import base numbers list.
From S2P Require Import Prelude Kstring Path.

Open Scope Z_scope.
Open Scope npk_scope.

Definition NEWLINE : Z := 10.
Definition TAB : Z := 9.

Fixpoint str (s : string) : list Z :=
  match s with EmptyString => [] | String c s' => Z.of_nat (nat_of_ascii c) :: str s' end.

Record procinfo := ProcInfo {
  pi_ticks : Z; pi_frequency : Z; pi_total_pages : Z; pi_free_pages : Z;
  pi_process : option (Z * bool) (* pid, alive *) }.

Definition path_eq (a b : cstr) : bool := strcmp a b =? 0.

Definition procfs_is_path (path : cstr) : bool := (strncmp path (str "/proc/") 6 =? 0) || (strcmp path (str "/proc") =? 0).

(** The bytes of the buffer, or none when the text does not fit. *)
Definition append_text (capacity : Z) (buffer : list Z) (t : list Z) : option (list Z) :=
  if (len buffer >? capacity) || (len t >? capacity - len buffer) then None else Some (buffer ++ t).

(** The digits of the loop, least significant first. *)
Fixpoint digit_loop (room : nat) (value : Z) : list Z :=
  match room with
  | O => []
  | S room' => if value =? 0 then [] else (48 + value mod 10) :: digit_loop room' (value / 10)
  end.

Definition append_u64 (capacity : Z) (buffer : list Z) (value : Z) : option (list Z) :=
  let digits := if value =? 0 then [48] else digit_loop 21 value in
  if (len buffer >? capacity) || (len digits >? capacity - len buffer) then None else Some (buffer ++ reverse digits).

Definition finish (b : option (list Z)) : Z + list Z := match b with Some b => inr b | None => inl (-28) end.

(** The bytes of the snapshot, or an error code. *)
Definition procfs_snapshot (info : procinfo) (path : cstr) (capacity : Z) : Z + list Z :=
  if negb (procfs_is_path path) || (capacity =? 0) then inl (-14)
  else if path_eq path (str "/proc/uptime") then
    finish (b ← append_u64 capacity [] (pi_ticks info / pi_frequency info); append_text capacity b [NEWLINE])
  else if path_eq path (str "/proc/meminfo") then
    finish (b ← append_text capacity [] (str "MemTotal: ");
            b ← append_u64 capacity b (u64 (pi_total_pages info * 4));
            b ← append_text capacity b (str " kB" ++ [NEWLINE] ++ str "MemFree: ");
            b ← append_u64 capacity b (u64 (pi_free_pages info * 4));
            append_text capacity b (str " kB" ++ [NEWLINE]))
  else if path_eq path (str "/proc/mounts") then
    finish (append_text capacity [] (str "proc /proc proc ro 0 0" ++ [NEWLINE] ++ str "initramfs / cpio ro 0 0" ++ [NEWLINE]))
  else if path_eq path (str "/proc/self/status") then
    finish (b ← append_text capacity [] (str "Name:" ++ [TAB] ++ str "NPKernel" ++ [NEWLINE] ++ str "State:" ++ [TAB]);
            b ← append_text capacity b (match pi_process info with
                                        | Some (_, true) => str "R" ++ [NEWLINE] ++ str "Pid:" ++ [TAB]
                                        | _ => str "Z" ++ [NEWLINE] ++ str "Pid:" ++ [TAB] end);
            b ← append_u64 capacity b (match pi_process info with Some (pid, _) => pid | None => 1 end);
            append_text capacity b ([NEWLINE] ++ str "Threads:" ++ [TAB] ++ str "1" ++ [NEWLINE]))
  else if path_eq path (str "/proc") || path_eq path (str "/proc/") then
    finish (append_text capacity [] (str "self" ++ [NEWLINE] ++ str "meminfo" ++ [NEWLINE] ++ str "uptime" ++ [NEWLINE] ++ str "mounts" ++ [NEWLINE]))
  else inl (-2).

(** ** Decimal numbers *)

(** The number a string of digits denotes. *)
Definition decimal (ds : list Z) : Z := fold_left (fun v d => 10 * v + (d - 48)) ds 0.
Definition is_digit (d : Z) : Prop := 48 <= d <= 57.

Lemma decimal_app ds v : fold_left (fun v d => 10 * v + (d - 48)) ds v = v * 10 ^ Z.of_nat (length ds) + decimal ds.
Proof.
  unfold decimal. revert v; induction ds as [|d ds IH]; intros v; [simpl; lia|].
  cbn [fold_left length]. rewrite (IH (10 * v + (d - 48))), (IH (10 * 0 + (d - 48))), Nat2Z.inj_succ, Z.pow_succ_r by lia. lia.
Qed.

Lemma digit_loop_decimal room value :
  0 <= value < 10 ^ Z.of_nat room ->
  decimal (reverse (digit_loop room value)) = value /\ Forall is_digit (digit_loop room value).
Proof.
  revert value; induction room as [|room IH]; intros value Hv.
  { cbn in Hv. replace value with 0 by lia. split; [done|constructor]. }
  cbn [digit_loop]. destruct (value =? 0) eqn:E; [split; [cbn; lia|constructor]|].
  rewrite Nat2Z.inj_succ, Z.pow_succ_r in Hv by lia. destruct (IH (value / 10)) as [H1 H2].
  { split; [apply Z.div_pos; lia|apply Z.div_lt_upper_bound; lia]. }
  split; [|constructor; [unfold is_digit; pose proof (Z.mod_pos_bound value 10); lia|done]].
  rewrite reverse_cons. unfold decimal. rewrite fold_left_app. fold (decimal (reverse (digit_loop room (value / 10)))). rewrite H1.
  cbn [fold_left]. pose proof (Z.div_mod value 10). lia.
Qed.

Lemma digit_loop_head room value : 0 < value < 10 ^ Z.of_nat room -> exists d ds, reverse (digit_loop room value) = d :: ds /\ d <> 48.
Proof.
  revert value; induction room as [|room IH]; intros value Hv; [cbn in Hv; lia|].
  cbn [digit_loop]. replace (value =? 0) with false by lia. rewrite reverse_cons.
  rewrite Nat2Z.inj_succ, Z.pow_succ_r in Hv by lia. destruct (decide (value < 10)) as [Hs|Hs].
  - replace (value / 10) with 0 by (symmetry; apply Z.div_small; lia).
    exists (48 + value mod 10), []. rewrite Z.mod_small by lia. split; [by destruct room|lia].
  - destruct (IH (value / 10)) as (d & ds & -> & Hd).
    { split; [apply Z.div_str_pos; lia|apply Z.div_lt_upper_bound; lia]. }
    by exists d, (ds ++ [48 + value mod 10]).
Qed.

(** A number is appended as its decimal digits: only digits, no leading
    zero, and they denote the value for every 64-bit number; it fails exactly
    when the digits do not fit in what is left of the buffer. *)
Theorem append_u64_spec capacity buffer value :
  in_u64 value -> len buffer <= capacity ->
  exists ds, ds <> [] /\ Forall is_digit ds /\ decimal ds = value /\ (value <> 0 -> hd 0 ds <> 48) /\
    append_u64 capacity buffer value = if len buffer + len ds <=? capacity then Some (buffer ++ ds) else None.
Proof.
  intros Hv Hb. unfold append_u64. destruct (value =? 0) eqn:E.
  - exists [48]. split; [done|]. split; [constructor; [unfold is_digit; lia|constructor]|]. split; [cbn; lia|]. split; [lia|].
    change (reverse [48]) with [48]. change (len [48]) with 1. destruct (len buffer + 1 <=? capacity) eqn:E2; split_ifs; done || lia.
  - assert (Hr : 0 < value < 10 ^ Z.of_nat 21) by (unfold in_u64 in Hv; cbn; lia).
    destruct (digit_loop_head 21 value Hr) as (d & ds & Hd & Hne). destruct (digit_loop_decimal 21 value) as [H1 H2]; [lia|].
    exists (reverse (digit_loop 21 value)). split; [by rewrite Hd|]. split; [by apply Forall_reverse|]. split; [done|]. split; [by rewrite Hd|].
    unfold len. rewrite length_reverse. fold (len buffer) (len (digit_loop 21 value)).
    destruct (len buffer + len (digit_loop 21 value) <=? capacity) eqn:E2; split_ifs; done || lia.
Qed.

Lemma append_u64_spec_witness :
  exists ds, decimal ds = 18446744073709551615 /\ append_u64 64 [32] 18446744073709551615 = Some ([32] ++ ds).
Proof.
  assert (H1 : in_u64 18446744073709551615) by done. assert (H2 : len [32] <= 64) by done.
  destruct (append_u64_spec 64 [32] 18446744073709551615 H1 H2) as (ds & _ & _ & Hd & _ & He).
  exists ds. split; [exact Hd|]. rewrite He. assert (Hs : append_u64 64 [32] 18446744073709551615 <> None) by (vm_compute; discriminate).
  rewrite He in Hs. destruct (_ <=? _); [reflexivity|by destruct Hs].
Defined.

Lemma procfs_error info path capacity code : procfs_snapshot info path capacity = inl code -> code < 0.
Proof.
  unfold procfs_snapshot. assert (Hf : forall b, finish b = inl code -> code < 0) by (intros [b|] Hb; [done|injection Hb as <-; lia]).
  cif E1; [by intros [= <-]|]. cif E2; [apply Hf|]. cif E3; [apply Hf|]. cif E4; [apply Hf|]. cif E5; [apply Hf|]. cif E6; [apply Hf|]. by intros [= <-].
Qed.
