(* ===== verification/Keyboard.v ===== *)
(** * Keyboard (src/src/drivers/keyboard.c)

    Scan codes and USB usages become input events and text, kept in two rings.
    [W] is the rest of the kernel: [wake] is [scheduler_wake_thread] and [now]
    is [timer_ticks].  Interrupts are off inside an operation, so saving and
    restoring the interrupt flag is left out. *)

From Stdlib Require Import ZArith Lia Bool ZifyBool.
From stdpp Require Import base numbers list gmap strings.
From S2P Require Import Prelude Kstring Procfs.

Open Scope Z_scope.
Open Scope npk_scope.

Definition QUEUE_SIZE : Z := 1024.
Definition EVENT_QUEUE_SIZE : Z := 128.
Definition NPK_INPUT_EVENT_KEY : Z := 1.
Definition NPK_INPUT_KEY_PRESS : Z := 1.
Definition NPK_INPUT_KEY_RELEASE : Z := 0.
Definition NPK_INPUT_MOD_SHIFT : Z := 1.
Definition NPK_INPUT_MOD_CAPSLOCK : Z := 2.
Definition NPK_INPUT_MOD_EXTENDED : Z := 4.
Definition NPK_INPUT_MOD_CTRL : Z := 8.
Definition NPK_INPUT_MOD_ALT : Z := 16.
Definition NPK_INPUT_MOD_GUI : Z := 32.
Definition NPK_INPUT_MOD_ALTGR : Z := 64.
Definition NPK_KEY_LEFT : Z := 105.
Definition NPK_KEY_RIGHT : Z := 106.
Definition NPK_KEY_UP : Z := 103.
Definition NPK_KEY_DOWN : Z := 108.
Definition NPK_KEY_HOME : Z := 102.
Definition NPK_KEY_PAGEUP : Z := 104.
Definition NPK_KEY_DELETE : Z := 111.
Definition NPK_KEY_END : Z := 107.
Definition NPK_KEY_PAGEDOWN : Z := 109.
Definition NPK_KEY_INSERT : Z := 110.

Record npk_input_event := InputEvent {
  ie_timestamp : Z; ie_type : Z; ie_code : Z; ie_value : Z; ie_modifiers : Z; ie_reserved : Z }.
Definition zero_event : npk_input_event := InputEvent 0 0 0 0 0 0.

(** The static variables; the waiter is a thread of the thread table. *)
Record keyboard := Keyboard {
  kb_queue : arr Z; kb_head : Z; kb_tail : Z; kb_input_waiter : option Z;
  kb_event_queue : arr npk_input_event; kb_event_head : Z; kb_event_tail : Z;
  kb_turkish : bool; kb_shift_down : bool; kb_altgr_down : bool; kb_caps_lock : bool; kb_extended : bool }.
#[export] Instance eta_keyboard : Eta keyboard := fun x =>
  Keyboard (kb_queue x) (kb_head x) (kb_tail x) (kb_input_waiter x) (kb_event_queue x) (kb_event_head x) (kb_event_tail x)
    (kb_turkish x) (kb_shift_down x) (kb_altgr_down x) (kb_caps_lock x) (kb_extended x).
Definition keyboard0 : keyboard := Keyboard (afill 0) 0 0 None (afill zero_event) 0 0 true false false false false.

(** ** Layouts

    The text of consecutive keys; a letter outside ASCII is two or three bytes. *)

Definition layout : Type := list (Z * list (list Z)).
Definition singles (s : string) : list (list Z) := map (fun c => [c]) (str s).

Definition us_lower : layout :=
  [(0x02, singles "1234567890"); (0x10, singles "qwertyuiop"); (0x1e, singles "asdfghjkl"); (0x2c, singles "zxcvbnm"); (0x39, singles " ")].
Definition us_upper : layout :=
  [(0x02, singles "!@#$%^&*()"); (0x10, singles "QWERTYUIOP"); (0x1e, singles "ASDFGHJKL"); (0x2c, singles "ZXCVBNM"); (0x39, singles " ")].
Definition tr_lower : layout :=
  [(0x02, singles "1234567890*-"); (0x2b, singles ","); (0x29, [[34]]); (0x35, singles ".");
   (0x10, singles "qwertyu" ++ [[196; 177]] ++ singles "op" ++ [[196; 159]; [195; 188]]);
   (0x1e, singles "asdfghjkl" ++ [[197; 159]] ++ singles "i"); (0x2c, singles "zxcvbnm" ++ [[195; 182]; [195; 167]]); (0x39, singles " ")].
Definition tr_upper : layout :=
  [(0x02, singles "!'^+%&/()=?_"); (0x2b, singles ";"); (0x29, [[195; 169]]); (0x35, singles ":");
   (0x10, singles "QWERTYUIOP" ++ [[196; 158]; [195; 156]]);
   (0x1e, singles "ASDFGHJKL" ++ [[197; 158]; [196; 176]]); (0x2c, singles "ZXCVBNM" ++ [[195; 150]; [195; 135]]); (0x39, singles " ")].
Definition EURO : list Z := [226; 130; 172].

(** [table[key]]; no text is NULL. *)
Fixpoint key_text (table : layout) (key : Z) : option (list Z) :=
  match table with
  | [] => None
  | (first, texts) :: rest =>
      if (first <=? key) && (key <? first + Z.of_nat (length texts)) then texts !! Z.to_nat (key - first) else key_text rest key
  end.

Definition usb_letters : list Z :=
  [0x1e; 0x30; 0x2e; 0x20; 0x12; 0x21; 0x22; 0x23; 0x17; 0x24; 0x25; 0x26; 0x32; 0x31; 0x18; 0x19; 0x10; 0x13; 0x1f; 0x14; 0x16; 0x2f; 0x11; 0x2d; 0x15; 0x2c].
Definition usb_digits : list Z := [0x02; 0x03; 0x04; 0x05; 0x06; 0x07; 0x08; 0x09; 0x0a; 0x0b].

(** The key code, 0 for none, and whether it is an extended one. *)
Definition usb_usage_to_keycode (usage : Z) : Z * bool :=
  if (usage >=? 0x04) && (usage <=? 0x1d) then (nth (Z.to_nat (usage - 0x04)) usb_letters 0, false)
  else if (usage >=? 0x1e) && (usage <=? 0x27) then (nth (Z.to_nat (usage - 0x1e)) usb_digits 0, false)
  else
    match usage with
    | 0x28 => (0x1c, false) | 0x29 => (0x01, false) | 0x2a => (0x0e, false) | 0x2b => (0x0f, false) | 0x2c => (0x39, false)
    | 0x2d => (0x0c, false) | 0x2e => (0x0d, false) | 0x2f => (0x1a, false) | 0x30 => (0x1b, false) | 0x31 => (0x2b, false)
    | 0x32 => (0x2b, false) | 0x33 => (0x27, false) | 0x34 => (0x28, false) | 0x35 => (0x29, false) | 0x36 => (0x33, false)
    | 0x37 => (0x34, false) | 0x38 => (0x35, false) | 0x39 => (0x3a, false) | 0x3a => (0x3b, false) | 0x3b => (0x3c, false)
    | 0x3c => (0x3d, false) | 0x3d => (0x3e, false) | 0x3e => (0x3f, false) | 0x3f => (0x40, false) | 0x40 => (0x41, false)
    | 0x41 => (0x42, false) | 0x42 => (0x43, false) | 0x43 => (0x44, false) | 0x44 => (0x57, false) | 0x45 => (0x58, false)
    | 0x46 => (0x37, true) | 0x47 => (0x46, false) | 0x48 => (0x45, false) | 0x58 => (0x1c, true) | 0x49 => (0x52, true)
    | 0x4a => (0x47, true) | 0x4b => (0x49, true) | 0x4c => (0x53, true) | 0x4d => (0x4f, true) | 0x4e => (0x51, true)
    | 0x4f => (0x4d, true) | 0x50 => (0x4b, true) | 0x51 => (0x50, true) | 0x52 => (0x48, true) | 0x53 => (0x45, false)
    | 0x54 => (0x35, true) | 0x55 => (0x37, false) | 0x56 => (0x4a, false) | 0x57 => (0x4e, false) | 0x59 => (0x4f, false)
    | 0x5a => (0x50, false) | 0x5b => (0x51, false) | 0x5c => (0x4b, false) | 0x5d => (0x4c, false) | 0x5e => (0x4d, false)
    | 0x5f => (0x47, false) | 0x60 => (0x48, false) | 0x61 => (0x49, false) | 0x62 => (0x52, false) | 0x63 => (0x53, false)
    | 0x64 => (0x56, false) | 0x65 => (0x5d, true) | 0x66 => (0x5e, true) | 0x67 => (0x0d, false) | 0xe0 => (0x1d, false)
    | 0xe1 => (0x2a, false) | 0xe2 => (0x38, false) | 0xe3 => (0x5b, true) | 0xe4 => (0x1d, true) | 0xe5 => (0x36, false)
    | 0xe6 => (0x38, true) | 0xe7 => (0x5c, true) | _ => (0, false)
    end.

Definition extended_key_code (key : Z) : Z :=
  match key with 0x48 => NPK_KEY_UP | 0x50 => NPK_KEY_DOWN | 0x4b => NPK_KEY_LEFT | 0x4d => NPK_KEY_RIGHT | _ => 0 end.

(** ** Operations *)

Section Model.
Context {W : Type} (wake : W -> Z -> W) (now : W -> Z).

Definition enqueue_byte (k : keyboard) (w : W) (value : Z) : keyboard * W :=
  let next := (kb_head k + 1) mod QUEUE_SIZE in
  if negb (next =? kb_tail k) then
    let k := k <| kb_queue := (kb_queue k).[kb_head k <- value] |> <| kb_head := next |> in
    match kb_input_waiter k with
    | Some waiter => (k <| kb_input_waiter := None |>, wake w waiter)
    | None => (k, w)
    end
  else (k, w).

Definition enqueue_text (k : keyboard) (w : W) (text : list Z) : keyboard * W :=
  fold_left (fun kw c => enqueue_byte kw.1 kw.2 c) text (k, w).

Definition keyboard_enqueue_input_event (k : keyboard) (w : W) (type code value modifiers : Z) : keyboard :=
  let next := (kb_event_head k + 1) mod EVENT_QUEUE_SIZE in
  if next =? kb_event_tail k then k
  else k <| kb_event_queue := (kb_event_queue k).[kb_event_head k <- InputEvent (now w) type code value modifiers 0] |> <| kb_event_head := next |>.

(** The event code of the navigation keys. *)
Definition usb_event_key (usage key : Z) : Z :=
  match usage with
  | 0x49 => NPK_KEY_INSERT | 0x4a => NPK_KEY_HOME | 0x4b => NPK_KEY_PAGEUP | 0x4c => NPK_KEY_DELETE | 0x4d => NPK_KEY_END
  | 0x4e => NPK_KEY_PAGEDOWN | 0x4f => NPK_KEY_RIGHT | 0x50 => NPK_KEY_LEFT | 0x51 => NPK_KEY_DOWN | 0x52 => NPK_KEY_UP
  | 0x53 => 0x45 | _ => key
  end.

(** The modifiers of a USB report, the Caps Lock state after the key. *)
Definition usb_modifiers (hid_modifiers : Z) (caps_lock is_extended : bool) : Z :=
  let m := 0 in
  let m := if hasb hid_modifiers (Z.lor (Z.shiftl 1 1) (Z.shiftl 1 5)) then Z.lor m NPK_INPUT_MOD_SHIFT else m in
  let m := if hasb hid_modifiers (Z.lor (Z.shiftl 1 0) (Z.shiftl 1 4)) then Z.lor m NPK_INPUT_MOD_CTRL else m in
  let m := if hasb hid_modifiers (Z.shiftl 1 2) then Z.lor m NPK_INPUT_MOD_ALT else m in
  let m := if hasb hid_modifiers (Z.shiftl 1 6) then Z.lor m (Z.lor NPK_INPUT_MOD_ALT NPK_INPUT_MOD_ALTGR) else m in
  let m := if hasb hid_modifiers (Z.lor (Z.shiftl 1 3) (Z.shiftl 1 7)) then Z.lor m NPK_INPUT_MOD_GUI else m in
  let m := if caps_lock then Z.lor m NPK_INPUT_MOD_CAPSLOCK else m in
  if is_extended then Z.lor m NPK_INPUT_MOD_EXTENDED else m.

Definition lower_of (k : keyboard) : layout := if kb_turkish k then tr_lower else us_lower.
Definition upper_of (k : keyboard) : layout := if kb_turkish k then tr_upper else us_upper.

(** The text of a key on the USB path. *)
Definition usb_text (k : keyboard) (usage key modifiers : Z) : option (list Z) :=
  if key <? 0x40 then
    let letter := (usage >=? 0x04) && (usage <=? 0x1d) in
    let use_upper := hasb modifiers NPK_INPUT_MOD_SHIFT in
    let use_upper := if letter && hasb modifiers NPK_INPUT_MOD_CAPSLOCK then negb use_upper else use_upper in
    if hasb modifiers NPK_INPUT_MOD_ALTGR then (if key =? 0x12 then Some EURO else None)
    else if use_upper then key_text (upper_of k) key else key_text (lower_of k) key
  else None.

Definition keyboard_usb_hid_event (k : keyboard) (w : W) (usage : Z) (pressed : bool) (hid_modifiers : Z) : keyboard * W :=
  let '(key, is_extended) := usb_usage_to_keycode usage in
  if key =? 0 then (k, w)
  else
    let event_key := usb_event_key usage key in
    let k := if (usage =? 0x39) && pressed then k <| kb_caps_lock := negb (kb_caps_lock k) |> else k in
    let modifiers := usb_modifiers hid_modifiers (kb_caps_lock k) is_extended in
    let k := keyboard_enqueue_input_event k w NPK_INPUT_EVENT_KEY event_key (if pressed then NPK_INPUT_KEY_PRESS else NPK_INPUT_KEY_RELEASE) modifiers in
    if negb pressed then (k, w)
    else if usage =? 0x28 then enqueue_byte k w 10
    else if usage =? 0x2a then enqueue_byte k w 8
    else if usage =? 0x2b then enqueue_byte k w 9
    else if usage =? 0x58 then enqueue_byte k w 10
    else if is_extended : bool then (k, w)
    else
      match usb_text k usage key modifiers with
      | Some text => enqueue_text k w text
      | None => (k, w)
      end.

Definition keyboard_init (k : keyboard) : keyboard :=
  k <| kb_head := 0 |> <| kb_tail := 0 |> <| kb_input_waiter := None |> <| kb_event_head := 0 |> <| kb_event_tail := 0 |>
    <| kb_shift_down := false |> <| kb_altgr_down := false |> <| kb_caps_lock := false |> <| kb_extended := false |>.

Definition keyboard_set_turkish_layout (k : keyboard) (enabled : bool) : keyboard := k <| kb_turkish := enabled |>.

(** The modifiers of a PS/2 key. *)
Definition ps2_modifiers (k : keyboard) : Z :=
  Z.lor (Z.lor (Z.lor (if kb_shift_down k then NPK_INPUT_MOD_SHIFT else 0) (if kb_caps_lock k then NPK_INPUT_MOD_CAPSLOCK else 0))
    (if kb_altgr_down k then Z.lor NPK_INPUT_MOD_ALT NPK_INPUT_MOD_ALTGR else 0)) (if kb_extended k then NPK_INPUT_MOD_EXTENDED else 0).

(** The text of a key on the PS/2 path. *)
Definition ps2_text (k : keyboard) (key : Z) : option (list Z) :=
  if key <? 0x40 then
    if kb_altgr_down k then (if key =? 0x12 then Some EURO else None)
    else
      let letter := ((key >=? 0x10) && (key <=? 0x1b)) || ((key >=? 0x1e) && (key <=? 0x28)) || ((key >=? 0x2c) && (key <=? 0x34)) in
      let use_upper := kb_shift_down k in
      let use_upper := if letter && kb_caps_lock k then negb use_upper else use_upper in
      if use_upper then key_text (upper_of k) key else key_text (lower_of k) key
  else None.

(** [code] is the byte read from port 0x60. *)
Definition keyboard_irq (k : keyboard) (w : W) (code : Z) : keyboard * W :=
  if code =? 0xe0 then (k <| kb_extended := true |>, w)
  else
    let released := hasb code 0x80 in
    let key := Z.land code 0x7f in
    let modifiers := ps2_modifiers k in
    let event_code := extended_key_code key in
    let value := if released then NPK_INPUT_KEY_RELEASE else NPK_INPUT_KEY_PRESS in
    let k := keyboard_enqueue_input_event k w NPK_INPUT_EVENT_KEY (if negb (event_code =? 0) then event_code else key) value modifiers in
    if (key =? 0x2a) || (key =? 0x36) then (k <| kb_shift_down := negb released |> <| kb_extended := false |>, w)
    else if kb_extended k && (key =? 0x38) then (k <| kb_altgr_down := negb released |> <| kb_extended := false |>, w)
    else if negb released && (key =? 0x3a) then (k <| kb_caps_lock := negb (kb_caps_lock k) |> <| kb_extended := false |>, w)
    else if released then (k <| kb_extended := false |>, w)
    else if kb_extended k then
      let '(k, w) := if key =? 0x1c then enqueue_byte k w 10 else (k, w) in (k <| kb_extended := false |>, w)
    else if key =? 0x1c then enqueue_byte k w 10
    else if key =? 0x0e then enqueue_byte k w 8
    else if key =? 0x0f then enqueue_byte k w 9
    else
      match ps2_text k key with
      | Some text => enqueue_text k w text
      | None => (k, w)
      end.

Definition keyboard_has_data (k : keyboard) : bool := negb (kb_tail k =? kb_head k).

Definition keyboard_get_event (k : keyboard) : option npk_input_event * keyboard :=
  if kb_event_tail k =? kb_event_head k then (None, k)
  else (Some (kb_event_queue k).[kb_event_tail k], k <| kb_event_tail := (kb_event_tail k + 1) mod EVENT_QUEUE_SIZE |>).

Definition keyboard_clear_events (k : keyboard) : keyboard := k <| kb_event_tail := kb_event_head k |>.

(** The next byte, or none (-1). *)
Definition keyboard_getchar (k : keyboard) : option Z * keyboard :=
  if negb (kb_tail k =? kb_head k) then (Some (kb_queue k).[kb_tail k], k <| kb_tail := (kb_tail k + 1) mod QUEUE_SIZE |>)
  else (None, k).
End Model.

(** ** The rings are bounded queues *)

Definition ring_count (cap head tail : Z) : nat := Z.to_nat ((head - tail) mod cap).

Lemma ring_count_bound cap head tail : 0 < cap -> (ring_count cap head tail < Z.to_nat cap)%nat.
Proof. intros Hc. unfold ring_count. pose proof (Z.mod_pos_bound (head - tail) cap Hc). lia. Qed.

Lemma ring_count_next cap head tail :
  0 < cap -> 0 <= head < cap -> 0 <= tail < cap ->
  if (head + 1) mod cap =? tail then ring_count cap head tail = Z.to_nat (cap - 1) else ring_count cap ((head + 1) mod cap) tail = S (ring_count cap head tail).
Proof.
  intros Hc Hh Ht. unfold ring_count. assert (Hm : (head + 1) mod cap = if head + 1 =? cap then 0 else head + 1).
  { destruct (head + 1 =? cap) eqn:E; zbool; [rewrite E; apply Z.mod_same; lia|apply Z.mod_small; lia]. }
  assert (Hd : forall x, 0 <= x < cap -> (x - tail) mod cap = if tail <=? x then x - tail else x - tail + cap).
  { intros x Hx. destruct (tail <=? x) eqn:E; zbool; [apply Z.mod_small; lia|]. rewrite <-(Z.mod_add _ 1) by lia. rewrite Z.mod_small by lia. lia. }
  rewrite Hm. destruct (head + 1 =? cap) eqn:E1; zbool; cif E2; rewrite !Hd by lia; repeat case_match; zbool; lia.
Qed.

Lemma ring_count_pop cap head tail :
  0 < cap -> 0 <= head < cap -> 0 <= tail < cap -> head <> tail -> ring_count cap head tail = S (ring_count cap head ((tail + 1) mod cap)).
Proof.
  intros Hc Hh Ht Hne. unfold ring_count. rewrite Zminus_mod_idemp_r. replace (head - (tail + 1)) with (head - tail - 1) by lia.
  assert (Hp : 0 < (head - tail) mod cap).
  { pose proof (Z.mod_pos_bound (head - tail) cap Hc). destruct (decide ((head - tail) mod cap = 0)) as [E|]; [|lia]. apply Z.mod_divide in E as [q Hq]; [|lia]. exfalso. assert (q = 0) by nia. lia. }
  rewrite <-(Zminus_mod_idemp_l (head - tail)). pose proof (Z.mod_pos_bound (head - tail) cap Hc). rewrite (Z.mod_small ((head - tail) mod cap - 1)) by lia. lia.
Qed.

(** Appending to a ring that is not full. *)
Lemma ring_push {A} cap (buffer : arr A) head tail v :
  0 < cap -> 0 <= head < cap -> 0 <= tail < cap -> (head + 1) mod cap <> tail ->
  ring cap (buffer.[head <- v]) tail (ring_count cap ((head + 1) mod cap) tail) = ring cap buffer tail (ring_count cap head tail) ++ [v].
Proof.
  intros Hc Hh Ht Hne. pose proof (ring_count_next cap head tail Hc Hh Ht) as Hn. rewrite (proj2 (Z.eqb_neq _ _) Hne) in Hn. rewrite Hn.
  rewrite <-Nat.add_1_r, ring_app. assert (He : (tail + Z.of_nat (ring_count cap head tail)) mod cap = head).
  { unfold ring_count. rewrite Z2Nat.id by (apply Z.mod_pos_bound; lia). rewrite Zplus_mod_idemp_r. replace (tail + (head - tail)) with head by lia. by apply Z.mod_small. }
  rewrite He. f_equal; [|rewrite ring_S by done; by rewrite aget_aset_eq]. apply ring_ext. intros i Hi. rewrite aget_aset_ne; [done|]. intros E. rewrite <-He in E.
  pose proof (ring_count_bound cap head tail Hc). apply (ring_place_inj cap tail) in E; lia.
Qed.

Record kb_wf (k : keyboard) : Prop := {
  kw_head : 0 <= kb_head k < QUEUE_SIZE; kw_tail : 0 <= kb_tail k < QUEUE_SIZE;
  kw_event_head : 0 <= kb_event_head k < EVENT_QUEUE_SIZE; kw_event_tail : 0 <= kb_event_tail k < EVENT_QUEUE_SIZE }.

(** The bytes and the events that wait to be read. *)
Definition typed (k : keyboard) : list Z := ring QUEUE_SIZE (kb_queue k) (kb_tail k) (ring_count QUEUE_SIZE (kb_head k) (kb_tail k)).
Definition events (k : keyboard) : list npk_input_event :=
  ring EVENT_QUEUE_SIZE (kb_event_queue k) (kb_event_tail k) (ring_count EVENT_QUEUE_SIZE (kb_event_head k) (kb_event_tail k)).

(** A queue with [room] places drops what does not fit. *)
Definition put {A} (room : nat) (l : list A) (x : A) : list A := if (length l <? room)%nat then l ++ [x] else l.

Lemma ring_put {A} cap (buffer : arr A) head tail v :
  0 < cap -> 0 <= head < cap -> 0 <= tail < cap ->
  let next := (head + 1) mod cap in
  put (Z.to_nat (cap - 1)) (ring cap buffer tail (ring_count cap head tail)) v =
  if next =? tail then ring cap buffer tail (ring_count cap head tail) else ring cap (buffer.[head <- v]) tail (ring_count cap next tail).
Proof.
  intros Hc Hh Ht next. unfold put. rewrite ring_length. pose proof (ring_count_next cap head tail Hc Hh Ht) as Hn. fold next in Hn. destruct (next =? tail) eqn:E; zbool.
  - rewrite Hn. by rewrite (proj2 (Nat.ltb_ge _ _)) by lia.
  - rewrite (proj2 (Nat.ltb_lt _ _)); [|pose proof (ring_count_bound cap next tail Hc); lia]. by rewrite ring_push.
Qed.

Section Queues.
Context {W : Type} (wake : W -> Z -> W) (now : W -> Z).

Lemma enqueue_byte_typed k w v : kb_wf k ->
  let r := enqueue_byte wake k w v in kb_wf r.1 /\ typed r.1 = put 1023 (typed k) v /\ events r.1 = events k /\
  kb_turkish r.1 = kb_turkish k /\ kb_caps_lock r.1 = kb_caps_lock k.
Proof.
  intros [H1 H2 H3 H4]. pose proof (ring_put QUEUE_SIZE (kb_queue k) (kb_head k) (kb_tail k) v ltac:(by vm_compute) H1 H2) as Hp. cbv zeta in Hp.
  change (Z.to_nat (QUEUE_SIZE - 1)) with 1023%nat in Hp. unfold typed. rewrite Hp. unfold enqueue_byte. cbv zeta. destruct (_ =? kb_tail k); cbn [negb fst snd]; [repeat split; (done || lia)|].
  assert (Hm : 0 <= (kb_head k + 1) mod QUEUE_SIZE < QUEUE_SIZE) by (apply Z.mod_pos_bound; by vm_compute).
  match goal with |- context [match ?x with Some _ => _ | None => _ end] => destruct x end; cbn [fst snd]; (split; [constructor; rsimpl; lia|by repeat split]).
Qed.

Lemma enqueue_event_events k w type code value modifiers : kb_wf k ->
  let k' := keyboard_enqueue_input_event now k w type code value modifiers in
  kb_wf k' /\ typed k' = typed k /\ events k' = put 127 (events k) (InputEvent (now w) type code value modifiers 0) /\
  kb_turkish k' = kb_turkish k /\ kb_caps_lock k' = kb_caps_lock k.
Proof.
  intros [H1 H2 H3 H4]. set (e := InputEvent (now w) type code value modifiers 0).
  pose proof (ring_put EVENT_QUEUE_SIZE (kb_event_queue k) (kb_event_head k) (kb_event_tail k) e ltac:(by vm_compute) H3 H4) as Hp. cbv zeta in Hp.
  change (Z.to_nat (EVENT_QUEUE_SIZE - 1)) with 127%nat in Hp. unfold events. rewrite Hp. unfold keyboard_enqueue_input_event. cbv zeta. fold e. destruct (_ =? kb_event_tail k); [repeat split; (done || lia)|].
  assert (Hm : 0 <= (kb_event_head k + 1) mod EVENT_QUEUE_SIZE < EVENT_QUEUE_SIZE) by (apply Z.mod_pos_bound; by vm_compute). split; [constructor; rsimpl; lia|by repeat split].
Qed.
End Queues.

(** ** Text *)

Section Text.
Context {W : Type} (wake : W -> Z -> W) (now : W -> Z).

Lemma enqueue_text_typed text k w : kb_wf k ->
  let r := enqueue_text wake k w text in kb_wf r.1 /\ typed r.1 = fold_left (put 1023) text (typed k) /\ events r.1 = events k.
Proof.
  unfold enqueue_text. revert k w; induction text as [|c text IH]; intros k w Hk; [done|]. cbn [fold_left fst snd].
  destruct (enqueue_byte_typed wake k w c Hk) as (H1 & H2 & H3 & _). destruct (enqueue_byte wake k w c) as [k' w']. cbn [fst snd] in *.
  destruct (IH k' w' H1) as (I1 & I2 & I3). by rewrite <-H2, <-H3.
Qed.

Lemma getchar_typed k : kb_wf k ->
  let r := keyboard_getchar k in kb_wf r.2 /\ match typed k with c :: l => r.1 = Some c /\ typed r.2 = l | [] => r = (None, k) end.
Proof.
  intros [H1 H2 H3 H4]. unfold keyboard_getchar, typed. destruct (kb_tail k =? kb_head k) eqn:E; zbool; cbn [negb fst snd].
  - split; [by constructor|]. unfold ring_count. rewrite E, Z.sub_diag, Zmod_0_l. done.
  - rewrite (ring_count_pop QUEUE_SIZE (kb_head k) (kb_tail k)) by (done || lia). rewrite ring_S by done.
    split; [|done]. constructor; rsimpl; try done. apply Z.mod_pos_bound. by vm_compute.
Qed.

Lemma get_event_events k : kb_wf k ->
  let r := keyboard_get_event k in kb_wf r.2 /\ typed r.2 = typed k /\ match events k with e :: l => r.1 = Some e /\ events r.2 = l | [] => r = (None, k) end.
Proof.
  intros [H1 H2 H3 H4]. unfold keyboard_get_event, events. destruct (kb_event_tail k =? kb_event_head k) eqn:E; zbool; cbn [negb fst snd].
  - split; [by constructor|]. split; [done|]. unfold ring_count. rewrite E, Z.sub_diag, Zmod_0_l. done.
  - rewrite (ring_count_pop EVENT_QUEUE_SIZE (kb_event_head k) (kb_event_tail k)) by (done || lia). rewrite ring_S by done.
    split; [|done]. constructor; rsimpl; try done. apply Z.mod_pos_bound. by vm_compute.
Qed.

(** Reading [n] bytes. *)
Fixpoint getchars (n : nat) (k : keyboard) : list (option Z) * keyboard :=
  match n with O => ([], k) | S n' => let '(c, k) := keyboard_getchar k in let '(l, k) := getchars n' k in (c :: l, k) end.

Lemma put_fits {A} room (l text : list A) : (length l + length text <= room)%nat -> fold_left (put room) text l = l ++ text.
Proof.
  revert l; induction text as [|c text IH]; intros l Hl; cbn [fold_left length] in *; [by rewrite app_nil_r|].
  unfold put at 2. rewrite (proj2 (Nat.ltb_lt _ _)) by lia. rewrite IH; [by rewrite <-app_assoc|]. rewrite length_app. cbn [length]. lia.
Qed.

Lemma getchars_typed n k l1 l2 : kb_wf k -> typed k = l1 ++ l2 -> length l1 = n -> let r := getchars n k in r.1 = map Some l1 /\ typed r.2 = l2 /\ kb_wf r.2.
Proof.
  revert k l1; induction n as [|n IH]; intros k l1 Hk Ht Hl; [by destruct l1|]. destruct l1 as [|c l1]; [done|]. cbn [getchars].
  destruct (getchar_typed k Hk) as [H1 H2]. rewrite Ht in H2. destruct (keyboard_getchar k) as [o k1]. cbn [app fst snd] in *. destruct H2 as [-> H2].
  destruct (IH k1 l1 H1 H2 ltac:(by injection Hl)) as (I1 & I2 & I3). destruct (getchars n k1) as [r k2]. cbn [fst snd map] in *. by rewrite I1.
Qed.

(** Text that fits the ring is read back byte by byte, after what was waiting. *)
Theorem text_roundtrip k w text :
  kb_wf k -> (length (typed k) + length text <= 1023)%nat ->
  let r := getchars (length (typed k) + length text) (enqueue_text wake k w text).1 in r.1 = map Some (typed k ++ text) /\ typed r.2 = [] /\ kb_wf r.2.
Proof.
  intros Hk Hl. destruct (enqueue_text_typed text k w Hk) as (H1 & H2 & _). rewrite put_fits in H2 by done.
  apply (getchars_typed _ _ (typed k ++ text) []); [done|by rewrite app_nil_r|by rewrite length_app].
Qed.

(** C24: Every operation keeps the rings in order; the queue of bytes and the queue
    of events are bounded first-in first-out queues: a new entry goes to the
    end or, when 1023 bytes or 127 events wait, is dropped; reading takes the
    oldest entry. *)
Theorem keyboard_queue_refines k w v type code value modifiers :
  kb_wf k ->
  (let r := enqueue_byte wake k w v in kb_wf r.1 /\ typed r.1 = put 1023 (typed k) v /\ events r.1 = events k) /\
  (let r := keyboard_getchar k in kb_wf r.2 /\ match typed k with c :: l => r.1 = Some c /\ typed r.2 = l | [] => r = (None, k) end) /\
  (let k' := keyboard_enqueue_input_event now k w type code value modifiers in
   kb_wf k' /\ typed k' = typed k /\ events k' = put 127 (events k) (InputEvent (now w) type code value modifiers 0)) /\
  (let r := keyboard_get_event k in kb_wf r.2 /\ typed r.2 = typed k /\ match events k with e :: l => r.1 = Some e /\ events r.2 = l | [] => r = (None, k) end) /\
  keyboard_has_data k = negb (length (typed k) =? 0)%nat /\ events (keyboard_clear_events k) = [].
Proof.
  intros Hk. destruct (enqueue_byte_typed wake k w v Hk) as (A1 & A2 & A3 & _). destruct (enqueue_event_events now k w type code value modifiers Hk) as (B1 & B2 & B3 & _).
  split; [done|]. split; [by apply getchar_typed|]. split; [done|]. split; [by apply get_event_events|]. split.
  - destruct (getchar_typed k Hk) as [_ G]. unfold keyboard_getchar, keyboard_has_data in *. destruct (negb (kb_tail k =? kb_head k)); destruct (typed k); try done. by destruct G.
  - unfold events, keyboard_clear_events, ring_count. rsimpl. by rewrite Z.sub_diag, Zmod_0_l.
Qed.
End Text.

(** ** The two input paths *)

Section Paths.
Context {W : Type} (wake : W -> Z -> W) (now : W -> Z).

(** A letter key is a plain scan code, and both paths look its text up alike. *)
Definition plain_key (key : Z) : bool :=
  (0 <? key) && (key <? 0x38) && negb (hasb key 0x80) && (Z.land key 0x7f =? key) && negb (key =? 0x2a) && negb (key =? 0x36) && negb (key =? 0x1c) && negb (key =? 0x0e) && negb (key =? 0x0f).

Definition letter_check (usage : Z) : bool :=
  let '(key, extended) := usb_usage_to_keycode usage in
  plain_key key && negb extended &&
  forallb (fun tr => forallb (fun shift => forallb (fun caps =>
    let k := Keyboard (afill 0) 0 0 None (afill zero_event) 0 0 tr shift false caps false in
    bool_decide (usb_text k usage key (usb_modifiers (if shift then 2 else 0) caps false) = ps2_text k key)) [true; false]) [true; false]) [true; false].

Lemma letters_checked usage : 0x04 <= usage <= 0x1d -> letter_check usage = true.
Proof.
  intros Hu. assert (Ha : forallb letter_check (seqZ 4 26) = true) by (vm_compute; reflexivity). rewrite forallb_forall in Ha. apply Ha, list_elem_of_In, elem_of_seqZ. lia.
Qed.

(** The text depends on the layout and the state of the modifier keys only. *)
Lemma letter_text k usage : 0x04 <= usage <= 0x1d -> kb_altgr_down k = false ->
  let key := (usb_usage_to_keycode usage).1 in
  plain_key key = true /\ (usb_usage_to_keycode usage).2 = false /\
  usb_text k usage key (usb_modifiers (if kb_shift_down k then 2 else 0) (kb_caps_lock k) false) = ps2_text k key.
Proof.
  intros Hu Ha. pose proof (letters_checked usage Hu) as Hc. unfold letter_check in Hc. destruct (usb_usage_to_keycode usage) as [key ex]. cbn [fst snd].
  apply andb_true_iff in Hc as [[Hp He]%andb_true_iff Hc]. split; [done|]. split; [by destruct ex|].
  assert (Hin : forall b : bool, In b [true; false]) by (intros []; cbn; tauto). rewrite forallb_forall in Hc. specialize (Hc (kb_turkish k) (Hin _)). rewrite forallb_forall in Hc.
  specialize (Hc (kb_shift_down k) (Hin _)). rewrite forallb_forall in Hc. specialize (Hc (kb_caps_lock k) (Hin _)). apply bool_decide_eq_true in Hc.
  etransitivity; [|etransitivity; [exact Hc|]]; unfold usb_text, ps2_text, upper_of, lower_of; cbn; [done|]. by rewrite Ha.
Qed.

Lemma usb_letter_typed k w usage : 0x04 <= usage <= 0x1d -> kb_wf k -> kb_altgr_down k = false ->
  let text := default [] (ps2_text k (usb_usage_to_keycode usage).1) in
  typed (keyboard_usb_hid_event wake now k w usage true (if kb_shift_down k then 2 else 0)).1 = fold_left (put 1023) text (typed k).
Proof.
  intros Hu Hk Ha. destruct (letter_text k usage Hu Ha) as (Hp & He & Ht). unfold keyboard_usb_hid_event. destruct (usb_usage_to_keycode usage) as [key ex]. cbn [fst snd] in *. subst ex.
  unfold plain_key in Hp. replace (key =? 0) with false by lia. replace (usage =? 57) with false by lia. cbn [andb negb]. cbv zeta.
  match goal with |- context [keyboard_enqueue_input_event now k w ?t ?c ?v ?m] => destruct (enqueue_event_events now k w t c v m Hk) as (H1 & H2 & _ & H4 & _); set (k1 := keyboard_enqueue_input_event now k w t c v m) in * end.
  replace (usage =? 40) with false by lia. replace (usage =? 42) with false by lia. replace (usage =? 43) with false by lia. replace (usage =? 88) with false by lia.
  assert (Ht' : usb_text k1 usage key (usb_modifiers (if kb_shift_down k then 2 else 0) (kb_caps_lock k) false) = ps2_text k key) by (rewrite <-Ht; unfold usb_text, upper_of, lower_of; by rewrite H4).
  rewrite Ht', <-H2. destruct (ps2_text k key) as [text|]; cbn [default]; [|done]. by apply enqueue_text_typed.
Qed.

Lemma ps2_letter_typed k w key : kb_wf k -> plain_key key = true -> kb_extended k = false ->
  typed (keyboard_irq wake now k w key).1 = fold_left (put 1023) (default [] (ps2_text k key)) (typed k).
Proof.
  intros Hk Hp Hx. unfold plain_key in Hp. unfold keyboard_irq. rewrite !andb_true_iff, !negb_true_iff, Z.eqb_eq in Hp. destruct Hp as ((((((((P1 & P2) & P3) & P4) & P5) & P6) & P7) & P8) & P9). rewrite P3, P4. cbv zeta.
  replace (key =? 224) with false by lia.
  match goal with |- context [keyboard_enqueue_input_event now k w ?t ?c ?v ?m] => destruct (enqueue_event_events now k w t c v m Hk) as (H1 & H2 & _ & H4 & H5); set (k1 := keyboard_enqueue_input_event now k w t c v m) in * end.
  assert (Hf : kb_extended k1 = false /\ kb_altgr_down k1 = kb_altgr_down k /\ kb_shift_down k1 = kb_shift_down k) by (unfold k1, keyboard_enqueue_input_event; cbv zeta; destruct (_ =? kb_event_tail k); by rewrite ?Hx).
  destruct Hf as (F1 & F2 & F3). rewrite P5, P6, P7, P8, P9, F1. cbn [orb andb negb]. replace (key =? 58) with false by lia.
  assert (Ht : ps2_text k1 key = ps2_text k key) by (unfold ps2_text, upper_of, lower_of; by rewrite H4, H5, F2, F3). rewrite Ht, <-H2. destruct (ps2_text k key) as [text|]; cbn [default]; [|done]. by apply enqueue_text_typed.
Qed.

(** A letter key of a USB keyboard and the same key of a PS/2 keyboard type the
    same text, in both layouts and with every state of Shift and Caps Lock. *)
Theorem usb_ps2_letters_agree k w usage :
  0x04 <= usage <= 0x1d -> kb_wf k -> kb_altgr_down k = false -> kb_extended k = false ->
  typed (keyboard_usb_hid_event wake now k w usage true (if kb_shift_down k then 2 else 0)).1 =
  typed (keyboard_irq wake now k w (usb_usage_to_keycode usage).1).1.
Proof.
  intros Hu Hk Ha Hx. destruct (letter_text k usage Hu Ha) as (Hp & _). by rewrite usb_letter_typed, ps2_letter_typed.
Qed.
End Paths.

(** ** Examples *)

Definition quiet (w : unit) (_ : Z) : unit := w.
Definition noon (_ : unit) : Z := 7.
Notation press k code := (keyboard_irq quiet noon k tt code).1.

Lemma keyboard0_wf : kb_wf keyboard0.
Proof. constructor; cbn; unfold QUEUE_SIZE, EVENT_QUEUE_SIZE; lia. Qed.

Lemma text_roundtrip_witness : (getchars 3 (enqueue_text quiet keyboard0 tt [110; 112; 107]).1).1 = [Some 110; Some 112; Some 107].
Proof. apply (text_roundtrip quiet keyboard0 tt [110; 112; 107] keyboard0_wf). vm_compute. lia. Defined.

Lemma keyboard_queue_refines_witness : typed (enqueue_byte quiet keyboard0 tt 65).1 = [65].
Proof. destruct (keyboard_queue_refines quiet noon keyboard0 tt 65 1 30 1 0 keyboard0_wf) as ((_ & H & _) & _). rewrite H. vm_compute. reflexivity. Defined.

Lemma usb_ps2_letters_agree_witness : typed (keyboard_usb_hid_event quiet noon (press keyboard0 0x2a) tt 0x0c true 2).1 = [73].
Proof.
  pose proof (usb_ps2_letters_agree quiet noon (press keyboard0 0x2a) tt 0x0c ltac:(lia)) as L. change (kb_shift_down (press keyboard0 0x2a)) with true in L. cbv iota in L.
  rewrite L; [vm_compute; reflexivity|constructor; vm_compute; split; congruence|vm_compute; reflexivity|vm_compute; reflexivity].
Defined.

(** Caps Lock and a Turkish letter outside A to Z: the PS/2 path types the
    capital, the USB path the small letter. *)
Lemma usb_caps_differs :
  let k := press keyboard0 0x3a in
  typed (press k 0x1a) = [196; 158] /\ typed (keyboard_usb_hid_event quiet noon k tt 0x2f true 0).1 = [196; 159].
Proof. vm_compute. split; reflexivity. Qed.

(** The digit keys 8, 2, 4 and 6 of the keypad (scan codes without the prefix)
    are reported as arrow keys. *)
Lemma keypad_reported_as_arrow :
  map ie_code (events (press (press (press (press keyboard0 0x48) 0x50) 0x4b) 0x4d)) = [NPK_KEY_UP; NPK_KEY_DOWN; NPK_KEY_LEFT; NPK_KEY_RIGHT].
Proof. vm_compute. reflexivity. Qed.

(** With one place left only the first byte of a character is stored. *)
Lemma full_queue_splits_character :
  let k := (enqueue_text quiet keyboard0 tt (replicate 1022 97)).1 in last (typed (press k 0x1a)) = Some 196 /\ length (typed (press k 0x1a)) = 1023%nat.
Proof. vm_compute. split; reflexivity. Qed.
