(* ===== verification/Font.v ===== *)
(** * The glyphs of the console (src/src/drivers/font.c)

    Sixteen rows of bits per glyph, the lowest bit leftmost: a table of the
    ASCII characters and one of the Turkish letters outside ASCII.  Any other
    character shows as a question mark. *)

From Stdlib Require Import ZArith Lia Bool.
From stdpp Require Import base numbers list.
From S2P Require Import Prelude.

Open Scope Z_scope.

Definition NPK_FONT_WIDTH := 10.
Definition NPK_FONT_HEIGHT := 16.

Definition ascii_font : list (list Z) := [
  [0; 0; 0; 0; 0; 0; 0; 0; 0; 0; 0; 0; 0; 0; 0; 0];
  [0; 0; 0; 0; 0; 0; 0; 0; 0; 0; 0; 0; 0; 0; 0; 0];
  [0; 0; 0; 0; 0; 0; 0; 0; 0; 0; 0; 0; 0; 0; 0; 0];
  [0; 0; 0; 0; 0; 0; 0; 0; 0; 0; 0; 0; 0; 0; 0; 0];
  [0; 0; 0; 0; 0; 0; 0; 0; 0; 0; 0; 0; 0; 0; 0; 0];
  [0; 0; 0; 0; 0; 0; 0; 0; 0; 0; 0; 0; 0; 0; 0; 0];
  [0; 0; 0; 0; 0; 0; 0; 0; 0; 0; 0; 0; 0; 0; 0; 0];
  [0; 0; 0; 0; 0; 0; 0; 0; 0; 0; 0; 0; 0; 0; 0; 0];
  [0; 0; 0; 0; 0; 0; 0; 0; 0; 0; 0; 0; 0; 0; 0; 0];
  [0; 0; 0; 0; 0; 0; 0; 0; 0; 0; 0; 0; 0; 0; 0; 0];
  [0; 0; 0; 0; 0; 0; 0; 0; 0; 0; 0; 0; 0; 0; 0; 0];
  [0; 0; 0; 0; 0; 0; 0; 0; 0; 0; 0; 0; 0; 0; 0; 0];
  [0; 0; 0; 0; 0; 0; 0; 0; 0; 0; 0; 0; 0; 0; 0; 0];
  [0; 0; 0; 0; 0; 0; 0; 0; 0; 0; 0; 0; 0; 0; 0; 0];
  [0; 0; 0; 0; 0; 0; 0; 0; 0; 0; 0; 0; 0; 0; 0; 0];
  [0; 0; 0; 0; 0; 0; 0; 0; 0; 0; 0; 0; 0; 0; 0; 0];
  [0; 0; 0; 0; 0; 0; 0; 0; 0; 0; 0; 0; 0; 0; 0; 0];
  [0; 0; 0; 0; 0; 0; 0; 0; 0; 0; 0; 0; 0; 0; 0; 0];
  [0; 0; 0; 0; 0; 0; 0; 0; 0; 0; 0; 0; 0; 0; 0; 0];
  [0; 0; 0; 0; 0; 0; 0; 0; 0; 0; 0; 0; 0; 0; 0; 0];
  [0; 0; 0; 0; 0; 0; 0; 0; 0; 0; 0; 0; 0; 0; 0; 0];
  [0; 0; 0; 0; 0; 0; 0; 0; 0; 0; 0; 0; 0; 0; 0; 0];
  [0; 0; 0; 0; 0; 0; 0; 0; 0; 0; 0; 0; 0; 0; 0; 0];
  [0; 0; 0; 0; 0; 0; 0; 0; 0; 0; 0; 0; 0; 0; 0; 0];
  [0; 0; 0; 0; 0; 0; 0; 0; 0; 0; 0; 0; 0; 0; 0; 0];
  [0; 0; 0; 0; 0; 0; 0; 0; 0; 0; 0; 0; 0; 0; 0; 0];
  [0; 0; 0; 0; 0; 0; 0; 0; 0; 0; 0; 0; 0; 0; 0; 0];
  [0; 0; 0; 0; 0; 0; 0; 0; 0; 0; 0; 0; 0; 0; 0; 0];
  [0; 0; 0; 0; 0; 0; 0; 0; 0; 0; 0; 0; 0; 0; 0; 0];
  [0; 0; 0; 0; 0; 0; 0; 0; 0; 0; 0; 0; 0; 0; 0; 0];
  [0; 0; 0; 0; 0; 0; 0; 0; 0; 0; 0; 0; 0; 0; 0; 0];
  [0; 0; 0; 0; 0; 0; 0; 0; 0; 0; 0; 0; 0; 0; 0; 0];
  [0; 0; 0; 0; 0; 0; 0; 0; 0; 0; 0; 0; 0; 0; 0; 0];
  [0; 56; 56; 56; 56; 56; 56; 16; 16; 0; 56; 56; 0; 0; 0; 0];
  [0; 108; 108; 108; 108; 0; 0; 0; 0; 0; 0; 0; 0; 0; 0; 0];
  [0; 216; 216; 216; 510; 108; 108; 108; 255; 54; 54; 54; 0; 0; 0; 0];
  [16; 16; 124; 86; 22; 30; 124; 240; 208; 208; 214; 124; 16; 16; 0; 0];
  [0; 14; 27; 27; 27; 206; 56; 230; 432; 432; 432; 224; 0; 0; 0; 0];
  [0; 56; 76; 12; 12; 28; 446; 435; 499; 231; 230; 508; 0; 0; 0; 0];
  [0; 56; 56; 56; 56; 0; 0; 0; 0; 0; 0; 0; 0; 0; 0; 0];
  [0; 96; 48; 48; 24; 24; 24; 24; 24; 24; 24; 48; 48; 96; 0; 0];
  [0; 12; 24; 24; 48; 48; 48; 48; 48; 48; 48; 24; 24; 12; 0; 0];
  [0; 16; 214; 124; 124; 214; 16; 0; 0; 0; 0; 0; 0; 0; 0; 0];
  [0; 0; 0; 16; 16; 16; 511; 511; 16; 16; 16; 0; 0; 0; 0; 0];
  [0; 0; 0; 0; 0; 0; 0; 0; 0; 56; 56; 56; 24; 24; 0; 0];
  [0; 0; 0; 0; 0; 0; 0; 124; 124; 0; 0; 0; 0; 0; 0; 0];
  [0; 0; 0; 0; 0; 0; 0; 0; 0; 56; 56; 56; 0; 0; 0; 0];
  [0; 192; 192; 96; 96; 48; 48; 24; 24; 12; 12; 6; 6; 0; 0; 0];
  [0; 56; 108; 198; 198; 214; 214; 198; 198; 198; 108; 56; 0; 0; 0; 0];
  [0; 56; 52; 48; 48; 48; 48; 48; 48; 48; 48; 254; 0; 0; 0; 0];
  [0; 60; 98; 224; 224; 224; 112; 48; 56; 28; 14; 254; 0; 0; 0; 0];
  [0; 124; 226; 192; 96; 56; 96; 192; 192; 192; 226; 60; 0; 0; 0; 0];
  [0; 112; 112; 120; 124; 108; 102; 102; 254; 96; 96; 96; 0; 0; 0; 0];
  [0; 126; 6; 6; 6; 62; 98; 192; 192; 192; 98; 60; 0; 0; 0; 0];
  [0; 120; 140; 6; 6; 126; 206; 198; 198; 198; 204; 120; 0; 0; 0; 0];
  [0; 254; 224; 224; 96; 112; 48; 48; 56; 24; 28; 12; 0; 0; 0; 0];
  [0; 124; 238; 198; 238; 124; 238; 198; 198; 198; 238; 124; 0; 0; 0; 0];
  [0; 60; 102; 198; 198; 198; 230; 252; 192; 192; 96; 60; 0; 0; 0; 0];
  [0; 0; 0; 0; 56; 56; 56; 0; 0; 56; 56; 56; 0; 0; 0; 0];
  [0; 0; 0; 0; 56; 56; 56; 0; 0; 56; 56; 56; 24; 24; 0; 0];
  [0; 0; 0; 128; 224; 124; 14; 14; 124; 240; 128; 0; 0; 0; 0; 0];
  [0; 0; 0; 0; 254; 254; 0; 0; 254; 254; 0; 0; 0; 0; 0; 0];
  [0; 0; 0; 2; 30; 124; 224; 224; 124; 30; 2; 0; 0; 0; 0; 0];
  [0; 120; 228; 192; 96; 48; 56; 24; 24; 0; 24; 24; 0; 0; 0; 0];
  [0; 0; 120; 204; 134; 499; 475; 411; 395; 411; 475; 498; 6; 140; 248; 0];
  [0; 56; 56; 124; 108; 108; 108; 238; 254; 198; 198; 455; 0; 0; 0; 0];
  [0; 126; 230; 198; 198; 230; 126; 198; 198; 198; 198; 126; 0; 0; 0; 0];
  [0; 120; 156; 12; 14; 6; 6; 6; 14; 12; 156; 120; 0; 0; 0; 0];
  [0; 62; 102; 198; 198; 198; 198; 198; 198; 198; 102; 62; 0; 0; 0; 0];
  [0; 254; 6; 6; 6; 6; 254; 6; 6; 6; 6; 254; 0; 0; 0; 0];
  [0; 254; 14; 14; 14; 14; 254; 14; 14; 14; 14; 14; 0; 0; 0; 0];
  [0; 120; 140; 14; 6; 6; 6; 230; 198; 206; 204; 248; 0; 0; 0; 0];
  [0; 198; 198; 198; 198; 198; 254; 198; 198; 198; 198; 198; 0; 0; 0; 0];
  [0; 254; 56; 56; 56; 56; 56; 56; 56; 56; 56; 254; 0; 0; 0; 0];
  [0; 120; 96; 96; 96; 96; 96; 96; 96; 96; 98; 60; 0; 0; 0; 0];
  [0; 454; 230; 118; 54; 62; 62; 126; 102; 230; 198; 454; 0; 0; 0; 0];
  [0; 12; 12; 12; 12; 12; 12; 12; 12; 12; 12; 508; 0; 0; 0; 0];
  [0; 198; 238; 238; 238; 254; 254; 254; 198; 198; 198; 198; 0; 0; 0; 0];
  [0; 198; 206; 206; 222; 222; 214; 246; 246; 230; 230; 198; 0; 0; 0; 0];
  [0; 56; 108; 198; 198; 198; 198; 198; 198; 198; 108; 56; 0; 0; 0; 0];
  [0; 126; 230; 198; 198; 198; 230; 126; 6; 6; 6; 6; 0; 0; 0; 0];
  [0; 56; 108; 198; 198; 198; 198; 198; 198; 198; 236; 120; 224; 64; 0; 0];
  [0; 126; 230; 198; 198; 198; 230; 126; 102; 230; 198; 454; 0; 0; 0; 0];
  [0; 124; 206; 6; 14; 62; 124; 240; 224; 192; 226; 124; 0; 0; 0; 0];
  [0; 254; 56; 56; 56; 56; 56; 56; 56; 56; 56; 56; 0; 0; 0; 0];
  [0; 198; 198; 198; 198; 198; 198; 198; 198; 198; 238; 124; 0; 0; 0; 0];
  [0; 455; 198; 198; 198; 238; 108; 108; 108; 124; 56; 56; 0; 0; 0; 0];
  [0; 387; 387; 387; 443; 443; 186; 254; 238; 238; 238; 206; 0; 0; 0; 0];
  [0; 454; 198; 108; 124; 56; 56; 56; 124; 108; 198; 455; 0; 0; 0; 0];
  [0; 455; 198; 238; 108; 124; 56; 56; 56; 56; 56; 56; 0; 0; 0; 0];
  [0; 254; 224; 224; 240; 112; 56; 60; 28; 14; 14; 510; 0; 0; 0; 0];
  [0; 120; 24; 24; 24; 24; 24; 24; 24; 24; 24; 24; 24; 120; 0; 0];
  [0; 6; 6; 12; 12; 24; 24; 48; 48; 96; 96; 192; 192; 0; 0; 0];
  [0; 60; 48; 48; 48; 48; 48; 48; 48; 48; 48; 48; 48; 60; 0; 0];
  [0; 56; 124; 108; 198; 0; 0; 0; 0; 0; 0; 0; 0; 0; 0; 0];
  [0; 0; 0; 0; 0; 0; 0; 0; 0; 0; 0; 0; 0; 0; 0; 511];
  [12; 24; 16; 0; 0; 0; 0; 0; 0; 0; 0; 0; 0; 0; 0; 0];
  [0; 0; 0; 0; 124; 196; 192; 252; 198; 198; 230; 252; 0; 0; 0; 0];
  [0; 6; 6; 6; 126; 238; 198; 198; 198; 198; 238; 126; 0; 0; 0; 0];
  [0; 0; 0; 0; 120; 140; 14; 14; 14; 14; 140; 120; 0; 0; 0; 0];
  [0; 192; 192; 192; 252; 238; 198; 198; 198; 198; 238; 252; 0; 0; 0; 0];
  [0; 0; 0; 0; 124; 206; 198; 254; 6; 6; 142; 124; 0; 0; 0; 0];
  [0; 240; 56; 24; 254; 24; 24; 24; 24; 24; 24; 24; 0; 0; 0; 0];
  [0; 0; 0; 0; 252; 238; 198; 198; 198; 198; 238; 252; 192; 224; 124; 0];
  [0; 6; 6; 6; 126; 238; 206; 198; 198; 198; 198; 198; 0; 0; 0; 0];
  [48; 48; 48; 0; 60; 48; 48; 48; 48; 48; 48; 510; 0; 0; 0; 0];
  [48; 48; 48; 0; 60; 48; 48; 48; 48; 48; 48; 48; 48; 48; 30; 0];
  [0; 6; 6; 6; 230; 102; 62; 62; 126; 102; 230; 454; 0; 0; 0; 0];
  [0; 30; 24; 24; 24; 24; 24; 24; 24; 24; 24; 240; 0; 0; 0; 0];
  [0; 0; 0; 0; 254; 254; 146; 402; 402; 402; 402; 402; 0; 0; 0; 0];
  [0; 0; 0; 0; 126; 238; 206; 198; 198; 198; 198; 198; 0; 0; 0; 0];
  [0; 0; 0; 0; 124; 238; 198; 198; 198; 198; 238; 124; 0; 0; 0; 0];
  [0; 0; 0; 0; 126; 238; 198; 198; 198; 198; 238; 126; 6; 6; 6; 0];
  [0; 0; 0; 0; 252; 238; 198; 198; 198; 198; 238; 252; 192; 192; 192; 0];
  [0; 0; 0; 0; 508; 28; 28; 12; 12; 12; 12; 12; 0; 0; 0; 0];
  [0; 0; 0; 0; 60; 78; 14; 124; 248; 224; 226; 124; 0; 0; 0; 0];
  [0; 0; 24; 24; 254; 24; 24; 24; 24; 24; 24; 240; 0; 0; 0; 0];
  [0; 0; 0; 0; 198; 198; 198; 198; 198; 198; 238; 252; 0; 0; 0; 0];
  [0; 0; 0; 0; 198; 198; 238; 108; 108; 124; 56; 56; 0; 0; 0; 0];
  [0; 0; 0; 0; 387; 387; 443; 186; 254; 238; 238; 238; 0; 0; 0; 0];
  [0; 0; 0; 0; 206; 108; 124; 56; 56; 124; 238; 198; 0; 0; 0; 0];
  [0; 0; 0; 0; 198; 198; 238; 108; 124; 120; 56; 56; 56; 24; 14; 0];
  [0; 0; 0; 0; 254; 224; 112; 120; 56; 28; 14; 254; 0; 0; 0; 0];
  [0; 240; 48; 56; 56; 56; 56; 24; 30; 24; 56; 56; 56; 48; 240; 0];
  [0; 16; 16; 16; 16; 16; 16; 16; 16; 16; 16; 16; 16; 16; 16; 16];
  [0; 30; 24; 56; 56; 56; 56; 48; 240; 48; 56; 56; 56; 24; 30; 0];
  [0; 0; 0; 0; 0; 0; 30; 254; 240; 0; 0; 0; 0; 0; 0; 0];
  [0; 254; 130; 130; 130; 130; 130; 130; 130; 130; 130; 130; 130; 254; 0; 0]].

Definition unicode_font : list (Z * list Z) := [
  (199, [0; 120; 156; 12; 14; 6; 6; 6; 14; 12; 156; 120; 32; 96; 112; 0]);
  (231, [0; 0; 0; 0; 120; 140; 14; 14; 14; 14; 140; 120; 32; 96; 56; 0]);
  (286, [0; 120; 140; 14; 6; 6; 6; 230; 198; 206; 204; 248; 0; 0; 0; 0]);
  (287, [68; 56; 0; 0; 252; 238; 198; 198; 198; 198; 238; 252; 192; 224; 124; 0]);
  (304, [0; 254; 56; 56; 56; 56; 56; 56; 56; 56; 56; 254; 0; 0; 0; 0]);
  (305, [0; 0; 0; 0; 60; 48; 48; 48; 48; 48; 48; 510; 0; 0; 0; 0]);
  (214, [0; 56; 108; 198; 198; 198; 198; 198; 198; 198; 108; 56; 0; 0; 0; 0]);
  (246, [108; 108; 0; 0; 124; 238; 198; 198; 198; 198; 238; 124; 0; 0; 0; 0]);
  (350, [0; 124; 206; 6; 14; 62; 124; 240; 224; 192; 226; 124; 48; 32; 56; 0]);
  (351, [0; 0; 0; 0; 60; 78; 14; 124; 248; 224; 226; 124; 48; 32; 56; 0]);
  (220, [0; 198; 198; 198; 198; 198; 198; 198; 198; 198; 238; 124; 0; 0; 0; 0]);
  (252, [108; 108; 0; 0; 198; 198; 198; 198; 198; 198; 238; 252; 0; 0; 0; 0])].

Definition font_glyph (cp : Z) : list Z :=
  if cp <? 128 then nth (Z.to_nat cp) ascii_font []
  else match list_find (fun g => g.1 = cp) unicode_font with
       | Some (_, g) => g.2
       | None => nth 63 ascii_font []
       end.

(** Every glyph fills its cell: sixteen rows, no bit beyond the tenth. *)
Definition glyph_ok (g : list Z) : bool := Nat.eqb (length g) 16 && forallb (fun r => (0 <=? r) && (r <? 1024)) g.

Lemma font_glyph_ok cp : 0 <= cp -> glyph_ok (font_glyph cp) = true.
Proof.
  intros H. unfold font_glyph. destruct (cp <? 128) eqn:E.
  - assert (A : forallb glyph_ok ascii_font = true) by (vm_compute; reflexivity). rewrite forallb_forall in A.
    apply A, nth_In. change (length ascii_font) with 128%nat. lia.
  - destruct (list_find _ unicode_font) as [[i g]|] eqn:F; [|vm_compute; reflexivity].
    apply list_find_Some in F as (F & _ & _).
    assert (A : forallb (fun g => glyph_ok g.2) unicode_font = true) by (vm_compute; reflexivity). rewrite forallb_forall in A.
    apply (A g), list_elem_of_In. by eapply list_elem_of_lookup_2.
Qed.

(** The space is blank. *)
Lemma space_blank : font_glyph 32 = replicate 16 0.
Proof. reflexivity. Qed.
