(* ===== verification/Gop.v ===== *)
(** * The framebuffer (src/src/drivers/gop.c)

    The pixels are bytes of [g_memory] at the addresses the code computes from
    the mode the boot loader reports; the console draws through these
    operations, a user program may claim the display for itself. *)

From Stdlib Require Import ZArith Lia Bool ZifyBool.
From stdpp Require Import base numbers list gmap.
From S2P Require Import Prelude Kstring Font.

Open Scope Z_scope.
Open Scope npk_scope.

Definition LIMINE_FRAMEBUFFER_RGB := 1.
Definition NPK_TTY_SCALE := 2.

Record limine_framebuffer := Framebuffer {
  fb_address : Z; fb_width : Z; fb_height : Z; fb_pitch : Z; fb_bpp : Z; fb_memory_model : Z;
  fb_red_mask_size : Z; fb_red_mask_shift : Z; fb_green_mask_size : Z; fb_green_mask_shift : Z;
  fb_blue_mask_size : Z; fb_blue_mask_shift : Z }.

Record gop_framebuffer_info := Info {
  in_physical_base : Z; in_page_offset : Z; in_mapping_size : Z; in_width : Z; in_height : Z; in_pitch : Z;
  in_bpp : Z; in_memory_model : Z; in_masks : list Z }.

(** The statics of the driver; [g_fb] is [None] for NULL. *)
Record gop := Gop { g_fb : option limine_framebuffer; g_memory : mem; g_current_bg : Z; g_user_display_owner : Z }.
#[export] Instance eta_gop : Eta gop := fun x => Gop (g_fb x) (g_memory x) (g_current_bg x) (g_user_display_owner x).

(** ** Pixels *)

Definition channel (value shift size : Z) : Z :=
  if size =? 0 then 0
  else
    let value := if size <? 8 then Z.shiftr value (8 - size) else value in
    u32 (Z.shiftl (Z.land value (Z.shiftl 1 size - 1)) shift).

Definition pixel_value (fb : limine_framebuffer) (rgb : Z) : Z :=
  if fb_memory_model fb =? LIMINE_FRAMEBUFFER_RGB then
    let red := Z.land (Z.shiftr rgb 16) 255 in
    let green := Z.land (Z.shiftr rgb 8) 255 in
    let blue := Z.land rgb 255 in
    Z.lor (Z.lor (channel red (fb_red_mask_shift fb) (fb_red_mask_size fb)) (channel green (fb_green_mask_shift fb) (fb_green_mask_size fb)))
          (channel blue (fb_blue_mask_shift fb) (fb_blue_mask_size fb))
  else rgb.

(** A little-endian store of [n] bytes. *)
Definition store (m : mem) (a : Z) (n : nat) (value : Z) : mem :=
  for_range (fun i m => m.[a + i <- Z.shiftr value (8 * i) mod 256]) 0 n m.

Definition put_pixel (g : gop) (x y rgb : Z) : gop :=
  match g_fb g with
  | None => g
  | Some fb =>
      if (x >=? fb_width fb) || (y >=? fb_height fb) then g
      else
        let row := fb_address fb + y * fb_pitch fb in
        let value := pixel_value fb rgb in
        if fb_bpp fb =? 32 then g <| g_memory := store (g_memory g) (row + 4 * x) 4 value |>
        else if fb_bpp fb =? 24 then g <| g_memory := store (g_memory g) (row + x * 3) 3 value |>
        else if fb_bpp fb =? 16 then g <| g_memory := store (g_memory g) (row + 2 * x) 2 (u16 value) |>
        else g
  end.

Definition fill_rows (g : gop) (first_row last_row color : Z) : gop :=
  match g_fb g with
  | None => g
  | Some fb =>
      if (first_row >=? last_row) || (first_row >=? fb_height fb) then g
      else
        let last_row := if last_row >? fb_height fb then fb_height fb else last_row in
        for_range (fun y => for_range (fun x g => put_pixel g x y color) 0 (Z.to_nat (fb_width fb)))
          first_row (Z.to_nat (last_row - first_row)) g
  end.

(** ** The driver *)

(** [framebuffer] is what the boot loader reports. *)
Definition gop_init (g : gop) (framebuffer : option limine_framebuffer) : bool * gop :=
  let g := g <| g_fb := framebuffer |> in
  match framebuffer with
  | None => (false, g)
  | Some fb =>
      if (fb_address fb =? 0) || (fb_width fb =? 0) || (fb_height fb =? 0) then (false, g)
      else if negb (fb_bpp fb =? 16) && negb (fb_bpp fb =? 24) && negb (fb_bpp fb =? 32) then (false, g)
      else (true, g <| g_current_bg := 1054752 |> <| g_user_display_owner := 0 |>)
  end.

Definition gop_ready (g : gop) : bool := match g_fb g with Some _ => true | None => false end.

(** [hhdm] is the offset of the direct map the boot loader reports, if any. *)
Definition gop_get_framebuffer_info (g : gop) (hhdm : option Z) : option gop_framebuffer_info :=
  match g_fb g with
  | None => None
  | Some fb =>
      if (fb_address fb =? 0) || (fb_width fb =? 0) || (fb_height fb =? 0) || (fb_pitch fb =? 0) then None
      else
        let raw_address := fb_address fb in
        let physical := match hhdm with Some offset => if raw_address >=? offset then raw_address - offset else raw_address | None => raw_address end in
        let page_offset := Z.land physical (NPK_PAGE_SIZE - 1) in
        let page_base := physical - page_offset in
        if fb_height fb >? UINT64_MAX / fb_pitch fb then None
        else
          let byte_count := u64 (fb_pitch fb * fb_height fb) in
          if byte_count >? UINT64_MAX - page_offset then None
          else
            let mapping_size := page_offset + byte_count in
            if mapping_size >? UINT64_MAX - (NPK_PAGE_SIZE - 1) then None
            else
              let mapping_size := Z.land (mapping_size + NPK_PAGE_SIZE - 1) (not64 (NPK_PAGE_SIZE - 1)) in
              if mapping_size =? 0 then None
              else Some (Info page_base page_offset mapping_size (fb_width fb) (fb_height fb) (fb_pitch fb) (fb_bpp fb) (fb_memory_model fb)
                     [fb_red_mask_size fb; fb_red_mask_shift fb; fb_green_mask_size fb; fb_green_mask_shift fb; fb_blue_mask_size fb; fb_blue_mask_shift fb])
  end.

Definition gop_claim_user_display (g : gop) (pid : Z) : bool * gop :=
  if negb (gop_ready g) || (pid =? 0) then (false, g)
  else if negb (g_user_display_owner g =? 0) && negb (g_user_display_owner g =? pid) then (false, g)
  else (true, g <| g_user_display_owner := pid |>).

Definition gop_release_user_display (g : gop) (pid : Z) : gop :=
  if negb (pid =? 0) && (g_user_display_owner g =? pid) then g <| g_user_display_owner := 0 |> else g.

Definition gop_user_display_owned (g : gop) : bool := negb (g_user_display_owner g =? 0).
Definition gop_user_display_owned_by (g : gop) (pid : Z) : bool := negb (pid =? 0) && (g_user_display_owner g =? pid).

Definition gop_width (g : gop) : Z := match g_fb g with Some fb => fb_width fb | None => 0 end.
Definition gop_height (g : gop) : Z := match g_fb g with Some fb => fb_height fb | None => 0 end.
Definition gop_cell_width : Z := NPK_FONT_WIDTH * NPK_TTY_SCALE.
Definition gop_cell_height : Z := NPK_FONT_HEIGHT * NPK_TTY_SCALE.
Definition gop_columns (g : gop) : Z := match g_fb g with Some fb => fb_width fb / gop_cell_width | None => 0 end.
Definition gop_rows (g : gop) : Z := match g_fb g with Some fb => fb_height fb / gop_cell_height | None => 0 end.

Definition gop_clear (g : gop) (color : Z) : gop :=
  match g_fb g with
  | None => g
  | Some fb => if negb (g_user_display_owner g =? 0) then g else fill_rows (g <| g_current_bg := color |>) 0 (fb_height fb) color
  end.

(** One dot of a glyph, [NPK_TTY_SCALE] pixels square. *)
Definition draw_dot (x y color : Z) (g : gop) : gop :=
  for_range (fun sy => for_range (fun sx g => put_pixel g (x + sx) (y + sy) color) 0 (Z.to_nat NPK_TTY_SCALE)) 0 (Z.to_nat NPK_TTY_SCALE) g.

Definition draw_glyph (glyph : list Z) (origin_x origin_y fg bg : Z) (g : gop) : gop :=
  for_range (fun gy g =>
    let bits := nth (Z.to_nat gy) glyph 0 in
    for_range (fun gx g => draw_dot (origin_x + gx * NPK_TTY_SCALE) (origin_y + gy * NPK_TTY_SCALE) (if hasb bits (Z.shiftl 1 gx) then fg else bg) g)
      0 (Z.to_nat NPK_FONT_WIDTH) g) 0 (Z.to_nat NPK_FONT_HEIGHT) g.

Definition gop_draw_cell (g : gop) (column row codepoint fg bg : Z) : gop :=
  match g_fb g with
  | None => g
  | Some fb =>
      if negb (g_user_display_owner g =? 0) || (column >=? gop_columns g) || (row >=? gop_rows g) then g
      else draw_glyph (font_glyph codepoint) (column * gop_cell_width) (row * gop_cell_height) fg bg g
  end.

Definition gop_scroll_rows (g : gop) (rows bg : Z) : gop :=
  match g_fb g with
  | None => g
  | Some fb =>
      if negb (g_user_display_owner g =? 0) || (rows =? 0) then g
      else
        let pixel_rows := u64 (rows * gop_cell_height) in
        if pixel_rows >=? fb_height fb then gop_clear g bg
        else
          let byte_count := u64 ((fb_height fb - pixel_rows) * fb_pitch fb) in
          let g := g <| g_memory := memmove (g_memory g) (fb_address fb) (fb_address fb + pixel_rows * fb_pitch fb) byte_count |> in
          fill_rows g (fb_height fb - pixel_rows) (fb_height fb) bg <| g_current_bg := bg |>
  end.

(** ** What the operations draw *)

Definition bytes_per_pixel (fb : limine_framebuffer) : Z := fb_bpp fb / 8.
Definition pixel_address (fb : limine_framebuffer) (x y : Z) : Z := fb_address fb + y * fb_pitch fb + bytes_per_pixel fb * x.

(** A mode as a boot loader reports it: a row of pixels fits its pitch, the
    rows fit the address space. *)
Record fb_ok (fb : limine_framebuffer) : Prop := {
  fo_address : 0 < fb_address fb;
  fo_width : 0 < fb_width fb;
  fo_height : 0 < fb_height fb;
  fo_bpp : fb_bpp fb = 16 \/ fb_bpp fb = 24 \/ fb_bpp fb = 32;
  fo_pitch : fb_width fb * bytes_per_pixel fb <= fb_pitch fb;
  fo_end : fb_address fb + fb_height fb * fb_pitch fb <= UINT64_MAX }.

Lemma store_spec m a n value : patched m (store m a n value) a (a + Z.of_nat n) (fun b => Z.shiftr value (8 * (b - a)) mod 256).
Proof.
  unfold store. replace (a + Z.of_nat n) with (a + (0 + Z.of_nat n)) by lia.
  apply (for_range_inv (fun k m' => patched m m' a (a + k) (fun b => Z.shiftr value (8 * (b - a)) mod 256))); [rewrite Z.add_0_r; apply patched_refl|].
  intros k t Hk Ht. rewrite Z.add_assoc. apply patched_step; [done|done|lia|]. do 2 f_equal. lia.
Qed.

Section Drawing.
Context (fb : limine_framebuffer) (Hfb : fb_ok fb).

Definition on_screen (x y : Z) : Prop := 0 <= x < fb_width fb /\ 0 <= y < fb_height fb.
Definition inside (a x y : Z) : Prop := pixel_address fb x y <= a < pixel_address fb x y + bytes_per_pixel fb.

(** The pixel holds [value], as far as its bytes go. *)
Definition pixel_is (m : mem) (x y value : Z) : Prop :=
  forall i, 0 <= i < bytes_per_pixel fb -> m.[pixel_address fb x y + i] = Z.shiftr value (8 * i) mod 256.

(** From [m] to [m'] exactly the pixels of [R] change, each to its colour. *)
Definition painted (m m' : mem) (R : Z -> Z -> bool) (color : Z -> Z -> Z) : Prop :=
  (forall x y, on_screen x y -> R x y = true -> pixel_is m' x y (pixel_value fb (color x y))) /\
  (forall a, (forall x y, on_screen x y -> R x y = true -> ~ inside a x y) -> m'.[a] = m.[a]).

Definition draws (g g' : gop) (R : Z -> Z -> bool) (color : Z -> Z -> Z) : Prop :=
  exists m, g' = g <| g_memory := m |> /\ painted (g_memory g) m R color.

Lemma bytes_pos : 2 <= bytes_per_pixel fb <= 4.
Proof. unfold bytes_per_pixel. destruct (fo_bpp _ Hfb) as [->|[->| ->]]; mlia. Qed.

Lemma inside_unique a x y x' y' : on_screen x y -> on_screen x' y' -> inside a x y -> inside a x' y' -> x = x' /\ y = y'.
Proof.
  intros [Hx Hy] [Hx' Hy'] H H'. unfold inside, pixel_address in *. pose proof bytes_pos as B. pose proof (fo_pitch _ Hfb) as P.
  set (b := bytes_per_pixel fb) in *. set (p := fb_pitch fb) in *. set (w := fb_width fb) in *.
  assert (b * (x + 1) <= b * w) by (apply Z.mul_le_mono_nonneg_l; lia). assert (b * (x' + 1) <= b * w) by (apply Z.mul_le_mono_nonneg_l; lia).
  assert (b * x + b <= p /\ b * x' + b <= p) by lia.
  assert (Ey : y = y').
  { destruct (Z.lt_trichotomy y y') as [L|[E|L]]; [|done|].
    - assert (y * p + p <= y' * p) by nia. assert (0 <= b * x') by nia. lia.
    - assert (y' * p + p <= y * p) by nia. assert (0 <= b * x) by nia. lia. }
  subst y'. split; [nia|done].
Qed.

(** A pixel outside [R] keeps its bytes. *)
Lemma painted_keeps m m' R color x y value :
  painted m m' R color -> on_screen x y -> R x y = false -> pixel_is m x y value -> pixel_is m' x y value.
Proof.
  intros [_ K] S E H i Hi. rewrite K; [by apply H|]. intros x' y' S' R' I.
  assert (I0 : inside (pixel_address fb x y + i) x y) by (unfold inside; lia).
  destruct (inside_unique _ _ _ _ _ S S' I0 I) as [-> ->]. congruence.
Qed.

Lemma painted_refl m color : painted m m (fun _ _ => false) color.
Proof. by split. Qed.

Lemma painted_trans m m1 m2 R1 R2 color :
  painted m m1 R1 color -> painted m1 m2 R2 color -> painted m m2 (fun x y => R1 x y || R2 x y) color.
Proof.
  intros P1 P2. split.
  - intros x y S H. destruct (R2 x y) eqn:E2; [by apply P2|]. rewrite orb_false_r in H. eapply painted_keeps; [exact P2|done|done|]. by apply P1.
  - intros a H. transitivity (m1.[a]).
    + apply P2. intros x y S E. apply H; [done|]. rewrite E. by rewrite orb_true_r.
    + apply P1. intros x y S E. apply H; [done|]. by rewrite E.
Qed.

Lemma painted_ext m m' R R' color color' :
  (forall x y, on_screen x y -> R x y = R' x y) -> (forall x y, on_screen x y -> R x y = true -> color x y = color' x y) ->
  painted m m' R color -> painted m m' R' color'.
Proof.
  intros ER EC [P K]. split.
  - intros x y S H. rewrite <-ER in H by done. rewrite <-EC by done. by apply P.
  - intros a H. apply K. intros x y S E. apply H; [done|]. by rewrite <-ER.
Qed.

Lemma draws_ext g g' R R' color color' :
  (forall x y, on_screen x y -> R x y = R' x y) -> (forall x y, on_screen x y -> R x y = true -> color x y = color' x y) ->
  draws g g' R color -> draws g g' R' color'.
Proof. intros ER EC (m & -> & P). exists m. split; [done|]. by eapply painted_ext. Qed.

Lemma draws_for (Q R : Z -> Z -> Z -> bool) color f i n g :
  g_fb g = Some fb ->
  (forall x y, Q i x y = false) ->
  (forall k x y, i <= k < i + Z.of_nat n -> on_screen x y -> Q (k + 1) x y = Q k x y || R k x y) ->
  (forall k g, i <= k < i + Z.of_nat n -> g_fb g = Some fb -> draws g (f k g) (R k) color) ->
  draws g (for_range f i n g) (Q (i + Z.of_nat n)) color.
Proof.
  intros Eg Q0 QS F. apply (for_range_inv (fun k g' => draws g g' (Q k) color)).
  - exists (g_memory g). split; [by destruct g|]. eapply painted_ext; [|done|apply painted_refl]. intros. by rewrite Q0.
  - intros k t Hk (m & Et & P). destruct (F k t Hk) as (m' & E' & P'); [by subst t|]. exists m'. split; [rewrite E'; by subst t|].
    subst t. eapply painted_ext; [|done|apply (painted_trans _ _ _ _ _ _ P P')]. intros. by rewrite QS.
Qed.

Lemma put_pixel_draws g x y rgb :
  g_fb g = Some fb -> on_screen x y -> draws g (put_pixel g x y rgb) (fun x' y' => (x' =? x) && (y' =? y)) (fun _ _ => rgb).
Proof.
  intros Eg [Hx Hy]. unfold put_pixel. rewrite Eg. cif E; [lia|].
  assert (A : forall n v, Z.of_nat n = bytes_per_pixel fb -> (forall i, 0 <= i < bytes_per_pixel fb -> Z.shiftr v (8 * i) mod 256 = Z.shiftr (pixel_value fb rgb) (8 * i) mod 256) ->
    painted (g_memory g) (store (g_memory g) (pixel_address fb x y) n v) (fun x' y' => (x' =? x) && (y' =? y)) (fun _ _ => rgb)).
  { intros n v En Ev. pose proof (store_spec (g_memory g) (pixel_address fb x y) n v) as P. rewrite En in P. split.
    - intros x' y' _ E'. replace x' with x by lia. replace y' with y by lia. intros i Hi. rewrite (P (pixel_address fb x y + i)).
      replace (_ && _) with true by lia. rewrite <-Ev by done. do 2 f_equal. lia.
    - intros a H. rewrite (P a). destruct (_ && _) eqn:Ea; [|done]. destruct (H x y); [done|lia|unfold inside; lia]. }
  unfold pixel_address, bytes_per_pixel in *. destruct (fo_bpp _ Hfb) as [Eb|[Eb|Eb]]; rewrite Eb in *; cbn [Z.eqb Pos.eqb] in *.
  - eexists; split; [done|]. apply A; [done|]. intros i Hi. change (16 / 8) with 2 in Hi. rewrite !Z.shiftr_div_pow2 by lia. unfold u16.
    assert (i = 0 \/ i = 1) as [-> | ->] by lia; [change (2 ^ (8 * 0)) with 1|change (2 ^ (8 * 1)) with 256]; mlia.
  - eexists; split; [done|]. replace (x * 3) with (24 / 8 * x) by (change (24 / 8) with 3; lia). by apply A.
  - eexists; split; [done|]. by apply A.
Qed.

Lemma draws_trans g g1 g2 R1 R2 color : draws g g1 R1 color -> draws g1 g2 R2 color -> draws g g2 (fun x y => R1 x y || R2 x y) color.
Proof. intros (m & E1 & P1) (m' & -> & P2). subst g1. exists m'. split; [by destruct g|]. by eapply painted_trans. Qed.

Lemma draws_color g g' R color color' :
  (forall x y, R x y = true -> color x y = color' x y) -> draws g g' R color -> draws g g' R color'.
Proof. intros E. apply draws_ext; [done|]. intros. by apply E. Qed.

(** A block of pixels of one colour. *)
Definition in_block (x0 y0 w h x y : Z) : bool := (x0 <=? x) && (x <? x0 + w) && (y0 <=? y) && (y <? y0 + h).

Lemma row_draws g x0 y n color :
  g_fb g = Some fb -> 0 <= x0 -> x0 + Z.of_nat n <= fb_width fb -> 0 <= y < fb_height fb ->
  draws g (for_range (fun x g => put_pixel g x y color) x0 n g) (in_block x0 y (Z.of_nat n) 1) (fun _ _ => color).
Proof.
  intros Eg H0 Hn Hy. eapply draws_ext; [| |apply (draws_for (fun k => in_block x0 y (k - x0) 1) (fun k x' y' => (x' =? k) && (y' =? y)) (fun _ _ => color))]; try done.
  - intros x' y' _. unfold in_block. lia.
  - intros x' y'. unfold in_block. lia.
  - intros k x' y' Hk _. unfold in_block. lia.
  - intros k g' Hk Eg'. apply put_pixel_draws; [done|]. unfold on_screen. lia.
Qed.

Lemma fill_rows_draws g first_row last_row color :
  g_fb g = Some fb -> 0 <= first_row -> last_row <= fb_height fb ->
  draws g (fill_rows g first_row last_row color) (fun _ y => (first_row <=? y) && (y <? last_row)) (fun _ _ => color).
Proof.
  intros Eg H0 Hl. pose proof (fo_width _ Hfb) as W. unfold fill_rows. rewrite Eg. destruct (_ || _) eqn:E.
  { exists (g_memory g). split; [by destruct g|]. eapply painted_ext; [|done|apply painted_refl]. unfold on_screen. intros x y [_ Hy]. cbn. lia. }
  replace (last_row >? fb_height fb) with false by lia.
  eapply draws_ext; [| |apply (draws_for (fun k x y => (first_row <=? y) && (y <? k)) (fun k => in_block 0 k (fb_width fb) 1) (fun _ _ => color))]; try done.
  - intros x y _. cbn beta. lia.
  - intros x y. cbn beta. lia.
  - intros k x y Hk [Hx _]. unfold in_block. lia.
  - intros k g' Hk Eg'. replace (fb_width fb) with (Z.of_nat (Z.to_nat (fb_width fb))) at 2 by lia. apply row_draws; [done|lia..].
Qed.

Lemma dot_draws g x y color :
  g_fb g = Some fb -> 0 <= x -> x + 2 <= fb_width fb -> 0 <= y -> y + 2 <= fb_height fb ->
  draws g (draw_dot x y color g) (in_block x y 2 2) (fun _ _ => color).
Proof.
  intros Eg Hx Hw Hy Hh. unfold draw_dot. change (Z.to_nat NPK_TTY_SCALE) with 2%nat. change 2%nat with (Z.to_nat 2) at 1.
  eapply draws_ext; [| |apply (draws_for (fun k => in_block x y 2 k) (fun k => in_block x (y + k) 2 1) (fun _ _ => color))]; try done.
  - intros x' y'. unfold in_block. lia.
  - intros k x' y' Hk _. unfold in_block. lia.
  - intros k g' Hk Eg'. cbn [for_range]. eapply draws_ext; [| |eapply draws_trans; [apply (put_pixel_draws _ (x + 0) (y + k))|apply (put_pixel_draws _ (x + (0 + 1)) (y + k))]]; try done.
    + intros x' y' _. unfold in_block. lia.
    + unfold on_screen. lia.
    + destruct (put_pixel_draws g' (x + 0) (y + k) color Eg') as (m & -> & _); [unfold on_screen; lia|done].
    + unfold on_screen. lia.
Qed.

(** The colour of a pixel of a cell, by its place in the cell. *)
Definition glyph_color (codepoint fg bg px py : Z) : Z :=
  if hasb (nth (Z.to_nat (py / 2)) (font_glyph codepoint) 0) (Z.shiftl 1 (px / 2)) then fg else bg.

Lemma glyph_draws g ox oy codepoint fg bg :
  g_fb g = Some fb -> 0 <= ox -> ox + 20 <= fb_width fb -> 0 <= oy -> oy + 32 <= fb_height fb ->
  draws g (draw_glyph (font_glyph codepoint) ox oy fg bg g) (in_block ox oy 20 32) (fun x y => glyph_color codepoint fg bg (x - ox) (y - oy)).
Proof.
  intros Eg Hx Hw Hy Hh. unfold draw_glyph. change (Z.to_nat NPK_FONT_HEIGHT) with 16%nat. change (Z.to_nat NPK_FONT_WIDTH) with 10%nat. change NPK_TTY_SCALE with 2.
  eapply draws_ext; [| |apply (draws_for (fun k => in_block ox oy 20 (2 * k)) (fun k => in_block ox (oy + k * 2) 20 2) (fun x y => glyph_color codepoint fg bg (x - ox) (y - oy)))]; try done.
  - intros x y. unfold in_block. lia.
  - intros k x y Hk _. unfold in_block. lia.
  - intros gy g1 Hgy Eg1. cbv zeta.
    eapply draws_ext; [| |apply (draws_for (fun k => in_block ox (oy + gy * 2) (2 * k) 2) (fun k => in_block (ox + k * 2) (oy + gy * 2) 2 2) (fun x y => glyph_color codepoint fg bg (x - ox) (y - oy)))]; try done.
    + intros x y. unfold in_block. lia.
    + intros k x y Hk _. unfold in_block. lia.
    + intros gx g2 Hgx Eg2. eapply draws_color; [|apply dot_draws; [done|lia..]]. intros x y E. unfold in_block in E. unfold glyph_color.
      replace ((y - oy) / 2) with gy by mlia. by replace ((x - ox) / 2) with gx by mlia.
Qed.

(** ** The screen as a grid of characters *)

Record cell := Cell { c_codepoint : Z; c_fg : Z; c_bg : Z }.
Definition blank (bg : Z) : cell := Cell 32 0 bg.

Definition pixel_of (c : cell) (px py : Z) : Z := glyph_color (c_codepoint c) (c_fg c) (c_bg c) px py.

Lemma pixel_of_blank bg px py : 0 <= py < 32 -> pixel_of (blank bg) px py = bg.
Proof.
  intros H. unfold pixel_of, glyph_color, blank. cbn [c_codepoint c_fg c_bg]. rewrite space_blank.
  assert (E : nth (Z.to_nat (py / 2)) (replicate 16 0) 0 = 0) by (rewrite nth_lookup; destruct (_ !! _) eqn:L; [by apply lookup_replicate in L as [-> _]|done]). rewrite E. done.
Qed.

(** What the screen shows at a pixel when [grid] is the text and [margin] the
    colour of the part right of and below the cells. *)
Definition screen_color (grid : Z -> Z -> cell) (margin x y : Z) : Z :=
  if (x <? fb_width fb / 20 * 20) && (y <? fb_height fb / 32 * 32) then pixel_of (grid (x / 20) (y / 32)) (x mod 20) (y mod 32) else margin.

Definition shows (g : gop) (grid : Z -> Z -> cell) (margin : Z) : Prop :=
  forall x y, on_screen x y -> pixel_is (g_memory g) x y (pixel_value fb (screen_color grid margin x y)).

Definition set_cell (grid : Z -> Z -> cell) (column row : Z) (c : cell) : Z -> Z -> cell :=
  fun column' row' => if (column' =? column) && (row' =? row) then c else grid column' row'.

(** Drawing a region turns the screen into one that shows the drawing there. *)
Lemma draws_shows g g' R color grid margin grid' margin' :
  draws g g' R color -> shows g grid margin ->
  (forall x y, on_screen x y -> screen_color grid' margin' x y = if R x y then color x y else screen_color grid margin x y) ->
  shows g' grid' margin'.
Proof.
  intros (m & -> & P) S E x y O. cbn [g_memory]. rewrite E by done. destruct (R x y) eqn:ER; [by apply P|].
  eapply painted_keeps; [exact P|done|done|]. by apply S.
Qed.

Lemma same_div n x c : 0 < n -> (x / n =? c) = (c * n <=? x) && (x <? c * n + n).
Proof. intros H. pose proof (Z.div_mod x n). pose proof (Z.mod_pos_bound x n H). set (q := x / n) in *. set (r := x mod n) in *. nia. Qed.

Lemma draw_cell_shows g column row codepoint fg bg grid margin :
  g_fb g = Some fb -> g_user_display_owner g = 0 -> 0 <= column < gop_columns g -> 0 <= row < gop_rows g -> shows g grid margin ->
  shows (gop_draw_cell g column row codepoint fg bg) (set_cell grid column row (Cell codepoint fg bg)) margin.
Proof.
  intros Eg Eo Hc Hr S. unfold gop_draw_cell, gop_columns, gop_rows in *. rewrite Eg, Eo in *. change gop_cell_width with 20 in *. change gop_cell_height with 32 in *.
  cbn [Z.eqb negb orb]. rewrite !Z.geb_leb. rewrite (proj2 (Z.leb_gt _ _) (proj2 Hc)), (proj2 (Z.leb_gt _ _) (proj2 Hr)). cbn [orb].
  eapply draws_shows; [apply glyph_draws; [done|mlia..]|exact S|]. intros x y [Hx Hy]. unfold screen_color, set_cell, in_block.
  rewrite !(same_div _ _ _) by lia. destruct ((_ <? _) && (_ <? _)) eqn:E1.
  - replace ((column * 20 <=? x) && (x <? column * 20 + 20) && ((row * 32 <=? y) && (y <? row * 32 + 32))) with
      ((column * 20 <=? x) && (x <? column * 20 + 20) && (row * 32 <=? y) && (y <? row * 32 + 32)) by lia.
    destruct (_ && _ && _ && _) eqn:E2; [|done]. unfold pixel_of. cbn [c_codepoint c_fg c_bg]. f_equal; mlia.
  - replace (_ && _ && _ && _) with false; [done|]. symmetry. mlia.
Qed.

Lemma clear_shows g color :
  g_fb g = Some fb -> g_user_display_owner g = 0 -> shows (gop_clear g color) (fun _ _ => blank color) color.
Proof.
  intros Eg Eo x y [Hx Hy]. unfold gop_clear. set (g1 := g <| g_current_bg := color |>). rewrite Eg, Eo. cbn [Z.eqb negb].
  destruct (fill_rows_draws g1 0 (fb_height fb) color Eg) as (m & -> & P); [lia..|]. cbn [g_memory].
  replace (screen_color _ _ x y) with color; [apply P; [done|lia]|]. unfold screen_color. destruct (_ && _); [|done].
  symmetry. apply pixel_of_blank. mlia.
Qed.

Definition scrolled (grid : Z -> Z -> cell) (bg : Z) : Z -> Z -> cell :=
  fun column row => if row =? fb_height fb / 32 - 1 then blank bg else grid column (row + 1).

Lemma row_end x y : on_screen x y -> pixel_address fb x y + bytes_per_pixel fb <= fb_address fb + (y + 1) * fb_pitch fb.
Proof.
  intros [Hx Hy]. unfold pixel_address. pose proof bytes_pos. pose proof (fo_pitch _ Hfb).
  assert (bytes_per_pixel fb * (x + 1) <= bytes_per_pixel fb * fb_width fb) by (apply Z.mul_le_mono_nonneg_l; lia). lia.
Qed.

(** Moving the rows up by [n] shows the pixels [n] rows below. *)
Lemma move_pixels m n x y value :
  0 <= n -> on_screen x y -> y + n < fb_height fb -> pixel_is m x (y + n) value ->
  pixel_is (memmove m (fb_address fb) (fb_address fb + n * fb_pitch fb) ((fb_height fb - n) * fb_pitch fb)) x y value.
Proof.
  intros Hn O Hy H i Hi. rewrite (memmove_spec m _ _ _ _). pose proof (row_end x y O) as E. pose proof bytes_pos as B. pose proof (fo_pitch _ Hfb) as P.
  pose proof (fo_width _ Hfb) as W. assert (0 <= fb_pitch fb) by nia. assert (A : (y + 1) * fb_pitch fb <= (fb_height fb - n) * fb_pitch fb) by (apply Z.mul_le_mono_nonneg_r; lia).
  assert (L : fb_address fb <= pixel_address fb x y) by (unfold pixel_address; destruct O; nia).
  replace ((_ <=? _) && (_ <? _)) with true by lia. rewrite <-(H i Hi). f_equal. unfold pixel_address. lia.
Qed.

Lemma scroll_shows g grid bg :
  g_fb g = Some fb -> g_user_display_owner g = 0 -> 0 < gop_rows g -> shows g grid bg ->
  shows (gop_scroll_rows g 1 bg) (scrolled grid bg) bg.
Proof.
  intros Eg Eo Hr S. unfold gop_rows in Hr. rewrite Eg in Hr. change gop_cell_height with 32 in Hr. unfold gop_scroll_rows.
  assert (Hw : u64 ((fb_height fb - 32) * fb_pitch fb) = (fb_height fb - 32) * fb_pitch fb \/ fb_height fb <= 32).
  { destruct (decide (fb_height fb <= 32)); [by right|left]. unfold u64. apply Z.mod_small. pose proof (fo_end _ Hfb). pose proof (fo_address _ Hfb). pose proof (fo_pitch _ Hfb).
    pose proof bytes_pos. pose proof (fo_width _ Hfb). assert (0 <= fb_pitch fb) by nia. unfold UINT64_MAX in *. nia. }
  destruct g as [f m0 b o]. cbn [g_fb g_user_display_owner g_memory] in *. subst f o. cbn [Z.eqb negb orb]. change (u64 (1 * gop_cell_height)) with 32.
  destruct (32 >=? fb_height fb) eqn:E.
  - intros x y O. replace (screen_color (scrolled grid bg) bg x y) with (screen_color (fun _ _ => blank bg) bg x y); [by apply clear_shows|].
    unfold screen_color, scrolled. destruct (_ && _) eqn:E1; [|done]. destruct O. by replace (y / 32 =? _) with true by mlia.
  - destruct Hw as [Hw|]; [|lia]. rewrite Hw. match goal with |- context [fill_rows ?G _ _ _] => set (g1 := G) end.
    destruct (fill_rows_draws g1 (fb_height fb - 32) (fb_height fb) bg) as (m' & -> & P); [done|lia..|]. intros x y O. cbn [g_memory].
    destruct (decide (y < fb_height fb - 32)) as [Ly|Ly].
    + eapply painted_keeps; [exact P|done|lia|]. cbn [g1 g_memory]. apply (move_pixels m0 32); [lia|done|lia|].
      replace (screen_color (scrolled grid bg) bg x y) with (screen_color grid bg x (y + 32)); [apply S; unfold on_screen in *; lia|].
      destruct O as [_ Oy]. unfold screen_color, scrolled. destruct ((x <? _) && (y + 32 <? _)) eqn:E1.
      * replace ((x <? _) && (y <? _)) with true by lia. replace (y / 32 =? _) with false by mlia. replace ((y + 32) / 32) with (y / 32 + 1) by mlia. f_equal. mlia.
      * destruct ((x <? _) && (y <? _)) eqn:E2; [|done]. replace (y / 32 =? _) with true by mlia. symmetry. apply pixel_of_blank. mlia.
    + destruct O as [Ox Oy]. replace (screen_color (scrolled grid bg) bg x y) with bg; [apply P; [done|lia]|].
      unfold screen_color, scrolled. destruct (_ && _) eqn:E2; [|done]. replace (y / 32 =? _) with true by mlia. symmetry. apply pixel_of_blank. mlia.
Qed.

(** Drawing leaves the mode and the owner of the display alone. *)
Definition same_display (g g' : gop) : Prop := g_fb g' = g_fb g /\ g_user_display_owner g' = g_user_display_owner g.

Lemma draws_same g g' R color : draws g g' R color -> same_display g g'.
Proof. by intros (m & -> & _). Qed.

Lemma draw_cell_same g column row codepoint fg bg :
  g_fb g = Some fb -> 0 <= column -> 0 <= row -> same_display g (gop_draw_cell g column row codepoint fg bg).
Proof.
  intros Eg Hc Hr. unfold gop_draw_cell. rewrite Eg. destruct (_ || _) eqn:E; [done|]. unfold gop_columns, gop_rows in E. rewrite Eg in E.
  change gop_cell_width with 20 in *. change gop_cell_height with 32 in *. eapply draws_same, glyph_draws; [done|mlia..].
Qed.

Lemma clear_same g color : g_fb g = Some fb -> same_display g (gop_clear g color).
Proof.
  intros Eg. unfold gop_clear. set (g1 := g <| g_current_bg := color |>). rewrite Eg. destruct (negb _); [done|].
  destruct (fill_rows_draws g1 0 (fb_height fb) color Eg) as (m & -> & _); [lia..|done].
Qed.

Lemma scroll_same g rows bg : g_fb g = Some fb -> 0 <= rows -> same_display g (gop_scroll_rows g rows bg).
Proof.
  intros Eg Hr. destruct g as [f m0 b o]. cbn [g_fb] in Eg. subst f. unfold gop_scroll_rows. cbn [g_fb g_user_display_owner g_memory].
  destruct (_ || _); [done|]. destruct (_ >=? _) eqn:E; [by apply clear_same|]. match goal with |- context [fill_rows ?G _ _ _] => set (g1 := G) end.
  assert (0 <= u64 (rows * gop_cell_height)) by (unfold u64; apply Z.mod_pos_bound; lia).
  edestruct (fill_rows_draws g1) as (m' & -> & _); [done| | |]; [|reflexivity|done]. lia.
Qed.
End Drawing.

(** ** What a program may map *)

Definition physical_of (fb : limine_framebuffer) (hhdm : option Z) : Z :=
  match hhdm with Some offset => if fb_address fb >=? offset then fb_address fb - offset else fb_address fb | None => fb_address fb end.

(** C26: The information handed to a program covers the framebuffer and no page
    more: the mapping starts at a page boundary, at [in_page_offset] in it the
    first pixel, and is the smallest number of whole pages that holds all rows. *)
Theorem framebuffer_info_covers g fb hhdm :
  g_fb g = Some fb -> fb_ok fb -> fb_height fb * fb_pitch fb <= UINT64_MAX - 2 * NPK_PAGE_SIZE ->
  (match hhdm with Some offset => 0 <= offset | None => True end) ->
  exists info, gop_get_framebuffer_info g hhdm = Some info /\
    in_physical_base info + in_page_offset info = physical_of fb hhdm /\
    in_physical_base info mod NPK_PAGE_SIZE = 0 /\ 0 <= in_page_offset info < NPK_PAGE_SIZE /\
    in_mapping_size info mod NPK_PAGE_SIZE = 0 /\
    in_page_offset info + fb_height fb * fb_pitch fb <= in_mapping_size info < in_page_offset info + fb_height fb * fb_pitch fb + NPK_PAGE_SIZE.
Proof.
  intros Eg O Hn Hh. unfold gop_get_framebuffer_info. rewrite Eg. pose proof O as [Ha Hw Hr _ Hp He]. pose proof (bytes_pos fb O) as B.
  assert (Pp : 0 < fb_pitch fb) by nia. fold (physical_of fb hhdm).
  assert (Hph : 0 <= physical_of fb hhdm) by (unfold physical_of; destruct hhdm as [o|]; [destruct (_ >=? _) eqn:E|]; lia).
  set (ph := physical_of fb hhdm) in *. clearbody ph. set (n := fb_height fb * fb_pitch fb) in *.
  replace (_ || _ || _ || _) with false by lia. cbv zeta. change NPK_PAGE_SIZE with 4096 in *. change (4096 - 1) with (Z.ones 12). rewrite Z.land_ones by lia. change (2 ^ 12) with 4096.
  assert (Q : fb_height fb <= UINT64_MAX / fb_pitch fb) by (apply Z.div_le_lower_bound; unfold n in *; lia).
  replace (_ >? _ / _) with false by lia. assert (Eu : u64 (fb_pitch fb * fb_height fb) = n) by (unfold u64; rewrite Z.mod_small; unfold n, UINT64_MAX in *; nia). rewrite Eu.
  assert (Hm : 0 <= ph mod 4096 < 4096) by mlia. assert (Hn0 : 0 < n) by (unfold n; nia). unfold UINT64_MAX in *. change (Z.ones 12) with 4095.
  replace (_ >? _) with false by lia. replace (_ >? _) with false by lia. change 4095 with (4096 - 1).
  set (s := Z.land _ _). assert (Es : s = (ph mod 4096 + n + 4096 - 1) - (ph mod 4096 + n + 4096 - 1) mod 4096) by (apply (land_not_mask _ 12); unfold in_u64, UINT64_MAX; lia).
  clearbody s. replace (s =? 0) with false by mlia. eexists. split; [done|]. cbn [in_physical_base in_page_offset in_mapping_size]. mlia.
Qed.
