(* ===== verification/Console.v ===== *)
(** * The kernel console (src/src/console.c)

    Text output: UTF-8 decoding, the few ANSI sequences the console knows, the
    cursor, and drawing through the framebuffer of Gop.v or, without one, the
    VGA text buffer.  The theorems relate the pixels to a grid of characters. *)

From Stdlib Require Import ZArith Lia Bool ZifyBool.
From stdpp Require Import base numbers list gmap.
From S2P Require Import Prelude Kstring Font Gop.

Open Scope Z_scope.
Open Scope npk_scope.

(** The statics of the console; the text of an ANSI sequence without its
    terminator, [ansi_length] being its length. *)
Record console := Console {
  c_cursor_x : Z; c_cursor_y : Z; c_foreground : Z; c_background : Z; c_using_gop : bool;
  c_vga_buffer : arr Z; c_vga_cursor_x : Z; c_vga_cursor_y : Z; c_ansi_state : Z; c_ansi_sequence : cstr }.
#[export] Instance eta_console : Eta console := fun x =>
  Console (c_cursor_x x) (c_cursor_y x) (c_foreground x) (c_background x) (c_using_gop x)
    (c_vga_buffer x) (c_vga_cursor_x x) (c_vga_cursor_y x) (c_ansi_state x) (c_ansi_sequence x).
Definition console0 : console := Console 0 0 15922682 0 false (afill 0) 0 0 0 [].

(** The console with the framebuffer it draws on. *)
Record tty := Tty { t_console : console; t_gop : gop }.
#[export] Instance eta_tty : Eta tty := fun x => Tty (t_console x) (t_gop x).

Definition ANSI_MAX := 16.

(** ** The text buffer *)

Definition vga_putc_fallback (k : console) (c : Z) : console :=
  let k :=
    if c =? 10 then k <| c_vga_cursor_x := 0 |> <| c_vga_cursor_y := c_vga_cursor_y k + 1 |>
    else if c =? 13 then k <| c_vga_cursor_x := 0 |>
    else if c =? 8 then
      let k := if negb (c_vga_cursor_x k =? 0) then k <| c_vga_cursor_x := c_vga_cursor_x k - 1 |> else k in
      k <| c_vga_buffer := (c_vga_buffer k).[c_vga_cursor_y k * 80 + c_vga_cursor_x k <- 1824] |>
    else if c =? 9 then k <| c_vga_cursor_x := Z.land (c_vga_cursor_x k + 8) (not64 7) |>
    else
      let k := k <| c_vga_buffer := (c_vga_buffer k).[c_vga_cursor_y k * 80 + c_vga_cursor_x k <- Z.lor (Z.shiftl 7 8) (u8 c)] |> in
      k <| c_vga_cursor_x := c_vga_cursor_x k + 1 |> in
  let k := if c_vga_cursor_x k >=? 80 then k <| c_vga_cursor_x := 0 |> <| c_vga_cursor_y := c_vga_cursor_y k + 1 |> else k in
  if c_vga_cursor_y k >=? 25 then k <| c_vga_cursor_y := 0 |> else k.

(** ** Drawing *)

Definition draw_at (t : tty) (column row codepoint : Z) : tty :=
  let k := t_console t in
  t <| t_gop := gop_draw_cell (t_gop t) column row codepoint (c_foreground k) (c_background k) |>.
Definition move_to (t : tty) (x y : Z) : tty := t <| t_console := t_console t <| c_cursor_x := x |> <| c_cursor_y := y |> |>.

Definition tty_newline (t : tty) : tty :=
  let y := c_cursor_y (t_console t) + 1 in
  let t := move_to t 0 y in
  if y >=? gop_rows (t_gop t) then
    let t := t <| t_gop := gop_scroll_rows (t_gop t) 1 (c_background (t_console t)) |> in
    move_to t 0 (if gop_rows (t_gop t) =? 0 then 0 else gop_rows (t_gop t) - 1)
  else t.

(** The last branch of [draw_codepoint]: a character that takes a cell. *)
Definition draw_character (t : tty) (cp : Z) : tty :=
  let k := t_console t in
  let t := draw_at t (c_cursor_x k) (c_cursor_y k) cp in
  let t := move_to t (c_cursor_x k + 1) (c_cursor_y k) in
  if c_cursor_x k + 1 >=? gop_columns (t_gop t) then tty_newline t else t.

Definition draw_tab (t : tty) : tty :=
  let spaces := 8 - Z.land (c_cursor_x (t_console t)) 7 in
  match for_break (fun _ t => let t := draw_character t 32 in if c_cursor_x (t_console t) =? 0 then inr t else inl t) 0 (Z.to_nat spaces) t with
  | inl t => t
  | inr t => t
  end.

Definition draw_codepoint (t : tty) (cp : Z) : tty :=
  let k := t_console t in
  if negb (c_using_gop k) then if cp <? 128 then t <| t_console := vga_putc_fallback k cp |> else t
  else if (gop_columns (t_gop t) =? 0) || (gop_rows (t_gop t) =? 0) then t
  else if cp =? 10 then tty_newline t
  else if cp =? 13 then move_to t 0 (c_cursor_y k)
  else if cp =? 9 then draw_tab t
  else if cp =? 8 then
    if negb (c_cursor_x k =? 0) then
      let t := move_to t (c_cursor_x k - 1) (c_cursor_y k) in draw_at t (c_cursor_x k - 1) (c_cursor_y k) 32
    else t
  else draw_character t cp.

(** ** The console *)

(** [framebuffer] is what the boot loader reports. *)
Definition console_init (t : tty) (framebuffer : option limine_framebuffer) : tty :=
  let '(using_gop, g) := gop_init (t_gop t) framebuffer in
  let k := t_console t <| c_using_gop := using_gop |> <| c_cursor_x := 0 |> <| c_cursor_y := 0 |> <| c_vga_cursor_x := 0 |> <| c_vga_cursor_y := 0 |> in
  Tty k (if using_gop then gop_clear g (c_background k) else g).

Definition console_clear (t : tty) : tty :=
  let k := t_console t <| c_cursor_x := 0 |> <| c_cursor_y := 0 |> <| c_vga_cursor_x := 0 |> <| c_vga_cursor_y := 0 |>
             <| c_ansi_state := 0 |> <| c_ansi_sequence := [] |> in
  Tty k (if c_using_gop k then gop_clear (t_gop t) (c_background k) else t_gop t).

Definition console_set_color (t : tty) (fg bg : Z) : tty := t <| t_console := t_console t <| c_foreground := fg |> <| c_background := bg |> |>.
Definition console_putc (t : tty) (c : Z) : tty := draw_codepoint t (u8 c).

Definition ansi (t : tty) (state : Z) (sequence : cstr) : tty := t <| t_console := t_console t <| c_ansi_state := state |> <| c_ansi_sequence := sequence |> |>.

Definition erase_line (t : tty) : tty :=
  let x := c_cursor_x (t_console t) in
  for_range (fun x t => draw_at t x (c_cursor_y (t_console t)) 32) x (Z.to_nat (gop_columns (t_gop t) - x)) t.

(** The byte that ends a control sequence. *)
Definition ansi_final (t : tty) (c : Z) : tty :=
  let sequence := c_ansi_sequence (t_console t) in
  let t :=
    if (c =? 74) && (strcmp sequence [50] =? 0) then console_clear t
    else if (c =? 72) && ((Z.of_nat (length sequence) =? 0) || (strcmp sequence [49; 59; 49] =? 0)) then move_to t 0 0
    else if (c =? 75) && c_using_gop (t_console t) then erase_line t
    else t in
  ansi t 0 [].

(** The code point the text starts with and the bytes it takes. *)
Definition continuation (c : Z) : bool := Z.land c 192 =? 128.
Definition decode (s : list Z) : Z * nat :=
  match s with
  | c :: a :: b :: d :: _ =>
      if (Z.land c 224 =? 192) && continuation a then (Z.lor (Z.shiftl (Z.land c 31) 6) (Z.land a 63), 2%nat)
      else if (Z.land c 240 =? 224) && continuation a && continuation b then
        (Z.lor (Z.lor (Z.shiftl (Z.land c 15) 12) (Z.shiftl (Z.land a 63) 6)) (Z.land b 63), 3%nat)
      else if (Z.land c 248 =? 240) && continuation a && continuation b && continuation d then
        (Z.lor (Z.lor (Z.lor (Z.shiftl (Z.land c 7) 18) (Z.shiftl (Z.land a 63) 12)) (Z.shiftl (Z.land b 63) 6)) (Z.land d 63), 4%nat)
      else (c, 1%nat)
  | [c; a; b] =>
      if (Z.land c 224 =? 192) && continuation a then (Z.lor (Z.shiftl (Z.land c 31) 6) (Z.land a 63), 2%nat)
      else if (Z.land c 240 =? 224) && continuation a && continuation b then
        (Z.lor (Z.lor (Z.shiftl (Z.land c 15) 12) (Z.shiftl (Z.land a 63) 6)) (Z.land b 63), 3%nat)
      else (c, 1%nat)
  | [c; a] => if (Z.land c 224 =? 192) && continuation a then (Z.lor (Z.shiftl (Z.land c 31) 6) (Z.land a 63), 2%nat) else (c, 1%nat)
  | c :: _ => (c, 1%nat)
  | [] => (0, 1%nat)
  end.

(** One round of the loop of [console_write_n] on the rest of the text: the
    bytes it takes and the console after. *)
Definition write_step (t : tty) (s : list Z) : nat * tty :=
  let c := chr s in
  let k := t_console t in
  if (c_ansi_state k =? 0) && (c =? 27) then (1%nat, t <| t_console := k <| c_ansi_state := 1 |> |>)
  else if c_ansi_state k =? 1 then (1%nat, ansi t (if c =? 91 then 2 else 0) [])
  else if c_ansi_state k =? 2 then
    if (64 <=? c) && (c <=? 126) then (1%nat, ansi_final t c)
    else if Z.of_nat (length (c_ansi_sequence k)) + 1 <? ANSI_MAX then (1%nat, ansi t 2 (c_ansi_sequence k ++ [c]))
    else (1%nat, ansi t 0 [])
  else let '(cp, consumed) := decode s in (consumed, draw_codepoint t cp).

Fixpoint write_loop (fuel : nat) (t : tty) (s : list Z) : tty :=
  match fuel, s with
  | S fuel', _ :: _ => let '(consumed, t) := write_step t s in write_loop fuel' t (drop consumed s)
  | _, _ => t
  end.

(** Every round takes a byte at least: the length of the text is fuel enough. *)
Definition console_write_n (t : tty) (s : list Z) : tty := write_loop (length s) t s.
Definition console_write (t : tty) (s : cstr) : tty := console_write_n t (text s).

(** The digits, most significant first; [base] is 10 or 16, and 64 bits have
    20 digits at most. *)
Definition digit (d : Z) : Z := if d <? 10 then 48 + d else 87 + d.
Fixpoint digits (fuel : nat) (value base : Z) (rest : list Z) : list Z :=
  match fuel with
  | O => rest
  | S fuel' => if value =? 0 then rest else digits fuel' (value / base) base (digit (value mod base) :: rest)
  end.
Definition console_write_u64 (t : tty) (value base : Z) : tty :=
  if value =? 0 then console_putc t 48 else fold_left console_putc (digits 32 value base []) t.
Definition console_write_hex (t : tty) (value : Z) : tty := console_write_u64 (console_write t [48; 120]) value 16.
Definition console_write_i64 (t : tty) (value : Z) : tty :=
  if value <? 0 then console_write_u64 (console_putc t 45) (u64 (u64 (- (value + 1)) + 1)) 10 else console_write_u64 t (u64 value) 10.

(** ** The console on a grid of characters *)

(** A terminal: its characters and the cursor. *)
Record term := Term { m_grid : Z -> Z -> cell; m_x : Z; m_y : Z }.

Section Terminal.
Context (columns rows fg bg : Z).

Definition term_newline (m : term) : term :=
  if m_y m + 1 <? rows then Term (m_grid m) 0 (m_y m + 1)
  else Term (fun column row => if row =? rows - 1 then blank bg else m_grid m column (row + 1)) 0 (rows - 1).

Definition term_put (m : term) (cp : Z) : term :=
  let m := Term (set_cell (m_grid m) (m_x m) (m_y m) (Cell cp fg bg)) (m_x m + 1) (m_y m) in
  if m_x m <? columns then m else term_newline m.

(** Up to the next multiple of eight, or the end of the line. *)
Definition term_tab (m : term) : term :=
  Nat.iter (Z.to_nat (Z.min (8 - m_x m mod 8) (columns - m_x m))) (fun m => term_put m 32) m.

Definition term_draw (m : term) (cp : Z) : term :=
  if cp =? 10 then term_newline m
  else if cp =? 13 then Term (m_grid m) 0 (m_y m)
  else if cp =? 9 then term_tab m
  else if cp =? 8 then
    if m_x m =? 0 then m else Term (set_cell (m_grid m) (m_x m - 1) (m_y m) (Cell 32 fg bg)) (m_x m - 1) (m_y m)
  else term_put m cp.
End Terminal.

(** The pixels of the framebuffer show the terminal, whose cursor is the one of
    the console. *)
Record displays (fb : limine_framebuffer) (t : tty) (m : term) : Prop := {
  dp_gop : c_using_gop (t_console t) = true;
  dp_fb : g_fb (t_gop t) = Some fb;
  dp_owner : g_user_display_owner (t_gop t) = 0;
  dp_x : c_cursor_x (t_console t) = m_x m;
  dp_y : c_cursor_y (t_console t) = m_y m;
  dp_columns : 0 <= m_x m < fb_width fb / 20;
  dp_rows : 0 <= m_y m < fb_height fb / 32;
  dp_shows : shows fb (t_gop t) (m_grid m) (c_background (t_console t)) }.

Section Refines.
Context (fb : limine_framebuffer) (Hfb : fb_ok fb).

Definition draw_on (fg bg : Z) : term -> Z -> term := term_draw (fb_width fb / 20) (fb_height fb / 32) fg bg.
(** What drawing leaves alone of the console. *)
Definition same_console (k k' : console) : Prop :=
  c_foreground k' = c_foreground k /\ c_background k' = c_background k /\ c_using_gop k' = c_using_gop k /\ c_ansi_state k' = c_ansi_state k.

Lemma rows_eq g : g_fb g = Some fb -> gop_rows g = fb_height fb / 32.
Proof. intros E. unfold gop_rows. by rewrite E. Qed.
Lemma columns_eq g : g_fb g = Some fb -> gop_columns g = fb_width fb / 20.
Proof. intros E. unfold gop_columns. by rewrite E. Qed.

Lemma draw_at_displays t m cp :
  displays fb t m ->
  displays fb (draw_at t (m_x m) (m_y m) cp) (Term (set_cell (m_grid m) (m_x m) (m_y m) (Cell cp (c_foreground (t_console t)) (c_background (t_console t)))) (m_x m) (m_y m)).
Proof.
  intros [H1 H2 H3 H4 H5 H6 H7 H8]. destruct (draw_cell_same fb Hfb (t_gop t) (m_x m) (m_y m) cp (c_foreground (t_console t)) (c_background (t_console t)) H2) as [E1 E2]; [lia..|].
  constructor; [done|exact (eq_trans E1 H2)|exact (eq_trans E2 H3)|done..|].
  apply draw_cell_shows; try done; [by rewrite columns_eq|by rewrite rows_eq].
Qed.

Lemma newline_displays t m : c_cursor_y (t_console t) = m_y m -> 0 <= m_y m < fb_height fb / 32 -> c_using_gop (t_console t) = true -> g_fb (t_gop t) = Some fb ->
  g_user_display_owner (t_gop t) = 0 -> 0 < fb_width fb / 20 -> shows fb (t_gop t) (m_grid m) (c_background (t_console t)) ->
  displays fb (tty_newline t) (term_newline (fb_height fb / 32) (c_background (t_console t)) m).
Proof.
  intros Ey Hy Hu Ef Eo Hc S. unfold tty_newline, term_newline. cbv zeta. cbn [move_to t_gop t_console]. rewrite rows_eq, Ey by done.
  destruct (m_y m + 1 <? _) eqn:E.
  - replace (_ >=? _) with false by lia. constructor; cbn; try done; lia.
  - replace (_ >=? _) with true by lia. destruct (scroll_same fb Hfb (t_gop t) 1 (c_background (t_console t)) Ef) as [E1 E2]; [lia|].
    rewrite rows_eq by exact (eq_trans E1 Ef). replace (_ =? 0) with false by lia. constructor; [done|exact (eq_trans E1 Ef)|exact (eq_trans E2 Eo)|done|done|cbn; lia|cbn; lia|].
    apply scroll_shows; [done..| |done]. rewrite rows_eq by done. lia.
Qed.

Lemma character_displays t m cp :
  displays fb t m ->
  displays fb (draw_character t cp) (term_put (fb_width fb / 20) (fb_height fb / 32) (c_foreground (t_console t)) (c_background (t_console t)) m cp).
Proof.
  intros D. pose proof (draw_at_displays t m cp D) as D'. destruct D as [_ _ _ E4 E5 H6 _ _]. unfold draw_character, term_put. cbv zeta. cbn [m_x].
  rewrite E4, E5. set (t1 := draw_at t (m_x m) (m_y m) cp) in *. change (t_console t) with (t_console t1). destruct D' as [H1 H2 H3 H4 H5 _ H7 H8]. cbn [m_x m_y m_grid] in *.
  change (t_gop (move_to t1 _ _)) with (t_gop t1). rewrite columns_eq by done. destruct (m_x m + 1 <? _) eqn:E.
  - replace (_ >=? _) with false by lia. constructor; try done. cbn. lia.
  - replace (_ >=? _) with true by lia. apply (newline_displays (move_to t1 (m_x m + 1) (m_y m))); try done. lia.
Qed.

(** Drawing leaves the colours and the state of the control sequences alone. *)
Lemma newline_same t : same_console (t_console t) (t_console (tty_newline t)).
Proof. unfold tty_newline. cbv zeta. destruct (_ >=? _); done. Qed.

Lemma character_same t cp : same_console (t_console t) (t_console (draw_character t cp)).
Proof.
  unfold draw_character. cbv zeta. destruct (_ >=? _); [|done]. match goal with |- context [tty_newline ?t1] => exact (newline_same t1) end.
Qed.

Lemma same_trans k1 k2 k3 : same_console k1 k2 -> same_console k2 k3 -> same_console k1 k3.
Proof. unfold same_console. intuition congruence. Qed.

Lemma tab_same i n t r :
  for_break (fun _ t => let t := draw_character t 32 in if c_cursor_x (t_console t) =? 0 then inr t else inl t) i n t = r ->
  same_console (t_console t) (t_console (match r with inl t => t | inr t => t end)).
Proof.
  intros <-. revert i t. induction n as [|n IH]; intros i t; cbn [for_break]; [done|]. cbv zeta. destruct (_ =? 0); [apply character_same|].
  eapply same_trans; [apply character_same|apply IH].
Qed.

Lemma draw_same t cp : c_using_gop (t_console t) = true -> same_console (t_console t) (t_console (draw_codepoint t cp)).
Proof.
  intros H. unfold draw_codepoint. rewrite H. cbn [negb]. destruct (_ || _); [done|]. destruct (cp =? 10); [apply newline_same|]. destruct (cp =? 13); [done|].
  destruct (cp =? 9); [unfold draw_tab; cbv zeta; destruct (for_break _ _ _ _) eqn:E; by apply tab_same in E|]. destruct (cp =? 8); [destruct (negb _); done|apply character_same].
Qed.

Lemma tab_displays i n t m :
  displays fb t m ->
  let put := fun m => term_put (fb_width fb / 20) (fb_height fb / 32) (c_foreground (t_console t)) (c_background (t_console t)) m 32 in
  displays fb (match for_break (fun _ t => let t := draw_character t 32 in if c_cursor_x (t_console t) =? 0 then inr t else inl t) i n t with inl t => t | inr t => t end)
    (Nat.iter (Z.to_nat (Z.min (Z.of_nat n) (fb_width fb / 20 - m_x m))) put m).
Proof.
  revert i t m. induction n as [|n IH]; intros i t m D put.
  { replace (Z.to_nat _) with O by (destruct D; lia). exact D. }
  pose proof (character_displays t m 32 D) as D'. cbn [for_break]. cbv zeta. set (t1 := draw_character t 32) in *. fold put in D'.
  pose proof (dp_columns _ _ _ D) as Hx. destruct (m_x m + 1 <? fb_width fb / 20) eqn:E.
  - assert (Ex : m_x (put m) = m_x m + 1) by (unfold put, term_put; cbn [m_x]; by rewrite E). pose proof (dp_x _ _ _ D') as Hc. change (put m) with (put m) in Hc.
    replace (c_cursor_x (t_console t1) =? 0) with false by (symmetry; apply Z.eqb_neq; unfold put in *; lia).
    replace (Z.to_nat (Z.min (Z.of_nat (S n)) (fb_width fb / 20 - m_x m))) with (S (Z.to_nat (Z.min (Z.of_nat n) (fb_width fb / 20 - m_x (put m))))) by lia.
    rewrite Nat.iter_succ_r. destruct (character_same t 32) as (F & B & _). specialize (IH (i + 1) t1 (put m) D'). cbv zeta in IH. unfold t1 in IH at 2 3. rewrite F, B in IH. exact IH.
  - assert (Ex : m_x (put m) = 0) by (unfold put, term_put, term_newline; cbn [m_x m_y m_grid]; rewrite E; destruct (m_y m + 1 <? _); reflexivity). pose proof (dp_x _ _ _ D') as Hc.
    replace (c_cursor_x (t_console t1) =? 0) with true by (symmetry; apply Z.eqb_eq; unfold put in *; lia).
    replace (Z.to_nat (Z.min (Z.of_nat (S n)) (fb_width fb / 20 - m_x m))) with 1%nat by lia. exact D'.
Qed.

Lemma draw_displays t m cp :
  displays fb t m -> displays fb (draw_codepoint t cp) (draw_on (c_foreground (t_console t)) (c_background (t_console t)) m cp).
Proof.
  intros D. pose proof D as [H1 H2 H3 H4 H5 H6 H7 H8]. unfold draw_codepoint, draw_on, term_draw. rewrite H1, (columns_eq _ H2), (rows_eq _ H2). cbn [negb].
  replace (_ || _) with false by lia. destruct (cp =? 10); [apply newline_displays; try done; lia|].
  destruct (cp =? 13); [constructor; try done; cbn; lia|]. destruct (cp =? 9).
  - pose proof (tab_displays 0 (Z.to_nat (8 - Z.land (c_cursor_x (t_console t)) 7)) t m D) as T. cbv zeta in T. unfold draw_tab, term_tab. cbv zeta.
    replace (Z.of_nat (Z.to_nat (8 - Z.land (c_cursor_x (t_console t)) 7))) with (8 - m_x m mod 8) in T; [exact T|].
    rewrite H4. change 7 with (Z.ones 3). rewrite Z.land_ones by lia. change (2 ^ 3) with 8. mlia.
  - destruct (cp =? 8); [|by apply character_displays]. rewrite H4, H5. destruct (m_x m =? 0) eqn:E; [done|]. cbn [negb]. cbv zeta.
    apply (draw_at_displays (move_to t (m_x m - 1) (m_y m)) (Term (m_grid m) (m_x m - 1) (m_y m))). constructor; try done. cbn. lia.
Qed.
End Refines.

(** ** UTF-8 *)

Definition utf8 (cp : Z) : list Z :=
  if cp <? 128 then [cp]
  else if cp <? 2048 then [192 + cp / 64; 128 + cp mod 64]
  else if cp <? 65536 then [224 + cp / 4096; 128 + cp / 64 mod 64; 128 + cp mod 64]
  else [240 + cp / 262144; 128 + cp / 4096 mod 64; 128 + cp / 64 mod 64; 128 + cp mod 64].

Lemma below (P : Z -> bool) (n : nat) : forallb P (seqZ 0 (Z.of_nat n)) = true -> forall c, 0 <= c < Z.of_nat n -> P c = true.
Proof. intros H c Hc. rewrite forallb_forall in H. apply H, list_elem_of_In, elem_of_seqZ. lia. Qed.

Lemma lead1 c : 0 <= c < 128 -> (Z.land c 224 =? 192) = false /\ (Z.land c 240 =? 224) = false /\ (Z.land c 248 =? 240) = false.
Proof.
  intros H. apply (below (fun c => negb (Z.land c 224 =? 192) && negb (Z.land c 240 =? 224) && negb (Z.land c 248 =? 240)) 128) in H; [|vm_compute; reflexivity].
  rewrite !andb_true_iff, !negb_true_iff in H. tauto.
Qed.
Lemma lead2 h : 0 <= h < 32 -> (Z.land (192 + h) 224 =? 192) = true /\ Z.land (192 + h) 31 = h.
Proof. intros H. apply (below (fun h => (Z.land (192 + h) 224 =? 192) && (Z.land (192 + h) 31 =? h)) 32) in H; [lia|vm_compute; reflexivity]. Qed.
Lemma lead3 h : 0 <= h < 16 -> (Z.land (224 + h) 224 =? 192) = false /\ (Z.land (224 + h) 240 =? 224) = true /\ Z.land (224 + h) 15 = h.
Proof.
  intros H. apply (below (fun h => negb (Z.land (224 + h) 224 =? 192) && (Z.land (224 + h) 240 =? 224) && (Z.land (224 + h) 15 =? h)) 16) in H; [|vm_compute; reflexivity].
  lia.
Qed.
Lemma lead4 h : 0 <= h < 8 -> (Z.land (240 + h) 224 =? 192) = false /\ (Z.land (240 + h) 240 =? 224) = false /\ (Z.land (240 + h) 248 =? 240) = true /\ Z.land (240 + h) 7 = h.
Proof.
  intros H. apply (below (fun h => negb (Z.land (240 + h) 224 =? 192) && negb (Z.land (240 + h) 240 =? 224) && (Z.land (240 + h) 248 =? 240) && (Z.land (240 + h) 7 =? h)) 8) in H;
    [lia|vm_compute; reflexivity].
Qed.
Lemma follow l : continuation (128 + l mod 64) = true /\ Z.land (128 + l mod 64) 63 = l mod 64.
Proof.
  assert (H : 0 <= l mod 64 < 64) by mlia. set (r := l mod 64) in *. clearbody r.
  apply (below (fun l => continuation (128 + l) && (Z.land (128 + l) 63 =? l)) 64) in H; [lia|vm_compute; reflexivity].
Qed.

Lemma glue h k l : 0 <= k -> 0 <= l < 2 ^ k -> Z.lor (Z.shiftl h k) l = h * 2 ^ k + l.
Proof. intros Hk Hl. rewrite Z.shiftl_mul_pow2 by done. apply (lor_aligned _ _ k); [done|apply Z.mod_mul; lia|done]. Qed.

Lemma decode_utf8 cp rest : 0 <= cp < 1114112 -> decode (utf8 cp ++ rest) = (cp, length (utf8 cp)).
Proof.
  intros H. unfold utf8. destruct (cp <? 128) eqn:E1; [|destruct (cp <? 2048) eqn:E2; [|destruct (cp <? 65536) eqn:E3]]; cbn [app decode length].
  - destruct (lead1 cp) as (A & B & C); [lia|]. by destruct rest as [|? [|? [|? ?]]]; rewrite ?A, ?B, ?C.
  - destruct (lead2 (cp / 64)) as (A & B); [mlia|]. destruct (follow cp) as (C & D). rewrite A, B, C, D, glue by (try change (2 ^ 6) with 64; mlia). cbn [andb].
    replace (cp / 64 * 2 ^ 6 + cp mod 64) with cp by (change (2 ^ 6) with 64; mlia). by destruct rest as [|? [|? ?]].
  - destruct (lead3 (cp / 4096)) as (A & B & C); [mlia|]. destruct (follow cp) as (D & F). destruct (follow (cp / 64)) as (G & I). rewrite A, B, C, D, F, G, I. cbn [andb].
    rewrite (Z.shiftl_mul_pow2 (_ / 64 mod 64)), (glue (cp / 4096) 12), (lor_aligned _ _ 6) by (try change (2 ^ 12) with 4096; try change (2 ^ 6) with 64; mlia).
    replace (_ * 2 ^ 12 + _ + _) with cp by (change (2 ^ 12) with 4096; change (2 ^ 6) with 64; mlia). by destruct rest.
  - destruct (lead4 (cp / 262144)) as (A & B & C & D); [mlia|]. destruct (follow cp) as (F & G). destruct (follow (cp / 64)) as (I & J). destruct (follow (cp / 4096)) as (K & L).
    rewrite A, B, C, D, F, G, I, J, K, L. cbn [andb].
    rewrite (Z.shiftl_mul_pow2 (_ / 64 mod 64)), (Z.shiftl_mul_pow2 (_ / 4096 mod 64)), (glue (cp / 262144) 18), (lor_aligned _ (_ * 2 ^ 6) 12), (lor_aligned _ _ 6)
      by (try change (2 ^ 18) with 262144; try change (2 ^ 12) with 4096; try change (2 ^ 6) with 64; mlia).
    replace (_ * 2 ^ 18 + _ + _ + _) with cp by (change (2 ^ 18) with 262144; change (2 ^ 12) with 4096; change (2 ^ 6) with 64; mlia). done.
Qed.

(** ** Writing text *)

Definition vga_ok (k : console) : Prop := 0 <= c_vga_cursor_x k < 80 /\ 0 <= c_vga_cursor_y k < 25.

Lemma vga_same k c : c_ansi_state (vga_putc_fallback k c) = c_ansi_state k.
Proof.
  unfold vga_putc_fallback. cbv zeta. match goal with |- context [c_vga_cursor_x ?K >=? 80] => set (k1 := K) end.
  assert (E : c_ansi_state k1 = c_ansi_state k) by (unfold k1; destruct (c =? 10); [done|]; destruct (c =? 13); [done|]; destruct (c =? 8); [by destruct (negb _)|]; by destruct (c =? 9)).
  clearbody k1. destruct (c_vga_cursor_x k1 >=? 80); match goal with |- context [c_vga_cursor_y ?K >=? 25] => destruct (c_vga_cursor_y K >=? 25) end; done.
Qed.

Lemma draw_ansi t cp : c_ansi_state (t_console (draw_codepoint t cp)) = c_ansi_state (t_console t).
Proof.
  destruct (c_using_gop (t_console t)) eqn:E; [by destruct (draw_same t cp E) as (_ & _ & _ & ?)|].
  unfold draw_codepoint. rewrite E. cbn [negb]. destruct (_ <? _); [apply vga_same|done].
Qed.

Definition character (cp : Z) : Prop := 0 <= cp < 1114112 /\ cp <> 27.
Definition encode (cps : list Z) : list Z := concat (utf8 <$> cps).

Lemma utf8_head cp rest : character cp -> chr (utf8 cp ++ rest) <> 27 /\ exists b bs, utf8 cp = b :: bs.
Proof.
  intros [H N]. unfold utf8. destruct (cp <? 128); [split; [done|eauto]|]. destruct (cp <? 2048); [|destruct (cp <? 65536)]; (split; [cbn [chr app]; mlia|eauto]).
Qed.

Lemma write_loop_S fuel t s : s <> [] -> write_loop (S fuel) t s = write_loop fuel (write_step t s).2 (drop (write_step t s).1 s).
Proof. intros H. destruct s as [|b s]; [done|]. cbn [write_loop]. by destruct (write_step t (b :: s)). Qed.

Lemma encode_cons cp cps : encode (cp :: cps) = utf8 cp ++ encode cps.
Proof. done. Qed.

Lemma write_loop_utf8 cps : Forall character cps -> forall fuel t, (length (encode cps) <= fuel)%nat -> c_ansi_state (t_console t) = 0 ->
  write_loop fuel t (encode cps) = fold_left draw_codepoint cps t.
Proof.
  induction 1 as [|cp cps H _ IH]; intros fuel t Hf Ha; [by destruct fuel|]. rewrite encode_cons in *. cbn [fold_left]. rewrite length_app in Hf.
  destruct (utf8_head cp (encode cps) H) as (Hc & b & bs & Eb). assert (L : (1 <= length (utf8 cp))%nat) by (rewrite Eb; cbn [length]; lia).
  destruct fuel as [|fuel]; [lia|]. rewrite write_loop_S by (rewrite Eb; done).
  assert (Ew : write_step t (utf8 cp ++ encode cps) = (length (utf8 cp), draw_codepoint t cp)).
  { unfold write_step. cbv zeta. rewrite Ha, (decode_utf8 cp (encode cps) (proj1 H)). cbn [Z.eqb andb Pos.eqb]. by rewrite (proj2 (Z.eqb_neq _ _) Hc). }
  rewrite Ew. cbn [fst snd]. rewrite drop_app_length. apply IH; [lia|by rewrite draw_ansi].
Qed.

(** Writing the UTF-8 encoding of some text draws its characters in order:
    the decoder takes apart what an encoder of any number of bytes puts
    together, for every code point but the escape that starts a control
    sequence. *)
Theorem console_write_utf8 t cps :
  Forall character cps -> c_ansi_state (t_console t) = 0 -> console_write_n t (encode cps) = fold_left draw_codepoint cps t.
Proof. intros H Ha. by apply write_loop_utf8. Qed.

Lemma fold_displays fb (Hfb : fb_ok fb) fg bg cps : forall t m, displays fb t m -> c_foreground (t_console t) = fg -> c_background (t_console t) = bg ->
  displays fb (fold_left draw_codepoint cps t) (fold_left (draw_on fb fg bg) cps m).
Proof.
  induction cps as [|cp cps IH]; intros t m D Ef Eb; [done|]. cbn [fold_left]. destruct (draw_same t cp (dp_gop _ _ _ D)) as (F & B & _).
  apply IH; [|congruence..]. subst fg bg. by apply draw_displays.
Qed.

(** C3: The screen shows the text: when the pixels show a terminal and text is
    written, encoded in UTF-8, the pixels afterwards show the terminal on which
    its characters were typed, line ends, tabs, backspaces, wrapping and
    scrolling included. *)
Theorem console_write_shows fb t m cps :
  fb_ok fb -> displays fb t m -> c_ansi_state (t_console t) = 0 -> Forall character cps ->
  displays fb (console_write_n t (encode cps))
    (fold_left (draw_on fb (c_foreground (t_console t)) (c_background (t_console t))) cps m).
Proof. intros Hfb D Ha H. unfold console_write_n. rewrite write_loop_utf8 by done. by apply fold_displays. Qed.

(** *** A display in the hands of a program *)

Definition owned (t : tty) : Prop := g_user_display_owner (t_gop t) <> 0.

Lemma owned_cell g column row cp fg bg : g_user_display_owner g <> 0 -> gop_draw_cell g column row cp fg bg = g.
Proof. intros H. unfold gop_draw_cell. destruct (g_fb g); [|done]. by rewrite (proj2 (Z.eqb_neq _ _) H). Qed.
Lemma owned_clear g color : g_user_display_owner g <> 0 -> gop_clear g color = g.
Proof. intros H. unfold gop_clear. destruct (g_fb g); [|done]. by rewrite (proj2 (Z.eqb_neq _ _) H). Qed.
Lemma owned_scroll g rows bg : g_user_display_owner g <> 0 -> gop_scroll_rows g rows bg = g.
Proof. intros H. unfold gop_scroll_rows. destruct (g_fb g); [|done]. by rewrite (proj2 (Z.eqb_neq _ _) H). Qed.

Definition keeps_screen (f : tty -> tty) : Prop := forall t, owned t -> t_gop (f t) = t_gop t.
Lemma keeps_owned f t : keeps_screen f -> owned t -> owned (f t).
Proof. intros K H. unfold owned. by rewrite K. Qed.

Lemma keeps_draw_at x y cp : keeps_screen (fun t => draw_at t x y cp).
Proof. intros t H. by apply owned_cell. Qed.
Lemma keeps_newline : keeps_screen tty_newline.
Proof. intros t H. unfold tty_newline. cbv zeta. destruct (_ >=? _); [|done]. by apply owned_scroll. Qed.
Lemma keeps_character cp : keeps_screen (fun t => draw_character t cp).
Proof.
  intros t H. unfold draw_character. cbv zeta. set (t1 := move_to (draw_at _ _ _ _) _ _). assert (E : t_gop t1 = t_gop t) by (by apply owned_cell).
  destruct (_ >=? _); [|done]. rewrite keeps_newline; [done|]. unfold owned. by rewrite E.
Qed.
Lemma keeps_tab_loop i n t : owned t ->
  t_gop (match for_break (fun _ t => let t := draw_character t 32 in if c_cursor_x (t_console t) =? 0 then inr t else inl t) i n t with inl t => t | inr t => t end) = t_gop t.
Proof.
  revert i t. induction n as [|n IH]; intros i t H; cbn [for_break]; [done|]. cbv zeta. destruct (_ =? 0); [by apply (keeps_character 32)|].
  rewrite IH; [by apply (keeps_character 32)|]. exact (keeps_owned _ t (keeps_character 32) H).
Qed.
Lemma keeps_tab : keeps_screen draw_tab.
Proof. intros t H. by apply keeps_tab_loop. Qed.
Lemma keeps_draw cp : keeps_screen (fun t => draw_codepoint t cp).
Proof.
  intros t H. unfold draw_codepoint. cbv zeta. destruct (negb _); [by destruct (cp <? 128)|]. destruct (_ || _); [done|].
  destruct (cp =? 10); [by apply keeps_newline|]. destruct (cp =? 13); [done|]. destruct (cp =? 9); [by apply keeps_tab|].
  destruct (cp =? 8); [|by apply keeps_character]. destruct (negb _); [|done]. by apply (keeps_draw_at _ _ _ (move_to t _ _)).
Qed.
Lemma keeps_erase : keeps_screen erase_line.
Proof.
  intros t H. unfold erase_line. cbv zeta.
  apply (for_range_inv (fun _ t' => t_gop t' = t_gop t)); [done|]. intros k t' _ E. unfold draw_at. cbn [t_gop]. rewrite E. by apply owned_cell.
Qed.
Lemma keeps_final c : keeps_screen (fun t => ansi_final t c).
Proof.
  intros t H. unfold ansi_final. cbv zeta. change (t_gop (ansi ?x ?s ?q)) with (t_gop x). destruct (_ && _).
  { unfold console_clear. cbv zeta. cbn [t_gop]. destruct (c_using_gop _); [by apply owned_clear|done]. }
  destruct (_ && _); [done|]. destruct (_ && _); [by apply keeps_erase|done].
Qed.

(** C25: While a program owns the display, nothing the kernel prints touches the
    framebuffer or takes the display back: text, control sequences and
    malformed bytes alike. *)
Theorem console_respects_owner t s : g_user_display_owner (t_gop t) <> 0 -> t_gop (console_write_n t s) = t_gop t.
Proof.
  unfold console_write_n. generalize (length s). intros n. revert t s. induction n as [|n IH]; intros t s H; cbn [write_loop]; [done|].
  destruct s as [|b s]; [done|]. destruct (write_step t (b :: s)) as [c t'] eqn:E.
  assert (Et : t_gop t' = t_gop t).
  { unfold write_step in E. cbv zeta in E. repeat (destruct (_ && _); [|]); repeat (destruct (_ =? _); [|]); repeat case_match; simplify_eq; try done;
      solve [by apply keeps_final|by apply keeps_draw]. }
  rewrite IH; [done|by rewrite Et].
Qed.

(** *** The text buffer *)

Lemma tab_stop x : 0 <= x < 80 -> 0 <= Z.land (x + 8) (not64 7) < 88.
Proof. intros H. apply (below (fun x => (0 <=? Z.land (x + 8) (not64 7)) && (Z.land (x + 8) (not64 7) <? 88)) 80) in H; [lia|vm_compute; reflexivity]. Qed.

(** Without a framebuffer the console writes inside the 80 by 25 characters of
    the text buffer, whatever it prints. *)
Lemma vga_in_bounds k c :
  vga_ok k -> vga_ok (vga_putc_fallback k c) /\ forall i, ~ (0 <= i < 2000) -> (c_vga_buffer (vga_putc_fallback k c)).[i] = (c_vga_buffer k).[i].
Proof.
  intros [Hx Hy]. unfold vga_putc_fallback. cbv zeta. match goal with |- context [c_vga_cursor_x ?K >=? 80] => set (k1 := K) end.
  assert (H : 0 <= c_vga_cursor_x k1 < 88 /\ 0 <= c_vga_cursor_y k1 <= 25 /\ (80 <= c_vga_cursor_x k1 -> c_vga_cursor_y k1 < 25) /\
    forall i, ~ (0 <= i < 2000) -> (c_vga_buffer k1).[i] = (c_vga_buffer k).[i]).
  { unfold k1. clear k1. destruct (c =? 10); [rsimpl; split_and!; [lia..|done]|]. destruct (c =? 13); [rsimpl; split_and!; [lia..|done]|].
    destruct (c =? 8); [|destruct (c =? 9)].
    - destruct (negb _) eqn:E; rsimpl; (split_and!; [lia..|]); intros i Hi; rewrite aget_aset_ne by nia; done.
    - rsimpl. pose proof (tab_stop _ Hx). split_and!; [lia..|done].
    - rsimpl. split_and!; [lia..|]. intros i Hi. rewrite aget_aset_ne by nia. done. }
  clearbody k1. destruct H as (H1 & H2 & H3 & H4). destruct (c_vga_cursor_x k1 >=? 80) eqn:E1.
  - match goal with |- context [c_vga_cursor_y ?K >=? 25] => destruct (c_vga_cursor_y K >=? 25) eqn:E2 end; rsimpl in E2; (split; [split; rsimpl; lia|exact H4]).
  - destruct (c_vga_cursor_y k1 >=? 25) eqn:E2; (split; [split; rsimpl; lia|exact H4]).
Qed.

(** *** The console after boot *)

Lemma init_displays t fb :
  fb_ok fb -> 20 <= fb_width fb -> 32 <= fb_height fb ->
  displays fb (console_init t (Some fb)) (Term (fun _ _ => blank (c_background (t_console t))) 0 0).
Proof.
  intros O Hw Hh. unfold console_init, gop_init. pose proof O as [Ha _ _ Hb _ _]. replace (_ || _ || _) with false by lia.
  replace (_ && _ && _) with false by lia. match goal with |- context [gop_clear ?G _] => set (g := G) end.
  destruct (clear_same fb O g (c_background (t_console t))) as [E1 E2]; [done|].
  constructor; [done|exact E1|exact E2|done|done|rsimpl; mlia|rsimpl; mlia|]. by apply clear_shows.
Qed.

Definition example_mode : limine_framebuffer := Framebuffer 4294967296 800 600 3200 32 LIMINE_FRAMEBUFFER_RGB 8 16 8 8 8 0.
Definition example_tty : tty := Tty console0 (Gop None (afill 0) 0 0).

Lemma example_mode_ok : fb_ok example_mode.
Proof. constructor; unfold bytes_per_pixel, UINT64_MAX; cbn [example_mode fb_address fb_width fb_height fb_pitch fb_bpp]; mlia. Qed.

(** A line of Turkish text on a fresh screen. *)
Definition example_text : list Z := [65; 287; 305; 10; 9; 351; 8].

Lemma example_text_ok : Forall character example_text.
Proof. repeat constructor; lia. Qed.

Lemma console_write_shows_witness :
  displays example_mode (console_write_n (console_init example_tty (Some example_mode)) (encode example_text))
    (fold_left (draw_on example_mode 15922682 0) example_text (Term (fun _ _ => blank 0) 0 0)).
Proof.
  apply (console_write_shows example_mode (console_init example_tty (Some example_mode)) (Term (fun _ _ => blank 0) 0 0) example_text example_mode_ok).
  - apply (init_displays example_tty); [apply example_mode_ok|cbn; lia..].
  - reflexivity.
  - exact example_text_ok.
Defined.

Lemma console_write_utf8_witness : console_write_n example_tty (encode example_text) = fold_left draw_codepoint example_text example_tty.
Proof. apply (console_write_utf8 example_tty example_text example_text_ok). reflexivity. Defined.

Lemma console_respects_owner_witness :
  let t := Tty console0 (Gop (Some example_mode) (afill 0) 0 7) in t_gop (console_write_n t (encode example_text)) = t_gop t.
Proof. apply (console_respects_owner (Tty console0 (Gop (Some example_mode) (afill 0) 0 7)) (encode example_text)). discriminate. Defined.

Lemma framebuffer_info_covers_witness :
  exists info, gop_get_framebuffer_info (Gop (Some example_mode) (afill 0) 0 0) (Some 4096) = Some info /\ in_mapping_size info = 1921024.
Proof.
  destruct (framebuffer_info_covers (Gop (Some example_mode) (afill 0) 0 0) example_mode (Some 4096)) as (info & E & _); [done|apply example_mode_ok|vm_compute; discriminate|lia|].
  exists info. split; [exact E|]. vm_compute in E. by injection E as <-.
Defined.
