(* ===== verification/Vfs.v ===== *)
(** * Virtual file system (src/src/fs/vfs.c)

    The descriptor table and every operation on it: initramfs files and
    directories, procfs snapshots, NPKFS files, pipes, epoll sets and shared
    memory objects.  Kernel objects that descriptors point to (pipes, epoll
    sets, shared objects, file buffers) live in finite maps keyed by their
    address, so that two descriptors share a pipe the way the code shares it.
    The heap, the frames, the keyboard and the procfs counters are the
    interface [VfsEnv]; the disk is inside the NPKFS state. *)

From Stdlib Require Import ZArith Lia Bool ZifyBool String.
From stdpp Require Import base numbers list gmap.
From S2P Require Import Prelude Kstring Path Newc Ata Npkfs Procfs.

Open Scope Z_scope.
Open Scope npk_scope.

Definition MAX_OPEN_DESCRIPTORS : Z := 64.
Definition OPEN_DESCRIPTOR_BASE : Z := MAX_INITRD_FILES.
Definition PROC_BUFFER_SIZE : Z := 4096.
Definition PIPE_CAPACITY : Z := 4096.
Definition EPOLL_MAX_WATCHES : Z := 32.
Definition SHM_MAX_PAGES : Z := 256.
Definition SHM_MAX_BYTES : Z := SHM_MAX_PAGES * NPK_PAGE_SIZE.
Definition NPK_VFS_POLLIN : Z := 1.
Definition NPK_VFS_POLLOUT : Z := 4.
Definition NPK_VFS_POLLERR : Z := 8.
Definition NPK_VFS_POLLHUP : Z := 16.
Definition NPK_O_WRONLY : Z := 1.
Definition NPK_O_RDWR : Z := 2.
Definition NPK_O_CREAT : Z := 64.
Definition NPK_O_TRUNC : Z := 512.
Definition NPK_O_APPEND : Z := 1024.

Class VfsEnv (K : Type) := {
  ve_kmalloc : K -> Z -> Z * K;
  ve_kfree : K -> Z -> K;
  ve_alloc_page : K -> Z * K;
  ve_free_page : K -> Z -> K;
  ve_zero_page : K -> Z -> K;
  ve_keyboard_has_data : K -> bool;
  ve_procinfo : K -> procinfo }.

Record pipe_object := Pipe { p_buffer : arr Z; p_head : Z; p_tail : Z; p_count : Z; p_readers : Z; p_writers : Z }.
Record shm_object := Shm { sh_size : Z; sh_page_count : Z; sh_pages : arr Z }.
Record epoll_watch := Watch { w_used : bool; w_fd : Z; w_events : Z; w_data : Z }.
Definition zero_watch : epoll_watch := Watch false 0 0 0.
(** The array of watches. *)
Definition epoll_object : Type := arr epoll_watch.

(** What [file.data] points to. *)
Inductive content := NoData | ArchiveData (bytes : list Z) | ProcData | PersistentData.

Record descriptor := Desc {
  f_name : option cstr; f_data : content; f_size : Z; d_offset : Z; d_refs : Z; d_used : bool; d_pseudo : bool; d_directory : bool;
  d_readable : bool; d_writable : bool; d_is_pipe : bool; d_is_epoll : bool; d_is_shm : bool; d_initrd_directory : bool;
  d_persistent : bool; d_persistent_directory : bool; d_persistent_inode : option nat; d_persistent_data : Z; d_pipe : Z; d_epoll : Z;
  d_shm : Z; d_proc_buffer : list Z }.

Definition zero_desc : descriptor :=
  Desc None NoData 0 0 0 false false false false false false false false false false false None 0 0 0 0 [].
(** What [allocate_descriptor] leaves: cleared, in use, one reference. *)
Definition fresh_desc : descriptor :=
  Desc None NoData 0 0 1 true false false false false false false false false false false None 0 0 0 0 [].

Definition with_offset (d : descriptor) (o : Z) : descriptor :=
  Desc (f_name d) (f_data d) (f_size d) o (d_refs d) (d_used d) (d_pseudo d) (d_directory d) (d_readable d) (d_writable d) (d_is_pipe d)
    (d_is_epoll d) (d_is_shm d) (d_initrd_directory d) (d_persistent d) (d_persistent_directory d) (d_persistent_inode d) (d_persistent_data d)
    (d_pipe d) (d_epoll d) (d_shm d) (d_proc_buffer d).
Definition with_refs (d : descriptor) (r : Z) : descriptor :=
  Desc (f_name d) (f_data d) (f_size d) (d_offset d) r (d_used d) (d_pseudo d) (d_directory d) (d_readable d) (d_writable d) (d_is_pipe d)
    (d_is_epoll d) (d_is_shm d) (d_initrd_directory d) (d_persistent d) (d_persistent_directory d) (d_persistent_inode d) (d_persistent_data d)
    (d_pipe d) (d_epoll d) (d_shm d) (d_proc_buffer d).
Definition with_fsize (d : descriptor) (size : Z) : descriptor :=
  Desc (f_name d) (f_data d) size (d_offset d) (d_refs d) (d_used d) (d_pseudo d) (d_directory d) (d_readable d) (d_writable d) (d_is_pipe d)
    (d_is_epoll d) (d_is_shm d) (d_initrd_directory d) (d_persistent d) (d_persistent_directory d) (d_persistent_inode d) (d_persistent_data d)
    (d_pipe d) (d_epoll d) (d_shm d) (d_proc_buffer d).

Definition directory_desc (name : cstr) (pseudo initrd persistent : bool) : descriptor :=
  Desc (Some name) NoData 0 0 1 true pseudo true true false false false false initrd false persistent None 0 0 0 0 [].
Definition persistent_desc (name : cstr) (size offset : Z) (readable writable : bool) (inode : nat) (data : Z) : descriptor :=
  Desc (Some name) PersistentData size offset 1 true false false readable writable false false false false true false (Some inode) data 0 0 0 [].
Definition proc_desc (name : cstr) (bytes : list Z) : descriptor :=
  Desc (Some name) ProcData (len bytes) 0 1 true true false true false false false false false false false None 0 0 0 0 bytes.
Definition initrd_desc (f : initrd_file) : descriptor :=
  Desc (Some (if_name f)) (ArchiveData (if_data f)) (if_size f) 0 1 true false false true false false false false false false false None 0 0 0 0 [].
Definition shm_desc (size shm : Z) : descriptor :=
  Desc (Some (str "npk-shm")) NoData size 0 1 true false false true true false false true false false false None 0 0 0 shm [].
Definition epoll_desc (epoll : Z) : descriptor :=
  Desc (Some (str "epoll")) NoData 0 0 1 true false false false false false true false false false false None 0 0 epoll 0 [].
Definition pipe_desc (pipe : Z) (readable writable : bool) : descriptor :=
  Desc (Some (str "pipe")) NoData 0 0 1 true false false readable writable true false false false false false None 0 pipe 0 0 [].

(** The entries of [files] below [OPEN_DESCRIPTOR_BASE] are the registered
    archive members ([v_initrd]); the ones above it are the open descriptors. *)
Record vfs (K : Type) := Vfs {
  v_files : arr descriptor; v_initrd : list initrd_file; v_npk : npkfs; v_pipes : gmap Z pipe_object; v_epolls : gmap Z epoll_object;
  v_shms : gmap Z shm_object; v_pdata : gmap Z (list Z); v_env : K }.
Arguments Vfs {K}. Arguments v_files {K}. Arguments v_initrd {K}. Arguments v_npk {K}. Arguments v_pipes {K}. Arguments v_epolls {K}.
Arguments v_shms {K}. Arguments v_pdata {K}. Arguments v_env {K}.

Section Operations.
Context {K : Type} `{VfsEnv K}.
Implicit Type s : vfs K.

Definition set_file s (fd : Z) (d : descriptor) : vfs K :=
  Vfs ((v_files s).[fd <- d]) (v_initrd s) (v_npk s) (v_pipes s) (v_epolls s) (v_shms s) (v_pdata s) (v_env s).
Definition set_npk s (n : npkfs) : vfs K :=
  Vfs (v_files s) (v_initrd s) n (v_pipes s) (v_epolls s) (v_shms s) (v_pdata s) (v_env s).
Definition set_pipes s (m : gmap Z pipe_object) : vfs K :=
  Vfs (v_files s) (v_initrd s) (v_npk s) m (v_epolls s) (v_shms s) (v_pdata s) (v_env s).
Definition set_epolls s (m : gmap Z epoll_object) : vfs K :=
  Vfs (v_files s) (v_initrd s) (v_npk s) (v_pipes s) m (v_shms s) (v_pdata s) (v_env s).
Definition set_shms s (m : gmap Z shm_object) : vfs K :=
  Vfs (v_files s) (v_initrd s) (v_npk s) (v_pipes s) (v_epolls s) m (v_pdata s) (v_env s).
Definition set_pdata s (m : gmap Z (list Z)) : vfs K :=
  Vfs (v_files s) (v_initrd s) (v_npk s) (v_pipes s) (v_epolls s) (v_shms s) m (v_env s).
Definition set_env s (k : K) : vfs K :=
  Vfs (v_files s) (v_initrd s) (v_npk s) (v_pipes s) (v_epolls s) (v_shms s) (v_pdata s) k.

Definition file_names s : list cstr := map if_name (v_initrd s).

(** [fd >= OPEN_DESCRIPTOR_BASE && fd < OPEN_DESCRIPTOR_BASE + MAX_OPEN_DESCRIPTORS && files[fd].used] *)
Definition open_fd s (fd : Z) : bool :=
  (fd >=? OPEN_DESCRIPTOR_BASE) && (fd <? OPEN_DESCRIPTOR_BASE + MAX_OPEN_DESCRIPTORS) && d_used (v_files s).[fd].

Definition kmalloc_in s (size : Z) : Z * vfs K := let '(p, k) := ve_kmalloc (v_env s) size in (p, set_env s k).
Definition kfree_in s (p : Z) : vfs K := set_env s (ve_kfree (v_env s) p).

(** Freeing a kernel object takes it out of its map. *)
Definition free_pipe s (p : Z) : vfs K := kfree_in (set_pipes s (delete p (v_pipes s))) p.
Definition free_epoll s (p : Z) : vfs K := kfree_in (set_epolls s (delete p (v_epolls s))) p.
Definition free_shm s (p : Z) : vfs K := kfree_in (set_shms s (delete p (v_shms s))) p.
Definition free_pdata s (p : Z) : vfs K := kfree_in (set_pdata s (delete p (v_pdata s))) p.

Definition allocate_descriptor s : Z * vfs K :=
  match find_index (fun i => negb (d_used (v_files s).[i])) OPEN_DESCRIPTOR_BASE (Z.to_nat MAX_OPEN_DESCRIPTORS) with
  | Some i => (i, set_file s i fresh_desc)
  | None => (-24, s)
  end.

Definition content_of s (d : descriptor) : list Z :=
  match f_data d with
  | NoData => []
  | ArchiveData bytes => bytes
  | ProcData => d_proc_buffer d
  | PersistentData => default [] (v_pdata s !! d_persistent_data d)
  end.

(** [persistent_sync_descriptor] with its checks on the descriptor. *)
Definition sync_descriptor s (fd : Z) : Z * vfs K :=
  let d := (v_files s).[fd] in
  match d_persistent d, d_persistent_inode d, v_pdata s !! d_persistent_data d with
  | true, Some inode, Some data =>
      let '(rc, n) := persistent_sync_descriptor (v_npk s) inode (f_size d) (chunk 512 128 data) in (rc, set_npk s n)
  | _, _, _ => (-9, s)
  end.

(** Opens a directory descriptor, undoing the allocation when the name does not fit. *)
Definition open_directory s (canonical : cstr) (pseudo initrd persistent : bool) : Z * vfs K :=
  let '(fd, s) := allocate_descriptor s in
  if fd <? 0 then (fd, s)
  else match copy_name VFS_NAME_CAPACITY canonical with
       | None => (-36, set_file s fd zero_desc)
       | Some name => (fd, set_file s fd (directory_desc name pseudo initrd persistent))
       end.

Definition open_persistent s (canonical name : cstr) (flags : Z) : Z * vfs K :=
  let write_requested := hasb flags (Z.lor NPK_O_WRONLY NPK_O_RDWR) in
  if negb (persistent_ready (v_npk s)) then (-19, s)
  else
    let inode := persistent_find (v_npk s) name in
    let '(inode, s) :=
      match inode with
      | None => if hasb flags NPK_O_CREAT then let '(r, n) := persistent_create (v_npk s) name in (r, set_npk s n) else (None, s)
      | Some _ => (inode, s)
      end in
    match inode with
    | None => (-2, s)
    | Some idx =>
        if write_requested && (Z.land (i_mode (inode_at (v_npk s) idx)) 128 =? 0) then (-13, s)
        else
          let '(fd, s) := allocate_descriptor s in
          if fd <? 0 then (fd, s)
          else
            let '(data, s) := kmalloc_in s PERSIST_FILE_BYTES in
            if data =? 0 then (-5, set_file s fd zero_desc)
            else
              let '(rc, secs, d) := ata_read_sectors (n_disk (v_npk s)) (i_start_sector (inode_at (v_npk s) idx)) PERSIST_DATA_SECTORS BUFFER in
              let s := set_npk s (with_disk (v_npk s) d) in
              if negb (rc =? 0) then (-5, set_file (kfree_in s data) fd zero_desc)
              else
                let name := default [] (copy_name VFS_NAME_CAPACITY canonical) in
                let desc size offset :=
                  persistent_desc name size offset (negb (hasb flags NPK_O_WRONLY)) write_requested idx data in
                let size := i_size (inode_at (v_npk s) idx) in
                let s := set_pdata s (<[data := concat secs]> (v_pdata s)) in
                let s := set_file s fd (desc size 0) in
                let '(rc, size, s) :=
                  if hasb flags NPK_O_TRUNC && write_requested then
                    let s := set_pdata s (<[data := replicate (Z.to_nat PERSIST_FILE_BYTES) 0]> (v_pdata s)) in
                    let s := set_file s fd (desc 0 0) in
                    let '(rc, s) := sync_descriptor s fd in (rc, 0, s)
                  else (0, size, s) in
                if negb (rc =? 0) then (-5, set_file (free_pdata s data) fd zero_desc)
                else (fd, set_file s fd (desc size (if hasb flags NPK_O_APPEND then size else 0)))
    end.

Definition open_proc s (canonical : cstr) : Z * vfs K :=
  let '(fd, s) := allocate_descriptor s in
  if fd <? 0 then (fd, s)
  else match procfs_snapshot (ve_procinfo (v_env s)) canonical PROC_BUFFER_SIZE, copy_name VFS_NAME_CAPACITY canonical with
       | inl code, _ => (code, set_file s fd zero_desc)
       | inr _, None => (-36, set_file s fd zero_desc)
       | inr bytes, Some name => (fd, set_file s fd (proc_desc name bytes))
       end.

Definition open_initrd s (canonical : cstr) : Z * vfs K :=
  match List.find (fun f => initrd_name_matches (if_name f) canonical) (v_initrd s) with
  | None => (-2, s)
  | Some f =>
      let '(fd, s) := allocate_descriptor s in
      if fd <? 0 then (fd, s) else (fd, set_file s fd (initrd_desc f))
  end.

Definition vfs_open_flags s (path : cstr) (flags : Z) : Z * vfs K :=
  match canonicalize_path path VFS_NAME_CAPACITY with
  | None => (-22, s)
  | Some canonical =>
      let write_requested := hasb flags (Z.lor NPK_O_WRONLY NPK_O_RDWR) in
      if strcmp canonical (str "/persist") =? 0 then
        if write_requested then (-21, s) else open_directory s (str "/persist") false false true
      else
        match persistent_extract_name canonical PERSIST_NAME_CAPACITY with
        | Some name => open_persistent s canonical name flags
        | None =>
            if write_requested then (-30, s)
            else if procfs_is_path canonical then open_proc s canonical
            else if (strcmp canonical (str "/") =? 0) || initrd_directory_exists (file_names s) canonical then
              let root := strcmp canonical (str "/") =? 0 in open_directory s canonical root (negb root) false
            else open_initrd s canonical
        end
  end.

Definition vfs_open s (path : cstr) : Z * vfs K := vfs_open_flags s path 0.

(** ** Shared memory *)

(** The page loop: the pages allocated so far, newest first. *)
Fixpoint shm_pages (k : K) (n : nat) (got : list Z) : option (list Z) * K :=
  match n with
  | O => (Some got, k)
  | S n' =>
      let '(page, k) := ve_alloc_page k in
      if page =? 0 then (None, foldl ve_free_page k (rev got))
      else shm_pages (ve_zero_page k page) n' (page :: got)
  end.

Definition pages_array (l : list Z) : arr Z := foldl (fun a ip => a.[ip.1 <- ip.2]) (afill 0) (imap (fun i p => (Z.of_nat i, p)) l).

Definition vfs_shm_create s (size : Z) : Z * vfs K :=
  if (size =? 0) || (size >? SHM_MAX_BYTES) || (size >? UINT64_MAX - (NPK_PAGE_SIZE - 1)) then (-22, s)
  else
    let page_count := (size + NPK_PAGE_SIZE - 1) / NPK_PAGE_SIZE in
    if (page_count =? 0) || (page_count >? SHM_MAX_PAGES) then (-22, s)
    else
      let '(fd, s) := allocate_descriptor s in
      if fd <? 0 then (fd, s)
      else
        let '(object, s) := kmalloc_in s 2064 in
        if object =? 0 then (-12, set_file s fd zero_desc)
        else
          let '(pages, k) := shm_pages (v_env s) (Z.to_nat page_count) [] in
          let s := set_env s k in
          match pages with
          | None => (-12, set_file (kfree_in s object) fd zero_desc)
          | Some l =>
              let s := set_shms s (<[object := Shm size page_count (pages_array (rev l))]> (v_shms s)) in
              (fd, set_file s fd (shm_desc size object))
          end.

Definition vfs_is_shared_memory s (fd : Z) : bool :=
  open_fd s fd && d_is_shm (v_files s).[fd] && negb (d_shm (v_files s).[fd] =? 0).

Definition shm_of s (fd : Z) : shm_object := default (Shm 0 0 (afill 0)) (v_shms s !! d_shm (v_files s).[fd]).

Definition vfs_shm_page s (fd page_index : Z) : Z :=
  if negb (vfs_is_shared_memory s fd) || (page_index >=? sh_page_count (shm_of s fd)) then 0
  else (sh_pages (shm_of s fd)).[page_index].

Definition vfs_shm_page_count s (fd : Z) : Z := if vfs_is_shared_memory s fd then sh_page_count (shm_of s fd) else 0.

(** ** References *)

Definition pipe_of s (fd : Z) : option pipe_object :=
  if d_pipe (v_files s).[fd] =? 0 then None else v_pipes s !! d_pipe (v_files s).[fd].
Definition with_ends (p : pipe_object) (r w : Z) : pipe_object := Pipe (p_buffer p) (p_head p) (p_tail p) (p_count p) r w.
Definition set_pipe s (fd : Z) (p : pipe_object) : vfs K := set_pipes s (<[d_pipe (v_files s).[fd] := p]> (v_pipes s)).

Definition vfs_retain s (fd : Z) : Z * vfs K :=
  if (fd =? 0) || (fd =? 1) || (fd =? 2) then (0, s)
  else if negb (open_fd s fd) || (d_refs (v_files s).[fd] =? UINT32_MAX) then (-9, s)
  else
    let d := (v_files s).[fd] in
    let s := set_file s fd (with_refs d (u32 (d_refs d + 1))) in
    match d_is_pipe d, pipe_of s fd with
    | true, Some p =>
        (0, set_pipe s fd (with_ends p (if d_readable d then u32 (p_readers p + 1) else p_readers p)
                                       (if d_writable d then u32 (p_writers p + 1) else p_writers p)))
    | _, _ => (0, s)
    end.

(** ** Reading *)

(** [amount] bytes from [head] on, and the new head. *)
Fixpoint pipe_take (amount : nat) (buffer : arr Z) (head : Z) : list Z * Z :=
  match amount with
  | O => ([], head)
  | S n => let '(bytes, h) := pipe_take n buffer ((head + 1) mod PIPE_CAPACITY) in (buffer.[head] :: bytes, h)
  end.

(** The result, the bytes stored at [buffer], the new state. *)
Definition vfs_read s (fd buffer count : Z) : Z * list Z * vfs K :=
  if negb (open_fd s fd) || negb (d_readable (v_files s).[fd]) then (-9, [], s)
  else if count =? 0 then (0, [], s)
  else if buffer =? 0 then (-14, [], s)
  else
    let d := (v_files s).[fd] in
    if d_is_pipe d then
      match pipe_of s fd with
      | None => (0, [], s)
      | Some p =>
          if p_count p =? 0 then (if negb (p_writers p =? 0) then -11 else 0, [], s)
          else
            let amount := if count <? p_count p then count else p_count p in
            let '(bytes, head) := pipe_take (Z.to_nat amount) (p_buffer p) (p_head p) in
            (amount, bytes, set_pipe s fd (Pipe (p_buffer p) head (p_tail p) (p_count p - amount) (p_readers p) (p_writers p)))
      end
    else if d_directory d then (-21, [], s)
    else if d_is_shm d then (-22, [], s)
    else if d_offset d >=? f_size d then (0, [], s)
    else
      let remaining := f_size d - d_offset d in
      let count := if count >? remaining then remaining else count in
      (count, slice (content_of s d) (d_offset d) count, set_file s fd (with_offset d (d_offset d + count))).

Definition vfs_read_at s (fd buffer count offset : Z) : Z * list Z :=
  let d := (v_files s).[fd] in
  if negb (open_fd s fd) || negb (d_readable d) || d_is_pipe d || d_is_shm d || d_directory d then (-9, [])
  else if count =? 0 then (0, [])
  else if (buffer =? 0) || (offset >? f_size d) then (-14, [])
  else
    let remaining := f_size d - offset in
    let count := if count >? remaining then remaining else count in
    (count, slice (content_of s d) offset count).

Definition has_data (d : descriptor) : bool := match f_data d with NoData => false | _ => true end.

Definition vfs_file_backed s (fd : Z) : bool :=
  let d := (v_files s).[fd] in
  if negb (open_fd s fd) || d_pseudo d || d_persistent d || d_is_pipe d || d_is_epoll d || d_directory d || negb (d_readable d) || d_writable d
  then false
  else has_data d || (f_size d =? 0).

(** ** Writing *)

Fixpoint pipe_put (bytes : list Z) (buffer : arr Z) (tail : Z) : arr Z * Z :=
  match bytes with
  | [] => (buffer, tail)
  | b :: bytes' => pipe_put bytes' (buffer.[tail <- b]) ((tail + 1) mod PIPE_CAPACITY)
  end.

(** [memcpy(data + offset, bytes, ...)] *)
Definition overwrite (data : list Z) (offset : Z) (bytes : list Z) : list Z :=
  take (Z.to_nat offset) data ++ bytes ++ drop (Z.to_nat offset + length bytes) data.

Definition write_persistent s (fd : Z) (bytes : list Z) : Z * vfs K :=
  let d := (v_files s).[fd] in
  match d_persistent_inode d, v_pdata s !! d_persistent_data d with
  | Some idx, Some data =>
      if d_offset d >? PERSIST_FILE_BYTES then (-27, s)
      else
        let amount := if len bytes >? PERSIST_FILE_BYTES - d_offset d then PERSIST_FILE_BYTES - d_offset d else len bytes in
        if amount =? 0 then (-27, s)
        else
          let old_size := f_size d in
          let s := set_pdata s (<[d_persistent_data d := overwrite data (d_offset d) (take (Z.to_nat amount) bytes)]> (v_pdata s)) in
          let offset := d_offset d + amount in
          let d1 := with_offset d offset in
          let s := set_file s fd (if offset >? old_size then with_fsize d1 offset else d1) in
          let '(rc, s) := sync_descriptor s fd in
          if negb (rc =? 0) then
            let '(_, secs, dk) := ata_read_sectors (n_disk (v_npk s)) (i_start_sector (inode_at (v_npk s) idx)) PERSIST_DATA_SECTORS BUFFER in
            let s := set_npk s (with_disk (v_npk s) dk) in
            let now := default [] (v_pdata s !! d_persistent_data d) in
            let s := set_pdata s (<[d_persistent_data d := concat secs ++ drop (512 * length secs) now]> (v_pdata s)) in
            (-5, set_file s fd (with_offset (with_fsize d old_size) (if offset >? old_size then old_size else offset)))
          else (amount, s)
  | _, _ => (-5, s)
  end.

Definition vfs_write s (fd buffer : Z) (bytes : list Z) : Z * vfs K :=
  if negb (open_fd s fd) || negb (d_writable (v_files s).[fd]) then (-9, s)
  else if len bytes =? 0 then (0, s)
  else if buffer =? 0 then (-14, s)
  else
    let d := (v_files s).[fd] in
    if d_is_shm d then (-22, s)
    else if d_persistent d then write_persistent s fd bytes
    else
      match d_is_pipe d, pipe_of s fd with
      | true, Some p =>
          if p_readers p =? 0 then (-32, s)
          else
            let available := PIPE_CAPACITY - p_count p in
            if available =? 0 then (-11, s)
            else
              let amount := if len bytes <? available then len bytes else available in
              let '(buf, tail) := pipe_put (take (Z.to_nat amount) bytes) (p_buffer p) (p_tail p) in
              (amount, set_pipe s fd (Pipe buf (p_head p) tail (p_count p + amount) (p_readers p) (p_writers p)))
      | _, _ => (-9, s)
      end.

(** ** Closing *)

Definition watch_at s (fd i : Z) : epoll_watch :=
  (default (afill zero_watch) (v_epolls s !! d_epoll (v_files s).[fd] : option epoll_object)).[i].
Definition set_watch s (fd i : Z) (w : epoll_watch) : vfs K :=
  let p := d_epoll (v_files s).[fd] in
  match (v_epolls s !! p : option epoll_object) with Some e => set_epolls s (<[p := e.[i <- w]]> (v_epolls s)) | None => s end.

(** The loop over the watches [ws] of the epoll set [fd]. *)
Fixpoint close_watches (close : vfs K -> Z -> option (Z * vfs K)) s (fd : Z) (ws : list Z) : option (vfs K) :=
  match ws with
  | [] => Some s
  | i :: ws' =>
      let w := watch_at s fd i in
      if w_used w then
        match close s (w_fd w) with
        | None => None
        | Some (_, s) => close_watches close (set_watch s fd i zero_watch) fd ws'
        end
      else close_watches close s fd ws'
  end.

Definition watch_indices : list Z := seqZ 0 EPOLL_MAX_WATCHES.

Definition drop_end s (fd : Z) : vfs K :=
  let d := (v_files s).[fd] in
  match d_is_pipe d, pipe_of s fd with
  | true, Some p =>
      set_pipe s fd (with_ends p (if d_readable d && negb (p_readers p =? 0) then p_readers p - 1 else p_readers p)
                                 (if d_writable d && negb (p_writers p =? 0) then p_writers p - 1 else p_writers p))
  | _, _ => s
  end.

(** What the last reference takes down once the watches are closed. *)
Definition release s (fd : Z) : vfs K :=
  let d := (v_files s).[fd] in
  let s := if d_is_epoll d && negb (d_epoll d =? 0) then free_epoll s (d_epoll d) else s in
  let s :=
    if d_is_shm d && negb (d_shm d =? 0) then
      let o := shm_of s fd in
      let k := for_range (fun i k => if negb ((sh_pages o).[i] =? 0) then ve_free_page k (sh_pages o).[i] else k) 0 (Z.to_nat (sh_page_count o)) (v_env s) in
      free_shm (set_env s k) (d_shm d)
    else s in
  let s := if d_persistent d && negb (d_persistent_data d =? 0) then free_pdata (sync_descriptor s fd).2 (d_persistent_data d) else s in
  let pipe := pipe_of s fd in
  let s := set_file s fd zero_desc in
  match pipe with
  | Some p => if (p_readers p =? 0) && (p_writers p =? 0) then free_pipe s (d_pipe d) else s
  | None => s
  end.

Fixpoint vfs_close_fuel (fuel : nat) s (fd : Z) : option (Z * vfs K) :=
  match fuel with
  | O => None
  | S fuel' =>
      if (fd =? 0) || (fd =? 1) || (fd =? 2) then Some (0, s)
      else if negb (open_fd s fd) || (d_refs (v_files s).[fd] =? 0) then Some (-9, s)
      else
        let s := drop_end s fd in
        let d := (v_files s).[fd] in
        let s := set_file s fd (with_refs d (d_refs d - 1)) in
        if negb (d_refs d - 1 =? 0) then Some (0, s)
        else
          let watched := if d_is_epoll d && negb (d_epoll d =? 0) then close_watches (vfs_close_fuel fuel') s fd watch_indices else Some s in
          match watched with
          | None => None
          | Some s => Some (0, release s fd)
          end
  end.

(** The references of all the open descriptors. *)
Definition total_refs s : Z := for_range (fun i n => n + d_refs (v_files s).[i]) OPEN_DESCRIPTOR_BASE (Z.to_nat MAX_OPEN_DESCRIPTORS) 0.

(** Each nested call drops a reference: one level more than there are
    references is enough. *)
Definition vfs_close s (fd : Z) : Z * vfs K := default (-9, s) (vfs_close_fuel (S (Z.to_nat (total_refs s))) s fd).

(** ** Readiness *)

(** The loop over the watches of an epoll set, up to the first that is ready. *)
Fixpoint poll_watches (poll : Z -> Z -> option Z) s (fd : Z) (ws : list Z) : option Z :=
  match ws with
  | [] => Some 0
  | i :: ws' =>
      let w := watch_at s fd i in
      if w_used w then
        match poll (w_fd w) (w_events w) with
        | None => None
        | Some e => if negb (e =? 0) then Some NPK_VFS_POLLIN else poll_watches poll s fd ws'
        end
      else poll_watches poll s fd ws'
  end.

Fixpoint vfs_poll_events (fuel : nat) s (fd requested : Z) : option Z :=
  match fuel with
  | O => None
  | S fuel' =>
      if (fd =? 1) || (fd =? 2) then Some (Z.land requested NPK_VFS_POLLOUT)
      else if fd =? 0 then Some (if ve_keyboard_has_data (v_env s) then Z.land requested NPK_VFS_POLLIN else 0)
      else if negb (open_fd s fd) then Some NPK_VFS_POLLERR
      else
        let d := (v_files s).[fd] in
        let mask := Z.lor (Z.lor requested NPK_VFS_POLLERR) NPK_VFS_POLLHUP in
        match d_is_pipe d, pipe_of s fd with
        | true, Some p =>
            let r := if d_readable d && (negb (p_count p =? 0) || (p_writers p =? 0))
                     then (if negb (p_count p =? 0) then NPK_VFS_POLLIN else NPK_VFS_POLLHUP) else 0 in
            let w := if d_writable d && (p_readers p =? 0) then Z.lor NPK_VFS_POLLERR NPK_VFS_POLLHUP
                     else if d_writable d && (p_count p <? PIPE_CAPACITY) then NPK_VFS_POLLOUT else 0 in
            Some (Z.land (Z.lor r w) mask)
        | _, _ =>
            if d_is_epoll d && negb (d_epoll d =? 0) then
              match poll_watches (vfs_poll_events fuel' s) s fd watch_indices with
              | None => None
              | Some ready => Some (Z.land ready mask)
              end
            else if d_is_shm d then Some 0
            else Some (Z.land (Z.lor (if d_readable d then NPK_VFS_POLLIN else 0) (if d_writable d then NPK_VFS_POLLOUT else 0)) mask)
        end
  end.

(** ** Epoll sets *)

Definition vfs_epoll_create s : Z * vfs K :=
  let '(fd, s) := allocate_descriptor s in
  if fd <? 0 then (fd, s)
  else
    let '(object, s) := kmalloc_in s 768 in
    if object =? 0 then (-12, set_file s fd zero_desc)
    else (fd, set_file (set_epolls s (<[object := afill zero_watch]> (v_epolls s))) fd (epoll_desc object)).

Definition epoll_fd s (fd : Z) : bool := open_fd s fd && d_is_epoll (v_files s).[fd] && negb (d_epoll (v_files s).[fd] =? 0).

(** The last watch of [fd], and the first free slot. *)
Definition find_watch s (epfd fd : Z) : option Z * option Z :=
  for_range (fun i st =>
    let w := watch_at s epfd i in
    (if w_used w && (w_fd w =? fd) then Some i else st.1,
     match st.2 with None => if negb (w_used w) then Some i else None | Some _ => st.2 end)) 0 (Z.to_nat EPOLL_MAX_WATCHES) (None, None).

Definition vfs_epoll_ctl s (epfd operation fd events data : Z) : Z * vfs K :=
  if negb (epoll_fd s epfd) || (fd <? 0) ||
     ((fd >=? OPEN_DESCRIPTOR_BASE + MAX_OPEN_DESCRIPTORS) && negb (fd =? 1) && negb (fd =? 2)) || (fd =? epfd) then (-9, s)
  else if (fd >=? OPEN_DESCRIPTOR_BASE) && negb (d_used (v_files s).[fd]) then (-9, s)
  else
    let '(found, free_slot) := find_watch s epfd fd in
    if operation =? 1 then
      match found, free_slot with
      | Some _, _ => (-17, s)
      | None, None => (-28, s)
      | None, Some i =>
          let '(rc, s) := vfs_retain s fd in
          if negb (rc =? 0) then (-28, s) else (0, set_watch s epfd i (Watch true fd events data))
      end
    else if operation =? 2 then
      match found with
      | None => (-2, s)
      | Some i => let '(_, s) := vfs_close s (w_fd (watch_at s epfd i)) in (0, set_watch s epfd i zero_watch)
      end
    else if operation =? 3 then
      match found with
      | None => (-2, s)
      | Some i => let w := watch_at s epfd i in (0, set_watch s epfd i (Watch (w_used w) (w_fd w) events data))
      end
    else (-22, s).

(** The events stored, as pairs of the watch data and the ready mask. *)
Fixpoint wait_loop (fuel : nat) s (epfd : Z) (room : Z) (ws : list Z) : option (list (Z * Z)) :=
  match ws with
  | [] => Some []
  | i :: ws' =>
      if room <=? 0 then Some []
      else
        let w := watch_at s epfd i in
        if negb (w_used w) then wait_loop fuel s epfd room ws'
        else match vfs_poll_events fuel s (w_fd w) (w_events w) with
             | None => None
             | Some ready =>
                 if ready =? 0 then wait_loop fuel s epfd room ws'
                 else rest ← wait_loop fuel s epfd (room - 1) ws'; Some ((w_data w, ready) :: rest)
             end
  end.

Definition vfs_epoll_wait (fuel : nat) s (epfd events capacity : Z) : option (Z * list (Z * Z)) :=
  if negb (epoll_fd s epfd) then Some (-9, [])
  else if (events =? 0) || (capacity =? 0) then Some (0, [])
  else l ← wait_loop fuel s epfd capacity watch_indices; Some (Z.of_nat (length l), l).

(** ** Syncing, size, position, status *)

Definition vfs_sync_fd s (fd : Z) : Z * vfs K :=
  if negb (open_fd s fd) then (-9, s)
  else if d_persistent (v_files s).[fd] then sync_descriptor s fd else (0, s).

Definition vfs_sync_all s : Z * vfs K :=
  for_range (fun i st =>
    let '(result, s) := st in
    if negb (d_used (v_files s).[i]) || negb (d_persistent (v_files s).[i]) then (result, s)
    else let '(status, s) := sync_descriptor s i in (if (status <? 0) && (result =? 0) then status else result, s))
    OPEN_DESCRIPTOR_BASE (Z.to_nat MAX_OPEN_DESCRIPTORS) (0, s).

Definition pipe_count s (fd : Z) : Z := match pipe_of s fd with Some p => p_count p | None => 0 end.

Definition vfs_size s (fd : Z) : Z :=
  if negb (open_fd s fd) then -9
  else if d_is_pipe (v_files s).[fd] then pipe_count s fd
  else if d_directory (v_files s).[fd] then 0 else f_size (v_files s).[fd].

Definition vfs_seek s (fd offset whence : Z) : Z * vfs K :=
  if negb (open_fd s fd) then (-9, s)
  else
    let d := (v_files s).[fd] in
    if d_directory d || d_is_pipe d || d_is_shm d then (-29, s)
    else
      let base := if whence =? 0 then 0 else if whence =? 1 then i64 (d_offset d) else if whence =? 2 then i64 (f_size d) else INT64_MIN in
      if (base =? INT64_MIN) || ((offset >? 0) && (base >? INT64_MAX - offset)) || ((offset <? 0) && (base <? INT64_MIN - offset)) then (-22, s)
      else
        let target := base + offset in
        if target <? 0 then (-22, s) else (target, set_file s fd (with_offset d target)).

Record vfs_stat := Stat { st_inode : Z; st_mode : Z; st_uid : Z; st_gid : Z; st_size : Z; st_blocks : Z; st_is_directory : Z }.

Definition vfs_stat_fd s (fd status : Z) : Z * option vfs_stat :=
  if status =? 0 then (-14, None)
  else if negb (open_fd s fd) then (-9, None)
  else
    let d := (v_files s).[fd] in
    let mode := if d_is_pipe d then 0x11b6 else if d_directory d then 0x416d else if d_is_shm d then 0x81b6
                else if d_persistent d then match d_persistent_inode d with Some i => i_mode (inode_at (v_npk s) i) | None => 0 end
                else 0x8124 in
    let size := if d_is_pipe d then pipe_count s fd else if d_directory d then 0 else f_size d in
    (0, Some (Stat (fd + 1) mode 0 0 size (u64 (size + 511) / 512) (if d_directory d then 1 else 0))).

(** ** Directories *)

Definition DIRENT_HEADER : Z := 19.
Definition dirent_length (name : cstr) : Z := Z.land (DIRENT_HEADER + (strlen name + 1) + 7) (not64 7).

(** One record: the header, the name with its terminator, and padding. *)
Definition dirent (inode offset type : Z) (name : cstr) : list Z :=
  let n := dirent_length name in
  let bytes := le_bytes 8 inode ++ le_bytes 8 offset ++ le_bytes 2 n ++ [type] ++ text name ++ [0] in
  bytes ++ replicate (Z.to_nat n - length bytes) 0.

(** The loop of the NPKFS directory; the result, the records and the offset. *)
Fixpoint persist_dents (fuel : nat) s (capacity offset : Z) (out : list Z) : Z * list Z * Z :=
  match fuel with
  | O => (len out, out, offset)
  | S fuel' =>
      if negb (offset <? PERSIST_MAX_FILES) then (len out, out, offset)
      else
        let i := inode_at (v_npk s) (Z.to_nat offset) in
        if i_used i =? 0 then persist_dents fuel' s capacity (offset + 1) out
        else
          let n := dirent_length (i_name i) in
          if n >? 65535 then (-22, out, offset + 1)
          else if n >? capacity - len out then
            (if len out =? 0 then (-22, out, offset + 1) else (len out, out, offset))
          else persist_dents fuel' s capacity (offset + 1) (out ++ dirent (offset + 2) (offset + 1) 8 (i_name i))
  end.

(** The entry at a position of a directory of the initramfs. *)
Definition entry_at s (directory : cstr) (entry : Z) : option (cstr * bool) :=
  if entry =? 0 then Some (str ".", false)
  else if entry =? 1 then Some (str "..", false)
  else
    let child_index := entry - 2 in
    if (strcmp directory (str "/") =? 0) && persistent_ready (v_npk s) then
      if child_index =? 0 then Some (str "persist", true)
      else initrd_child_at (file_names s) directory (child_index - 1) VFS_NAME_CAPACITY
    else initrd_child_at (file_names s) directory child_index VFS_NAME_CAPACITY.

Fixpoint initrd_dents (fuel : nat) s (directory : cstr) (capacity offset : Z) (out : list Z) : Z * list Z * Z :=
  match fuel with
  | O => (len out, out, offset)
  | S fuel' =>
      match entry_at s directory offset with
      | None => (len out, out, offset + 1)
      | Some (name, child_directory) =>
          let n := dirent_length name in
          if n >? 65535 then (-22, out, offset + 1)
          else if n >? capacity - len out then
            (if len out =? 0 then (-22, out, offset + 1) else (len out, out, offset))
          else initrd_dents fuel' s directory capacity (offset + 1)
                 (out ++ dirent (offset + 1) (offset + 1) (if (offset <? 2) || child_directory then 4 else 8) name)
      end
  end.

(** Every round of the first loop advances the offset, every round of the
    second one stores a record of at least 24 bytes or leaves the loop. *)
Definition vfs_getdents64 s (fd buffer capacity : Z) : Z * list Z * vfs K :=
  if negb (open_fd s fd) then (-9, [], s)
  else if buffer =? 0 then (-14, [], s)
  else
    let d := (v_files s).[fd] in
    if negb (d_directory d) then (-20, [], s)
    else
      let '(rc, out, offset) :=
        if d_persistent_directory d then persist_dents (S (Z.to_nat PERSIST_MAX_FILES)) s capacity (d_offset d) []
        else initrd_dents (S (Z.to_nat capacity)) s (default (str "/") (f_name d)) capacity (d_offset d) [] in
      (rc, out, set_file s fd (with_offset d offset)).

(** ** Pipes and initialisation *)

Definition vfs_pipe_create s : Z * option (Z * Z) * vfs K :=
  let '(pipe, s) := kmalloc_in s 4128 in
  if pipe =? 0 then (-12, None, s)
  else
    let s := set_pipes s (<[pipe := Pipe (afill 0) 0 0 0 0 0]> (v_pipes s)) in
    let '(reader, s) := allocate_descriptor s in
    let '(writer, s) := allocate_descriptor s in
    if (reader <? 0) || (writer <? 0) then
      let s := if reader >=? 0 then set_file s reader zero_desc else s in
      let s := if writer >=? 0 then set_file s writer zero_desc else s in
      (-24, None, free_pipe s pipe)
    else
      let s := set_file s reader (pipe_desc pipe true false) in
      let s := set_file s writer (pipe_desc pipe false true) in
      (0, Some (reader, writer), set_pipes s (<[pipe := Pipe (afill 0) 0 0 0 1 1]> (v_pipes s))).

(** The modules of the boot loader: the first that starts like an archive is
    unpacked.  [None]: the parser read outside the archive. *)
Definition vfs_init (npk : npkfs) (modules : list (list Z)) (k : K) : option (vfs K) :=
  let npk := persistent_init (with_inodes (with_super npk zero_super) (replicate 64 zero_inode)) in
  let s := Vfs (afill zero_desc) [] npk ∅ ∅ ∅ ∅ k in
  match List.find (fun m => (len m >=? 6) && (strncmp m NEWC_MAGIC 6 =? 0)) modules with
  | None => Some s
  | Some m =>
      match parse_newc m (len m) [] with
      | None => None
      | Some l => Some (Vfs (afill zero_desc) l npk ∅ ∅ ∅ ∅ k)
      end
  end.

End Operations.

(** ** An example

    A heap that hands out the address after the highest one in use; the set
    holds the addresses in use. *)
Definition heap_example : VfsEnv (gset Z) := {|
  ve_kmalloc live _ := let p := 1 + foldr Z.max 0 (elements live) in (p, {[ p ]} ∪ live);
  ve_kfree live p := live ∖ {[ p ]};
  ve_alloc_page live := (0x200000, live);
  ve_free_page live _ := live;
  ve_zero_page live _ := live;
  ve_keyboard_has_data _ := false;
  ve_procinfo _ := ProcInfo 0 1000 4096 1024 (Some (1, true)) |}.

(** The VFS of a machine without a disk and without an archive. *)
Definition vfs_example : vfs (gset Z) :=
  Vfs (afill zero_desc) [] (persistent_init (Npkfs zero_super (replicate 64 zero_inode) (replicate 64 zero_inode) false false
    (Disk false false 0 (afill []) [] []))) ∅ ∅ ∅ ∅ ∅.
