(* ===== verification/VfsPipe.v ===== *)
(** * Pipes of the VFS

    A pipe is a ring of 4096 bytes; the operations refine an unbounded queue
    cut at the capacity, and what [vfs_poll_events] reports is what the next
    read or write will do. *)

From Stdlib Require Import ZArith Lia Bool ZifyBool.
From stdpp Require Import base numbers list gmap.
From S2P Require Import Prelude Kstring Path Newc Ata Npkfs Procfs Vfs.

Open Scope Z_scope.
Open Scope npk_scope.

(** ** The ring *)

Record pipe_wf (p : pipe_object) : Prop := {
  pw_head : 0 <= p_head p < PIPE_CAPACITY;
  pw_count : 0 <= p_count p <= PIPE_CAPACITY;
  pw_tail : p_tail p = (p_head p + p_count p) mod PIPE_CAPACITY }.

(** The bytes waiting in the pipe, oldest first. *)
Definition queue (p : pipe_object) : list Z := ring PIPE_CAPACITY (p_buffer p) (p_head p) (Z.to_nat (p_count p)).

Lemma pipe_take_ring n buffer head :
  0 <= head < PIPE_CAPACITY -> pipe_take n buffer head = (ring PIPE_CAPACITY buffer head n, (head + Z.of_nat n) mod PIPE_CAPACITY).
Proof.
  revert head; induction n as [|n IH]; intros head Hh.
  - cbn. by rewrite Z.add_0_r, Z.mod_small.
  - cbn [pipe_take]. rewrite IH by (apply Z.mod_pos_bound; done). rewrite ring_S by done. f_equal.
    rewrite Zplus_mod_idemp_l. f_equal. lia.
Qed.

Lemma pipe_put_other bytes buffer tail j :
  0 <= tail < PIPE_CAPACITY -> (forall i, 0 <= i < len bytes -> j <> (tail + i) mod PIPE_CAPACITY) ->
  (pipe_put bytes buffer tail).1.[j] = buffer.[j].
Proof.
  revert buffer tail; induction bytes as [|b bytes IH]; intros buffer tail Ht Hj; [done|].
  cbn [pipe_put]. rewrite IH.
  - apply aget_aset_ne. specialize (Hj 0). rewrite Z.add_0_r, Z.mod_small in Hj by done. unfold len in Hj. cbn in Hj. intros ->. apply Hj; lia.
  - apply Z.mod_pos_bound. done.
  - intros i Hi. rewrite Zplus_mod_idemp_l. replace (tail + 1 + i) with (tail + (i + 1)) by lia. apply Hj. unfold len in *. cbn [length]. lia.
Qed.

Lemma pipe_put_tail bytes buffer tail :
  0 <= tail < PIPE_CAPACITY -> (pipe_put bytes buffer tail).2 = (tail + len bytes) mod PIPE_CAPACITY.
Proof.
  revert buffer tail; induction bytes as [|b bytes IH]; intros buffer tail Ht; [cbn; by rewrite Z.add_0_r, Z.mod_small|].
  cbn [pipe_put]. rewrite IH by (apply Z.mod_pos_bound; done). rewrite Zplus_mod_idemp_l. f_equal. unfold len. cbn [length]. lia.
Qed.

Lemma pipe_put_ring bytes buffer tail :
  0 <= tail < PIPE_CAPACITY -> len bytes <= PIPE_CAPACITY ->
  ring PIPE_CAPACITY (pipe_put bytes buffer tail).1 tail (length bytes) = bytes.
Proof.
  revert buffer tail; induction bytes as [|b bytes IH]; intros buffer tail Ht Hl; [done|].
  cbn [pipe_put length]. unfold len in Hl. cbn [length] in Hl. rewrite ring_S by done. f_equal.
  - rewrite pipe_put_other.
    + apply aget_aset_eq.
    + apply Z.mod_pos_bound. done.
    + intros i Hi. unfold len in Hi. rewrite Zplus_mod_idemp_l. unfold PIPE_CAPACITY in *.
      destruct (decide (tail + 1 + i < 4096)); [rewrite Z.mod_small by lia; lia|].
      rewrite <-(Z.mod_unique (tail + 1 + i) 4096 1 (tail + 1 + i - 4096)) by lia. lia.
  - apply IH; [apply Z.mod_pos_bound; done|unfold len; lia].
Qed.

(** Taking [n] of the waiting bytes. *)
Lemma queue_take p n :
  pipe_wf p -> 0 <= n <= p_count p ->
  let '(bytes, head) := pipe_take (Z.to_nat n) (p_buffer p) (p_head p) in
  let p' := Pipe (p_buffer p) head (p_tail p) (p_count p - n) (p_readers p) (p_writers p) in
  pipe_wf p' /\ queue p = bytes ++ queue p' /\ length bytes = Z.to_nat n.
Proof.
  intros [H1 H2 H3] Hn. rewrite pipe_take_ring by done. cbv zeta. split.
  { constructor; cbn [p_head p_count p_tail]; [apply Z.mod_pos_bound; done|lia|]. rewrite Zplus_mod_idemp_l, H3. f_equal. lia. }
  split; [|apply ring_length]. unfold queue. cbn [p_buffer p_head p_count]. rewrite <-ring_app. f_equal. lia.
Qed.

(** Adding bytes that fit. *)
Lemma queue_put p bytes :
  pipe_wf p -> len bytes <= PIPE_CAPACITY - p_count p ->
  let '(buf, tail) := pipe_put bytes (p_buffer p) (p_tail p) in
  let p' := Pipe buf (p_head p) tail (p_count p + len bytes) (p_readers p) (p_writers p) in
  pipe_wf p' /\ queue p' = queue p ++ bytes.
Proof.
  intros [H1 H2 H3] Hl. assert (Ht : 0 <= p_tail p < PIPE_CAPACITY) by (rewrite H3; apply Z.mod_pos_bound; done).
  pose proof (pipe_put_tail bytes (p_buffer p) (p_tail p) Ht) as Htail. pose proof (pipe_put_ring bytes (p_buffer p) (p_tail p) Ht) as Hring.
  pose proof (fun j => pipe_put_other bytes (p_buffer p) (p_tail p) j Ht) as Hother.
  destruct (pipe_put bytes (p_buffer p) (p_tail p)) as [buf tail]. cbn [fst snd] in *. unfold len in *. split.
  { constructor; cbn [p_head p_count p_tail]; [done|lia|]. rewrite Htail, H3, Zplus_mod_idemp_l. f_equal. lia. }
  unfold queue. cbn [p_buffer p_head p_count]. rewrite Z2Nat.inj_add, Nat2Z.id, ring_app by lia. rewrite Z2Nat.id by lia. rewrite <-H3, Hring by lia.
  f_equal. apply ring_ext. intros i Hi. apply Hother. intros k Hk. rewrite H3, Zplus_mod_idemp_l. intros Heq. unfold PIPE_CAPACITY in *.
  assert (Hd : ((p_head p + p_count p + k) - (p_head p + i)) mod 4096 = 0) by (rewrite Zminus_mod, Heq, Z.sub_diag; done).
  replace (p_head p + p_count p + k - (p_head p + i)) with (p_count p + k - i) in Hd by lia. rewrite Z.mod_small in Hd by lia. lia.
Qed.

Section Pipes.
Context {K : Type} `{VfsEnv K}.
Implicit Type s : vfs K.

(** [fd] is the reading (or writing) end of the pipe [p] at [ptr]. *)
Record pipe_end s (fd ptr : Z) (reading : bool) (p : pipe_object) : Prop := {
  pe_open : open_fd s fd = true;
  pe_pipe : d_is_pipe (v_files s).[fd] = true;
  pe_ptr : d_pipe (v_files s).[fd] = ptr /\ ptr <> 0;
  pe_readable : d_readable (v_files s).[fd] = reading;
  pe_writable : d_writable (v_files s).[fd] = negb reading;
  pe_plain : d_is_shm (v_files s).[fd] = false /\ d_persistent (v_files s).[fd] = false;
  pe_object : v_pipes s !! ptr = Some p }.

Lemma pipe_end_of s fd ptr reading p : pipe_end s fd ptr reading p -> pipe_of s fd = Some p.
Proof. intros [_ _ [H1 H2] _ _ _ H3]. unfold pipe_of. rewrite H1. by replace (ptr =? 0) with false by lia. Qed.

(** A step that replaces the object keeps both ends. *)
Lemma pipe_end_step s fd fd' ptr reading reading' p p0 p' :
  pipe_end s fd ptr reading p -> pipe_end s fd' ptr reading' p0 -> pipe_end (set_pipe s fd p') fd' ptr reading' p'.
Proof.
  intros [H1 H2 [H3 H3'] H4 H5 H6 H7] [E1 E2 E3 E4 E5 E6 E7]. constructor; try done. cbn. rewrite H3. by rewrite lookup_insert_eq.
Qed.

Lemma vfs_read_pipe s fd ptr p buf count :
  pipe_end s fd ptr true p -> pipe_wf p -> buf <> 0 -> 0 < count ->
  let n := Z.min count (len (queue p)) in
  exists s', vfs_read s fd buf count =
    ((if n =? 0 then (if p_writers p =? 0 then 0 else -11) else n), take (Z.to_nat n) (queue p), s') /\
    exists p', (forall fd' r q, pipe_end s fd' ptr r q -> pipe_end s' fd' ptr r p') /\ pipe_wf p' /\
      queue p' = drop (Z.to_nat n) (queue p) /\ p_readers p' = p_readers p /\ p_writers p' = p_writers p.
Proof.
  intros He Hw Hb Hc n. pose proof (pipe_end_of _ _ _ _ _ He) as Hp. pose proof He as [H1 H2 _ H4 _ _ H7].
  assert (Hl : len (queue p) = p_count p) by (unfold len, queue; rewrite ring_length; pose proof (pw_count p Hw); lia).
  unfold vfs_read. rewrite H1, H4. cbn [negb orb]. replace (count =? 0) with false by lia. replace (buf =? 0) with false by lia.
  rewrite H2, Hp. pose proof (pw_count p Hw) as Hpc. destruct (p_count p =? 0) eqn:E0.
  - exists s. assert (Hn : n = 0) by (unfold n; lia). rewrite Hn. cbn [Z.eqb Z.to_nat take drop]. rewrite take_0, drop_0.
    split; [by destruct (p_writers p =? 0)|]. exists p. split; [|done]. intros fd' r q Hq.
    replace p with q; [done|]. destruct Hq as [_ _ _ _ _ _ Hq]. congruence.
  - assert (Hn : (if count <? p_count p then count else p_count p) = n) by (unfold n; rewrite Hl; destruct (count <? p_count p) eqn:E; lia).
    rewrite Hn. pose proof (queue_take p n Hw) as Ht. destruct (pipe_take (Z.to_nat n) (p_buffer p) (p_head p)) as [bytes head].
    destruct Ht as (Hw' & Hq & Hbl); [unfold n; lia|]. eexists. split.
    + replace (n =? 0) with false by (unfold n; lia). rewrite Hq, take_app_length' by done. reflexivity.
    + eexists. split; [intros fd' r q Hq'; eapply pipe_end_step; eauto|]. split; [exact Hw'|]. split; [by rewrite Hq, drop_app_length'|done].
Qed.

Lemma vfs_write_pipe s fd ptr p buf bytes :
  pipe_end s fd ptr false p -> pipe_wf p -> buf <> 0 -> bytes <> [] ->
  let n := if p_readers p =? 0 then 0 else Z.min (len bytes) (PIPE_CAPACITY - len (queue p)) in
  exists s', vfs_write s fd buf bytes = ((if n =? 0 then (if p_readers p =? 0 then -32 else -11) else n), s') /\
    exists p', (forall fd' r q, pipe_end s fd' ptr r q -> pipe_end s' fd' ptr r p') /\ pipe_wf p' /\
      queue p' = queue p ++ take (Z.to_nat n) bytes /\ p_readers p' = p_readers p /\ p_writers p' = p_writers p.
Proof.
  intros He Hw Hb Hc n. pose proof (pipe_end_of _ _ _ _ _ He) as Hp. pose proof He as [H1 H2 _ _ H5 [H6 H6'] H7].
  assert (Hl : len (queue p) = p_count p) by (unfold len, queue; rewrite ring_length; pose proof (pw_count p Hw); lia).
  assert (Hlb : 0 < len bytes) by (destruct bytes; [done|unfold len; cbn; lia]).
  assert (Hsame : forall fd' r q, pipe_end s fd' ptr r q -> pipe_end s fd' ptr r p).
  { intros fd' r q Hq. replace p with q; [done|]. destruct Hq as [_ _ _ _ _ _ Hq]. congruence. }
  unfold vfs_write. rewrite H1, H5, H6, H6'. cbn [negb orb]. replace (len bytes =? 0) with false by lia. replace (buf =? 0) with false by lia.
  rewrite H2, Hp. pose proof (pw_count p Hw) as Hpc. destruct (p_readers p =? 0) eqn:E0.
  { exists s. split; [done|]. exists p. cbn [Z.to_nat take n]. unfold n. cbn [Z.to_nat]. rewrite take_0, app_nil_r. by split. }
  destruct (PIPE_CAPACITY - p_count p =? 0) eqn:E1.
  { exists s. replace n with 0 by (unfold n; lia). split; [done|]. exists p. cbn [Z.to_nat]. rewrite take_0, app_nil_r. by split. }
  assert (Hn : (if len bytes <? PIPE_CAPACITY - p_count p then len bytes else PIPE_CAPACITY - p_count p) = n)
    by (unfold n; rewrite Hl; destruct (len bytes <? PIPE_CAPACITY - p_count p) eqn:E; lia).
  rewrite Hn. assert (Htl : len (take (Z.to_nat n) bytes) = n) by (unfold len in *; rewrite length_take; unfold n; lia).
  pose proof (queue_put p (take (Z.to_nat n) bytes) Hw) as Ht. rewrite Htl in Ht.
  destruct (pipe_put (take (Z.to_nat n) bytes) (p_buffer p) (p_tail p)) as [buf' tail].
  destruct Ht as (Hw' & Hq); [unfold n; lia|]. eexists. split; [replace (n =? 0) with false by (unfold n; lia); reflexivity|].
  eexists. split; [intros fd' r q Hq'; eapply pipe_end_step; eauto|]. split; [exact Hw'|]. split; [exact Hq|done].
Qed.

Lemma take_count (n : Z) (b : bool) (bytes : list Z) :
  take (Z.to_nat (if n =? 0 then (if b then -32 else -11) else n)) bytes = take (Z.to_nat n) bytes.
Proof. destruct (n =? 0) eqn:E; [|done]. replace n with 0 by lia. by destruct b. Qed.

(** Reads on one end and writes on the other, in any order.  The result is
    what the reads returned and what the writes took. *)
Inductive pipe_op := PRead (count : Z) | PWrite (bytes : list Z).

Definition pipe_step (r w buf : Z) (st : list Z * list Z * vfs K) (op : pipe_op) : list Z * list Z * vfs K :=
  let '(got, sent, s) := st in
  match op with
  | PRead count => let '(_, bytes, s) := vfs_read s r buf count in (got ++ bytes, sent, s)
  | PWrite bytes => let '(rc, s) := vfs_write s w buf bytes in (got, sent ++ take (Z.to_nat rc) bytes, s)
  end.

(** C17: A pipe is a first-in first-out stream: over any sequence of reads and
    writes on its two ends, the bytes the reads returned, followed by the bytes
    still waiting, are exactly the bytes that waited before followed by those
    the writes took, in order; nothing is lost, duplicated or reordered when
    the ring wraps around. *)
Theorem pipe_stream s r w ptr p buf ops :
  pipe_end s r ptr true p -> pipe_end s w ptr false p -> pipe_wf p -> buf <> 0 ->
  Forall (fun op => match op with PRead count => 0 <= count | PWrite _ => True end) ops ->
  let '(got, sent, s') := fold_left (pipe_step r w buf) ops ([], [], s) in
  exists p', pipe_end s' r ptr true p' /\ pipe_end s' w ptr false p' /\ pipe_wf p' /\ queue p ++ sent = got ++ queue p'.
Proof.
  intros Hr Hw Hp Hb Hops. set (P := fun st : list Z * list Z * vfs K => let '(got, sent, s') := st in
    exists p', pipe_end s' r ptr true p' /\ pipe_end s' w ptr false p' /\ pipe_wf p' /\ queue p ++ sent = got ++ queue p').
  enough (P (fold_left (pipe_step r w buf) ops ([], [], s))) by done.
  assert (HP : P ([], [], s)) by (exists p; by rewrite app_nil_r). clear Hr Hw Hp. revert HP. generalize (@nil Z, @nil Z, s).
  induction Hops as [|op ops Hop Hops IH]; intros st HP; [done|]. cbn [fold_left]. apply IH. clear IH.
  destruct st as [[got sent] s1]. destruct HP as (p1 & Hr & Hw & Hp & Hq). destruct op as [count|bytes]; cbn [pipe_step].
  - destruct (decide (count = 0)) as [->|Hne].
    { unfold vfs_read. rewrite (pe_open _ _ _ _ _ Hr), (pe_readable _ _ _ _ _ Hr). cbn. exists p1. by rewrite app_nil_r. }
    destruct (vfs_read_pipe s1 r ptr p1 buf count Hr Hp Hb ltac:(lia)) as (s2 & -> & p2 & Hends & Hp2 & Hq2 & _).
    exists p2. split; [by apply (Hends r _ p1)|]. split; [by apply (Hends w _ p1)|]. split; [done|]. by rewrite Hq2, <-app_assoc, take_drop.
  - destruct (decide (bytes = [])) as [->|Hne].
    { unfold vfs_write. rewrite (pe_open _ _ _ _ _ Hw), (pe_writable _ _ _ _ _ Hw). cbn. exists p1. by rewrite app_nil_r. }
    destruct (vfs_write_pipe s1 w ptr p1 buf bytes Hw Hp Hb Hne) as (s2 & -> & p2 & Hends & Hp2 & Hq2 & _).
    exists p2. split; [by apply (Hends r _ p1)|]. split; [by apply (Hends w _ p1)|]. split; [done|].
    by rewrite take_count, Hq2, app_assoc, Hq, app_assoc.
Qed.
End Pipes.

(** ** An example *)

#[local] Existing Instance heap_example.

(** A pipe whose head is at the last byte of the ring, with three bytes
    waiting. *)
Definition pipe_example : vfs (gset Z) :=
  let s := (vfs_pipe_create vfs_example).2 in
  (vfs_write (set_pipes s {[ 1 := Pipe (afill 7) 4095 4095 0 1 1 ]}) 65 8192 [1; 2; 3]).2.
Definition pipe_example_ring : pipe_object := default (Pipe (afill 0) 0 0 0 0 0) (v_pipes pipe_example !! 1).

Lemma pipe_example_ends :
  pipe_end pipe_example 64 1 true pipe_example_ring /\ pipe_end pipe_example 65 1 false pipe_example_ring /\ pipe_wf pipe_example_ring.
Proof.
  split; [|split]; constructor; try (vm_compute; reflexivity); split; vm_compute; reflexivity || discriminate.
Qed.

Lemma pipe_example_queue : queue pipe_example_ring = [1; 2; 3].
Proof. vm_compute. reflexivity. Qed.

Lemma pipe_stream_witness :
  exists p', pipe_wf p' /\ [1; 2; 3] ++ [9] = [1; 2] ++ queue p'.
Proof.
  destruct pipe_example_ends as (Hr & Hw & Hp).
  pose proof (pipe_stream pipe_example 64 65 1 pipe_example_ring 8192 [PRead 2; PWrite [9]] Hr Hw Hp ltac:(lia) ltac:(repeat constructor; lia)) as Hs.
  destruct (fold_left _ _ _) as [[got sent] s'] eqn:E in Hs. rewrite pipe_example_queue in Hs.
  assert (got = [1; 2]) as -> by (change got with (got, sent, s').1.1; rewrite <-E; vm_compute; reflexivity).
  assert (sent = [9]) as -> by (change sent with ([1; 2], sent, s').1.2; rewrite <-E; vm_compute; reflexivity).
  destruct Hs as (p' & _ & _ & Hwf & Hq). exact (ex_intro _ p' (conj Hwf Hq)).
Defined.

