(* ===== verification/VfsRefs.v ===== *)
(** * References between descriptors

    Every open descriptor is kept by the processes that hold it and by the
    epoll sets that watch it.  The invariant of this file says that the count
    stored in a descriptor is exactly the number of these references, that the
    counts of readers and writers in a pipe are those of its two ends, and that
    no descriptor points to an object that was freed; every operation of the
    VFS keeps it, and closing terminates. *)

From Stdlib Require Import ZArith Lia Bool ZifyBool.
From stdpp Require Import base numbers list gmap.
From S2P Require Import Prelude Kstring Path Newc Ata Npkfs Procfs Vfs VfsPipe.

Open Scope Z_scope.
Open Scope npk_scope.

(** What the VFS relies on in the heap: an allocation returns an address that
    is not in use. *)
Class VfsEnvLaws (K : Type) `{VfsEnv K} := {
  ve_live : K -> gset Z;
  ve_kmalloc_fresh : forall k n, (ve_kmalloc k n).1 <> 0 -> (ve_kmalloc k n).1 ∉ ve_live k /\ ve_live (ve_kmalloc k n).2 = {[ (ve_kmalloc k n).1 ]} ∪ ve_live k;
  ve_kmalloc_fail : forall k n, (ve_kmalloc k n).1 = 0 -> ve_live (ve_kmalloc k n).2 = ve_live k;
  ve_kfree_live : forall k p, ve_live (ve_kfree k p) = ve_live k ∖ {[ p ]};
  ve_alloc_live : forall k, ve_live (ve_alloc_page k).2 = ve_live k;
  ve_free_live : forall k p, ve_live (ve_free_page k p) = ve_live k;
  ve_zero_live : forall k p, ve_live (ve_zero_page k p) = ve_live k }.

(** ** Sums over a range *)

Fixpoint sumz (f : Z -> Z) (i : Z) (n : nat) : Z :=
  match n with O => 0 | S n' => f i + sumz f (i + 1) n' end.

Lemma sumz_ext f g i n : (forall k, i <= k < i + Z.of_nat n -> f k = g k) -> sumz f i n = sumz g i n.
Proof. revert i; induction n as [|n IH]; intros i He; [done|]. cbn. rewrite He by lia. f_equal. apply IH. intros k Hk. apply He. lia. Qed.

Lemma sumz_update f g i n k :
  i <= k < i + Z.of_nat n -> (forall j, j <> k -> f j = g j) -> sumz f i n = sumz g i n + (f k - g k).
Proof.
  revert i; induction n as [|n IH]; intros i Hk He; [lia|]. cbn. destruct (decide (i = k)) as [->|Hne].
  - rewrite (sumz_ext f g) by (intros j Hj; apply He; lia). lia.
  - rewrite IH by (done || lia). rewrite (He i) by lia. lia.
Qed.

Lemma sumz_nonneg f i n : (forall k, i <= k < i + Z.of_nat n -> 0 <= f k) -> 0 <= sumz f i n.
Proof. revert i; induction n as [|n IH]; intros i He; [done|]. cbn. pose proof (He i ltac:(lia)). specialize (IH (i + 1) ltac:(intros; apply He; lia)). lia. Qed.

Lemma sumz_term f i n k : (forall k, i <= k < i + Z.of_nat n -> 0 <= f k) -> i <= k < i + Z.of_nat n -> f k <= sumz f i n.
Proof.
  revert i; induction n as [|n IH]; intros i Hf Hk; [lia|]. cbn. pose proof (Hf i ltac:(lia)) as H0.
  pose proof (sumz_nonneg f (i + 1) n ltac:(intros; apply Hf; lia)). destruct (decide (i = k)) as [->|Hne]; [lia|].
  pose proof (IH (i + 1) ltac:(intros; apply Hf; lia) ltac:(lia)). lia.
Qed.

Lemma sumz_zero f i n : (forall k, i <= k < i + Z.of_nat n -> f k = 0) -> sumz f i n = 0.
Proof. intros Hf. rewrite (sumz_ext f (fun _ => 0)) by done. clear. revert i; induction n; intros; cbn; [done|]. by rewrite IHn. Qed.

Section Refs.
Context {K : Type} `{VfsEnvLaws K}.
Implicit Type s : vfs K.

Definition in_table (fd : Z) : Prop := OPEN_DESCRIPTOR_BASE <= fd < OPEN_DESCRIPTOR_BASE + MAX_OPEN_DESCRIPTORS.
Notation file s fd := ((v_files s).[fd]).

Ltac table := unfold in_table, OPEN_DESCRIPTOR_BASE, MAX_INITRD_FILES, MAX_OPEN_DESCRIPTORS in *; lia.

Lemma open_fd_spec s fd : open_fd s fd = true <-> in_table fd /\ d_used (file s fd) = true.
Proof. unfold open_fd, in_table. destruct (d_used _); lia. Qed.

(** ** Watches

    The references epoll sets hold of [fd], without the watches in [pend]: a
    watch whose reference is being given up. *)
Definition watching (w : epoll_watch) (fd : Z) : Z := if w_used w && (w_fd w =? fd) then 1 else 0.
Definition slot_refs s (pend : list (Z * Z)) (fd e i : Z) : Z := if bool_decide ((e, i) ∈ pend) then 0 else watching (watch_at s e i) fd.
Definition epoll_refs s (pend : list (Z * Z)) (fd e : Z) : Z :=
  if d_used (file s e) && d_is_epoll (file s e) then sumz (slot_refs s pend fd e) 0 32 else 0.
Definition watches s (pend : list (Z * Z)) (fd : Z) : Z := sumz (epoll_refs s pend fd) 64 64.

Lemma slot_refs_nonneg s pend fd e i : 0 <= slot_refs s pend fd e i <= 1.
Proof. unfold slot_refs, watching. split_ifs; lia. Qed.

Lemma epoll_refs_nonneg s pend fd e : 0 <= epoll_refs s pend fd e.
Proof. unfold epoll_refs. split_ifs; [|lia]. apply sumz_nonneg. intros. apply slot_refs_nonneg. Qed.

Lemma watches_nonneg s pend fd : 0 <= watches s pend fd.
Proof. apply sumz_nonneg. intros. apply epoll_refs_nonneg. Qed.

(** The states agree on the epoll sets. *)
Definition same_epolls s s' : Prop :=
  forall e, in_table e -> d_used (file s e) && d_is_epoll (file s e) = d_used (file s' e) && d_is_epoll (file s' e) /\
    (d_used (file s e) && d_is_epoll (file s e) = true -> forall i, 0 <= i < 32 -> watch_at s' e i = watch_at s e i).

Lemma watches_ext s s' pend fd : same_epolls s s' -> watches s' pend fd = watches s pend fd.
Proof.
  intros Hs. apply sumz_ext. intros e He. destruct (Hs e) as [Hu Hw]; [table|]. unfold epoll_refs. rewrite <-Hu.
  destruct (_ && _) eqn:E; [|done]. apply sumz_ext. intros i Hi. unfold slot_refs. by rewrite Hw by (done || lia).
Qed.

Lemma watches_slot s pend fd e i :
  in_table e -> d_used (file s e) = true -> d_is_epoll (file s e) = true -> 0 <= i < 32 -> slot_refs s pend fd e i <= watches s pend fd.
Proof.
  intros He Hu Hp Hi. transitivity (epoll_refs s pend fd e).
  - unfold epoll_refs. rewrite Hu, Hp. cbn [andb]. apply sumz_term; [intros; apply slot_refs_nonneg|lia].
  - apply sumz_term; [intros; apply epoll_refs_nonneg|]. table.
Qed.

(** Changing one slot, in the set of pending watches or in the epoll set. *)
Lemma watches_change s s' pend pend' fd e i :
  in_table e -> 0 <= i < 32 -> d_used (file s e) && d_is_epoll (file s e) = true ->
  (forall e', d_used (file s' e') && d_is_epoll (file s' e') = d_used (file s e') && d_is_epoll (file s e')) ->
  (forall e' i', in_table e' -> d_used (file s e') && d_is_epoll (file s e') = true -> 0 <= i' < 32 -> (e', i') <> (e, i) ->
    slot_refs s' pend' fd e' i' = slot_refs s pend fd e' i') ->
  watches s' pend' fd = watches s pend fd + (slot_refs s' pend' fd e i - slot_refs s pend fd e i).
Proof.
  intros He Hi Hu Hd Hs. set (g := fun e' => if decide (e' = e) then epoll_refs s pend fd e + (slot_refs s' pend' fd e i - slot_refs s pend fd e i) else epoll_refs s pend fd e').
  transitivity (sumz g 64 64).
  - apply sumz_ext. intros e' He'. unfold g, epoll_refs. rewrite Hd. destruct (decide (e' = e)) as [->|Hne].
    + rewrite Hu. set (h := fun i' => if decide (i' = i) then slot_refs s' pend' fd e i else slot_refs s pend fd e i').
      rewrite (sumz_ext (slot_refs s' pend' fd e) h).
      * rewrite (sumz_update h (slot_refs s pend fd e) 0 32 i) by (lia || (intros j Hj; unfold h; by case_decide)). unfold h. by rewrite decide_True.
      * intros i' Hi'. unfold h. case_decide; [by subst|]. apply Hs; [done|done|lia|congruence].
    + destruct (d_used (file s e') && d_is_epoll (file s e')) eqn:E; [|done]. apply sumz_ext. intros i' Hi'. apply Hs; [table|done|lia|congruence].
  - unfold watches. rewrite (sumz_update g (epoll_refs s pend fd) 64 64 e).
    + unfold g. rewrite decide_True by done. lia.
    + table.
    + intros j Hj. unfold g. by rewrite decide_False.
Qed.

(** ** Objects *)

Inductive okind := OPipe | OEpoll | OShm | OData.
#[global] Instance okind_eq_dec : EqDecision okind.
Proof. solve_decision. Defined.

(** The kernel object a descriptor points to. *)
Definition owner (d : descriptor) : option (okind * Z) :=
  if d_is_pipe d then Some (OPipe, d_pipe d) else if d_is_epoll d then Some (OEpoll, d_epoll d)
  else if d_is_shm d then Some (OShm, d_shm d) else if d_persistent d then Some (OData, d_persistent_data d) else None.

(** The addresses of the objects of a kind. *)
Definition objs s (k : okind) : gset Z :=
  match k with OPipe => dom (v_pipes s) | OEpoll => dom (v_epolls s) | OShm => dom (v_shms s) | OData => dom (v_pdata s) end.

(** The flags of a descriptor and its pointers agree. *)
Definition kind_ok (d : descriptor) : Prop :=
  (d_is_pipe d = true <-> d_pipe d <> 0) /\ (d_is_epoll d = true <-> d_epoll d <> 0) /\ (d_is_shm d = true <-> d_shm d <> 0) /\
  (d_persistent d = true <-> d_persistent_data d <> 0) /\
  (if d_is_pipe d then d_is_epoll d = false /\ d_is_shm d = false /\ d_persistent d = false /\ d_writable d = negb (d_readable d)
   else if d_is_epoll d then d_is_shm d = false /\ d_persistent d = false
   else if d_is_shm d then d_persistent d = false else True).

Definition used_fd s (fd : Z) : Prop := in_table fd /\ d_used (file s fd) = true.
Definition end_of s (fd ptr : Z) (reading : bool) : Prop :=
  used_fd s fd /\ d_is_pipe (file s fd) = true /\ d_pipe (file s fd) = ptr /\ d_readable (file s fd) = reading.

Record vfs_inv s (own : Z -> Z) (pend : list (Z * Z)) (dying : list Z) : Prop := {
  vi_unused : forall fd, in_table fd -> d_used (file s fd) = false -> file s fd = zero_desc /\ own fd = 0 /\ watches s pend fd = 0;
  vi_refs : forall fd, used_fd s fd -> d_refs (file s fd) = own fd + watches s pend fd /\ 0 <= own fd /\ d_refs (file s fd) <= UINT32_MAX;
  vi_dying : forall fd, fd ∈ dying <-> used_fd s fd /\ d_refs (file s fd) = 0;
  vi_dying_epoll : forall fd, fd ∈ dying -> d_is_epoll (file s fd) = true;
  vi_kind : forall fd, used_fd s fd -> kind_ok (file s fd);
  vi_watch : forall e i, used_fd s e -> d_is_epoll (file s e) = true -> 0 <= i < 32 -> w_used (watch_at s e i) = true ->
    in_table (w_fd (watch_at s e i)) \/ 0 <= w_fd (watch_at s e i) <= 2;
  vi_owned : forall fd k ptr, used_fd s fd -> owner (file s fd) = Some (k, ptr) -> ptr ∈ objs s k;
  vi_excl : forall fd fd' k ptr, used_fd s fd -> used_fd s fd' -> owner (file s fd) = Some (k, ptr) -> owner (file s fd') = Some (k, ptr) ->
    fd = fd' \/ k = OPipe /\ d_readable (file s fd) <> d_readable (file s fd');
  vi_noleak : forall k ptr, ptr ∈ objs s k -> exists fd, used_fd s fd /\ owner (file s fd) = Some (k, ptr);
  vi_disj : forall k k' ptr, ptr ∈ objs s k -> ptr ∈ objs s k' -> k = k';
  vi_live : forall k ptr, ptr ∈ objs s k -> ptr ∈ ve_live (v_env s);
  vi_pipe : forall ptr p, v_pipes s !! ptr = Some p -> pipe_wf p /\
    forall reading, let n := if reading : bool then p_readers p else p_writers p in
      (forall fd, end_of s fd ptr reading -> n = d_refs (file s fd)) /\ (n <> 0 -> exists fd, end_of s fd ptr reading) }.

(** ** Frames *)

Definition skel (d : descriptor) :=
  (d_used d, d_refs d, d_readable d, d_writable d, (d_is_pipe d, d_is_epoll d, d_is_shm d, d_persistent d), (d_pipe d, d_epoll d, d_shm d, d_persistent_data d)).

(** The same ends, and a ring in order when it was. *)
Definition pipes_like (m m' : gmap Z pipe_object) : Prop :=
  dom m' = dom m /\ forall ptr p', m' !! ptr = Some p' -> exists p, m !! ptr = Some p /\ p_readers p' = p_readers p /\ p_writers p' = p_writers p /\ (pipe_wf p -> pipe_wf p').

Lemma pipes_like_refl m : pipes_like m m.
Proof. split; [done|]. intros ptr p Hp. by exists p. Qed.

Record same_state s s' : Prop := {
  ss_skel : forall fd, in_table fd -> skel (file s' fd) = skel (file s fd);
  ss_zero : forall fd, in_table fd -> d_used (file s fd) = false -> file s' fd = file s fd;
  ss_epolls : v_epolls s' = v_epolls s;
  ss_pipes : pipes_like (v_pipes s) (v_pipes s');
  ss_shms : dom (v_shms s') = dom (v_shms s);
  ss_pdata : dom (v_pdata s') = dom (v_pdata s);
  ss_live : forall k ptr, ptr ∈ objs s k -> ptr ∈ ve_live (v_env s) -> ptr ∈ ve_live (v_env s') }.

Ltac skel_eq E := unfold skel in E; injection E as ? ? ? ? ? ? ? ? ? ? ? ?.

Lemma owner_skel d d' : skel d = skel d' -> owner d = owner d'.
Proof. intros E. destruct d, d'. unfold skel in E. cbn in E. by simplify_eq. Qed.

Lemma kind_skel d d' : skel d = skel d' -> kind_ok d -> kind_ok d'.
Proof.
  intros E. destruct d, d'. unfold skel in E. cbn in E. by simplify_eq.
Qed.

Lemma inv_frame s s' own pend dying : same_state s s' -> vfs_inv s own pend dying -> vfs_inv s' own pend dying.
Proof.
  intros [S1 S2 S3 S4 S5 S6 S7] [I1 I2 I3 I3' I4 I5 I6 I7 I8 I9 I10 I11].
  assert (F : forall fd, in_table fd -> d_used (file s' fd) = d_used (file s fd) /\ d_refs (file s' fd) = d_refs (file s fd) /\
    d_readable (file s' fd) = d_readable (file s fd) /\ d_is_epoll (file s' fd) = d_is_epoll (file s fd) /\ d_epoll (file s' fd) = d_epoll (file s fd) /\
    d_is_pipe (file s' fd) = d_is_pipe (file s fd) /\ d_pipe (file s' fd) = d_pipe (file s fd)).
  { intros fd Hfd. specialize (S1 fd Hfd) as E. skel_eq E. done. }
  assert (Hu : forall fd, used_fd s' fd <-> used_fd s fd).
  { intros fd. unfold used_fd. split; intros [Ht Hx]; (split; [done|]); destruct (F fd Ht) as [E _]; congruence. }
  assert (Ho : forall k, objs s' k = objs s k) by (intros []; cbn; [apply S4|by rewrite S3|done|done]).
  assert (Hown : forall fd, used_fd s fd -> owner (file s' fd) = owner (file s fd)) by (intros fd [Ht _]; by apply owner_skel, S1).
  assert (Hwa : forall e i, in_table e -> watch_at s' e i = watch_at s e i) by (intros e i Ht; unfold watch_at; rewrite S3; by destruct (F e Ht) as (_ & _ & _ & _ & -> & _)).
  assert (Hw : forall fd, watches s' pend fd = watches s pend fd).
  { intros fd. apply watches_ext. intros e Ht. destruct (F e Ht) as (-> & _ & _ & -> & _). split; [done|]. intros _ i _. by apply Hwa. }
  assert (He : forall fd ptr b, end_of s' fd ptr b <-> end_of s fd ptr b).
  { intros fd ptr b. unfold end_of. rewrite Hu. split; intros ([Ht Hx] & R); (split; [done|]); destruct (F fd Ht) as (_ & _ & E1 & _ & _ & E2 & E3); congruence. }
  constructor.
  - intros fd Ht Hx. destruct (F fd Ht) as [E _]. rewrite E in Hx. rewrite S2 by done. rewrite Hw. by apply I1.
  - intros fd Hx. apply Hu in Hx. destruct (F fd (proj1 Hx)) as (_ & -> & _). rewrite Hw. by apply I2.
  - intros fd. rewrite I3, Hu. split; intros [Hx Hr]; (split; [done|]); destruct (F fd (proj1 Hx)) as (_ & E & _); congruence.
  - intros fd Hx. pose proof (proj1 (I3 fd) Hx) as [[Ht _] _]. destruct (F fd Ht) as (_ & _ & _ & -> & _). by apply I3'.
  - intros fd Hx. apply Hu in Hx. eapply kind_skel; [symmetry; apply S1, Hx|by apply I4].
  - intros e i Hx. apply Hu in Hx. rewrite Hwa by apply Hx. destruct (F e (proj1 Hx)) as (_ & _ & _ & -> & _). by apply I5.
  - intros fd k ptr Hx. apply Hu in Hx. rewrite Hown, Ho by done. by apply I6.
  - intros fd fd' k ptr Hx Hx'. apply Hu in Hx, Hx'. rewrite !Hown by done.
    destruct (F fd (proj1 Hx)) as (_ & _ & -> & _). destruct (F fd' (proj1 Hx')) as (_ & _ & -> & _). by apply I7.
  - intros k ptr. rewrite Ho. intros Hp. destruct (I8 k ptr Hp) as (fd & Hx & Hy). exists fd. rewrite Hu, Hown by done. done.
  - intros k k' ptr. rewrite !Ho. apply I9.
  - intros k ptr. rewrite Ho. intros Hp. eapply S7; [done|by eapply I10].
  - intros ptr p' Hp'. destruct (proj2 S4 ptr p' Hp') as (p & Hp & E1 & E2 & Hwf). destruct (I11 ptr p Hp) as [Hwp Hends]. split; [by apply Hwf|].
    intros b. destruct (Hends b) as [H1 H2]. rewrite E1, E2. split.
    + intros fd Hx. apply He in Hx. destruct (F fd (proj1 (proj1 Hx))) as (_ & -> & _). by apply H1.
    + intros Hn. destruct (H2 Hn) as [fd Hx]. exists fd. by apply He.
Qed.

(** ** A new descriptor *)

Definition bump (own : Z -> Z) (fd n : Z) : Z -> Z := fun x => if x =? fd then own x + n else own x.

Record added s s' (fd : Z) (D : descriptor) : Prop := {
  ad_table : in_table fd;
  ad_free : d_used (file s fd) = false;
  ad_files : forall x, in_table x -> file s' x = if decide (x = fd) then D else file s x;
  ad_used : d_used D = true;
  ad_refs : d_refs D = 1;
  ad_kind : kind_ok D;
  ad_plain : d_is_pipe D = false;
  ad_pipes : v_pipes s' = v_pipes s;
  ad_objs : forall k ptr, ptr ∈ objs s' k <-> ptr ∈ objs s k \/ owner D = Some (k, ptr);
  ad_fresh : forall k ptr, owner D = Some (k, ptr) -> ptr ∉ ve_live (v_env s) /\ ptr ∈ ve_live (v_env s');
  ad_epolls : forall ptr, ptr ∈ dom (v_epolls s) -> v_epolls s' !! ptr = v_epolls s !! ptr;
  ad_empty : d_is_epoll D = true -> forall i, w_used (default (afill zero_watch) (v_epolls s' !! d_epoll D)).[i] = false;
  ad_live : forall k ptr, ptr ∈ objs s k -> ptr ∈ ve_live (v_env s) -> ptr ∈ ve_live (v_env s') }.

Lemma owner_epoll d : kind_ok d -> d_is_epoll d = true -> owner d = Some (OEpoll, d_epoll d).
Proof. intros (_ & _ & _ & _ & Hk) He. unfold owner. destruct (d_is_pipe d); [destruct Hk; congruence|]. by rewrite He. Qed.

Lemma inv_epoll_obj s own pend dying e :
  vfs_inv s own pend dying -> used_fd s e -> d_is_epoll (file s e) = true -> d_epoll (file s e) ∈ dom (v_epolls s).
Proof. intros I Hu He. apply (vi_owned _ _ _ _ I e OEpoll); [done|]. apply owner_epoll; [by apply (vi_kind _ _ _ _ I)|done]. Qed.

Lemma added_watch s s' own pend dying fd D e i :
  vfs_inv s own pend dying -> added s s' fd D -> used_fd s e -> d_is_epoll (file s e) = true -> watch_at s' e i = watch_at s e i.
Proof.
  intros I A [Ht Hu] He. unfold watch_at. rewrite (ad_files _ _ _ _ A) by done. rewrite decide_False by (intros ->; pose proof (ad_free _ _ _ _ A); congruence).
  by rewrite (ad_epolls _ _ _ _ A) by (by eapply inv_epoll_obj).
Qed.

Lemma added_watches s s' own pend dying fd D x :
  vfs_inv s own pend dying -> added s s' fd D -> watches s' pend x = watches s pend x.
Proof.
  intros I A. apply sumz_ext. intros e He. assert (Ht : in_table e) by table. unfold epoll_refs. rewrite (ad_files _ _ _ _ A e Ht). case_decide as Hd.
  - subst e. rewrite (ad_free _ _ _ _ A). cbn [andb]. destruct (_ && _) eqn:E; [|done]. apply sumz_zero. intros i Hi. unfold slot_refs, watching.
    unfold watch_at. rewrite (ad_files _ _ _ _ A), decide_True by done. rewrite (ad_empty _ _ _ _ A) by (by destruct (d_used D)). cbn. by case_bool_decide.
  - destruct (d_used (file s e) && d_is_epoll (file s e)) eqn:E; [|done]. apply andb_true_iff in E as [E1 E2].
    apply sumz_ext. intros i Hi. unfold slot_refs. by rewrite (added_watch s s' own pend dying fd D).
Qed.

Lemma inv_new s s' own pend dying fd D : vfs_inv s own pend dying -> added s s' fd D -> vfs_inv s' (bump own fd 1) pend dying.
Proof.
  intros I A. pose proof I as [I1 I2 I3 I3' I4 I5 I6 I7 I8 I9 I10 I11]. pose proof A as [A1 A2 A3 A4 A5 A6 A7 A8 A9 A10 A11 A12 A13].
  assert (Hw : forall x, watches s' pend x = watches s pend x) by (intros x; by eapply added_watches).
  assert (Hnew : file s' fd = D) by (by rewrite A3, decide_True).
  assert (Hold : forall x, in_table x -> x <> fd -> file s' x = file s x) by (intros x Hx Hne; by rewrite A3, decide_False).
  assert (Hu : forall x, used_fd s' x -> x = fd \/ x <> fd /\ used_fd s x).
  { intros x [Ht Hx]. destruct (decide (x = fd)) as [->|Hne]; [by left|]. right. split; [done|]. split; [done|]. by rewrite Hold in Hx by done. }
  assert (Hu' : forall x, used_fd s x -> x <> fd /\ used_fd s' x).
  { intros x [Ht Hx]. assert (x <> fd) by congruence. split; [done|]. split; [done|]. by rewrite Hold. }
  assert (Hfd : used_fd s' fd) by (split; [done|congruence]).
  destruct (I1 fd A1 A2) as (_ & Ho & Hw0).
  assert (He : forall x ptr b, end_of s' x ptr b <-> end_of s x ptr b).
  { intros x ptr b. unfold end_of. split; intros (Hx & R1 & R2).
    - apply Hu in Hx as [->|[Hne Hx]]; [congruence|]. rewrite Hold in R1, R2 by (done || apply Hx). done.
    - apply Hu' in Hx as [Hne Hx]. rewrite Hold by (done || apply Hx). done. }
  constructor.
  - intros x Ht Hx. destruct (decide (x = fd)) as [->|Hne]; [congruence|]. rewrite Hold in Hx |- * by done. unfold bump. replace (x =? fd) with false by lia. rewrite Hw. by apply I1.
  - intros x Hx. rewrite Hw. unfold bump. apply Hu in Hx as [->|[Hne Hx]].
    + rewrite Hnew, Z.eqb_refl. unfold UINT32_MAX. lia.
    + rewrite Hold by (done || apply Hx). replace (x =? fd) with false by lia. by apply I2.
  - intros x. rewrite I3. split; intros [Hx Hr].
    + apply Hu' in Hx as [Hne Hx]. split; [done|]. by rewrite Hold by (done || apply Hx).
    + apply Hu in Hx as [->|[Hne Hx]]; [rewrite Hnew in Hr; lia|]. rewrite Hold in Hr by (done || apply Hx). done.
  - intros x Hx. pose proof (proj1 (I3 x) Hx) as [Hx' _]. apply Hu' in Hx' as [Hne Hx']. rewrite Hold by (done || apply Hx'). by apply I3'.
  - intros x Hx. apply Hu in Hx as [->|[Hne Hx]]; [by rewrite Hnew|]. rewrite Hold by (done || apply Hx). by apply I4.
  - intros e i Hx Hep Hi Hwu. apply Hu in Hx as [->|[Hne Hx]].
    + unfold watch_at in Hwu. rewrite Hnew in Hwu, Hep. by rewrite A12 in Hwu.
    + rewrite Hold in Hep by (done || apply Hx). rewrite (added_watch s s' own pend dying fd D) in Hwu |- * by done. by apply I5.
  - intros x k ptr Hx Hp. apply A9. apply Hu in Hx as [->|[Hne Hx]]; [right; congruence|]. rewrite Hold in Hp by (done || apply Hx). left. by eapply I6.
  - assert (Hno : forall x k ptr, used_fd s x -> owner (file s x) = Some (k, ptr) -> owner D = Some (k, ptr) -> False).
    { intros x k ptr Hx Hp Hd. destruct (A10 k ptr Hd) as [Hf _]. apply Hf. eapply I10. by eapply I6. }
    intros x x' k ptr Hx Hx' Hp Hp'. apply Hu in Hx as [->|[Hne Hx]], Hx' as [->|[Hne' Hx']].
    + by left.
    + rewrite Hnew in Hp. rewrite Hold in Hp' by (done || apply Hx'). by destruct (Hno x' k ptr).
    + rewrite Hnew in Hp'. rewrite Hold in Hp by (done || apply Hx). by destruct (Hno x k ptr).
    + rewrite Hold in Hp, Hp' |- * by (done || apply Hx || apply Hx'). rewrite (Hold x') by (done || apply Hx'). by apply (I7 x x' k ptr).
  - intros k ptr Hp. apply A9 in Hp as [Hp|Hp]; [|exists fd; by rewrite Hnew].
    destruct (I8 k ptr Hp) as (x & Hx & Hxo). apply Hu' in Hx as [Hne Hx]. exists x. by rewrite Hold by (done || apply Hx).
  - intros k k' ptr Hp Hp'. apply A9 in Hp as [Hp|Hp], Hp' as [Hp'|Hp']; [by eapply I9| | |congruence].
    + destruct (A10 k' ptr Hp') as [Hf _]. destruct Hf. by eapply I10.
    + destruct (A10 k ptr Hp) as [Hf _]. destruct Hf. by eapply I10.
  - intros k ptr Hp. apply A9 in Hp as [Hp|Hp]; [apply (A13 k); [done|by eapply I10]|by apply (A10 k)].
  - rewrite A8. intros ptr p Hp. destruct (I11 ptr p Hp) as [Hwp Hends]. split; [done|]. intros b. destruct (Hends b) as [H1 H2]. split.
    + intros x Hx. apply He in Hx. pose proof Hx as ([Ht Hxu] & _). assert (x <> fd) by congruence. rewrite Hold by done. by apply H1.
    + intros Hn. destruct (H2 Hn) as [x Hx]. exists x. by apply He.
Qed.

Lemma inv_own_ext s own own' pend dying :
  (forall x, in_table x -> own' x = own x) -> vfs_inv s own pend dying -> vfs_inv s own' pend dying.
Proof.
  intros Hx I. constructor; try apply I.
  - intros fd Ht Hu. rewrite Hx by done. by apply (vi_unused _ _ _ _ I).
  - intros fd Hu. rewrite Hx by apply Hu. by apply (vi_refs _ _ _ _ I).
Qed.

(** ** Changing the count of a descriptor *)

Definition at_end (reading : bool) (p : pipe_object) (n : Z) : pipe_object :=
  if reading then with_ends p n (p_writers p) else with_ends p (p_readers p) n.

Record recounted s s' (fd n : Z) : Prop := {
  rc_files : forall x, file s' x = if decide (x = fd) then with_refs (file s fd) n else file s x;
  rc_epolls : v_epolls s' = v_epolls s;
  rc_shms : v_shms s' = v_shms s;
  rc_pdata : v_pdata s' = v_pdata s;
  rc_live : ve_live (v_env s') = ve_live (v_env s);
  rc_pipes : if d_is_pipe (file s fd)
    then exists p, v_pipes s !! d_pipe (file s fd) = Some p /\ v_pipes s' = <[d_pipe (file s fd) := at_end (d_readable (file s fd)) p n]> (v_pipes s)
    else v_pipes s' = v_pipes s }.

Lemma pipe_wf_ends p r w : pipe_wf p -> pipe_wf (with_ends p r w).
Proof. by intros [H1 H2 H3]. Qed.

Definition pipes_ok s : Prop := forall ptr p, v_pipes s !! ptr = Some p -> pipe_wf p /\
  forall reading, let n := if reading : bool then p_readers p else p_writers p in
    (forall fd, end_of s fd ptr reading -> n = d_refs (file s fd)) /\ (n <> 0 -> exists fd, end_of s fd ptr reading).

Lemma recount_pipes s s' own pend dying fd n :
  vfs_inv s own pend dying -> used_fd s fd -> recounted s s' fd n -> (forall x ptr b, end_of s' x ptr b <-> end_of s x ptr b) -> pipes_ok s'.
Proof.
  intros I Hfd R Hee ptr p Hp. pose proof (vi_pipe _ _ _ _ I) as I11. pose proof (rc_files _ _ _ _ R) as R1. pose proof (rc_pipes _ _ _ _ R) as R6.
  assert (Hd : forall x, x <> fd -> file s' x = file s x) by (intros x Hne; by rewrite R1, decide_False).
  assert (Hother : v_pipes s !! ptr = Some p -> ~ (d_is_pipe (file s fd) = true /\ d_pipe (file s fd) = ptr) -> pipe_wf p /\
    forall reading, let n := if reading : bool then p_readers p else p_writers p in
    (forall fd, end_of s' fd ptr reading -> n = d_refs (file s' fd)) /\ (n <> 0 -> exists fd, end_of s' fd ptr reading)).
  { intros Hps Hne. destruct (I11 ptr p Hps) as [Hw He]. split; [done|]. intros b. destruct (He b) as [H1 H2]. split.
    - intros x Hx. apply Hee in Hx. rewrite Hd; [by apply H1|]. intros ->. apply Hne. by destruct Hx as (_ & ? & ? & _).
    - intros Hn. destruct (H2 Hn) as [x Hx]. exists x. by apply Hee. }
  destruct (d_is_pipe (file s fd)) eqn:Ep; [|rewrite R6 in Hp; apply Hother; [done|by intros []]].
  destruct R6 as (p0 & Hp0 & Hps). rewrite Hps in Hp. destruct (decide (ptr = d_pipe (file s fd))) as [->|Hne].
  2: { rewrite lookup_insert_ne in Hp by done. apply Hother; [done|]. by intros [_ ?]. }
  rewrite lookup_insert_eq in Hp. injection Hp as <-. destruct (I11 _ p0 Hp0) as [Hw He]. split; [by destruct (d_readable (file s fd)); apply pipe_wf_ends|].
  assert (Hself : end_of s fd (d_pipe (file s fd)) (d_readable (file s fd))) by done.
  intros b. destruct (He b) as [H1 H2]. destruct (decide (b = d_readable (file s fd))) as [->|Hb].
  - replace (if d_readable (file s fd) then p_readers (at_end (d_readable (file s fd)) p0 n) else p_writers (at_end (d_readable (file s fd)) p0 n))
      with n by (by destruct (d_readable (file s fd))). split; [|intros _; exists fd; by apply Hee].
    intros x Hx. apply Hee in Hx. assert (x = fd) as ->; [|by rewrite R1, decide_True].
    destruct Hx as (Hx & X1 & X2 & X3). assert (Ho : forall y, d_is_pipe (file s y) = true -> d_pipe (file s y) = d_pipe (file s fd) -> owner (file s y) = Some (OPipe, d_pipe (file s fd))).
    { intros y Y1 Y2. unfold owner. by rewrite Y1, Y2. }
    destruct (vi_excl _ _ _ _ I x fd OPipe (d_pipe (file s fd)) Hx Hfd (Ho x X1 X2) (Ho fd Ep eq_refl)) as [?|[_ ?]]; [done|congruence].
  - replace (if b then p_readers (at_end (d_readable (file s fd)) p0 n) else p_writers (at_end (d_readable (file s fd)) p0 n))
      with (if b then p_readers p0 else p_writers p0) by (by destruct b, (d_readable (file s fd))). split.
    + intros x Hx. apply Hee in Hx. rewrite Hd; [by apply H1|]. intros ->. apply Hb. by destruct Hx as (_ & _ & _ & <-).
    + intros Hn. destruct (H2 Hn) as [x Hx]. exists x. by apply Hee.
Qed.

Lemma inv_recount s s' own pend dying dying' fd n :
  vfs_inv s own pend dying -> used_fd s fd -> recounted s s' fd n ->
  0 <= own fd + (n - d_refs (file s fd)) -> n <= UINT32_MAX ->
  (n = 0 -> d_is_epoll (file s fd) = true) ->
  (forall x, x ∈ dying' <-> if decide (x = fd) then n = 0 else x ∈ dying) ->
  vfs_inv s' (bump own fd (n - d_refs (file s fd))) pend dying'.
Proof.
  intros I Hfd R Ho Hn He Hdy. pose proof R as R0. pose proof I as [I1 I2 I3 I3' I4 I5 I6 I7 I8 I9 I10 I11]. destruct R as [R1 R2 R3 R4 R5 R6].
  set (k := fun x => if decide (x = fd) then n else d_refs (file s x)).
  assert (F : forall x, file s' x = with_refs (file s x) (k x)).
  { intros x. rewrite R1. unfold k. case_decide; [by subst|]. by destruct (file s x). }
  assert (Hu : forall x, used_fd s' x <-> used_fd s x) by (intros x; unfold used_fd; by rewrite F).
  assert (Hown : forall x, owner (file s' x) = owner (file s x)) by (intros x; by rewrite F).
  assert (Hob : forall k ptr, ptr ∈ objs s' k <-> ptr ∈ objs s k).
  { intros [] ptr; cbn; rewrite ?R2, ?R3, ?R4; [|done..]. destruct (d_is_pipe (file s fd)) eqn:E; [|by rewrite R6].
    destruct R6 as (p & Hp & ->). rewrite dom_insert_lookup by done. done. }
  assert (Hwa : forall e i, watch_at s' e i = watch_at s e i) by (intros e i; unfold watch_at; by rewrite R2, F).
  assert (Hw : forall x, watches s' pend x = watches s pend x).
  { intros x. apply watches_ext. intros e _. rewrite F. split; [done|]. intros _ i _. apply Hwa. }
  assert (Hee : forall x ptr b, end_of s' x ptr b <-> end_of s x ptr b) by (intros x ptr b; unfold end_of; rewrite Hu, F; done).
  constructor.
  - intros x Ht Hx. rewrite F in Hx. destruct (decide (x = fd)) as [->|Hne]; [destruct Hfd; cbn in Hx; congruence|].
    rewrite R1, decide_False, Hw by done. unfold bump. replace (x =? fd) with false by lia. by apply I1.
  - intros x Hx. apply Hu in Hx. rewrite F, Hw. cbn [with_refs d_refs]. unfold bump, k. case_decide as Hd.
    + subst x. rewrite Z.eqb_refl. destruct (I2 fd Hfd). lia.
    + replace (x =? fd) with false by lia. by apply I2.
  - intros x. rewrite Hdy, Hu, F. cbn [with_refs d_refs]. unfold k. case_decide as Hd; [subst x; by split; [|intros [_ ?]]|apply I3].
  - intros x Hx. apply Hdy in Hx. rewrite F. cbn [with_refs d_is_epoll]. case_decide as Hd; [subst x; by apply He|by apply I3'].
  - intros x Hx. apply Hu in Hx. rewrite F. by apply (I4 x).
  - intros e i Hx. apply Hu in Hx. rewrite Hwa, F. by apply I5.
  - intros x k' ptr Hx. apply Hu in Hx. rewrite Hown, Hob. by apply I6.
  - intros x x' k' ptr Hx Hx'. apply Hu in Hx, Hx'. rewrite !Hown, !F. by apply I7.
  - intros k' ptr Hp. apply Hob in Hp. destruct (I8 k' ptr Hp) as (x & Hx & Hy). exists x. rewrite Hu, Hown. done.
  - intros k' k'' ptr. rewrite !Hob. apply I9.
  - intros k' ptr. rewrite Hob, R5. apply I10.
  - exact (recount_pipes s s' own pend dying fd n I Hfd R0 Hee).
Qed.

(** ** Taking a descriptor down *)

Definition other_end (d : descriptor) (p : pipe_object) : Z := if d_readable d then p_writers p else p_readers p.

Record released s s' (fd : Z) : Prop := {
  rl_files : forall x, file s' x = if decide (x = fd) then zero_desc else file s x;
  rl_epolls : forall ptr, v_epolls s' !! ptr = if decide (owner (file s fd) = Some (OEpoll, ptr)) then None else v_epolls s !! ptr;
  rl_objs : forall k ptr, k <> OPipe -> ptr ∈ objs s' k <-> ptr ∈ objs s k /\ owner (file s fd) <> Some (k, ptr);
  rl_pipes : if d_is_pipe (file s fd)
    then exists p, v_pipes s !! d_pipe (file s fd) = Some p /\
      v_pipes s' = if other_end (file s fd) p =? 0 then delete (d_pipe (file s fd)) (v_pipes s)
                   else <[d_pipe (file s fd) := at_end (d_readable (file s fd)) p 0]> (v_pipes s)
    else v_pipes s' = v_pipes s;
  rl_live : forall k ptr, ptr ∈ objs s k -> owner (file s fd) <> Some (k, ptr) \/ k = OPipe /\ ptr ∈ dom (v_pipes s') ->
    ptr ∈ ve_live (v_env s) -> ptr ∈ ve_live (v_env s') }.

Lemma released_watch s s' own pend dying fd e i :
  vfs_inv s own pend dying -> used_fd s fd -> released s s' fd -> used_fd s e -> e <> fd -> d_is_epoll (file s e) = true ->
  watch_at s' e i = watch_at s e i.
Proof.
  intros I Hfd R He Hne Hep. unfold watch_at. rewrite (rl_files _ _ _ R), decide_False by done. rewrite (rl_epolls _ _ _ R), decide_False; [done|].
  intros Ho. destruct (vi_excl _ _ _ _ I e fd OEpoll (d_epoll (file s e)) He Hfd) as [?|[? _]]; [|done|done|done].
  apply owner_epoll; [by apply (vi_kind _ _ _ _ I)|done].
Qed.

Lemma released_watches s s' own pend dying fd x :
  vfs_inv s own pend dying -> used_fd s fd -> released s s' fd ->
  (d_is_epoll (file s fd) = true -> forall i, 0 <= i < 32 -> w_used (watch_at s fd i) = false) -> watches s' pend x = watches s pend x.
Proof.
  intros I Hfd R Hem. apply sumz_ext. intros e He. unfold epoll_refs. rewrite (rl_files _ _ _ R). case_decide as Hd.
  - subst e. destruct Hfd as [_ ->]. cbn [zero_desc d_used andb]. destruct (d_is_epoll (file s fd)) eqn:E; [|done].
    symmetry. apply sumz_zero. intros i Hi. unfold slot_refs, watching. rewrite Hem by (done || lia). cbn. by case_bool_decide.
  - destruct (d_used (file s e) && d_is_epoll (file s e)) eqn:E; [|done]. apply andb_true_iff in E as [E1 E2].
    assert (He' : used_fd s e) by (split; [table|done]). apply sumz_ext. intros i Hi. unfold slot_refs. by rewrite (released_watch s s' own pend dying fd).
Qed.

(** The other end of the pipe of [fd]. *)
Lemma other_end_open s own pend dying fd p x :
  vfs_inv s own pend dying -> used_fd s fd -> d_is_pipe (file s fd) = true -> v_pipes s !! d_pipe (file s fd) = Some p ->
  used_fd s x -> x <> fd -> d_is_pipe (file s x) = true -> d_pipe (file s x) = d_pipe (file s fd) ->
  end_of s x (d_pipe (file s fd)) (negb (d_readable (file s fd))) /\ other_end (file s fd) p = d_refs (file s x) /\ d_refs (file s x) <> 0.
Proof.
  intros I Hfd Hp Hpp Hx Hne Hxp Hxe. assert (Ho : forall y, d_is_pipe (file s y) = true -> d_pipe (file s y) = d_pipe (file s fd) -> owner (file s y) = Some (OPipe, d_pipe (file s fd))).
  { intros y Y1 Y2. unfold owner. by rewrite Y1, Y2. }
  destruct (vi_excl _ _ _ _ I x fd OPipe _ Hx Hfd (Ho x Hxp Hxe) (Ho fd Hp eq_refl)) as [?|[_ Hr]]; [done|].
  assert (He : end_of s x (d_pipe (file s fd)) (negb (d_readable (file s fd)))).
  { split; [done|]. split; [done|]. split; [done|]. by destruct (d_readable (file s x)), (d_readable (file s fd)). }
  split; [done|]. destruct (vi_pipe _ _ _ _ I _ p Hpp) as [_ Hends]. destruct (Hends (negb (d_readable (file s fd)))) as [H1 _].
  rewrite <-(H1 x He). unfold other_end. split; [by destruct (d_readable (file s fd))|]. rewrite (H1 x He). intros Hz.
  assert (Hdy : x ∈ dying) by (by apply (vi_dying _ _ _ _ I)). apply (vi_dying_epoll _ _ _ _ I) in Hdy.
  destruct (vi_kind _ _ _ _ I x Hx) as (_ & _ & _ & _ & Hk). rewrite Hxp in Hk. destruct Hk. congruence.
Qed.

Lemma released_pipes s s' own pend dying fd :
  vfs_inv s own pend dying -> used_fd s fd -> released s s' fd -> pipes_ok s'.
Proof.
  intros I Hfd R ptr p' Hp'. pose proof (rl_files _ _ _ R) as R1. pose proof (rl_pipes _ _ _ R) as R4.
  assert (Hu : forall x, used_fd s' x <-> x <> fd /\ used_fd s x).
  { intros x. unfold used_fd. rewrite R1. case_decide as Hd; [subst x; split; [intros [_ ?]; done|intros [? _]; done]|naive_solver]. }
  assert (Hee : forall x q b, end_of s' x q b <-> x <> fd /\ end_of s x q b).
  { intros x q b. unfold end_of. rewrite Hu, R1. case_decide as Hd; [subst x; naive_solver|naive_solver]. }
  assert (Hkeep : v_pipes s !! ptr = Some p' -> ~ (d_is_pipe (file s fd) = true /\ d_pipe (file s fd) = ptr) -> pipe_wf p' /\
    forall reading, let n := if reading : bool then p_readers p' else p_writers p' in
    (forall fd, end_of s' fd ptr reading -> n = d_refs (file s' fd)) /\ (n <> 0 -> exists fd, end_of s' fd ptr reading)).
  { intros Hp Hne. destruct (vi_pipe _ _ _ _ I ptr p' Hp) as [Hw He]. split; [done|]. intros b. destruct (He b) as [H1 H2]. split.
    - intros x Hx. apply Hee in Hx as [Hx1 Hx2]. rewrite R1, decide_False by done. by apply H1.
    - intros Hn. destruct (H2 Hn) as [x Hx]. exists x. apply Hee. split; [|done]. intros ->. apply Hne. by destruct Hx as (_ & ? & ? & _). }
  destruct (d_is_pipe (file s fd)) eqn:Ep; [|rewrite R4 in Hp'; apply Hkeep; [done|by intros []]].
  destruct R4 as (p & Hp & Hps). rewrite Hps in Hp'. destruct (decide (ptr = d_pipe (file s fd))) as [->|Hne].
  2: { apply Hkeep; [|by intros [_ ?]]. destruct (_ =? 0); [by rewrite lookup_delete_ne in Hp'|by rewrite lookup_insert_ne in Hp']. }
  destruct (other_end (file s fd) p =? 0) eqn:Eo; [by rewrite lookup_delete_eq in Hp'|]. rewrite lookup_insert_eq in Hp'. injection Hp' as <-.
  destruct (vi_pipe _ _ _ _ I _ p Hp) as [Hw He]. split; [by destruct (d_readable (file s fd)); apply pipe_wf_ends|].
  assert (Honly : forall x b, end_of s' x (d_pipe (file s fd)) b -> b = negb (d_readable (file s fd)) /\ d_refs (file s' x) = other_end (file s fd) p).
  { intros x b Hx. apply Hee in Hx as [Hne Hx]. pose proof Hx as (Hx1 & Hx2 & Hx3 & Hx4). rewrite R1, decide_False by done.
    destruct (other_end_open s own pend dying fd p x I Hfd Ep Hp Hx1 Hne Hx2 Hx3) as (Hy & -> & _). split; [|done]. by destruct Hy as (_ & _ & _ & <-). }
  intros b. split.
  - intros x Hx. destruct (Honly x b Hx) as [-> ->]. unfold other_end, at_end. by destruct (d_readable (file s fd)).
  - intros Hn. assert (Hb : b = negb (d_readable (file s fd))) by (unfold at_end in Hn; by destruct b, (d_readable (file s fd))).
    destruct (He b) as [_ H2]. destruct H2 as [x Hx].
    + unfold at_end in Hn. by destruct b, (d_readable (file s fd)).
    + exists x. apply Hee. split; [|done]. intros ->. destruct Hx as (_ & _ & _ & Hx). rewrite Hx in Hb. by destruct b.
Qed.

(** A pipe that has another end stays. *)
Lemma released_keeps_pipe s s' own pend dying fd x ptr :
  vfs_inv s own pend dying -> used_fd s fd -> released s s' fd -> used_fd s x -> x <> fd -> owner (file s x) = Some (OPipe, ptr) -> ptr ∈ objs s' OPipe.
Proof.
  intros I Hfd R Hx Hne Ho. pose proof (vi_owned _ _ _ _ I x OPipe ptr Hx Ho) as Hp. cbn in *. pose proof (rl_pipes _ _ _ R) as R4.
  destruct (d_is_pipe (file s fd)) eqn:Ep; [|by rewrite R4]. destruct R4 as (p & Hpp & ->).
  destruct (decide (ptr = d_pipe (file s fd))) as [->|Hd].
  - assert (Hxp : d_is_pipe (file s x) = true) by (unfold owner in Ho; by destruct (d_is_pipe (file s x)), (d_is_epoll (file s x)), (d_is_shm (file s x)), (d_persistent (file s x))).
    unfold owner in Ho. rewrite Hxp in Ho. injection Ho as Ho.
    destruct (other_end_open s own pend dying fd p x I Hfd Ep Hpp Hx Hne Hxp Ho) as (_ & -> & Hz). replace (_ =? 0) with false by lia. set_solver.
  - destruct (_ =? 0); [rewrite dom_delete; set_solver|rewrite dom_insert; set_solver].
Qed.

Lemma inv_release s s' own pend dying dying' fd :
  vfs_inv s own pend dying -> used_fd s fd -> released s s' fd -> own fd = d_refs (file s fd) ->
  (d_is_epoll (file s fd) = true -> forall i, 0 <= i < 32 -> w_used (watch_at s fd i) = false) ->
  (forall x, x ∈ dying' <-> x ∈ dying /\ x <> fd) -> vfs_inv s' (bump own fd (- own fd)) pend dying'.
Proof.
  intros I Hfd R Hown Hem Hdy. pose proof I as [I1 I2 I3 I3' I4 I5 I6 I7 I8 I9 I10 I11]. pose proof R as [R1 R2 R3 R4 R5].
  assert (Hw : forall x, watches s' pend x = watches s pend x) by (intros x; by eapply released_watches).
  assert (Hw0 : watches s pend fd = 0) by (destruct (I2 fd Hfd); lia).
  assert (Hold : forall x, x <> fd -> file s' x = file s x) by (intros x Hne; by rewrite R1, decide_False).
  assert (Hnew : file s' fd = zero_desc) by (by rewrite R1, decide_True).
  assert (Hu : forall x, used_fd s' x <-> x <> fd /\ used_fd s x).
  { intros x. unfold used_fd. destruct (decide (x = fd)) as [->|Hne]; [rewrite Hnew; split; [intros [_ ?]; done|intros [? _]; done]|rewrite Hold by done; naive_solver]. }
  assert (Hpo : forall ptr, ptr ∈ dom (v_pipes s') -> ptr ∈ dom (v_pipes s) /\ exists x, x <> fd /\ used_fd s x /\ owner (file s x) = Some (OPipe, ptr)).
  { intros ptr Hp. destruct (decide (owner (file s fd) = Some (OPipe, ptr))) as [Ho|Ho].
    - assert (Ep : d_is_pipe (file s fd) = true) by (unfold owner in Ho; by destruct (d_is_pipe (file s fd)), (d_is_epoll (file s fd)), (d_is_shm (file s fd)), (d_persistent (file s fd))).
      unfold owner in Ho. rewrite Ep in Ho, R4. injection Ho as Ho. destruct R4 as (p & Hpp & Hps). subst ptr. split; [by apply elem_of_dom|].
      rewrite Hps in Hp. destruct (other_end (file s fd) p =? 0) eqn:Eo; [rewrite dom_delete in Hp; set_solver|].
      destruct (I11 _ p Hpp) as [_ He]. destruct (He (negb (d_readable (file s fd)))) as [_ H2]. destruct H2 as [x Hx].
      + unfold other_end in Eo. destruct (d_readable (file s fd)); cbn; lia.
      + exists x. destruct Hx as (Hx1 & Hx2 & Hx3 & Hx4). split; [intros ->; by destruct (d_readable (file s fd))|]. split; [done|]. unfold owner. by rewrite Hx2, Hx3.
    - assert (Hp0 : ptr ∈ dom (v_pipes s)).
      { destruct (d_is_pipe (file s fd)); [|by rewrite <-R4]. destruct R4 as (p & Hpp & Hps). rewrite Hps in Hp. destruct (_ =? 0); [set_solver|].
        by rewrite dom_insert_lookup in Hp. }
      split; [done|]. destruct (I8 OPipe ptr Hp0) as (x & Hx & Hxo). exists x. split; [congruence|done]. }
  assert (Hob : forall k ptr, ptr ∈ objs s' k -> ptr ∈ objs s k /\ exists x, x <> fd /\ used_fd s x /\ owner (file s x) = Some (k, ptr)).
  { intros k ptr Hp. destruct (decide (k = OPipe)) as [->|Hk]; [by apply Hpo|]. apply R3 in Hp as [Hp Hne]; [|done]. split; [done|].
    destruct (I8 k ptr Hp) as (x & Hx & Hxo). exists x. split; [congruence|done]. }
  assert (Hkept : forall x k ptr, used_fd s x -> x <> fd -> owner (file s x) = Some (k, ptr) -> ptr ∈ objs s' k).
  { intros x k ptr Hx Hne Ho. destruct (decide (k = OPipe)) as [->|Hk].
    - apply (released_keeps_pipe s s' own pend dying fd x); done.
    - apply R3; [done|]. split; [by eapply I6|]. intros Ho'. destruct (I7 x fd k ptr Hx Hfd Ho Ho') as [?|[? _]]; done. }
  constructor.
  - intros x Ht Hx. unfold bump. rewrite Hw. destruct (decide (x = fd)) as [->|Hne]; [rewrite Z.eqb_refl; split; [done|]; lia|].
    replace (x =? fd) with false by lia. rewrite Hold in Hx |- * by done. by apply I1.
  - intros x Hx. apply Hu in Hx as [Hne Hx]. rewrite Hold, Hw by done. unfold bump. replace (x =? fd) with false by lia. by apply I2.
  - intros x. rewrite Hdy, Hu, I3. split; [intros [[? ?] ?]; by rewrite Hold|intros [[? ?] Hr]; by rewrite Hold in Hr].
  - intros x Hx. apply Hdy in Hx as [Hx Hne]. rewrite Hold by done. by apply I3'.
  - intros x Hx. apply Hu in Hx as [Hne Hx]. rewrite Hold by done. by apply I4.
  - intros e i Hx. apply Hu in Hx as [Hne Hx]. rewrite Hold by done. intros He Hi.
    rewrite (released_watch s s' own pend dying fd) by done. by apply I5.
  - intros x k ptr Hx. apply Hu in Hx as [Hne Hx]. rewrite Hold by done. by apply Hkept.
  - intros x x' k ptr Hx Hx'. apply Hu in Hx as [Hne Hx], Hx' as [Hne' Hx']. rewrite !Hold by done. by apply I7.
  - intros k ptr Hp. apply Hob in Hp as (_ & x & Hne & Hx & Hxo). exists x. rewrite Hu, Hold by done. done.
  - intros k k' ptr Hp Hp'. apply Hob in Hp as [Hp _], Hp' as [Hp' _]. by eapply I9.
  - intros k ptr Hp. pose proof Hp as Hp0. apply Hob in Hp0 as (Hp0 & x & Hne & Hx & Hxo). apply (R5 k); [done| |by eapply I10].
    destruct (decide (k = OPipe)) as [->|Hk]; [by right|left]. by apply R3 in Hp as [_ ?].
  - exact (released_pipes s s' own pend dying fd I Hfd R).
Qed.

(** ** Watches *)

Lemma watch_counted s own pend dying e i :
  vfs_inv s own pend dying -> used_fd s e -> d_is_epoll (file s e) = true -> 0 <= i < 32 -> (e, i) ∉ pend -> w_used (watch_at s e i) = true ->
  1 <= watches s pend (w_fd (watch_at s e i)).
Proof.
  intros I [Ht Hu] He Hi Hp Hw. pose proof (watches_slot s pend (w_fd (watch_at s e i)) e i Ht Hu He Hi) as Hs.
  unfold slot_refs, watching in Hs. rewrite bool_decide_false, Hw, Z.eqb_refl in Hs by done. exact Hs.
Qed.

(** A watch is about to give up its reference. *)
Lemma inv_pend s own pend dying e i :
  vfs_inv s own pend dying -> used_fd s e -> d_is_epoll (file s e) = true -> 0 <= i < 32 -> (e, i) ∉ pend -> w_used (watch_at s e i) = true ->
  vfs_inv s (bump own (w_fd (watch_at s e i)) 1) ((e, i) :: pend) dying.
Proof.
  intros I He Hep Hi Hp Hw. pose proof (watch_counted s own pend dying e i I He Hep Hi Hp Hw) as Hc. set (x := w_fd (watch_at s e i)) in *.
  assert (Hws : forall fd, watches s ((e, i) :: pend) fd = watches s pend fd - (if fd =? x then 1 else 0)).
  { intros fd. rewrite (watches_change s s pend ((e, i) :: pend) fd e i); [|apply He|done|by destruct He as [_ ->]; rewrite Hep|done|].
    - unfold slot_refs, watching. rewrite bool_decide_true by left. rewrite bool_decide_false, Hw by done. cbn. fold x. rewrite (Z.eqb_sym x). destruct (fd =? x); lia.
    - intros e' i' _ _ _ Hne. unfold slot_refs. rewrite (bool_decide_ext ((e', i') ∈ (e, i) :: pend) ((e', i') ∈ pend)); [done|]. rewrite elem_of_cons. naive_solver. }
  constructor; try apply I.
  - intros fd Ht Hx. destruct (vi_unused _ _ _ _ I fd Ht Hx) as (Hz & Ho & Hw0). rewrite Hws. unfold bump. destruct (fd =? x) eqn:E; [|split; [done|lia]].
    exfalso. replace fd with x in Hw0 by lia. lia.
  - intros fd Hx. destruct (vi_refs _ _ _ _ I fd Hx) as (Hr & Ho & Hm). rewrite Hws. unfold bump. destruct (fd =? x); lia.
Qed.

Lemma set_watch_spec s own pend dying e i w :
  vfs_inv s own pend dying -> used_fd s e -> d_is_epoll (file s e) = true ->
  v_files (set_watch s e i w) = v_files s /\ v_pipes (set_watch s e i w) = v_pipes s /\ (forall k, objs (set_watch s e i w) k = objs s k) /\
  v_env (set_watch s e i w) = v_env s /\
  forall e' i', used_fd s e' -> d_is_epoll (file s e') = true ->
    watch_at (set_watch s e i w) e' i' = if decide ((e', i') = (e, i)) then w else watch_at s e' i'.
Proof.
  intros I He Hep. pose proof (inv_epoll_obj s own pend dying e I He Hep) as [o Ho]%elem_of_dom. unfold set_watch. rewrite Ho.
  split; [done|]. split; [done|]. split; [intros []; cbn; try done; by apply dom_insert_lookup_L|]. split; [done|].
  intros e' i' He' Hep'. unfold watch_at. cbn [v_files v_epolls set_epolls]. destruct (decide (e' = e)) as [->|Hne].
  - rewrite lookup_insert_eq, Ho. cbn [default from_option id]. rewrite aget_aset. do 2 case_decide; try done; congruence.
  - rewrite decide_False by congruence. rewrite lookup_insert_ne; [done|]. intros Heq.
    destruct (vi_excl _ _ _ _ I e e' OEpoll (d_epoll (file s e)) He He') as [?|[? _]]; [| |done..].
    + apply owner_epoll; [by apply (vi_kind _ _ _ _ I)|done].
    + rewrite Heq. apply owner_epoll; [by apply (vi_kind _ _ _ _ I)|done].
Qed.

Lemma inv_set_watch s own own' pend pend' dying e i w :
  vfs_inv s own pend dying -> used_fd s e -> d_is_epoll (file s e) = true -> 0 <= i < 32 ->
  (forall p, p ∈ pend' <-> p ∈ pend /\ p <> (e, i)) ->
  (w_used w = true -> used_fd s (w_fd w) \/ 0 <= w_fd w <= 2) ->
  (forall x, in_table x -> own' x = own x + slot_refs s pend x e i - watching w x /\ 0 <= own' x) ->
  vfs_inv (set_watch s e i w) own' pend' dying.
Proof.
  intros I He Hep Hi Hp' Hwf Hown. destruct (set_watch_spec s own pend dying e i w I He Hep) as (E1 & E2 & E3 & E4 & Hwa).
  assert (Hu : forall x, used_fd (set_watch s e i w) x <-> used_fd s x) by (intros x; unfold used_fd; by rewrite E1).
  assert (Hnp : (e, i) ∉ pend') by (intros Hin; by apply Hp' in Hin as [_ ?]).
  assert (Hws : forall fd, watches (set_watch s e i w) pend' fd = watches s pend fd + (watching w fd - slot_refs s pend fd e i)).
  { intros fd. rewrite (watches_change s (set_watch s e i w) pend pend' fd e i); [|apply He|done|by destruct He as [_ ->]; rewrite Hep|by rewrite E1|].
    - unfold slot_refs at 1. rewrite bool_decide_false by done. rewrite Hwa, decide_True by done. done.
    - intros e' i' Ht' Hue' _ Hne. apply andb_true_iff in Hue' as [Hue' Hep']. unfold slot_refs. rewrite Hwa, decide_False by done.
      rewrite (bool_decide_ext ((e', i') ∈ pend') ((e', i') ∈ pend)); [done|]. rewrite Hp'. naive_solver. }
  pose proof I as [I1 I2 I3 I3' I4 I5 I6 I7 I8 I9 I10 I11]. constructor.
  - intros x Ht Hx. rewrite E1 in Hx |- *. destruct (I1 x Ht Hx) as (Hz & Ho & Hw0). destruct (Hown x Ht) as [Ho' Hpos]. rewrite Hws, Hw0.
    pose proof (watches_slot s pend x e i (proj1 He) (proj2 He) Hep Hi) as Hsl. pose proof (slot_refs_nonneg s pend x e i).
    assert (watching w x = 0); [|split; [done|lia]]. unfold watching in *. destruct (w_used w && (w_fd w =? x)) eqn:E; [|done]. exfalso. lia.
  - intros x Hx. apply Hu in Hx. rewrite E1, Hws. destruct (I2 x Hx) as (Hr & Ho & Hm). destruct (Hown x (proj1 Hx)) as [Ho' Hpos]. lia.
  - intros x. rewrite Hu, E1. apply I3.
  - intros x. rewrite E1. apply I3'.
  - intros x Hx. apply Hu in Hx. rewrite E1. by apply I4.
  - intros e' i' Hx He' Hi'. apply Hu in Hx. rewrite E1 in He'. rewrite Hwa by done. case_decide; [|by apply I5].
    intros Hwu. destruct (Hwf Hwu) as [[? _]|?]; [by left|by right].
  - intros x k ptr Hx. apply Hu in Hx. rewrite E1, E3. by apply I6.
  - intros x x' k ptr Hx Hx'. apply Hu in Hx, Hx'. rewrite E1. by apply I7.
  - intros k ptr. rewrite E3. intros Hp. destruct (I8 k ptr Hp) as (x & Hx & Hxo). exists x. rewrite Hu, E1. done.
  - intros k k' ptr. rewrite !E3. apply I9.
  - intros k ptr. rewrite E3, E4. apply I10.
  - rewrite E2. intros ptr p Hpp. destruct (I11 ptr p Hpp) as [Hw He']. split; [done|]. intros b. destruct (He' b) as [H1 H2].
    unfold end_of. split; [intros x (Hx & Hr); rewrite E1 in *; apply H1; by split; [apply Hu|]|].
    intros Hn. destruct (H2 Hn) as [x (Hx & Hr)]. exists x. rewrite E1. by split; [apply Hu|].
Qed.

(** ** The operations on counts *)

Lemma sync_descriptor_npk s fd : exists n, (sync_descriptor s fd).2 = set_npk s n.
Proof.
  unfold sync_descriptor. assert (Hs : exists n, s = set_npk s n) by (exists (v_npk s); by destruct s).
  destruct (d_persistent (file s fd)), (d_persistent_inode (file s fd)) as [i|], (v_pdata s !! d_persistent_data (file s fd)) as [l|]; try done.
  destruct (persistent_sync_descriptor (v_npk s) i (f_size (file s fd)) (chunk 512 128 l)) as [rc n]. by exists n.
Qed.

Lemma shm_free_live (o : shm_object) n i (k : K) :
  ve_live (for_range (fun i k => if negb ((sh_pages o).[i] =? 0) then ve_free_page k (sh_pages o).[i] else k) i n k) = ve_live k.
Proof.
  revert i k; induction n as [|n IH]; intros i k; [done|]. cbn [for_range]. rewrite IH. destruct (negb _); [apply ve_free_live|done].
Qed.

(** What is left after [release]. *)
Record taken_down s s' (fd : Z) : Prop := {
  td_files : forall x, file s' x = if decide (x = fd) then zero_desc else file s x;
  td_epolls : forall ptr, v_epolls s' !! ptr = if decide (owner (file s fd) = Some (OEpoll, ptr)) then None else v_epolls s !! ptr;
  td_objs : forall k ptr, k <> OPipe -> ptr ∈ objs s' k <-> ptr ∈ objs s k /\ owner (file s fd) <> Some (k, ptr);
  td_pipes : v_pipes s' = match pipe_of s fd with
                          | Some p => if (p_readers p =? 0) && (p_writers p =? 0) then delete (d_pipe (file s fd)) (v_pipes s) else v_pipes s
                          | None => v_pipes s end;
  td_live : forall ptr, ptr ∈ ve_live (v_env s) ->
    (forall k, owner (file s fd) = Some (k, ptr) -> k = OPipe /\ ptr ∈ dom (v_pipes s')) -> ptr ∈ ve_live (v_env s') }.

Definition frees_pipe s fd : bool :=
  match pipe_of s fd with Some p => (p_readers p =? 0) && (p_writers p =? 0) | None => false end.
Definition drop_if {A} (b : bool) (ptr : Z) (m : gmap Z A) : gmap Z A := if b then delete ptr m else m.
Definition set_if (b : bool) (ptr : Z) : gset Z := if b then {[ ptr ]} else ∅.

Lemma release_fields s fd :
  let d := file s fd in
  let e := d_is_epoll d && negb (d_epoll d =? 0) in
  let h := d_is_shm d && negb (d_shm d =? 0) in
  let q := d_persistent d && negb (d_persistent_data d =? 0) in
  v_files (release s fd) = (v_files s).[fd <- zero_desc] /\
  v_epolls (release s fd) = drop_if e (d_epoll d) (v_epolls s) /\ v_shms (release s fd) = drop_if h (d_shm d) (v_shms s) /\
  v_pdata (release s fd) = drop_if q (d_persistent_data d) (v_pdata s) /\ v_pipes (release s fd) = drop_if (frees_pipe s fd) (d_pipe d) (v_pipes s) /\
  ve_live (v_env (release s fd)) = (((ve_live (v_env s) ∖ set_if e (d_epoll d)) ∖ set_if h (d_shm d)) ∖ set_if q (d_persistent_data d)) ∖ set_if (frees_pipe s fd) (d_pipe d).
Proof.
  intros d e h q. unfold release. fold d. fold e h q. unfold frees_pipe.
  assert (Hse : exists s1, s1 = (if e then free_epoll s (d_epoll d) else s) /\ v_files s1 = v_files s /\ v_pipes s1 = v_pipes s /\ v_shms s1 = v_shms s /\
    v_pdata s1 = v_pdata s /\ v_epolls s1 = drop_if e (d_epoll d) (v_epolls s) /\ ve_live (v_env s1) = ve_live (v_env s) ∖ set_if e (d_epoll d)).
  { eexists. split; [reflexivity|]. destruct e; cbn; rewrite ?ve_kfree_live, ?difference_empty_L; done. }
  destruct Hse as (s1 & <- & F1 & P1 & S1 & D1 & E1 & L1).
  set (s2 := if h then _ else s1). assert (H2 : v_files s2 = v_files s /\ v_pipes s2 = v_pipes s /\ v_shms s2 = drop_if h (d_shm d) (v_shms s) /\
    v_pdata s2 = v_pdata s /\ v_epolls s2 = drop_if e (d_epoll d) (v_epolls s) /\ ve_live (v_env s2) = (ve_live (v_env s) ∖ set_if e (d_epoll d)) ∖ set_if h (d_shm d)).
  { unfold s2. destruct h; cbn; rewrite ?ve_kfree_live, ?shm_free_live, ?difference_empty_L, ?F1, ?P1, ?S1, ?D1, ?E1, ?L1; done. }
  destruct H2 as (F2 & P2 & S2 & D2 & E2 & L2). destruct (sync_descriptor_npk s2 fd) as [n Hn].
  set (s3 := if q then _ else s2). assert (H3 : v_files s3 = v_files s /\ v_pipes s3 = v_pipes s /\ v_shms s3 = drop_if h (d_shm d) (v_shms s) /\
    v_pdata s3 = drop_if q (d_persistent_data d) (v_pdata s) /\ v_epolls s3 = drop_if e (d_epoll d) (v_epolls s) /\
    ve_live (v_env s3) = ((ve_live (v_env s) ∖ set_if e (d_epoll d)) ∖ set_if h (d_shm d)) ∖ set_if q (d_persistent_data d)).
  { unfold s3. rewrite Hn. destruct q; cbn; rewrite ?ve_kfree_live, ?difference_empty_L, ?F2, ?P2, ?S2, ?D2, ?E2, ?L2; done. }
  destruct H3 as (F3 & P3 & S3 & D3 & E3 & L3).
  assert (Hpo : pipe_of s3 fd = pipe_of s fd) by (unfold pipe_of; by rewrite F3, P3). rewrite Hpo.
  destruct (pipe_of s fd) as [p|]; [destruct ((p_readers p =? 0) && (p_writers p =? 0))|];
    cbn; rewrite ?ve_kfree_live, ?difference_empty_L, ?F3, ?P3, ?S3, ?D3, ?E3, ?L3; done.
Qed.

Lemma elem_drop_if {A} b ptr (m : gmap Z A) x : x ∈ dom (drop_if b ptr m) <-> x ∈ dom m /\ (b = true -> x <> ptr).
Proof. unfold drop_if. destruct b; [rewrite dom_delete; set_solver|set_solver]. Qed.

Lemma elem_set_if b ptr x : x ∈ set_if b ptr <-> b = true /\ x = ptr.
Proof. unfold set_if. destruct b; set_solver. Qed.

Lemma flag_owner d k ptr : kind_ok d -> owner d = Some (k, ptr) <->
  match k with
  | OPipe => d_is_pipe d = true /\ d_pipe d = ptr
  | OEpoll => d_is_epoll d && negb (d_epoll d =? 0) = true /\ d_epoll d = ptr
  | OShm => d_is_shm d && negb (d_shm d =? 0) = true /\ d_shm d = ptr
  | OData => d_persistent d && negb (d_persistent_data d =? 0) = true /\ d_persistent_data d = ptr
  end.
Proof.
  intros (K1 & K2 & K3 & K4 & K5). unfold owner. destruct k; rewrite ?andb_true_iff, ?negb_true_iff, ?Z.eqb_neq;
    destruct (d_is_pipe d), (d_is_epoll d), (d_is_shm d), (d_persistent d); naive_solver.
Qed.

Lemma release_spec s fd : kind_ok (file s fd) -> taken_down s (release s fd) fd.
Proof.
  intros Hk. destruct (release_fields s fd) as (F & E & S & D & P & L). constructor.
  - intros x. rewrite F, aget_aset. do 2 case_decide; congruence.
  - intros ptr. rewrite E. unfold drop_if. pose proof (flag_owner _ OEpoll ptr Hk) as Ho.
    destruct (d_is_epoll (file s fd) && negb (d_epoll (file s fd) =? 0)); [|rewrite decide_False; [done|]; rewrite Ho; by intros [? _]].
    case_decide as Hd; rewrite Ho in Hd; [destruct Hd as [_ <-]; apply lookup_delete_eq|rewrite lookup_delete_ne; [done|naive_solver]].
  - intros k ptr Hne. pose proof (flag_owner _ k ptr Hk) as Ho. destruct k; [done|..]; cbn [objs]; rewrite ?E, ?S, ?D, elem_drop_if, Ho; naive_solver.
  - rewrite P. unfold frees_pipe, drop_if. by destruct (pipe_of s fd).
  - intros ptr Hl Ho. rewrite L. pose proof (fun k => flag_owner _ k ptr Hk) as Hf.
    rewrite !elem_of_difference, !elem_set_if. repeat split; [done|..].
    + intros [He ->]. by destruct (Ho OEpoll) as [? _]; [by apply Hf|].
    + intros [He ->]. by destruct (Ho OShm) as [? _]; [by apply Hf|].
    + intros [He ->]. by destruct (Ho OData) as [? _]; [by apply Hf|].
    + intros [He ->]. assert (Hp : d_is_pipe (file s fd) = true).
      { destruct Hk as (K1 & _). apply K1. unfold frees_pipe, pipe_of in He. intros Hz. by rewrite Hz in He. }
      destruct (Ho OPipe) as [_ Hin]; [by apply Hf|]. rewrite P in Hin. apply elem_drop_if in Hin as [_ Hin]. by apply Hin.
Qed.

Lemma pipe_self s own pend dying fd :
  vfs_inv s own pend dying -> used_fd s fd -> d_is_pipe (file s fd) = true ->
  exists p, v_pipes s !! d_pipe (file s fd) = Some p /\ pipe_of s fd = Some p /\ d_writable (file s fd) = negb (d_readable (file s fd)) /\
    (if d_readable (file s fd) then p_readers p else p_writers p) = d_refs (file s fd).
Proof.
  intros I Hu Hp. assert (Ho : owner (file s fd) = Some (OPipe, d_pipe (file s fd))) by (unfold owner; by rewrite Hp).
  pose proof (vi_owned _ _ _ _ I fd OPipe _ Hu Ho) as Hin. cbn [objs] in Hin. apply elem_of_dom in Hin as [p Hpp]. exists p. destruct (vi_kind _ _ _ _ I fd Hu) as (K1 & _ & _ & _ & K5).
  rewrite Hp in K5. assert (Hz : d_pipe (file s fd) <> 0) by (by apply K1). split; [done|].
  split; [unfold pipe_of; by replace (d_pipe (file s fd) =? 0) with false by lia|]. split; [apply K5|].
  destruct (vi_pipe _ _ _ _ I _ p Hpp) as [_ He]. destruct (He (d_readable (file s fd))) as [H1 _]. by apply H1.
Qed.

Lemma nonpipe_of s own pend dying fd :
  vfs_inv s own pend dying -> used_fd s fd -> d_is_pipe (file s fd) = false -> pipe_of s fd = None.
Proof.
  intros I Hu Hp. destruct (vi_kind _ _ _ _ I fd Hu) as (K1 & _). unfold pipe_of. replace (d_pipe (file s fd) =? 0) with true; [done|].
  destruct (d_pipe (file s fd) =? 0) eqn:E; [done|]. rewrite Hp in K1. assert (false = true) by (apply K1; lia). done.
Qed.

Lemma set_file_at s fd d x : file (set_file s fd d) x = if decide (x = fd) then d else file s x.
Proof. cbn. rewrite aget_aset. do 2 case_decide; congruence. Qed.

Lemma retain_recounted s own pend dying fd :
  vfs_inv s own pend dying -> used_fd s fd -> d_refs (file s fd) <> UINT32_MAX ->
  (vfs_retain s fd).1 = 0 /\ recounted s (vfs_retain s fd).2 fd (d_refs (file s fd) + 1).
Proof.
  intros I Hu Hm. destruct (vi_refs _ _ _ _ I fd Hu) as (Hr & Ho & Hmx). pose proof (watches_nonneg s pend fd).
  assert (Hx : u32 (d_refs (file s fd) + 1) = d_refs (file s fd) + 1) by (apply u32_small; unfold UINT32_MAX in *; lia).
  unfold vfs_retain. replace ((fd =? 0) || (fd =? 1) || (fd =? 2)) with false by (destruct Hu; table).
  rewrite (proj2 (open_fd_spec s fd) Hu). replace (d_refs (file s fd) =? UINT32_MAX) with false by lia. cbn [negb orb]. rewrite Hx.
  change (pipe_of (set_file s fd (with_refs (file s fd) (d_refs (file s fd) + 1))) fd) with
    (if d_pipe ((v_files s).[fd <- with_refs (file s fd) (d_refs (file s fd) + 1)]).[fd] =? 0 then None else v_pipes s !! d_pipe ((v_files s).[fd <- with_refs (file s fd) (d_refs (file s fd) + 1)]).[fd]).
  rewrite aget_aset_eq. cbn [with_refs d_pipe]. fold (pipe_of s fd). destruct (d_is_pipe (file s fd)) eqn:Ep.
  - destruct (pipe_self s own pend dying fd I Hu Ep) as (p & Hp & -> & Hw & Hn). split; [done|]. constructor; try done.
    + intros x. exact (set_file_at s fd _ x).
    + rewrite Ep. exists p. split; [done|]. cbn [snd v_pipes set_pipe set_pipes set_file v_files]. rewrite aget_aset_eq. cbn [with_refs d_pipe]. f_equal.
      rewrite Hw. unfold at_end. destruct (d_readable (file s fd)); cbn [negb]; by rewrite Hn, Hx.
  - split; [done|]. constructor; try done; [intros x; exact (set_file_at s fd _ x)|by rewrite Ep].
Qed.

Definition dropped s fd : vfs K := set_file (drop_end s fd) fd (with_refs (file s fd) (d_refs (file s fd) - 1)).

Lemma drop_recounted s own pend dying fd :
  vfs_inv s own pend dying -> used_fd s fd -> d_refs (file s fd) <> 0 ->
  v_files (drop_end s fd) = v_files s /\ recounted s (dropped s fd) fd (d_refs (file s fd) - 1).
Proof.
  intros I Hu Hz. unfold dropped, drop_end. destruct (d_is_pipe (file s fd)) eqn:Ep.
  - destruct (pipe_self s own pend dying fd I Hu Ep) as (p & Hp & -> & Hw & Hn). split; [done|]. constructor; try done.
    + intros x. exact (set_file_at s fd _ x).
    + rewrite Ep. exists p. split; [done|]. cbn [v_pipes set_pipe set_pipes set_file]. f_equal. rewrite Hw. unfold at_end.
      destruct (d_readable (file s fd)); cbn [negb andb]; rewrite Hn; by replace (d_refs (file s fd) =? 0) with false by lia.
  - split; [done|]. constructor; try done; [intros x; exact (set_file_at s fd _ x)|by rewrite Ep].
Qed.

Lemma release_released s s1 own pend dying fd :
  vfs_inv s own pend dying -> used_fd s fd -> recounted s s1 fd 0 -> released s (release s1 fd) fd.
Proof.
  intros I Hu R. pose proof R as [R1 R2 R3 R4 R5 R6]. assert (Hf : file s1 fd = with_refs (file s fd) 0) by (by rewrite R1, decide_True).
  assert (Hk : kind_ok (file s1 fd)) by (rewrite Hf; by apply (vi_kind _ _ _ _ I)).
  assert (Ho : owner (file s1 fd) = owner (file s fd)) by (by rewrite Hf). destruct (release_spec s1 fd Hk) as [T1 T2 T3 T4 T5].
  assert (Hob : forall k ptr, k <> OPipe -> ptr ∈ objs s1 k <-> ptr ∈ objs s k) by (intros [] ptr Hne; cbn; by rewrite ?R2, ?R3, ?R4).
  constructor.
  - intros x. rewrite T1, R1. by case_decide.
  - intros ptr. by rewrite T2, Ho, R2.
  - intros k ptr Hne. by rewrite T3, Ho, Hob.
  - destruct (d_is_pipe (file s fd)) eqn:Ep.
    + destruct R6 as (p & Hp & Hps). exists p. split; [done|]. rewrite T4. unfold pipe_of. rewrite Hf. cbn [with_refs d_pipe].
      destruct (vi_kind _ _ _ _ I fd Hu) as (K1 & _). assert (Hz : d_pipe (file s fd) <> 0) by (by apply K1). replace (d_pipe (file s fd) =? 0) with false by lia.
      rewrite Hps, lookup_insert_eq. unfold other_end, at_end.
      destruct (d_readable (file s fd)); cbn [with_ends p_readers p_writers Z.eqb andb]; rewrite ?andb_true_r; destruct (_ =? 0); rewrite ?delete_insert_eq; done.
    + rewrite T4. unfold pipe_of. rewrite Hf. cbn [with_refs d_pipe]. pose proof (nonpipe_of s own pend dying fd I Hu Ep) as Hn. unfold pipe_of in Hn.
      rewrite R6, Hn. done.
  - intros k ptr Hin Hc Hl. apply T5; [by rewrite R5|]. intros k' Ho'. rewrite Ho in Ho'.
    pose proof (vi_owned _ _ _ _ I fd k' ptr Hu Ho') as Hin'. pose proof (vi_disj _ _ _ _ I k k' ptr Hin Hin') as <-. by destruct Hc.
Qed.
End Refs.
