(* ===== verification/VfsClose.v ===== *)
(** * Closing descriptors and epoll sets

    [vfs_close] calls itself for the descriptors an epoll set watches.  It
    keeps the invariant of the references, gives back exactly one reference of
    its argument, and terminates within the depth [Vfs.vfs_close] allows. *)

From Stdlib Require Import ZArith Lia Bool ZifyBool.
From stdpp Require Import base numbers list gmap.
From S2P Require Import Prelude Kstring Path Newc Ata Npkfs Procfs Vfs VfsPipe VfsRefs.

Open Scope Z_scope.
Open Scope npk_scope.

Section Close.
Context {K : Type} `{VfsEnvLaws K}.
Implicit Type s : vfs K.
Notation file s fd := ((v_files s).[fd]).

(** What a close leaves alone: a descriptor that stays open keeps everything
    but its count, and one that is being taken down further out is untouched. *)
Record close_frame s s' (dying : list Z) : Prop := {
  cf_used : forall x, used_fd s' x -> used_fd s x /\ file s' x = with_refs (file s x) (d_refs (file s' x));
  cf_dying : forall x, x ∈ dying -> file s' x = file s x /\ forall i, watch_at s' x i = watch_at s x i }.

Lemma close_frame_refl s dying : close_frame s s dying.
Proof. constructor; [intros x Hx; split; [done|by destruct (file s x)]|done]. Qed.

Lemma close_frame_trans s1 s2 s3 dying : close_frame s1 s2 dying -> close_frame s2 s3 dying -> close_frame s1 s3 dying.
Proof.
  intros [A1 A2] [B1 B2]. constructor.
  - intros x Hx. destruct (B1 x Hx) as [Hx2 E2]. destruct (A1 x Hx2) as [Hx1 E1]. split; [done|]. rewrite E2, E1 at 1. done.
  - intros x Hx. destruct (A2 x Hx) as [E1 W1], (B2 x Hx) as [E2 W2]. split; [congruence|]. intros i. by rewrite W2, W1.
Qed.

Lemma close_frame_sub s s' dying dying' : (forall x, x ∈ dying' -> x ∈ dying) -> close_frame s s' dying -> close_frame s s' dying'.
Proof. intros Hs [A1 A2]. constructor; [done|]. intros x Hx. by apply A2, Hs. Qed.

(** The contract of a close function. *)
Definition closes (close : vfs K -> Z -> option (Z * vfs K)) : Prop :=
  (forall s fd r, 0 <= fd <= 2 -> close s fd = Some r -> r = (0, s)) /\
  forall s own pend dying fd rc s',
    vfs_inv s own pend dying -> used_fd s fd -> 1 <= own fd ->
    (forall q, q ∈ pend -> q.1 ∈ dying \/ 1 <= bump own fd (-1) q.1) ->
    close s fd = Some (rc, s') -> rc = 0 /\ vfs_inv s' (bump own fd (-1)) pend dying /\ close_frame s s' dying.

Lemma dying_own s own pend dying e : vfs_inv s own pend dying -> e ∈ dying -> used_fd s e /\ own e = 0 /\ d_is_epoll (file s e) = true.
Proof.
  intros I He. destruct (proj1 (vi_dying _ _ _ _ I e) He) as [Hu Hr]. split; [done|].
  destruct (vi_refs _ _ _ _ I e Hu) as (Hb & Ho & _). pose proof (watches_nonneg s pend e). split; [lia|by apply (vi_dying_epoll _ _ _ _ I)].
Qed.

(** A watch of the set [e] gives up its reference: one round of the loop. *)
Lemma close_one close s own pend dying e i r :
  closes close -> vfs_inv s own pend dying -> used_fd s e -> d_is_epoll (file s e) = true -> (e, i) ∉ pend -> 0 <= i < 32 ->
  (forall q, q ∈ pend -> q.1 ∈ dying \/ 1 <= own q.1) -> e ∈ dying \/ 1 <= own e ->
  w_used (watch_at s e i) = true -> close s (w_fd (watch_at s e i)) = Some r ->
  vfs_inv r.2 own ((e, i) :: pend) dying /\ close_frame s r.2 dying /\ used_fd r.2 e /\ d_is_epoll (file r.2 e) = true /\
  vfs_inv (set_watch r.2 e i zero_watch) own pend dying.
Proof.
  intros [Hstd Hcl] I He Hep Hnp Hi Hpend Hde Hw Hr. set (x := w_fd (watch_at s e i)) in *.
  pose proof (inv_pend s own pend dying e i I He Hep Hi Hnp Hw) as Ip. fold x in Ip.
  assert (Hb : forall own y, bump (bump own y 1) y (-1) y = own y) by (intros o y; unfold bump; rewrite Z.eqb_refl; lia).
  assert (Hmain : vfs_inv r.2 own ((e, i) :: pend) dying /\ close_frame s r.2 dying).
  { destruct (vi_watch _ _ _ _ I e i He Hep Hi Hw) as [Ht|Hs].
    - assert (Hx : used_fd s x).
      { split; [done|]. destruct (d_used (file s x)) eqn:E; [done|]. destruct (vi_unused _ _ _ _ I x Ht E) as (_ & _ & Hz).
        pose proof (watch_counted s own pend dying e i I He Hep Hi Hnp Hw). fold x in H1. lia. }
      destruct r as [rc s']. destruct (Hcl s _ _ dying x rc s' Ip Hx) as (_ & I' & F); [| |done|].
      + unfold bump. rewrite Z.eqb_refl. destruct (vi_refs _ _ _ _ I x Hx). lia.
      + intros q Hq. assert (Hbq : bump (bump own x 1) x (-1) q.1 = own q.1) by (unfold bump; destruct (q.1 =? x); lia). rewrite Hbq.
        apply elem_of_cons in Hq as [->|Hq]; [done|by apply Hpend].
      + split; [|done]. eapply inv_own_ext; [|exact I']. intros y Hy. unfold bump. destruct (y =? x); lia.
    - rewrite (Hstd s x r Hs Hr). split; [|apply close_frame_refl]. eapply inv_own_ext; [|exact Ip]. intros y Hy. unfold bump.
      replace (y =? x) with false; [done|]. unfold in_table, OPEN_DESCRIPTOR_BASE, MAX_INITRD_FILES in Hy. fold x in Hs. lia. }
  destruct Hmain as [I' F]. split; [done|]. split; [done|].
  assert (He' : used_fd r.2 e).
  { destruct Hde as [Hd|Ho]; [by destruct (dying_own _ _ _ _ e I' Hd)|]. split; [apply He|]. destruct (d_used (file r.2 e)) eqn:E; [done|].
    destruct (vi_unused _ _ _ _ I' e (proj1 He) E) as (_ & Hz & _). lia. }
  assert (Hep' : d_is_epoll (file r.2 e) = true) by (destruct (cf_used _ _ _ F e He') as [_ ->]; done).
  split; [done|]. split; [done|]. apply (inv_set_watch r.2 own own ((e, i) :: pend) pend dying e i zero_watch); try done.
  - intros p. rewrite elem_of_cons. split; [intros Hp; split; [by right|congruence]|intros [[?|?] ?]; congruence || done].
  - intros y Hy. unfold slot_refs. rewrite bool_decide_true by left. cbn. split; [lia|].
    destruct (d_used (file r.2 y)) eqn:E; [by destruct (vi_refs _ _ _ _ I' y (conj Hy E)) as (_ & ? & _)|destruct (vi_unused _ _ _ _ I' y Hy E); lia].
Qed.

Lemma unwatch_frame s own pend dying e i :
  vfs_inv s own pend dying -> used_fd s e -> d_is_epoll (file s e) = true ->
  (forall x, file (set_watch s e i zero_watch) x = file s x) /\ (forall x, used_fd (set_watch s e i zero_watch) x <-> used_fd s x) /\
  (forall x j, x ∈ dying -> x <> e -> watch_at (set_watch s e i zero_watch) x j = watch_at s x j) /\
  (forall j, watch_at (set_watch s e i zero_watch) e j = if decide (j = i) then zero_watch else watch_at s e j).
Proof.
  intros I He Hep. destruct (set_watch_spec s own pend dying e i zero_watch I He Hep) as (E1 & _ & _ & _ & Hwa).
  split; [by rewrite E1|]. split; [unfold used_fd; by rewrite E1|]. split.
  - intros x j Hx Hne. destruct (dying_own s own pend dying x I Hx) as (Hu & _ & Hxe). rewrite Hwa, decide_False by (done || congruence). done.
  - intros j. rewrite Hwa by done. do 2 case_decide; congruence.
Qed.

Lemma close_watches_inv close ws s own pend dying e s' :
  closes close -> vfs_inv s own pend dying -> e ∈ dying -> (forall q, q ∈ pend -> q.1 ∈ dying /\ q.1 <> e \/ 1 <= own q.1) ->
  Forall (fun i => 0 <= i < 32) ws -> (forall i, 0 <= i < 32 -> i ∈ ws \/ w_used (watch_at s e i) = false) ->
  close_watches close s e ws = Some s' ->
  vfs_inv s' own pend dying /\ file s' e = file s e /\ (forall i, 0 <= i < 32 -> w_used (watch_at s' e i) = false) /\
  (forall x, used_fd s' x -> used_fd s x /\ file s' x = with_refs (file s x) (d_refs (file s' x))) /\
  (forall x, x ∈ dying -> x <> e -> file s' x = file s x /\ forall i, watch_at s' x i = watch_at s x i).
Proof.
  intros Hcl. revert s. induction ws as [|i ws IH]; intros s I He Hpend Hws Hcov Hc.
  { injection Hc as <-. split; [done|]. split; [done|]. split; [intros j Hj; destruct (Hcov j Hj) as [Hin|?]; [by apply not_elem_of_nil in Hin|done]|].
    split; [|done]. intros x Hx. split; [done|]. by destruct (file s x). }
  inversion Hws as [|? ? Hi Hws' Heq]; subst. destruct (dying_own s own pend dying e I He) as (Hu & Ho & Hep). cbn [close_watches] in Hc.
  destruct (w_used (watch_at s e i)) eqn:Ew.
  2: { apply (IH s) in Hc; try done. intros j Hj. destruct (Hcov j Hj) as [Hin|?]; [|by right]. apply elem_of_cons in Hin as [->|?]; [by right|by left]. }
  assert (Hnp : (e, i) ∉ pend) by (intros Hin; destruct (Hpend _ Hin) as [[_ ?]|?]; cbn in *; [done|lia]).
  destruct (close s (w_fd (watch_at s e i))) as [[rc s1]|] eqn:Er; [|done].
  destruct (close_one close s own pend dying e i (rc, s1) Hcl I Hu Hep Hnp Hi) as (I1 & F & Hu1 & Hep1 & I2); [|by left|done|done|].
  { intros q Hq. destruct (Hpend q Hq) as [[? _]|?]; [by left|by right]. }
  cbn [snd] in *. destruct (unwatch_frame s1 own ((e, i) :: pend) dying e i I1 Hu1 Hep1) as (G1 & G2 & G3 & G4).
  destruct (cf_dying _ _ _ F e He) as [Fe Fw]. apply (IH (set_watch s1 e i zero_watch)) in Hc; try done.
  2: { intros j Hj. rewrite G4. case_decide as Hd; [by right|]. rewrite Fw. destruct (Hcov j Hj) as [Hin|?]; [|by right]. apply elem_of_cons in Hin as [->|?]; [done|by left]. }
  destruct Hc as (I' & C1 & C2 & C3 & C4). split; [done|]. split; [by rewrite C1, G1, Fe|]. split; [done|]. split.
  - intros x Hx. destruct (C3 x Hx) as [Hx2 E2]. apply G2 in Hx2. rewrite G1 in E2. destruct (cf_used _ _ _ F x Hx2) as [Hx1 E1]. split; [done|]. rewrite E2, E1 at 1. done.
  - intros x Hx Hne. destruct (C4 x Hx Hne) as [E2 W2]. destruct (cf_dying _ _ _ F x Hx) as [E1 W1]. rewrite G1 in E2. split; [congruence|].
    intros j. by rewrite W2, G3, W1.
Qed.

Lemma recounted_frame s s' dying fd n :
  recounted s s' fd n -> fd ∉ dying -> close_frame s s' dying.
Proof.
  intros [R1 R2 _ _ _ _] Hnd. constructor.
  - intros x [Ht Hx]. rewrite R1 in Hx |- *. case_decide as Hd; [subst x; by split|]. split; [done|]. by destruct (file s x).
  - intros x Hx. rewrite R1, decide_False by congruence. split; [done|]. intros i. unfold watch_at. by rewrite R2, R1, decide_False by congruence.
Qed.

Lemma released_frame s s' own pend dying dying' fd :
  vfs_inv s own pend dying -> used_fd s fd -> released s s' fd -> fd ∉ dying' -> (forall x, x ∈ dying' -> x ∈ dying) -> close_frame s s' dying'.
Proof.
  intros I Hu R Hnd Hs. constructor.
  - intros x [Ht Hx]. rewrite (rl_files _ _ _ R) in Hx |- *. case_decide as Hd; [done|]. split; [done|]. by destruct (file s x).
  - intros x Hx. destruct (dying_own s own pend dying x I (Hs x Hx)) as (Hux & _ & Hxe). rewrite (rl_files _ _ _ R), decide_False by congruence. split; [done|].
    intros i. apply (released_watch s s' own pend dying fd); try done. congruence.
Qed.

Lemma watch_indices_range : Forall (fun i => 0 <= i < 32) watch_indices /\ forall i, 0 <= i < 32 -> i ∈ watch_indices.
Proof.
  split; [apply Forall_forall; intros i Hi|intros i Hi]; unfold watch_indices, EPOLL_MAX_WATCHES in *; [apply elem_of_seqZ in Hi; lia|apply elem_of_seqZ; lia].
Qed.

Lemma std_fd fd : in_table fd -> (fd =? 0) || (fd =? 1) || (fd =? 2) = false.
Proof. unfold in_table, OPEN_DESCRIPTOR_BASE, MAX_INITRD_FILES. lia. Qed.

(** One call, with the checks on its argument done. *)
Lemma close_unfold fuel s own pend dying fd :
  vfs_inv s own pend dying -> used_fd s fd -> d_refs (file s fd) <> 0 ->
  vfs_close_fuel (S fuel) s fd =
    if negb (d_refs (file s fd) - 1 =? 0) then Some (0, dropped s fd)
    else match (if d_is_epoll (file s fd) then close_watches (vfs_close_fuel fuel) (dropped s fd) fd watch_indices else Some (dropped s fd)) with
         | None => None
         | Some s => Some (0, release s fd)
         end.
Proof.
  intros I Hu Hz. cbn [vfs_close_fuel]. rewrite std_fd by apply Hu. rewrite (proj2 (open_fd_spec s fd) Hu).
  replace (d_refs (file s fd) =? 0) with false by lia. cbn [negb orb]. destruct (drop_recounted s own pend dying fd I Hu Hz) as [Hf _]. rewrite Hf.
  unfold dropped. destruct (negb _); [done|]. destruct (vi_kind _ _ _ _ I fd Hu) as (_ & K2 & _). destruct (d_is_epoll (file s fd)) eqn:E; [|done].
  replace (d_epoll (file s fd) =? 0) with false; [done|]. assert (d_epoll (file s fd) <> 0) by (by apply K2). lia.
Qed.

Section Steps.
Context s (own : Z -> Z) (pend : list (Z * Z)) (dying : list Z) (fd : Z).
Hypotheses (I : vfs_inv s own pend dying) (Hu : used_fd s fd) (Ho : 1 <= own fd).
Hypothesis Hpend : forall q, q ∈ pend -> q.1 ∈ dying \/ 1 <= bump own fd (-1) q.1.

Lemma step_refs : d_refs (file s fd) <> 0 /\ fd ∉ dying.
Proof.
  destruct (vi_refs _ _ _ _ I fd Hu) as (Hr & _ & _). pose proof (watches_nonneg s pend fd). split; [lia|].
  intros Hin. apply (vi_dying _ _ _ _ I) in Hin as [_ ?]. lia.
Qed.

Lemma step_own n x : n = d_refs (file s fd) - 1 -> bump own fd (n - d_refs (file s fd)) x = bump own fd (-1) x.
Proof using. intros ->. unfold bump. destruct (x =? fd); lia. Qed.

Lemma close_shared :
  d_refs (file s fd) - 1 <> 0 -> vfs_inv (dropped s fd) (bump own fd (-1)) pend dying /\ close_frame s (dropped s fd) dying.
Proof using I Hu Ho.
  intros Hn. destruct step_refs as [Hz Hnd]. destruct (drop_recounted s own pend dying fd I Hu Hz) as [_ R]. split; [|by eapply recounted_frame].
  destruct (vi_refs _ _ _ _ I fd Hu) as (Hr & _ & Hm).
  eapply inv_own_ext; [intros x _; symmetry; by apply (step_own (d_refs (file s fd) - 1))|].
  apply (inv_recount s (dropped s fd) own pend dying dying fd _ I Hu R); [lia|lia|lia|].
  intros x. case_decide; [subst x; split; [done|lia]|done].
Qed.

Lemma close_plain :
  d_refs (file s fd) - 1 = 0 -> d_is_epoll (file s fd) = false ->
  vfs_inv (release (dropped s fd) fd) (bump own fd (-1)) pend dying /\ close_frame s (release (dropped s fd) fd) dying.
Proof using I Hu Ho.
  intros Hn He. destruct step_refs as [Hz Hnd]. destruct (drop_recounted s own pend dying fd I Hu Hz) as [_ R]. rewrite Hn in R.
  pose proof (release_released s (dropped s fd) own pend dying fd I Hu R) as RL. split; [|by eapply released_frame].
  destruct (vi_refs _ _ _ _ I fd Hu) as (Hr & _ & _). pose proof (watches_nonneg s pend fd).
  assert (Hdy : forall x, x ∈ dying <-> x ∈ dying /\ x <> fd) by (intros x; split; [intros Hx; split; [done|congruence]|by intros []]).
  assert (Hof : own fd = d_refs (file s fd)) by lia. assert (Hem : d_is_epoll (file s fd) = true -> forall i, 0 <= i < 32 -> w_used (watch_at s fd i) = false) by congruence.
  eapply inv_own_ext; [|exact (inv_release s _ own pend dying dying fd I Hu RL Hof Hem Hdy)].
  intros x _. unfold bump. destruct (x =? fd) eqn:E; [|done]. replace x with fd by lia. lia.
Qed.

Lemma close_epoll close s2 :
  closes close -> d_refs (file s fd) - 1 = 0 -> d_is_epoll (file s fd) = true -> close_watches close (dropped s fd) fd watch_indices = Some s2 ->
  vfs_inv (release s2 fd) (bump own fd (-1)) pend dying /\ close_frame s (release s2 fd) dying.
Proof using I Hu Ho Hpend.
  intros Hcl Hn He Hw. destruct step_refs as [Hz Hnd]. destruct (drop_recounted s own pend dying fd I Hu Hz) as [_ R]. rewrite Hn in R.
  set (own' := bump own fd (-1)) in *. assert (Hin : fd ∈ fd :: dying) by left.
  assert (I1 : vfs_inv (dropped s fd) own' pend (fd :: dying)).
  { destruct (vi_refs _ _ _ _ I fd Hu) as (Hr & _ & _). eapply inv_own_ext; [intros x _; symmetry; by apply (step_own 0)|].
    apply (inv_recount s (dropped s fd) own pend dying (fd :: dying) fd 0 I Hu R); [lia|done|done|].
    intros x. rewrite elem_of_cons. case_decide as Hd; [by split; [|left]|split; [intros [?|?]; done|by right]]. }
  assert (Hq : forall q, q ∈ pend -> q.1 ∈ fd :: dying /\ q.1 <> fd \/ 1 <= own' q.1).
  { intros q Hq. destruct (Hpend q Hq) as [Hq1|?]; [|by right]. left. split; [by right|]. intros Heq. by rewrite Heq in Hq1. }
  destruct (close_watches_inv _ _ _ own' pend (fd :: dying) fd s2 Hcl I1 Hin Hq (proj1 watch_indices_range)
    (fun i Hi => or_introl (proj2 watch_indices_range i Hi)) Hw) as (I2 & C1 & C2 & C3 & C4).
  destruct (dying_own s2 own' pend (fd :: dying) fd I2 Hin) as (Hu2 & Ho2 & Hep2).
  assert (Hr2 : d_refs (file s2 fd) = 0) by (by apply (vi_dying _ _ _ _ I2)).
  assert (R2 : recounted s2 s2 fd 0).
  { constructor; try done.
    - intros x. case_decide as Hd; [subst x; rewrite <-Hr2; by destruct (file s2 fd)|done].
    - destruct (vi_kind _ _ _ _ I2 fd Hu2) as (_ & _ & _ & _ & K5). destruct (d_is_pipe (file s2 fd)); [destruct K5; congruence|done]. }
  pose proof (release_released s2 s2 own' pend (fd :: dying) fd I2 Hu2 R2) as RL.
  assert (Hdy : forall x, x ∈ dying <-> x ∈ fd :: dying /\ x <> fd).
  { intros x. rewrite elem_of_cons. split; [intros Hx; split; [by right|congruence]|intros [[?|?] ?]; done]. }
  split.
  - assert (Hof : own' fd = d_refs (file s2 fd)) by lia.
    eapply inv_own_ext; [|exact (inv_release s2 _ own' pend (fd :: dying) dying fd I2 Hu2 RL Hof (fun _ => C2) Hdy)].
    intros x _. unfold bump at 1. destruct (x =? fd) eqn:E; [|done]. replace x with fd by lia. lia.
  - apply (close_frame_trans s s2); [|eapply (released_frame s2 _ own' pend (fd :: dying) dying fd I2 Hu2 RL Hnd); by right].
    apply (close_frame_trans s (dropped s fd)); [by eapply recounted_frame|]. constructor; [done|]. intros x Hx. apply C4; [by right|congruence].
Qed.
End Steps.

Lemma vfs_close_closes fuel : closes (vfs_close_fuel fuel).
Proof.
  induction fuel as [|fuel IH]; [by split; intros|]. split.
  { intros s fd r Hfd Hc. cbn [vfs_close_fuel] in Hc. replace ((fd =? 0) || (fd =? 1) || (fd =? 2)) with true in Hc by lia. by injection Hc as <-. }
  intros s own pend dying fd rc s' I Hu Ho Hpend Hc. destruct (step_refs s own pend dying fd I Hu Ho) as [Hz _].
  rewrite (close_unfold fuel s own pend dying fd I Hu Hz) in Hc. destruct (d_refs (file s fd) - 1 =? 0) eqn:E1; cbn [negb] in Hc.
  2: { injection Hc as <- <-. split; [done|]. apply close_shared; done || lia. }
  destruct (d_is_epoll (file s fd)) eqn:Ee.
  - destruct (close_watches (vfs_close_fuel fuel) (dropped s fd) fd watch_indices) as [s2|] eqn:Ew; [|done]. injection Hc as <- <-.
    split; [done|]. apply (close_epoll s own pend dying fd I Hu Ho Hpend (vfs_close_fuel fuel)); done || lia.
  - injection Hc as <- <-. split; [done|]. apply close_plain; done || lia.
Qed.

(** ** Termination *)

Definition counts_ok s : Prop := forall fd, in_table fd -> 0 <= d_refs (file s fd).

Lemma for_range_sum (f : Z -> Z) n i a : for_range (fun i n => n + f i) i n a = a + sumz f i n.
Proof. revert i a; induction n as [|n IH]; intros i a; cbn; [lia|]. rewrite IH. lia. Qed.

Lemma total_refs_sum s : total_refs s = sumz (fun i => d_refs (file s i)) 64 64.
Proof. unfold total_refs. by rewrite for_range_sum. Qed.

Lemma total_refs_nonneg s : counts_ok s -> 0 <= total_refs s.
Proof. intros Hc. rewrite total_refs_sum. apply sumz_nonneg. intros k Hk. apply Hc. unfold in_table, OPEN_DESCRIPTOR_BASE, MAX_INITRD_FILES, MAX_OPEN_DESCRIPTORS. lia. Qed.

Lemma total_refs_files s s' : v_files s' = v_files s -> total_refs s' = total_refs s /\ (counts_ok s -> counts_ok s').
Proof. intros E. rewrite !total_refs_sum. unfold counts_ok. by rewrite E. Qed.

Lemma total_refs_set s fd d : in_table fd -> 0 <= d_refs d -> counts_ok s ->
  total_refs (set_file s fd d) = total_refs s + (d_refs d - d_refs (file s fd)) /\ counts_ok (set_file s fd d).
Proof.
  intros Ht Hd Hc. split.
  - rewrite !total_refs_sum. rewrite (sumz_update _ (fun i => d_refs (file s i)) 64 64 fd).
    + by rewrite set_file_at, decide_True.
    + unfold in_table, OPEN_DESCRIPTOR_BASE, MAX_INITRD_FILES, MAX_OPEN_DESCRIPTORS in Ht. lia.
    + intros j Hj. by rewrite set_file_at, decide_False.
  - intros x Hx. rewrite set_file_at. case_decide; [done|by apply Hc].
Qed.

Lemma drop_end_files s fd : v_files (drop_end s fd) = v_files s.
Proof. unfold drop_end. by destruct (d_is_pipe _), (pipe_of s fd). Qed.

Lemma set_watch_files s fd i w : v_files (set_watch s fd i w) = v_files s.
Proof. unfold set_watch. by destruct (v_epolls s !! _ : option epoll_object). Qed.

Lemma release_total s fd : in_table fd -> counts_ok s -> total_refs (release s fd) <= total_refs s /\ counts_ok (release s fd).
Proof.
  intros Ht Hc. destruct (release_fields s fd) as (F & _). destruct (total_refs_set s fd zero_desc Ht) as [E C]; [done|done|].
  destruct (total_refs_files (set_file s fd zero_desc) (release s fd) F) as [E' C']. rewrite E', E. pose proof (Hc fd Ht). split; [cbn; lia|by apply C'].
Qed.

Lemma vfs_close_total fuel s fd :
  counts_ok s -> (Z.to_nat (total_refs s) < fuel)%nat ->
  exists rc s', vfs_close_fuel fuel s fd = Some (rc, s') /\ counts_ok s' /\ total_refs s' <= total_refs s.
Proof.
  revert s fd; induction fuel as [|fuel IH]; intros s fd Hc Hf; [lia|]. cbn [vfs_close_fuel].
  destruct ((fd =? 0) || (fd =? 1) || (fd =? 2)); [by exists 0, s|].
  destruct (negb (open_fd s fd) || (d_refs (file s fd) =? 0)) eqn:E; [by exists (-9), s|].
  apply orb_false_iff in E as [E1 E2]. apply negb_false_iff, open_fd_spec in E1 as [Ht Hu]. pose proof (Hc fd Ht) as Hr.
  rewrite drop_end_files. destruct (total_refs_files s (drop_end s fd) (drop_end_files s fd)) as [T1 C1].
  destruct (total_refs_set (drop_end s fd) fd (with_refs (file s fd) (d_refs (file s fd) - 1)) Ht) as [T2 C2]; [cbn; lia|by apply C1|].
  rewrite drop_end_files in T2. cbn [with_refs d_refs] in T2. set (s1 := set_file _ _ _) in *. clearbody s1.
  destruct (negb _); [exists 0, s1; split; [done|]; split; [done|lia]|].
  assert (Hw : exists s2, (if d_is_epoll (file s fd) && negb (d_epoll (file s fd) =? 0) then close_watches (vfs_close_fuel fuel) s1 fd watch_indices else Some s1) = Some s2 /\
    counts_ok s2 /\ total_refs s2 <= total_refs s1).
  { destruct (_ && _); [|by exists s1]. assert (Hf1 : (Z.to_nat (total_refs s1) < fuel)%nat) by (pose proof (total_refs_nonneg s1 C2); lia). clear Hf T1 T2 C1. revert s1 C2 Hf1.
    induction watch_indices as [|i ws IHw]; intros s1 C2 Hf1; [by exists s1|]. cbn [close_watches]. destruct (w_used _); [|by apply IHw].
    destruct (IH s1 (w_fd (watch_at s1 fd i)) C2 Hf1) as (rc & s2 & -> & C3 & T3).
    destruct (total_refs_files s2 (set_watch s2 fd i zero_watch) (set_watch_files _ _ _ _)) as [T4 C4].
    destruct (IHw (set_watch s2 fd i zero_watch)) as (s3 & -> & C5 & T5); [by apply C4|lia|]. exists s3. split; [done|]. split; [done|lia]. }
  destruct Hw as (s2 & -> & C3 & T3). destruct (release_total s2 fd Ht C3) as [T4 C4]. eexists _, _. split; [reflexivity|]. split; [done|lia].
Qed.

Lemma inv_counts s own pend dying : vfs_inv s own pend dying -> counts_ok s.
Proof.
  intros I fd Ht. destruct (d_used (file s fd)) eqn:E.
  - destruct (vi_refs _ _ _ _ I fd (conj Ht E)) as (-> & Ho & _). pose proof (watches_nonneg s pend fd). lia.
  - by destruct (vi_unused _ _ _ _ I fd Ht E) as (-> & _).
Qed.

Lemma vfs_close_ok s own pend dying fd :
  vfs_inv s own pend dying -> used_fd s fd -> 1 <= own fd -> (forall q, q ∈ pend -> q.1 ∈ dying \/ 1 <= bump own fd (-1) q.1) ->
  vfs_close_fuel (S (Z.to_nat (total_refs s))) s fd = Some (vfs_close s fd) /\
  (vfs_close s fd).1 = 0 /\ vfs_inv (vfs_close s fd).2 (bump own fd (-1)) pend dying /\ close_frame s (vfs_close s fd).2 dying.
Proof.
  intros I Hu Ho Hp. destruct (vfs_close_total (S (Z.to_nat (total_refs s))) s fd (inv_counts _ _ _ _ I)) as (rc & s' & E & _ & _); [lia|].
  unfold vfs_close. rewrite E. cbn [default from_option id fst snd]. split; [done|].
  by apply (proj2 (vfs_close_closes _) s own pend dying fd rc s' I Hu Ho Hp E).
Qed.

Definition ready_to_close s (own : Z -> Z) (fd : Z) : Prop := used_fd s fd /\ 1 <= own fd.

(** C15: Closing a descriptor always returns: the recursion through epoll sets
    that watch each other, cycles included, ends within one level per
    reference.  It gives up exactly one reference of its caller; when it was
    the last, the descriptor and its object are gone and every descriptor its
    epoll set watched has lost exactly that watch, recursively; no descriptor
    that is still referenced is closed and nothing points to a freed object. *)
Theorem vfs_close_spec s own fd :
  vfs_inv s own [] [] -> ready_to_close s own fd ->
  vfs_close_fuel (S (Z.to_nat (total_refs s))) s fd = Some (vfs_close s fd) /\ (vfs_close s fd).1 = 0 /\
  vfs_inv (vfs_close s fd).2 (bump own fd (-1)) [] [] /\
  (forall x, used_fd (vfs_close s fd).2 x -> used_fd s x /\ file (vfs_close s fd).2 x = with_refs (file s x) (d_refs (file (vfs_close s fd).2 x))).
Proof.
  intros I [Hu Ho]. destruct (vfs_close_ok s own [] [] fd I Hu Ho) as (H1 & H2 & H3 & H4); [by intros q ?%not_elem_of_nil|].
  split; [done|]. split; [done|]. split; [done|]. apply H4.
Qed.
End Close.
