(* ===== verification/VfsOps.v ===== *)
(** * Every operation keeps the references in order

    The operations that open, retain, watch, read and write, each against the
    invariant of [VfsRefs], and their composition: any sequence of VFS calls in
    which a caller closes only what it holds. *)

From Stdlib Require Import ZArith Lia Bool ZifyBool.
From stdpp Require Import base numbers list gmap.
From S2P Require Import Prelude Kstring Path Newc Ata Npkfs Procfs Vfs VfsPipe VfsRefs VfsClose.

Open Scope Z_scope.
Open Scope npk_scope.

Section Ops.
Context {K : Type} `{VfsEnvLaws K}.
Implicit Type s : vfs K.
Notation file s fd := ((v_files s).[fd]).

(** ** New descriptors *)

Lemma alloc_spec s :
  (allocate_descriptor s).1 = -24 /\ (allocate_descriptor s).2 = s \/
  in_table (allocate_descriptor s).1 /\ d_used (file s (allocate_descriptor s).1) = false /\
    (allocate_descriptor s).2 = set_file s (allocate_descriptor s).1 fresh_desc.
Proof.
  unfold allocate_descriptor. destruct (find_index _ _ _) as [i|] eqn:E; [right|by left].
  apply find_index_Some in E as (Hi & Hp & _). cbn [fst snd]. split; [unfold in_table, MAX_OPEN_DESCRIPTORS in *; lia|].
  split; [by apply negb_true_iff|done].
Qed.

(** The allocation was undone: the table is what it was. *)
Lemma undone_same s s' own pend dying fd :
  vfs_inv s own pend dying -> in_table fd -> d_used (file s fd) = false ->
  (forall x, file s' x = if decide (x = fd) then zero_desc else file s x) ->
  v_epolls s' = v_epolls s -> v_pipes s' = v_pipes s -> dom (v_shms s') = dom (v_shms s) -> dom (v_pdata s') = dom (v_pdata s) ->
  (forall k ptr, ptr ∈ objs s k -> ptr ∈ ve_live (v_env s) -> ptr ∈ ve_live (v_env s')) -> same_state s s'.
Proof.
  intros I Ht Hu Hf He Hp Hs Hd Hl. destruct (vi_unused _ _ _ _ I fd Ht Hu) as [Hz _].
  assert (Hx : forall x, in_table x -> file s' x = file s x) by (intros x _; rewrite Hf; case_decide; congruence).
  constructor; try done; [intros x Hx'; by rewrite Hx|intros x Hx' _; by rewrite Hx|rewrite Hp; apply pipes_like_refl].
Qed.

(** A descriptor with no kernel object. *)
Lemma plain_added s s' fd D :
  in_table fd -> d_used (file s fd) = false -> (forall x, file s' x = if decide (x = fd) then D else file s x) ->
  d_used D = true -> d_refs D = 1 -> kind_ok D -> owner D = None ->
  v_epolls s' = v_epolls s -> v_pipes s' = v_pipes s -> v_shms s' = v_shms s -> v_pdata s' = v_pdata s ->
  ve_live (v_env s') = ve_live (v_env s) -> added s s' fd D.
Proof.
  intros Ht Hu Hf Hd Hr Hk Ho He Hp Hs Hpd Hl.
  assert (Hn : d_is_pipe D = false /\ d_is_epoll D = false) by (unfold owner in Ho; by destruct (d_is_pipe D), (d_is_epoll D)).
  constructor; try done; rewrite ?Ho, ?Hl, ?He; try done.
  - apply Hn.
  - intros k ptr. split; [intros Hx; left; by destruct k; cbn in *; rewrite ?He, ?Hp, ?Hs, ?Hpd in Hx|].
    intros [Hx|?]; [by destruct k; cbn in *; rewrite ?He, ?Hp, ?Hs, ?Hpd|done].
  - intros Hx. destruct Hn. congruence.
Qed.

(** ** A new end of a pipe *)

Definition end_count (reading : bool) (p : pipe_object) : Z := if reading then p_readers p else p_writers p.

Record end_added s s' (fd : Z) (D : descriptor) (p0 : pipe_object) : Prop := {
  ea_table : in_table fd;
  ea_free : d_used (file s fd) = false;
  ea_files : forall x, file s' x = if decide (x = fd) then D else file s x;
  ea_desc : d_used D = true /\ d_refs D = 1 /\ kind_ok D /\ d_is_pipe D = true;
  ea_epolls : v_epolls s' = v_epolls s;
  ea_shms : v_shms s' = v_shms s;
  ea_pdata : v_pdata s' = v_pdata s;
  ea_pipes : v_pipes s' = <[d_pipe D := at_end (d_readable D) p0 1]> (v_pipes s);
  ea_wf : pipe_wf p0;
  ea_before : match v_pipes s !! d_pipe D with
              | Some p => p0 = p /\ end_count (d_readable D) p = 0
              | None => d_pipe D ∉ ve_live (v_env s) /\ p_readers p0 = 0 /\ p_writers p0 = 0 end;
  ea_live : d_pipe D ∈ ve_live (v_env s') /\ forall ptr, ptr ∈ ve_live (v_env s) -> ptr ∈ ve_live (v_env s') }.

Lemma end_added_ends s s' own pend dying fd D p0 x b :
  vfs_inv s own pend dying -> end_added s s' fd D p0 -> end_of s x (d_pipe D) b -> b <> d_readable D /\ x <> fd.
Proof.
  intros I A (Hx & X1 & X2 & X3). pose proof A as [A1 A2 A3 (A4 & A5 & A6 & A7) A8 A9 A10 A11 A12 A13 A14].
  assert (Hne : x <> fd) by (intros ->; destruct Hx; congruence). split; [|done]. intros ->.
  assert (Ho : owner (file s x) = Some (OPipe, d_pipe D)) by (unfold owner; by rewrite X1, X2).
  pose proof (vi_owned _ _ _ _ I x OPipe _ Hx Ho) as Hin. cbn [objs] in Hin. apply elem_of_dom in Hin as [p Hp]. rewrite Hp in A13. destruct A13 as [-> Hz].
  destruct (vi_pipe _ _ _ _ I _ p Hp) as [_ He]. destruct (He (d_readable D)) as [H1 _]. assert (He' : end_of s x (d_pipe D) (d_readable D)) by done.
  specialize (H1 x He'). unfold end_count in Hz. rewrite Hz in H1.
  assert (Hdy : x ∈ dying) by (by apply (vi_dying _ _ _ _ I)). apply (vi_dying_epoll _ _ _ _ I) in Hdy.
  destruct (vi_kind _ _ _ _ I x Hx) as (_ & _ & _ & _ & Hk). rewrite X1 in Hk. destruct Hk. congruence.
Qed.

Lemma end_added_pipes s s' own pend dying fd D p0 :
  vfs_inv s own pend dying -> end_added s s' fd D p0 -> pipes_ok s'.
Proof.
  intros I A. pose proof A as [A1 A2 A3 (A4 & A5 & A6 & A7) A8 A9 A10 A11 A12 A13 A14].
  assert (Hnew : file s' fd = D) by (by rewrite A3, decide_True).
  assert (Hee : forall x ptr b, end_of s' x ptr b <-> end_of s x ptr b \/ x = fd /\ ptr = d_pipe D /\ b = d_readable D).
  { intros x ptr b. unfold end_of, used_fd. rewrite A3. case_decide as Hd; [subst x; rewrite A2; split; [intros ((_ & _) & _ & <- & <-); by right|intros [((_ & ?) & _)|(_ & -> & ->)]; done]|].
    split; [by left|intros [?|[? _]]; done]. }
  intros ptr p Hp. rewrite A11 in Hp. destruct (decide (ptr = d_pipe D)) as [->|Hne].
  - rewrite lookup_insert_eq in Hp. injection Hp as <-. split; [by destruct (d_readable D); apply pipe_wf_ends|]. intros b.
    destruct (decide (b = d_readable D)) as [->|Hb].
    + replace (if d_readable D then p_readers (at_end (d_readable D) p0 1) else p_writers (at_end (d_readable D) p0 1)) with 1 by (by destruct (d_readable D)).
      split; [|intros _; exists fd; apply Hee; by right]. intros x Hx. apply Hee in Hx as [Hx|(-> & _)]; [|by rewrite Hnew].
      by destruct (end_added_ends s s' own pend dying fd D p0 x _ I A Hx).
    + replace (if b then p_readers (at_end (d_readable D) p0 1) else p_writers (at_end (d_readable D) p0 1)) with (end_count b p0) by (by destruct b, (d_readable D)).
      destruct (v_pipes s !! d_pipe D) as [p|] eqn:Ep.
      * destruct A13 as [-> _]. destruct (vi_pipe _ _ _ _ I _ p Ep) as [_ He]. destruct (He b) as [H1 H2]. split.
        -- intros x Hx. apply Hee in Hx as [Hx|(_ & _ & ?)]; [|done]. destruct (end_added_ends s s' own pend dying fd D p x _ I A Hx) as [_ Hne].
           rewrite A3, decide_False by done. by apply H1.
        -- intros Hn. destruct (H2 Hn) as [x Hx]. exists x. apply Hee. by left.
      * destruct A13 as (_ & Hz1 & Hz2). assert (Hz : end_count b p0 = 0) by (by destruct b). rewrite Hz. split; [|done].
        intros x Hx. apply Hee in Hx as [(Hx & X1 & X2 & _)|(_ & _ & ?)]; [|done]. assert (Ho : owner (file s x) = Some (OPipe, d_pipe D)) by (unfold owner; by rewrite X1, X2).
        pose proof (vi_owned _ _ _ _ I x OPipe _ Hx Ho) as Hin. cbn [objs] in Hin. apply elem_of_dom in Hin as [? ?]. congruence.
  - rewrite lookup_insert_ne in Hp by done. destruct (vi_pipe _ _ _ _ I _ p Hp) as [Hw He]. split; [done|]. intros b. destruct (He b) as [H1 H2]. split.
    + intros x Hx. apply Hee in Hx as [Hx|(_ & ? & _)]; [|done]. rewrite A3, decide_False; [by apply H1|]. intros ->. destruct Hx as ([_ ?] & _). congruence.
    + intros Hn. destruct (H2 Hn) as [x Hx]. exists x. apply Hee. by left.
Qed.

Lemma inv_new_end s s' own pend dying fd D p0 : vfs_inv s own pend dying -> end_added s s' fd D p0 -> vfs_inv s' (bump own fd 1) pend dying.
Proof.
  intros I A. pose proof I as [I1 I2 I3 I3' I4 I5 I6 I7 I8 I9 I10 I11]. pose proof A as [A1 A2 A3 (A4 & A5 & A6 & A7) A8 A9 A10 A11 A12 A13 (A14 & A15)].
  assert (Hnew : file s' fd = D) by (by rewrite A3, decide_True).
  assert (Hold : forall x, x <> fd -> file s' x = file s x) by (intros x Hne; by rewrite A3, decide_False).
  assert (Hu : forall x, used_fd s' x <-> x = fd \/ x <> fd /\ used_fd s x).
  { intros x. unfold used_fd. destruct (decide (x = fd)) as [->|Hne]; [rewrite Hnew; split; [by left|done]|]. rewrite Hold by done. split; [by right|intros [?|[_ ?]]; done]. }
  assert (Hux : forall x, used_fd s x -> x <> fd) by (intros x [_ ?]; congruence).
  assert (Hne : d_is_epoll D = false) by (destruct A6 as (_ & _ & _ & _ & Hk); rewrite A7 in Hk; apply Hk).
  assert (Hwa : forall e i, e <> fd -> watch_at s' e i = watch_at s e i) by (intros e i He; unfold watch_at; by rewrite Hold, A8).
  assert (Hw : forall x, watches s' pend x = watches s pend x).
  { intros x. apply watches_ext. intros e He. destruct (decide (e = fd)) as [->|Hd]; [by rewrite Hnew, A2, Hne, andb_false_r|].
    rewrite Hold by done. split; [done|]. intros _ i _. by apply Hwa. }
  assert (Hownd : owner D = Some (OPipe, d_pipe D)) by (unfold owner; by rewrite A7).
  assert (Hob : forall k ptr, ptr ∈ objs s' k <-> ptr ∈ objs s k \/ owner D = Some (k, ptr)).
  { intros k ptr. rewrite Hownd. destruct k; cbn; rewrite ?A8, ?A9, ?A10, ?A11; [rewrite dom_insert; set_solver|naive_solver..]. }
  assert (Hown0 : own fd = 0 /\ watches s pend fd = 0) by (by destruct (I1 fd A1 A2)).
  constructor.
  - intros x Ht Hx. unfold bump. destruct (decide (x = fd)) as [->|Hd]; [congruence|]. rewrite Hold in Hx |- * by done. rewrite Hw. replace (x =? fd) with false by lia. by apply I1.
  - intros x Hx. rewrite Hw. unfold bump. apply Hu in Hx as [->|[Hd Hx]]; [rewrite Hnew, Z.eqb_refl; unfold UINT32_MAX; lia|].
    rewrite Hold by done. replace (x =? fd) with false by lia. by apply I2.
  - intros x. rewrite I3, Hu. split; [intros [Hx Hr]; pose proof (Hux x Hx); rewrite Hold by done; split; [by right|done]|].
    intros [[->|[Hd Hx]] Hr]; [rewrite Hnew in Hr; lia|by rewrite Hold in Hr].
  - intros x Hx. pose proof (proj1 (proj1 (I3 x) Hx)) as Hx'. rewrite Hold by (by apply Hux). by apply I3'.
  - intros x Hx. apply Hu in Hx as [->|[Hd Hx]]; [by rewrite Hnew|]. rewrite Hold by done. by apply I4.
  - intros e i Hx. apply Hu in Hx as [->|[Hd Hx]]; [rewrite Hnew; congruence|]. rewrite Hold, Hwa by done. by apply I5.
  - intros x k ptr Hx Ho. apply Hob. apply Hu in Hx as [->|[Hd Hx]]; [right; congruence|]. rewrite Hold in Ho by done. left. by eapply I6.
  - assert (Hno : forall x k ptr, used_fd s x -> owner (file s x) = Some (k, ptr) -> owner D = Some (k, ptr) -> k = OPipe /\ d_readable (file s x) <> d_readable D).
    { intros x k ptr Hx Ho Hd. rewrite Hownd in Hd. injection Hd as <- <-. split; [done|].
      apply flag_owner in Ho; [|by apply I4]. destruct Ho as [Ho1 Ho2].
      by apply (end_added_ends s s' own pend dying fd D p0 x _ I A). }
    intros x x' k ptr Hx Hx' Ho Ho'. apply Hu in Hx as [->|[Hd Hx]], Hx' as [->|[Hd' Hx']].
    + by left.
    + rewrite Hnew in Ho |- *. rewrite Hold in Ho' |- * by done. destruct (Hno x' k ptr Hx' Ho' Ho). right. by split; [|congruence].
    + rewrite Hnew in Ho' |- *. rewrite Hold in Ho |- * by done. destruct (Hno x k ptr Hx Ho Ho'). by right.
    + rewrite Hold in Ho |- * by done. rewrite Hold in Ho' |- * by done. by apply (I7 x x' k ptr).
  - intros k ptr Hp. apply Hob in Hp as [Hp|Hp]; [|exists fd; rewrite Hu, Hnew; by split; [left|]].
    destruct (I8 k ptr Hp) as (x & Hx & Hxo). pose proof (Hux x Hx). exists x. rewrite Hu, Hold by done. by split; [right|].
  - assert (Hpd : forall k, d_pipe D ∈ objs s k -> k = OPipe).
    { intros k Hp. destruct (v_pipes s !! d_pipe D) eqn:E; [apply (I9 k OPipe (d_pipe D)); [done|by apply elem_of_dom]|]. destruct A13 as [Hf _]. destruct Hf. by eapply I10. }
    intros k k' ptr Hp Hp'. apply Hob in Hp as [Hp|Hp], Hp' as [Hp'|Hp']; [by eapply I9|..|congruence]; rewrite Hownd in *; simplify_eq; [by apply Hpd|symmetry; by apply Hpd].
  - intros k ptr Hp. apply Hob in Hp as [Hp|Hp]; [apply A15; by eapply I10|]. rewrite Hownd in Hp. by simplify_eq.
  - exact (end_added_pipes s s' own pend dying fd D p0 I A).
Qed.

(** ** Opening *)

Definition granted (own : Z -> Z) (fd : Z) : Z -> Z := if fd <? 0 then own else bump own fd 1.

(** The result of an operation that returns a new descriptor or an error. *)
Definition opens (own : Z -> Z) (r : Z * vfs K) : Prop := vfs_inv r.2 (granted own r.1) [] [].

Lemma opens_error s s' own code : vfs_inv s own [] [] -> same_state s s' -> code < 0 -> opens own (code, s').
Proof. intros I Hs Hc. unfold opens, granted. cbn [fst snd]. replace (code <? 0) with true by lia. by eapply inv_frame. Qed.

Lemma opens_added s s' own fd D : vfs_inv s own [] [] -> added s s' fd D -> opens own (fd, s').
Proof.
  intros I A. unfold opens, granted. cbn [fst snd]. replace (fd <? 0) with false; [by eapply inv_new|].
  pose proof (ad_table _ _ _ _ A) as Ht. unfold in_table, OPEN_DESCRIPTOR_BASE, MAX_INITRD_FILES in Ht. lia.
Qed.

Lemma same_state_refl s : same_state s s.
Proof. constructor; try done. apply pipes_like_refl. Qed.

Lemma opens_ext s s' own fd : same_state s s' -> opens own (fd, s) -> opens own (fd, s').
Proof. intros Hs Ho. unfold opens in *. cbn [fst snd] in *. by eapply inv_frame. Qed.

Lemma same_files s s' :
  (forall x, file s' x = file s x) -> v_epolls s' = v_epolls s -> v_pipes s' = v_pipes s -> dom (v_shms s') = dom (v_shms s) ->
  dom (v_pdata s') = dom (v_pdata s) -> ve_live (v_env s') = ve_live (v_env s) -> same_state s s'.
Proof. intros Hf He Hp Hs Hd Hl. constructor; try done; [intros x _; by rewrite Hf|rewrite Hp; apply pipes_like_refl|by rewrite Hl]. Qed.

(** An operation that starts by allocating a descriptor. *)
Lemma opens_alloc s own (body : Z -> vfs K -> Z * vfs K) :
  vfs_inv s own [] [] ->
  (forall fd, in_table fd -> d_used (file s fd) = false -> opens own (body fd (set_file s fd fresh_desc))) ->
  opens own (let '(fd, s) := allocate_descriptor s in if fd <? 0 then (fd, s) else body fd s).
Proof.
  intros I Hb. destruct (alloc_spec s) as [[E1 E2]|(Ht & Hu & E)]; destruct (allocate_descriptor s) as [fd s1]; cbn [fst snd] in *; subst.
  - cbn [Z.ltb Z.compare]. apply (opens_error s); [done|apply same_state_refl|done].
  - replace (fd <? 0) with false by (unfold in_table, OPEN_DESCRIPTOR_BASE, MAX_INITRD_FILES in Ht; lia). by apply Hb.
Qed.

(** The table after the descriptor was written twice. *)
Lemma twice_at s fd d1 d2 x : file (set_file (set_file s fd d1) fd d2) x = if decide (x = fd) then d2 else file s x.
Proof. rewrite set_file_at. case_decide; [done|]. by rewrite set_file_at, decide_False. Qed.

Lemma opens_undone s own fd code : vfs_inv s own [] [] -> in_table fd -> d_used (file s fd) = false -> code < 0 ->
  opens own (code, set_file (set_file s fd fresh_desc) fd zero_desc).
Proof. intros I Ht Hu Hc. apply (opens_error s); [done| |done]. apply (undone_same s _ own [] [] fd); try done. intros x. apply twice_at. Qed.

Lemma opens_plain s own fd D :
  vfs_inv s own [] [] -> in_table fd -> d_used (file s fd) = false -> d_used D = true -> d_refs D = 1 -> kind_ok D -> owner D = None ->
  opens own (fd, set_file (set_file s fd fresh_desc) fd D).
Proof. intros I Ht Hu H1 H2 H3 H4. eapply (opens_added s); [done|]. apply plain_added; try done. intros x. apply twice_at. Qed.

Ltac plain_kind := unfold kind_ok; cbn; split_and!; try done; intuition lia.

Lemma open_directory_opens s own c p i r : vfs_inv s own [] [] -> opens own (open_directory s c p i r).
Proof.
  intros I. unfold open_directory. apply (opens_alloc s); [done|]. intros fd Ht Hu.
  destruct (copy_name _ _); [apply (opens_plain s); try done; plain_kind|by apply (opens_undone s)].
Qed.

Lemma open_proc_opens s own c : vfs_inv s own [] [] -> opens own (open_proc s c).
Proof.
  intros I. unfold open_proc. apply (opens_alloc s); [done|]. intros fd Ht Hu. cbn [v_env set_file].
  destruct (procfs_snapshot _ _ _) as [code|bytes] eqn:E; [|destruct (copy_name _ _); [apply (opens_plain s); try done; plain_kind|by apply (opens_undone s)]].
  apply (opens_undone s); try done. by apply procfs_error in E.
Qed.

Lemma open_initrd_opens s own c : vfs_inv s own [] [] -> opens own (open_initrd s c).
Proof.
  intros I. unfold open_initrd. destruct (List.find _ _) as [f|]; [|apply (opens_error s); [done|apply same_state_refl|done]].
  apply (opens_alloc s); [done|]. intros fd Ht Hu. apply (opens_plain s); try done; plain_kind.
Qed.

(** The heap in the middle of an operation. *)
Lemma kmalloc_live s size p s' :
  kmalloc_in s size = (p, s') -> s' = set_env s (v_env s') /\
  if p =? 0 then ve_live (v_env s') = ve_live (v_env s) else p ∉ ve_live (v_env s) /\ ve_live (v_env s') = {[ p ]} ∪ ve_live (v_env s).
Proof.
  unfold kmalloc_in. pose proof (ve_kmalloc_fresh (v_env s) size) as Hf. pose proof (ve_kmalloc_fail (v_env s) size) as Hn.
  destruct (ve_kmalloc (v_env s) size) as [q k]. cbn [fst snd] in *. intros [= <- <-]. split; [done|]. destruct (q =? 0) eqn:E; [apply Hn; lia|apply Hf; lia].
Qed.

(** A descriptor with a new kernel object at [ptr]. *)
Lemma opens_object s s' own fd D k ptr :
  vfs_inv s own [] [] -> in_table fd -> d_used (file s fd) = false -> (forall x, file s' x = if decide (x = fd) then D else file s x) ->
  d_used D = true -> d_refs D = 1 -> kind_ok D -> owner D = Some (k, ptr) -> k <> OPipe ->
  v_pipes s' = v_pipes s -> (forall k', objs s' k' = if decide (k' = k) then {[ ptr ]} ∪ objs s k' else objs s k') ->
  (forall q, q <> ptr -> v_epolls s' !! q = v_epolls s !! q) -> (k = OEpoll -> v_epolls s' !! ptr = Some (afill zero_watch)) ->
  ptr ∉ ve_live (v_env s) -> ve_live (v_env s') = {[ ptr ]} ∪ ve_live (v_env s) -> opens own (fd, s').
Proof.
  intros I Ht Hu Hf Hd Hr Hk Ho Hne Hp Hob Hep Hnew Hl Hl'. eapply (opens_added s); [done|]. constructor; try done.
  - destruct (d_is_pipe D) eqn:E; [|done]. unfold owner in Ho. rewrite E in Ho. congruence.
  - intros k' q. rewrite Hob, Ho. case_decide as Hd'; [subst k'; set_solver|naive_solver].
  - intros k' q Ho'. rewrite Ho in Ho'. injection Ho' as <- <-. split; [done|set_solver].
  - intros q Hq. apply Hep. intros ->. apply Hl. by apply (vi_live _ _ _ _ I OEpoll).
  - intros He i. pose proof (owner_epoll D Hk He) as Hoe. rewrite Ho in Hoe. injection Hoe as -> <-. rewrite Hnew by done. done.
  - intros k' q _ Hq. set_solver.
Qed.

Lemma opens_undone_live s own fd s' code :
  vfs_inv s own [] [] -> in_table fd -> d_used (file s fd) = false -> code < 0 ->
  (forall x, file s' x = if decide (x = fd) then zero_desc else file s x) ->
  v_epolls s' = v_epolls s -> v_pipes s' = v_pipes s -> dom (v_shms s') = dom (v_shms s) -> dom (v_pdata s') = dom (v_pdata s) ->
  (exists ptr, ptr ∉ ve_live (v_env s) /\ ve_live (v_env s) ⊆ {[ ptr ]} ∪ ve_live (v_env s')) \/ ve_live (v_env s') = ve_live (v_env s) ->
  opens own (code, s').
Proof.
  intros I Ht Hu Hc Hf He Hp Hs Hd Hl. apply (opens_error s); [done| |done]. apply (undone_same s s' own [] [] fd); try done.
  intros k ptr Hin Hlv. destruct Hl as [(q & Hq & Hsub)|Hl0]; [set_solver|by rewrite Hl0].
Qed.

Lemma vfs_epoll_create_opens s own : vfs_inv s own [] [] -> opens own (vfs_epoll_create s).
Proof.
  intros I. unfold vfs_epoll_create. apply (opens_alloc s); [done|]. intros fd Ht Hu.
  destruct (kmalloc_in (set_file s fd fresh_desc) 768) as [p s2] eqn:E. apply kmalloc_live in E as [Hs2 Hl]. cbn [v_env set_file] in Hl. destruct (p =? 0) eqn:Ep.
  - rewrite Hs2. apply (opens_undone_live s own fd); try done; [intros x; apply (twice_at s fd)|by right].
  - destruct Hl as [Hl Hl']. rewrite Hs2. apply (opens_object s _ own fd (epoll_desc p) OEpoll p); try done.
    + intros x. apply (twice_at s fd).
    + plain_kind.
    + intros []; cbn; [done|by rewrite dom_insert_L|done|done].
    + intros q Hq. cbn. by rewrite lookup_insert_ne.
    + intros _. cbn. by rewrite lookup_insert_eq.
Qed.

Lemma shm_pages_live n (k : K) got : ve_live (shm_pages k n got).2 = ve_live k.
Proof.
  revert k got; induction n as [|n IH]; intros k got; [done|]. cbn [shm_pages]. pose proof (ve_alloc_live k) as Ha.
  destruct (ve_alloc_page k) as [page k1]. cbn [snd] in Ha. destruct (page =? 0).
  - cbn [snd]. rewrite <-Ha. generalize (rev got). clear. intros l. revert k1. induction l as [|p l IH]; intros k1; [done|]. cbn. rewrite IH. apply ve_free_live.
  - rewrite IH, ve_zero_live. done.
Qed.

Lemma vfs_shm_create_opens s own size : vfs_inv s own [] [] -> opens own (vfs_shm_create s size).
Proof.
  intros I. unfold vfs_shm_create. cif E1; [by apply (opens_error s); [|apply same_state_refl|]|]. cif E2; [by apply (opens_error s); [|apply same_state_refl|]|].
  apply (opens_alloc s); [done|]. intros fd Ht Hu.
  destruct (kmalloc_in (set_file s fd fresh_desc) 2064) as [p s2] eqn:E. apply kmalloc_live in E as [Hs2 Hl]. cbn [v_env set_file] in Hl. destruct (p =? 0) eqn:Ep.
  { rewrite Hs2. apply (opens_undone_live s own fd); try done; [intros x; apply (twice_at s fd)|by right]. }
  destruct Hl as [Hl Hl']. pose proof (shm_pages_live (Z.to_nat ((size + NPK_PAGE_SIZE - 1) / NPK_PAGE_SIZE)) (v_env s2) []) as Hpl.
  destruct (shm_pages (v_env s2) _ []) as [[l|] k]; cbn [snd] in Hpl; rewrite Hs2.
  - apply (opens_object s _ own fd (shm_desc size p) OShm p); try done.
    + intros x. apply (twice_at s fd).
    + plain_kind.
    + intros []; cbn; [done|done|by rewrite dom_insert_L|done].
    + cbn. by rewrite Hpl.
  - apply (opens_undone_live s own fd); try done; [intros x; apply (twice_at s fd)|].
    left. exists p. split; [done|]. cbn. rewrite ve_kfree_live, Hpl, Hl'. set_solver.
Qed.

Lemma same_npk s n : same_state s (set_npk s n).
Proof. constructor; try done. apply pipes_like_refl. Qed.

Lemma persistent_desc_ok name size offset r w idx p : p <> 0 ->
  kind_ok (persistent_desc name size offset r w idx p) /\ owner (persistent_desc name size offset r w idx p) = Some (OData, p).
Proof. intros Hp. split; [|done]. plain_kind. Qed.

Lemma fresh_pdata s own k p : vfs_inv s own [] [] -> p ∉ ve_live (v_env s) -> p ∉ objs s k.
Proof. intros I Hp Hin. apply Hp. by eapply vi_live. Qed.

Lemma open_persistent_opens s own canonical name flags : vfs_inv s own [] [] -> opens own (open_persistent s canonical name flags).
Proof.
  intros I. unfold open_persistent. cif E0; [by apply (opens_error s); [|apply same_state_refl|]|].
  set (r := match persistent_find (v_npk s) name with Some _ => _ | None => _ end).
  assert (Hr : vfs_inv r.2 own [] []).
  { unfold r. destruct (persistent_find _ _); [done|]. destruct (hasb flags NPK_O_CREAT); [|done]. destruct (persistent_create _ _) as [o n].
    eapply inv_frame; [apply same_npk|done]. }
  clearbody r. destruct r as [[idx|] s1]; cbn [snd] in Hr; [|by apply (opens_error s1); [|apply same_state_refl|]]. clear I E0 s. rename s1 into s, Hr into I.
  cif E1; [by apply (opens_error s); [|apply same_state_refl|]|]. apply (opens_alloc s own); [done|]. intros fd Ht Hu.
  destruct (kmalloc_in (set_file s fd fresh_desc) PERSIST_FILE_BYTES) as [p s2] eqn:E. apply kmalloc_live in E as [Hs2 Hl]. cbn [v_env set_file] in Hl. destruct (p =? 0) eqn:Ep.
  { rewrite Hs2. apply (opens_undone_live s own fd); try done; [intros x; apply (twice_at s fd)|by right]. }
  destruct Hl as [Hl Hl']. assert (Hp0 : p <> 0) by lia. pose proof (fresh_pdata s own OData p I Hl) as Hnp. cbn [objs] in Hnp.
  destruct (ata_read_sectors _ _ _ _) as [[rc secs] dk]. cif E2.
  { rewrite Hs2. apply (opens_undone_live s own fd); try done; [intros x; apply (twice_at s fd)|]. left. exists p. split; [done|]. cbn. rewrite ve_kfree_live, Hl'. set_solver. }
  rewrite Hs2. cbn [v_npk set_env set_file set_npk with_disk set_pdata]. set (nm := default [] _). set (rd := negb _). set (wr := hasb flags (Z.lor _ _)).
  assert (Hdone : forall m n size off, dom m = {[ p ]} ∪ dom (v_pdata s) ->
    opens own (fd, set_file (set_npk (set_pdata (set_env (set_file s fd fresh_desc) (v_env s2)) m) n) fd (persistent_desc nm size off rd wr idx p))).
  { intros m n size off Hm. destruct (persistent_desc_ok nm size off rd wr idx p Hp0) as [Hk Ho].
    apply (opens_object s _ own fd (persistent_desc nm size off rd wr idx p) OData p); try done; [intros x; apply (twice_at s fd)|]. intros []; cbn; done. }
  destruct (hasb flags NPK_O_TRUNC && wr).
  - match goal with |- context [sync_descriptor ?s0 fd] => destruct (sync_descriptor_npk s0 fd) as [n Hn]; destruct (sync_descriptor s0 fd) as [rc2 s3] end.
    cbn [snd] in Hn. subst s3. cif E3.
    + apply (opens_undone_live s own fd); try done.
      * intros x. cbn. rewrite !aget_aset. repeat case_decide; congruence.
      * cbn. rewrite dom_delete_L, !dom_insert_L. set_solver.
      * left. exists p. split; [done|]. cbn. rewrite ve_kfree_live, Hl'. set_solver.
    + eapply opens_ext; [|apply (Hdone (<[p := replicate (Z.to_nat PERSIST_FILE_BYTES) 0]> (<[p := concat secs]> (v_pdata s))) n); rewrite !dom_insert_L; set_solver].
      apply same_files; try done. intros x. cbn. rewrite !aget_aset. repeat case_decide; first [done|congruence].
  - eapply opens_ext; [|apply (Hdone (<[p := concat secs]> (v_pdata s)) (with_disk (v_npk s) dk)); by rewrite dom_insert_L].
    apply same_files; try done. intros x. cbn. rewrite !aget_aset. repeat case_decide; first [done|congruence].
Qed.

Lemma vfs_open_flags_opens s own path flags : vfs_inv s own [] [] -> opens own (vfs_open_flags s path flags).
Proof.
  intros I. assert (He : forall code, code < 0 -> opens own (code, s)) by (intros code Hc; by apply (opens_error s); [|apply same_state_refl|]).
  unfold vfs_open_flags. destruct (canonicalize_path _ _) as [c|]; [|by apply He]. cif E1; [cif E2; [by apply He|by apply open_directory_opens]|].
  destruct (persistent_extract_name _ _) as [n|]; [by apply open_persistent_opens|]. cif E2; [by apply He|]. cif E3; [by apply open_proc_opens|].
  cif E4; [by apply open_directory_opens|by apply open_initrd_opens].
Qed.

(** ** Pipes *)

Lemma pipe_desc_ok p b : p <> 0 -> kind_ok (pipe_desc p b (negb b)) /\ owner (pipe_desc p b (negb b)) = Some (OPipe, p).
Proof. intros Hp. split; [|done]. by destruct b; plain_kind. Qed.

Definition zero_pipe : pipe_object := Pipe (afill 0) 0 0 0 0 0.

Lemma zero_pipe_wf : pipe_wf zero_pipe.
Proof. by constructor. Qed.

Definition granted_pair (own : Z -> Z) (r : option (Z * Z)) : Z -> Z :=
  match r with Some (a, b) => bump (bump own a 1) b 1 | None => own end.

Lemma alloc_second s fd d : in_table fd -> d_used d = true ->
  let r := allocate_descriptor (set_file s fd d) in
  r.1 = -24 /\ r.2 = set_file s fd d \/ in_table r.1 /\ r.1 <> fd /\ d_used (file s r.1) = false /\ r.2 = set_file (set_file s fd d) r.1 fresh_desc.
Proof.
  intros Ht Hd r. destruct (alloc_spec (set_file s fd d)) as [?|(Ht' & Hu & E)]; [by left|]. right. fold r in Ht', Hu, E.
  rewrite set_file_at in Hu. case_decide as Hx; [congruence|]. done.
Qed.

Lemma vfs_pipe_create_inv s own : vfs_inv s own [] [] -> vfs_inv (vfs_pipe_create s).2 (granted_pair own (vfs_pipe_create s).1.2) [] [].
Proof.
  intros I. unfold vfs_pipe_create. destruct (kmalloc_in s 4128) as [p s2] eqn:E. apply kmalloc_live in E as [Hs2 Hl].
  remember (v_env s2) as k2 eqn:Hk2. clear Hk2. subst s2. destruct (p =? 0) eqn:Ep.
  { cbn [fst snd granted_pair]. eapply inv_frame; [|exact I]. by apply same_files. }
  destruct Hl as [Hl Hl']. assert (Hp0 : p <> 0) by lia. set (s3 := set_pipes _ _). assert (Hf3 : v_files s3 = v_files s) by done.
  assert (Hfail : forall s', (forall x, in_table x -> file s' x = file s x) -> v_pipes s' = delete p (<[p := zero_pipe]> (v_pipes s)) -> v_epolls s' = v_epolls s ->
    v_shms s' = v_shms s -> v_pdata s' = v_pdata s -> ve_live (v_env s') = ve_live k2 ∖ {[ p ]} -> vfs_inv s' own [] []).
  { intros s' Hf Hpp He Hs Hd Hlv. assert (Hnp : v_pipes s !! p = None) by (apply not_elem_of_dom; exact (fresh_pdata s own OPipe p I Hl)).
    eapply inv_frame; [|exact I]. constructor; rewrite ?Hs, ?Hd; try done; [intros x Hx; by rewrite Hf|intros x Hx _; by rewrite Hf| |].
    - rewrite Hpp, delete_insert_id by done. apply pipes_like_refl.
    - intros k q Hq Hql. rewrite Hlv, Hl'. assert (q <> p) by (intros ->; by apply Hl). set_solver. }
  assert (Hpos : forall x, in_table x -> (x <? 0) = false /\ (x >=? 0) = true) by (intros x Hx; unfold in_table, OPEN_DESCRIPTOR_BASE, MAX_INITRD_FILES in Hx; lia).
  destruct (allocate_descriptor s3) as [a s4] eqn:Ea. pose proof (alloc_spec s3) as Ha. rewrite Ea in Ha. cbn [fst snd] in Ha.
  destruct Ha as [[-> ->]|(Ht & Hu & ->)].
  { rewrite Ea. cbn [Z.ltb Z.compare orb Z.geb fst snd granted_pair]. apply Hfail; unfold s3; cbn; try done. by rewrite ve_kfree_live. }
  rewrite Hf3 in Hu. destruct (vi_unused _ _ _ _ I a Ht Hu) as (Hza & _ & _). destruct (Hpos a Ht) as [Ha1 Ha2].
  destruct (allocate_descriptor (set_file s3 a fresh_desc)) as [b s5] eqn:Eb. pose proof (alloc_second s3 a fresh_desc Ht eq_refl) as Hb. rewrite Eb in Hb. cbn [fst snd] in Hb.
  destruct Hb as [[-> ->]|(Htb & Hne & Hub & ->)].
  { rewrite Ha1, Ha2. cbn [Z.ltb Z.compare orb Z.geb fst snd granted_pair]. apply Hfail; unfold s3; cbn; try done; [|by rewrite ve_kfree_live].
    intros x Hx. rewrite !aget_aset. repeat case_decide; congruence. }
  rewrite Hf3 in Hub. destruct (Hpos b Htb) as [Hb1 _]. rewrite Ha1, Hb1. cbn [orb fst snd granted_pair].
  destruct (pipe_desc_ok p true Hp0) as [Hk1 Ho1]. destruct (pipe_desc_ok p false Hp0) as [Hk2 Ho2]. cbn [negb] in *.
  set (sa := set_file (set_pipes (set_env s k2) (<[p := at_end true zero_pipe 1]> (v_pipes s))) a (pipe_desc p true false)).
  assert (Ia : vfs_inv sa (bump own a 1) [] []).
  { apply (inv_new_end s sa own [] [] a (pipe_desc p true false) zero_pipe I). constructor; try done; unfold sa; try done.
    - intros x. by rewrite set_file_at.
    - cbn [pipe_desc d_pipe]. replace (v_pipes s !! p) with (@None pipe_object); [done|]. symmetry. apply not_elem_of_dom. exact (fresh_pdata s own OPipe p I Hl).
    - cbn. rewrite Hl'. split; set_solver. }
  set (sb := set_file (set_pipes sa (<[p := at_end false (at_end true zero_pipe 1) 1]> (v_pipes sa))) b (pipe_desc p false true)).
  apply (inv_frame sb).
  { apply same_files; try done; [intros x; cbn; rewrite !aget_aset; repeat case_decide; congruence|]. unfold sb, sa. cbn. by rewrite !insert_insert_eq. }
  apply (inv_new_end sa sb (bump own a 1) [] [] b (pipe_desc p false true) (at_end true zero_pipe 1) Ia). constructor; try done.
  - unfold sa. by rewrite set_file_at, decide_False by done.
  - intros x. unfold sb. by rewrite set_file_at.
  - unfold sa. cbn. by rewrite lookup_insert_eq.
  - unfold sa. cbn. rewrite Hl'. split; set_solver.
Qed.

(** ** Operations that move data *)

Lemma same_state_trans s1 s2 s3 : same_state s1 s2 -> same_state s2 s3 -> same_state s1 s3.
Proof.
  intros [A1 A2 A3 A4 A5 A6 A7] [B1 B2 B3 B4 B5 B6 B7]. constructor; try congruence.
  - intros fd Ht. by rewrite B1, A1.
  - intros fd Ht Hu. rewrite B2; [by apply A2|done|]. by rewrite A2.
  - destruct A4 as [D1 P1], B4 as [D2 P2]. split; [congruence|]. intros ptr p'' Hp. destruct (P2 ptr p'' Hp) as (p' & Hp' & E1 & E2 & W).
    destruct (P1 ptr p' Hp') as (p & Hp0 & F1 & F2 & V). exists p. split; [done|]. split; [congruence|]. split; [congruence|]. auto.
  - intros k ptr Hin Hl. assert (Ho : objs s2 k = objs s1 k) by (destruct k; cbn; [apply A4|by rewrite A3|done|done]).
    apply (B7 k); [by rewrite Ho|by apply (A7 k)].
Qed.

Lemma same_desc s fd d : d_used (file s fd) = true -> skel d = skel (file s fd) -> same_state s (set_file s fd d).
Proof.
  intros Hu Hs. constructor; try done; [| |apply pipes_like_refl].
  - intros x _. rewrite set_file_at. by case_decide; [subst x|].
  - intros x _ Hx. rewrite set_file_at. case_decide; [congruence|done].
Qed.

Lemma same_pipe s fd p p' : pipe_of s fd = Some p -> p_readers p' = p_readers p -> p_writers p' = p_writers p -> (pipe_wf p -> pipe_wf p') ->
  same_state s (set_pipe s fd p').
Proof.
  intros Hp E1 E2 Hw. assert (Hpp : v_pipes s !! d_pipe (file s fd) = Some p) by (unfold pipe_of in Hp; by destruct (_ =? 0)).
  constructor; try done. split; [by apply dom_insert_lookup_L|]. cbn. intros ptr q Hq. destruct (decide (ptr = d_pipe (file s fd))) as [->|Hne].
  - rewrite lookup_insert_eq in Hq. injection Hq as <-. by exists p.
  - rewrite lookup_insert_ne in Hq by done. by exists q.
Qed.

Lemma same_sync s fd : same_state s (sync_descriptor s fd).2.
Proof. destruct (sync_descriptor_npk s fd) as [n ->]. apply same_npk. Qed.

Lemma same_read s fd buf count : 0 <= count -> same_state s (vfs_read s fd buf count).2.
Proof.
  intros Hc. pose proof (same_state_refl s) as Hr. unfold vfs_read. cif E1; [done|]. cif E2; [done|]. cif E3; [done|].
  apply orb_false_iff in E1 as [E1 _]. apply negb_false_iff, open_fd_spec in E1 as [Ht Hu]. cif E4.
  - destruct (pipe_of s fd) as [p|] eqn:Ep; [|done]. destruct (p_count p =? 0) eqn:E5; [done|]. set (n := if count <? p_count p then count else p_count p).
    pose proof (queue_take p n) as Hq. destruct (pipe_take (Z.to_nat n) (p_buffer p) (p_head p)) as [bytes head]. cbn [snd].
    apply (same_pipe s fd p); try done. intros Hw. pose proof (pw_count p Hw). apply Hq; [done|]. unfold n. destruct (count <? p_count p) eqn:E6; lia.
  - cif E5; [done|]. cif E6; [done|]. cif E7; [done|]. cbn [snd]. by apply same_desc.
Qed.

Lemma same_pdata_insert s ptr l : is_Some (v_pdata s !! ptr) -> same_state s (set_pdata s (<[ptr := l]> (v_pdata s))).
Proof. intros Hs. apply same_files; try done. by apply dom_insert_lookup_L. Qed.

Lemma same_write_persistent s fd bytes : d_used (file s fd) = true -> same_state s (write_persistent s fd bytes).2.
Proof.
  intros Hu. pose proof (same_state_refl s) as Hr. unfold write_persistent.
  destruct (d_persistent_inode (file s fd)) as [idx|]; [|done]. destruct (v_pdata s !! d_persistent_data (file s fd)) as [data|] eqn:Ed; [|done].
  cif E1; [done|]. set (amount := if len bytes >? _ then _ else _). cif E2; [done|].
  set (s1 := set_pdata s _). assert (H1 : same_state s s1) by (by apply same_pdata_insert).
  set (d1 := if _ >? f_size (file s fd) then _ else _). assert (Hd1 : skel d1 = skel (file s fd)) by (unfold d1; by repeat case_match).
  assert (H2 : same_state s (set_file s1 fd d1)) by (apply (same_state_trans s s1); [done|by apply same_desc]).
  destruct (sync_descriptor_npk (set_file s1 fd d1) fd) as [n Hn]. destruct (sync_descriptor (set_file s1 fd d1) fd) as [rc s3]. cbn [snd] in Hn. subst s3.
  assert (H3 : same_state s (set_npk (set_file s1 fd d1) n)) by (apply (same_state_trans s _ _ H2), same_npk).
  destruct (negb (rc =? 0)); [|done]. destruct (ata_read_sectors _ _ _ _) as [[? secs] dk]. cbn [snd].
  eapply same_state_trans; [exact H3|]. eapply same_state_trans; [apply same_npk|]. eapply same_state_trans; [apply same_pdata_insert|apply same_desc].
  - cbn. rewrite lookup_insert_eq. by eexists.
  - cbn. rewrite aget_aset_eq. unfold d1. by repeat case_match.
  - cbn. rewrite aget_aset_eq. by rewrite Hd1.
Qed.

Lemma same_write s fd buf bytes : same_state s (vfs_write s fd buf bytes).2.
Proof.
  pose proof (same_state_refl s) as Hr. unfold vfs_write. cif E1; [done|]. cif E2; [done|]. cif E3; [done|]. cif E4; [done|].
  apply orb_false_iff in E1 as [E1 _]. apply negb_false_iff, open_fd_spec in E1 as [Ht Hu]. cif E5; [by apply same_write_persistent|].
  destruct (d_is_pipe (file s fd)); [|done]. destruct (pipe_of s fd) as [p|] eqn:Ep; [|done]. destruct (p_readers p =? 0); [done|]. destruct (PIPE_CAPACITY - p_count p =? 0) eqn:E6; [done|].
  set (n := if len bytes <? PIPE_CAPACITY - p_count p then len bytes else PIPE_CAPACITY - p_count p). pose proof (queue_put p (take (Z.to_nat n) bytes)) as Hq.
  destruct (pipe_put (take (Z.to_nat n) bytes) (p_buffer p) (p_tail p)) as [b t]. cbn [snd]. apply (same_pipe s fd p); try done.
  intros Hw. pose proof (pw_count p Hw) as Hc. assert (Hn : n = Z.min (len bytes) (PIPE_CAPACITY - p_count p)) by (unfold n; destruct (len bytes <? _) eqn:E7; lia).
  assert (Hb : 0 <= len bytes) by (unfold len; lia). assert (Hl : len (take (Z.to_nat n) bytes) = n) by (rewrite Hn; unfold len in *; rewrite length_take; lia).
  rewrite Hl in Hq. apply Hq; [done|lia].
Qed.

Lemma same_seek s fd offset whence : same_state s (vfs_seek s fd offset whence).2.
Proof.
  pose proof (same_state_refl s) as Hr. unfold vfs_seek. cif E1; [done|]. apply negb_false_iff, open_fd_spec in E1 as [Ht Hu].
  cif E2; [done|]. cbv zeta. set (base := if whence =? 0 then _ else _). cif E3; [done|]. cif E4; [done|]. by apply same_desc.
Qed.

Lemma same_getdents s fd buf capacity : same_state s (vfs_getdents64 s fd buf capacity).2.
Proof.
  pose proof (same_state_refl s) as Hr. unfold vfs_getdents64. cif E1; [done|]. apply negb_false_iff, open_fd_spec in E1 as [Ht Hu].
  cif E2; [done|]. cif E3; [done|]. destruct (if d_persistent_directory (file s fd) then _ else _) as [[rc out] offset]. by apply same_desc.
Qed.

Lemma same_sync_fd s fd : same_state s (vfs_sync_fd s fd).2.
Proof. unfold vfs_sync_fd. cif E1; [apply same_state_refl|]. cif E2; [apply same_sync|apply same_state_refl]. Qed.

Lemma same_sync_all s : same_state s (vfs_sync_all s).2.
Proof.
  unfold vfs_sync_all. apply (for_range_inv (fun _ st => same_state s st.2)); [apply same_state_refl|]. intros i [result s1] _ H1. cbn [snd] in *.
  destruct (negb _ || negb _); [done|]. pose proof (same_sync s1 i) as H2. destruct (sync_descriptor s1 i) as [status s2]. cbn [snd] in *. by eapply same_state_trans.
Qed.

(** ** References and watches *)

Lemma not_in_table own fd n : ~ in_table fd -> forall x, in_table x -> bump own fd n x = own x.
Proof. intros Hn x Hx. unfold bump. destruct (x =? fd) eqn:E; [|done]. exfalso. apply Hn. by replace fd with x by lia. Qed.

Lemma vfs_retain_inv s own fd :
  vfs_inv s own [] [] -> vfs_inv (vfs_retain s fd).2 (if (vfs_retain s fd).1 =? 0 then bump own fd 1 else own) [] [] /\
  ((vfs_retain s fd).1 = 0 -> used_fd s fd \/ 0 <= fd <= 2) /\
  v_epolls (vfs_retain s fd).2 = v_epolls s /\ forall x, file (vfs_retain s fd).2 x = with_refs (file s x) (d_refs (file (vfs_retain s fd).2 x)).
Proof.
  intros I. assert (Hid : forall x, file s x = with_refs (file s x) (d_refs (file s x))) by (intros x; by destruct (file s x)).
  destruct (decide ((fd =? 0) || (fd =? 1) || (fd =? 2) = true)) as [Hs|Hs].
  { unfold vfs_retain. rewrite Hs. cbn [fst snd Z.eqb]. split; [|split; [lia|done]]. eapply inv_own_ext; [|exact I]. apply not_in_table.
    unfold in_table, OPEN_DESCRIPTOR_BASE, MAX_INITRD_FILES. lia. }
  apply not_true_is_false in Hs. destruct (decide (negb (open_fd s fd) || (d_refs (file s fd) =? UINT32_MAX) = true)) as [Hb|Hb].
  { unfold vfs_retain. rewrite Hs, Hb. cbn [fst snd Z.eqb]. done. }
  apply not_true_is_false, orb_false_iff in Hb as [Hb1 Hb2]. apply negb_false_iff, open_fd_spec in Hb1.
  destruct (retain_recounted s own [] [] fd I Hb1 ltac:(lia)) as [-> R]. cbn [Z.eqb]. destruct (vi_refs _ _ _ _ I fd Hb1) as (Hr & Ho & Hm). split.
  - eapply inv_own_ext; [|apply (inv_recount s _ own [] [] [] fd _ I Hb1 R); [lia|lia| |]].
    + intros x _. unfold bump. destruct (x =? fd); lia.
    + pose proof (watches_nonneg s [] fd). lia.
    + intros x. pose proof (watches_nonneg s [] fd). case_decide; [split; [by intros ?%not_elem_of_nil|lia]|done].
  - split; [by left|]. split; [apply R|]. intros x. rewrite !(rc_files _ _ _ _ R). case_decide; [by subst|done].
Qed.

Lemma find_watch_spec s epfd fd :
  (forall i, (find_watch s epfd fd).1 = Some i -> 0 <= i < 32 /\ w_used (watch_at s epfd i) = true /\ w_fd (watch_at s epfd i) = fd) /\
  (forall i, (find_watch s epfd fd).2 = Some i -> 0 <= i < 32 /\ w_used (watch_at s epfd i) = false).
Proof.
  unfold find_watch, EPOLL_MAX_WATCHES. change (Z.to_nat 32) with 32%nat.
  apply (for_range_inv (fun _ st => (forall i, st.1 = Some i -> 0 <= i < 32 /\ w_used (watch_at s epfd i) = true /\ w_fd (watch_at s epfd i) = fd) /\
    (forall i, st.2 = Some i -> 0 <= i < 32 /\ w_used (watch_at s epfd i) = false)) _ 32 0 (None, None)); [done|].
  intros j [f g] Hj [H1 H2]. cbn [fst snd] in *. split.
  - intros i Hi. destruct (w_used (watch_at s epfd j) && (w_fd (watch_at s epfd j) =? fd)) eqn:E; [|by apply H1]. injection Hi as <-. lia.
  - intros i Hi. destruct g as [g|]; [by apply H2|]. destruct (w_used (watch_at s epfd j)) eqn:E; [done|]. injection Hi as <-. by split; [lia|].
Qed.

Lemma vfs_epoll_ctl_inv s own epfd operation fd events data :
  vfs_inv s own [] [] -> 1 <= own epfd -> vfs_inv (vfs_epoll_ctl s epfd operation fd events data).2 own [] [].
Proof.
  intros I Hown. unfold vfs_epoll_ctl. cif E1; [done|]. cif E2; [done|]. pose proof (find_watch_spec s epfd fd) as [Hfound Hfree].
  assert (Hep : used_fd s epfd /\ d_is_epoll (file s epfd) = true).
  { assert (Hx : epoll_fd s epfd = true) by (by destruct (epoll_fd s epfd)). unfold epoll_fd in Hx. apply andb_true_iff in Hx as [Hx _].
    apply andb_true_iff in Hx as [Hx Hy]. by rewrite open_fd_spec in Hx. }
  destruct Hep as [Hu Hep]. assert (Hpos : forall x, in_table x -> 0 <= own x).
  { intros x Hx. destruct (d_used (file s x)) eqn:E; [apply (vi_refs _ _ _ _ I x (conj Hx E))|destruct (vi_unused _ _ _ _ I x Hx E); lia]. }
  destruct (find_watch s epfd fd) as [found free_slot]. cbn [fst snd] in *. destruct (operation =? 1).
  { destruct found as [i|]; [done|]. destruct free_slot as [i|]; [|done]. destruct (Hfree i eq_refl) as [Hi Hw].
    destruct (vfs_retain_inv s own fd I) as (I1 & Hv & He & Hf). destruct (vfs_retain s fd) as [rc s1]. cbn [fst snd] in *. destruct (rc =? 0) eqn:Erc; cbn [negb].
    2: { exact I1. }
    assert (Hus : forall x, used_fd s1 x <-> used_fd s x) by (intros x; unfold used_fd; by rewrite Hf).
    apply (inv_set_watch s1 (bump own fd 1) own [] []); try done; [by apply Hus|by rewrite Hf|by intros p; split; intros ?%not_elem_of_nil || intros [?%not_elem_of_nil _]| |].
    - intros _. cbn [w_fd]. rewrite Hus. apply Hv. lia.
    - intros x Hx. split; [|by apply Hpos]. unfold slot_refs. rewrite bool_decide_false by (by intros ?%not_elem_of_nil). unfold watch_at. rewrite He, Hf. cbn [with_refs d_epoll].
      fold (watch_at s epfd i). unfold watching, bump. rewrite Hw. cbn. rewrite (Z.eqb_sym x). destruct (fd =? x); lia. }
  destruct (operation =? 2).
  { destruct found as [i|]; [|done]. destruct (Hfound i eq_refl) as (Hi & Hw & Hfd). rewrite Hfd.
    destruct (vfs_close_total (S (Z.to_nat (total_refs s))) s fd (inv_counts _ _ _ _ I)) as (rc & s' & E & _ & _); [lia|].
    assert (Hcl : vfs_close s fd = (rc, s')) by (unfold vfs_close; by rewrite E). rewrite Hcl. cbn [snd].
    apply (close_one (vfs_close_fuel (S (Z.to_nat (total_refs s)))) s own [] [] epfd i (rc, s')); try done.
    - apply vfs_close_closes.
    - by intros ?%not_elem_of_nil.
    - by intros q ?%not_elem_of_nil.
    - by right.
    - by rewrite Hfd. }
  destruct (operation =? 3); [|done]. destruct found as [i|]; [|done]. destruct (Hfound i eq_refl) as (Hi & Hw & Hfd). cbn [snd].
  apply (inv_set_watch s own own [] []); try done; [by intros p; split; intros ?%not_elem_of_nil || intros [?%not_elem_of_nil _]| |].
  - intros _. cbn [w_fd]. destruct (vi_watch _ _ _ _ I epfd i Hu Hep Hi Hw) as [Ht|?]; [|by right]. left. split; [done|].
    destruct (d_used (file s (w_fd (watch_at s epfd i)))) eqn:E; [done|]. destruct (vi_unused _ _ _ _ I _ Ht E) as (_ & _ & Hz).
    pose proof (watch_counted s own [] [] epfd i I Hu Hep Hi ltac:(by intros ?%not_elem_of_nil) Hw). lia.
  - intros x Hx. split; [|by apply Hpos]. unfold slot_refs. rewrite bool_decide_false by (by intros ?%not_elem_of_nil). unfold watching. cbn [w_used w_fd]. lia.
Qed.
End Ops.
