(* ===== verification/VfsRun.v ===== *)
(** * Runs of the VFS

    The calls other parts of the kernel make into the VFS as one step
    function, with the references each caller holds; what holds after any
    sequence of them; and a small heap on which the theorems of the VFS are
    evaluated. *)

From Stdlib Require Import ZArith Lia Bool ZifyBool.
From stdpp Require Import base numbers list gmap.
From S2P Require Import Prelude Kstring Path Newc Ata Npkfs Procfs Vfs VfsPipe VfsRefs VfsClose VfsOps.

Open Scope Z_scope.
Open Scope npk_scope.

Inductive vfs_op :=
  | OpOpen (path : cstr) (flags : Z) | OpPipe | OpEpoll | OpShm (size : Z) | OpRetain (fd : Z) | OpClose (fd : Z)
  | OpRead (fd buffer count : Z) | OpWrite (fd buffer : Z) (bytes : list Z) | OpSeek (fd offset whence : Z)
  | OpGetdents (fd buffer capacity : Z) | OpEpollCtl (epfd operation fd events data : Z) | OpSync (fd : Z) | OpSyncAll.

Section Run.
Context {K : Type} `{VfsEnvLaws K}.
Implicit Type s : vfs K.
Notation file s fd := ((v_files s).[fd]).

(** A caller gives up only references it holds, and works on an epoll set only
    while it holds it. *)
Definition allowed (own : Z -> Z) (op : vfs_op) : bool :=
  match op with
  | OpClose fd => 1 <=? own fd
  | OpEpollCtl epfd _ _ _ _ => 1 <=? own epfd
  | OpRead _ _ count => 0 <=? count
  | _ => true
  end.

(** One call: the references held afterwards, and the state. *)
Definition vfs_do (own : Z -> Z) s (op : vfs_op) : (Z -> Z) * vfs K :=
  match op with
  | OpOpen path flags => let '(fd, s) := vfs_open_flags s path flags in (granted own fd, s)
  | OpPipe => let '(_, ends, s) := vfs_pipe_create s in (granted_pair own ends, s)
  | OpEpoll => let '(fd, s) := vfs_epoll_create s in (granted own fd, s)
  | OpShm size => let '(fd, s) := vfs_shm_create s size in (granted own fd, s)
  | OpRetain fd => let '(rc, s) := vfs_retain s fd in (if rc =? 0 then bump own fd 1 else own, s)
  | OpClose fd => let '(rc, s) := vfs_close s fd in (if rc =? 0 then bump own fd (-1) else own, s)
  | OpRead fd buffer count => (own, (vfs_read s fd buffer count).2)
  | OpWrite fd buffer bytes => (own, (vfs_write s fd buffer bytes).2)
  | OpSeek fd offset whence => (own, (vfs_seek s fd offset whence).2)
  | OpGetdents fd buffer capacity => (own, (vfs_getdents64 s fd buffer capacity).2)
  | OpEpollCtl epfd operation fd events data => (own, (vfs_epoll_ctl s epfd operation fd events data).2)
  | OpSync fd => (own, (vfs_sync_fd s fd).2)
  | OpSyncAll => (own, (vfs_sync_all s).2)
  end.

(** The states the VFS can be in after its start. *)
Inductive reachable : (Z -> Z) -> vfs K -> Prop :=
  | reach_init npk modules k s : vfs_init npk modules k = Some s -> reachable (fun _ => 0) s
  | reach_step own s op : reachable own s -> allowed own op = true -> reachable (vfs_do own s op).1 (vfs_do own s op).2.

Lemma init_inv npk initrd k : vfs_inv (Vfs (afill zero_desc) initrd npk ∅ ∅ ∅ ∅ k) (fun _ => 0) [] [].
Proof.
  assert (Hu : forall fd, ~ used_fd (Vfs (afill zero_desc) initrd npk ∅ ∅ ∅ ∅ k) fd) by (intros fd [_ Hx]; cbn in Hx; by rewrite aget_afill in Hx).
  assert (Ho : forall kd ptr, ptr ∉ objs (Vfs (afill zero_desc) initrd npk ∅ ∅ ∅ ∅ k) kd) by (intros [] ptr; cbn [objs v_pipes v_epolls v_shms v_pdata]; rewrite dom_empty_L; apply not_elem_of_empty).
  constructor; try (intros; exfalso; eapply Hu; eassumption).
  - intros fd Ht _. split; [apply aget_afill|]. split; [done|]. apply sumz_zero. intros e He. unfold epoll_refs. cbn. by rewrite aget_afill.
  - intros fd. split; [by intros ?%not_elem_of_nil|intros [Hx _]; by apply Hu in Hx].
  - by intros fd ?%not_elem_of_nil.
  - intros kd ptr Hp; by apply Ho in Hp.
  - intros kd k' ptr Hp; by apply Ho in Hp.
  - intros kd ptr Hp; by apply Ho in Hp.
  - done.
Qed.

Lemma vfs_init_inv npk modules k s : vfs_init npk modules k = Some s -> vfs_inv s (fun _ => 0) [] [].
Proof. unfold vfs_init. destruct (List.find _ _); [destruct (parse_newc _ _ _); [|done]|]; injection 1 as <-; apply init_inv. Qed.

Lemma owner_used s own fd : vfs_inv s own [] [] -> 1 <= own fd -> in_table fd -> used_fd s fd.
Proof. intros I Ho Ht. split; [done|]. destruct (d_used (file s fd)) eqn:E; [done|]. destruct (vi_unused _ _ _ _ I fd Ht E); lia. Qed.

Lemma close_outside s fd n : ~ in_table fd -> exists c, vfs_close_fuel (S n) s fd = Some (c, s).
Proof.
  intros Ht. assert (Hx : open_fd s fd = false) by (destruct (open_fd s fd) eqn:E; [by apply open_fd_spec in E as [? _]|done]).
  cbn [vfs_close_fuel]. rewrite Hx. destruct (_ || _); by eexists.
Qed.

Lemma own_nonneg s own fd : vfs_inv s own [] [] -> in_table fd -> 0 <= own fd.
Proof.
  intros I Ht. destruct (d_used (v_files s).[fd]) eqn:E; [by apply (vi_refs _ _ _ _ I fd)|]. destruct (vi_unused _ _ _ _ I fd Ht E) as (_ & -> & _). lia.
Qed.

(** Giving up a reference, also of a handle outside the table. *)
Lemma vfs_close_ref s own fd : vfs_inv s own [] [] -> (in_table fd -> 1 <= own fd) -> vfs_inv (vfs_close s fd).2 (bump own fd (-1)) [] [].
Proof.
  intros I Ho. destruct (decide (in_table fd)) as [Ht|Ht].
  - destruct (vfs_close_ok s own [] [] fd I (owner_used s own fd I (Ho Ht) Ht) (Ho Ht)) as (_ & _ & H2 & _); [by intros q ?%not_elem_of_nil|]. done.
  - destruct (close_outside s fd (Z.to_nat (total_refs s)) Ht) as [c Hc]. assert (Hs : vfs_close s fd = (c, s)) by (unfold vfs_close; by rewrite Hc).
    rewrite Hs. cbn [snd]. eapply inv_own_ext; [|exact I]. by apply not_in_table.
Qed.

Lemma close_held s own fd : vfs_inv s own [] [] -> 1 <= own fd ->
  vfs_inv (vfs_close s fd).2 (if (vfs_close s fd).1 =? 0 then bump own fd (-1) else own) [] [].
Proof.
  intros I Ho. destruct (decide (in_table fd)) as [Ht|Ht].
  - destruct (vfs_close_ok s own [] [] fd I (owner_used s own fd I Ho Ht) Ho) as (_ & H1 & H2 & _); [by intros q ?%not_elem_of_nil|]. by rewrite H1.
  - destruct (close_outside s fd (Z.to_nat (total_refs s)) Ht) as [c Hc]. assert (Hs : vfs_close s fd = (c, s)) by (unfold vfs_close; by rewrite Hc).
    rewrite Hs. cbn [fst snd]. destruct (c =? 0); [|done]. eapply inv_own_ext; [|exact I]. by apply not_in_table.
Qed.

Lemma vfs_do_inv own s op : vfs_inv s own [] [] -> allowed own op = true -> vfs_inv (vfs_do own s op).2 (vfs_do own s op).1 [] [].
Proof.
  intros I Ha. destruct op as [path flags| | |size|fd|fd|fd b n|fd b l|fd o w|fd b c|e o fd ev da|fd|]; cbn [allowed vfs_do] in *.
  - pose proof (vfs_open_flags_opens s own path flags I) as Ho. by destruct (vfs_open_flags s path flags).
  - pose proof (vfs_pipe_create_inv s own I) as Ho. by destruct (vfs_pipe_create s) as [[] ?].
  - pose proof (vfs_epoll_create_opens s own I) as Ho. by destruct (vfs_epoll_create s).
  - pose proof (vfs_shm_create_opens s own size I) as Ho. by destruct (vfs_shm_create s size).
  - pose proof (vfs_retain_inv s own fd I) as [Ho _]. by destruct (vfs_retain s fd).
  - pose proof (close_held s own fd I ltac:(lia)) as Ho. by destruct (vfs_close s fd).
  - eapply inv_frame; [apply same_read; lia|exact I].
  - eapply inv_frame; [apply same_write|exact I].
  - eapply inv_frame; [apply same_seek|exact I].
  - eapply inv_frame; [apply same_getdents|exact I].
  - apply vfs_epoll_ctl_inv; [exact I|]. by apply Z.leb_le.
  - eapply inv_frame; [apply same_sync_fd|exact I].
  - eapply inv_frame; [apply same_sync_all|exact I].
Qed.

Lemma reachable_inv own s : reachable own s -> vfs_inv s own [] [].
Proof. induction 1; [by eapply vfs_init_inv|by apply vfs_do_inv]. Qed.

(** ** Epoll sets that do not watch each other in a circle *)

Definition acyclic s (rank : Z -> nat) : Prop :=
  forall e i, used_fd s e -> d_is_epoll (file s e) = true -> 0 <= i < 32 -> w_used (watch_at s e i) = true ->
  (rank (w_fd (watch_at s e i)) < rank e)%nat.

Lemma sumz_pos f i n : 0 < sumz f i n -> exists k, i <= k < i + Z.of_nat n /\ 0 < f k.
Proof.
  revert i; induction n as [|n IH]; intros i Hs; cbn in Hs; [lia|]. destruct (decide (0 < f i)) as [Hp|Hp]; [exists i; split; [lia|done]|].
  destruct (IH (i + 1)) as (k & Hk & Hf); [lia|]. exists k. split; [lia|done].
Qed.

Lemma watcher s fd : 0 < watches s [] fd ->
  exists e i, used_fd s e /\ d_is_epoll (file s e) = true /\ 0 <= i < 32 /\ w_used (watch_at s e i) = true /\ w_fd (watch_at s e i) = fd.
Proof.
  intros (e & He & Hp)%sumz_pos. unfold epoll_refs in Hp. destruct (d_used (file s e)) eqn:Eu, (d_is_epoll (file s e)) eqn:Ee; cbn [andb] in Hp; try lia.
  apply sumz_pos in Hp as (i & Hi & Hp). unfold slot_refs, watching in Hp. rewrite bool_decide_false in Hp by (by intros ?%not_elem_of_nil).
  exists e, i. destruct (w_used (watch_at s e i)); cbn [andb] in Hp; [|lia]. destruct (w_fd (watch_at s e i) =? fd) eqn:E; [|lia].
  repeat split; try done; unfold OPEN_DESCRIPTOR_BASE, MAX_INITRD_FILES, MAX_OPEN_DESCRIPTORS; lia.
Qed.

(** A descriptor nobody holds is watched by another one. *)
Lemma unheld_watched s own fd : vfs_inv s own [] [] -> used_fd s fd -> own fd = 0 -> 0 < watches s [] fd.
Proof.
  intros I Hu Ho. destruct (vi_refs _ _ _ _ I fd Hu) as (Hr & _). pose proof (watches_nonneg s [] fd).
  destruct (decide (watches s [] fd = 0)) as [E|E]; [|lia]. assert (Hd : fd ∈ ([] : list Z)) by (apply (vi_dying _ _ _ _ I); split; [done|lia]).
  by apply not_elem_of_nil in Hd.
Qed.

Lemma all_closed s own rank : vfs_inv s own [] [] -> acyclic s rank -> (forall fd, own fd = 0) -> forall fd, ~ used_fd s fd.
Proof.
  intros I Ha Ho. set (top := sumz (fun x => Z.of_nat (rank x)) 64 64).
  assert (Hle : forall fd, used_fd s fd -> Z.of_nat (rank fd) <= top).
  { intros fd [Ht _]. apply (sumz_term (fun x => Z.of_nat (rank x)) 64 64 fd); [lia|]. unfold in_table, OPEN_DESCRIPTOR_BASE, MAX_INITRD_FILES, MAX_OPEN_DESCRIPTORS in Ht. lia. }
  assert (Hrec : forall n fd, used_fd s fd -> top - Z.of_nat (rank fd) < Z.of_nat n -> False).
  { induction n as [|n IH]; intros fd Hu Hn; [specialize (Hle fd Hu); lia|].
    destruct (watcher s fd (unheld_watched s own fd I Hu (Ho fd))) as (e & i & Hue & He & Hi & Hw & Hf).
    apply (IH e Hue). specialize (Ha e i Hue He Hi Hw). rewrite Hf in Ha. lia. }
  intros fd Hu. apply (Hrec (S (Z.to_nat (top - Z.of_nat (rank fd)))) fd Hu). lia.
Qed.

Lemma objs_empty s own k : vfs_inv s own [] [] -> (forall fd, ~ used_fd s fd) -> objs s k = ∅.
Proof. intros I Hu. apply elem_of_equiv_empty_L. intros ptr Hp. destruct (vi_noleak _ _ _ _ I k ptr Hp) as (fd & Hf & _). by apply (Hu fd). Qed.

Lemma poll_watches_total (poll : Z -> Z -> option Z) s fd ws :
  (forall i, i ∈ ws -> w_used (watch_at s fd i) = true -> exists e, poll (w_fd (watch_at s fd i)) (w_events (watch_at s fd i)) = Some e) ->
  exists e, poll_watches poll s fd ws = Some e.
Proof.
  induction ws as [|i ws IH]; intros Hp; [by eexists|]. cbn [poll_watches]. assert (Hr : exists e, poll_watches poll s fd ws = Some e) by (apply IH; intros j Hj; apply Hp; set_solver).
  destruct (w_used (watch_at s fd i)) eqn:E; [|done]. destruct (Hp i ltac:(set_solver) E) as [e ->]. destruct (e =? 0); [done|by eexists].
Qed.

Lemma poll_fuel s rank n fd requested : acyclic s rank -> (rank fd < n)%nat -> exists e, vfs_poll_events n s fd requested = Some e.
Proof.
  intros Ha. revert fd requested; induction n as [|n IH]; intros fd requested Hn; [lia|]. cbn [vfs_poll_events].
  cif E1; [by eexists|]. cif E2; [by eexists|]. cif E3; [by eexists|]. apply negb_false_iff, open_fd_spec in E3.
  assert (Hw : d_is_epoll (file s fd) = true -> exists e, poll_watches (vfs_poll_events n s) s fd watch_indices = Some e).
  { intros He. apply poll_watches_total. intros i Hi Hu. apply IH. assert (Hlt : (rank (w_fd (watch_at s fd i)) < rank fd)%nat); [|lia].
    apply Ha; try done. unfold watch_indices, EPOLL_MAX_WATCHES in Hi. apply elem_of_seqZ in Hi. lia. }
  destruct (d_is_pipe (file s fd)), (pipe_of s fd) as [p|]; try by eexists.
  all: destruct (d_is_epoll (file s fd) && negb (d_epoll (file s fd) =? 0)) eqn:E4; [|by destruct (d_is_shm (file s fd)); eexists].
  all: apply andb_true_iff in E4 as [E4 _]; destruct (Hw E4) as [e ->]; by eexists.
Qed.

Definition acyclicb s (rank : Z -> nat) : bool :=
  forallb (fun e => forallb (fun i => let w := watch_at s e i in
    negb (d_used (file s e) && d_is_epoll (file s e) && w_used w) || (rank (w_fd w) <? rank e)%nat) (seqZ 0 32)) (seqZ 64 64).

Lemma acyclicb_spec s rank : acyclicb s rank = true -> acyclic s rank.
Proof.
  intros Hb e i [Ht Hu] He Hi Hw. unfold acyclicb in Hb. rewrite forallb_forall in Hb.
  assert (Hin : In e (seqZ 64 64)) by (apply list_elem_of_In, elem_of_seqZ; unfold in_table, OPEN_DESCRIPTOR_BASE, MAX_INITRD_FILES, MAX_OPEN_DESCRIPTORS in Ht; lia).
  specialize (Hb e Hin). rewrite forallb_forall in Hb. assert (Hi' : In i (seqZ 0 32)) by (apply list_elem_of_In, elem_of_seqZ; lia).
  specialize (Hb i Hi'). cbn beta zeta in Hb. rewrite Hu, He, Hw in Hb. cbn [andb negb orb] in Hb. by apply Nat.ltb_lt.
Qed.

(** A sequence of calls; none when a call is not allowed. *)
Fixpoint vfs_run (own : Z -> Z) s (ops : list vfs_op) : option ((Z -> Z) * vfs K) :=
  match ops with
  | [] => Some (own, s)
  | op :: ops' => if allowed own op then vfs_run (vfs_do own s op).1 (vfs_do own s op).2 ops' else None
  end.

Lemma vfs_run_reachable own s ops own' s' : reachable own s -> vfs_run own s ops = Some (own', s') -> reachable own' s'.
Proof.
  revert own s; induction ops as [|op ops IH]; intros own s Hr Hrun; cbn [vfs_run] in Hrun; [by simplify_eq|].
  destruct (allowed own op) eqn:E; [|done]. apply (IH _ _ (reach_step _ _ _ Hr E) Hrun).
Qed.

(** ** What holds after any sequence of calls *)

(** C11: After any sequence of VFS calls in which each caller closes only
    descriptors it holds, every descriptor counts exactly the references held
    by callers and by epoll sets and never more than its field can; no two
    descriptors share an object except the two ends of a pipe, whose reader and
    writer counts are those of the ends; no descriptor or watch refers to a
    freed object or an unused slot, and no object is left without a
    descriptor. *)
Theorem vfs_reachable_inv own s : reachable own s -> vfs_inv s own [] [].
Proof. apply reachable_inv. Qed.

(** C35: When all references have been given up and no epoll sets watch each
    other in a circle, nothing leaks: the descriptor table is empty and every
    pipe, epoll set, shared memory object and file buffer has been freed. *)
Theorem vfs_no_leak own s rank :
  reachable own s -> acyclic s rank -> (forall fd, own fd = 0) ->
  (forall fd, in_table fd -> file s fd = zero_desc) /\ v_pipes s = ∅ /\ v_epolls s = ∅ /\ v_shms s = ∅ /\ v_pdata s = ∅.
Proof.
  intros Hr Ha Ho. pose proof (reachable_inv own s Hr) as I. pose proof (all_closed s own rank I Ha Ho) as Hu.
  split; [|repeat split; apply dom_empty_inv_L; [apply (objs_empty s own OPipe)|apply (objs_empty s own OEpoll)|apply (objs_empty s own OShm)|apply (objs_empty s own OData)]; done].
  intros fd Ht. destruct (d_used (file s fd)) eqn:E; [by destruct (Hu fd)|apply (vi_unused _ _ _ _ I fd Ht E)].
Qed.

(** Polling terminates when no epoll sets watch each other in a circle:
    the recursion is at most as deep as the chain of epoll sets below the
    descriptor. *)
Theorem vfs_poll_events_total s rank fd requested :
  acyclic s rank -> exists e, vfs_poll_events (S (rank fd)) s fd requested = Some e.
Proof. intros Ha. apply (poll_fuel s rank); [done|lia]. Qed.
End Run.

(** ** Examples *)

#[local] Existing Instance heap_example.

Lemma foldr_max_le (l : list Z) x : x ∈ l -> x <= foldr Z.max 0 l.
Proof. induction 1; cbn [foldr]; lia. Qed.

Lemma foldr_max_nonneg (l : list Z) : 0 <= foldr Z.max 0 l.
Proof. induction l; cbn [foldr]; lia. Qed.

#[local] Instance heap_example_laws : VfsEnvLaws (gset Z).
Proof.
  refine {| ve_live := id |}; try done.
  - intros live n _. split; [|done]. cbn [ve_kmalloc heap_example fst id]. intros Hin. apply elem_of_elements, foldr_max_le in Hin. lia.
  - intros live n Hz. exfalso. cbn [ve_kmalloc heap_example fst] in Hz. pose proof (foldr_max_nonneg (elements live)). lia.
Defined.

Definition machine_example : npkfs := Npkfs zero_super (replicate 64 zero_inode) (replicate 64 zero_inode) false false (Disk false false 0 (afill []) [] []).
Definition none_held : Z -> Z := fun _ => 0.

(** The state after some calls on a machine without a disk, and what is held. *)
Definition after (ops : list vfs_op) : (Z -> Z) * vfs (gset Z) :=
  default (none_held, vfs_example) (vfs_run none_held vfs_example ops).

(** All the calls are allowed. *)
Definition runs (ops : list vfs_op) : bool := match vfs_run none_held vfs_example ops with Some _ => true | None => false end.

Lemma vfs_example_init : vfs_init machine_example [] ∅ = Some vfs_example.
Proof. vm_compute. reflexivity. Qed.

Lemma after_reachable ops : runs ops = true -> reachable (after ops).1 (after ops).2.
Proof.
  intros Hs. unfold after, runs in *. destruct (vfs_run none_held vfs_example ops) as [[own s]|] eqn:E; [|done]. cbn [default from_option id fst snd].
  eapply vfs_run_reachable; [|exact E]. eapply reach_init, vfs_example_init.
Qed.

(** A pipe (64, 65), an epoll set (66) that watches its reading end, and the
    caller's reference of the reading end given up. *)
Definition watched_pipe : list vfs_op := [OpPipe; OpEpoll; OpEpollCtl 66 1 64 NPK_VFS_POLLIN 7; OpClose 64].

Lemma watched_pipe_runs : runs watched_pipe = true.
Proof. vm_compute. reflexivity. Qed.

Lemma vfs_reachable_inv_witness : vfs_inv (after watched_pipe).2 (after watched_pipe).1 [] [].
Proof. exact (vfs_reachable_inv _ _ (after_reachable watched_pipe watched_pipe_runs)). Defined.

Definition watched_rank (fd : Z) : nat := if fd =? 66 then 1 else 0.

Lemma watched_pipe_acyclic : acyclicb (after watched_pipe).2 watched_rank = true.
Proof. vm_compute. reflexivity. Qed.

Lemma vfs_poll_events_total_witness : exists e, vfs_poll_events (S (watched_rank 66)) (after watched_pipe).2 66 NPK_VFS_POLLIN = Some e.
Proof. exact (vfs_poll_events_total _ _ 66 NPK_VFS_POLLIN (acyclicb_spec _ _ watched_pipe_acyclic)). Defined.

(** The pipe is created, passed bytes through, and both ends are closed. *)
Definition closed_pipe : list vfs_op := [OpPipe; OpWrite 65 8192 [1; 2]; OpRead 64 8192 1; OpClose 64; OpClose 65].

Lemma closed_pipe_held : (after closed_pipe).1 = bump (bump (bump (bump none_held 64 1) 65 1) 64 (-1)) 65 (-1).
Proof. vm_compute. reflexivity. Qed.

Lemma closed_pipe_ok : runs closed_pipe = true /\ acyclicb (after closed_pipe).2 (fun _ => 0%nat) = true.
Proof. split; vm_compute; reflexivity. Qed.

Lemma vfs_no_leak_witness : v_pipes (after closed_pipe).2 = ∅ /\ (forall fd, in_table fd -> (v_files (after closed_pipe).2).[fd] = zero_desc).
Proof.
  destruct (vfs_no_leak (after closed_pipe).1 (after closed_pipe).2 (fun _ => 0%nat)) as (Hf & Hp & _).
  - exact (after_reachable closed_pipe (proj1 closed_pipe_ok)).
  - exact (acyclicb_spec _ _ (proj2 closed_pipe_ok)).
  - intros fd. rewrite closed_pipe_held. unfold bump, none_held. destruct (fd =? 65), (fd =? 64); lia.
  - exact (conj Hp Hf).
Defined.

Lemma watched_pipe_held : open_fd (after watched_pipe).2 66 = true /\ 1 <= (after watched_pipe).1 66.
Proof. split; vm_compute; [reflexivity|discriminate]. Qed.

Lemma vfs_close_spec_witness : (vfs_close (after watched_pipe).2 66).1 = 0 /\ vfs_inv (vfs_close (after watched_pipe).2 66).2 (bump (after watched_pipe).1 66 (-1)) [] [].
Proof.
  destruct (vfs_close_spec (after watched_pipe).2 (after watched_pipe).1 66) as (_ & H1 & H2 & _).
  - exact (reachable_inv _ _ (after_reachable watched_pipe watched_pipe_runs)).
  - exact (conj (proj1 (open_fd_spec _ _) (proj1 watched_pipe_held)) (proj2 watched_pipe_held)).
  - exact (conj H1 H2).
Defined.

(** Two epoll sets that watch each other: only an epoll set that watches itself
    is refused.  When both are closed they keep each other alive, and a poll of
    one of them recurses without end. *)
Definition epoll_cycle : list vfs_op := [OpEpoll; OpEpoll; OpEpollCtl 64 1 65 NPK_VFS_POLLIN 0; OpEpollCtl 65 1 64 NPK_VFS_POLLIN 0].

Lemma poll_first {K} (s : vfs K) fd (poll : Z -> Z -> option Z) : w_used (watch_at s fd 0) = true ->
  (forall n, poll (w_fd (watch_at s fd 0)) n = None) -> poll_watches poll s fd watch_indices = None.
Proof. intros Hw Hp. change watch_indices with (0 :: seqZ 1 31). cbn [poll_watches]. by rewrite Hw, Hp. Qed.

(** [fd] is an epoll set whose first watch is of [other]. *)
Definition watches_first {K} (s : vfs K) (fd other : Z) : Prop :=
  open_fd s fd = true /\ d_is_pipe (v_files s).[fd] = false /\ d_is_epoll (v_files s).[fd] && negb (d_epoll (v_files s).[fd] =? 0) = true /\
  w_used (watch_at s fd 0) = true /\ w_fd (watch_at s fd 0) = other.

Lemma poll_cycle {K} `{VfsEnv K} (s : vfs K) a b fuel : 2 < a -> 2 < b -> watches_first s a b -> watches_first s b a ->
  (forall n, vfs_poll_events fuel s a n = None) /\ (forall n, vfs_poll_events fuel s b n = None).
Proof.
  intros Ha Hb HA HB. induction fuel as [|fuel [IH1 IH2]]; [done|].
  assert (Hstep : forall x y, 2 < x -> watches_first s x y -> (forall n, vfs_poll_events fuel s y n = None) -> forall n, vfs_poll_events (S fuel) s x n = None).
  { intros x y Hx (H1 & H2 & H3 & H4 & H5) Hy n. cbn [vfs_poll_events]. rewrite H1, H2, H3.
    replace ((x =? 1) || (x =? 2)) with false by lia. replace (x =? 0) with false by lia. cbn [negb].
    by rewrite (poll_first s x (vfs_poll_events fuel s) H4) by (by rewrite H5). }
  split; [exact (Hstep a b Ha HA IH2)|exact (Hstep b a Hb HB IH1)].
Qed.

Lemma epoll_cycle_first : watches_first (after epoll_cycle).2 64 65 /\ watches_first (after epoll_cycle).2 65 64 /\ runs epoll_cycle = true.
Proof. unfold watches_first. split; [|split]; [..|vm_compute; reflexivity]; (split; [|split; [|split; [|split]]]); vm_compute; reflexivity. Qed.

Lemma epoll_cycle_diverges :
  reachable (after epoll_cycle).1 (after epoll_cycle).2 /\ forall fuel n, vfs_poll_events fuel (after epoll_cycle).2 64 n = None.
Proof.
  destruct epoll_cycle_first as (H1 & H2 & H3). split; [exact (after_reachable _ H3)|].
  intros fuel. exact (proj1 (poll_cycle _ 64 65 fuel eq_refl eq_refl H1 H2)).
Qed.

Lemma epoll_cycle_leaks : let r := after (epoll_cycle ++ [OpClose 64; OpClose 65]) in
  runs (epoll_cycle ++ [OpClose 64; OpClose 65]) = true /\
  r.1 64 = 0 /\ r.1 65 = 0 /\ d_used (v_files r.2).[64] = true /\ d_used (v_files r.2).[65] = true.
Proof. vm_compute. repeat split. Qed.
