(* ===== verification/DeviceConfig.v ===== *)
(** * The device catalogue

    The JSON parser of src/src/device/device_config.c, which reads /ddc.json
    through the VFS, and the lookup of a USB interface in the catalogue.  The
    cursor of the parser is the text that is left; bytes are unsigned. *)

From Stdlib Require Import ZArith Lia Bool ZifyBool.
From stdpp Require Import base numbers list gmap strings.
From S2P Require Import Prelude Kstring Path Npkfs Procfs Newc Vfs VfsRefs VfsClose VfsOps VfsRun.

Open Scope Z_scope.
Open Scope npk_scope.

(** ** Data *)

Definition DDC_MAX_FILE_BYTES := 16384.
Definition DDC_MAX_CATEGORIES := 16.
Definition DDC_MAX_PRODUCTS := 64.
Definition DDC_TEXT_CAPACITY := 64.
Definition DDC_BUS_CAPACITY := 8.
Definition DDC_MAX_JSON_DEPTH := 8.
Definition DDC_EINVAL := 22.
Definition DDC_EFBIG := 27.
Definition DDC_EIO := 5.
Definition NPK_DEVICE_TYPE_NAME_CAPACITY := 24.
Definition NPK_DEVICE_DISPLAY_NAME_CAPACITY := 64.
Definition NPK_DEVICE_DRIVER_NAME_CAPACITY := 32.

Inductive npk_device_bus := NPK_DEVICE_BUS_NONE | NPK_DEVICE_BUS_PCI | NPK_DEVICE_BUS_USB.
#[export] Instance bus_eq_dec : EqDecision npk_device_bus.
Proof. solve_decision. Defined.

Record npk_device_identity := Identity {
  id_bus : npk_device_bus; id_location : Z; id_vendor_id : Z; id_product_id : Z; id_class_code : Z; id_subclass : Z; id_protocol : Z;
  id_revision : Z; id_interface_number : Z }.
Record npk_device_config_match := ConfigMatch { cm_type : cstr; cm_display_name : cstr; cm_driver_name : cstr }.

(** Character arrays hold a string; what is behind its end is never read. *)
Record ddc_category := Category {
  ca_class_code : Z; ca_subclass : Z; ca_protocol : Z; ca_type : cstr; ca_generic_name : cstr; ca_driver_name : cstr }.
Record ddc_product := Product { pd_vendor_id : Z; pd_product_id : Z; pd_type : cstr; pd_model_name : cstr }.
#[export] Instance category_eq_dec : EqDecision ddc_category.
Proof. solve_decision. Defined.
#[export] Instance product_eq_dec : EqDecision ddc_product.
Proof. solve_decision. Defined.

(** The static variables of the file: the tables up to their counts. *)
Record device_config := DeviceConfig { dc_categories : list ddc_category; dc_products : list ddc_product; dc_loaded : bool }.
#[export] Instance eta_device_config : Eta device_config := fun x => DeviceConfig (dc_categories x) (dc_products x) (dc_loaded x).

Definition device_config_reset : device_config := DeviceConfig [] [] false.

Definition text_equal (left right : cstr) : bool := bool_decide (text left = text right).
Definition text_copy (capacity : Z) (source : cstr) : option cstr :=
  let length := strlen source in
  if (length =? 0) || (length >=? capacity) then None else Some (text source).

(** ** The parser *)

(** What a parser gives: a value and the text behind it, or false; [NoFuel]
    when the bound on the number of steps was too small. *)
Inductive parsed (A : Type) := Parsed (x : A) (rest : list Z) | Rejected | NoFuel.
Arguments Parsed {A}. Arguments Rejected {A}. Arguments NoFuel {A}.

Definition is_space (c : Z) : bool := (c =? 32) || (c =? 9) || (c =? 13) || (c =? 10).

Fixpoint skip_space (l : list Z) : list Z :=
  match l with
  | c :: l' => if is_space c then skip_space l' else l
  | [] => []
  end.

Definition take_char (l : list Z) (expected : Z) : bool * list Z :=
  match skip_space l with
  | c :: l' => if c =? expected then (true, l') else (false, c :: l')
  | [] => (false, [])
  end.

(** '0' is 48, 'a' 97, 'A' 65. *)
Definition hex_digit (c : Z) : Z :=
  if (48 <=? c) && (c <=? 57) then c - 48
  else if (97 <=? c) && (c <=? 102) then c - 97 + 10
  else if (65 <=? c) && (c <=? 70) then c - 65 + 10
  else -1.

(** The four digits of a Unicode escape. *)
Definition hex4 (a b c d : Z) : option Z :=
  if existsb (fun x => hex_digit x <? 0) [a; b; c; d] then None
  else Some (fold_left (fun code x => Z.lor (Z.shiftl code 4) (hex_digit x)) [a; b; c; d] 0).

Definition QUOTE := 34.
Definition BACKSLASH := 92.
Definition LOWER_U := 117.

(** The other escapes: quote, backslash, slash, b, f, n, r and t. *)
Definition escaped (e : Z) : option Z :=
  if e =? QUOTE then Some QUOTE else if e =? BACKSLASH then Some BACKSLASH else if e =? 47 then Some 47
  else if e =? 98 then Some 8 else if e =? 102 then Some 12 else if e =? 110 then Some 10
  else if e =? 114 then Some 13 else if e =? 116 then Some 9 else None.

(** [c < 0x20U || used + 1U >= capacity] *)
Definition refused (capacity : Z) (used : list Z) (c : Z) : bool := (c <? 0x20) || (Z.of_nat (length used) + 1 >=? capacity).

(** The loop of [parse_json_string]; [used] is what is stored, last first. *)
Fixpoint string_loop (capacity : Z) (used l : list Z) : parsed cstr :=
  match l with
  | [] => Rejected
  | c :: l1 =>
      if c =? QUOTE then match used with [] => Rejected | _ => Parsed (rev used) l1 end
      else if c =? BACKSLASH then
        match l1 with
        | [] => Rejected
        | e :: l2 =>
            if e =? LOWER_U then
              match l2 with
              | a1 :: a2 :: a3 :: a4 :: l3 =>
                  match hex4 a1 a2 a3 a4 with
                  | Some code => if (code >? 0x7f) || refused capacity used code then Rejected else string_loop capacity (code :: used) l3
                  | None => Rejected
                  end
              | _ => Rejected
              end
            else
              match escaped e with
              | Some c => if refused capacity used c then Rejected else string_loop capacity (c :: used) l2
              | None => Rejected
              end
        end
      else if refused capacity used c then Rejected else string_loop capacity (c :: used) l1
  end.

Definition parse_json_string (capacity : Z) (l : list Z) : parsed cstr :=
  let '(ok, l) := take_char l QUOTE in
  if negb ok || (capacity =? 0) then Rejected else string_loop capacity [] l.

Fixpoint skip_string_loop (l : list Z) : parsed unit :=
  match l with
  | [] => Rejected
  | c :: l1 =>
      if c =? QUOTE then Parsed tt l1
      else if c <? 0x20 then Rejected
      else if c =? BACKSLASH then
        match l1 with
        | [] => Rejected
        | e :: l2 =>
            if e =? LOWER_U then
              match l2 with
              | a1 :: a2 :: a3 :: a4 :: l3 => match hex4 a1 a2 a3 a4 with Some _ => skip_string_loop l3 | None => Rejected end
              | _ => Rejected
              end
            else match escaped e with Some _ => skip_string_loop l2 | None => Rejected end
        end
      else skip_string_loop l1
  end.

Definition skip_json_string (l : list Z) : parsed unit :=
  let '(ok, l) := take_char l QUOTE in if ok then skip_string_loop l else Rejected.

Definition is_digit (c : Z) : bool := (48 <=? c) && (c <=? 57).

(** The digits from the cursor on; none when the number does not fit. *)
Fixpoint digits_loop (value : Z) (l : list Z) : option (Z * list Z) :=
  match l with
  | c :: l' =>
      if is_digit c then
        let digit := c - 48 in
        if value >? (UINT32_MAX - digit) / 10 then None else digits_loop (value * 10 + digit) l'
      else Some (value, l)
  | [] => Some (value, [])
  end.

Definition parse_uint32 (l : list Z) : parsed Z :=
  match skip_space l with
  | [] => Rejected
  | c :: l' =>
      match digits_loop 0 (c :: l') with
      | None => Rejected
      | Some (value, rest) =>
          let taken := Z.of_nat (length (c :: l')) - Z.of_nat (length rest) in
          if taken =? 0 then Rejected else if (taken >? 1) && (c =? 48) then Rejected else Parsed value rest
      end
  end.

Definition and_then {A B} (p : parsed A) (f : A -> list Z -> parsed B) : parsed B :=
  match p with Parsed x l => f x l | Rejected => Rejected | NoFuel => NoFuel end.
Notation "'let!' ( x , l ) := p 'in' k" := (and_then p (fun x l => k)) (at level 200, x name, l name, k at level 200) : npk_scope.

(** [if (!take_char(cursor, expected)) return false] *)
Definition expect (l : list Z) (expected : Z) : parsed unit :=
  let '(ok, l) := take_char l expected in if ok then Parsed tt l else Rejected.

(** The end of a round: the closing bracket ends the loop with [x], a comma
    begins the next round. *)
Definition close_or_comma {A} (close : Z) (x : A) (l : list Z) (next : list Z -> parsed A) : parsed A :=
  let '(ok, l) := take_char l close in
  if ok then Parsed x l else let! (_, l) := expect l 44 in next l.

(** Behind an opening bracket: nothing, or the rounds. *)
Definition empty_or {A} (close : Z) (x : A) (l : list Z) (rounds : list Z -> parsed A) : parsed A :=
  let '(ok, l) := take_char (skip_space l) close in if ok then Parsed x l else rounds l.

(** What ends a number, true, false, null or anything else. *)
Definition ends_scalar (c : Z) : bool := (c =? 44) || (c =? 93) || (c =? 125) || is_space c.
Fixpoint skip_scalar (l : list Z) : list Z :=
  match l with
  | c :: l' => if ends_scalar c then l else skip_scalar l'
  | [] => []
  end.

(** The brackets are 123 and 125, 91 and 93. *)
Fixpoint skip_json_value (fuel : nat) (depth : Z) (l : list Z) : parsed unit :=
  match fuel with
  | O => NoFuel
  | S fuel' =>
      if depth >? DDC_MAX_JSON_DEPTH then Rejected
      else
        match skip_space l with
        | [] => Rejected
        | c :: l' =>
            if c =? QUOTE then skip_json_string (c :: l')
            else if c =? 123 then skip_json_object fuel' depth (c :: l')
            else if c =? 91 then skip_json_array fuel' depth (c :: l')
            else if ends_scalar c then Rejected else Parsed tt (skip_scalar (c :: l'))
        end
  end
with skip_json_object (fuel : nat) (depth : Z) (l : list Z) : parsed unit :=
  match fuel with
  | O => NoFuel
  | S fuel' =>
      if depth >? DDC_MAX_JSON_DEPTH then Rejected
      else let! (_, l) := expect l 123 in empty_or 125 tt l (skip_members fuel' depth)
  end
with skip_members (fuel : nat) (depth : Z) (l : list Z) : parsed unit :=
  match fuel with
  | O => NoFuel
  | S fuel' =>
      let! (_, l) := skip_json_string l in
      let! (_, l) := expect l 58 in
      let! (_, l) := skip_json_value fuel' (depth + 1) l in
      close_or_comma 125 tt l (skip_members fuel' depth)
  end
with skip_json_array (fuel : nat) (depth : Z) (l : list Z) : parsed unit :=
  match fuel with
  | O => NoFuel
  | S fuel' =>
      if depth >? DDC_MAX_JSON_DEPTH then Rejected
      else let! (_, l) := expect l 91 in empty_or 93 tt l (skip_elements fuel' depth)
  end
with skip_elements (fuel : nat) (depth : Z) (l : list Z) : parsed unit :=
  match fuel with
  | O => NoFuel
  | S fuel' =>
      let! (_, l) := skip_json_value fuel' (depth + 1) l in
      close_or_comma 93 tt l (skip_elements fuel' depth)
  end.

(** Steps that are enough for a text. *)
Definition steps (l : list Z) : nat := S (3 * length l).

(** *** Categories and products *)

(** The fields seen so far. *)
Record category_fields := CategoryFields {
  cf_bus : option cstr; cf_class : option Z; cf_subclass : option Z; cf_protocol : option Z;
  cf_type : option cstr; cf_name : option cstr; cf_driver : option cstr }.
#[export] Instance eta_category_fields : Eta category_fields := fun x =>
  CategoryFields (cf_bus x) (cf_class x) (cf_subclass x) (cf_protocol x) (cf_type x) (cf_name x) (cf_driver x).
Definition no_category : category_fields := CategoryFields None None None None None None None.

(** [!parse_uint32(cursor, &number) || number > maximum] *)
Definition parse_bounded (maximum : Z) (l : list Z) : parsed Z :=
  let! (number, l) := parse_uint32 l in if number >? maximum then Rejected else Parsed number l.

Definition category_field (f : category_fields) (key : cstr) (l : list Z) : parsed category_fields :=
  if text_equal key (str "bus"%string) then
    let! (s, l) := parse_json_string DDC_BUS_CAPACITY l in Parsed (f <| cf_bus := Some s |>) l
  else if text_equal key (str "class"%string) then
    let! (n, l) := parse_bounded 255 l in Parsed (f <| cf_class := Some n |>) l
  else if text_equal key (str "subclass"%string) then
    let! (n, l) := parse_bounded 255 l in Parsed (f <| cf_subclass := Some n |>) l
  else if text_equal key (str "protocol"%string) then
    let! (n, l) := parse_bounded 255 l in Parsed (f <| cf_protocol := Some n |>) l
  else if text_equal key (str "type"%string) then
    let! (s, l) := parse_json_string NPK_DEVICE_TYPE_NAME_CAPACITY l in Parsed (f <| cf_type := Some s |>) l
  else if text_equal key (str "generic_name"%string) then
    let! (s, l) := parse_json_string NPK_DEVICE_DISPLAY_NAME_CAPACITY l in Parsed (f <| cf_name := Some s |>) l
  else if text_equal key (str "driver"%string) then
    let! (s, l) := parse_json_string NPK_DEVICE_DRIVER_NAME_CAPACITY l in Parsed (f <| cf_driver := Some s |>) l
  else let! (_, l) := skip_json_value (steps l) 0 l in Parsed f l.

(** The rounds of an object whose fields are parsed by [field]. *)
Fixpoint fields_loop {S : Type} (field : S -> cstr -> list Z -> parsed S) (fuel : nat) (f : S) (l : list Z) : parsed S :=
  match fuel with
  | O => NoFuel
  | Datatypes.S fuel' =>
      let! (key, l) := parse_json_string DDC_TEXT_CAPACITY l in
      let! (_, l) := expect l 58 in
      let! (f, l) := field f key l in
      close_or_comma 125 f l (fields_loop field fuel' f)
  end.
Definition parse_object {S : Type} (field : S -> cstr -> list Z -> parsed S) (f : S) (l : list Z) : parsed S :=
  let! (_, l) := expect l 123 in
  empty_or 125 f l (fields_loop field (Datatypes.S (length l)) f).

Definition parse_category (l : list Z) : parsed ddc_category :=
  let! (f, l) := parse_object category_field no_category l in
  match f with
  | CategoryFields (Some bus) (Some c) (Some sc) (Some p) (Some type) (Some name) (Some driver) =>
      if text_equal bus (str "usb"%string) then Parsed (Category c sc p type name driver) l else Rejected
  | _ => Rejected
  end.

Record product_fields := ProductFields { pf_vid : option Z; pf_pid : option Z; pf_type : option cstr; pf_name : option cstr }.
#[export] Instance eta_product_fields : Eta product_fields := fun x => ProductFields (pf_vid x) (pf_pid x) (pf_type x) (pf_name x).
Definition no_product : product_fields := ProductFields None None None None.

Definition product_field (f : product_fields) (key : cstr) (l : list Z) : parsed product_fields :=
  if text_equal key (str "vid"%string) then
    let! (n, l) := parse_bounded 0xffff l in Parsed (f <| pf_vid := Some n |>) l
  else if text_equal key (str "pid"%string) then
    let! (n, l) := parse_bounded 0xffff l in Parsed (f <| pf_pid := Some n |>) l
  else if text_equal key (str "type"%string) then
    let! (s, l) := parse_json_string NPK_DEVICE_TYPE_NAME_CAPACITY l in Parsed (f <| pf_type := Some s |>) l
  else if text_equal key (str "name"%string) then
    let! (s, l) := parse_json_string NPK_DEVICE_DISPLAY_NAME_CAPACITY l in Parsed (f <| pf_name := Some s |>) l
  else let! (_, l) := skip_json_value (steps l) 0 l in Parsed f l.

Definition parse_product (l : list Z) : parsed ddc_product :=
  let! (f, l) := parse_object product_field no_product l in
  match f with
  | ProductFields (Some vid) (Some pid) (Some type) (Some name) => Parsed (Product vid pid type name) l
  | _ => Rejected
  end.

(** The rounds of an array whose entries go to a table of [capacity] entries. *)
Fixpoint entries_loop {A : Type} (entry : list Z -> parsed A) (capacity : Z) (fuel : nat) (table : list A) (l : list Z) : parsed (list A) :=
  match fuel with
  | O => NoFuel
  | S fuel' =>
      if Z.of_nat (length table) >=? capacity then Rejected
      else
        let! (x, l) := entry l in
        close_or_comma 93 (table ++ [x]) l (entries_loop entry capacity fuel' (table ++ [x]))
  end.
Definition parse_array {A : Type} (entry : list Z -> parsed A) (capacity : Z) (table : list A) (l : list Z) : parsed (list A) :=
  let! (_, l) := expect l 91 in
  empty_or 93 table l (entries_loop entry capacity (S (length l)) table).

Definition parse_categories : list ddc_category -> list Z -> parsed (list ddc_category) := parse_array parse_category DDC_MAX_CATEGORIES.
Definition parse_products : list ddc_product -> list Z -> parsed (list ddc_product) := parse_array parse_product DDC_MAX_PRODUCTS.

Definition category_type_exists (categories : list ddc_category) (type : cstr) : bool :=
  existsb (fun c => text_equal (ca_type c) type) categories.

(** *** Documents *)

Record document := Document { do_version : option Z; do_has_categories : bool; do_categories : list ddc_category; do_products : list ddc_product }.
#[export] Instance eta_document : Eta document := fun x => Document (do_version x) (do_has_categories x) (do_categories x) (do_products x).

Definition document_field (d : document) (key : cstr) (l : list Z) : parsed document :=
  if text_equal key (str "version"%string) then
    let! (n, l) := parse_uint32 l in Parsed (d <| do_version := Some n |>) l
  else if text_equal key (str "categories"%string) then
    let! (t, l) := parse_categories (do_categories d) l in Parsed (d <| do_categories := t |> <| do_has_categories := true |>) l
  else if text_equal key (str "products"%string) then
    let! (t, l) := parse_products (do_products d) l in Parsed (d <| do_products := t |>) l
  else let! (_, l) := skip_json_value (steps l) 0 l in Parsed d l.

Definition same_interface (a b : ddc_category) : bool :=
  (ca_class_code a =? ca_class_code b) && (ca_subclass a =? ca_subclass b) && (ca_protocol a =? ca_protocol b).
Definition same_product (a b : ddc_product) : bool :=
  (pd_vendor_id a =? pd_vendor_id b) && (pd_product_id a =? pd_product_id b) && text_equal (pd_type a) (pd_type b).

(** The loops over i and j = i + 1, ... *)
Fixpoint no_pair {A : Type} (same : A -> A -> bool) (table : list A) : bool :=
  match table with
  | [] => true
  | x :: table' => negb (existsb (same x) table') && no_pair same table'
  end.

Definition tables_valid (categories : list ddc_category) (products : list ddc_product) : bool :=
  no_pair same_interface categories &&
  forallb (fun p => category_type_exists categories (pd_type p)) products && no_pair same_product products.

(** The tables of a document, if it is accepted; they are empty before. *)
Definition parse_document (data : list Z) : option (list ddc_category * list ddc_product) :=
  match parse_object document_field (Document None false [] []) data with
  | Parsed d l =>
      if negb (length (skip_space l) =? 0)%nat then None
      else
        match do_version d with
        | Some 1 =>
            if do_has_categories d && negb (length (do_categories d) =? 0)%nat && tables_valid (do_categories d) (do_products d)
            then Some (do_categories d, do_products d) else None
        | _ => None
        end
  | _ => None
  end.

(** ** Loading and lookup *)

Section Load.
Context {K : Type} `{VfsEnv K}.
Implicit Type s : vfs K.

(** The address of [config_buffer]: not NULL. *)
Definition CONFIG_BUFFER := 1.

Definition device_config_load_vfs s (c : device_config) (path : option cstr) : Z * device_config * vfs K :=
  match path with
  | None => (- DDC_EINVAL, c, s)
  | Some path =>
      if negb (chr path =? 47) then (- DDC_EINVAL, c, s)
      else if dc_loaded c then (0, c, s)
      else
        let '(fd, s) := vfs_open s path in
        if fd <? 0 then (fd, device_config_reset, s)
        else
          let file_size := vfs_size s fd in
          if (file_size <=? 0) || (file_size >? DDC_MAX_FILE_BYTES) then
            (if file_size >? DDC_MAX_FILE_BYTES then - DDC_EFBIG else - DDC_EINVAL, device_config_reset, (vfs_close s fd).2)
          else
            let '(bytes, data, s) := vfs_read s fd CONFIG_BUFFER file_size in
            let s := (vfs_close s fd).2 in
            if negb (bytes =? file_size) then (- DDC_EIO, device_config_reset, s)
            else
              match parse_document data with
              | None => (- DDC_EINVAL, device_config_reset, s)
              | Some (categories, products) => (0, DeviceConfig categories products true, s)
              end
  end.
End Load.

Definition matches_interface (i : npk_device_identity) (c : ddc_category) : bool :=
  (id_class_code i =? ca_class_code c) && (id_subclass i =? ca_subclass c) && (id_protocol i =? ca_protocol c).
Definition is_product (i : npk_device_identity) (c : ddc_category) (p : ddc_product) : bool :=
  (pd_vendor_id p =? id_vendor_id i) && (pd_product_id p =? id_product_id i) && text_equal (pd_type p) (ca_type c).

Definition device_config_resolve (cfg : device_config) (i : npk_device_identity) : option npk_device_config_match :=
  if negb (dc_loaded cfg) || negb (bool_decide (id_bus i = NPK_DEVICE_BUS_USB)) || (id_interface_number i =? 0xff) then None
  else
    match List.find (matches_interface i) (dc_categories cfg) with
    | None => None
    | Some c =>
        type ← text_copy NPK_DEVICE_TYPE_NAME_CAPACITY (ca_type c);
        display_name ← text_copy NPK_DEVICE_DISPLAY_NAME_CAPACITY (ca_generic_name c);
        driver_name ← text_copy NPK_DEVICE_DRIVER_NAME_CAPACITY (ca_driver_name c);
        match List.find (is_product i c) (dc_products cfg) with
        | None => Some (ConfigMatch type display_name driver_name)
        | Some p =>
            model_name ← text_copy NPK_DEVICE_DISPLAY_NAME_CAPACITY (pd_model_name p);
            Some (ConfigMatch type model_name driver_name)
        end
    end.

(** ** Every text is parsed to an end *)

(** The parser comes to an end, with less than [n] bytes left if it accepts. *)
Definition fine {A} (n : nat) (p : parsed A) : Prop :=
  match p with Parsed _ l => (length l < n)%nat | Rejected => True | NoFuel => False end.

Lemma fine_mono {A} m n (p : parsed A) : (m <= n)%nat -> fine m p -> fine n p.
Proof. destruct p; cbn; lia. Qed.

Lemma fine_then {A B} m n (p : parsed A) (f : A -> list Z -> parsed B) :
  fine m p -> (forall x l, (length l < m)%nat -> fine n (f x l)) -> fine n (and_then p f).
Proof. destruct p; cbn; auto. Qed.

Lemma skip_space_length l : (length (skip_space l) <= length l)%nat.
Proof. induction l as [|c l IH]; cbn; [done|]. destruct (is_space c); cbn; lia. Qed.

Lemma take_char_length l c : let r := take_char l c in (length r.2 <= length l)%nat /\ (r.1 = true -> (length r.2 < length l)%nat).
Proof.
  unfold take_char. pose proof (skip_space_length l) as L. destruct (skip_space l) as [|x l']; cbn in *; [by split|]. destruct (x =? c); cbn; split; lia || done.
Qed.

Lemma fine_expect l c : fine (length l) (expect l c).
Proof. unfold expect. pose proof (take_char_length l c) as [_ L]. destruct (take_char l c) as [[] r]; cbn in *; auto. Qed.

Lemma fine_close {A} n close (x : A) l next :
  (length l < n)%nat -> (forall l', (length l' < length l)%nat -> fine n (next l')) -> fine n (close_or_comma close x l next).
Proof.
  intros Hl Hn. unfold close_or_comma. pose proof (take_char_length l close) as [L1 L2]. destruct (take_char l close) as [[] r]; cbn [fst snd] in *; [cbn; lia|].
  eapply fine_then; [apply fine_expect|]. intros _ l' Hl'. apply Hn. lia.
Qed.

Lemma fine_empty {A} n close (x : A) l rounds :
  (length l < n)%nat -> (forall l', (length l' <= length l)%nat -> fine n (rounds l')) -> fine n (empty_or close x l rounds).
Proof.
  intros Hl Hn. unfold empty_or. pose proof (take_char_length (skip_space l) close) as [L1 L2]. pose proof (skip_space_length l).
  destruct (take_char _ close) as [[] r]; cbn [fst snd] in *; [cbn; lia|]. apply Hn. lia.
Qed.

Lemma fine_string_loop capacity n : forall used l, (length l <= n)%nat -> fine (S n) (string_loop capacity used l).
Proof.
  induction n as [n IH] using lt_wf_ind. intros used l Hl. destruct l as [|c l1]; [done|]. cbn [string_loop length] in *.
  assert (R : forall used' l', (length l' < n)%nat -> fine (S n) (string_loop capacity used' l')).
  { intros used' l' H'. eapply fine_mono; [|apply (IH (length l') H'); done]. lia. }
  repeat match goal with
  | |- fine _ (if ?b then _ else _) => destruct b
  | |- fine _ (match ?x with _ => _ end) => destruct x; cbn [length] in *
  end; try done; try (apply R; lia); cbn; lia.
Qed.

Lemma fine_parse_string capacity l : fine (length l) (parse_json_string capacity l).
Proof.
  unfold parse_json_string. pose proof (take_char_length l QUOTE) as [_ L]. destruct (take_char l QUOTE) as [[] r]; cbn [fst snd] in L; cbn [negb orb]; [|done].
  destruct (capacity =? 0); [done|]. eapply fine_mono; [|apply (fine_string_loop capacity (length r)); done]. specialize (L eq_refl). lia.
Qed.

Lemma fine_skip_string_loop n : forall l, (length l <= n)%nat -> fine (S n) (skip_string_loop l).
Proof.
  induction n as [n IH] using lt_wf_ind. intros l Hl. destruct l as [|c l1]; [done|]. cbn [skip_string_loop length] in *.
  assert (R : forall l', (length l' < n)%nat -> fine (S n) (skip_string_loop l')).
  { intros l' H'. eapply fine_mono; [|apply (IH (length l') H'); done]. lia. }
  repeat match goal with
  | |- fine _ (if ?b then _ else _) => destruct b
  | |- fine _ (match ?x with _ => _ end) => destruct x; cbn [length] in *
  end; try done; try (apply R; lia); cbn; lia.
Qed.

Lemma fine_skip_string l : fine (length l) (skip_json_string l).
Proof.
  unfold skip_json_string. pose proof (take_char_length l QUOTE) as [_ L]. destruct (take_char l QUOTE) as [[] r]; cbn [fst snd] in L; [|done].
  eapply fine_mono; [|apply (fine_skip_string_loop (length r)); done]. specialize (L eq_refl). lia.
Qed.

Lemma digits_loop_length value l v r : digits_loop value l = Some (v, r) -> (length r <= length l)%nat.
Proof.
  revert value; induction l as [|c l IH]; intros value; cbn; [by intros [= _ <-]|]. destruct (is_digit c); [|by intros [= _ <-]].
  destruct (_ >? _); [done|]. intros E. apply IH in E. lia.
Qed.

Lemma fine_uint32 l : fine (length l) (parse_uint32 l).
Proof.
  unfold parse_uint32. pose proof (skip_space_length l) as L. destruct (skip_space l) as [|c l']; [done|]. destruct (digits_loop 0 (c :: l')) as [[v r]|] eqn:E; [|done].
  apply digits_loop_length in E. cbv zeta. cif E1; [done|]. cif E2; [done|]. cbn in *. lia.
Qed.

Lemma skip_scalar_length l : (length (skip_scalar l) <= length l)%nat.
Proof. induction l as [|c l IH]; cbn; [done|]. destruct (ends_scalar c); cbn; lia. Qed.

Lemma fine_skip fuel :
  (forall depth l, (3 * length l + 1 <= fuel)%nat -> fine (length l) (skip_json_value fuel depth l)) /\
  (forall depth l, (3 * length l <= fuel)%nat -> (1 <= fuel)%nat -> fine (length l) (skip_json_object fuel depth l)) /\
  (forall depth l, (3 * length l + 2 <= fuel)%nat -> fine (length l) (skip_members fuel depth l)) /\
  (forall depth l, (3 * length l <= fuel)%nat -> (1 <= fuel)%nat -> fine (length l) (skip_json_array fuel depth l)) /\
  (forall depth l, (3 * length l + 2 <= fuel)%nat -> fine (length l) (skip_elements fuel depth l)).
Proof.
  induction fuel as [|fuel (IV & IO & IM & IA & IE)]; [split_and!; intros; lia|].
  split_and!; intros depth l Hf; cbn [skip_json_value skip_json_object skip_members skip_json_array skip_elements].
  - cif E1; [done|]. pose proof (skip_space_length l) as L. destruct (skip_space l) as [|c l']; [done|]. cif E2; [eapply fine_mono; [exact L|apply fine_skip_string]|].
    cif E3; [eapply fine_mono; [exact L|apply IO; cbn [length] in *; lia]|]. cif E4; [eapply fine_mono; [exact L|apply IA; cbn [length] in *; lia]|].
    cbn [skip_scalar]. destruct (ends_scalar c); [done|]. pose proof (skip_scalar_length l'). cbn in *. lia.
  - intros _. cif E1; [done|]. eapply fine_then; [apply fine_expect|]. intros _ l1 H1. apply fine_empty; [lia|]. intros l2 H2. eapply fine_mono; [|apply IM]; lia.
  - eapply fine_then; [apply fine_skip_string|]. intros _ l1 H1. eapply fine_then; [apply fine_expect|]. intros _ l2 H2. eapply fine_then; [apply IV; lia|]. intros _ l3 H3.
    apply fine_close; [lia|]. intros l4 H4. eapply fine_mono; [|apply IM]; lia.
  - intros _. cif E1; [done|]. eapply fine_then; [apply fine_expect|]. intros _ l1 H1. apply fine_empty; [lia|]. intros l2 H2. eapply fine_mono; [|apply IE]; lia.
  - eapply fine_then; [apply IV; lia|]. intros _ l3 H3. apply fine_close; [lia|]. intros l4 H4. eapply fine_mono; [|apply IE]; lia.
Qed.

Lemma fine_skip_value depth l : fine (length l) (skip_json_value (steps l) depth l).
Proof. apply fine_skip. unfold steps. lia. Qed.

Lemma fine_fields {S} (field : S -> cstr -> list Z -> parsed S) (Hf : forall f key l, fine (length l) (field f key l)) fuel :
  forall f l, (length l < fuel)%nat -> fine (length l) (fields_loop field fuel f l).
Proof.
  induction fuel as [|fuel IH]; intros f l Hl; [lia|]. cbn [fields_loop]. eapply fine_then; [apply fine_parse_string|]. intros key l1 H1.
  eapply fine_then; [apply fine_expect|]. intros _ l2 H2. eapply fine_then; [apply Hf|]. intros f' l3 H3. apply fine_close; [lia|]. intros l4 H4. eapply fine_mono; [|apply IH]; lia.
Qed.

Lemma fine_object {S} (field : S -> cstr -> list Z -> parsed S) f l :
  (forall f key l, fine (length l) (field f key l)) -> fine (length l) (parse_object field f l).
Proof.
  intros Hf. eapply fine_then; [apply fine_expect|]. intros _ l1 H1. apply fine_empty; [lia|]. intros l2 H2. eapply fine_mono; [|apply (fine_fields field Hf)]; lia.
Qed.

Lemma fine_last {A B} n (p : parsed A) (g : A -> B) : fine n p -> fine n (and_then p (fun x l => Parsed (g x) l)).
Proof. by destruct p. Qed.

Lemma fine_bounded maximum l : fine (length l) (parse_bounded maximum l).
Proof. eapply fine_then; [apply fine_uint32|]. intros n l' Hl. by destruct (_ >? _). Qed.

Create HintDb json.
#[local] Hint Resolve fine_parse_string fine_uint32 fine_bounded fine_skip_value : json.
Ltac fine_field := repeat (destruct (text_equal _ _); [apply fine_last; eauto with json|]); apply fine_last; eauto with json.

Lemma fine_category l : fine (length l) (parse_category l).
Proof.
  eapply fine_then; [apply fine_object; intros f key l'; unfold category_field; fine_field|]. intros f l1 H1.
  destruct f as [[] [] [] [] [] [] []]; try done. by destruct (text_equal _ _).
Qed.
Lemma fine_product l : fine (length l) (parse_product l).
Proof.
  eapply fine_then; [apply fine_object; intros f key l'; unfold product_field; fine_field|]. intros f l1 H1. by destruct f as [[] [] [] []].
Qed.

Lemma fine_entries {A} (entry : list Z -> parsed A) capacity (He : forall l, fine (length l) (entry l)) fuel :
  forall table l, (length l < fuel)%nat -> fine (length l) (entries_loop entry capacity fuel table l).
Proof.
  induction fuel as [|fuel IH]; intros table l Hl; [lia|]. cbn [entries_loop]. cif E; [done|]. eapply fine_then; [apply He|]. intros x l1 H1.
  apply fine_close; [lia|]. intros l2 H2. eapply fine_mono; [|apply IH]; lia.
Qed.
Lemma fine_array {A} (entry : list Z -> parsed A) capacity table l : (forall l, fine (length l) (entry l)) -> fine (length l) (parse_array entry capacity table l).
Proof.
  intros He. eapply fine_then; [apply fine_expect|]. intros _ l1 H1. apply fine_empty; [lia|]. intros l2 H2. eapply fine_mono; [|apply (fine_entries entry capacity He)]; lia.
Qed.
Lemma fine_categories table l : fine (length l) (parse_categories table l).
Proof. apply fine_array, fine_category. Qed.
Lemma fine_products table l : fine (length l) (parse_products table l).
Proof. apply fine_array, fine_product. Qed.
#[local] Hint Resolve fine_categories fine_products : json.

(** ** What is accepted *)

(** The value has property [Q] if there is one. *)
Definition yields {A} (Q : A -> Prop) (p : parsed A) : Prop := match p with Parsed x _ => Q x | _ => True end.

Lemma yields_then {A B} (Q : A -> Prop) (R : B -> Prop) (p : parsed A) (f : A -> list Z -> parsed B) :
  yields Q p -> (forall x l, Q x -> yields R (f x l)) -> yields R (and_then p f).
Proof. destruct p; cbn; auto. Qed.
Lemma yields_any {A} (p : parsed A) : yields (fun _ => True) p.
Proof. by destruct p. Qed.
Lemma yields_close {A} (Q : A -> Prop) close x l next : Q x -> (forall l', yields Q (next l')) -> yields Q (close_or_comma close x l next).
Proof. intros Hx Hn. unfold close_or_comma. destruct (take_char l close) as [[] r]; [exact Hx|]. eapply yields_then; [apply yields_any|]. intros _ l' _. apply Hn. Qed.
Lemma yields_empty {A} (Q : A -> Prop) close x l rounds : Q x -> (forall l', yields Q (rounds l')) -> yields Q (empty_or close x l rounds).
Proof. intros Hx Hn. unfold empty_or. by destruct (take_char _ close) as [[] r]. Qed.

Lemma yields_object {S} (Q : S -> Prop) (field : S -> cstr -> list Z -> parsed S) f l :
  Q f -> (forall f key l, Q f -> yields Q (field f key l)) -> yields Q (parse_object field f l).
Proof.
  intros Hf Hs. eapply yields_then; [apply yields_any|]. intros _ l1 _. apply yields_empty; [done|]. generalize (Datatypes.S (length l1)). intros n l2. revert f l2 Hf.
  induction n as [|n IH]; intros f l2 Hf; cbn [fields_loop]; [done|]. eapply yields_then; [apply yields_any|]. intros key l3 _. eapply yields_then; [apply yields_any|]. intros _ l4 _.
  eapply yields_then; [by apply Hs|]. intros f' l5 Hf'. apply yields_close; [done|]. intros l6. by apply IH.
Qed.

Lemma yields_array {A} (Q : A -> Prop) (entry : list Z -> parsed A) capacity table l :
  (forall l, yields Q (entry l)) -> Forall Q table /\ Z.of_nat (length table) <= capacity ->
  yields (fun t => Forall Q t /\ Z.of_nat (length t) <= capacity) (parse_array entry capacity table l).
Proof.
  intros He Ht. eapply yields_then; [apply yields_any|]. intros _ l1 _. apply yields_empty; [done|]. generalize (S (length l1)). intros n l2. revert table l2 Ht.
  induction n as [|n IH]; intros table l2 Ht; cbn [entries_loop]; [done|]. cif E; [done|]. eapply yields_then; [apply He|]. intros x l3 Hx.
  assert (H' : Forall Q (table ++ [x]) /\ Z.of_nat (length (table ++ [x])) <= capacity).
  { destruct Ht. split; [apply Forall_app; by repeat constructor|]. rewrite length_app. cbn. lia. }
  apply yields_close; [done|]. intros l4. by apply IH.
Qed.

(** A string that fits an array of [capacity] bytes: not empty and without
    control characters. *)
Definition label (capacity : Z) (s : cstr) : Prop := s <> [] /\ Z.of_nat (length s) < capacity /\ Forall (fun c => 0x20 <= c) s.

Lemma string_loop_label capacity n : forall used l, (length l <= n)%nat ->
  (used <> [] -> Z.of_nat (length used) < capacity) -> Forall (fun c => 0x20 <= c) used -> yields (label capacity) (string_loop capacity used l).
Proof.
  induction n as [n IH] using lt_wf_ind. intros used l Hl Hc Hu. destruct l as [|c l1]; [done|]. cbn [string_loop length] in *.
  assert (R : forall x l', (length l' < n)%nat -> refused capacity used x = false -> yields (label capacity) (string_loop capacity (x :: used) l')).
  { intros x l' H' Hx. unfold refused in Hx. apply (IH (length l') H'); [done|intros _; cbn [length]; lia|]. constructor; [lia|done]. }
  cif E1; [destruct used as [|u used]; [done|]; cbn [yields]; split; [intros Hr; apply (f_equal length) in Hr; by rewrite length_rev in Hr|]; rewrite length_rev; split; [by apply Hc|by apply Forall_rev]|].
  cif E2.
  - destruct l1 as [|e l2]; [done|]. cif E3.
    + destruct l2 as [|a1 [|a2 [|a3 [|a4 l3]]]]; try done. destruct (hex4 a1 a2 a3 a4); [|done]. destruct (_ || _) eqn:Er; [done|]. apply orb_false_iff in Er as [_ Er]. apply R; cbn [length] in *; lia || done.
    + destruct (escaped e) as [x|]; [|done]. destruct (refused _ _ _) eqn:Er; [done|]. apply R; cbn [length] in *; lia || done.
  - destruct (refused _ _ _) eqn:Er; [done|]. apply R; lia || done.
Qed.

Lemma parse_string_label capacity l : yields (label capacity) (parse_json_string capacity l).
Proof.
  unfold parse_json_string. destruct (take_char l QUOTE) as [ok r]. destruct (_ || _); [done|]. apply (string_loop_label capacity (length r)); [done| |constructor]. done.
Qed.

Definition category_ok (c : ddc_category) : Prop :=
  0 <= ca_class_code c <= 255 /\ 0 <= ca_subclass c <= 255 /\ 0 <= ca_protocol c <= 255 /\ label NPK_DEVICE_TYPE_NAME_CAPACITY (ca_type c) /\
  label NPK_DEVICE_DISPLAY_NAME_CAPACITY (ca_generic_name c) /\ label NPK_DEVICE_DRIVER_NAME_CAPACITY (ca_driver_name c).
Definition product_ok (p : ddc_product) : Prop :=
  0 <= pd_vendor_id p <= 0xffff /\ 0 <= pd_product_id p <= 0xffff /\ label NPK_DEVICE_TYPE_NAME_CAPACITY (pd_type p) /\
  label NPK_DEVICE_DISPLAY_NAME_CAPACITY (pd_model_name p).

(** A catalogue the kernel works with. *)
Record catalogue (categories : list ddc_category) (products : list ddc_product) : Prop := {
  ct_count : 0 < Z.of_nat (length categories) <= DDC_MAX_CATEGORIES /\ Z.of_nat (length products) <= DDC_MAX_PRODUCTS;
  ct_category : Forall category_ok categories;
  ct_product : Forall product_ok products;
  ct_types : forall p, p ∈ products -> exists c, c ∈ categories /\ ca_type c = pd_type p;
  ct_interfaces : forall i j a b, categories !! i = Some a -> categories !! j = Some b ->
    ca_class_code a = ca_class_code b -> ca_subclass a = ca_subclass b -> ca_protocol a = ca_protocol b -> i = j;
  ct_models : forall i j a b, products !! i = Some a -> products !! j = Some b ->
    pd_vendor_id a = pd_vendor_id b -> pd_product_id a = pd_product_id b -> pd_type a = pd_type b -> i = j }.

Lemma digits_loop_nonneg value l v r : 0 <= value -> digits_loop value l = Some (v, r) -> 0 <= v <= Z.max value UINT32_MAX.
Proof.
  revert value; induction l as [|c l IH]; intros value Hv; cbn; [intros [= <- _]; lia|]. unfold is_digit. destruct (_ && _) eqn:E; [|intros [= <- _]; lia].
  cif E1; [done|]. intros E2. apply IH in E2; [|lia]. assert (value * 10 + (c - 48) <= UINT32_MAX) by (unfold UINT32_MAX in *; mlia). lia.
Qed.

Lemma yields_uint32 l : yields (fun n => 0 <= n <= UINT32_MAX) (parse_uint32 l).
Proof.
  unfold parse_uint32. destruct (skip_space l) as [|c l']; [done|]. destruct (digits_loop 0 (c :: l')) as [[v r]|] eqn:E; [|done]. apply digits_loop_nonneg in E; [|lia].
  cbv zeta. cif E1; [done|]. cif E2; [done|]. unfold UINT32_MAX in *. cbn. lia.
Qed.
Lemma yields_bounded maximum l : yields (fun n => 0 <= n <= maximum) (parse_bounded maximum l).
Proof. eapply yields_then; [apply yields_uint32|]. intros n r Hn. cbv beta in *. cif E; [done|]. cbn. lia. Qed.

(** A field that was seen has property [Q]. *)
Definition seen_ok {A} (Q : A -> Prop) (o : option A) : Prop := forall x, o = Some x -> Q x.
Lemma seen_none {A} (Q : A -> Prop) : seen_ok Q None.
Proof. done. Qed.
Lemma seen_some {A} (Q : A -> Prop) x : Q x -> seen_ok Q (Some x).
Proof. by intros H y [= <-]. Qed.

Definition fields_ok (f : category_fields) : Prop :=
  seen_ok (fun n => 0 <= n <= 255) (cf_class f) /\ seen_ok (fun n => 0 <= n <= 255) (cf_subclass f) /\ seen_ok (fun n => 0 <= n <= 255) (cf_protocol f) /\
  seen_ok (label NPK_DEVICE_TYPE_NAME_CAPACITY) (cf_type f) /\ seen_ok (label NPK_DEVICE_DISPLAY_NAME_CAPACITY) (cf_name f) /\
  seen_ok (label NPK_DEVICE_DRIVER_NAME_CAPACITY) (cf_driver f).

Lemma category_yields l : yields category_ok (parse_category l).
Proof.
  eapply (yields_then fields_ok); [apply yields_object; [by repeat split|]; intros f key l' (F1 & F2 & F3 & F4 & F5 & F6); unfold category_field|].
  - repeat (destruct (text_equal _ _);
      [eapply yields_then; [first [apply parse_string_label | apply yields_bounded]|]; intros x r Hx; cbn; unfold fields_ok; cbn; split_and!; try assumption; by apply seen_some|]).
    eapply yields_then; [apply yields_any|]. intros [] r _. cbn. by split_and!.
  - intros f r (F1 & F2 & F3 & F4 & F5 & F6). destruct f as [[] [] [] [] [] [] []]; try done. destruct (text_equal _ _); [|done]. cbn in *. exact (conj (F1 _ eq_refl) (conj (F2 _ eq_refl) (conj (F3 _ eq_refl) (conj (F4 _ eq_refl) (conj (F5 _ eq_refl) (F6 _ eq_refl)))))).
Qed.

Definition product_fields_ok (f : product_fields) : Prop :=
  seen_ok (fun n => 0 <= n <= 0xffff) (pf_vid f) /\ seen_ok (fun n => 0 <= n <= 0xffff) (pf_pid f) /\
  seen_ok (label NPK_DEVICE_TYPE_NAME_CAPACITY) (pf_type f) /\ seen_ok (label NPK_DEVICE_DISPLAY_NAME_CAPACITY) (pf_name f).

Lemma product_yields l : yields product_ok (parse_product l).
Proof.
  eapply (yields_then product_fields_ok); [apply yields_object; [by repeat split|]; intros f key l' (F1 & F2 & F3 & F4); unfold product_field|].
  - repeat (destruct (text_equal _ _);
      [eapply yields_then; [first [apply parse_string_label | apply yields_bounded]|]; intros x r Hx; cbn; unfold product_fields_ok; cbn; split_and!; try assumption; by apply seen_some|]).
    eapply yields_then; [apply yields_any|]. intros [] r _. cbn. by split_and!.
  - intros f r (F1 & F2 & F3 & F4). destruct f as [[] [] [] []]; try done. cbn in *. exact (conj (F1 _ eq_refl) (conj (F2 _ eq_refl) (conj (F3 _ eq_refl) (F4 _ eq_refl)))).
Qed.

Lemma no_pair_spec {A} (same : A -> A -> bool) (Hsym : forall a b, same a b = same b a) table :
  no_pair same table = true -> forall i j a b, table !! i = Some a -> table !! j = Some b -> same a b = true -> i = j.
Proof.
  induction table as [|x table IH]; cbn [no_pair]; [done|]. intros [Hx Ht]%andb_prop i j a b. apply negb_true_iff in Hx.
  assert (F : forall k y, table !! k = Some y -> same x y = true -> False).
  { intros k y Hk Hs. apply not_true_iff_false in Hx. apply Hx, existsb_exists. exists y. split; [by apply list_elem_of_In, list_elem_of_lookup_2 with k|done]. }
  destruct i as [|i], j as [|j]; cbn; [done| | |].
  - intros [= <-] Hb Hs. by destruct (F j b Hb Hs).
  - intros Ha [= <-] Hs. rewrite Hsym in Hs. by destruct (F i a Ha Hs).
  - intros Ha Hb Hs. f_equal. by apply (IH Ht i j a b).
Qed.

Lemma text_label capacity s : label capacity s -> text s = s /\ strlen s = Z.of_nat (length s).
Proof.
  intros (_ & _ & Hs). induction s as [|c s IH]; [done|]. inversion Hs as [|? ? Hc Hs']; subst. destruct (IH Hs') as [E1 E2]. cbn [text strlen]. replace (c =? 0) with false by lia. rewrite E1, E2. cbn [length]. split; [done|lia].
Qed.

Lemma text_equal_label c1 c2 s1 s2 : label c1 s1 -> label c2 s2 -> text_equal s1 s2 = true <-> s1 = s2.
Proof. intros [E1 _]%text_label [E2 _]%text_label. unfold text_equal. by rewrite E1, E2, bool_decide_eq_true. Qed.

Definition document_ok (d : document) : Prop :=
  (Forall category_ok (do_categories d) /\ Z.of_nat (length (do_categories d)) <= DDC_MAX_CATEGORIES) /\
  (Forall product_ok (do_products d) /\ Z.of_nat (length (do_products d)) <= DDC_MAX_PRODUCTS).

Lemma document_yields data : yields document_ok (parse_object document_field (Document None false [] []) data).
Proof.
  apply yields_object; [by repeat split|]. intros d key l [C P]. unfold document_field. destruct (text_equal _ _); [eapply yields_then; [apply yields_any|]; by intros n r _|].
  destruct (text_equal _ _).
  { eapply yields_then; [apply (yields_array category_ok); [apply category_yields|exact C]|]. intros t r Ht. exact (conj Ht P). }
  destruct (text_equal _ _).
  { eapply yields_then; [apply (yields_array product_ok); [apply product_yields|exact P]|]. intros t r Ht. exact (conj C Ht). }
  eapply yields_then; [apply yields_any|]. by intros [] r _.
Qed.

Lemma same_interface_sym a b : same_interface a b = same_interface b a.
Proof. unfold same_interface. by rewrite (Z.eqb_sym (ca_class_code a)), (Z.eqb_sym (ca_subclass a)), (Z.eqb_sym (ca_protocol a)). Qed.
Lemma text_equal_sym a b : text_equal a b = text_equal b a.
Proof. apply bool_decide_ext. done. Qed.
Lemma same_product_sym a b : same_product a b = same_product b a.
Proof. unfold same_product. by rewrite (Z.eqb_sym (pd_vendor_id a)), (Z.eqb_sym (pd_product_id a)), (text_equal_sym (pd_type a)). Qed.

Lemma tables_catalogue categories products :
  Forall category_ok categories -> Forall product_ok products -> 0 < Z.of_nat (length categories) <= DDC_MAX_CATEGORIES ->
  Z.of_nat (length products) <= DDC_MAX_PRODUCTS -> tables_valid categories products = true <-> catalogue categories products.
Proof.
  intros C P NC NP. unfold tables_valid. rewrite !andb_true_iff. split.
  - intros [[Hc Ht] Hp]. rewrite forallb_forall in Ht. constructor; try done.
    + intros p Hin. specialize (Ht p (proj1 (list_elem_of_In _ _) Hin)). apply existsb_exists in Ht as (c & Hc' & He). apply list_elem_of_In in Hc'. exists c. split; [done|].
      rewrite Forall_forall in C. rewrite Forall_forall in P. destruct (C c Hc') as (_ & _ & _ & L1 & _), (P p Hin) as (_ & _ & L2 & _). by apply (text_equal_label _ _ _ _ L1 L2).
    + intros i j a b Ha Hb E1 E2 E3. apply (no_pair_spec _ same_interface_sym _ Hc i j a b Ha Hb). unfold same_interface. lia.
    + intros i j a b Ha Hb E1 E2 E3. apply (no_pair_spec _ same_product_sym _ Hp i j a b Ha Hb). unfold same_product, text_equal. rewrite E1, E2, E3, !Z.eqb_refl. by rewrite bool_decide_true.
  - intros [_ _ _ Ht Hi Hm]. split; [split|].
    + clear -Hi. induction categories as [|x t IH]; [done|]. cbn [no_pair]. rewrite andb_true_iff, negb_true_iff. split.
      * apply not_true_iff_false. rewrite existsb_exists. intros (y & Hy%list_elem_of_In & Hs). apply list_elem_of_lookup_1 in Hy as [k Hk]. unfold same_interface in Hs.
        specialize (Hi O (S k) x y eq_refl Hk ltac:(lia) ltac:(lia) ltac:(lia)). done.
      * apply IH. intros i j a b Ha Hb E1 E2 E3. by injection (Hi (S i) (S j) a b Ha Hb E1 E2 E3).
    + rewrite forallb_forall. intros p Hp%list_elem_of_In. destruct (Ht p Hp) as (c & Hc & E). apply existsb_exists. exists c. split; [by apply list_elem_of_In|].
      unfold text_equal. by rewrite E, bool_decide_true.
    + clear -Hm P. induction products as [|x t IH]; [done|]. cbn [no_pair]. rewrite andb_true_iff, negb_true_iff. apply Forall_cons in P as [Px P]. split.
      * apply not_true_iff_false. rewrite existsb_exists. intros (y & Hy%list_elem_of_In & Hs). assert (Py : product_ok y) by (rewrite Forall_forall in P; by apply P).
        apply list_elem_of_lookup_1 in Hy as [k Hk]. unfold same_product in Hs. apply andb_prop in Hs as [Hs Hx]. apply (text_equal_label _ _ _ _ (proj1 (proj2 (proj2 Px))) (proj1 (proj2 (proj2 Py)))) in Hx.
        specialize (Hm O (S k) x y eq_refl Hk ltac:(lia) ltac:(lia) Hx). done.
      * apply IH; [done|]. intros i j a b Ha Hb E1 E2 E3. by injection (Hm (S i) (S j) a b Ha Hb E1 E2 E3).
Qed.

Lemma parse_document_catalogue data categories products : parse_document data = Some (categories, products) -> catalogue categories products.
Proof.
  unfold parse_document. pose proof (document_yields data) as Y. destruct (parse_object _ _ _) as [d l| |]; try done. destruct Y as [[C NC] [P NP]].
  destruct (negb _); [done|]. destruct (do_version d) as [[|[]|]|]; try done. destruct (_ && tables_valid _ _) eqn:E; [|done]. intros [= <- <-].
  apply andb_prop in E as [[_ Hn]%andb_prop Ht]. apply tables_catalogue in Ht; [done|done|done|lia|done].
Qed.

(** Parsing any text comes to an end. *)
Lemma parse_document_total data : parse_object document_field (Document None false [] []) data <> NoFuel.
Proof.
  assert (F : fine (length data) (parse_object document_field (Document None false [] []) data)) by (apply fine_object; intros d key l; unfold document_field; fine_field).
  intros E. by rewrite E in F.
Qed.

(** ** Loading *)

Definition config_inv (c : device_config) : Prop :=
  if dc_loaded c then catalogue (dc_categories c) (dc_products c) else c = device_config_reset.

Section Loading.
Context {K : Type} `{VfsEnvLaws K}.
Implicit Type s : vfs K.

End Loading.

(** ** Lookup *)

Definition describes (i : npk_device_identity) (c : ddc_category) : Prop :=
  id_class_code i = ca_class_code c /\ id_subclass i = ca_subclass c /\ id_protocol i = ca_protocol c.
Definition names (i : npk_device_identity) (c : ddc_category) (p : ddc_product) : Prop :=
  pd_vendor_id p = id_vendor_id i /\ pd_product_id p = id_product_id i /\ pd_type p = ca_type c.

Lemma text_copy_label capacity s : label capacity s -> text_copy capacity s = Some s.
Proof.
  intros L. destruct (text_label _ _ L) as [E1 E2]. destruct L as (Hn & Hl & _). unfold text_copy. cbv zeta. rewrite E1, E2.
  replace (_ || _) with false; [done|]. destruct s; [done|]. cbn [length] in *. lia.
Qed.

Lemma find_none {A} (f : A -> bool) l x : List.find f l = None -> x ∈ l -> f x = false.
Proof. intros Hf Hx. by apply (find_none _ _ Hf), list_elem_of_In. Qed.

(** The lookup of an interface of a USB device finds the one category of its
    class, subclass and protocol, with the name of the product when the
    catalogue lists it and the generic name otherwise; it fails only when there
    is no such category. *)
Theorem device_config_resolve_spec cfg i :
  config_inv cfg -> dc_loaded cfg = true -> id_bus i = NPK_DEVICE_BUS_USB -> id_interface_number i <> 0xff ->
  match device_config_resolve cfg i with
  | Some m =>
      exists c, c ∈ dc_categories cfg /\ describes i c /\ (forall c', c' ∈ dc_categories cfg -> describes i c' -> c' = c) /\
        cm_type m = ca_type c /\ cm_driver_name m = ca_driver_name c /\
        ((exists p, p ∈ dc_products cfg /\ names i c p /\ cm_display_name m = pd_model_name p) \/
         (forall p, p ∈ dc_products cfg -> ~ names i c p) /\ cm_display_name m = ca_generic_name c)
  | None => forall c, c ∈ dc_categories cfg -> ~ describes i c
  end.
Proof.
  intros Ic El Hb Hi. unfold config_inv in Ic. rewrite El in Ic. destruct Ic as [_ C P _ U _]. unfold device_config_resolve. rewrite El, bool_decide_true by done.
  cbn [negb orb]. rewrite (proj2 (Z.eqb_neq _ _) Hi). destruct (List.find (matches_interface i) _) as [c|] eqn:Ec.
  2:{ intros c Hc (D1 & D2 & D3). apply (find_none _ _ c Ec) in Hc. unfold matches_interface in Hc. lia. }
  apply find_some in Ec as [Hc Hm]. apply list_elem_of_In in Hc. pose proof (proj1 (Forall_forall _ _) C c Hc) as (_ & _ & _ & L1 & L2 & L3).
  assert (Hd : describes i c) by (unfold matches_interface in Hm; unfold describes; lia).
  assert (Hu : forall c', c' ∈ dc_categories cfg -> describes i c' -> c' = c).
  { intros c' Hc' (D1 & D2 & D3). destruct Hd as (D4 & D5 & D6). apply list_elem_of_lookup_1 in Hc as [a Ha]. apply list_elem_of_lookup_1 in Hc' as [b Hb'].
    pose proof (U b a c' c Hb' Ha ltac:(lia) ltac:(lia) ltac:(lia)). congruence. }
  rewrite !text_copy_label by done. cbn [mbind option_bind]. destruct (List.find (is_product i c) _) as [p|] eqn:Ep.
  - apply find_some in Ep as [Hp Hn]. apply list_elem_of_In in Hp. pose proof (proj1 (Forall_forall _ _) P p Hp) as (_ & _ & L4 & L5). rewrite text_copy_label by done. cbn [mbind option_bind].
    exists c. split_and!; try done. left. exists p. split; [done|]. split; [|done]. unfold is_product in Hn. apply andb_prop in Hn as [Hn Ht].
    apply (text_equal_label _ _ _ _ L4 L1) in Ht. unfold names. split; [lia|]. split; [lia|done].
  - exists c. split_and!; try done. right. split; [|done]. intros p Hp (N1 & N2 & N3). apply (find_none _ _ p Ep) in Hp. unfold is_product in Hp.
    rewrite N1, N2, N3, !Z.eqb_refl in Hp. unfold text_equal in Hp. by rewrite bool_decide_true in Hp.
Qed.

(** ** Printing and parsing *)

Definition print_char (c : Z) : list Z := if (c =? QUOTE) || (c =? BACKSLASH) then [BACKSLASH; c] else [c].
Definition print_string (s : cstr) : list Z := QUOTE :: mjoin (print_char <$> s) ++ [QUOTE].

Fixpoint decimal_loop (fuel : nat) (n : Z) (tail : list Z) : list Z :=
  match fuel with
  | O => tail
  | S fuel' => if n <? 10 then (48 + n) :: tail else decimal_loop fuel' (n / 10) ((48 + n mod 10) :: tail)
  end.
Definition decimal (n : Z) : list Z := decimal_loop 10 n [].

(** Separated by commas. *)
Definition commas {A} (print : A -> list Z) (l : list A) : list Z :=
  match l with [] => [] | x :: l' => print x ++ mjoin ((fun y => 44 :: print y) <$> l') end.
Definition print_field (f : cstr * list Z) : list Z := print_string f.1 ++ 58 :: f.2.
Definition print_fields (fs : list (cstr * list Z)) : list Z := 123 :: commas print_field fs ++ [125].
Definition print_array {A} (print : A -> list Z) (l : list A) : list Z := 91 :: commas print l ++ [93].

Definition print_category (c : ddc_category) : list Z :=
  print_fields [(str "bus"%string, print_string (str "usb"%string)); (str "class"%string, decimal (ca_class_code c)); (str "subclass"%string, decimal (ca_subclass c));
    (str "protocol"%string, decimal (ca_protocol c)); (str "type"%string, print_string (ca_type c)); (str "generic_name"%string, print_string (ca_generic_name c));
    (str "driver"%string, print_string (ca_driver_name c))].
Definition print_product (p : ddc_product) : list Z :=
  print_fields [(str "vid"%string, decimal (pd_vendor_id p)); (str "pid"%string, decimal (pd_product_id p)); (str "type"%string, print_string (pd_type p));
    (str "name"%string, print_string (pd_model_name p))].
Definition print_document (categories : list ddc_category) (products : list ddc_product) : list Z :=
  print_fields [(str "version"%string, decimal 1); (str "categories"%string, print_array print_category categories); (str "products"%string, print_array print_product products)].

Lemma take_char_here c l : is_space c = false -> take_char (c :: l) c = (true, l).
Proof. intros Hc. unfold take_char. cbn [skip_space]. by rewrite Hc, Z.eqb_refl. Qed.
Lemma take_char_other c d l : is_space c = false -> c <> d -> take_char (c :: l) d = (false, c :: l).
Proof. intros Hc Hd. unfold take_char. cbn [skip_space]. rewrite Hc. by rewrite (proj2 (Z.eqb_neq _ _) Hd). Qed.

Lemma string_loop_print capacity s rest : forall used,
  Forall (fun c => 0x20 <= c) s -> Z.of_nat (length used + length s) < capacity -> (used <> [] \/ s <> []) ->
  string_loop capacity used (mjoin (print_char <$> s) ++ QUOTE :: rest) = Parsed (rev used ++ s) rest.
Proof.
  induction s as [|c s IH]; intros used Hs Hl Hn.
  - cbn [fmap list_fmap mjoin list_join app string_loop]. rewrite Z.eqb_refl. destruct used; [by destruct Hn|]. by rewrite app_nil_r.
  - apply Forall_cons in Hs as [Hc Hs]. rewrite fmap_cons. cbn [mjoin list_join]. rewrite <-app_assoc.
    assert (R : refused capacity used c = false) by (unfold refused; cbn [length] in Hl; lia).
    assert (N : string_loop capacity (c :: used) (mjoin (print_char <$> s) ++ QUOTE :: rest) = Parsed (rev used ++ c :: s) rest).
    { rewrite IH; [cbn [rev]; by rewrite <-app_assoc|done|cbn [length] in *; lia|by left]. }
    unfold print_char at 1. destruct (_ || _) eqn:E.
    + cbn [app string_loop]. change (BACKSLASH =? QUOTE) with false. rewrite Z.eqb_refl. unfold QUOTE, BACKSLASH, LOWER_U in *. replace (c =? 117) with false by lia.
      assert (Ee : escaped c = Some c) by (unfold escaped, QUOTE, BACKSLASH; destruct (c =? 34) eqn:E1; [f_equal; lia|]; destruct (c =? 92) eqn:E2; [f_equal; lia|lia]).
      rewrite Ee, R. exact N.
    + cbn [app string_loop]. apply orb_false_iff in E as [-> ->]. rewrite R. exact N.
Qed.

Lemma parse_print_string capacity s rest : label capacity s -> parse_json_string capacity (print_string s ++ rest) = Parsed s rest.
Proof.
  intros (Hn & Hl & Hs). unfold parse_json_string, print_string. cbn [app]. rewrite take_char_here by done. cbn [negb orb]. replace (capacity =? 0) with false by lia.
  rewrite <-app_assoc. cbn [app]. rewrite string_loop_print; [done|done|cbn; lia|by right].
Qed.

Lemma decimal_loop_digits rest fuel : forall n tail, 0 <= n < 10 ^ Z.of_nat fuel -> n <= UINT32_MAX -> (0 < fuel)%nat ->
  digits_loop 0 (decimal_loop fuel n tail ++ rest) = digits_loop n (tail ++ rest).
Proof.
  induction fuel as [|fuel IH]; intros n tail Hn Hm Hf; [lia|]. cbn [decimal_loop]. cif E.
  - cbn [app digits_loop]. unfold is_digit. replace ((48 <=? 48 + n) && (48 + n <=? 57)) with true by lia. cbv zeta.
    replace (0 >? _) with false by (unfold UINT32_MAX in *; mlia). f_equal. lia.
  - destruct fuel as [|fuel]; [cbn in Hn; lia|]. rewrite IH; [| |unfold UINT32_MAX in *; mlia|lia].
    2:{ rewrite Nat2Z.inj_succ, Z.pow_succ_r in Hn by lia. split; [mlia|]. apply Z.div_lt_upper_bound; lia. }
    cbn [app digits_loop]. unfold is_digit. replace ((48 <=? 48 + n mod 10) && (48 + n mod 10 <=? 57)) with true by mlia. cbv zeta.
    replace (n / 10 >? _) with false by (unfold UINT32_MAX in *; mlia). f_equal. mlia.
Qed.

Lemma decimal_loop_head fuel : forall n tail, 0 <= n < 10 ^ Z.of_nat fuel -> (0 < fuel)%nat ->
  exists d l, decimal_loop fuel n tail = (48 + d) :: l ++ tail /\ 0 <= d <= 9 /\ (1 <= n -> 1 <= d) /\ (n < 10 -> l = []).
Proof.
  induction fuel as [|fuel IH]; intros n tail Hn Hf; [lia|]. cbn [decimal_loop]. cif E; [exists n, []; split_and!; lia || done|].
  destruct fuel as [|fuel]; [cbn in Hn; lia|]. destruct (IH (n / 10) ((48 + n mod 10) :: tail)) as (d & l & -> & Hd & H1 & _); [|lia|].
  { rewrite Nat2Z.inj_succ, Z.pow_succ_r in Hn by lia. split; [mlia|]. apply Z.div_lt_upper_bound; lia. }
  exists d, (l ++ [48 + n mod 10]). rewrite <-app_assoc. split; [done|]. split; [done|]. split; [intros _; apply H1; mlia|lia].
Qed.

(** What follows a value in an object or an array. *)
Definition stops (l : list Z) : Prop := exists c l', l = c :: l' /\ (c = 44 \/ c = 125 \/ c = 93).

Lemma parse_print_number n rest : 0 <= n <= UINT32_MAX -> stops rest -> parse_uint32 (decimal n ++ rest) = Parsed n rest.
Proof.
  intros Hn (c & r & -> & Hc). assert (Hp : 0 <= n < 10 ^ Z.of_nat 10) by (unfold UINT32_MAX in Hn; change (10 ^ Z.of_nat 10) with 10000000000; lia).
  pose proof (decimal_loop_digits (c :: r) 10 n [] Hp ltac:(lia) ltac:(lia)) as D. destruct (decimal_loop_head 10 n [] Hp ltac:(lia)) as (d & l & E & Hd & H1 & H2).
  unfold decimal, parse_uint32. rewrite E in *. rewrite app_nil_r in *. cbn [app skip_space]. replace (is_space (48 + d)) with false by (unfold is_space; lia).
  cbn [app] in D. rewrite D. cbn [digits_loop]. unfold is_digit. replace ((48 <=? c) && (c <=? 57)) with false by lia. cbv zeta. cbn [length]. rewrite length_app. cbn [length].
  replace (_ =? 0) with false by lia. replace (_ && _) with false; [done|]. symmetry. apply andb_false_iff. destruct (decide (n < 10)) as [Hs|Hs]; [left; rewrite (H2 Hs); cbn [length]; lia|right; lia].
Qed.

Lemma parse_print_bounded maximum n rest : 0 <= n <= maximum -> maximum <= UINT32_MAX -> stops rest -> parse_bounded maximum (decimal n ++ rest) = Parsed n rest.
Proof. intros Hn Hm Hr. unfold parse_bounded. rewrite parse_print_number by (done || lia). cbn [and_then]. by replace (n >? maximum) with false by lia. Qed.

Lemma close_here {A} close (x : A) rest next : is_space close = false -> close_or_comma close x (close :: rest) next = Parsed x rest.
Proof. intros Hs. unfold close_or_comma. by rewrite take_char_here. Qed.
Lemma comma_next {A} close (x : A) rest next : close <> 44 -> close_or_comma close x (44 :: rest) next = next rest.
Proof. intros Hc. unfold close_or_comma. rewrite take_char_other by done. unfold expect. by rewrite take_char_here. Qed.

Lemma commas_cons {A} (print : A -> list Z) x y l rest :
  commas print (x :: y :: l) ++ rest = print x ++ 44 :: commas print (y :: l) ++ rest.
Proof. cbn [commas fmap list_fmap mjoin list_join]. by rewrite <-!app_assoc. Qed.
Lemma commas_one {A} (print : A -> list Z) x rest : commas print [x] ++ rest = print x ++ rest.
Proof. cbn. by rewrite app_nil_r. Qed.

Lemma commas_length {A} (print : A -> list Z) l : (forall x, x ∈ l -> print x <> []) -> (length l <= length (commas print l))%nat.
Proof.
  intros Hp. destruct l as [|x l]; [done|]. assert (H1 : (1 <= length (print x))%nat) by (destruct (print x) eqn:E; [by destruct (Hp x ltac:(by left))|cbn; lia]).
  cbn [commas]. rewrite length_app. assert (H2 : (length l <= length (mjoin ((fun y => 44%Z :: print y) <$> l)))%nat); [|cbn [length]; lia].
  clear. induction l as [|y l IH]; [done|]. rewrite fmap_cons. cbn [mjoin list_join length]. rewrite length_app. cbn [length Nat.add]. apply le_n_S. etrans; [exact IH|]. apply Nat.le_add_l.
Qed.

(** The fields lead from [f] to [f']. *)
Inductive accepts {S} (field : S -> cstr -> list Z -> parsed S) : S -> list (cstr * list Z) -> S -> Prop :=
| accepts_nil f : accepts field f [] f
| accepts_cons f k v f1 fs f' :
    label DDC_TEXT_CAPACITY k -> (forall rest, stops rest -> field f k (v ++ rest) = Parsed f1 rest) ->
    accepts field f1 fs f' -> accepts field f ((k, v) :: fs) f'.

Lemma fields_loop_print {S} (field : S -> cstr -> list Z -> parsed S) rest fs : forall f f' fuel,
  accepts field f fs f' -> fs <> [] -> (length fs <= fuel)%nat -> fields_loop field fuel f (commas print_field fs ++ 125 :: rest) = Parsed f' rest.
Proof.
  induction fs as [|[k v] fs IH]; intros f f' fuel A Hn Hf; [done|]. inversion A as [|? ? ? f1 ? ? Hk Hv A']; subst. destruct fuel as [|fuel]; [cbn in Hf; lia|].
  assert (P : forall tail, stops tail -> fields_loop field (Datatypes.S fuel) f (print_field (k, v) ++ tail) = close_or_comma 125 f1 tail (fields_loop field fuel f1)).
  { intros tail Ht. unfold print_field. cbn [fst snd fields_loop]. rewrite <-app_assoc, parse_print_string by done. cbn [and_then app]. unfold expect at 1.
    rewrite take_char_here by done. cbn [and_then]. by rewrite Hv. }
  destruct fs as [|g fs].
  - rewrite commas_one, P by (eexists _, _; eauto). inversion A'; subst. by apply close_here.
  - rewrite commas_cons, P by (eexists _, _; eauto). rewrite comma_next by done. apply IH; [done|done|cbn in *; lia].
Qed.

Lemma parse_print_object {S} (field : S -> cstr -> list Z -> parsed S) f f' fs rest :
  accepts field f fs f' -> fs <> [] -> parse_object field f (print_fields fs ++ rest) = Parsed f' rest.
Proof.
  intros A Hn. unfold parse_object, print_fields, expect. cbn [app]. rewrite take_char_here by done. cbn [and_then]. rewrite <-app_assoc. cbn [app]. unfold empty_or.
  assert (Hq : exists t, commas print_field fs ++ 125 :: rest = QUOTE :: t) by (destruct fs as [|[k v] fs]; [done|]; by eexists).
  assert (Hl : (length fs <= Datatypes.S (length (commas print_field fs ++ 125%Z :: rest)))%nat).
  { rewrite length_app. pose proof (commas_length print_field fs) as L. cbn in *. assert (forall x, x ∈ fs -> print_field x <> []) by (by intros [? ?]). specialize (L H). lia. }
  revert Hl. pose proof (fields_loop_print field rest fs f f') as L. destruct Hq as [t E]. rewrite E in *. intros Hl. cbn [skip_space]. change (is_space QUOTE) with false. cbv iota.
  rewrite take_char_other by done. by apply L.
Qed.

Lemma entries_loop_print {A} (entry : list Z -> parsed A) (print : A -> list Z) capacity rest l : forall table fuel,
  (forall x tail, x ∈ l -> stops tail -> entry (print x ++ tail) = Parsed x tail) -> l <> [] -> (length l <= fuel)%nat ->
  Z.of_nat (length table + length l) <= capacity -> entries_loop entry capacity fuel table (commas print l ++ 93 :: rest) = Parsed (table ++ l) rest.
Proof.
  induction l as [|x l IH]; intros table fuel He Hn Hf Hc; [done|]. destruct fuel as [|fuel]; [cbn in Hf; lia|]. cbn [length] in Hc.
  assert (P : forall tail, stops tail -> entries_loop entry capacity (S fuel) table (print x ++ tail) = close_or_comma 93 (table ++ [x]) tail (entries_loop entry capacity fuel (table ++ [x]))).
  { intros tail Ht. cbn [entries_loop]. replace (_ >=? _) with false by lia. by rewrite He by (done || left). }
  destruct l as [|y l].
  - rewrite commas_one, P by (eexists _, _; eauto). by apply close_here.
  - rewrite commas_cons, P by (eexists _, _; eauto). rewrite comma_next by done. rewrite IH; [by rewrite <-app_assoc|by intros z tail Hz; apply He; right|done|cbn in *; lia|rewrite length_app; cbn in *; lia].
Qed.

Lemma parse_print_array {A} (entry : list Z -> parsed A) (print : A -> list Z) capacity l rest :
  (forall x tail, x ∈ l -> stops tail -> entry (print x ++ tail) = Parsed x tail) -> (forall x, exists t, print x = 123 :: t) ->
  Z.of_nat (length l) <= capacity -> parse_array entry capacity [] (print_array print l ++ rest) = Parsed l rest.
Proof.
  intros He Hp Hc. unfold parse_array, print_array, expect. cbn [app]. rewrite take_char_here by done. cbn [and_then]. rewrite <-app_assoc. cbn [app]. unfold empty_or.
  destruct (decide (l = [])) as [->|Hn]; [cbn [commas app skip_space]; change (is_space 93) with false; cbv iota; by rewrite take_char_here|].
  assert (Hq : exists t, commas print l ++ 93 :: rest = 123 :: t) by (destruct l as [|x l]; [done|]; destruct (Hp x) as [t E]; cbn [commas]; rewrite E; by eexists).
  assert (Hl : (length l <= S (length (commas print l ++ 93%Z :: rest)))%nat).
  { rewrite length_app. pose proof (commas_length print l) as L. assert (Hne : forall x, x ∈ l -> print x <> []) by (intros x _; destruct (Hp x) as [t ->]; done). specialize (L Hne). lia. }
  revert Hl. pose proof (entries_loop_print entry print capacity rest l []) as L. destruct Hq as [t E]. rewrite E in *. intros Hl. cbn [skip_space]. change (is_space 123) with false. cbv iota.
  rewrite take_char_other by done. by apply L.
Qed.

(** The names of the fields. *)
Lemma label_check capacity s : forallb (fun c => 0x20 <=? c) s && negb (length s =? 0)%nat && (Z.of_nat (length s) <? capacity) = true -> label capacity s.
Proof.
  intros [[Hs Hn]%andb_prop Hl]%andb_prop. split; [by destruct s|]. split; [lia|]. apply List.Forall_forall. intros c Hc. rewrite forallb_forall in Hs. specialize (Hs c Hc). lia.
Qed.

Ltac key := apply label_check; reflexivity.
(** The key of a field selects its branch. *)
Ltac pick_branch := repeat match goal with |- (if ?b then _ else _) = _ => let v := eval vm_compute in b in change b with v; cbv iota end.

Lemma parse_print_category c rest : category_ok c -> parse_category (print_category c ++ rest) = Parsed c rest.
Proof.
  intros (H1 & H2 & H3 & H4 & H5 & H6). unfold parse_category, print_category.
  assert (Hu : label DDC_BUS_CAPACITY (str "usb"%string)) by key.
  rewrite (parse_print_object category_field no_category
    (CategoryFields (Some (str "usb"%string)) (Some (ca_class_code c)) (Some (ca_subclass c)) (Some (ca_protocol c)) (Some (ca_type c)) (Some (ca_generic_name c)) (Some (ca_driver_name c)))).
  - cbn [and_then]. change (text_equal _ _) with true. by destruct c.
  - repeat (eapply accepts_cons; [key|intros r Hr; unfold category_field;
      pick_branch;
      first [rewrite parse_print_string by done | rewrite parse_print_bounded by (done || (unfold UINT32_MAX; lia))]; cbn [and_then]; reflexivity|]).
    apply accepts_nil.
  - done.
Qed.

Lemma parse_print_product p rest : product_ok p -> parse_product (print_product p ++ rest) = Parsed p rest.
Proof.
  intros (H1 & H2 & H3 & H4). unfold parse_product, print_product.
  rewrite (parse_print_object product_field no_product (ProductFields (Some (pd_vendor_id p)) (Some (pd_product_id p)) (Some (pd_type p)) (Some (pd_model_name p)))).
  - cbn [and_then]. by destruct p.
  - repeat (eapply accepts_cons; [key|intros r Hr; unfold product_field;
      pick_branch;
      first [rewrite parse_print_string by done | rewrite parse_print_bounded by (done || (unfold UINT32_MAX; lia))]; cbn [and_then]; reflexivity|]).
    apply accepts_nil.
  - done.
Qed.

Lemma document_categories d cs r : do_categories d = [] -> Forall category_ok cs -> Z.of_nat (length cs) <= DDC_MAX_CATEGORIES ->
  document_field d (str "categories"%string) (print_array print_category cs ++ r) = Parsed (d <| do_categories := cs |> <| do_has_categories := true |>) r.
Proof.
  intros Ed C Hn. unfold document_field. pick_branch. unfold parse_categories. rewrite Ed, parse_print_array; [done| |by eexists|done].
  intros x tail Hx _. apply parse_print_category. exact (proj1 (Forall_forall _ _) C x Hx).
Qed.
Lemma document_products d ps r : do_products d = [] -> Forall product_ok ps -> Z.of_nat (length ps) <= DDC_MAX_PRODUCTS ->
  document_field d (str "products"%string) (print_array print_product ps ++ r) = Parsed (d <| do_products := ps |>) r.
Proof.
  intros Ed P Hn. unfold document_field. pick_branch. unfold parse_products. rewrite Ed, parse_print_array; [done| |by eexists|done].
  intros x tail Hx _. apply parse_print_product. exact (proj1 (Forall_forall _ _) P x Hx).
Qed.

(** C28: Every valid catalogue can be written down: parsing its text gives it back. *)
Theorem catalogue_roundtrip categories products :
  catalogue categories products -> parse_document (print_document categories products) = Some (categories, products).
Proof.
  intros Hcat. destruct Hcat as [[NC NP] C P T I M] eqn:Ed. clear Ed.
  assert (Hd : parse_object document_field (Document None false [] []) (print_document categories products ++ []) = Parsed (Document (Some 1) true categories products) []).
  { unfold print_document. apply parse_print_object; [|done].
    eapply accepts_cons; [key|intros r Hr; unfold document_field; pick_branch; rewrite parse_print_number by (done || (unfold UINT32_MAX; lia)); reflexivity|].
    eapply accepts_cons; [key|intros r _; apply document_categories; [done|done|lia]|]. eapply accepts_cons; [key|intros r _; by apply document_products|].
    apply accepts_nil. }
  rewrite app_nil_r in Hd. unfold parse_document. rewrite Hd. cbn [skip_space length Nat.eqb negb do_version do_has_categories do_categories do_products andb].
  rewrite (proj2 (tables_catalogue categories products C P NC NP) Hcat). destruct categories; [cbn in NC; lia|done].
Qed.

(** ** The catalogue of the system image *)

(** src/user/ddc.json, with apostrophes for its quotation marks. *)
Definition ddc_text : string := "{
  'version': 1,
  'categories': [
    {
      'bus': 'usb',
      'class': 3,
      'subclass': 1,
      'protocol': 1,
      'type': 'keyboard',
      'generic_name': 'Generic Keyboard',
      'driver': 'usb_hid_keyboard'
    },
    {
      'bus': 'usb',
      'class': 3,
      'subclass': 1,
      'protocol': 0,
      'type': 'keyboard',
      'generic_name': 'Generic Keyboard',
      'driver': 'usb_hid_keyboard'
    },
    {
      'bus': 'usb',
      'class': 3,
      'subclass': 1,
      'protocol': 2,
      'type': 'mouse',
      'generic_name': 'Generic USB Mouse',
      'driver': 'usb_hid_mouse'
    }
  ],
  'products': [
    {
      'vid': 1575,
      'pid': 1,
      'type': 'keyboard',
      'name': 'QEMU USB Keyboard'
    }
  ]
}
"%string.
Definition ddc_json : list Z := (fun c => if c =? 39 then QUOTE else c) <$> str ddc_text.

Definition shipped_categories : list ddc_category :=
  [Category 3 1 1 (str "keyboard"%string) (str "Generic Keyboard"%string) (str "usb_hid_keyboard"%string);
   Category 3 1 0 (str "keyboard"%string) (str "Generic Keyboard"%string) (str "usb_hid_keyboard"%string);
   Category 3 1 2 (str "mouse"%string) (str "Generic USB Mouse"%string) (str "usb_hid_mouse"%string)].
Definition shipped_products : list ddc_product := [Product 1575 1 (str "keyboard"%string) (str "QEMU USB Keyboard"%string)].

Lemma shipped_accepted : parse_document ddc_json = Some (shipped_categories, shipped_products).
Proof. vm_compute. reflexivity. Qed.

Lemma shipped_catalogue : catalogue shipped_categories shipped_products.
Proof. exact (parse_document_catalogue _ _ _ shipped_accepted). Qed.

Lemma catalogue_roundtrip_witness : parse_document (print_document shipped_categories shipped_products) = Some (shipped_categories, shipped_products).
Proof. exact (catalogue_roundtrip _ _ shipped_catalogue). Defined.

#[local] Existing Instance heap_example.
#[local] Existing Instance heap_example_laws.

(** A system image that holds it. *)
Definition image_files : vfs (gset Z) := default (Vfs (afill zero_desc) [] machine_example ∅ ∅ ∅ ∅ ∅)
  (vfs_init machine_example [archive [(str "ddc.json"%string, ddc_json, 0x81a4)]] ∅).
Definition loaded_files : Z * device_config * vfs (gset Z) := device_config_load_vfs image_files device_config_reset (Some (str "/ddc.json"%string)).


(** The keyboard of the emulator. *)
Definition qemu_keyboard : npk_device_identity := Identity NPK_DEVICE_BUS_USB 0x100000001 1575 1 3 1 1 0 0.

Lemma device_config_resolve_spec_witness :
  exists m, device_config_resolve (DeviceConfig shipped_categories shipped_products true) qemu_keyboard = Some m /\ cm_display_name m = str "QEMU USB Keyboard"%string.
Proof.
  pose proof (device_config_resolve_spec (DeviceConfig shipped_categories shipped_products true) qemu_keyboard shipped_catalogue eq_refl eq_refl ltac:(done)) as L.
  assert (E : device_config_resolve (DeviceConfig shipped_categories shipped_products true) qemu_keyboard =
    Some (ConfigMatch (str "keyboard"%string) (str "QEMU USB Keyboard"%string) (str "usb_hid_keyboard"%string))) by (vm_compute; reflexivity).
  rewrite E in L. destruct L as (c & _ & _ & _ & L & _). exists (ConfigMatch (ca_type c) (str "QEMU USB Keyboard"%string) (str "usb_hid_keyboard"%string)). rewrite <-L. split; [exact E|reflexivity].
Defined.
