(* ===== verification/DeviceManager.v ===== *)
(** * The device manager

    src/src/device/device_manager.c: the tables of devices and drivers and the
    binding of one to the other.  The probe function of a driver is code of the
    driver and may register further devices, so it is an argument. *)

From Stdlib Require Import ZArith Lia Bool ZifyBool.
From stdpp Require Import base numbers list gmap strings.
From S2P Require Import Prelude Kstring Path Npkfs Procfs Newc Vfs VfsRefs VfsClose VfsOps VfsRun DeviceConfig.

Open Scope Z_scope.
Open Scope npk_scope.

Definition NPK_DEVICE_MANAGER_MAX_DEVICES := 128.
Definition NPK_DEVICE_MANAGER_MAX_DRIVERS := 32.
Definition NPK_DEVICE_DRIVER_MAX_IDS := 32.
Definition NPK_DEVICE_MANAGER_EINVAL := 22.
Definition NPK_DEVICE_MANAGER_ENOSPC := 28.
Definition NPK_DEVICE_MANAGER_EEXIST := 17.
Definition NPK_DEVICE_MATCH_VENDOR := 1.
Definition NPK_DEVICE_MATCH_PRODUCT := 2.
Definition NPK_DEVICE_MATCH_CLASS := 4.
Definition NPK_DEVICE_MATCH_SUBCLASS := 8.
Definition NPK_DEVICE_MATCH_PROTOCOL := 16.
Definition NPK_DEVICE_MATCH_INTERFACE := 32.
Definition NPK_DEVICE_MATCH_ALL := 63.

Inductive npk_device_state := NPK_DEVICE_DISCOVERED | NPK_DEVICE_UNBOUND | NPK_DEVICE_PROBE_FAILED | NPK_DEVICE_BOUND.
#[export] Instance device_state_eq_dec : EqDecision npk_device_state.
Proof. solve_decision. Defined.

Record npk_device_id := DeviceId {
  di_bus : npk_device_bus; di_match_flags : Z; di_vendor_id : Z; di_product_id : Z; di_class_code : Z; di_subclass : Z; di_protocol : Z;
  di_interface_number : Z }.

(** [dr_name] and [dr_ids] are None for a NULL pointer. *)
Record npk_device_driver := Driver { dr_name : option cstr; dr_ids : option (list npk_device_id); dr_has_probe : bool }.

Record npk_device := Device {
  dv_instance_id : Z; dv_identity : npk_device_identity; dv_category : cstr; dv_display_name : cstr; dv_expected_driver : cstr;
  dv_state : npk_device_state; dv_driver : option Z; dv_last_probe_result : Z; dv_attempted_driver_mask : Z }.
#[export] Instance eta_device : Eta npk_device := fun x =>
  Device (dv_instance_id x) (dv_identity x) (dv_category x) (dv_display_name x) (dv_expected_driver x) (dv_state x) (dv_driver x)
    (dv_last_probe_result x) (dv_attempted_driver_mask x).
Definition no_identity : npk_device_identity := Identity NPK_DEVICE_BUS_NONE 0 0 0 0 0 0 0 0.
Definition zero_device : npk_device := Device 0 no_identity [] [] [] NPK_DEVICE_DISCOVERED None 0 0.

(** The static variables; drivers are known by their addresses. *)
Record device_manager := DeviceManager {
  dm_devices : arr npk_device; dm_device_count : Z; dm_drivers : arr Z; dm_driver_count : Z; dm_next_instance_id : Z; dm_initialized : bool;
  dm_config : device_config }.
#[export] Instance eta_device_manager : Eta device_manager := fun x =>
  DeviceManager (dm_devices x) (dm_device_count x) (dm_drivers x) (dm_driver_count x) (dm_next_instance_id x) (dm_initialized x) (dm_config x).
Definition manager0 : device_manager := DeviceManager (afill zero_device) 0 (afill 0) 0 1 false device_config_reset.

Definition valid_bus (bus : npk_device_bus) : bool := bool_decide (bus = NPK_DEVICE_BUS_PCI) || bool_decide (bus = NPK_DEVICE_BUS_USB).

(** The string stored, and whether the whole source was. *)
Definition copy_label (capacity : Z) (source : cstr) : cstr * bool :=
  (take (Z.to_nat (capacity - 1)) (text source), strlen source <? capacity).

Definition names_equal (left right : cstr) : bool := bool_decide (text left = text right).

Definition resolve_usb_config (cfg : device_config) (d : npk_device) : npk_device :=
  if negb (bool_decide (id_bus (dv_identity d) = NPK_DEVICE_BUS_USB)) then d
  else if id_interface_number (dv_identity d) =? 0xff then
    d <| dv_category := (copy_label NPK_DEVICE_TYPE_NAME_CAPACITY (str "usb_device"%string)).1 |>
      <| dv_display_name := (copy_label NPK_DEVICE_DISPLAY_NAME_CAPACITY (str "USB device"%string)).1 |> <| dv_expected_driver := [] |>
  else
    match device_config_resolve cfg (dv_identity d) with
    | Some m =>
        d <| dv_category := (copy_label NPK_DEVICE_TYPE_NAME_CAPACITY (cm_type m)).1 |>
          <| dv_display_name := (copy_label NPK_DEVICE_DISPLAY_NAME_CAPACITY (cm_display_name m)).1 |>
          <| dv_expected_driver := (copy_label NPK_DEVICE_DRIVER_NAME_CAPACITY (cm_driver_name m)).1 |>
    | None =>
        d <| dv_category := (copy_label NPK_DEVICE_TYPE_NAME_CAPACITY (str "unknown"%string)).1 |>
          <| dv_display_name := (copy_label NPK_DEVICE_DISPLAY_NAME_CAPACITY (str "Unknown USB interface"%string)).1 |> <| dv_expected_driver := [] |>
    end.

(** A field that is compared only when its flag is set. *)
Definition differs (flags flag wanted actual : Z) : bool := hasb flags flag && negb (wanted =? actual).

Definition id_matches (id : npk_device_id) (i : npk_device_identity) : bool :=
  if negb (bool_decide (di_bus id = id_bus i)) then false
  else if differs (di_match_flags id) NPK_DEVICE_MATCH_VENDOR (di_vendor_id id) (id_vendor_id i) then false
  else if differs (di_match_flags id) NPK_DEVICE_MATCH_PRODUCT (di_product_id id) (id_product_id i) then false
  else if differs (di_match_flags id) NPK_DEVICE_MATCH_CLASS (di_class_code id) (id_class_code i) then false
  else if differs (di_match_flags id) NPK_DEVICE_MATCH_SUBCLASS (di_subclass id) (id_subclass i) then false
  else if differs (di_match_flags id) NPK_DEVICE_MATCH_PROTOCOL (di_protocol id) (id_protocol i) then false
  else if differs (di_match_flags id) NPK_DEVICE_MATCH_INTERFACE (di_interface_number id) (id_interface_number i) then false
  else true.

Definition driver_matches (driver : npk_device_driver) (i : npk_device_identity) : bool :=
  existsb (fun id => id_matches id i) (default [] (dr_ids driver)).

Definition set_device (m : device_manager) (i : Z) (d : npk_device) : device_manager := m <| dm_devices := (dm_devices m).[i <- d] |>.
Notation dev m i := ((dm_devices m).[i]).

Section Manager.
(** The drivers in memory; [probe driver i] is the call of a driver's probe
    function with device [i], in a world [W]. *)
Context {W : Type} (driver_at : Z -> npk_device_driver) (probe : Z -> Z -> device_manager -> W -> Z * device_manager * W).

(** The driver may take the device: an entry of it matches and the catalogue
    asks for no other driver. *)
Definition eligible (d : npk_device) (driver : Z) : bool :=
  driver_matches (driver_at driver) (dv_identity d) &&
  negb (bool_decide (id_bus (dv_identity d) = NPK_DEVICE_BUS_USB) && negb (chr (dv_expected_driver d) =? 0) &&
        negb (names_equal (default [] (dr_name (driver_at driver))) (dv_expected_driver d))).

(** The loop of [bind_device] over the drivers from number [k] on: whether an
    eligible one was seen, and the last result. *)
Fixpoint bind_loop (fuel : nat) (m : device_manager) (w : W) (i k : Z) (seen : bool) (last_result : Z) : bool * bool * Z * device_manager * W :=
  match fuel with
  | O => (false, seen, last_result, m, w)
  | S fuel' =>
      if k >=? dm_driver_count m then (false, seen, last_result, m, w)
      else
        let driver := (dm_drivers m).[k] in
        if negb (eligible (dev m i) driver) then bind_loop fuel' m w i (k + 1) seen last_result
        else
          let driver_bit := u32 (Z.shiftl 1 k) in
          if hasb (dv_attempted_driver_mask (dev m i)) driver_bit then bind_loop fuel' m w i (k + 1) true last_result
          else
            let m := set_device m i (dev m i <| dv_attempted_driver_mask := Z.lor (dv_attempted_driver_mask (dev m i)) driver_bit |>) in
            let '(result, m, w) := probe driver i m w in
            let m := set_device m i (dev m i <| dv_last_probe_result := result |>) in
            if result =? 0 then
              (true, true, last_result, set_device m i (dev m i <| dv_driver := Some driver |> <| dv_state := NPK_DEVICE_BOUND |>), w)
            else bind_loop fuel' m w i (k + 1) true result
  end.

Definition bind_device (m : device_manager) (w : W) (i : Z) : device_manager * W :=
  let '(bound, seen, last_result, m, w) := bind_loop (Z.to_nat NPK_DEVICE_MANAGER_MAX_DRIVERS) m w i 0 false (dv_last_probe_result (dev m i)) in
  if bound then (m, w)
  else
    let d := dev m i <| dv_driver := None |> in
    (set_device m i (if seen then d <| dv_state := NPK_DEVICE_PROBE_FAILED |> <| dv_last_probe_result := last_result |> else d <| dv_state := NPK_DEVICE_UNBOUND |>), w).

Definition devmgr_init (m : device_manager) : device_manager :=
  m <| dm_device_count := 0 |> <| dm_driver_count := 0 |> <| dm_next_instance_id := 1 |> <| dm_initialized := true |> <| dm_config := device_config_reset |>.

(** A loop over the devices; the number of devices may grow on the way. *)
Fixpoint for_devices (f : device_manager -> W -> Z -> device_manager * W) (fuel : nat) (m : device_manager) (w : W) (i : Z) : device_manager * W :=
  match fuel with
  | O => (m, w)
  | S fuel' => if i >=? dm_device_count m then (m, w) else let '(m, w) := f m w i in for_devices f fuel' m w (i + 1)
  end.
Definition all_devices (f : device_manager -> W -> Z -> device_manager * W) (m : device_manager) (w : W) : device_manager * W :=
  for_devices f (Z.to_nat NPK_DEVICE_MANAGER_MAX_DEVICES) m w 0.

Definition id_valid (id : npk_device_id) : bool :=
  valid_bus (di_bus id) && negb (di_match_flags id =? 0) && negb (hasb (di_match_flags id) (not64 NPK_DEVICE_MATCH_ALL)).
Definition driver_valid (d : npk_device_driver) : bool :=
  match dr_name d, dr_ids d with
  | Some _, Some ids => negb (length ids =? 0)%nat && (Z.of_nat (length ids) <=? NPK_DEVICE_DRIVER_MAX_IDS) && dr_has_probe d && forallb id_valid ids
  | _, _ => false
  end.

(** The driver at an address that is not NULL. *)
Definition devmgr_register_driver (m : device_manager) (w : W) (driver : Z) : Z * device_manager * W :=
  if negb (dm_initialized m) || (driver =? 0) || negb (driver_valid (driver_at driver)) then (- NPK_DEVICE_MANAGER_EINVAL, m, w)
  else if existsb (fun i => (dm_drivers m).[i] =? driver) (seqZ 0 (dm_driver_count m)) then (- NPK_DEVICE_MANAGER_EEXIST, m, w)
  else if dm_driver_count m >=? NPK_DEVICE_MANAGER_MAX_DRIVERS then (- NPK_DEVICE_MANAGER_ENOSPC, m, w)
  else
    let m := m <| dm_drivers := (dm_drivers m).[dm_driver_count m <- driver] |> <| dm_driver_count := dm_driver_count m + 1 |> in
    let '(m, w) := all_devices (fun m w i => if bool_decide (dv_state (dev m i) = NPK_DEVICE_BOUND) then (m, w) else bind_device m w i) m w in
    (0, m, w).

(** The number of the new device in the table, if it was taken. *)
Definition devmgr_register_device (m : device_manager) (w : W) (identity : option npk_device_identity) : option Z * device_manager * W :=
  match identity with
  | None => (None, m, w)
  | Some identity =>
      if negb (dm_initialized m) || negb (valid_bus (id_bus identity)) then (None, m, w)
      else if dm_device_count m >=? NPK_DEVICE_MANAGER_MAX_DEVICES then (None, m, w)
      else
        let i := dm_device_count m in
        let d := zero_device <| dv_instance_id := dm_next_instance_id m |> <| dv_identity := identity |> <| dv_state := NPK_DEVICE_DISCOVERED |> in
        let m := m <| dm_device_count := i + 1 |> <| dm_next_instance_id := u32 (dm_next_instance_id m + 1) |> in
        let m := set_device m i (resolve_usb_config (dm_config m) d) in
        let '(m, w) := bind_device m w i in
        (Some i, m, w)
  end.

Definition devmgr_device_at (m : device_manager) (index : Z) : option npk_device := if index <? dm_device_count m then Some (dev m index) else None.
Definition devmgr_driver_at (m : device_manager) (index : Z) : option Z := if index <? dm_driver_count m then Some (dm_drivers m).[index] else None.
End Manager.

(** The world holds the files. *)
Definition devmgr_load_default_config {K U} `{VfsEnv K} (driver_at : Z -> npk_device_driver)
    (probe : Z -> Z -> device_manager -> vfs K * U -> Z * device_manager * (vfs K * U)) (m : device_manager) (w : vfs K * U) : Z * device_manager * (vfs K * U) :=
  if negb (dm_initialized m) then (- NPK_DEVICE_MANAGER_EINVAL, m, w)
  else
    let '(result, cfg, files) := device_config_load_vfs w.1 (dm_config m) (Some (str "/ddc.json"%string)) in
    let m := m <| dm_config := cfg |> in
    let w := (files, w.2) in
    if negb (result =? 0) then (result, m, w)
    else
      let '(m, w) := all_devices (fun m w i =>
        if negb (bool_decide (id_bus (dv_identity (dev m i)) = NPK_DEVICE_BUS_USB)) || bool_decide (dv_state (dev m i) = NPK_DEVICE_BOUND) then (m, w)
        else bind_device driver_at probe (set_device m i (resolve_usb_config (dm_config m) (dev m i))) w i) m w in
      (0, m, w).

(** ** Devices in order *)

Section Invariant.
Context {W : Type} (driver_at : Z -> npk_device_driver) (probe : Z -> Z -> device_manager -> W -> Z * device_manager * W).
Implicit Types (m : device_manager) (d : npk_device).
Notation fits := (eligible driver_at).

(** Driver number [k] was tried on the device. *)
Definition tried d (k : Z) : bool := Z.testbit (dv_attempted_driver_mask d) k.

(** The parts of the tables devices depend on. *)
Definition registered m (k : Z) : Prop := 0 <= k < dm_driver_count m.

Definition bound_ok m d : Prop :=
  exists k, registered m k /\ dv_driver d = Some (dm_drivers m).[k] /\ fits d (dm_drivers m).[k] = true /\ tried d k = true /\ dv_last_probe_result d = 0.

(** A device whose drivers may not all have been tried. *)
Definition pending_ok m d : Prop :=
  (forall k, tried d k = true -> registered m k) /\
  (dv_state d = NPK_DEVICE_BOUND -> bound_ok m d) /\
  (dv_state d <> NPK_DEVICE_BOUND -> dv_driver d = None /\ ((exists k, tried d k = true) -> dv_last_probe_result d <> 0)).

(** Every registered driver that may take the device was tried, unless it is
    bound. *)
Definition settled m d : Prop :=
  pending_ok m d /\
  match dv_state d with
  | NPK_DEVICE_DISCOVERED => False
  | NPK_DEVICE_BOUND => True
  | NPK_DEVICE_UNBOUND => forall k, registered m k -> fits d (dm_drivers m).[k] = false
  | NPK_DEVICE_PROBE_FAILED =>
      (exists k, registered m k /\ fits d (dm_drivers m).[k] = true) /\ dv_last_probe_result d <> 0 /\
      forall k, registered m k -> fits d (dm_drivers m).[k] = true -> tried d k = true
  end.

(** The tables; [busy] devices are being bound, [open] ones may have untried
    drivers. *)
Record manager_ok (busy open : Z -> Prop) m : Prop := {
  mo_devices : 0 <= dm_device_count m <= NPK_DEVICE_MANAGER_MAX_DEVICES;
  mo_drivers : 0 <= dm_driver_count m <= NPK_DEVICE_MANAGER_MAX_DRIVERS;
  mo_distinct : forall a b, registered m a -> registered m b -> (dm_drivers m).[a] = (dm_drivers m).[b] -> a = b;
  mo_valid : forall a, registered m a -> (dm_drivers m).[a] <> 0 /\ driver_valid (driver_at (dm_drivers m).[a]) = true;
  mo_busy : forall i, busy i -> 0 <= i < dm_device_count m;
  mo_next : dm_next_instance_id m = dm_device_count m + 1;
  mo_instance : forall i, 0 <= i < dm_device_count m -> dv_instance_id (dev m i) = i + 1 /\ valid_bus (id_bus (dv_identity (dev m i))) = true;
  mo_pending : forall i, 0 <= i < dm_device_count m -> ~ busy i -> pending_ok m (dev m i);
  mo_settled : forall i, 0 <= i < dm_device_count m -> ~ busy i -> ~ open i -> settled m (dev m i) }.

(** What a probe may do to the manager: add devices. *)
Record extends m m' : Prop := {
  ex_drivers : dm_drivers m' = dm_drivers m /\ dm_driver_count m' = dm_driver_count m;
  ex_devices : dm_device_count m <= dm_device_count m' /\ forall i, 0 <= i < dm_device_count m -> dev m' i = dev m i;
  ex_rest : dm_initialized m' = dm_initialized m /\ dm_config m' = dm_config m }.

(** A probe keeps the tables in order and leaves the devices alone that are
    there, the probed one included. *)
Definition probe_ok : Prop := forall driver i m w busy open,
  manager_ok busy open m -> 0 <= i < dm_device_count m -> busy i ->
  let '(r, m', w') := probe driver i m w in manager_ok busy open m' /\ extends m m'.

Lemma extends_refl m : extends m m.
Proof. by constructor. Qed.

Lemma hasb_bit mask k : 0 <= k < 32 -> hasb mask (u32 (Z.shiftl 1 k)) = Z.testbit mask k.
Proof.
  intros Hk. rewrite Z.shiftl_1_l. replace (u32 (2 ^ k)) with (2 ^ k); [apply hasb_testbit; lia|]. symmetry. apply Z.mod_small. split; [lia|].
  change 4294967296 with (2 ^ 32). apply Z.pow_lt_mono_r; lia.
Qed.

Lemma tried_after d k j : 0 <= k < 32 -> tried (d <| dv_attempted_driver_mask := Z.lor (dv_attempted_driver_mask d) (u32 (Z.shiftl 1 k)) |>) j = tried d j || (j =? k).
Proof.
  intros Hk. unfold tried. rsimpl. rewrite Z.lor_spec. f_equal. replace (u32 (Z.shiftl 1 k)) with (2 ^ k).
  - destruct (decide (0 <= j)) as [Hj|Hj]; [rewrite Z.pow2_bits_eqb by lia; lia|rewrite Z.testbit_neg_r by lia; lia].
  - rewrite Z.shiftl_1_l. symmetry. apply Z.mod_small. split; [lia|]. change 4294967296 with (2 ^ 32). apply Z.pow_lt_mono_r; lia.
Qed.

(** *** Changing one device *)

(** The same drivers, hence the same meaning of a device. *)
Lemma settled_ext m m' d : dm_drivers m' = dm_drivers m -> dm_driver_count m' = dm_driver_count m -> settled m d <-> settled m' d.
Proof. intros E1 E2. unfold settled, pending_ok, bound_ok, registered. by rewrite E1, E2. Qed.
Lemma pending_ext m m' d : dm_drivers m' = dm_drivers m -> dm_driver_count m' = dm_driver_count m -> pending_ok m d <-> pending_ok m' d.
Proof. intros E1 E2. unfold pending_ok, bound_ok, registered. by rewrite E1, E2. Qed.

Lemma set_device_ok busy busy' open open' m i d :
  manager_ok busy open m -> 0 <= i < dm_device_count m -> dv_instance_id d = dv_instance_id (dev m i) -> dv_identity d = dv_identity (dev m i) ->
  (forall j, j <> i -> (busy j <-> busy' j) /\ (open j -> open' j)) -> (~ busy' i -> pending_ok m d) -> (~ busy' i -> ~ open' i -> settled m d) ->
  manager_ok busy' open' (set_device m i d).
Proof.
  intros [M1 M2 M3 M4 Mb M5 M6 M7 M8] Hi Ed Ej Hj Hp Hs. constructor; try done.
  - intros j Hb. destruct (decide (j = i)) as [->|Hne]; [exact Hi|]. by apply Mb, (Hj j Hne).
  - intros j Hr. change (0 <= j < dm_device_count m) in Hr. cbn. rewrite aget_aset. case_decide; [subst j; rewrite Ed, Ej; by apply M6|by apply M6].
  - intros j Hr Hb. change (0 <= j < dm_device_count m) in Hr. cbn. rewrite aget_aset. case_decide as E; [subst j; by apply Hp|]. apply (M7 j Hr). intros Hx. by apply Hb, (Hj j ltac:(congruence)).
  - intros j Hr Hb Ho. change (0 <= j < dm_device_count m) in Hr. cbn. rewrite aget_aset. case_decide as E; [subst j; by apply Hs|].
    apply (M8 j Hr); intros Hx; [by apply Hb, (Hj j ltac:(congruence))|by apply Ho, (Hj j ltac:(congruence))].
Qed.

Definition with_busy (busy : Z -> Prop) (i : Z) : Z -> Prop := fun j => busy j \/ j = i.
Definition without (open : Z -> Prop) (i : Z) : Z -> Prop := fun j => open j /\ j <> i.

(** What binding device [i] changes: the device, and there may be more of them. *)
Record near (i : Z) m m' : Prop := {
  nr_drivers : dm_drivers m' = dm_drivers m /\ dm_driver_count m' = dm_driver_count m;
  nr_devices : dm_device_count m <= dm_device_count m' /\ forall j, 0 <= j < dm_device_count m -> j <> i -> dev m' j = dev m j;
  nr_device : dv_instance_id (dev m' i) = dv_instance_id (dev m i) /\ dv_identity (dev m' i) = dv_identity (dev m i) /\
    dv_expected_driver (dev m' i) = dv_expected_driver (dev m i);
  nr_rest : dm_initialized m' = dm_initialized m /\ dm_config m' = dm_config m }.

Lemma near_refl i m : near i m m.
Proof. by constructor. Qed.
Lemma near_trans i m1 m2 m3 : near i m1 m2 -> near i m2 m3 -> near i m1 m3.
Proof.
  intros [[A1 A2] [A3 A4] (A5 & A6 & A7) [A8 A9]] [[B1 B2] [B3 B4] (B5 & B6 & B7) [B8 B9]]. constructor; [split; congruence| |split_and!; congruence|split; congruence].
  split; [lia|]. intros j Hj Hne. rewrite B4 by lia. by apply A4.
Qed.
Lemma near_set i m d : dv_instance_id d = dv_instance_id (dev m i) -> dv_identity d = dv_identity (dev m i) -> dv_expected_driver d = dv_expected_driver (dev m i) -> near i m (set_device m i d).
Proof.
  intros E1 E2 E3. constructor; [done| |by cbn; rewrite aget_aset_eq|done]. split; [done|]. intros j _ Hne. cbn. by rewrite aget_aset_ne.
Qed.
Lemma near_extends i m m' : extends m m' -> 0 <= i < dm_device_count m -> near i m m'.
Proof. intros [E1 [E2 E3] E4] Hi. constructor; [done|split; [done|]; intros j Hj _; by apply E3|by rewrite (E3 i Hi)|done]. Qed.

(** The loop has tried the drivers below [k]. *)
Record trying (busy open : Z -> Prop) m (i k : Z) (seen : bool) (last : Z) : Prop := {
  tr_ok : manager_ok (with_busy busy i) open m;
  tr_range : 0 <= i < dm_device_count m;
  tr_tried : forall j, tried (dev m i) j = true -> registered m j;
  tr_free : dv_state (dev m i) <> NPK_DEVICE_BOUND /\ dv_driver (dev m i) = None;
  tr_done : forall j, registered m j -> j < k -> fits (dev m i) (dm_drivers m).[j] = true -> tried (dev m i) j = true;
  tr_seen : seen = true <-> exists j, registered m j /\ j < k /\ fits (dev m i) (dm_drivers m).[j] = true;
  tr_last : last = dv_last_probe_result (dev m i) /\ ((exists j, tried (dev m i) j = true) -> last <> 0) }.

Lemma trying_next busy open m i k seen seen' last :
  trying busy open m i k seen last -> registered m k ->
  (fits (dev m i) (dm_drivers m).[k] = true -> tried (dev m i) k = true) ->
  (seen' = seen || fits (dev m i) (dm_drivers m).[k]) -> trying busy open m i (k + 1) seen' last.
Proof.
  intros [T1 T2 T3 T4 T5 T6 T7] Hk He ->. constructor; try done.
  - intros j Hj Hjk Hel. destruct (decide (j = k)) as [->|]; [by apply He|apply T5; [done|lia|done]].
  - rewrite orb_true_iff, T6. split; [intros [(j & H1 & H2 & H3)|Hel]; [exists j; split_and!; [exact H1|lia|done]|exists k; split_and!; [exact Hk|lia|done]]|].
    intros (j & H1 & H2 & H3). destruct (decide (j = k)) as [->|]; [by right|left; exists j; split_and!; [exact H1|lia|done]].
Qed.

Lemma eligible_ext d d' x : dv_identity d' = dv_identity d -> dv_expected_driver d' = dv_expected_driver d -> fits d' x = fits d x.
Proof. intros E1 E2. unfold eligible. by rewrite E1, E2. Qed.

Context (Hprobe : probe_ok).

(** One driver is probed. *)
Lemma probe_step busy open m w i k seen last :
  trying busy open m i k seen last -> registered m k -> fits (dev m i) (dm_drivers m).[k] = true -> tried (dev m i) k = false ->
  let d1 := dev m i <| dv_attempted_driver_mask := Z.lor (dv_attempted_driver_mask (dev m i)) (u32 (Z.shiftl 1 k)) |> in
  let '(result, m2, w2) := probe (dm_drivers m).[k] i (set_device m i d1) w in
  let m3 := set_device m2 i (dev m2 i <| dv_last_probe_result := result |>) in
  near i m m3 /\ manager_ok (with_busy busy i) open m3 /\ dev m3 i = d1 <| dv_last_probe_result := result |> /\ 0 <= i < dm_device_count m3 /\
  (result <> 0 -> trying busy open m3 i (k + 1) true result).
Proof.
  intros [T1 T2 T3 T4 T5 T6 T7] Hk Hel Hun d1. assert (Hk32 : 0 <= k < 32) by (destruct Hk; pose proof (mo_drivers _ _ _ T1) as B; unfold NPK_DEVICE_MANAGER_MAX_DRIVERS in B; lia).
  assert (Hb : with_busy busy i i) by (by right). set (m1 := set_device m i d1).
  assert (N1 : near i m m1) by (by apply near_set). assert (D1 : dev m1 i = d1) by (cbn; by rewrite aget_aset_eq).
  assert (O1 : manager_ok (with_busy busy i) open m1) by (apply (set_device_ok (with_busy busy i) _ open open); done).
  pose proof (Hprobe (dm_drivers m).[k] i m1 w (with_busy busy i) open O1 T2 Hb) as P. destruct (probe _ i m1 w) as [[result m2] w2]. destruct P as [O2 X].
  pose proof (near_extends i m1 m2 X T2) as N2. assert (D2 : dev m2 i = d1) by (rewrite (proj2 (ex_devices _ _ X) i T2); exact D1). rewrite D2. cbv zeta. set (d3 := d1 <| dv_last_probe_result := result |>).
  assert (T2' : 0 <= i < dm_device_count m2) by (pose proof (proj1 (nr_devices _ _ _ N2)) as C; change (dm_device_count m1) with (dm_device_count m) in C; lia).
  assert (N3 : near i m2 (set_device m2 i d3)) by (apply near_set; by rewrite D2). assert (D3 : dev (set_device m2 i d3) i = d3) by (cbn; by rewrite aget_aset_eq).
  assert (N : near i m (set_device m2 i d3)) by (eapply near_trans; [exact N1|]; eapply near_trans; [exact N2|exact N3]).
  assert (O3 : manager_ok (with_busy busy i) open (set_device m2 i d3)) by (apply (set_device_ok (with_busy busy i) _ open open); rewrite ?D2; done).
  split; [exact N|]. split; [exact O3|]. split; [exact D3|]. split; [exact T2'|]. intros Hr.
  assert (Hreg : forall j, registered (set_device m2 i d3) j <-> registered m j) by (intros j; unfold registered; by rewrite (proj2 (nr_drivers _ _ _ N))).
  assert (Ht : forall j, tried d3 j = tried (dev m i) j || (j =? k)) by (intros j; exact (tried_after (dev m i) k j Hk32)).
  assert (Hdr : dm_drivers (set_device m2 i d3) = dm_drivers m) by (by rewrite (proj1 (nr_drivers _ _ _ N))).
  constructor; rewrite ?D3, ?Hdr; try done.
  - intros j. rewrite Ht, Hreg. intros [Hj|Hj]%orb_true_iff; [by apply T3|]. by replace j with k by lia.
  - intros j Hj Hjk He. rewrite Hreg in Hj. rewrite Ht. destruct (decide (j = k)) as [->|]; [lia|]. apply orb_true_iff. left. apply T5; [done|lia|exact He].
  - split; [|done]. intros _. exists k. rewrite Hreg. split; [done|]. split; [lia|exact Hel].
Qed.

Lemma bind_loop_ok busy open i fuel : forall m w k seen last bound seen' last' m' w',
  trying busy open m i k seen last -> 0 <= k -> dm_driver_count m - k <= Z.of_nat fuel ->
  bind_loop driver_at probe fuel m w i k seen last = (bound, seen', last', m', w') ->
  near i m m' /\
  if bound then manager_ok (with_busy busy i) open m' /\ 0 <= i < dm_device_count m' /\ dv_state (dev m' i) = NPK_DEVICE_BOUND /\ bound_ok m' (dev m' i) /\
    (forall j, tried (dev m' i) j = true -> registered m' j)
  else trying busy open m' i (dm_driver_count m') seen' last'.
Proof.
  induction fuel as [|fuel IH]; intros m w k seen last bound seen' last' m' w' T Hk Hf; cbn [bind_loop].
  - intros [= <- <- <- <- <-]. split; [apply near_refl|]. destruct T as [T1 T2 T3 T4 T5 T6 T7]. constructor; try done; [intros j Hj _; apply T5; [done|destruct Hj; lia]|].
    rewrite T6. split; intros (j & H1 & H2 & H3); exists j; split_and!; try done; destruct H1; lia.
  - cif E1.
    { intros [= <- <- <- <- <-]. split; [apply near_refl|]. destruct T as [T1 T2 T3 T4 T5 T6 T7]. constructor; try done; [intros j Hj _; apply T5; [done|destruct Hj; lia]|].
      rewrite T6. split; intros (j & H1 & H2 & H3); exists j; split_and!; try done; destruct H1; lia. }
    assert (Hr : registered m k) by (unfold registered; lia). assert (Hk32 : 0 <= k < 32) by (pose proof (mo_drivers _ _ _ (tr_ok _ _ _ _ _ _ _ T)) as B; unfold NPK_DEVICE_MANAGER_MAX_DRIVERS in B; lia).
    cbv zeta. destruct (fits (dev m i) (dm_drivers m).[k]) eqn:Ee; cbn [negb].
    2:{ apply IH; [|lia|lia]. eapply trying_next; [exact T|done|by rewrite Ee|by rewrite Ee, orb_false_r]. }
    rewrite hasb_bit by done. change (Z.testbit (dv_attempted_driver_mask (dev m i)) k) with (tried (dev m i) k). destruct (tried (dev m i) k) eqn:Et.
    { apply IH; [|lia|lia]. eapply trying_next; [exact T|done|done|by rewrite Ee, orb_true_r]. }
    pose proof (probe_step busy open m w i k seen last T Hr Ee Et) as P. cbv zeta in P. destruct (probe _ i _ w) as [[result m2] w2]. destruct P as (N & O3 & D3 & Hi3 & P).
    set (m3 := set_device m2 i (dev m2 i <| dv_last_probe_result := result |>)) in *. cif E2.
    + intros [= <- <- <- <- <-]. change ((dm_devices m2).[i <- dev m2 i <| dv_last_probe_result := result |>].[i]) with (dev m3 i). assert (Hc : dm_drivers m3 = dm_drivers m /\ dm_driver_count m3 = dm_driver_count m) by apply N. destruct Hc as [Hc1 Hc2].
      split; [eapply near_trans; [exact N|by apply near_set]|]. split; [apply (set_device_ok (with_busy busy i) _ open open); try done; intros Hn; destruct Hn; by right|].
      split; [exact Hi3|]. set (d4 := dev m3 i <| dv_driver := Some (dm_drivers m).[k] |> <| dv_state := NPK_DEVICE_BOUND |>).
      assert (D4 : dev (set_device m3 i d4) i = d4) by apply aget_aset_eq. rewrite !D4. split; [done|].
      assert (Ht : forall j, tried d4 j = tried (dev m i) j || (j =? k)) by (intros j; subst d4; rewrite D3; exact (tried_after (dev m i) k j Hk32)).
      assert (Hreg : forall j, registered (set_device m3 i d4) j <-> registered m j) by (intros j; unfold registered; change (dm_driver_count (set_device m3 i d4)) with (dm_driver_count m3); by rewrite Hc2).
      split.
      * exists k. rewrite Hreg, Ht, Z.eqb_refl, orb_true_r. change (dm_drivers (set_device m3 i d4)) with (dm_drivers m3). rewrite Hc1. split; [exact Hr|]. split; [done|].
        subst d4. rewrite D3. split; [exact Ee|]. split; [done|]. cbn. lia.
      * intros j. rewrite Hreg, Ht. intros [Hj|Hj]%orb_true_iff; [exact (tr_tried _ _ _ _ _ _ _ T j Hj)|replace j with k by lia; exact Hr].
    + intros E. assert (T3 := P ltac:(lia)). assert (Hc : dm_driver_count m3 = dm_driver_count m) by apply N.
      destruct (IH m3 w2 (k + 1) true result bound seen' last' m' w' T3 ltac:(lia) ltac:(lia) E) as [N' R]. split; [eapply near_trans; [exact N|exact N']|exact R].
Qed.

Lemma manager_weaken busy busy' open open' m :
  (forall j, busy j -> busy' j) -> (forall j, busy' j -> 0 <= j < dm_device_count m) -> (forall j, 0 <= j < dm_device_count m -> open j -> open' j \/ busy' j) ->
  manager_ok busy open m -> manager_ok busy' open' m.
Proof.
  intros Hb Hr Ho [M1 M2 M3 M4 Mb M5 M6 M7 M8]. constructor; try done; [intros i Hi Hn; apply M7; auto|].
  intros i Hi Hn Hn'. apply M8; [done|auto|]. intros Hx. destruct (Ho i Hi Hx); auto.
Qed.

Lemma unbusy busy open m i : 0 <= i < dm_device_count m -> manager_ok (with_busy busy i) open m -> settled m (dev m i) -> manager_ok busy (without open i) m.
Proof.
  intros Hi [M1 M2 M3 M4 Mb M5 M6 M7 M8] Hs. constructor; try done; [intros j Hj; apply Mb; by left| |].
  - intros j Hj Hn. destruct (decide (j = i)) as [->|]; [apply Hs|]. apply M7; [done|]. intros [?|?]; auto.
  - intros j Hj Hn Ho. destruct (decide (j = i)) as [->|]; [exact Hs|]. apply M8; [done|intros [?|?]; auto|]. intros Hx. apply Ho. by split.
Qed.

Lemma bind_device_ok busy open m w i m' w' :
  manager_ok busy open m -> ~ busy i -> 0 <= i < dm_device_count m -> dv_state (dev m i) <> NPK_DEVICE_BOUND ->
  bind_device driver_at probe m w i = (m', w') -> manager_ok busy (without open i) m' /\ near i m m'.
Proof.
  intros O Hb Hi Hs. destruct (mo_pending _ _ _ O i Hi Hb) as (P1 & _ & P3). destruct (P3 Hs) as [P4 P5].
  assert (T : trying busy open m i 0 false (dv_last_probe_result (dev m i))).
  { constructor; try done; [eapply manager_weaken; [| | |exact O]; [by left|intros j [Hj| ->]; [by apply (mo_busy _ _ _ O)|done]|intros j _ Hj; by left]|intros j [? _]; lia|split; [done|intros (j & [? _] & ? & _); lia]]. }
  unfold bind_device. destruct (bind_loop _ _ _ _ _ _ _ _ _) as [[[[bound seen] last] m1] w1] eqn:E.
  destruct (bind_loop_ok busy open i (Z.to_nat NPK_DEVICE_MANAGER_MAX_DRIVERS) m w 0 false _ bound seen last m1 w1 T ltac:(lia) ltac:(pose proof (mo_drivers _ _ _ O); unfold NPK_DEVICE_MANAGER_MAX_DRIVERS in *; lia) E) as [N L]. destruct bound.
  - intros [= <- <-]. destruct L as (O1 & Hi1 & Hst & Hbo & Htr). split; [|exact N]. apply unbusy; [done|done|]. split; [|by rewrite Hst]. split; [exact Htr|]. by split.
  - destruct L as [T1 T2 T3 T4 T5 T6 [T7 T8]]. intros [= <- <-]. set (d := if seen then _ else _).
    assert (F : dv_instance_id d = dv_instance_id (dev m1 i) /\ dv_identity d = dv_identity (dev m1 i) /\ dv_expected_driver d = dv_expected_driver (dev m1 i) /\
      dv_driver d = None /\ (forall k, tried d k = tried (dev m1 i) k) /\ dv_state d = (if seen then NPK_DEVICE_PROBE_FAILED else NPK_DEVICE_UNBOUND) /\ dv_last_probe_result d = last).
    { subst d. destruct seen; split_and!; try done. }
    destruct F as (F1 & F2 & F3 & F4 & F5 & F6 & F7). assert (Hel : forall x, fits d x = fits (dev m1 i) x) by (intros x; by apply eligible_ext).
    assert (S : settled m1 d).
    { split; [split; [intros k; rewrite F5; apply T3|]; rewrite F6, F7, F4; split; [by destruct seen|]; intros _; split; [done|]; intros [k Hk]; rewrite F5 in Hk; eauto|].
      rewrite F6. destruct seen.
      - destruct (proj1 T6 eq_refl) as (j & J1 & J2 & J3). split; [exists j; by rewrite Hel|]. split; [rewrite F7; apply T8; exists j; by apply T5|].
        intros k Hk. rewrite Hel, F5. apply T5; [done|apply Hk].
      - intros k Hk. rewrite Hel. destruct (fits (dev m1 i) _) eqn:Ee; [|done]. assert (false = true); [|done]. apply T6. exists k. split; [done|]. split; [apply Hk|done]. }
    split; [|eapply near_trans; [exact N|by apply near_set]]. apply (set_device_ok (with_busy busy i) busy open (without open i)); try done; [|intros _; apply S].
    intros j Hj. split; [split; [by intros [?|?]|by left]|by intros ?].
Qed.

Definition none : Z -> Prop := fun _ => False.

Lemma resolve_fields cfg d :
  let d' := resolve_usb_config cfg d in
  dv_instance_id d' = dv_instance_id d /\ dv_identity d' = dv_identity d /\ dv_state d' = dv_state d /\ dv_driver d' = dv_driver d /\
  dv_last_probe_result d' = dv_last_probe_result d /\ (forall k, tried d' k = tried d k).
Proof. cbv zeta. unfold resolve_usb_config. destruct (negb _); [done|]. destruct (_ =? _); [done|]. by destruct (device_config_resolve _ _). Qed.

Lemma resolve_pending m cfg d : dv_state d <> NPK_DEVICE_BOUND -> pending_ok m d -> pending_ok m (resolve_usb_config cfg d).
Proof.
  intros Hs (P1 & P2 & P3). destruct (resolve_fields cfg d) as (_ & _ & F3 & F4 & F5 & F6). split; [intros k; rewrite F6; apply P1|]. rewrite F3, F4, F5.
  split; [done|]. intros H. destruct (P3 H) as [Q1 Q2]. split; [done|]. intros [k Hk]. rewrite F6 in Hk. eauto.
Qed.

(** Registering a device is something a probe may do. *)
Lemma register_device_ok busy open m w identity :
  manager_ok busy open m ->
  let '(r, m', w') := devmgr_register_device driver_at probe m w identity in
  manager_ok busy open m' /\ extends m m' /\ match r with Some i => i = dm_device_count m /\ i < dm_device_count m' /\ settled m' (dev m' i) | None => m' = m end.
Proof.
  intros O. unfold devmgr_register_device. destruct identity as [identity|]; [|by split_and!; [|apply extends_refl|]].
  destruct (_ || _) eqn:E1; [by split_and!; [|apply extends_refl|]|]. cif E2; [by split_and!; [|apply extends_refl|]|]. cbv zeta. set (i := dm_device_count m).
  set (d := resolve_usb_config _ _). set (m1 := set_device _ i d). destruct O as [M1 M2 M3 M4 Mb M5 M6 M7 M8].
  destruct (resolve_fields (dm_config m) (zero_device <| dv_instance_id := dm_next_instance_id m |> <| dv_identity := identity |> <| dv_state := NPK_DEVICE_DISCOVERED |>)) as (F1 & F2 & F3 & F4 & F5 & F6).
  change (resolve_usb_config (dm_config m) _) with d in *. cbn [dv_instance_id dv_identity dv_state dv_driver dv_last_probe_result] in *.
  assert (Old : forall j, j <> i -> dev m1 j = dev m j) by (intros j Hj; subst m1; cbn; by rewrite aget_aset_ne).
  assert (New : dev m1 i = d) by (subst m1; cbn; by rewrite aget_aset_eq). assert (Ci : dm_device_count m1 = i + 1) by done.
  assert (Pd : pending_ok m1 d).
  { split; [intros k; rewrite F6; unfold tried; cbn; by rewrite Z.bits_0|]. rewrite F3, F4, F5. split; [done|]. intros _. split; [done|]. intros [k Hk]. rewrite F6 in Hk. unfold tried in Hk. cbn in Hk. by rewrite Z.bits_0 in Hk. }
  assert (O1 : manager_ok busy (fun j => open j \/ j = i) m1).
  { apply orb_false_iff in E1 as [_ E1]. apply negb_false_iff in E1. constructor; try done.
    - rewrite Ci. unfold i. lia.
    - intros j Hj. apply Mb in Hj. rewrite Ci. unfold i. lia.
    - subst m1. cbn. rewrite M5. unfold u32. apply Z.mod_small. unfold NPK_DEVICE_MANAGER_MAX_DEVICES in *. lia.
    - intros j Hj. rewrite Ci in Hj. destruct (decide (j = i)) as [->|Hne]; [rewrite New, F1, F2; split; [exact M5|exact E1]|rewrite (Old j Hne); apply M6; unfold i in *; lia].
    - intros j Hj Hn. rewrite Ci in Hj. destruct (decide (j = i)) as [->|Hne]; [by rewrite New|]. rewrite (Old j Hne). apply (pending_ext m m1); [done|done|]. apply M7; [unfold i in *; lia|done].
    - intros j Hj Hn Ho. rewrite Ci in Hj. destruct (decide (j = i)) as [->|Hne]; [destruct Ho; by right|]. rewrite (Old j Hne). apply (settled_ext m m1); [done|done|]. apply M8; [unfold i in *; lia|done|]. intros Hx. apply Ho. by left. }
  assert (Hni : ~ busy i) by (intros Hx; apply Mb in Hx; unfold i in Hx; lia).
  destruct (bind_device driver_at probe m1 w i) as [m' w'] eqn:E. destruct (bind_device_ok busy _ m1 w i m' w' O1 Hni ltac:(rewrite Ci; unfold i in *; lia) ltac:(rewrite New, F3; discriminate) E) as [O' [N1 [N2 N2'] N3 N4]].
  rewrite Ci in N2, N2'. split; [|split].
  - eapply manager_weaken; [| | |exact O']; [done|apply (mo_busy _ _ _ O')|]. intros j _ [[?|?] ?]; [by left|done].
  - constructor; [exact N1| |exact N4]. split; [unfold i in *; lia|]. intros j Hj. rewrite N2' by (unfold i in *; lia). apply Old. unfold i in *. lia.
  - split; [done|]. split; [unfold i in *; lia|]. apply (mo_settled _ _ _ O'); [unfold i in *; lia|done|]. intros [_ ?]. done.
Qed.

Lemma for_devices_ok (open : Z -> Z -> Prop) (f : device_manager -> W -> Z -> device_manager * W) :
  (forall m w i m' w', manager_ok none (open i) m -> 0 <= i < dm_device_count m -> f m w i = (m', w') -> manager_ok none (open (i + 1)) m') ->
  forall fuel m w i m' w', manager_ok none (open i) m -> 0 <= i -> NPK_DEVICE_MANAGER_MAX_DEVICES - i <= Z.of_nat fuel -> for_devices f fuel m w i = (m', w') ->
  exists n, dm_device_count m' <= n /\ manager_ok none (open n) m'.
Proof.
  intros Hf. induction fuel as [|fuel IH]; intros m w i m' w' O Hi Hfu; cbn [for_devices].
  - intros [= <- <-]. exists i. split; [pose proof (mo_devices _ _ _ O); lia|done].
  - cif E; [intros [= <- <-]; exists i; split; [lia|done]|]. destruct (f m w i) as [m1 w1] eqn:E1. intros E2. eapply (IH m1 w1 (i + 1)); [|lia|lia|exact E2]. eapply Hf; [exact O|lia|exact E1].
Qed.

(** A further driver: what was tried stays tried, but every device that is not
    bound has a driver to try. *)
Lemma add_driver_ok m driver :
  manager_ok none none m -> driver <> 0 -> driver_valid (driver_at driver) = true -> existsb (fun i => (dm_drivers m).[i] =? driver) (seqZ 0 (dm_driver_count m)) = false ->
  dm_driver_count m < NPK_DEVICE_MANAGER_MAX_DRIVERS ->
  manager_ok none (fun j => 0 <= j) (m <| dm_drivers := (dm_drivers m).[dm_driver_count m <- driver] |> <| dm_driver_count := dm_driver_count m + 1 |>).
Proof.
  intros [M1 M2 M3 M4 Mb M5 M6 M7 M8] Hn Hv Hx Hc. set (n := dm_driver_count m) in *. set (m1 := m <| dm_drivers := _ |> <| dm_driver_count := _ |>).
  assert (Old : forall k, registered m k -> (dm_drivers m1).[k] = (dm_drivers m).[k]) by (intros k Hk; subst m1; cbn; apply aget_aset_ne; destruct Hk; unfold n in *; lia).
  assert (New : (dm_drivers m1).[n] = driver) by (subst m1; cbn; apply aget_aset_eq). assert (R : forall k, registered m1 k <-> registered m k \/ k = n) by (intros k; unfold registered; change (dm_driver_count m1) with (n + 1); fold n; lia).
  assert (F : forall k, registered m k -> (dm_drivers m).[k] <> driver).
  { intros k Hk E. apply not_true_iff_false in Hx. apply Hx, existsb_exists. exists k. split; [apply list_elem_of_In, elem_of_seqZ; destruct Hk; unfold n in *; lia|lia]. }
  constructor; try done.
  - change (dm_driver_count m1) with (n + 1). lia.
  - intros a b [Ha| ->]%R [Hb| ->]%R; rewrite ?New, ?(Old a Ha), ?(Old b Hb); [by apply M3| | |done]; intros E; exfalso; [by apply (F a)|by apply (F b)].
  - intros a [Ha| ->]%R; [rewrite (Old a Ha); by apply M4|by rewrite New].
  - intros i Hi Hb. destruct (M7 i Hi Hb) as (P1 & P2 & P3). split; [intros k Hk; apply R; left; by apply P1|]. split; [|exact P3]. intros Hst. destruct (P2 Hst) as (k & K1 & K2 & K3 & K4 & K5).
    exists k. rewrite (Old k K1). split; [apply R; by left|done].
  - intros i Hi _ Ho. destruct Ho. lia.
Qed.

Lemma register_driver_ok m w driver :
  manager_ok none none m -> let '(_, m', _) := devmgr_register_driver driver_at probe m w driver in manager_ok none none m'.
Proof.
  intros O. unfold devmgr_register_driver. destruct (_ || _) eqn:E1; [done|]. cif E2; [done|]. cif E3; [done|]. cbv zeta. apply orb_false_iff in E1 as [[_ E0]%orb_false_iff E1]. apply negb_false_iff in E1.
  pose proof (add_driver_ok m driver O ltac:(lia) E1 E2 ltac:(lia)) as O1. set (m1 := m <| dm_drivers := _ |> <| dm_driver_count := _ |>) in *. clearbody m1.
  destruct (all_devices _ m1 w) as [m' w'] eqn:E. unfold all_devices in E.
  destruct (for_devices_ok (fun i j => i <= j) (fun m w i => if bool_decide (dv_state (dev m i) = NPK_DEVICE_BOUND) then (m, w) else bind_device driver_at probe m w i)) with (fuel := Z.to_nat NPK_DEVICE_MANAGER_MAX_DEVICES) (m := m1) (w := w) (i := 0) (m' := m') (w' := w') as (n & Hn & O'); try done.
  - clear - Hprobe. intros m w i m' w' O Hi. case_bool_decide as Es.
    + intros [= <- <-]. destruct O as [M1 M2 M3 M4 Mb M5 M6 M7 M8]. constructor; try done. intros j Hj Hb Ho. destruct (decide (j = i)) as [->|]; [|apply M8; [done|done|lia]]. split; [by apply M7|by rewrite Es].
    + intros E. destruct (bind_device_ok none (fun j => i <= j) m w i m' w' O ltac:(by intros []) Hi Es E) as [O' _]. eapply manager_weaken; [| | |exact O']; [done|by intros j []|]. intros j _ [? ?]. left. lia.
  - eapply manager_weaken; [| | |exact O']; [done|by intros j []|]. intros j Hj Ho. cbv beta in Ho. lia.
Qed.
End Invariant.

(** ** The manager at work *)

Section Reach.
Context {K U : Type} `{VfsEnv K}.
Context (driver_at : Z -> npk_device_driver) (probe : Z -> Z -> device_manager -> vfs K * U -> Z * device_manager * (vfs K * U)).

Lemma load_config_ok m w :
  probe_ok driver_at probe -> manager_ok driver_at none none m -> let '(_, m', _) := devmgr_load_default_config driver_at probe m w in manager_ok driver_at none none m'.
Proof.
  intros Hp O. unfold devmgr_load_default_config. destruct (negb _); [done|]. destruct (device_config_load_vfs _ _ _) as [[result cfg] files]. cbv zeta.
  assert (O1 : manager_ok driver_at none none (m <| dm_config := cfg |>)) by (destruct O; by constructor). set (m1 := m <| dm_config := cfg |>) in *. clearbody m1. destruct (negb _); [done|].
  destruct (all_devices _ m1 _) as [m' w'] eqn:E. unfold all_devices in E.
  eapply (for_devices_ok driver_at (fun _ => none)) in E as (n & _ & O'); [exact O'| |exact O1|lia|unfold NPK_DEVICE_MANAGER_MAX_DEVICES; lia].
  clear - Hp. intros m w i m' w' O Hi. cbv beta. destruct (_ || _) eqn:E; [by intros [= <- <-]|]. apply orb_false_iff in E as [_ E]. apply bool_decide_eq_false in E.
  set (d := resolve_usb_config (dm_config m) (dev m i)). destruct (resolve_fields (dm_config m) (dev m i)) as (F1 & F2 & F3 & _). fold d in F1, F2, F3.
  assert (O1 : manager_ok driver_at none (fun j => j = i) (set_device m i d)).
  { apply (set_device_ok driver_at none none none); try done. intros _. apply resolve_pending; [done|]. apply (mo_pending _ _ _ _ O); [done|by intros []]. }
  intros Eb. eapply (bind_device_ok driver_at probe Hp none (fun j => j = i)) in Eb as [O' _]; [|exact O1|by intros []|exact Hi|cbn; rewrite aget_aset_eq, F3; exact E].
  eapply manager_weaken; [| | |exact O']; [done|by intros j []|]. intros j _ [? ?]. done.
Qed.

Inductive manager_op := OpInit | OpLoadConfig | OpRegisterDriver (driver : Z) | OpRegisterDevice (identity : option npk_device_identity).

Definition manager_do (m : device_manager) (w : vfs K * U) (o : manager_op) : device_manager * (vfs K * U) :=
  match o with
  | OpInit => (devmgr_init m, w)
  | OpLoadConfig => let '(_, m, w) := devmgr_load_default_config driver_at probe m w in (m, w)
  | OpRegisterDriver driver => let '(_, m, w) := devmgr_register_driver driver_at probe m w driver in (m, w)
  | OpRegisterDevice identity => let '(_, m, w) := devmgr_register_device driver_at probe m w identity in (m, w)
  end.

Fixpoint manager_run (m : device_manager) (w : vfs K * U) (ops : list manager_op) : device_manager * (vfs K * U) :=
  match ops with [] => (m, w) | o :: ops' => let '(m, w) := manager_do m w o in manager_run m w ops' end.

(** C27: However drivers and devices are registered and the catalogue is loaded, in
    whatever order, and although probes register devices themselves: a device is
    bound to a registered driver that matches it and that the catalogue allows,
    or every such driver was tried on it and refused; instance numbers are
    unique. *)
Theorem manager_run_ok w ops : probe_ok driver_at probe -> manager_ok driver_at none none (manager_run manager0 w ops).1.
Proof.
  intros Hp. assert (O0 : forall m, dm_device_count m = 0 -> dm_driver_count m = 0 -> dm_next_instance_id m = 1 -> manager_ok driver_at none none m).
  { intros m E1 E2 E3. constructor; rewrite ?E1, ?E2, ?E3; try done; intros; try lia; unfold registered in *; lia. }
  assert (G : forall m w, manager_ok driver_at none none m -> manager_ok driver_at none none (manager_run m w ops).1); [|by apply G, O0].
  induction ops as [|o ops IH]; intros m w' O; [done|]. cbn [manager_run]. destruct (manager_do m w' o) as [m1 w1] eqn:E. apply IH. revert E. destruct o; cbn [manager_do].
  - intros [= <- <-]. by apply O0.
  - pose proof (load_config_ok m w' Hp O) as L. destruct (devmgr_load_default_config _ _ m w') as [[? ?] ?]. by intros [= <- <-].
  - pose proof (register_driver_ok driver_at probe Hp m w' driver O) as L. destruct (devmgr_register_driver _ _ m w' driver) as [[? ?] ?]. by intros [= <- <-].
  - pose proof (register_device_ok driver_at probe Hp none none m w' identity O) as L. destruct (devmgr_register_device _ _ m w' identity) as [[? ?] ?]. intros [= <- <-]. apply L.
Qed.
End Reach.

(** ** A host controller and its keyboard *)

#[local] Existing Instance heap_example.

Definition controller_identity : npk_device_identity := Identity NPK_DEVICE_BUS_PCI 0x000400 0x1b36 0x000d 0x0c 0x03 0x30 1 0xff.

(** Driver 1 is for the controller, driver 2 for boot keyboards. *)
Definition example_drivers (address : Z) : npk_device_driver :=
  if address =? 1 then Driver (Some (str "xhci"%string)) (Some [DeviceId NPK_DEVICE_BUS_PCI 28 0 0 0x0c 0x03 0x30 0]) true
  else Driver (Some (str "usb_hid_keyboard"%string)) (Some [DeviceId NPK_DEVICE_BUS_USB 28 0 0 3 1 1 0]) true.

Definition accept (driver i : Z) (m : device_manager) (w : vfs (gset Z) * unit) : Z * device_manager * (vfs (gset Z) * unit) := (0, m, w).
(** The probe of the controller finds the keyboard. *)
Definition example_probe (driver i : Z) (m : device_manager) (w : vfs (gset Z) * unit) : Z * device_manager * (vfs (gset Z) * unit) :=
  if driver =? 1 then let '(_, m, w) := devmgr_register_device example_drivers accept m w (Some qemu_keyboard) in (0, m, w) else accept driver i m w.

Lemma accept_ok : probe_ok example_drivers accept.
Proof. intros driver i m w busy open O Hi Hb. split; [exact O|apply extends_refl]. Qed.

Lemma example_probe_ok : probe_ok example_drivers example_probe.
Proof.
  intros driver i m w busy open O Hi Hb. unfold example_probe. destruct (driver =? 1); [|split; [exact O|apply extends_refl]].
  pose proof (register_device_ok example_drivers accept accept_ok busy open m w (Some qemu_keyboard) O) as L.
  destruct (devmgr_register_device _ _ m w _) as [[r m'] w']. destruct L as (L1 & L2 & _). split; [exact L1|exact L2].
Qed.

Definition boot_ops : list manager_op := [OpInit; OpRegisterDriver 2; OpRegisterDriver 1; OpLoadConfig; OpRegisterDevice (Some controller_identity)].
Definition after_boot : device_manager := (manager_run example_drivers example_probe manager0 (image_files, tt) boot_ops).1.

Lemma manager_run_ok_witness : manager_ok example_drivers none none after_boot /\ dv_driver (dev after_boot 0) = Some 1 /\ dv_driver (dev after_boot 1) = Some 2 /\
  dv_display_name (dev after_boot 1) = str "QEMU USB Keyboard"%string.
Proof. split; [exact (manager_run_ok example_drivers example_probe (image_files, tt) boot_ops example_probe_ok)|]. vm_compute. repeat split. Defined.
