(* ===== verification/Proc.v ===== *)
(** * Processes and threads (src/src/proc/process.c)

    The process and thread tables, signals, futexes, the scheduler, fork,
    clone, wait and exit.  Pointers to processes and threads are indices of the
    tables.  The frame a preempted thread saved on its kernel stack is kept by
    value in the thread.  What the code asks of the rest of the kernel is the
    class [VmOps] of the areas and the class [ProcOps] below.  A function that
    gives the processor to another thread returns how ([transfer]); log
    messages are left out. *)

From Stdlib Require Import ZArith Lia Bool ZifyBool.
From stdpp Require Import base numbers list gmap.
From S2P Require Import Prelude Kstring Pmm Vmm Vm.

Open Scope Z_scope.
Open Scope npk_scope.

Definition NPK_MAX_PROCESSES : Z := 128.
Definition NPK_MAX_THREADS : Z := 256.
Definition NPK_PROCESS_PATH_MAX : Z := 256.
Definition NPK_MAX_FDS : Z := 32.
Definition NPK_KERNEL_STACK_SIZE : Z := 65536.
Definition NPK_USER_STACK_TOP : Z := 0x00007ffffff00000.
Definition NPK_USER_STACK_PAGES : Z := 32.
Definition NPK_SIGNAL_MAX : Z := 64.
Definition NPK_SIGNAL_QUEUE_MAX : Z := 32.
Definition NPK_FD_TRANSFER_MAX : Z := 8.
Definition KERNEL_CS : Z := 0x08.
Definition USER_CS : Z := 0x23.
Definition USER_SS : Z := 0x1b.
Definition PROCESS_EFAULT : Z := 14.
Definition PROCESS_EBADF : Z := 9.
Definition PROCESS_ECHILD : Z := 10.
Definition PROCESS_EAGAIN : Z := 11.
Definition PROCESS_EINVAL : Z := 22.
Definition PROCESS_ESRCH : Z := 3.
Definition PROCESS_EPERM : Z := 1.
Definition PROCESS_ENOSYS : Z := 38.
Definition PROCESS_EINTR : Z := 4.
Definition PROCESS_ENOMEM : Z := 12.
Definition PROCESS_ETIMEDOUT : Z := 110.
Definition PROCESS_WNOHANG : Z := 1.
Definition NPK_FUTEX_MAX_WAITERS : Z := NPK_MAX_THREADS.
Definition NPK_CLONE_VM : Z := 0x100.
Definition NPK_CLONE_FS : Z := 0x200.
Definition NPK_CLONE_FILES : Z := 0x400.
Definition NPK_CLONE_SIGHAND : Z := 0x800.
Definition NPK_CLONE_THREAD : Z := 0x10000.
Definition NPK_CLONE_SETTLS : Z := 0x80000.
Definition NPK_CLONE_PARENT_SETTID : Z := 0x10000000.
Definition NPK_CLONE_CHILD_CLEARTID : Z := 0x20000000.
Definition NPK_CLONE_CHILD_SETTID : Z := 0x100000000.
Definition NPK_CLONE_SYSVSEM : Z := 0x40000.
Definition NPK_CLONE_THREAD_FLAGS : Z :=
  Z.lor (Z.lor (Z.lor (Z.lor NPK_CLONE_VM NPK_CLONE_FS) NPK_CLONE_FILES) NPK_CLONE_SIGHAND) NPK_CLONE_THREAD.
Definition NPK_CLONE_OPTIONAL_FLAGS : Z :=
  Z.lor (Z.lor (Z.lor (Z.lor NPK_CLONE_SETTLS NPK_CLONE_PARENT_SETTID) NPK_CLONE_CHILD_CLEARTID) NPK_CLONE_CHILD_SETTID) NPK_CLONE_SYSVSEM.
Definition NPK_SA_SIGINFO : Z := 4.
Definition NPK_SIGNAL_FRAME_MAGIC : Z := 0x4e504b5349474652.
Definition NPK_USER_SIGINFO_SIZE : Z := 128.
Definition NPK_USER_UCONTEXT_SIZE : Z := 256.

(** ** Data *)

Record npk_sigaction := SigAction { sa_handler : Z; sa_flags : Z; sa_restorer : Z; sa_mask : list Z }.
Definition zero_action : npk_sigaction := SigAction 0 0 0 (replicate 16 0).

Record npk_signal_info := SigInfo { si_signal : Z; si_code : Z; si_sender_pid : Z; si_sender_uid : Z; si_value : Z }.
Definition zero_info : npk_signal_info := SigInfo 0 0 0 0 0.

Inductive thread_state := THREAD_UNUSED | THREAD_READY | THREAD_RUNNING | THREAD_BLOCKED | THREAD_ZOMBIE.
#[export] Instance thread_state_eq : EqDecision thread_state.
Proof. solve_decision. Defined.

Record cpu_context := Ctx {
  c_rip : Z; c_rsp : Z; c_rflags : Z; c_rax : Z; c_rbx : Z; c_rcx : Z; c_rdx : Z; c_rsi : Z; c_rdi : Z; c_rbp : Z;
  c_r8 : Z; c_r9 : Z; c_r10 : Z; c_r11 : Z; c_r12 : Z; c_r13 : Z; c_r14 : Z; c_r15 : Z; c_cr3 : Z }.
Definition zero_context : cpu_context := Ctx 0 0 0 0 0 0 0 0 0 0 0 0 0 0 0 0 0 0 0.
#[export] Instance eta_context : Eta cpu_context := fun x =>
  Ctx (c_rip x) (c_rsp x) (c_rflags x) (c_rax x) (c_rbx x) (c_rcx x) (c_rdx x) (c_rsi x) (c_rdi x) (c_rbp x)
    (c_r8 x) (c_r9 x) (c_r10 x) (c_r11 x) (c_r12 x) (c_r13 x) (c_r14 x) (c_r15 x) (c_cr3 x).

(** The registers a system call is entered with (include/npk/syscall.h). *)
Record syscall_frame := SysFrame {
  f_rax : Z; f_rbx : Z; f_rcx : Z; f_rdx : Z; f_rsi : Z; f_rdi : Z; f_rbp : Z;
  f_r8 : Z; f_r9 : Z; f_r10 : Z; f_r11 : Z; f_r12 : Z; f_r13 : Z; f_r14 : Z; f_r15 : Z;
  f_rip : Z; f_cs : Z; f_rflags : Z; f_rsp : Z; f_ss : Z }.
#[export] Instance eta_syscall_frame : Eta syscall_frame := fun x =>
  SysFrame (f_rax x) (f_rbx x) (f_rcx x) (f_rdx x) (f_rsi x) (f_rdi x) (f_rbp x) (f_r8 x) (f_r9 x) (f_r10 x) (f_r11 x)
    (f_r12 x) (f_r13 x) (f_r14 x) (f_r15 x) (f_rip x) (f_cs x) (f_rflags x) (f_rsp x) (f_ss x).

(** A frame of an interrupt wrapper (kind 0: r15 first) or of a system call
    (kind 1: rax first), then rip, cs, rflags, rsp and ss. *)
Definition frame := arr Z.
Definition zero_frame : frame := afill 0.

Record thread := Thread {
  t_tid : Z; t_state : thread_state; t_privilege_ring : Z; t_context : cpu_context;
  t_kernel_stack : Z; t_kernel_stack_top : Z; t_user_stack_top : Z; t_fs_base : Z; t_gs_base : Z;
  t_saved_interrupt_frame : option frame; t_saved_frame_kind : Z;
  t_signal_inflight : bool; t_signal_frame_user : Z; t_signal_restorer : Z; t_signal_number : Z;
  t_signal_blocked : Z; t_signal_pending : Z; t_signal_saved_mask : Z;
  t_signal_queue : arr npk_signal_info; t_signal_queue_head : Z; t_signal_queue_tail : Z; t_signal_queue_count : Z;
  t_signal_saved_frame : frame; t_futex_waiting : bool; t_futex_result : Z; t_clear_child_tid : Z;
  t_clone_thread : bool; t_group_leader : bool; t_thread_exit_status : Z; t_entry : Z; t_argument : Z; t_owner : option Z }.
#[export] Instance eta_thread : Eta thread := fun x =>
  Thread (t_tid x) (t_state x) (t_privilege_ring x) (t_context x) (t_kernel_stack x) (t_kernel_stack_top x) (t_user_stack_top x)
    (t_fs_base x) (t_gs_base x) (t_saved_interrupt_frame x) (t_saved_frame_kind x) (t_signal_inflight x) (t_signal_frame_user x)
    (t_signal_restorer x) (t_signal_number x) (t_signal_blocked x) (t_signal_pending x) (t_signal_saved_mask x) (t_signal_queue x)
    (t_signal_queue_head x) (t_signal_queue_tail x) (t_signal_queue_count x) (t_signal_saved_frame x) (t_futex_waiting x)
    (t_futex_result x) (t_clear_child_tid x) (t_clone_thread x) (t_group_leader x) (t_thread_exit_status x) (t_entry x) (t_argument x) (t_owner x).
Definition zero_thread : thread :=
  Thread 0 THREAD_UNUSED 0 zero_context 0 0 0 0 0 None 0 false 0 0 0 0 0 0 (afill zero_info) 0 0 0 zero_frame false 0 0 false false 0 0 0 None.

(** [pr_mm] holds the fields the areas work on, [alive] and the root among them. *)
Record process := Process {
  pr_pid : Z; pr_parent_pid : Z; pr_thread_count : Z; pr_exit_status : Z; pr_group_exiting : bool; pr_wait_active : bool;
  pr_wait_target : Z; pr_wait_status_user : Z; pr_wait_options : Z; pr_wait_result : Z; pr_pending_reap_pid : Z; pr_wait_woken : bool;
  pr_image_base : Z; pr_image_end : Z; pr_mm : mm; pr_image_path : cstr; pr_cwd : cstr;
  pr_incoming : arr (Z * Z); pr_incoming_fd_count : Z; pr_main_thread : option Z; pr_signal_actions : arr npk_sigaction;
  pr_fds : arr Z; pr_fd_flags : arr Z }.
#[export] Instance eta_process : Eta process := fun x =>
  Process (pr_pid x) (pr_parent_pid x) (pr_thread_count x) (pr_exit_status x) (pr_group_exiting x) (pr_wait_active x) (pr_wait_target x)
    (pr_wait_status_user x) (pr_wait_options x) (pr_wait_result x) (pr_pending_reap_pid x) (pr_wait_woken x) (pr_image_base x)
    (pr_image_end x) (pr_mm x) (pr_image_path x) (pr_cwd x) (pr_incoming x) (pr_incoming_fd_count x) (pr_main_thread x)
    (pr_signal_actions x) (pr_fds x) (pr_fd_flags x).
Definition zero_mm : mm := Mm false 0 0 0 0 0 0 0 [].
Definition zero_process : process :=
  Process 0 0 0 0 false false 0 0 0 0 0 false 0 0 zero_mm [] [] (afill (0, 0)) 0 None (afill zero_action) (afill 0) (afill 0).

#[export] Instance eta_mm : Eta mm := fun x =>
  Mm (m_alive x) (m_root x) (m_mmap_cursor x) (m_brk_start x) (m_brk_end x) (m_stack_top x) (m_stack_bottom x) (m_stack_limit x) (m_vmas x).

Record futex_waiter := Waiter { fw_active : bool; fw_thread : Z; fw_root : Z; fw_user_address : Z; fw_deadline : Z; fw_timed : bool }.
#[export] Instance eta_waiter : Eta futex_waiter := fun x =>
  Waiter (fw_active x) (fw_thread x) (fw_root x) (fw_user_address x) (fw_deadline x) (fw_timed x).
Definition zero_waiter : futex_waiter := Waiter false 0 0 0 0 false.

(** The static variables; [p_idle] is the idle thread, [p_rsp0], [p_fs], [p_gs]
    and [p_syscall_process] what the last activation loaded into the processor
    and into the system call layer, [p_env] the rest of the kernel. *)
Record proc (K : Type) := Proc {
  p_processes : arr process; p_threads : arr thread; p_next_pid : Z; p_next_tid : Z; p_current : option Z; p_idle : option Z;
  p_scheduler_ticks : Z; p_reschedule_pending : bool; p_kernel_root : Z; p_waiters : arr futex_waiter;
  p_rsp0 : Z; p_fs : Z; p_gs : Z; p_syscall_process : option Z; p_env : K }.
Arguments Proc {K}. Arguments p_processes {K}. Arguments p_threads {K}. Arguments p_next_pid {K}. Arguments p_next_tid {K}.
Arguments p_current {K}. Arguments p_idle {K}. Arguments p_scheduler_ticks {K}. Arguments p_reschedule_pending {K}.
Arguments p_kernel_root {K}. Arguments p_waiters {K}. Arguments p_rsp0 {K}. Arguments p_fs {K}. Arguments p_gs {K}.
Arguments p_syscall_process {K}. Arguments p_env {K}.
#[export] Instance eta_proc {K} : Eta (proc K) := fun x =>
  Proc (p_processes x) (p_threads x) (p_next_pid x) (p_next_tid x) (p_current x) (p_idle x) (p_scheduler_ticks x) (p_reschedule_pending x)
    (p_kernel_root x) (p_waiters x) (p_rsp0 x) (p_fs x) (p_gs x) (p_syscall_process x) (p_env x).

(** How a thread loses the processor: [Returns] it does not, [Switched] to the
    kernel context of a thread, [Resumed] through a saved frame of some kind,
    [Halted] for good. *)
Inductive transfer := Returns | Switched (to : Z) | Resumed (to kind : Z) (f : frame) | Halted.

(** What process.c uses of the rest of the kernel besides [VmOps]. *)
Class ProcOps (K : Type) := {
  (** memcpy from and to [phys_to_virt(physical)] *)
  po_read : K -> Z -> Z -> list Z;
  po_write : K -> Z -> list Z -> K;
  po_current_root : K -> Z;
  po_load_cr3 : K -> Z -> K;
  po_clone_user_space : K -> Z -> Z * K;
  po_destroy_address_space : K -> Z -> K;
  po_release_user_display : K -> Z -> K;
  po_timer_ticks : K -> Z;
  po_timer_frequency : K -> Z;
  (** the registers of the running kernel code *)
  po_kernel_context : K -> cpu_context;
  (** the address of [scheduler_thread_bootstrap] *)
  po_bootstrap : Z }.

Section Model.
Context {K : Type} `{VmOps K} `{ProcOps K}.
Implicit Type s : proc K.

Definition set_thread s (i : Z) (t : thread) : proc K := s <| p_threads := (p_threads s).[i <- t] |>.
Definition set_process s (i : Z) (p : process) : proc K := s <| p_processes := (p_processes s).[i <- p] |>.
Definition set_waiter s (i : Z) (w : futex_waiter) : proc K := s <| p_waiters := (p_waiters s).[i <- w] |>.
Definition set_kernel s (k : K) : proc K := s <| p_env := k |>.
Notation thr s i := ((p_threads s).[i]).
Notation prc s i := ((p_processes s).[i]).
Notation slot s i := ((p_waiters s).[i]).

Definition alive (p : process) : bool := m_alive (pr_mm p).
Definition set_alive (p : process) (b : bool) : process := p <| pr_mm := pr_mm p <| m_alive := b |> |>.
Definition root_of (p : process) : Z := m_root (pr_mm p).

Definition process_current s : option Z := match p_current s with Some t => t_owner (thr s t) | None => None end.

(** ** Frames *)

(** [prepare_user_entry_frame]; a thread without kernel stack gets none. *)
Definition prepare_user_entry_frame (t : thread) (entry user_rsp : Z) : thread :=
  if t_kernel_stack_top t =? 0 then t
  else
    t <| t_saved_interrupt_frame := Some (zero_frame.[15 <- entry].[16 <- USER_CS].[17 <- 0x202].[18 <- user_rsp].[19 <- USER_SS]) |>
      <| t_saved_frame_kind := 0 |>.

(** The general registers of a system call in the order of the interrupt wrapper. *)
Definition wrapper_of (f : syscall_frame) (rax : Z) : frame :=
  zero_frame.[0 <- f_r15 f].[1 <- f_r14 f].[2 <- f_r13 f].[3 <- f_r12 f].[4 <- f_r11 f].[5 <- f_r10 f].[6 <- f_r9 f].[7 <- f_r8 f]
    .[8 <- f_rbp f].[9 <- f_rdi f].[10 <- f_rsi f].[11 <- f_rdx f].[12 <- f_rcx f].[13 <- f_rbx f].[14 <- rax]
    .[15 <- f_rip f].[16 <- f_cs f].[17 <- f_rflags f].[18 <- f_rsp f].[19 <- f_ss f].

Definition syscall_of_wrapper (w : frame) : syscall_frame :=
  SysFrame w.[14] w.[13] w.[12] w.[11] w.[10] w.[9] w.[8] w.[7] w.[6] w.[5] w.[4] w.[3] w.[2] w.[1] w.[0]
    w.[15] w.[16] w.[17] w.[18] w.[19].

(** The registers a thread is resumed with: [restore_interrupt_frame] and the
    timer wrapper for kind 0, [restore_syscall_frame_from_kernel] for kind 1. *)
Definition restored (kind : Z) (f : frame) : syscall_frame :=
  if kind =? 1 then SysFrame f.[0] f.[1] f.[2] f.[3] f.[4] f.[5] f.[6] f.[7] f.[8] f.[9] f.[10] f.[11] f.[12] f.[13] f.[14] f.[15] f.[16] f.[17] f.[18] f.[19]
  else syscall_of_wrapper f.

(** The frame [syscall_entry] pushes. *)
Definition raw_of (f : syscall_frame) : frame :=
  zero_frame.[0 <- f_rax f].[1 <- f_rbx f].[2 <- f_rcx f].[3 <- f_rdx f].[4 <- f_rsi f].[5 <- f_rdi f].[6 <- f_rbp f].[7 <- f_r8 f]
    .[8 <- f_r9 f].[9 <- f_r10 f].[10 <- f_r11 f].[11 <- f_r12 f].[12 <- f_r13 f].[13 <- f_r14 f].[14 <- f_r15 f]
    .[15 <- f_rip f].[16 <- f_cs f].[17 <- f_rflags f].[18 <- f_rsp f].[19 <- f_ss f].

Definition prepare_fork_frame_with_stack (t : thread) (parent : syscall_frame) (child_stack : Z) : option thread :=
  if t_kernel_stack_top t =? 0 then None
  else
    let f := (wrapper_of parent 0).[18 <- if negb (child_stack =? 0) then child_stack else f_rsp parent] in
    Some (t <| t_saved_interrupt_frame := Some f |> <| t_saved_frame_kind := 0 |>).

Definition prepare_fork_frame (t : thread) (parent : syscall_frame) : option thread := prepare_fork_frame_with_stack t parent 0.

Definition materialize_context_frame (t : thread) : option thread :=
  let c := t_context t in
  if (c_rip c =? 0) || (c_rsp c =? 0) then None
  else
    let f := zero_frame.[0 <- c_r15 c].[1 <- c_r14 c].[2 <- c_r13 c].[3 <- c_r12 c].[4 <- c_r11 c].[5 <- c_r10 c].[6 <- c_r9 c].[7 <- c_r8 c]
      .[8 <- c_rbp c].[9 <- c_rdi c].[10 <- c_rsi c].[11 <- c_rdx c].[12 <- c_rcx c].[13 <- c_rbx c].[14 <- c_rax c]
      .[15 <- c_rip c].[16 <- KERNEL_CS].[17 <- if negb (c_rflags c =? 0) then c_rflags c else 0x202] in
    Some (t <| t_saved_interrupt_frame := Some f |> <| t_saved_frame_kind := 0 |>).

(** ** User memory *)

(** The rest of the page [address] is in. *)
Definition page_left (address : Z) : Z := NPK_PAGE_SIZE - Z.land address (NPK_PAGE_SIZE - 1).

(** The frame behind a user address for a write: a present writable page, a
    copy-on-write page ([cow]), or a page the areas provide. *)
Definition writable_frame (cow : bool) (k : K) (m : mm) (root address : Z) : Z * K * mm :=
  let flags := Z.lor VM_USER VM_WRITE in
  let physical := vo_lookup_root k root address flags in
  let '(physical, k) :=
    if cow && (physical =? 0) then
      let '(ok, k) := vo_resolve_cow_fault k root address in (if ok : bool then vo_lookup_root k root address flags else physical, k)
    else (physical, k) in
  if physical =? 0 then
    let '(ok, k, m) := vm_ensure_user_page k m address true in
    (if ok : bool then vo_lookup_root k root address flags else 0, k, m)
  else (physical, k, m).

Definition readable_frame (k : K) (m : mm) (root address : Z) : Z * K * mm :=
  let physical := vo_lookup_root k root address VM_USER in
  if physical =? 0 then
    let '(ok, k, m) := vm_ensure_user_page k m address false in
    (if ok : bool then vo_lookup_root k root address VM_USER else 0, k, m)
  else (physical, k, m).

(** The loops copy at least one byte a round. *)
Fixpoint write_user (fuel : nat) (cow : bool) (k : K) (m : mm) (root address : Z) (bytes : list Z) : bool * K * mm :=
  match fuel, bytes with
  | _, [] => (true, k, m)
  | O, _ => (false, k, m)
  | S fuel', _ =>
      let '(physical, k, m) := writable_frame cow k m root address in
      if physical =? 0 then (false, k, m)
      else
        let amount := Z.to_nat (page_left address) in
        write_user fuel' cow (po_write k physical (take amount bytes)) m root (u64 (address + Z.of_nat (length (take amount bytes)))) (drop amount bytes)
  end.

Fixpoint read_user (fuel : nat) (k : K) (m : mm) (root address length : Z) : option (list Z) * K * mm :=
  match fuel with
  | O => (Some [], k, m)
  | S fuel' =>
      if length <=? 0 then (Some [], k, m)
      else
        let '(physical, k, m) := readable_frame k m root address in
        if physical =? 0 then (None, k, m)
        else
          let amount := if length <? page_left address then length else page_left address in
          let bytes := po_read k physical amount in
          let '(rest, k, m) := read_user fuel' k m root (u64 (address + amount)) (length - amount) in
          (match rest with Some l => Some (bytes ++ l) | None => None end, k, m)
  end.

Definition copyout_process s (p : Z) (destination : Z) (bytes : list Z) : bool * proc K :=
  if negb (vmm_is_user_range destination (Z.of_nat (length bytes))) then (false, s)
  else
    let '(ok, k, m) := write_user (length bytes) true (p_env s) (pr_mm (prc s p)) (root_of (prc s p)) destination bytes in
    (ok, set_process (set_kernel s k) p (prc s p <| pr_mm := m |>)).

(** The root the user copies of vmm.c work on. *)
Definition copy_root s : Z :=
  match process_current s with
  | Some p => if negb (root_of (prc s p) =? 0) then root_of (prc s p) else po_current_root (p_env s)
  | None => po_current_root (p_env s)
  end.

(** Without a process no page can be provided: [zero_mm] is not alive. *)
Definition vmm_copyin s (source length : Z) : option (list Z) * proc K :=
  if negb (vmm_is_user_range source length) then (None, s)
  else
    match process_current s with
    | Some p =>
        let '(r, k, m) := read_user (Z.to_nat length) (p_env s) (pr_mm (prc s p)) (copy_root s) source length in
        (r, set_process (set_kernel s k) p (prc s p <| pr_mm := m |>))
    | None => let '(r, k, _) := read_user (Z.to_nat length) (p_env s) zero_mm (copy_root s) source length in (r, set_kernel s k)
    end.

Definition vmm_copyout s (destination : Z) (bytes : list Z) : bool * proc K :=
  if negb (vmm_is_user_range destination (Z.of_nat (length bytes))) then (false, s)
  else
    match process_current s with
    | Some p =>
        let '(ok, k, m) := write_user (length bytes) true (p_env s) (pr_mm (prc s p)) (copy_root s) destination bytes in
        (ok, set_process (set_kernel s k) p (prc s p <| pr_mm := m |>))
    | None => let '(ok, k, _) := write_user (length bytes) true (p_env s) zero_mm (copy_root s) destination bytes in (ok, set_kernel s k)
    end.

(** ** Signals *)

Definition signal_bit (signal : Z) : Z := if (signal >=? 1) && (signal <=? 64) then Z.shiftl 1 (signal - 1) else 0.
Definition signal_uncatchable (signal : Z) : bool := (signal =? 9) || (signal =? 19).
Definition signal_action_handler_valid (a : npk_sigaction) : bool :=
  negb ((sa_handler a =? 0) || (sa_handler a =? 1)) && vmm_is_user_range (sa_handler a) 1 &&
  negb (sa_restorer a =? 0) && vmm_is_user_range (sa_restorer a) 1.

Definition signal_queue_push (t : thread) (info : npk_signal_info) : option thread :=
  if t_signal_queue_count t >=? NPK_SIGNAL_QUEUE_MAX then None
  else Some (t <| t_signal_queue := (t_signal_queue t).[t_signal_queue_tail t <- info] |>
               <| t_signal_queue_tail := (t_signal_queue_tail t + 1) mod NPK_SIGNAL_QUEUE_MAX |>
               <| t_signal_queue_count := t_signal_queue_count t + 1 |>).

Definition queue_index (t : thread) (i : Z) : Z := (t_signal_queue_head t + i) mod NPK_SIGNAL_QUEUE_MAX.

(** The position of the first entry of [signal]. *)
Definition queue_find (t : thread) (signal : Z) : option Z :=
  find_index (fun i => si_signal (t_signal_queue t).[queue_index t i] =? signal) 0 (Z.to_nat (t_signal_queue_count t)).

Definition signal_queue_contains (t : thread) (signal : Z) : bool :=
  match queue_find t signal with Some _ => true | None => false end.

Definition signal_queue_pop (t : thread) (signal : Z) : option (npk_signal_info * thread) :=
  if t_signal_queue_count t =? 0 then None
  else
    match queue_find t signal with
    | None => None
    | Some found =>
        let info := (t_signal_queue t).[queue_index t found] in
        let queue := for_range (fun i q => q.[queue_index t i <- q.[queue_index t (i + 1)]]) found
                       (Z.to_nat (t_signal_queue_count t - 1 - found)) (t_signal_queue t) in
        let count := t_signal_queue_count t - 1 in
        Some (info, t <| t_signal_queue := queue |> <| t_signal_queue_count := count |>
                      <| t_signal_queue_tail := (t_signal_queue_head t + count) mod NPK_SIGNAL_QUEUE_MAX |>)
    end.

(** The bytes of [npk_user_signal_header_t] and of the siginfo_t of the user. *)
Definition signal_header (signal siginfo ucontext : Z) : list Z :=
  le_bytes 8 NPK_SIGNAL_FRAME_MAGIC ++ le_bytes 8 signal ++ le_bytes 8 siginfo ++ le_bytes 8 ucontext.
Definition raw_info (signal : Z) (info : npk_signal_info) : list Z :=
  le_bytes 4 signal ++ replicate 4 0 ++ le_bytes 4 (si_code info) ++ replicate 4 0 ++ le_bytes 4 (si_sender_pid info) ++
  le_bytes 4 (si_sender_uid info) ++ le_bytes 8 (si_value info) ++ replicate 96 0.

(** The frame the handler is entered with. *)
Definition handler_frame (f : frame) (a : npk_sigaction) (signal siginfo ucontext user : Z) : frame :=
  f.[9 <- signal].[10 <- siginfo].[11 <- ucontext].[15 <- sa_handler a].[16 <- USER_CS].[17 <- Z.lor f.[17] 0x200].[18 <- user].[19 <- USER_SS].

(** The thread while the handler runs. *)
Definition enter_handler (t : thread) (f : frame) (a : npk_sigaction) (signal user : Z) : thread :=
  t <| t_signal_saved_frame := f |> <| t_signal_saved_mask := t_signal_blocked t |> <| t_signal_inflight := true |>
    <| t_signal_frame_user := user |> <| t_signal_restorer := sa_restorer a |> <| t_signal_number := signal |>
    <| t_signal_blocked := Z.lor (t_signal_blocked t) (Z.lor (signal_bit signal) (nth 0 (sa_mask a) 0)) |>.

Definition process_deliver_signal_with_info s (f : frame) (signal : Z) (info : option npk_signal_info) : bool * frame * proc K :=
  match p_current s, process_current s with
  | Some t, Some p =>
      if negb (alive (prc s p)) || negb (t_privilege_ring (thr s t) =? 3) || (signal =? 0) || (signal >? NPK_SIGNAL_MAX) ||
         t_signal_inflight (thr s t) then (false, f, s)
      else
        let action := (pr_signal_actions (prc s p)).[signal] in
        if negb (signal_action_handler_valid action) then (false, f, s)
        else
          let use_siginfo := match info with Some _ => hasb (sa_flags action) NPK_SA_SIGINFO | None => false end in
          let frame_size := 40 + if use_siginfo then NPK_USER_SIGINFO_SIZE + NPK_USER_UCONTEXT_SIZE else 0 in
          let old_rsp := f.[18] in
          if (old_rsp <? frame_size) || (old_rsp - frame_size <? NPK_USER_MIN) then (false, f, s)
          else
            let user := Z.land (old_rsp - frame_size) (not64 15) in
            if negb (vmm_is_user_range user frame_size) then (false, f, s)
            else
              let siginfo := if use_siginfo then user + 40 else 0 in
              let ucontext := if use_siginfo then user + 40 + NPK_USER_SIGINFO_SIZE else 0 in
              let '(ok1, s1) := copyout_process s p user (le_bytes 8 (sa_restorer action)) in
              if negb ok1 then (false, f, s1)
              else
                let '(ok2, s2) := copyout_process s1 p (user + 8) (signal_header signal siginfo ucontext) in
                if negb ok2 then (false, f, s2)
                else
                  let '(ok3, s3) :=
                    match info with
                    | Some i =>
                        if use_siginfo then
                          let '(ok, s3) := copyout_process s2 p siginfo (raw_info signal i) in
                          if negb ok then (false, s3) else copyout_process s3 p ucontext (replicate 256 0)
                        else (true, s2)
                    | None => (true, s2)
                    end in
                  if negb ok3 then (false, f, s3)
                  else (true, handler_frame f action signal siginfo ucontext user,
                        set_thread s3 t (enter_handler (thr s3 t) f action signal user))
  | _, _ => (false, f, s)
  end.

Definition process_deliver_signal s (f : frame) (signal : Z) : bool * frame * proc K := process_deliver_signal_with_info s f signal None.

(** The thread when the handler is done. *)
Definition leave_handler (t : thread) : thread :=
  t <| t_signal_blocked := t_signal_saved_mask t |> <| t_signal_saved_mask := 0 |> <| t_signal_inflight := false |>
    <| t_signal_frame_user := 0 |> <| t_signal_restorer := 0 |> <| t_signal_number := 0 |> <| t_signal_saved_frame := zero_frame |>.

Definition process_sigreturn s (f : syscall_frame) : Z * syscall_frame * proc K :=
  match p_current s with
  | None => (u64 (- PROCESS_EINVAL), f, s)
  | Some t =>
      if negb (t_signal_inflight (thr s t)) || negb (f_rsp f =? u64 (t_signal_frame_user (thr s t) + 8)) ||
         negb (vmm_is_user_range (f_rip f) 1) then (u64 (- PROCESS_EINVAL), f, s)
      else
        let '(header, s) := vmm_copyin s (u64 (t_signal_frame_user (thr s t) + 8)) 32 in
        match header with
        | None => (u64 (- PROCESS_EINVAL), f, s)
        | Some bytes =>
            if negb (le_val (take 8 bytes) =? NPK_SIGNAL_FRAME_MAGIC) || negb (le_val (take 8 (drop 8 bytes)) =? t_signal_number (thr s t)) ||
               (f_rip f <? t_signal_restorer (thr s t)) || (f_rip f - t_signal_restorer (thr s t) >? 32) then (u64 (- PROCESS_EINVAL), f, s)
            else
              let f := syscall_of_wrapper (t_signal_saved_frame (thr s t)) in
              (f_rax f, f, set_thread s t (leave_handler (thr s t)))
        end
  end.

(** What became of the pending signals of the running thread. *)
Inductive delivery := NoSignal | Handler (f : frame) | Gone (how : transfer).

(** Taking one occurrence of a pending signal: it stays pending while more are
    queued. *)
Definition take_pending (th : thread) (signal : Z) : option npk_signal_info * thread :=
  let th := th <| t_signal_pending := Z.land (t_signal_pending th) (not64 (signal_bit signal)) |> in
  let '(info, th) := match signal_queue_pop th signal with Some (i, th') => (Some i, th') | None => (None, th) end in
  (info, if signal_queue_contains th signal then th <| t_signal_pending := Z.lor (t_signal_pending th) (signal_bit signal) |> else th).

(** One signal of the loop of [process_deliver_pending_common]; [terminate] is
    [process_terminate_by_signal]. *)
Definition deliver_one (terminate : proc K -> Z -> transfer * proc K) (f : frame) (t p deliverable signal : Z) s : proc K + delivery * proc K :=
  let bit := signal_bit signal in
  if (bit =? 0) || negb (hasb deliverable bit) then inl s
  else
    let action := (pr_signal_actions (prc s p)).[signal] in
    let '(info, th) := take_pending (thr s t) signal in
    let s := set_thread s t th in
    if (sa_handler action =? 1) && negb (signal_uncatchable signal) then inl s
    else if signal_uncatchable signal || (sa_handler action =? 0) then
      let '(how, s) := terminate s signal in inr (Gone how, s)
    else
      let '(ok, f', s) := process_deliver_signal_with_info s f signal info in
      if ok then inr (Handler f', s) else let '(how, s) := terminate s signal in inr (Gone how, s).

Definition deliver_pending (terminate : proc K -> Z -> transfer * proc K) s (f : frame) : delivery * proc K :=
  match p_current s, process_current s with
  | Some t, Some p =>
      if negb (alive (prc s p)) || negb (t_privilege_ring (thr s t) =? 3) || t_signal_inflight (thr s t) then (NoSignal, s)
      else
        let deliverable := Z.land (t_signal_pending (thr s t)) (not64 (t_signal_blocked (thr s t))) in
        match for_break (deliver_one terminate f t p deliverable) 1 (Z.to_nat NPK_SIGNAL_MAX) s with
        | inl s => (NoSignal, s)
        | inr r => r
        end
  | _, _ => (NoSignal, s)
  end.

(** ** Futexes *)

Definition futex_complete_thread s (t result : Z) : proc K :=
  for_range (fun i s =>
    if negb (fw_active (slot s i)) || negb (fw_thread (slot s i) =? t) then s
    else
      let s := set_waiter s i (slot s i <| fw_active := false |>) in
      let th := thr s t <| t_futex_waiting := false |> <| t_futex_result := result |> in
      set_thread s t (if decide (t_state th = THREAD_BLOCKED) then th <| t_state := THREAD_READY |> else th))
    0 (Z.to_nat NPK_FUTEX_MAX_WAITERS) s.

Definition futex_cancel_thread s (t : Z) : proc K := futex_complete_thread s t (- PROCESS_EINTR).

(** The number of threads woken and the state; the count is a uint32_t. *)
Definition futex_wake_internal s (root user_address count : Z) : Z * proc K :=
  for_range (fun i '(woken, s) =>
    if negb (woken <? count) then (woken, s)
    else if negb (fw_active (slot s i)) || negb (fw_root (slot s i) =? root) || negb (fw_user_address (slot s i) =? user_address) then (woken, s)
    else (woken + 1, futex_complete_thread s (fw_thread (slot s i)) 0)) 0 (Z.to_nat NPK_FUTEX_MAX_WAITERS) (0, s).

Definition clear_child_tid s (t : Z) : proc K :=
  match t_owner (thr s t) with
  | None => s
  | Some p =>
      let address := t_clear_child_tid (thr s t) in
      if address =? 0 then s
      else
        let s :=
          if vmm_is_user_range address 4 then
            let '(ok, k, m) := vm_ensure_user_page (p_env s) (pr_mm (prc s p)) address true in
            let s := set_process (set_kernel s k) p (prc s p <| pr_mm := m |>) in
            if ok : bool then
              let '(_, s) := copyout_process s p address (le_bytes 4 0) in
              (futex_wake_internal s (root_of (prc s p)) address UINT32_MAX).2
            else s
          else s in
        set_thread s t (thr s t <| t_clear_child_tid := 0 |>)
  end.

Definition futex_expire_waiters s : proc K :=
  let now := po_timer_ticks (p_env s) in
  for_range (fun i s =>
    if negb (fw_active (slot s i)) || negb (fw_timed (slot s i)) then s
    else if i64 (now - fw_deadline (slot s i)) >=? 0 then futex_complete_thread s (fw_thread (slot s i)) (- PROCESS_ETIMEDOUT)
    else s) 0 (Z.to_nat NPK_FUTEX_MAX_WAITERS) s.

(** A timespec as ticks. *)
Definition timespec_ticks (seconds nanoseconds frequency : Z) : option Z :=
  if (seconds <? 0) || (nanoseconds <? 0) || (nanoseconds >=? 1000000000) then None
  else if seconds >? UINT64_MAX / frequency then None
  else
    let ticks := u64 (seconds * frequency) in
    let fractional := u64 (nanoseconds * frequency) / 1000000000 in
    if ticks >? UINT64_MAX - fractional then None
    else
      let ticks := ticks + fractional in
      Some (if (ticks =? 0) && (negb (seconds =? 0) || negb (nanoseconds =? 0)) then 1 else ticks).

Definition futex_timespec_to_ticks s (user_timeout : Z) : option Z * proc K :=
  if user_timeout =? 0 then (Some 0, s)
  else
    let '(r, s) := vmm_copyin s user_timeout 16 in
    match r with
    | None => (None, s)
    | Some bytes => (timespec_ticks (i64 (le_val (take 8 bytes))) (i64 (le_val (drop 8 bytes))) (po_timer_frequency (p_env s)), s)
    end.

(** [inl]: the call returns a value; [inr]: the processor went to another
    thread. [yield] is [scheduler_yield]. *)
Definition process_futex_wait (yield : proc K -> transfer * proc K) s (user_address expected user_timeout : Z) : (Z + transfer) * proc K :=
  match p_current s, process_current s with
  | Some t, Some p =>
      if negb (t_privilege_ring (thr s t) =? 3) || negb (Z.land user_address 3 =? 0) || negb (vmm_is_user_range user_address 4)
      then (inl (- PROCESS_EFAULT), s)
      else
        let '(ticks, s) := futex_timespec_to_ticks s user_timeout in
        match ticks with
        | None => (inl (- PROCESS_EFAULT), s)
        | Some ticks =>
            let '(observed, s) := vmm_copyin s user_address 4 in
            match observed with
            | None => (inl (- PROCESS_EFAULT), s)
            | Some bytes =>
                if negb (le_val bytes =? expected) then (inl (- PROCESS_EAGAIN), s)
                else if negb (user_timeout =? 0) && (ticks =? 0) then (inl (- PROCESS_ETIMEDOUT), s)
                else
                  match find_index (fun i => negb (fw_active (slot s i))) 0 (Z.to_nat NPK_FUTEX_MAX_WAITERS) with
                  | None => (inl (- PROCESS_ENOMEM), s)
                  | Some i =>
                      let s := set_waiter s i (Waiter true t (root_of (prc s p)) user_address
                        (if negb (ticks =? 0) then u64 (po_timer_ticks (p_env s) + ticks) else 0) (negb (ticks =? 0))) in
                      let s := set_thread s t (thr s t <| t_futex_waiting := true |> <| t_futex_result := - PROCESS_EINTR |> <| t_state := THREAD_BLOCKED |>) in
                      let '(how, s) := yield s in
                      match how with
                      | Returns =>
                          if t_futex_waiting (thr s t) then
                            let s := futex_cancel_thread s t in
                            (inl (- PROCESS_EAGAIN), set_thread s t (thr s t <| t_futex_result := - PROCESS_EAGAIN |> <| t_state := THREAD_RUNNING |>))
                          else
                            (inl (t_futex_result (thr s t)), set_thread s t (thr s t <| t_futex_waiting := false |> <| t_state := THREAD_RUNNING |>))
                      | _ => (inr how, s)
                      end
                  end
            end
        end
  | _, _ => (inl (- PROCESS_EFAULT), s)
  end.

Definition process_futex_wake s (user_address count : Z) : Z * proc K :=
  match p_current s, process_current s with
  | Some t, Some p =>
      if negb (t_privilege_ring (thr s t) =? 3) || negb (Z.land user_address 3 =? 0) || negb (vmm_is_user_range user_address 4)
      then (- PROCESS_EFAULT, s)
      else if count =? 0 then (0, s)
      else futex_wake_internal s (root_of (prc s p)) user_address count
  | _, _ => (- PROCESS_EFAULT, s)
  end.

(** ** Sending signals *)

Definition find_process_by_pid s (pid : Z) : option Z :=
  find_index (fun i => pr_pid (prc s i) =? pid) 1 (Z.to_nat (NPK_MAX_PROCESSES - 1)).

Definition signal_target_process s (pid : Z) : option Z :=
  if pid =? 0 then process_current s else if pid >? 0 then find_process_by_pid s pid else None.

(** A live thread of the process. *)
Definition signal_candidate s (p i : Z) : bool :=
  bool_decide (t_owner (thr s i) = Some p) && negb (bool_decide (t_state (thr s i) = THREAD_UNUSED)) && negb (bool_decide (t_state (thr s i) = THREAD_ZOMBIE)).

Definition select_signal_thread s (p bit : Z) : option Z :=
  match find_index (fun i => signal_candidate s p i && negb (hasb (t_signal_blocked (thr s i)) bit)) 0 (Z.to_nat NPK_MAX_THREADS) with
  | Some i => Some i
  | None => find_index (signal_candidate s p) 0 (Z.to_nat NPK_MAX_THREADS)
  end.

Definition queue_signal_to_thread s (t signal : Z) (info : option npk_signal_info) : Z * proc K :=
  let bit := signal_bit signal in
  if bit =? 0 then (- PROCESS_ESRCH, s)
  else
    match (match info with Some i => signal_queue_push (thr s t) i | None => Some (thr s t) end) with
    | None => (- PROCESS_EAGAIN, s)
    | Some th =>
        let s := set_thread s t (th <| t_signal_pending := Z.lor (t_signal_pending th) bit |>) in
        (0, if t_futex_waiting (thr s t) && (signal_uncatchable signal || negb (hasb (t_signal_blocked (thr s t)) bit))
            then futex_complete_thread s t (- PROCESS_EINTR) else s)
    end.

Definition process_send_signal_info s (pid signal : Z) (info : option npk_signal_info) : Z * proc K :=
  if signal >? NPK_SIGNAL_MAX then (- PROCESS_EINVAL, s)
  else
    match signal_target_process s pid with
    | None => (- PROCESS_ESRCH, s)
    | Some p =>
        if negb (alive (prc s p)) then (- PROCESS_ESRCH, s)
        else if signal =? 0 then (0, s)
        else
          match select_signal_thread s p (signal_bit signal) with
          | None => (- PROCESS_ESRCH, s)
          | Some t => queue_signal_to_thread s t signal info
          end
    end.

Definition process_send_signal s (pid signal : Z) : Z * proc K := process_send_signal_info s pid signal None.

Definition process_send_thread_signal_info s (tgid tid signal : Z) (info : option npk_signal_info) : Z * proc K :=
  if (tgid <=? 0) || (tid <=? 0) || (signal >? NPK_SIGNAL_MAX) then (- PROCESS_EINVAL, s)
  else
    match find_process_by_pid s tgid with
    | None => (- PROCESS_ESRCH, s)
    | Some p =>
        if negb (alive (prc s p)) then (- PROCESS_ESRCH, s)
        else
          match find_index (fun i => (t_tid (thr s i) =? tid) && bool_decide (t_owner (thr s i) = Some p) &&
                                     negb (bool_decide (t_state (thr s i) = THREAD_UNUSED))) 0 (Z.to_nat NPK_MAX_THREADS) with
          | None => (- PROCESS_ESRCH, s)
          | Some t => if signal =? 0 then (0, s) else queue_signal_to_thread s t signal info
          end
    end.

Definition process_send_thread_signal s (tgid tid signal : Z) : Z * proc K := process_send_thread_signal_info s tgid tid signal None.

Definition process_get_signal_mask s : Z := match p_current s with Some t => t_signal_blocked (thr s t) | None => 0 end.

Definition process_set_signal_mask s (mask : Z) : proc K :=
  match p_current s with
  | None => s
  | Some t => set_thread s t (thr s t <| t_signal_blocked := Z.land (Z.land mask (not64 (signal_bit 9))) (not64 (signal_bit 19)) |>)
  end.

(** ** Releasing what a process holds *)

Definition close_handle s (handle : Z) : proc K := set_kernel s (vo_vfs_close (p_env s) handle).

Definition discard_incoming_fd_transfers s (p : Z) : proc K :=
  let s := for_range (fun i s => let handle := ((pr_incoming (prc s p)).[i]).1 in if handle >=? 0 then close_handle s handle else s)
             0 (Z.to_nat (pr_incoming_fd_count (prc s p))) s in
  set_process s p (prc s p <| pr_incoming := afill (0, 0) |> <| pr_incoming_fd_count := 0 |>).

Definition close_process_fds s (p : Z) : proc K :=
  for_range (fun i s =>
    let handle := (pr_fds (prc s p)).[i] in
    if handle >=? 0 then
      let s := close_handle s handle in set_process s p (prc s p <| pr_fds := (pr_fds (prc s p)).[i <- -1] |>)
    else s) 0 (Z.to_nat NPK_MAX_FDS) s.

(** [destroy_process_memory] on the fields it works on. *)
Definition destroy_memory (kernel_root : Z) (k : K) (m : mm) : K * mm :=
  let root := m_root m in
  let '(k, m) := vm_destroy_all k m in
  if root =? 0 then (k, m)
  else
    let k := if (root =? po_current_root k) && (negb (kernel_root =? 0) && negb (kernel_root =? root)) then po_load_cr3 k kernel_root else k in
    let k := if negb (root =? kernel_root) && negb (root =? po_current_root k) then po_destroy_address_space k root else k in
    (k, m <| m_root := 0 |>).

Definition destroy_process_memory s (p : Z) : proc K :=
  let '(k, m) := destroy_memory (p_kernel_root s) (p_env s) (pr_mm (prc s p)) in
  set_process (set_kernel s k) p (prc s p <| pr_mm := m |>).

(** The threads of the process and their kernel stacks. *)
Definition reap_threads s (p : Z) : proc K :=
  for_range (fun i s =>
    if negb (bool_decide (t_owner (thr s i) = Some p)) then s
    else
      let s := if negb (bool_decide (p_current s = Some i)) && negb (t_kernel_stack (thr s i) =? 0)
               then set_kernel s (vo_kfree (p_env s) (t_kernel_stack (thr s i))) else s in
      set_thread s i zero_thread) 1 (Z.to_nat (NPK_MAX_THREADS - 1)) s.

(** The kernel process is processes[0]. *)
Definition reap_process s (p : Z) : proc K :=
  if (p =? 0) || alive (prc s p) || (pr_pid (prc s p) =? 0) then s
  else if match p_current s with Some t => bool_decide (t_owner (thr s t) = Some p) | None => false end then s
  else
    let s := destroy_process_memory s p in
    let s := close_process_fds s p in
    let s := reap_threads s p in
    set_process s p zero_process.

Definition process_reap_pending s : proc K :=
  match process_current s with
  | None => s
  | Some parent =>
      let pid := pr_pending_reap_pid (prc s parent) in
      if pid =? 0 then s
      else
        let s := set_process s parent (prc s parent <| pr_pending_reap_pid := 0 |>) in
        match find_process_by_pid s pid with
        | Some child => if (pr_parent_pid (prc s child) =? pr_pid (prc s parent)) && negb (alive (prc s child)) then reap_process s child else s
        | None => s
        end
  end.

Definition wait_target_matches (target_pid : Z) (child : process) : bool :=
  (target_pid =? -1) || ((target_pid >? 0) && (target_pid =? pr_pid child)).

(** [exit_status << 8] as the user sees it. *)
Definition wait_status (child : process) : list Z := le_bytes 4 (pr_exit_status child * 256).

Definition wake_parent_waiter s (child : Z) : proc K :=
  if pr_parent_pid (prc s child) =? 0 then s
  else
    match find_process_by_pid s (pr_parent_pid (prc s child)) with
    | None => s
    | Some parent =>
        if negb (alive (prc s parent)) || negb (pr_wait_active (prc s parent)) ||
           negb (wait_target_matches (pr_wait_target (prc s parent)) (prc s child)) then s
        else
          let '(status_ok, s) :=
            if pr_wait_status_user (prc s parent) =? 0 then (true, s)
            else copyout_process s parent (pr_wait_status_user (prc s parent)) (wait_status (prc s child)) in
          match find_index (fun i => bool_decide (t_owner (thr s i) = Some parent) && bool_decide (t_state (thr s i) = THREAD_BLOCKED))
                  0 (Z.to_nat NPK_MAX_THREADS) with
          | None => s
          | Some w =>
              let result := if status_ok : bool then pr_pid (prc s child) else - PROCESS_EFAULT in
              let q := prc s parent <| pr_wait_active := false |> <| pr_wait_result := result |> <| pr_wait_woken := true |> in
              let s := set_process s parent (if status_ok then q <| pr_pending_reap_pid := pr_pid (prc s child) |> else q) in
              let th := thr s w <| t_state := THREAD_READY |> in
              set_thread s w (match t_saved_interrupt_frame th with
                              | Some f => th <| t_saved_interrupt_frame := Some (f.[0 <- u64 result]) |>
                              | None => th
                              end)
          end
    end.

Definition allocate_thread s : option Z * proc K :=
  match find_index (fun i => bool_decide (t_state (thr s i) = THREAD_UNUSED)) 1 (Z.to_nat (NPK_MAX_THREADS - 1)) with
  | None => (None, s)
  | Some i =>
      (Some i, set_thread (s <| p_next_tid := u64 (p_next_tid s + 1) |>) i (zero_thread <| t_tid := p_next_tid s |> <| t_state := THREAD_READY |>))
  end.

(** ** Exit *)

(** What a dead process still holds is released and its parent is told. *)
Definition release_held s (p : Z) : proc K :=
  let s := set_kernel s (po_release_user_display (p_env s) (pr_pid (prc s p))) in
  let '(k, m) := vm_revoke_device_mappings (p_env s) (pr_mm (prc s p)) in
  let s := set_process (set_kernel s k) p (prc s p <| pr_mm := m |>) in
  let s := destroy_process_memory s p in
  let s := close_process_fds s p in
  let s := discard_incoming_fd_transfers s p in
  wake_parent_waiter s p.

(** The end of the last thread. *)
Definition release_process s (p status : Z) : proc K :=
  release_held (set_process s p (set_alive (prc s p <| pr_exit_status := status |>) false)) p.

(** The running thread, unless it is the boot thread or of a dead process. *)
Definition running_owner s : option (Z * Z) :=
  match p_current s with
  | None => None
  | Some t =>
      if t =? 0 then None
      else match t_owner (thr s t) with
           | Some p => if alive (prc s p) then Some (t, p) else None
           | None => None
           end
  end.

(** One thread ends. *)
Definition end_thread s (i status : Z) : proc K :=
  let s := clear_child_tid s i in
  let s := futex_cancel_thread s i in
  set_thread s i (thr s i <| t_thread_exit_status := status |> <| t_state := THREAD_ZOMBIE |>).

(** All threads of the process end. *)
Definition end_threads s (p status : Z) : proc K :=
  for_range (fun i s =>
    if negb (bool_decide (t_owner (thr s i) = Some p)) || bool_decide (t_state (thr s i) = THREAD_UNUSED) then s
    else end_thread s i status) 1 (Z.to_nat (NPK_MAX_THREADS - 1)) s.

Definition process_exit_current s (status : Z) : proc K :=
  match running_owner s with
  | None => s
  | Some (_, p) =>
      let s := set_process s p (prc s p <| pr_group_exiting := true |>) in
      let s := end_threads s p status in
      let s := set_process s p (prc s p <| pr_thread_count := 0 |>) in
      release_process s p status
  end.

(** The choice of a new leader when the main thread has ended. *)
Definition elect_leader s (p t : Z) : proc K :=
  if bool_decide (pr_main_thread (prc s p) = Some t) then
    match find_index (signal_candidate s p) 1 (Z.to_nat (NPK_MAX_THREADS - 1)) with
    | None => set_process s p (prc s p <| pr_main_thread := None |>)
    | Some c => set_process (set_thread s c (thr s c <| t_group_leader := true |>)) p (prc s p <| pr_main_thread := Some c |>)
    end
  else s.

Definition process_exit_thread_current s (status : Z) : proc K :=
  match running_owner s with
  | None => s
  | Some (t, p) =>
      if pr_group_exiting (prc s p) then s
      else
        let s := end_thread s t status in
        let s := if pr_thread_count (prc s p) >? 0 then set_process s p (prc s p <| pr_thread_count := pr_thread_count (prc s p) - 1 |>) else s in
        let s := elect_leader s p t in
        if pr_thread_count (prc s p) =? 0 then
          release_process (set_process s p (prc s p <| pr_group_exiting := true |>)) p status
        else s
  end.

Definition process_set_tid_address s (address : Z) : Z * proc K :=
  match p_current s with
  | Some t =>
      match t_owner (thr s t) with
      | Some _ =>
          if negb (t_privilege_ring (thr s t) =? 3) then (- PROCESS_EPERM, s)
          else if negb (address =? 0) && negb (vmm_is_user_range address 4) then (- PROCESS_EFAULT, s)
          else (t_tid (thr s t), set_thread s t (thr s t <| t_clear_child_tid := address |>))
      | None => (- PROCESS_EPERM, s)
      end
  | None => (- PROCESS_EPERM, s)
  end.

(** ** The scheduler *)

(** Loading a thread into the processor. *)
Definition load_thread s (t p root : Z) : proc K :=
  let s := if negb (root =? 0) && negb (root =? po_current_root (p_env s)) then set_kernel s (po_load_cr3 (p_env s) root) else s in
  let th := thr s t in
  s <| p_fs := if t_privilege_ring th =? 3 then t_fs_base th else 0 |> <| p_gs := if t_privilege_ring th =? 3 then t_gs_base th else 0 |>
    <| p_syscall_process := Some p |>.

Definition activate_thread s (t : Z) : proc K :=
  match t_owner (thr s t) with
  | None => s
  | Some p =>
      let s := set_thread (s <| p_current := Some t |>) t (thr s t <| t_state := THREAD_RUNNING |>) in
      let s := load_thread s t p (c_cr3 (t_context (thr s t))) in
      if negb (t_kernel_stack_top (thr s t) =? 0) then s <| p_rsp0 := t_kernel_stack_top (thr s t) |> else s
  end.

Definition process_activate s (p : Z) : proc K :=
  match pr_main_thread (prc s p) with
  | Some t =>
      if negb (alive (prc s p)) then s
      else
        let s := set_thread (s <| p_current := Some t |>) t (thr s t <| t_state := THREAD_RUNNING |>) in
        load_thread s t p (root_of (prc s p)) <| p_rsp0 := t_kernel_stack_top (thr s t) |>
  | None => s
  end.

(** READY, and of a live process. *)
Definition runnable s (i : Z) : bool :=
  bool_decide (t_state (thr s i) = THREAD_READY) && match t_owner (thr s i) with Some p => alive (prc s p) | None => false end.

Definition find_next_runnable s (from : option Z) (allow_idle : bool) : option Z :=
  let start := match from with Some t => t | None => 0 end in
  first_some (fun offset =>
    let index := (start + offset) mod NPK_MAX_THREADS in
    if (index =? 0) && negb (bool_decide (from = Some index)) then None
    else if negb allow_idle && bool_decide (p_idle s = Some index) then None
    else if runnable s index then Some index else None) 1 (Z.to_nat NPK_MAX_THREADS).

Definition next_non_idle_runnable s (from : option Z) : option Z := find_next_runnable s from false.
Definition next_runnable s (from : option Z) : option Z :=
  match find_next_runnable s from false with Some t => Some t | None => find_next_runnable s from true end.

Definition isSome {A} (o : option A) : bool := match o with Some _ => true | None => false end.

Definition scheduler_tick s : proc K :=
  let s := futex_expire_waiters (s <| p_scheduler_ticks := u64 (p_scheduler_ticks s + 1) |>) in
  match p_current s with
  | None => s
  | Some t =>
      let s := set_thread s t (thr s t <| t_state := THREAD_RUNNING |>) in
      s <| p_reschedule_pending := isSome (next_non_idle_runnable s (Some t)) |>
  end.

(** A thread without a saved frame gets one from its context. *)
Definition frame_for s (t : Z) : proc K :=
  match t_saved_interrupt_frame (thr s t) with
  | Some _ => s
  | None => match materialize_context_frame (thr s t) with Some th => set_thread s t th | None => s end
  end.

(** The pending signals of the thread about to be resumed in user mode, on the
    frame it is resumed with. *)
Definition deliver_on_resume (terminate : proc K -> Z -> transfer * proc K) s (t : Z) : option transfer * proc K :=
  match t_saved_interrupt_frame (thr s t) with
  | Some f =>
      if (t_saved_frame_kind (thr s t) =? 0) && (Z.land f.[16] 3 =? 3) then
        match deliver_pending terminate s f with
        | (Handler f', s) => (None, set_thread s t (thr s t <| t_saved_interrupt_frame := Some f' |>))
        | (NoSignal, s) => (None, s)
        | (Gone how, s) => (Some how, s)
        end
      else (None, s)
  | None => (None, s)
  end.

(** [process_terminate_by_signal]: the thread never continues. *)
Definition process_terminate_by_signal (yield : proc K -> transfer * proc K) s (signal : Z) : transfer * proc K :=
  match running_owner s with
  | None => (Halted, s)
  | Some _ =>
      let s := process_exit_current s (if 128 + signal >? 255 then 255 else 128 + signal) in
      let '(how, s) := yield s in
      (match how with Returns => Halted | _ => how end, s)
  end.

(** What [context_switch] stores of the registers of the running code. *)
Definition save_context (c regs : cpu_context) : cpu_context :=
  c <| c_rip := c_rip regs |> <| c_rsp := c_rsp regs |> <| c_rflags := c_rflags regs |> <| c_rbx := c_rbx regs |> <| c_rbp := c_rbp regs |>
    <| c_r12 := c_r12 regs |> <| c_r13 := c_r13 regs |> <| c_r14 := c_r14 regs |> <| c_r15 := c_r15 regs |>.

(** One level of [scheduler_yield] for each nested call through
    [process_terminate_by_signal]; [stuck] answers when the levels run out. *)
Fixpoint yield_within (stuck : proc K -> transfer * proc K) (fuel : nat) s : transfer * proc K :=
  match fuel with
  | O => stuck s
  | S fuel' =>
      match p_current s with
      | None => (Returns, s <| p_reschedule_pending := false |>)
      | Some old =>
          match next_runnable s (Some old) with
          | None => (Returns, s <| p_reschedule_pending := false |>)
          | Some next =>
              if next =? old then (Returns, s <| p_reschedule_pending := false |>)
              else
                let th := thr s old in
                let th' := if bool_decide (t_state th = THREAD_RUNNING) then th <| t_state := THREAD_READY |> else th in
                let th' := if bool_decide (t_state th = THREAD_BLOCKED) then th' else th' <| t_saved_interrupt_frame := None |> in
                let s := activate_thread (set_thread s old th') next <| p_reschedule_pending := false |> in
                let switch s := (Switched next, set_thread s old (thr s old <| t_context := save_context (t_context (thr s old)) (po_kernel_context (p_env s)) |>)) in
                if t_privilege_ring (thr s next) =? 0 then switch s
                else
                  let s := frame_for s next in
                  match deliver_on_resume (process_terminate_by_signal (yield_within stuck fuel')) s next with
                  | (Some how, s) => (how, s)
                  | (None, s) =>
                      match t_saved_interrupt_frame (thr s next) with
                      | Some f =>
                          if t_privilege_ring (thr s next) =? 3 then (Resumed next (t_saved_frame_kind (thr s next)) f, s)
                          else (Resumed next 0 f, s)
                      | None => switch s
                      end
                  end
          end
      end
  end.

(** Every nested call has ended one more process: [NPK_MAX_PROCESSES] + 1
    levels are enough. *)
Definition YIELD_FUEL : nat := 129.
Definition scheduler_yield s : transfer * proc K := yield_within (pair Halted) YIELD_FUEL s.
Definition terminate_by_signal s (signal : Z) : transfer * proc K := process_terminate_by_signal scheduler_yield s signal.

Definition process_deliver_pending_signal s (f : frame) : delivery * proc K := deliver_pending terminate_by_signal s f.

Definition process_deliver_pending_signal_syscall s (f : syscall_frame) : delivery * syscall_frame * proc K :=
  match deliver_pending terminate_by_signal s (wrapper_of f (f_rax f)) with
  | (Handler w, s) => (Handler w, syscall_of_wrapper w, s)
  | (d, s) => (d, f, s)
  end.

(** The frame the interrupt wrapper restores, as an interrupt frame. *)
Definition scheduler_preempt s (f : frame) : transfer * proc K :=
  match p_current s with
  | None => (Resumed 0 0 f, s)
  | Some t =>
      let s := futex_expire_waiters (s <| p_scheduler_ticks := u64 (p_scheduler_ticks s + 1) |>) in
      if negb (Z.land f.[16] 3 =? 3) then
        (Resumed t 0 f, s <| p_reschedule_pending := isSome (next_non_idle_runnable s (Some t)) |>)
      else
        let s := set_thread s t (thr s t <| t_saved_interrupt_frame := Some f |> <| t_saved_frame_kind := 0 |> <| t_state := THREAD_RUNNING |>) in
        match next_non_idle_runnable s (Some t) with
        | None => (Resumed t 0 f, s <| p_reschedule_pending := false |>)
        | Some next =>
            let s := set_thread s t (thr s t <| t_state := THREAD_READY |>) in
            let s := activate_thread s next <| p_reschedule_pending := false |> in
            let s := frame_for s next in
            match deliver_on_resume terminate_by_signal s next with
            | (Some how, s) => (how, s)
            | (None, s) => (Resumed next 0 (default f (t_saved_interrupt_frame (thr s next))), s)
            end
        end
  end.

Definition scheduler_wake_thread s (t : Z) : proc K :=
  if decide (t_state (thr s t) = THREAD_BLOCKED) then
    set_thread s t (thr s t <| t_state := THREAD_READY |>) <| p_reschedule_pending := true |>
  else s.

Definition scheduler_create_kernel_thread s (entry argument : Z) : option Z * proc K :=
  if entry =? 0 then (None, s)
  else
    let '(i, s) := allocate_thread s in
    match i with
    | None => (None, s)
    | Some i =>
        let '(stack, k) := vo_kmalloc (p_env s) NPK_KERNEL_STACK_SIZE in
        let s := set_kernel s k in
        if stack =? 0 then (None, set_thread s i zero_thread)
        else
          let top := Z.land (stack + NPK_KERNEL_STACK_SIZE) (not64 15) in
          (Some i, set_thread s i (thr s i <| t_kernel_stack := stack |> <| t_kernel_stack_top := top |> <| t_privilege_ring := 0 |>
            <| t_state := THREAD_READY |> <| t_owner := Some 0 |> <| t_entry := entry |> <| t_argument := argument |>
            <| t_context := zero_context <| c_rip := po_bootstrap |> <| c_rsp := top - 16 |> <| c_rflags := 0x202 |>
                              <| c_cr3 := po_current_root (p_env s) |> |>))
    end.

(** ** Creation *)

Definition std_fds : arr Z := (afill (-1)).[0 <- 0].[1 <- 1].[2 <- 2].

(** The static variables once the kernel process and the boot thread are in place. *)
Definition boot_state (k : K) : proc K :=
  let kernel := zero_process <| pr_pid := 1 |> <| pr_thread_count := 1 |> <| pr_cwd := [47] |> <| pr_fds := std_fds |> <| pr_main_thread := Some 0 |> in
  let boot := zero_thread <| t_tid := 1 |> <| t_state := THREAD_RUNNING |> <| t_owner := Some 0 |> <| t_group_leader := true |> in
  Proc ((afill zero_process).[0 <- set_alive kernel true]) ((afill zero_thread).[0 <- boot]) 2 2 (Some 0) None 0 false
    (po_current_root k) (afill zero_waiter) 0 0 0 (Some 0) k.

Definition process_init (k : K) (idle_entry : Z) : option (proc K) :=
  let '(idle, s) := scheduler_create_kernel_thread (boot_state k) idle_entry 0 in
  match idle with
  | None => None
  | Some i => Some (s <| p_idle := Some i |>)
  end.

(** What [scheduler_thread_bootstrap] does when the entry of a kernel thread has returned. *)
Definition scheduler_thread_end s : transfer * proc K :=
  scheduler_yield match p_current s with Some t => set_thread s t (thr s t <| t_state := THREAD_ZOMBIE |>) | None => s end.

Definition kernel_stack_top_of (stack : Z) : Z := Z.land (u64 (stack + NPK_KERNEL_STACK_SIZE)) (not64 15).

Definition process_create_user s (root entry stack_top : Z) : option Z * proc K :=
  if (root =? 0) || negb (vmm_is_user_range entry 1) || (stack_top <? NPK_PAGE_SIZE) ||
     negb (vmm_is_user_range (stack_top - NPK_PAGE_SIZE) NPK_PAGE_SIZE) then (None, s)
  else
    match find_index (fun i => negb (alive (prc s i))) 1 (Z.to_nat (NPK_MAX_PROCESSES - 1)) with
    | None => (None, s)
    | Some i =>
        let '(t, s) := allocate_thread s in
        match t with
        | None => (None, s)
        | Some t =>
            let m := zero_mm <| m_alive := true |> <| m_root := root |> <| m_stack_top := NPK_USER_STACK_TOP |>
                       <| m_stack_limit := NPK_USER_STACK_TOP - NPK_USER_STACK_PAGES * NPK_PAGE_SIZE |>
                       <| m_stack_bottom := Z.land stack_top (not64 (NPK_PAGE_SIZE - 1)) |> in
            let p := zero_process <| pr_fds := std_fds |> <| pr_pid := p_next_pid s |> <| pr_thread_count := 1 |> <| pr_cwd := [47] |>
                       <| pr_mm := m |> <| pr_main_thread := Some t |> in
            let s := set_process (s <| p_next_pid := u64 (p_next_pid s + 1) |>) i p in
            let '(stack, k) := vo_kmalloc (p_env s) NPK_KERNEL_STACK_SIZE in
            let s := set_kernel s k in
            let th := thr s t <| t_group_leader := true |> <| t_privilege_ring := 3 |> <| t_owner := Some i |>
                        <| t_context := zero_context <| c_rip := entry |> <| c_rsp := stack_top |> <| c_rflags := 0x202 |> <| c_cr3 := root |> |>
                        <| t_user_stack_top := NPK_USER_STACK_TOP |> <| t_kernel_stack := stack |> in
            if stack =? 0 then (None, set_process (set_thread s t (th <| t_state := THREAD_ZOMBIE |>)) i (set_alive p false))
            else (Some i, set_thread s t (prepare_user_entry_frame (th <| t_kernel_stack_top := kernel_stack_top_of stack |>) entry stack_top))
        end
    end.

(** The loop that retains the descriptors of the child; [None] is success, a
    failure reports the index. *)
Definition retain_fds s (p : Z) : option Z * proc K :=
  match for_break (fun i s =>
          let handle := (pr_fds (prc s p)).[i] in
          if handle <? 0 then inl s
          else
            let '(rc, k) := vo_vfs_retain (p_env s) handle in
            if rc =? 0 then inl (set_kernel s k) else inr (i, set_kernel s k)) 0 (Z.to_nat NPK_MAX_FDS) s with
  | inl s => (None, s)
  | inr (i, s) => (Some i, s)
  end.

(** Giving the first [n] descriptors of the child back. *)
Definition unretain_fds s (p n : Z) : proc K :=
  for_range (fun j s => let handle := (pr_fds (prc s p)).[j] in if handle >=? 0 then close_handle s handle else s) 0 (Z.to_nat n) s.

(** The slots of a child that could not be completed are cleared. *)
Definition drop_child s (p t root : Z) : proc K :=
  set_thread (set_process (set_kernel s (po_destroy_address_space (p_env s) root)) p zero_process) t zero_thread.

Definition fork_child (parent : process) (pid root : Z) : process :=
  parent <| pr_pid := pid |> <| pr_parent_pid := pr_pid parent |> <| pr_thread_count := 1 |> <| pr_exit_status := 0 |> <| pr_group_exiting := false |>
    <| pr_wait_active := false |> <| pr_wait_target := 0 |> <| pr_wait_status_user := 0 |> <| pr_wait_options := 0 |> <| pr_wait_result := 0 |>
    <| pr_pending_reap_pid := 0 |> <| pr_wait_woken := false |> <| pr_incoming := afill (0, 0) |> <| pr_incoming_fd_count := 0 |>
    <| pr_main_thread := None |> <| pr_mm := pr_mm parent <| m_alive := true |> <| m_root := root |> <| m_vmas := [] |> |>.

Definition fork_thread (th : thread) (main : option thread) (child : Z) (f : syscall_frame) (root user_stack_top stack : Z) : thread :=
  th <| t_privilege_ring := 3 |> <| t_group_leader := true |> <| t_owner := Some child |>
     <| t_context := zero_context <| c_rip := f_rip f |> <| c_rsp := f_rsp f |> <| c_rflags := f_rflags f |> <| c_cr3 := root |> |>
     <| t_fs_base := match main with Some m => t_fs_base m | None => 0 end |> <| t_gs_base := match main with Some m => t_gs_base m | None => 0 end |>
     <| t_signal_blocked := match main with Some m => t_signal_blocked m | None => 0 end |>
     <| t_user_stack_top := user_stack_top |> <| t_kernel_stack := stack |> <| t_kernel_stack_top := kernel_stack_top_of stack |>.

Definition process_fork s (f : syscall_frame) : Z * proc K :=
  match p_current s, process_current s with
  | Some cur, Some parent =>
      if negb (alive (prc s parent)) || negb (t_privilege_ring (thr s cur) =? 3) then (-22, s)
      else
        match find_index (fun i => pr_pid (prc s i) =? 0) 1 (Z.to_nat (NPK_MAX_PROCESSES - 1)) with
        | None => (-11, s)
        | Some child =>
            let '(root, k) := po_clone_user_space (p_env s) (root_of (prc s parent)) in
            let s := set_kernel s k in
            if root =? 0 then (-12, s)
            else
              let '(t, s) := allocate_thread s in
              match t with
              | None => (-11, set_kernel s (po_destroy_address_space (p_env s) root))
              | Some t =>
                  let s := set_process (s <| p_next_pid := u64 (p_next_pid s + 1) |>) child (fork_child (prc s parent) (p_next_pid s) root) in
                  match retain_fds s child with
                  | (Some i, s) => (-24, drop_child (unretain_fds s child i) child t root)
                  | (None, s) =>
                      let '(ok, k, m) := vm_clone_metadata (p_env s) (pr_mm (prc s parent)) (pr_mm (prc s child)) in
                      let s := set_process (set_kernel s k) child (prc s child <| pr_mm := m |>) in
                      if negb ok then (-12, drop_child (unretain_fds s child NPK_MAX_FDS) child t root)
                      else
                        let '(stack, k) := vo_kmalloc (p_env s) NPK_KERNEL_STACK_SIZE in
                        let s := set_process (set_kernel s k) child (prc s child <| pr_main_thread := Some t |>) in
                        let main := match pr_main_thread (prc s parent) with Some m => Some (thr s m) | None => None end in
                        let th := fork_thread (thr s t) main child f root (m_stack_top (pr_mm (prc s child))) stack in
                        let fail s := (-12, let '(k, _) := vm_destroy_all (p_env s) (pr_mm (prc s child)) in drop_child (set_kernel s k) child t root) in
                        if stack =? 0 then fail s
                        else
                          match prepare_fork_frame th f with
                          | None => fail (set_kernel s (vo_kfree (p_env s) stack))
                          | Some th => (pr_pid (prc s child), set_thread s t th)
                          end
                  end
              end
        end
  | _, _ => (-22, s)
  end.

(** The checks of [process_clone] that come before any change: 0 or an error. *)
Definition clone_check (flags child_stack parent_tid tls child_tid : Z) : Z :=
  if negb (Z.land flags NPK_CLONE_THREAD_FLAGS =? NPK_CLONE_THREAD_FLAGS) ||
     hasb flags (not64 (Z.lor NPK_CLONE_THREAD_FLAGS NPK_CLONE_OPTIONAL_FLAGS)) then - PROCESS_ENOSYS
  else if (child_stack =? 0) || negb (Z.land child_stack 15 =? 0) || (child_stack <? NPK_PAGE_SIZE) || negb (vmm_is_user_range (child_stack - 16) 16)
  then - PROCESS_EFAULT
  else if hasb flags NPK_CLONE_PARENT_SETTID && ((parent_tid =? 0) || negb (vmm_is_user_range parent_tid 4)) then - PROCESS_EFAULT
  else if hasb flags (Z.lor NPK_CLONE_CHILD_SETTID NPK_CLONE_CHILD_CLEARTID) && ((child_tid =? 0) || negb (vmm_is_user_range child_tid 4))
  then - PROCESS_EFAULT
  else if hasb flags NPK_CLONE_SETTLS && negb (tls =? 0) && negb (vmm_is_user_range tls 1) then - PROCESS_EFAULT
  else 0.

Definition clone_thread (th parent : thread) (p root : Z) (f : syscall_frame) (flags child_stack tls stack : Z) : thread :=
  th <| t_clone_thread := true |> <| t_group_leader := false |> <| t_owner := Some p |> <| t_privilege_ring := 3 |> <| t_user_stack_top := child_stack |>
     <| t_context := zero_context <| c_cr3 := root |> <| c_rip := f_rip f |> <| c_rsp := child_stack |> <| c_rflags := f_rflags f |> |>
     <| t_fs_base := if hasb flags NPK_CLONE_SETTLS then tls else t_fs_base parent |> <| t_gs_base := t_gs_base parent |>
     <| t_signal_blocked := t_signal_blocked parent |> <| t_kernel_stack := stack |> <| t_kernel_stack_top := kernel_stack_top_of stack |>.

Definition process_clone s (flags child_stack parent_tid tls child_tid : Z) (f : syscall_frame) : Z * proc K :=
  match p_current s, process_current s with
  | Some cur, Some p =>
      if negb (alive (prc s p)) || negb (t_privilege_ring (thr s cur) =? 3) then (- PROCESS_EPERM, s)
      else
        let check := clone_check flags child_stack parent_tid tls child_tid in
        if negb (check =? 0) then (check, s)
        else
          let '(ok, k, m) := vm_ensure_user_page (p_env s) (pr_mm (prc s p)) (child_stack - 1) true in
          let s := set_process (set_kernel s k) p (prc s p <| pr_mm := m |>) in
          if negb ok then (- PROCESS_EFAULT, s)
          else
            let '(t, s) := allocate_thread s in
            match t with
            | None => (- PROCESS_EAGAIN, s)
            | Some t =>
                let '(stack, k) := vo_kmalloc (p_env s) NPK_KERNEL_STACK_SIZE in
                let s := set_kernel s k in
                if stack =? 0 then (- PROCESS_ENOMEM, set_thread s t zero_thread)
                else
                  let th := clone_thread (thr s t) (thr s cur) p (root_of (prc s p)) f flags child_stack tls stack in
                  let drop s := set_thread (set_kernel s (vo_kfree (p_env s) stack)) t zero_thread in
                  match prepare_fork_frame_with_stack th f child_stack with
                  | None => (- PROCESS_ENOMEM, drop s)
                  | Some th =>
                      let th := if hasb flags NPK_CLONE_CHILD_CLEARTID then th <| t_clear_child_tid := child_tid |> else th in
                      let s := set_thread s t th in
                      let '(ok1, s) := if hasb flags NPK_CLONE_PARENT_SETTID then copyout_process s p parent_tid (le_bytes 4 (t_tid th)) else (true, s) in
                      if negb ok1 then (- PROCESS_EFAULT, drop s)
                      else
                        let '(ok2, s) := if hasb flags NPK_CLONE_CHILD_SETTID then copyout_process s p child_tid (le_bytes 4 (t_tid th)) else (true, s) in
                        if negb ok2 then (- PROCESS_EFAULT, drop s)
                        else if pr_thread_count (prc s p) =? UINT32_MAX then (- PROCESS_EAGAIN, drop (clear_child_tid s t))
                        else (t_tid th, set_process s p (prc s p <| pr_thread_count := pr_thread_count (prc s p) + 1 |>))
                  end
            end
  | _, _ => (- PROCESS_EPERM, s)
  end.

(** ** Waiting for children *)

(** A child of the parent that the target selects. *)
Definition waitable s (parent target i : Z) : bool :=
  negb (pr_pid (prc s i) =? 0) && (pr_parent_pid (prc s i) =? pr_pid (prc s parent)) && wait_target_matches target (prc s i).

Definition process_wait4 s (target_pid user_status options : Z) : (Z + transfer) * proc K :=
  match p_current s, process_current s with
  | Some t, Some parent =>
      if negb (alive (prc s parent)) || negb (t_privilege_ring (thr s t) =? 3) then (inl (- PROCESS_EFAULT), s)
      else if (target_pid =? 0) || (target_pid <? -1) || hasb options (not64 PROCESS_WNOHANG) then (inl (- PROCESS_EINVAL), s)
      else if negb (user_status =? 0) && negb (vmm_is_user_range user_status 4) then (inl (- PROCESS_EFAULT), s)
      else
        match find_index (fun i => waitable s parent target_pid i && negb (alive (prc s i))) 1 (Z.to_nat (NPK_MAX_PROCESSES - 1)) with
        | Some child =>
            let '(ok, s) := if user_status =? 0 then (true, s) else vmm_copyout s user_status (wait_status (prc s child)) in
            if negb ok then (inl (- PROCESS_EFAULT), s)
            else (inl (pr_pid (prc s child)), reap_process s child)
        | None =>
            if negb (isSome (find_index (waitable s parent target_pid) 1 (Z.to_nat (NPK_MAX_PROCESSES - 1)))) then (inl (- PROCESS_ECHILD), s)
            else if hasb options PROCESS_WNOHANG then (inl 0, s)
            else
              let s := set_process s parent (prc s parent <| pr_wait_active := true |> <| pr_wait_woken := false |> <| pr_wait_result := - PROCESS_EAGAIN |>
                <| pr_wait_target := target_pid |> <| pr_wait_status_user := user_status |> <| pr_wait_options := options |>) in
              let s := set_thread s t (thr s t <| t_state := THREAD_BLOCKED |>) in
              let '(how, s) := scheduler_yield s in
              match how with
              | Returns =>
                  if pr_wait_woken (prc s parent) then
                    let result := pr_wait_result (prc s parent) in
                    let s := set_process s parent (prc s parent <| pr_wait_active := false |> <| pr_wait_woken := false |>) in
                    let s := set_thread s t (thr s t <| t_state := THREAD_RUNNING |>) in
                    match (if result >? 0 then find_process_by_pid s result else None) with
                    | None => (inl result, s)
                    | Some child =>
                        if alive (prc s child) then (inl result, s)
                        else
                          let '(ok, s) := if pr_wait_status_user (prc s parent) =? 0 then (true, s)
                                          else vmm_copyout s (pr_wait_status_user (prc s parent)) (wait_status (prc s child)) in
                          if ok : bool then (inl result, reap_process s child) else (inl (- PROCESS_EFAULT), s)
                    end
                  else
                    let s := set_process s parent (prc s parent <| pr_wait_active := false |>) in
                    (inl (- PROCESS_EAGAIN), set_thread s t (thr s t <| t_state := THREAD_RUNNING |>))
              | _ => (inr how, s)
              end
        end
  | _, _ => (inl (- PROCESS_EFAULT), s)
  end.

(** ** Passing descriptors *)

Definition process_send_fd s (target_pid source_fd : Z) : Z * proc K :=
  match process_current s with
  | None => (- PROCESS_EPERM, s)
  | Some sender =>
      if negb (alive (prc s sender)) || (sender =? 0) || (source_fd <? 0) || (source_fd >=? NPK_MAX_FDS) then (- PROCESS_EPERM, s)
      else
        let handle := (pr_fds (prc s sender)).[source_fd] in
        if handle <? 0 then (- PROCESS_EBADF, s)
        else
          match (if target_pid >? 0 then find_process_by_pid s target_pid else None) with
          | None => (- PROCESS_ESRCH, s)
          | Some target =>
              if negb (alive (prc s target)) then (- PROCESS_ESRCH, s)
              else if negb (target =? sender) && negb (pr_parent_pid (prc s target) =? pr_pid (prc s sender)) &&
                      negb (pr_parent_pid (prc s sender) =? pr_pid (prc s target)) then (- PROCESS_EPERM, s)
              else if pr_incoming_fd_count (prc s target) >=? NPK_FD_TRANSFER_MAX then (- PROCESS_EAGAIN, s)
              else
                let '(rc, k) := vo_vfs_retain (p_env s) handle in
                let s := set_kernel s k in
                if negb (rc =? 0) then (- PROCESS_EBADF, s)
                else
                  let q := prc s target in
                  (0, set_process s target (q <| pr_incoming := (pr_incoming q).[pr_incoming_fd_count q <- (handle, 0)] |>
                                              <| pr_incoming_fd_count := pr_incoming_fd_count q + 1 |>))
          end
  end.

(** The handle and its flags, or EAGAIN. *)
Definition process_receive_fd s (p : Z) : (Z + Z * Z) * proc K :=
  let q := prc s p in
  if pr_incoming_fd_count q =? 0 then (inl (- PROCESS_EAGAIN), s)
  else
    let first := (pr_incoming q).[0] in
    let a := for_range (fun i a => a.[i - 1 <- a.[i]]) 1 (Z.to_nat (pr_incoming_fd_count q - 1)) (pr_incoming q) in
    let count := pr_incoming_fd_count q - 1 in
    (inr first, set_process s p (q <| pr_incoming := a.[count <- (-1, 0)] |> <| pr_incoming_fd_count := count |>)).

Definition process_set_image_path s (p : Z) (path : cstr) : proc K :=
  set_process s p (prc s p <| pr_image_path := take (Z.to_nat (NPK_PROCESS_PATH_MAX - 1)) (text path) |>).

Definition process_launch_user s (p : Z) : transfer * proc K :=
  match pr_main_thread (prc s p) with
  | Some t =>
      if negb (alive (prc s p)) || negb (t_privilege_ring (thr s t) =? 3) then (Returns, s)
      else
        let s := process_activate s p in
        match t_saved_interrupt_frame (thr s t) with
        | Some f => (Resumed t 0 f, s)
        | None => (Halted, s)
        end
  | None => (Returns, s)
  end.
End Model.
