(* ===== verification/ProcMem.v ===== *)
(** * Copies to and from user memory keep the process state

    The user copies of process.c and vmm.c change the kernel memory and the
    areas of one process; tables, threads and the identity, liveness and page
    tables of every process stay as they are. *)

From Stdlib Require Import ZArith Lia Bool ZifyBool.
From stdpp Require Import base numbers list gmap.
From S2P Require Import Prelude Kstring Pmm Vmm Vm Proc.

Open Scope Z_scope.
Open Scope npk_scope.

Section Mem.
Context {K : Type} `{VmOps K} `{ProcOps K}.
Implicit Type s : proc K.
Notation thr s i := ((p_threads s).[i]).
Notation prc s i := ((p_processes s).[i]).

(** The fields of the areas that only the process code changes. *)
Definition same_space (m m' : mm) : Prop := m_alive m' = m_alive m /\ m_root m' = m_root m /\ m_vmas m' = m_vmas m.

Lemma materialise_space k m vma page protection stack : same_space m (materialise k m vma page protection stack).2.
Proof.
  unfold materialise. destruct vma as [v|]; [|].
  all: repeat match goal with |- context [let '(_, _) := ?x in _] => destruct x | |- context [if ?b then _ else _] => destruct b end; done.
Qed.

Lemma ensure_space k m address write : same_space m (vm_ensure_user_page k m address write).2.
Proof.
  unfold vm_ensure_user_page.
  repeat match goal with |- context [if ?b then _ else _] => destruct b | |- context [match ?x with Some _ => _ | None => _ end] => destruct x end; try done; apply materialise_space.
Qed.

Lemma same_space_refl m : same_space m m.
Proof. done. Qed.

Lemma same_space_trans m1 m2 m3 : same_space m1 m2 -> same_space m2 m3 -> same_space m1 m3.
Proof. intros (A1 & A2 & A3) (B1 & B2 & B3). repeat split; congruence. Qed.

Lemma writable_frame_space cow k m root a : same_space m (writable_frame cow k m root a).2.
Proof.
  unfold writable_frame. destruct (if cow && _ then _ else _) as [ph k1]. destruct (ph =? 0); [|done].
  pose proof (ensure_space k1 m a true). by destruct (vm_ensure_user_page k1 m a true) as [[? ?] ?].
Qed.

Lemma write_user_space fuel cow k m root a bytes : same_space m (write_user fuel cow k m root a bytes).2.
Proof.
  revert k m a bytes; induction fuel as [|fuel IH]; intros k m a bytes; destruct bytes as [|b bytes]; try done. cbn [write_user].
  pose proof (writable_frame_space cow k m root a) as Hw. destruct (writable_frame cow k m root a) as [[ph k1] m1]. cbn [snd] in Hw.
  destruct (ph =? 0); [done|]. eapply same_space_trans; [exact Hw|]. apply IH.
Qed.

Lemma read_user_space fuel k m root a n : same_space m (read_user fuel k m root a n).2.
Proof.
  revert k m a n; induction fuel as [|fuel IH]; intros k m a n; [done|]. cbn [read_user]. destruct (n <=? 0); [done|].
  assert (Hr : same_space m (readable_frame k m root a).2).
  { unfold readable_frame. destruct (_ =? 0); [|done]. pose proof (ensure_space k m a false). by destruct (vm_ensure_user_page k m a false) as [[? ?] ?]. }
  destruct (readable_frame k m root a) as [[ph k1] m1]. cbn [snd] in Hr. destruct (ph =? 0); [done|].
  specialize (IH k1 m1 (u64 (a + (if n <? page_left a then n else page_left a))) (n - (if n <? page_left a then n else page_left a))).
  destruct (read_user fuel k1 m1 _ _ _) as [[r k2] m2]. eapply same_space_trans; [exact Hr|exact IH].
Qed.

(** ** Steps that only touch memory *)

Record mem_step s s' : Prop := {
  ms_threads : p_threads s' = p_threads s;
  ms_waiters : p_waiters s' = p_waiters s;
  ms_current : p_current s' = p_current s;
  ms_idle : p_idle s' = p_idle s;
  ms_next : p_next_pid s' = p_next_pid s /\ p_next_tid s' = p_next_tid s;
  ms_process : forall i, exists m, prc s' i = prc s i <| pr_mm := m |> /\ same_space (pr_mm (prc s i)) m }.

Lemma mem_step_refl s : mem_step s s.
Proof. constructor; try done. intros i. exists (pr_mm (prc s i)). split; [by destruct (prc s i)|done]. Qed.

Lemma mem_step_trans s1 s2 s3 : mem_step s1 s2 -> mem_step s2 s3 -> mem_step s1 s3.
Proof.
  intros [A1 A2 A3 A4 [A6 A7] A5] [B1 B2 B3 B4 [B6 B7] B5]. constructor; [congruence..|split; congruence|]. intros i. destruct (A5 i) as (m & E & M), (B5 i) as (m' & E' & M').
  exists m'. rewrite E', E. split; [done|]. rewrite E in M'. eapply same_space_trans; [exact M|exact M'].
Qed.

Lemma mem_step_set s p k m : same_space (pr_mm (prc s p)) m -> mem_step s (set_process (set_kernel s k) p (prc s p <| pr_mm := m |>)).
Proof.
  intros Hm. constructor; try done. intros i. cbn. rewrite aget_aset. case_decide as E; [subst i; by exists m|].
  exists (pr_mm (prc s i)). split; [by destruct (prc s i)|done].
Qed.

Lemma mem_step_kernel s k : mem_step s (set_kernel s k).
Proof. constructor; try done. intros i. exists (pr_mm (prc s i)). split; [cbn; by destruct (prc s i)|done]. Qed.

Lemma copyout_process_mem s p a bytes : mem_step s (copyout_process s p a bytes).2.
Proof.
  unfold copyout_process. destruct (negb _); [apply mem_step_refl|].
  pose proof (write_user_space (length bytes) true (p_env s) (pr_mm (prc s p)) (root_of (prc s p)) a bytes) as Hw.
  destruct (write_user _ _ _ _ _ _ _) as [[ok k] m]. by apply mem_step_set.
Qed.

Lemma vmm_copyin_mem s a n : mem_step s (vmm_copyin s a n).2.
Proof.
  unfold vmm_copyin. destruct (negb _); [apply mem_step_refl|]. destruct (process_current s) as [p|].
  - pose proof (read_user_space (Z.to_nat n) (p_env s) (pr_mm (prc s p)) (copy_root s) a n) as Hw.
    destruct (read_user _ _ _ _ _ _) as [[ok k] m]. by apply mem_step_set.
  - destruct (read_user _ _ _ _ _ _) as [[ok k] m]. apply mem_step_kernel.
Qed.

Lemma vmm_copyout_mem s a bytes : mem_step s (vmm_copyout s a bytes).2.
Proof.
  unfold vmm_copyout. destruct (negb _); [apply mem_step_refl|]. destruct (process_current s) as [p|].
  - pose proof (write_user_space (length bytes) true (p_env s) (pr_mm (prc s p)) (copy_root s) a bytes) as Hw.
    destruct (write_user _ _ _ _ _ _ _) as [[ok k] m]. by apply mem_step_set.
  - destruct (write_user _ _ _ _ _ _ _) as [[ok k] m]. apply mem_step_kernel.
Qed.

(** What a memory step leaves in place. *)
Lemma mem_step_alive s s' i : mem_step s s' -> alive (prc s' i) = alive (prc s i).
Proof. intros M. destruct (ms_process _ _ M i) as (m & -> & E & _). exact E. Qed.

Lemma mem_step_owner s s' : mem_step s s' -> process_current s' = process_current s.
Proof. intros M. unfold process_current. by rewrite (ms_current _ _ M), (ms_threads _ _ M). Qed.
End Mem.
