(* ===== verification/Signal.v ===== *)
(** * Signals

    The queue of a thread refines a list in which the oldest entry of a signal
    is taken first; the delivery of a signal and the return from its handler
    restore what was interrupted; pending signals are delivered in order of
    their number, and what cannot be caught is never handled. *)

From Stdlib Require Import ZArith Lia Bool ZifyBool.
From stdpp Require Import base numbers list gmap.
From S2P Require Import Prelude Kstring Pmm Vmm Vm Proc ProcMem.

Open Scope Z_scope.
Open Scope npk_scope.

(** ** The queue *)

Record queue_wf (t : thread) : Prop := {
  qw_head : 0 <= t_signal_queue_head t < NPK_SIGNAL_QUEUE_MAX;
  qw_count : 0 <= t_signal_queue_count t <= NPK_SIGNAL_QUEUE_MAX;
  qw_tail : t_signal_queue_tail t = (t_signal_queue_head t + t_signal_queue_count t) mod NPK_SIGNAL_QUEUE_MAX }.

(** The queued signals, oldest first. *)
Definition queued (t : thread) : list npk_signal_info :=
  ring NPK_SIGNAL_QUEUE_MAX (t_signal_queue t) (t_signal_queue_head t) (Z.to_nat (t_signal_queue_count t)).

(** The specification: taking the first entry of a signal out of a list. *)
Fixpoint take_signal (signal : Z) (l : list npk_signal_info) : option (npk_signal_info * list npk_signal_info) :=
  match l with
  | [] => None
  | i :: l' =>
      if si_signal i =? signal then Some (i, l')
      else match take_signal signal l' with Some (j, rest) => Some (j, i :: rest) | None => None end
  end.

Lemma take_signal_split signal l1 i l2 :
  Forall (fun j => si_signal j <> signal) l1 -> si_signal i = signal -> take_signal signal (l1 ++ i :: l2) = Some (i, l1 ++ l2).
Proof.
  induction 1 as [|j l1 Hj Hl IH]; intros Hi; cbn [app take_signal].
  - by replace (si_signal i =? signal) with true by lia.
  - replace (si_signal j =? signal) with false by lia. by rewrite IH.
Qed.

Lemma take_signal_none signal l : Forall (fun j => si_signal j <> signal) l -> take_signal signal l = None.
Proof. induction 1 as [|j l Hj Hl IH]; cbn [take_signal]; [done|]. replace (si_signal j =? signal) with false by lia. by rewrite IH. Qed.

Lemma queue_push t info :
  queue_wf t ->
  match signal_queue_push t info with
  | Some t' => queue_wf t' /\ queued t' = queued t ++ [info] /\ Z.of_nat (length (queued t)) < NPK_SIGNAL_QUEUE_MAX
  | None => Z.of_nat (length (queued t)) = NPK_SIGNAL_QUEUE_MAX
  end.
Proof.
  intros [H1 H2 H3]. unfold queued, signal_queue_push. rewrite ring_length. unfold NPK_SIGNAL_QUEUE_MAX in *.
  destruct (t_signal_queue_count t >=? 32) eqn:E; [lia|]. split.
  - constructor; rsimpl; unfold NPK_SIGNAL_QUEUE_MAX; try lia. rewrite H3, Zplus_mod_idemp_l. f_equal. lia.
  - split; [|lia]. rsimpl. unfold NPK_SIGNAL_QUEUE_MAX. rewrite Z2Nat.inj_add by lia. rewrite ring_app. cbn [Pos.to_nat]. change (Z.to_nat 1) with 1%nat. f_equal.
    + apply ring_ext. intros i Hi. apply aget_aset_ne. rewrite H3. intros He. apply ring_place_inj in He; lia.
    + unfold ring. cbn [seq map]. rewrite Z.add_0_r, Z2Nat.id, Z.mod_mod, <-H3, aget_aset_eq by lia. done.
Qed.

Lemma queue_find_spec t signal :
  queue_wf t ->
  match queue_find t signal with
  | Some k => exists l1 l2, queued t = l1 ++ (t_signal_queue t).[queue_index t k] :: l2 /\ Z.of_nat (length l1) = k /\
      Forall (fun j => si_signal j <> signal) l1 /\ si_signal (t_signal_queue t).[queue_index t k] = signal /\ 0 <= k < t_signal_queue_count t
  | None => Forall (fun j => si_signal j <> signal) (queued t)
  end.
Proof.
  intros [H1 H2 H3]. unfold queue_find. destruct (find_index _ _ _) as [k|] eqn:E.
  - apply find_index_Some in E as (Hk & Hp & Hl). rewrite Z2Nat.id in Hk by lia. unfold queued.
    replace (Z.to_nat (t_signal_queue_count t)) with (Z.to_nat k + S (Z.to_nat (t_signal_queue_count t - 1 - k)))%nat by lia.
    rewrite ring_app, ring_S by (apply Z.mod_pos_bound; unfold NPK_SIGNAL_QUEUE_MAX; lia). rewrite Z2Nat.id by lia.
    eexists _, _. split; [unfold queue_index; reflexivity|]. rewrite ring_length. split; [lia|]. split; [|lia].
    apply Forall_lookup_2. intros i x Hx. assert (Hi : (i < Z.to_nat k)%nat) by (apply lookup_lt_Some in Hx; by rewrite ring_length in Hx).
    rewrite ring_lookup in Hx by done. injection Hx as <-. specialize (Hl (Z.of_nat i) ltac:(lia)). unfold queue_index in Hl. lia.
  - unfold queued. apply Forall_lookup_2. intros i x Hx. assert (Hi : (i < Z.to_nat (t_signal_queue_count t))%nat) by (apply lookup_lt_Some in Hx; by rewrite ring_length in Hx).
    rewrite ring_lookup in Hx by done. injection Hx as <-.
    pose proof (proj1 (find_index_None _ _ _) E (Z.of_nat i) ltac:(lia)) as Hn. unfold queue_index in Hn. cbn beta in Hn. lia.
Qed.

Lemma shift_loop head found n (q : arr npk_signal_info) k :
  0 <= found -> found + Z.of_nat n < NPK_SIGNAL_QUEUE_MAX -> 0 <= k < NPK_SIGNAL_QUEUE_MAX ->
  (for_range (fun i q => q.[(head + i) mod NPK_SIGNAL_QUEUE_MAX <- q.[(head + (i + 1)) mod NPK_SIGNAL_QUEUE_MAX]]) found n q).[(head + k) mod NPK_SIGNAL_QUEUE_MAX] =
  if (found <=? k) && (k <? found + Z.of_nat n) then q.[(head + (k + 1)) mod NPK_SIGNAL_QUEUE_MAX] else q.[(head + k) mod NPK_SIGNAL_QUEUE_MAX].
Proof.
  unfold NPK_SIGNAL_QUEUE_MAX. revert found q; induction n as [|n IH]; intros found q Hf Hn Hk; cbn [for_range].
  - by replace ((found <=? k) && (k <? found + Z.of_nat 0)) with false by lia.
  - rewrite IH by lia. destruct ((found + 1 <=? k) && (k <? found + 1 + Z.of_nat n)) eqn:E.
    + replace ((found <=? k) && (k <? found + Z.of_nat (S n))) with true by lia. apply aget_aset_ne. intros He. apply ring_place_inj in He; lia.
    + rewrite aget_aset. case_decide as He.
      * apply ring_place_inj in He; [|lia..]. subst k. by replace ((found <=? found) && (found <? found + Z.of_nat (S n))) with true by lia.
      * assert (k <> found) by (intros ->; done). by replace ((found <=? k) && (k <? found + Z.of_nat (S n))) with false by lia.
Qed.

Lemma queue_pop t signal :
  queue_wf t ->
  match signal_queue_pop t signal with
  | Some (i, t') => queue_wf t' /\ take_signal signal (queued t) = Some (i, queued t')
  | None => take_signal signal (queued t) = None
  end.
Proof.
  intros Hw. pose proof (queue_find_spec t signal Hw) as Hf. destruct Hw as [H1 H2 H3]. unfold signal_queue_pop.
  destruct (t_signal_queue_count t =? 0) eqn:E0; [unfold queued; by replace (t_signal_queue_count t) with 0 by lia|].
  destruct (queue_find t signal) as [k|]; [|by apply take_signal_none].
  destruct Hf as (l1 & l2 & Hq & Hl & Hn & Hs & Hk). split.
  - constructor; rsimpl; unfold NPK_SIGNAL_QUEUE_MAX in *; lia.
  - rewrite Hq, take_signal_split by done. f_equal. f_equal. assert (Hd : l1 ++ l2 = delete (Z.to_nat k) (queued t)).
    { rewrite Hq. replace (Z.to_nat k) with (length l1) by lia. by rewrite delete_middle. }
    rewrite Hd. unfold queued. rsimpl. apply list_eq. intros i. unfold queue_index.
    assert (Hlen : length (queued t) = Z.to_nat (t_signal_queue_count t)) by (unfold queued; apply ring_length).
    destruct (decide (i < Z.to_nat (t_signal_queue_count t - 1))%nat) as [Hi|Hi].
    + rewrite ring_lookup by done. rewrite shift_loop by (unfold NPK_SIGNAL_QUEUE_MAX in *; lia).
      destruct (decide (i < Z.to_nat k)%nat) as [Hik|Hik].
      * rewrite list_lookup_delete_lt, ring_lookup by lia. by replace (_ && _) with false by lia.
      * rewrite list_lookup_delete_ge, ring_lookup by lia. replace (_ && _) with true by lia. do 3 f_equal. lia.
    + fold (queued t). assert (Hdl : length (delete (Z.to_nat k) (queued t)) = (length (queued t) - 1)%nat) by (apply length_delete, lookup_lt_is_Some_2; lia).
      rewrite (lookup_ge_None_2 (delete _ _)) by lia. symmetry. apply lookup_ge_None_2. rewrite ring_length. lia.
Qed.

Lemma queue_contains t signal : queue_wf t -> signal_queue_contains t signal = true <-> Exists (fun i => si_signal i = signal) (queued t).
Proof.
  intros Hw. pose proof (queue_find_spec t signal Hw) as Hf. unfold signal_queue_contains. destruct (queue_find t signal) as [k|].
  - destruct Hf as (l1 & l2 & -> & _ & _ & Hs & _). split; [|done]. intros _. apply Exists_app. right. by constructor.
  - split; [done|]. intros He. exfalso. apply Exists_exists in He as (x & Hx & Hs). rewrite Forall_forall in Hf. by apply (Hf x).
Qed.

(** C38: The signal queue of a thread refines a bounded list: a push appends at
    the end and fails exactly when 32 entries are queued; a pop of a signal
    takes its oldest entry out, keeps the order of all others, and fails
    exactly when none is queued; the ring stays in order. *)
Theorem signal_queue_refines t info signal :
  queue_wf t ->
  match signal_queue_push t info with
  | Some t' => queue_wf t' /\ queued t' = queued t ++ [info] /\ Z.of_nat (length (queued t)) < NPK_SIGNAL_QUEUE_MAX
  | None => Z.of_nat (length (queued t)) = NPK_SIGNAL_QUEUE_MAX
  end /\
  match signal_queue_pop t signal with
  | Some (i, t') => queue_wf t' /\ take_signal signal (queued t) = Some (i, queued t')
  | None => take_signal signal (queued t) = None
  end /\
  (signal_queue_contains t signal = true <-> Exists (fun i => si_signal i = signal) (queued t)).
Proof. intros Hw. split; [by apply queue_push|]. split; [by apply queue_pop|by apply queue_contains]. Qed.

Section Delivery.
Context {K : Type} `{VmOps K} `{ProcOps K}.
Implicit Type s : proc K.
Notation thr s i := ((p_threads s).[i]).
Notation prc s i := ((p_processes s).[i]).

(** ** Delivery *)

(** The handler of [signal] has been entered by thread [t] of process [p]. *)
Record delivered s (f : frame) (signal : Z) (t p user siginfo ucontext : Z) (f' : frame) s' : Prop := {
  dl_current : p_current s = Some t /\ t_owner (thr s t) = Some p;
  dl_thread : alive (prc s p) = true /\ t_privilege_ring (thr s t) = 3 /\ t_signal_inflight (thr s t) = false;
  dl_signal : signal <> 0 /\ signal <= NPK_SIGNAL_MAX;
  dl_action : signal_action_handler_valid (pr_signal_actions (prc s p)).[signal] = true;
  dl_user : 0 <= user /\ user mod 16 = 0 /\ exists size, 40 <= size /\ vmm_is_user_range user size = true /\ user + size <= f.[18];
  dl_frame : f' = handler_frame f (pr_signal_actions (prc s p)).[signal] signal siginfo ucontext user;
  dl_state : exists s3, mem_step s s3 /\ s' = set_thread s3 t (enter_handler (thr s t) f (pr_signal_actions (prc s p)).[signal] signal user) }.

Lemma copyout_chain s1 p a bytes ok s2 : copyout_process s1 p a bytes = (ok, s2) -> mem_step s1 s2.
Proof. intros E. pose proof (copyout_process_mem s1 p a bytes) as M. by rewrite E in M. Qed.

Lemma land_not15 x : 0 <= x < 2 ^ 64 -> Z.land x (not64 15) mod 16 = 0 /\ Z.land x (not64 15) <= x.
Proof.
  intros Hx. replace (Z.land x (not64 15)) with (x - x mod 2 ^ 4); [change (2 ^ 4) with 16; mlia|].
  symmetry. rewrite <-(land_not_mask x 4); [|lia|exact Hx]. done.
Qed.

Lemma deliver_spec s f signal info ok f' s' :
  in_u64 f.[18] -> process_deliver_signal_with_info s f signal info = (ok, f', s') ->
  if ok then exists t p user siginfo ucontext, delivered s f signal t p user siginfo ucontext f' s' else f' = f /\ mem_step s s'.
Proof.
  intros Hf. unfold process_deliver_signal_with_info. destruct (p_current s) as [t|] eqn:Ec; [|intros [= <- <- <-]; by split; [|apply mem_step_refl]].
  destruct (process_current s) as [p|] eqn:Ep; [|intros [= <- <- <-]; by split; [|apply mem_step_refl]].
  cif E1; [intros [= <- <- <-]; by split; [|apply mem_step_refl]|]. cif E2; [intros [= <- <- <-]; by split; [|apply mem_step_refl]|].
  set (us := match info with Some _ => _ | None => _ end). set (size := 40 + _). cif E3; [intros [= <- <- <-]; by split; [|apply mem_step_refl]|].
  set (user := Z.land _ _). cif E4; [intros [= <- <- <-]; by split; [|apply mem_step_refl]|].
  set (siginfo := if us then user + 40 else 0). set (ucontext := if us then _ else 0).
  destruct (copyout_process s p user _) as [ok1 s1] eqn:C1. apply copyout_chain in C1. destruct ok1; cbn [negb]; [|intros [= <- <- <-]; done].
  destruct (copyout_process s1 p (user + 8) _) as [ok2 s2] eqn:C2. apply copyout_chain in C2. pose proof (mem_step_trans _ _ _ C1 C2) as M2.
  destruct ok2; cbn [negb]; [|intros [= <- <- <-]; done].
  set (r := match info with Some i => _ | None => (true, s2) end). assert (M3 : mem_step s r.2).
  { subst r. destruct info as [i|]; [|done]. destruct us; [|done]. destruct (copyout_process s2 p siginfo _) as [ok3 s3] eqn:C3. apply copyout_chain in C3.
    pose proof (mem_step_trans _ _ _ M2 C3) as M3. destruct ok3; cbn [negb]; [|done]. eapply mem_step_trans; [exact M3|apply copyout_process_mem]. }
  clearbody r. destruct r as [ok3 s3]. cbn [snd] in M3. destruct ok3; cbn [negb]; [|intros [= <- <- <-]; done]. intros [= <- <- <-].
  assert (Hsz : 40 <= size) by (subst size; destruct us; unfold NPK_USER_SIGINFO_SIZE, NPK_USER_UCONTEXT_SIZE; lia).
  assert (Hlo : 0 <= f.[18] - size < 2 ^ 64) by (unfold in_u64 in Hf; lia). destruct (land_not15 _ Hlo) as [Hal Hle]. fold user in Hal, Hle.
  exists t, p, user, siginfo, ucontext. assert (Ho : t_owner (thr s t) = Some p) by (unfold process_current in Ep; by rewrite Ec in Ep).
  constructor; try done; try (unfold NPK_SIGNAL_MAX in *; lia).
  - split; [apply Z.land_nonneg; left; lia|]. split; [done|]. exists size. split; [done|]. split; [by destruct (vmm_is_user_range user size)|lia].
  - exists s3. split; [done|]. by rewrite (ms_threads _ _ M3).
Qed.

(** ** Return from the handler *)

Lemma header_fields signal siginfo ucontext :
  0 <= signal <= 64 ->
  le_val (take 8 (signal_header signal siginfo ucontext)) = NPK_SIGNAL_FRAME_MAGIC /\ le_val (take 8 (drop 8 (signal_header signal siginfo ucontext))) = signal.
Proof.
  intros Hs. unfold signal_header. split.
  - rewrite take_app_length' by (symmetry; apply le_bytes_length). vm_compute. reflexivity.
  - rewrite drop_app_length', take_app_length' by (symmetry; apply le_bytes_length). rewrite le_val_bytes. apply Z.mod_small. lia.
Qed.

(** The registers, the mask and the state a handler was entered from come back. *)
Lemma sigreturn_restores s t g header :
  p_current s = Some t -> t_signal_inflight (thr s t) = true -> f_rsp g = u64 (t_signal_frame_user (thr s t) + 8) ->
  vmm_is_user_range (f_rip g) 1 = true -> t_signal_restorer (thr s t) <= f_rip g <= t_signal_restorer (thr s t) + 32 ->
  (vmm_copyin s (u64 (t_signal_frame_user (thr s t) + 8)) 32).1 = Some header ->
  le_val (take 8 header) = NPK_SIGNAL_FRAME_MAGIC -> le_val (take 8 (drop 8 header)) = t_signal_number (thr s t) ->
  exists s1, mem_step s s1 /\ process_sigreturn s g =
    ((t_signal_saved_frame (thr s t)).[14], syscall_of_wrapper (t_signal_saved_frame (thr s t)), set_thread s1 t (leave_handler (thr s t))).
Proof.
  intros Hc Hi Hrsp Hrip Hrest Hin Hm Hn. unfold process_sigreturn. rewrite Hc, Hi, Hrsp, Hrip, Z.eqb_refl. cbn [negb orb].
  pose proof (vmm_copyin_mem s (u64 (t_signal_frame_user (thr s t) + 8)) 32) as M.
  destruct (vmm_copyin s (u64 (t_signal_frame_user (thr s t) + 8)) 32) as [r s1]. cbn [fst snd] in *. subst r. rewrite (ms_threads _ _ M), Hm, Hn, !Z.eqb_refl.
  replace (f_rip g <? t_signal_restorer (thr s t)) with false by lia. replace (f_rip g - t_signal_restorer (thr s t) >? 32) with false by lia.
  cbn [negb orb]. by exists s1.
Qed.

Lemma handler_frame_fields f a signal siginfo ucontext user :
  let f' := handler_frame f a signal siginfo ucontext user in
  f'.[9] = signal /\ f'.[15] = sa_handler a /\ f'.[16] = USER_CS /\ f'.[18] = user /\ f'.[19] = USER_SS.
Proof. cbv zeta. unfold handler_frame. by repeat split; rewrite ?aget_aset_eq; repeat rewrite aget_aset_ne by done; rewrite ?aget_aset_eq. Qed.


(** ** Pending signals *)

(** Pending and not blocked. *)
Definition deliverable (t : thread) (j : Z) : bool := hasb (Z.land (t_signal_pending t) (not64 (t_signal_blocked t))) (signal_bit j).
Definition ignored s (p j : Z) : bool := (sa_handler (pr_signal_actions (prc s p)).[j] =? 1) && negb (signal_uncatchable j).

(** Only the pending set and the queue of thread [t] differ. *)
Record consumed s s' (t : Z) : Prop := {
  co_processes : p_processes s' = p_processes s;
  co_current : p_current s' = p_current s;
  co_other : forall i, i <> t -> thr s' i = thr s i;
  co_thread : thr s' t = thr s t <| t_signal_pending := t_signal_pending (thr s' t) |> <| t_signal_queue := t_signal_queue (thr s' t) |>
                <| t_signal_queue_tail := t_signal_queue_tail (thr s' t) |> <| t_signal_queue_count := t_signal_queue_count (thr s' t) |> }.

Lemma consumed_refl s t : consumed s s t.
Proof. constructor; try done. by destruct (thr s t). Qed.

Lemma consumed_step s s1 t th :
  consumed s s1 t ->
  th = thr s1 t <| t_signal_pending := t_signal_pending th |> <| t_signal_queue := t_signal_queue th |> <| t_signal_queue_tail := t_signal_queue_tail th |>
         <| t_signal_queue_count := t_signal_queue_count th |> ->
  consumed s (set_thread s1 t th) t.
Proof.
  intros [C2 C3 C4 C5] Hth. constructor; rsimpl; try done.
  - intros i Hi. rewrite aget_aset_ne by done. by apply C4.
  - rewrite aget_aset_eq. rewrite Hth. rewrite C5. done.
Qed.

Lemma pop_fields t signal i t' : signal_queue_pop t signal = Some (i, t') ->
  t' = t <| t_signal_queue := t_signal_queue t' |> <| t_signal_queue_tail := t_signal_queue_tail t' |> <| t_signal_queue_count := t_signal_queue_count t' |>.
Proof. unfold signal_queue_pop. destruct (_ =? 0); [done|]. destruct (queue_find t signal); [|done]. intros [= _ <-]. by destruct t. Qed.

Lemma take_pending_fields th k : let th' := (take_pending th k).2 in
  th' = th <| t_signal_pending := t_signal_pending th' |> <| t_signal_queue := t_signal_queue th' |> <| t_signal_queue_tail := t_signal_queue_tail th' |>
    <| t_signal_queue_count := t_signal_queue_count th' |>.
Proof.
  cbv zeta. unfold take_pending. set (th0 := th <| t_signal_pending := _ |>).
  destruct (signal_queue_pop th0 k) as [[i th1]|] eqn:E; cbn [snd]; [rewrite (pop_fields _ _ _ _ E)|]; destruct (signal_queue_contains _ _); subst th0; by destruct th.
Qed.

(** The state in which the fate of [signal] is decided: it and the ignored
    signals before it have been taken from the pending set. *)
Definition decided s (p t signal : Z) s1 : Prop :=
  1 <= signal <= NPK_SIGNAL_MAX /\ deliverable (thr s t) signal = true /\ ignored s p signal = false /\
  (forall j, 1 <= j < signal -> deliverable (thr s t) j = true -> ignored s p j = true) /\ consumed s s1 t.

(** What [deliver_one] may answer for the first signal that is not ignored. *)
Definition fate (terminate : proc K -> Z -> transfer * proc K) s (f : frame) (t p : Z) (r : delivery * proc K) : Prop :=
  exists signal s1, decided s p t signal s1 /\
  match r with
  | (NoSignal, _) => False
  | (Handler f', s') => signal_uncatchable signal = false /\ exists user siginfo ucontext, delivered s1 f signal t p user siginfo ucontext f' s'
  | (Gone how, s') => exists s2, mem_step s1 s2 /\ (how, s') = terminate s2 signal /\
      (signal_uncatchable signal = true \/ sa_handler (pr_signal_actions (prc s p)).[signal] = 0 -> s2 = s1)
  end.

Lemma deliver_one_step terminate s f t p k s1 :
  in_u64 f.[18] -> p_current s = Some t -> t_owner (thr s t) = Some p -> 1 <= k <= NPK_SIGNAL_MAX ->
  consumed s s1 t -> (forall j, 1 <= j < k -> deliverable (thr s t) j = true -> ignored s p j = true) ->
  match deliver_one terminate f t p (Z.land (t_signal_pending (thr s t)) (not64 (t_signal_blocked (thr s t)))) k s1 with
  | inl s2 => consumed s s2 t /\ (deliverable (thr s t) k = true -> ignored s p k = true)
  | inr r => fate terminate s f t p r
  end.
Proof.
  intros Hf Hc Ho Hk C Hl. unfold deliver_one, deliverable in *. set (d := Z.land _ _) in *.
  destruct ((signal_bit k =? 0) || negb (hasb d (signal_bit k))) eqn:E1; [split; [done|]; intros Hd; exfalso; apply orb_true_iff in E1 as [E1|E1]; [|by rewrite Hd in E1]; apply Z.eqb_eq in E1; rewrite E1 in Hd; unfold hasb in Hd; by rewrite Z.land_0_r in Hd|].
  apply orb_false_iff in E1 as [_ E1]. apply negb_false_iff in E1.
  pose proof (take_pending_fields (thr s1 t) k) as Hp. destruct (take_pending (thr s1 t) k) as [info th1]. cbn [snd] in Hp.
  set (s2 := set_thread s1 t th1). assert (Hq : consumed s s2 t) by (by apply consumed_step).
  rewrite (co_processes _ _ _ C). fold (ignored s p k). destruct (ignored s p k) eqn:E2; [done|].
  assert (D : decided s p t k s2) by done. destruct (signal_uncatchable k || _) eqn:E3.
  - destruct (terminate s2 k) as [how s3] eqn:Et. exists k, s2. split; [done|]. exists s2. by split; [apply mem_step_refl|].
  - apply orb_false_iff in E3 as [E3 E4]. destruct (process_deliver_signal_with_info s2 f k info) as [[ok f'] s3] eqn:Ed. apply deliver_spec in Ed; [|done]. destruct ok.
    + destruct Ed as (t' & p' & user & siginfo & ucontext & Dl). pose proof (dl_current _ _ _ _ _ _ _ _ _ _ Dl) as [Dc Do].
      rewrite (co_current _ _ _ Hq), Hc in Dc. injection Dc as <-. rewrite (co_thread _ _ _ Hq) in Do. cbn in Do. rewrite Ho in Do. injection Do as <-.
      exists k, s2. split; [done|]. split; [done|]. by exists user, siginfo, ucontext.
    + destruct Ed as [_ Dm]. destruct (terminate s3 k) as [how s4] eqn:Et. exists k, s2. split; [done|]. exists s3. split; [done|]. split; [done|].
      intros [Hu|Hu]; [by rewrite E3 in Hu|]. lia.
Qed.


End Delivery.
