(* ===== verification/Futex.v ===== *)
(** * Futexes

    The waiter table of process.c: a wake takes the first matching waiters in
    table order and wakes exactly their threads; timeouts expire exactly the
    waiters whose deadline has passed. *)

From Stdlib Require Import ZArith Lia Bool ZifyBool.
From stdpp Require Import base numbers list gmap.
From S2P Require Import Prelude Kstring Pmm Vmm Vm Proc.

Open Scope Z_scope.
Open Scope npk_scope.

Section Futex.
Context {K : Type} `{VmOps K} `{ProcOps K}.
Implicit Type s : proc K.
Notation thr s i := ((p_threads s).[i]).
Notation prc s i := ((p_processes s).[i]).
Notation slot s i := ((p_waiters s).[i]).

(** No thread waits in two slots at once. *)
Definition one_slot s : Prop :=
  forall i j, 0 <= i < NPK_FUTEX_MAX_WAITERS -> 0 <= j < NPK_FUTEX_MAX_WAITERS ->
    fw_active (slot s i) = true -> fw_active (slot s j) = true -> fw_thread (slot s i) = fw_thread (slot s j) -> i = j.

(** A thread whose wait is over. *)
Definition awake (result : Z) (t : thread) : thread :=
  let t := t <| t_futex_waiting := false |> <| t_futex_result := result |> in
  if decide (t_state t = THREAD_BLOCKED) then t <| t_state := THREAD_READY |> else t.

Lemma complete_other s t result i n :
  (forall j, i <= j < i + Z.of_nat n -> fw_active (slot s j) && (fw_thread (slot s j) =? t) = false) ->
  for_range (fun i s =>
    if negb (fw_active (slot s i)) || negb (fw_thread (slot s i) =? t) then s
    else
      let s := set_waiter s i (slot s i <| fw_active := false |>) in
      let th := thr s t <| t_futex_waiting := false |> <| t_futex_result := result |> in
      set_thread s t (if decide (t_state th = THREAD_BLOCKED) then th <| t_state := THREAD_READY |> else th)) i n s = s.
Proof.
  revert i; induction n as [|n IH]; intros i Hn; cbn [for_range]; [done|]. pose proof (Hn i ltac:(lia)) as Hi. cbn beta.
  replace (negb _ || negb _) with true by lia. apply IH. intros j Hj. apply Hn. lia.
Qed.

(** Nothing happens to a thread that does not wait. *)
Lemma complete_none s t result :
  (forall j, 0 <= j < NPK_FUTEX_MAX_WAITERS -> fw_active (slot s j) && (fw_thread (slot s j) =? t) = false) -> futex_complete_thread s t result = s.
Proof. intros Hn. apply complete_other. unfold NPK_FUTEX_MAX_WAITERS, NPK_MAX_THREADS in *. intros j Hj. apply Hn. lia. Qed.

(** A thread that waits in slot [i] leaves it and is woken. *)
Lemma complete_one s i result :
  one_slot s -> 0 <= i < NPK_FUTEX_MAX_WAITERS -> fw_active (slot s i) = true ->
  let t := fw_thread (slot s i) in
  futex_complete_thread s t result = set_thread (set_waiter s i (slot s i <| fw_active := false |>)) t (awake result (thr s t)).
Proof.
  intros Hone Hi Ha. cbv zeta. unfold futex_complete_thread. unfold NPK_FUTEX_MAX_WAITERS, NPK_MAX_THREADS in *.
  replace (Z.to_nat 256) with (Z.to_nat i + S (Z.to_nat (255 - i)))%nat by lia. rewrite for_range_app. cbn [for_range]. rewrite Z.add_0_l, Z2Nat.id by lia.
  rewrite (complete_other s _ _ 0 (Z.to_nat i)).
  2: { intros j Hj. destruct (fw_active (slot s j)) eqn:Ej; [|done]. destruct (fw_thread (slot s j) =? _) eqn:Et; [|done].
       exfalso. assert (j = i); [|lia]. apply Hone; try done; unfold NPK_FUTEX_MAX_WAITERS, NPK_MAX_THREADS; lia. }
  cbn beta. rewrite Ha, Z.eqb_refl. cbn [negb orb]. rewrite complete_other; [done|]. intros j Hj. rsimpl. rewrite aget_aset_ne by lia.
  destruct (fw_active (slot s j)) eqn:Ej; [|done]. destruct (fw_thread (slot s j) =? _) eqn:Et; [|done].
  exfalso. assert (j = i); [|lia]. apply Hone; try done; unfold NPK_FUTEX_MAX_WAITERS, NPK_MAX_THREADS; lia.
Qed.

(** ** Waking a set of slots *)

(** [s'] is [s] after the waiters in the slots [w] have been woken. *)
Record woken s (w : list Z) (result : Z) s' : Prop := {
  wk_slot : forall i, slot s' i = if decide (i ∈ w) then slot s i <| fw_active := false |> else slot s i;
  wk_thread : forall t, thr s' t = if decide (t ∈ map (fun i => fw_thread (slot s i)) w) then awake result (thr s t) else thr s t;
  wk_processes : p_processes s' = p_processes s;
  wk_current : p_current s' = p_current s;
  wk_env : p_env s' = p_env s }.

Lemma woken_nil s result : woken s [] result s.
Proof. constructor; try done; intros i; case_decide; by try set_solver. Qed.

Lemma woken_one_slot s w result s' : one_slot s -> woken s w result s' -> one_slot s'.
Proof.
  intros Hone W i j Hi Hj. rewrite !(wk_slot _ _ _ _ W). case_decide; destruct (decide (j ∈ w)); rsimpl; try done. by apply Hone.
Qed.

Lemma woken_step s w result s1 i :
  one_slot s -> 0 <= i < NPK_FUTEX_MAX_WAITERS -> fw_active (slot s i) = true -> i ∉ w -> Forall (fun j => 0 <= j < NPK_FUTEX_MAX_WAITERS /\ fw_active (slot s j) = true) w ->
  woken s w result s1 -> woken s (w ++ [i]) result (futex_complete_thread s1 (fw_thread (slot s1 i)) result).
Proof.
  intros Hone Hi Ha Hw Hall W. assert (Hsi : slot s1 i = slot s i) by (rewrite (wk_slot _ _ _ _ W); by case_decide).
  rewrite complete_one; [|by eapply woken_one_slot|done|by rewrite Hsi]. rewrite Hsi. destruct W as [W1 W2 W3 W4 W5]. constructor; try done.
  - intros j. rsimpl. rewrite aget_aset. case_decide as E; [subst j; case_decide; [done|set_solver]|]. rewrite W1. case_decide; destruct (decide (j ∈ w ++ [i])); try done; set_solver.
  - intros t. rsimpl. rewrite aget_aset, map_app. cbn [map]. case_decide as E.
    + subst t. case_decide as E1; [|set_solver]. rewrite W2. case_decide as E2; [|done]. exfalso. apply list_elem_of_fmap in E2 as (j & Ej & Hj).
      rewrite Forall_forall in Hall. destruct (Hall j Hj) as [Hj1 Hj2]. assert (i = j) by (by apply Hone). by subst j.
    + rewrite W2. case_decide; destruct (decide (t ∈ map _ w ++ _)); try done; set_solver.
Qed.

(** ** Wake *)

Definition matches s (root address i : Z) : bool :=
  fw_active (slot s i) && (fw_root (slot s i) =? root) && (fw_user_address (slot s i) =? address).

Definition matching s (root address n : Z) : list Z := filter (fun i => matches s root address i = true) (seqZ 0 n).

Lemma matching_S s root address n :
  0 <= n -> matching s root address (n + 1) = matching s root address n ++ if matches s root address n then [n] else [].
Proof.
  intros Hn. unfold matching. rewrite seqZ_app by lia. rewrite filter_app. f_equal. rewrite Z.add_0_l. change (seqZ n 1) with [0 + n]. rewrite Z.add_0_l.
  rewrite filter_cons. by case_decide as E; [rewrite E|destruct (matches _ _ _ _)].
Qed.

Lemma matching_in s root address n i : i ∈ matching s root address n -> 0 <= i < n /\ matches s root address i = true.
Proof. unfold matching. rewrite list_elem_of_filter, elem_of_seqZ. intros [? ?]. split; [lia|done]. Qed.

Lemma wake_internal s root address count :
  one_slot s -> 0 <= count ->
  let '(n, s') := futex_wake_internal s root address count in
  let w := take (Z.to_nat count) (matching s root address NPK_FUTEX_MAX_WAITERS) in
  n = Z.of_nat (length w) /\ woken s w 0 s'.
Proof.
  intros Hone Hc. unfold futex_wake_internal.
  match goal with |- context [for_range ?f 0 ?len ?a] => pose proof (for_range_inv (fun i '(n, s1) =>
    n = Z.of_nat (length (take (Z.to_nat count) (matching s root address i))) /\ woken s (take (Z.to_nat count) (matching s root address i)) 0 s1) f len 0 a) as L; set (r := for_range f 0 len a) in * end.
  change (0 + Z.of_nat (Z.to_nat NPK_FUTEX_MAX_WAITERS)) with NPK_FUTEX_MAX_WAITERS in L. destruct r as [n s']. apply L.
  - change (matching s root address 0) with (@nil Z). rewrite take_nil. split; [done|apply woken_nil].
  - clear L n s'. intros i [n s1] Hi [Hn W]. rewrite matching_S by lia. set (l := matching s root address i) in *.
    assert (Hl : forall j, j ∈ l -> 0 <= j < i /\ matches s root address j = true) by (intros j; apply matching_in).
    assert (Hni : i ∉ take (Z.to_nat count) l) by (intros Hx; apply elem_of_take in Hx as (k & Hk & _); apply list_elem_of_lookup_2, Hl in Hk; lia).
    assert (Hsi : slot s1 i = slot s i) by (rewrite (wk_slot _ _ _ _ W); by case_decide). cbv beta iota.
    rewrite length_take in Hn. destruct (n <? count) eqn:E1; cbn [negb].
    + rewrite (take_ge l) in * by lia. rewrite Hsi.
      destruct (matches s root address i) eqn:E2; unfold matches in E2.
      * replace (negb _ || negb _ || negb _) with false by lia. rewrite take_ge by (rewrite length_app; cbn; lia). rewrite length_app. cbn [length].
        split; [lia|]. rewrite <-Hsi. apply woken_step; try done; [lia|].
        apply Forall_forall. intros j Hj. apply Hl in Hj. unfold matches, NPK_FUTEX_MAX_WAITERS, NPK_MAX_THREADS in *. lia.
      * replace (negb _ || negb _ || negb _) with true by lia. rewrite app_nil_r, take_ge by lia. split; [lia|done].
    + rewrite take_app_le by lia. rewrite length_take. by split; [lia|].
Qed.


(** ** Timeouts *)

(** The deadline has passed; ticks are compared as a signed difference. *)
Definition expired s (i : Z) : bool :=
  fw_active (slot s i) && fw_timed (slot s i) && (i64 (po_timer_ticks (p_env s) - fw_deadline (slot s i)) >=? 0).

Definition expired_below s (n : Z) : list Z := filter (fun i => expired s i = true) (seqZ 0 n).

Lemma expired_below_S s n : 0 <= n -> expired_below s (n + 1) = expired_below s n ++ if expired s n then [n] else [].
Proof.
  intros Hn. unfold expired_below. rewrite seqZ_app by lia. rewrite filter_app. f_equal. rewrite Z.add_0_l. change (seqZ n 1) with [0 + n]. rewrite Z.add_0_l.
  rewrite filter_cons. by case_decide as E; [rewrite E|destruct (expired _ _)].
Qed.

Lemma expired_below_in s n i : i ∈ expired_below s n -> 0 <= i < n /\ expired s i = true.
Proof. unfold expired_below. rewrite list_elem_of_filter, elem_of_seqZ. intros [? ?]. split; [lia|done]. Qed.

(** A tick wakes exactly the waiters whose deadline has passed, with the
    result ETIMEDOUT; afterwards none of them is left in the table. *)
Theorem futex_expire_waiters_spec s :
  one_slot s ->
  woken s (expired_below s NPK_FUTEX_MAX_WAITERS) (- PROCESS_ETIMEDOUT) (futex_expire_waiters s) /\
  forall i, 0 <= i < NPK_FUTEX_MAX_WAITERS -> expired (futex_expire_waiters s) i = false.
Proof.
  intros Hone. assert (W : woken s (expired_below s NPK_FUTEX_MAX_WAITERS) (- PROCESS_ETIMEDOUT) (futex_expire_waiters s)).
  { unfold futex_expire_waiters. match goal with |- context [for_range ?f 0 ?len ?a] =>
      pose proof (for_range_inv (fun i s1 => woken s (expired_below s i) (- PROCESS_ETIMEDOUT) s1) f len 0 a) as L end.
    change (0 + Z.of_nat (Z.to_nat NPK_FUTEX_MAX_WAITERS)) with NPK_FUTEX_MAX_WAITERS in L. apply L; [apply woken_nil|]. clear L. intros i s1 Hi W.
    rewrite expired_below_S by lia. pose proof (expired_below_in s i) as Hin. set (l := expired_below s i) in *.
    assert (Hni : i ∉ l) by (intros Hx; apply Hin in Hx; lia).
    assert (Hsi : slot s1 i = slot s i) by (rewrite (wk_slot _ _ _ _ W); by case_decide). rewrite Hsi. destruct (expired s i) eqn:E; unfold expired in E.
    - replace (negb _ || negb _) with false by lia. replace (_ >=? 0) with true by lia. rewrite <-Hsi. apply woken_step; try done; [lia|].
      apply Forall_forall. intros j Hj. apply Hin in Hj. unfold expired, NPK_FUTEX_MAX_WAITERS, NPK_MAX_THREADS in *. lia.
    - rewrite app_nil_r. cif E1; [done|]. cif E2; [lia|done]. }
  split; [done|]. intros i Hi. unfold expired. rewrite (wk_env _ _ _ _ W), (wk_slot _ _ _ _ W). case_decide as E; [done|]. fold (expired s i).
  destruct (expired s i) eqn:E'; [|done]. exfalso. apply E. unfold expired_below. apply list_elem_of_filter. split; [done|]. apply elem_of_seqZ. lia.
Qed.

End Futex.
