(* ===== verification/ProcStep.v ===== *)
(** * Steps that keep the shape of the process tables

    Most of process.c changes a thread or a process without moving it: owners,
    thread and process ids stay, no process comes to life, no thread starts to
    run and no slot is taken or given back.  Every operation below is composed
    of such steps. *)

From Stdlib Require Import ZArith Lia Bool ZifyBool.
From stdpp Require Import base numbers list gmap.
From S2P Require Import Prelude Kstring Pmm Vmm Vm Proc ProcMem Signal.

Open Scope Z_scope.
Open Scope npk_scope.

Record calm_thread (t t' : thread) : Prop := {
  ct_owner : t_owner t' = t_owner t;
  ct_tid : t_tid t' = t_tid t;
  ct_ring : t_privilege_ring t' = t_privilege_ring t;
  ct_running : t_state t' = THREAD_RUNNING -> t_state t = THREAD_RUNNING;
  ct_unused : t_state t' = THREAD_UNUSED <-> t_state t = THREAD_UNUSED;
  ct_queue : queue_wf t -> queue_wf t' }.

Record calm_process (p p' : process) : Prop := {
  cp_alive : m_alive (pr_mm p') = true -> m_alive (pr_mm p) = true;
  cp_pid : pr_pid p' = pr_pid p;
  cp_parent : pr_parent_pid p' = pr_parent_pid p }.

(** Neither unused nor ended. *)
Definition live (t : thread) : bool := negb (bool_decide (t_state t = THREAD_UNUSED)) && negb (bool_decide (t_state t = THREAD_ZOMBIE)).

(** Moreover no thread ends and no process dies. *)
Record steady_thread (t t' : thread) : Prop := { sth_calm : calm_thread t t'; sth_live : live t' = live t }.
Record steady_process (p p' : process) : Prop := {
  spr_calm : calm_process p p';
  spr_alive : m_alive (pr_mm p') = m_alive (pr_mm p);
  spr_count : pr_thread_count p' = pr_thread_count p;
  spr_main : pr_main_thread p' = pr_main_thread p }.

#[export] Instance calm_thread_preorder : PreOrder calm_thread.
Proof.
  split; [by constructor|]. intros a b c [A1 A2 A6 A3 A4 A5] [B1 B2 B6 B3 B4 B5]. constructor; try congruence; try tauto.
Qed.

#[export] Instance calm_process_preorder : PreOrder calm_process.
Proof. split; [by constructor|]. intros a b c [A1 A2 A3] [B1 B2 B3]. constructor; try congruence. tauto. Qed.

#[export] Instance steady_thread_preorder : PreOrder steady_thread.
Proof. split; [by constructor|]. intros a b c [A1 A2] [B1 B2]. constructor; [by etrans|congruence]. Qed.

#[export] Instance steady_process_preorder : PreOrder steady_process.
Proof. split; [by constructor|]. intros a b c [A1 A2 A3 A4] [B1 B2 B3 B4]. constructor; try congruence. by etrans. Qed.

Section Step.
Context {K : Type} `{VmOps K} `{ProcOps K}.
Implicit Type s : proc K.
Notation thr s i := ((p_threads s).[i]).
Notation prc s i := ((p_processes s).[i]).
Notation slot s i := ((p_waiters s).[i]).

Record calm s s' : Prop := {
  cm_current : p_current s' = p_current s;
  cm_idle : p_idle s' = p_idle s;
  cm_thread : forall i, calm_thread (thr s i) (thr s' i);
  cm_process : forall i, calm_process (prc s i) (prc s' i) }.

#[export] Instance calm_preorder : PreOrder calm.
Proof.
  split; [by constructor|]. intros a b c [A1 A2 A3 A4] [B1 B2 B3 B4]. constructor; try congruence; intros i; [by rewrite (A3 i)|by rewrite (A4 i)].
Qed.

Record steady s s' : Prop := {
  sd_current : p_current s' = p_current s;
  sd_idle : p_idle s' = p_idle s;
  sd_next : p_next_pid s' = p_next_pid s /\ p_next_tid s' = p_next_tid s;
  sd_thread : forall i, steady_thread (thr s i) (thr s' i);
  sd_process : forall i, steady_process (prc s i) (prc s' i) }.

#[export] Instance steady_preorder : PreOrder steady.
Proof.
  split; [by constructor|]. intros a b c [A1 A2 [A5 A6] A3 A4] [B1 B2 [B5 B6] B3 B4].
  constructor; [congruence|congruence|split; congruence|intros i; etrans; [apply A3|apply B3]|intros i; etrans; [apply A4|apply B4]].
Qed.

Lemma steady_calm s s' : steady s s' -> calm s s'.
Proof. intros [A1 A2 _ A3 A4]. constructor; [done|done|intros i; apply A3|intros i; apply A4]. Qed.

(** ** Elementary steps *)

Lemma steady_mem s s' : mem_step s s' -> steady s s'.
Proof.
  intros [M1 M2 M3 M4 M6 M5]. constructor; try done; intros i; [by rewrite M1|]. destruct (M5 i) as (m & -> & Hm & _). constructor; try done. constructor; rsimpl; congruence.
Qed.

Lemma steady_set_thread s i t : steady_thread (thr s i) t -> steady s (set_thread s i t).
Proof. intros Ht. constructor; try done. intros j. rsimpl. rewrite aget_aset. by case_decide as E; [subst j|]. Qed.

Lemma steady_set_process s i p : steady_process (prc s i) p -> steady s (set_process s i p).
Proof. intros Hp. constructor; try done. intros j. rsimpl. rewrite aget_aset. by case_decide as E; [subst j|]. Qed.

Lemma calm_set_thread s i t : calm_thread (thr s i) t -> calm s (set_thread s i t).
Proof. intros Ht. constructor; try done. intros j. rsimpl. rewrite aget_aset. by case_decide as E; [subst j|]. Qed.

Lemma calm_set_process s i p : calm_process (prc s i) p -> calm s (set_process s i p).
Proof. intros Hp. constructor; try done. intros j. rsimpl. rewrite aget_aset. by case_decide as E; [subst j|]. Qed.

Lemma steady_set_kernel s k : steady s (set_kernel s k).
Proof. by constructor. Qed.

Lemma steady_set_waiter s i w : steady s (set_waiter s i w).
Proof. by constructor. Qed.

Lemma steady_for_range (f : Z -> proc K -> proc K) i n s : (forall k s1, i <= k < i + Z.of_nat n -> steady s1 (f k s1)) -> steady s (for_range f i n s).
Proof.
  intros Hf. apply (for_range_inv (fun _ s1 => steady s s1)); [done|]. intros k s1 Hk C. etrans; [exact C|]. by apply Hf.
Qed.

Lemma calm_for_range (f : Z -> proc K -> proc K) i n s : (forall k s1, i <= k < i + Z.of_nat n -> calm s1 (f k s1)) -> calm s (for_range f i n s).
Proof.
  intros Hf. apply (for_range_inv (fun _ s1 => calm s s1)); [done|]. intros k s1 Hk C. etrans; [exact C|]. by apply Hf.
Qed.

Lemma steady_mem_process s p k m : same_space (pr_mm (prc s p)) m -> steady s (set_process (set_kernel s k) p (prc s p <| pr_mm := m |>)).
Proof. intros. by apply steady_mem, mem_step_set. Qed.

Lemma copyout_steady s p a bytes : steady s (copyout_process s p a bytes).2.
Proof. apply steady_mem, copyout_process_mem. Qed.

Lemma copyin_steady s a n : steady s (vmm_copyin s a n).2.
Proof. apply steady_mem, vmm_copyin_mem. Qed.

Lemma copyout_user_steady s a bytes : steady s (vmm_copyout s a bytes).2.
Proof. apply steady_mem, vmm_copyout_mem. Qed.

End Step.

(** Changes of a thread or a process that are calm by looking at the fields. *)
Ltac calm_fields :=
  constructor; rsimpl; try done; try congruence;
  try (intros [? ? ?]; constructor; rsimpl; assumption).
Ltac queue_fields := intros [? ? ?]; constructor; rsimpl; assumption.
Ltac steady_fields := constructor; [calm_fields|..]; unfold live; rsimpl; try done; try congruence.

Section Operations.
Context {K : Type} `{VmOps K} `{ProcOps K}.
Implicit Type s : proc K.
Notation thr s i := ((p_threads s).[i]).
Notation prc s i := ((p_processes s).[i]).
Notation slot s i := ((p_waiters s).[i]).

(** ** Futexes *)

Lemma futex_complete_steady s t result : steady s (futex_complete_thread s t result).
Proof.
  apply steady_for_range. intros i s1 _. cif E; [done|]. etrans; [apply steady_set_waiter|]. apply steady_set_thread.
  case_decide as Es; rsimpl in Es; steady_fields; rewrite Es; by try split.
Qed.

Lemma futex_wake_steady s root address count : steady s (futex_wake_internal s root address count).2.
Proof.
  unfold futex_wake_internal. match goal with |- context [for_range ?f ?i ?n ?a] => apply (for_range_inv (fun _ r => steady s r.2) f n i a) end; [done|].
  intros i [woken s1] _ C. cbn [snd] in C |- *. cif E1; [done|]. cif E2; [done|]. cbn [snd]. etrans; [exact C|]. apply futex_complete_steady.
Qed.

Lemma futex_expire_steady s : steady s (futex_expire_waiters s).
Proof. apply steady_for_range. intros i s1 _. cif E1; [done|]. cif E2; [|done]. apply futex_complete_steady. Qed.

Lemma clear_child_tid_steady s t : steady s (clear_child_tid s t).
Proof.
  unfold clear_child_tid. destruct (t_owner (thr s t)) as [p|]; [|done]. cif E; [done|].
  match goal with |- steady s (set_thread ?x _ _) => assert (C : steady s x); [|etrans; [exact C|]; apply steady_set_thread; steady_fields] end.
  cif E1; [|done]. pose proof (ensure_space (p_env s) (pr_mm (prc s p)) (t_clear_child_tid (thr s t)) true) as Hm.
  destruct (vm_ensure_user_page _ _ _ _) as [[ok k] m]. cbn [snd] in Hm. pose proof (steady_mem_process s p k m Hm) as C1. destruct ok; [|done].
  set (s1 := set_process _ _ _) in *. pose proof (copyout_steady s1 p (t_clear_child_tid (thr s t)) (le_bytes 4 0)) as C2.
  destruct (copyout_process s1 p _ _) as [ok2 s2]. cbn [snd] in C2. etrans; [exact C1|]. etrans; [exact C2|]. apply futex_wake_steady.
Qed.

(** ** Releasing what a process holds *)

Lemma close_handle_steady s h : steady s (close_handle s h).
Proof. apply steady_set_kernel. Qed.

Lemma discard_steady s p : steady s (discard_incoming_fd_transfers s p).
Proof.
  unfold discard_incoming_fd_transfers. match goal with |- context [for_range ?f ?i ?n ?a] => assert (C : steady s (for_range f i n a)) end.
  { apply steady_for_range. intros i s1 _. cif E; [apply close_handle_steady|done]. }
  etrans; [exact C|]. apply steady_set_process. steady_fields.
Qed.

Lemma close_process_fds_steady s p : steady s (close_process_fds s p).
Proof. unfold close_process_fds. apply steady_for_range. intros i s1 _. cbv zeta. cif E; [|done]. etrans; [apply close_handle_steady|]. apply steady_set_process. steady_fields. Qed.

Lemma destroy_memory_alive kernel_root (k : K) m : m_alive (destroy_memory kernel_root k m).2 = m_alive m.
Proof. unfold destroy_memory, vm_destroy_all. cbv iota. destruct (m_root m =? 0); done. Qed.

Lemma destroy_steady s p : steady s (destroy_process_memory s p).
Proof.
  unfold destroy_process_memory. pose proof (destroy_memory_alive (p_kernel_root s) (p_env s) (pr_mm (prc s p))) as Hm.
  destruct (destroy_memory _ _ _) as [k m]. cbn [snd] in Hm. etrans; [apply steady_set_kernel|]. apply steady_set_process. steady_fields.
Qed.

Lemma unmap_alive (k : K) m a n : m_alive (vm_unmap k m a n).2 = m_alive m.
Proof.
  unfold vm_unmap.
  repeat match goal with
  | |- context [match page_align_up ?x with Some _ => _ | None => _ end] => destruct (page_align_up x)
  | |- context [match split_first ?f ?l with Some _ => _ | None => _ end] => destruct (split_first f l) as [[[? ?] ?]|]
  | |- context [let '(_, _) := ?x in _] => destruct x
  | |- context [if ?b then _ else _] => destruct b
  end; done.
Qed.

Lemma revoke_alive (k : K) m : m_alive (vm_revoke_device_mappings k m).2 = m_alive m.
Proof.
  unfold vm_revoke_device_mappings. generalize (m_vmas m) as l. intros l. revert k m. induction l as [|v l IH]; intros k m; cbn [fold_left]; [done|].
  destruct (hasb _ _); [|apply IH]. pose proof (unmap_alive k m (v_start v) (v_end v - v_start v)) as Hu. destruct (vm_unmap _ _ _ _) as [[? ?] ?]. by rewrite IH.
Qed.

(** ** Waiting parents *)

Lemma wake_parent_steady s child : steady s (wake_parent_waiter s child).
Proof.
  unfold wake_parent_waiter. cif E; [done|]. destruct (find_process_by_pid s _) as [parent|]; [|done]. cif E1; [done|].
  match goal with |- context [let '(_, _) := ?x in _] => assert (C : steady s x.2); [|destruct x as [ok s1]] end.
  { cif E2; [done|apply copyout_steady]. }
  cbn [snd] in C. destruct (find_index _ _ _) as [w|] eqn:Ef; [|done]. apply find_index_Some in Ef as (_ & Ew & _).
  apply andb_prop in Ew as [_ Ew]. apply bool_decide_eq_true in Ew. etrans; [exact C|].
  match goal with |- steady s1 (set_thread ?x _ _) => assert (C2 : steady s1 x) by (apply steady_set_process; destruct ok; steady_fields); etrans; [exact C2|] end.
  apply steady_set_thread. destruct (t_saved_interrupt_frame _); steady_fields; rewrite Ew; by try split.
Qed.

Lemma release_held_steady s p : steady s (release_held s p).
Proof.
  unfold release_held. cbv zeta. set (s2 := set_kernel s _). assert (C : steady s s2) by apply steady_set_kernel. clearbody s2.
  pose proof (revoke_alive (p_env s2) (pr_mm (prc s2 p))) as Hm. destruct (vm_revoke_device_mappings _ _) as [k m]. cbn [snd] in Hm. etrans; [exact C|].
  etrans; [|apply wake_parent_steady]. etrans; [|apply discard_steady]. etrans; [|apply close_process_fds_steady]. etrans; [|apply destroy_steady].
  etrans; [apply (steady_set_kernel s2 k)|]. apply steady_set_process.
  constructor; try done; constructor; try done. intros X. change (m_alive (pr_mm (prc s2 p)) = true). rewrite <-Hm. exact X.
Qed.

Lemma release_calm s p status : calm s (release_process s p status).
Proof. etrans; [|apply steady_calm, release_held_steady]. apply calm_set_process. unfold set_alive. calm_fields. Qed.

Lemma release_dead s p status : alive (prc (release_process s p status) p) = false.
Proof.
  unfold release_process. set (s1 := set_process s p _). assert (Hd : alive (prc s1 p) = false) by (subst s1; rsimpl; by rewrite aget_aset_eq). clearbody s1.
  unfold alive in *. by rewrite (spr_alive _ _ (sd_process _ _ (release_held_steady s1 p) p)).
Qed.

(** ** Exit *)

(** The end of one thread. *)
Lemma zombie_calm s s2 i status :
  t_state (thr s i) <> THREAD_UNUSED -> calm s s2 ->
  calm s (set_thread s2 i (thr s2 i <| t_thread_exit_status := status |> <| t_state := THREAD_ZOMBIE |>)).
Proof.
  intros Hu C. etrans; [exact C|]. apply calm_set_thread. destruct (cm_thread _ _ C i) as [_ _ _ _ Cu _]. calm_fields. split; [done|]. intros X. by apply Cu in X.
Qed.

Lemma end_futex_steady s i : steady s (futex_cancel_thread (clear_child_tid s i) i).
Proof. etrans; [apply clear_child_tid_steady|apply futex_complete_steady]. Qed.

Lemma end_thread_calm s i status : t_state (thr s i) <> THREAD_UNUSED -> calm s (end_thread s i status).
Proof.
  intros Hu. unfold end_thread. pose proof (steady_calm _ _ (end_futex_steady s i)) as C. set (s2 := futex_cancel_thread _ i) in *. clearbody s2. cbv zeta. by apply zombie_calm.
Qed.

Lemma end_threads_calm s p status : calm s (end_threads s p status).
Proof.
  apply calm_for_range. intros i s1 _. cif E; [done|]. apply orb_false_iff in E as [_ E]. apply bool_decide_eq_false in E. by apply end_thread_calm.
Qed.

(** Fields of a process that are no part of its identity. *)
Lemma calm_thread_count s p n : calm s (set_process s p (prc s p <| pr_thread_count := n |>)).
Proof. apply calm_set_process. calm_fields. Qed.

Lemma steady_group_exiting s p : steady s (set_process s p (prc s p <| pr_group_exiting := true |>)).
Proof. apply steady_set_process. steady_fields. Qed.

Lemma calm_main_thread s p t : calm s (set_process s p (prc s p <| pr_main_thread := t |>)).
Proof. apply calm_set_process. calm_fields. Qed.

Lemma exit_current_calm s status : calm s (process_exit_current s status).
Proof.
  unfold process_exit_current. destruct (running_owner s) as [[t p]|]; [|done]. etrans; [apply steady_calm, steady_group_exiting|]. etrans; [apply end_threads_calm|].
  etrans; [apply calm_thread_count|]. apply release_calm.
Qed.

Lemma elect_leader_calm s p t : calm s (elect_leader s p t).
Proof.
  unfold elect_leader. cif E; [|done]. destruct (find_index _ _ _) as [c|]; [|apply calm_main_thread].
  etrans; [apply (calm_set_thread s c (thr s c <| t_group_leader := true |>)); calm_fields|]. apply (calm_main_thread (set_thread s c _)).
Qed.

Lemma exit_thread_calm s status t p :
  running_owner s = Some (t, p) -> t_state (thr s t) <> THREAD_UNUSED -> calm s (process_exit_thread_current s status).
Proof.
  intros Hr Hu. unfold process_exit_thread_current. rewrite Hr. cif E; [done|]. etrans; [by apply (end_thread_calm s t status)|].
  set (s1 := end_thread s t status). clearbody s1. cbv zeta.
  assert (C : calm s1 (if pr_thread_count (prc s1 p) >? 0 then set_process s1 p (prc s1 p <| pr_thread_count := pr_thread_count (prc s1 p) - 1 |>) else s1))
    by (cif E1; [apply calm_thread_count|done]).
  etrans; [exact C|]. generalize (if pr_thread_count (prc s1 p) >? 0 then set_process s1 p (prc s1 p <| pr_thread_count := pr_thread_count (prc s1 p) - 1 |>) else s1) as s2. intros s2. etrans; [apply (elect_leader_calm s2 p t)|].
  set (s3 := elect_leader s2 p t). clearbody s3. cif E2; [|done]. etrans; [apply steady_calm, steady_group_exiting|]. apply release_calm.
Qed.

(** ** Signals *)

Lemma deliver_info_steady s f signal info : steady s (process_deliver_signal_with_info s f signal info).2.
Proof.
  unfold process_deliver_signal_with_info. destruct (p_current s) as [t|]; [|done]. destruct (process_current s) as [p|]; [|done].
  cif E1; [done|]. cif E2; [done|]. cbv zeta. cif E3; [done|]. cif E4; [done|].
  match goal with |- context [copyout_process s p ?a ?b] => pose proof (copyout_steady s p a b) as C1; destruct (copyout_process s p a b) as [ok1 s1] end. cbn [snd] in C1.
  destruct ok1; [|exact C1]. cbn [negb]. match goal with |- context [copyout_process s1 p ?a ?b] => pose proof (copyout_steady s1 p a b) as C2; destruct (copyout_process s1 p a b) as [ok2 s2] end.
  cbn [snd] in C2. assert (C12 : steady s s2) by (by etrans). destruct ok2; [|exact C12]. cbn [negb].
  match goal with |- context [let '(_, _) := ?x in _] => assert (C3 : steady s2 x.2); [|destruct x as [ok3 s3]] end.
  { destruct info as [i|]; [|done]. cif E5; [|done]. match goal with |- context [copyout_process s2 p ?a ?b] => pose proof (copyout_steady s2 p a b) as C3; destruct (copyout_process s2 p a b) as [ok3 s3] end.
    cbn [snd] in C3. destruct ok3; [|exact C3]. cbn [negb]. etrans; [exact C3|apply copyout_steady]. }
  cbn [snd] in C3. assert (C123 : steady s s3) by (by etrans). destruct ok3; [|exact C123]. cbn [negb snd]. etrans; [exact C123|]. apply steady_set_thread. unfold enter_handler. steady_fields.
Qed.

Lemma pop_steady t signal i t' : signal_queue_pop t signal = Some (i, t') -> steady_thread t t'.
Proof.
  intros E. pose proof (pop_fields _ _ _ _ E) as F. constructor; [|by rewrite F]. constructor; try (by rewrite F).
  intros Hw. pose proof (queue_pop t signal Hw) as Hp. rewrite E in Hp. by destruct Hp.
Qed.

Lemma take_pending_steady th signal : steady_thread th (take_pending th signal).2.
Proof.
  unfold take_pending. set (th0 := th <| t_signal_pending := _ |>). assert (C0 : steady_thread th th0) by steady_fields. clearbody th0.
  destruct (signal_queue_pop th0 signal) as [[i th1]|] eqn:E; cbv iota zeta.
  - apply pop_steady in E. cbn [snd]. etrans; [exact C0|]. etrans; [exact E|]. destruct (signal_queue_contains th1 signal); [steady_fields|done].
  - cbn [snd]. etrans; [exact C0|]. destruct (signal_queue_contains th0 signal); [steady_fields|done].
Qed.

End Operations.
