(* ===== verification/Sched.v ===== *)
(** * The scheduler

    The search for the next thread is round-robin, so a thread that stays
    runnable is chosen within one round; [scheduler_yield] returns, however
    many processes the signals of the threads it resumes bring down. *)

From Stdlib Require Import ZArith Lia Bool ZifyBool.
From stdpp Require Import base numbers list gmap.
From S2P Require Import Prelude Kstring Pmm Vmm Vm Proc ProcMem Signal ProcStep.

Open Scope Z_scope.
Open Scope npk_scope.

Section Sched.
Context {K : Type} `{VmOps K} `{ProcOps K}.
Implicit Type s : proc K.
Notation thr s i := ((p_threads s).[i]).
Notation prc s i := ((p_processes s).[i]).
Notation slot s i := ((p_waiters s).[i]).

(** ** Round-robin *)

(** May be chosen when the search starts after thread [from]. *)
Definition eligible s (from i : Z) (allow_idle : bool) : bool :=
  runnable s i && ((i =? from) || negb (i =? 0)) && (allow_idle || negb (bool_decide (p_idle s = Some i))).

(** The distance of the search from [from] to [i], 1 to 256. *)
Definition distance (from i : Z) : Z := (i - from - 1) mod NPK_MAX_THREADS + 1.

Lemma distance_range from i : 1 <= distance from i <= NPK_MAX_THREADS.
Proof. unfold distance, NPK_MAX_THREADS. mlia. Qed.

Lemma distance_place from i : 0 <= i < NPK_MAX_THREADS -> (from + distance from i) mod NPK_MAX_THREADS = i.
Proof. unfold distance, NPK_MAX_THREADS. intros. mlia. Qed.

Lemma distance_of from k : 1 <= k <= NPK_MAX_THREADS -> distance from ((from + k) mod NPK_MAX_THREADS) = k.
Proof. unfold distance, NPK_MAX_THREADS. intros. mlia. Qed.

(** The search finds the eligible thread nearest after the running one. *)
Lemma find_next_runnable_spec s from allow_idle :
  match find_next_runnable s (Some from) allow_idle with
  | Some t => 0 <= t < NPK_MAX_THREADS /\ eligible s from t allow_idle = true /\
      forall i, 0 <= i < NPK_MAX_THREADS -> eligible s from i allow_idle = true -> distance from t <= distance from i
  | None => forall i, 0 <= i < NPK_MAX_THREADS -> eligible s from i allow_idle = false
  end.
Proof.
  unfold find_next_runnable.
  set (f := fun offset => _). assert (Hf : forall k, f k = if eligible s from ((from + k) mod NPK_MAX_THREADS) allow_idle then Some ((from + k) mod NPK_MAX_THREADS) else None).
  { intros k. subst f. cbv beta zeta. unfold eligible. set (x := (from + k) mod NPK_MAX_THREADS).
    replace (bool_decide (Some from = Some x)) with (x =? from) by (destruct (x =? from) eqn:E; symmetry; [apply bool_decide_eq_true|apply bool_decide_eq_false]; [f_equal|intros X; injection X as X]; lia).
    destruct (runnable s x), (x =? from), (x =? 0), allow_idle, (bool_decide (p_idle s = Some x)); done. }
  destruct (first_some f 1 _) as [t|] eqn:E.
  - apply first_some_Some in E as (k & Hk & Hfk & Hlt). rewrite Z2Nat.id in Hk by (unfold NPK_MAX_THREADS; lia). rewrite Hf in Hfk.
    destruct (eligible s from _ allow_idle) eqn:Ee; [|done]. injection Hfk as <-. split; [apply Z.mod_pos_bound; unfold NPK_MAX_THREADS; lia|]. split; [done|].
    intros i Hi Hie. rewrite distance_of by lia. destruct (decide (distance from i < k)) as [Hd|]; [|lia]. exfalso. pose proof (distance_range from i).
    specialize (Hlt (distance from i) ltac:(lia)). rewrite Hf, distance_place in Hlt by done. by rewrite Hie in Hlt.
  - intros i Hi. pose proof (proj1 (first_some_None _ _ _) E (distance from i)) as Hn. pose proof (distance_range from i).
    rewrite Z2Nat.id in Hn by (unfold NPK_MAX_THREADS; lia). specialize (Hn ltac:(lia)). rewrite Hf, distance_place in Hn by done. by destruct (eligible s from i allow_idle).
Qed.

(** A thread other than the boot and idle threads that can run. *)
Definition waiting_turn s (t : Z) : Prop := 0 < t < NPK_MAX_THREADS /\ runnable s t = true /\ p_idle s <> Some t.

Lemma waiting_eligible s from t : waiting_turn s t -> eligible s from t false = true.
Proof. intros (Ht & Hr & Hi). unfold eligible. rewrite Hr, (bool_decide_eq_false_2 _ Hi). lia. Qed.

Lemma next_runnable_nearest s from t :
  waiting_turn s t -> exists n, next_runnable s (Some from) = Some n /\ next_non_idle_runnable s (Some from) = Some n /\
    0 <= n < NPK_MAX_THREADS /\ distance from n <= distance from t.
Proof.
  intros W. pose proof (find_next_runnable_spec s from false) as F. unfold next_runnable, next_non_idle_runnable.
  destruct (find_next_runnable s (Some from) false) as [n|].
  - destruct F as (F1 & F2 & F3). exists n. split; [done|]. split; [done|]. split; [done|]. apply F3; [destruct W; lia|by apply waiting_eligible].
  - exfalso. pose proof (F t ltac:(destruct W; lia)) as F1. by rewrite (waiting_eligible s from t W) in F1.
Qed.

Lemma distance_drop from n t :
  0 <= n < NPK_MAX_THREADS -> 0 <= t < NPK_MAX_THREADS -> n <> t -> distance from n <= distance from t -> distance n t = distance from t - distance from n.
Proof. unfold distance, NPK_MAX_THREADS. intros. mlia. Qed.

(** C19: Bounded waiting: take any run of the kernel in which [from i] is the thread
    that gives up the processor the [i]-th time, in state [st i], and the
    thread then chosen is the one that runs next.  A thread that stays runnable
    is chosen within 256 switches, whatever the other threads do in between. *)
Theorem scheduler_bounded_waiting (st : nat -> proc K) (from : nat -> Z) t :
  (forall i, next_runnable (st i) (Some (from i)) = Some (from (S i))) ->
  (forall i, (i < 256)%nat -> waiting_turn (st i) t) ->
  exists i, (i < 256)%nat /\ from (S i) = t.
Proof.
  intros Hrun Hw. assert (Hstep : forall i, (i < 256)%nat -> from (S i) = t \/ distance (from (S i)) t < distance (from i) t).
  { intros i Hi. destruct (next_runnable_nearest (st i) (from i) t (Hw i Hi)) as (n & Hn & _ & Hr & Hd). rewrite Hrun in Hn. injection Hn as <-.
    destruct (decide (from (S i) = t)) as [|Hne]; [by left|right]. rewrite distance_drop with (from := from i); [|done|destruct (Hw i Hi); lia|done|done].
    pose proof (distance_range (from i) (from (S i))). lia. }
  assert (Hind : forall n, (n <= 256)%nat -> (exists i, (i < n)%nat /\ from (S i) = t) \/ distance (from n) t <= 256 - Z.of_nat n).
  { induction n as [|n IH]; intros Hn; [right; pose proof (distance_range (from 0%nat) t); unfold NPK_MAX_THREADS in *; lia|].
    destruct IH as [(i & Hi & Hf)|Hd]; [lia|left; exists i; split; [lia|done]|]. destruct (Hstep n ltac:(lia)) as [Hf|Hlt]; [left; exists n; split; [lia|done]|right; lia]. }
  destruct (Hind 256%nat ltac:(lia)) as [(i & Hi & Hf)|Hd]; [by exists i|]. pose proof (distance_range (from 256%nat) t). lia.
Qed.

(** ** Termination of [scheduler_yield] *)

(** Every owner is an entry of the process table. *)
Definition owners_ok s : Prop := forall i p, t_owner (thr s i) = Some p -> 0 <= p < NPK_MAX_PROCESSES.

Definition alive_count s : nat := length (filter (fun p => alive (prc s p) = true) (seqZ 0 NPK_MAX_PROCESSES)).

Lemma calm_owners s s' : calm s s' -> owners_ok s -> owners_ok s'.
Proof. intros C Ho i p Hp. apply (Ho i). by rewrite <-(ct_owner _ _ (cm_thread _ _ C i)). Qed.

Lemma alive_count_le s s' : (forall p, alive (prc s' p) = true -> alive (prc s p) = true) -> (alive_count s' <= alive_count s)%nat.
Proof. intros Ha. by apply filter_length_le. Qed.

Lemma alive_count_bound s : (alive_count s <= 128)%nat.
Proof. unfold alive_count. etrans; [apply length_filter|]. by rewrite length_seqZ. Qed.

(** Ending the running process leaves one process less alive. *)
Lemma exit_count s status t p :
  owners_ok s -> running_owner s = Some (t, p) -> (alive_count (process_exit_current s status) < alive_count s)%nat.
Proof.
  intros Ho Hr. pose proof (exit_current_calm s status) as C. unfold alive_count. apply filter_length_lt with (y := p).
  - intros q. apply (cp_alive _ _ (cm_process _ _ C q)).
  - apply elem_of_seqZ. unfold running_owner in Hr. destruct (p_current s) as [c|]; [|done]. destruct (c =? 0); [done|].
    destruct (t_owner (thr s c)) as [q|] eqn:Eq; [|done]. destruct (alive _); [|done]. injection Hr as -> ->. apply Ho in Eq. lia.
  - unfold running_owner in Hr. destruct (p_current s) as [c|]; [|done]. destruct (c =? 0); [done|].
    destruct (t_owner (thr s c)) as [q|] eqn:Eq; [|done]. destruct (alive (prc s q)) eqn:Ea; [|done]. by injection Hr as -> ->.
  - unfold process_exit_current. rewrite Hr. cbv zeta. rewrite release_dead. done.
Qed.

(** Signal delivery only asks [terminate] about states that are calm. *)
Lemma deliver_one_ext T1 T2 f t p d signal s :
  (forall s1, calm s s1 -> T1 s1 signal = T2 s1 signal) -> deliver_one T1 f t p d signal s = deliver_one T2 f t p d signal s.
Proof.
  intros Hext. unfold deliver_one. cif E; [done|]. pose proof (take_pending_steady (thr s t) signal) as C. destruct (take_pending (thr s t) signal) as [info th]. cbn [snd] in C.
  apply steady_set_thread, steady_calm in C. set (s1 := set_thread s t th) in *. clearbody s1. cif E1; [done|]. cif E2; [by rewrite Hext|].
  pose proof (steady_calm _ _ (deliver_info_steady s1 f signal info)) as C2. destruct (process_deliver_signal_with_info s1 f signal info) as [[ok f'] s2]. cbn [snd] in C2.
  destruct ok; [done|]. rewrite Hext; [done|]. by etrans.
Qed.

Lemma deliver_one_calm T f t p d signal s s' : deliver_one T f t p d signal s = inl s' -> calm s s'.
Proof.
  unfold deliver_one. cif E; [by intros [= <-]|]. pose proof (take_pending_steady (thr s t) signal) as C. destruct (take_pending (thr s t) signal) as [info th]. cbn [snd] in C.
  apply steady_set_thread, steady_calm in C. set (s1 := set_thread s t th) in *. clearbody s1. cif E1; [by intros [= <-]|]. cif E2; [by destruct (T s1 signal)|].
  destruct (process_deliver_signal_with_info s1 f signal info) as [[ok f'] s2]. destruct ok; [done|]. by destruct (T s2 signal).
Qed.

Lemma deliver_pending_ext T1 T2 s f :
  (forall s1 signal, calm s s1 -> T1 s1 signal = T2 s1 signal) -> deliver_pending T1 s f = deliver_pending T2 s f.
Proof.
  intros Hext. unfold deliver_pending. destruct (p_current s) as [t|]; [|done]. destruct (process_current s) as [p|]; [|done]. cif E; [done|]. cbv zeta.
  set (d := Z.land _ _). rewrite (for_break_ext (calm s) (deliver_one T1 f t p d) (deliver_one T2 f t p d)); [done|done|].
  intros k s1 C. split; [|destruct (deliver_one T1 f t p d k s1) as [s2|] eqn:E1; [|done]; etrans; [exact C|by eapply deliver_one_calm]].
  apply deliver_one_ext. intros s2 C2. apply Hext. by etrans.
Qed.

Lemma deliver_on_resume_ext T1 T2 s t :
  (forall s1 signal, calm s s1 -> T1 s1 signal = T2 s1 signal) -> deliver_on_resume T1 s t = deliver_on_resume T2 s t.
Proof. intros Hext. unfold deliver_on_resume. destruct (t_saved_interrupt_frame _) as [f|]; [|done]. cif E; [|done]. by rewrite (deliver_pending_ext T1 T2 s f Hext). Qed.

(** Nothing but [activate_thread] and the saved frame changes on the way to
    the signals of the next thread. *)
Lemma activate_alive s t p : alive (prc (activate_thread s t) p) = alive (prc s p).
Proof. unfold activate_thread. destruct (t_owner _); [|done]. unfold load_thread. repeat (cif E; clear E); done. Qed.

Lemma activate_owner s t i : t_owner (thr (activate_thread s t) i) = t_owner (thr s i).
Proof.
  unfold activate_thread. destruct (t_owner (thr s t)) eqn:Eo; [|done]. unfold load_thread.
  repeat match goal with |- context [if ?b then _ else _] => destruct b end; rsimpl; rewrite aget_aset; case_decide as E; by try subst i.
Qed.

Lemma frame_for_steady s t : steady s (frame_for s t).
Proof.
  unfold frame_for. destruct (t_saved_interrupt_frame _); [done|]. unfold materialize_context_frame. cif E; [done|]. apply steady_set_thread. steady_fields.
Qed.

(** The state in which the signals of the next thread are looked at. *)
Lemma switch_count s old th next :
  t_owner th = t_owner (thr s old) -> owners_ok s ->
  let s1 := frame_for (activate_thread (set_thread s old th) next <| p_reschedule_pending := false |>) next in
  owners_ok s1 /\ (alive_count s1 <= alive_count s)%nat.
Proof.
  intros Hth Ho. cbv zeta. pose proof (frame_for_steady (activate_thread (set_thread s old th) next <| p_reschedule_pending := false |>) next) as C%steady_calm.
  set (s1 := frame_for _ next) in *. clearbody s1. split.
  - eapply calm_owners; [exact C|]. intros i p. change (t_owner (thr (activate_thread (set_thread s old th) next) i) = Some p -> 0 <= p < NPK_MAX_PROCESSES).
    rewrite activate_owner. rsimpl. rewrite aget_aset. case_decide as E; [|apply Ho]. rewrite Hth. apply Ho.
  - apply alive_count_le. intros p Hp. apply (cp_alive _ _ (cm_process _ _ C p)) in Hp.
    change (alive (prc (activate_thread (set_thread s old th) next) p) = true) in Hp. by rewrite activate_alive in Hp.
Qed.

Lemma yield_within_stable stuck1 stuck2 n : forall m s, owners_ok s -> (alive_count s < n)%nat -> (alive_count s < m)%nat ->
  yield_within stuck1 n s = yield_within stuck2 m s.
Proof.
  induction n as [|n IH]; intros m s Ho Hn Hm; [lia|]. destruct m as [|m]; [lia|]. cbn [yield_within].
  destruct (p_current s) as [old|]; [|done]. destruct (next_runnable s (Some old)) as [next|]; [|done]. cif E1; [done|]. cbv zeta.
  match goal with |- context [activate_thread (set_thread s old ?x) next] => set (th := x) end.
  assert (Hth : t_owner th = t_owner (thr s old)) by (subst th; repeat match goal with |- context [if ?b then _ else _] => destruct b end; done).
  destruct (switch_count s old th next Hth Ho) as [Ho1 Hc1]. clearbody th. cif E2; [done|].
  set (s1 := frame_for _ next) in *. clearbody s1.
  rewrite (deliver_on_resume_ext (process_terminate_by_signal (yield_within stuck1 n)) (process_terminate_by_signal (yield_within stuck2 m)) s1 next); [done|].
  intros s2 signal C. unfold process_terminate_by_signal. destruct (running_owner s2) as [[t p]|] eqn:Er; [|done].
  pose proof (calm_owners _ _ C Ho1) as Ho2. pose proof (exit_count s2 (if 128 + signal >? 255 then 255 else 128 + signal) t p Ho2 Er) as Hlt.
  assert (Hc2 : (alive_count s2 <= alive_count s1)%nat) by (apply alive_count_le; intros q; apply (cp_alive _ _ (cm_process _ _ C q))).
  pose proof (exit_current_calm s2 (if 128 + signal >? 255 then 255 else 128 + signal)) as Ce. set (s3 := process_exit_current s2 _) in *. clearbody s3.
  rewrite (IH m s3); [done|by eapply calm_owners|lia|lia].
Qed.

(** C20: [scheduler_yield] returns.  It calls itself only after a pending signal
    has ended the process of the thread it was about to resume, so however the
    signals of the threads fall, the recursion is never deeper than there are
    processes: the answer given when the levels run out is never used and more
    levels change nothing. *)
Theorem scheduler_yield_total s stuck fuel :
  owners_ok s -> (YIELD_FUEL <= fuel)%nat -> yield_within stuck fuel s = scheduler_yield s.
Proof.
  intros Ho Hf. pose proof (alive_count_bound s) as Hb. apply yield_within_stable; [done| |].
  - eapply Nat.le_lt_trans; [exact Hb|]. eapply Nat.lt_le_trans; [|exact Hf]. apply Nat.ltb_lt. vm_compute. reflexivity.
  - eapply Nat.le_lt_trans; [exact Hb|]. apply Nat.ltb_lt. vm_compute. reflexivity.
Qed.

End Sched.
