(* ===== verification/ProcInv.v ===== *)
(** * The process tables stay consistent

    Every operation of process.c keeps the owners of the threads in the table,
    at most one thread running besides the boot thread, process ids unique, the
    signal queues in order, and the thread count of every process equal to the
    number of its threads that have not ended. *)

From Stdlib Require Import ZArith Lia Bool ZifyBool.
From stdpp Require Import base numbers list gmap.
From S2P Require Import Prelude Kstring Pmm Vmm Vm Proc ProcMem Signal ProcStep Sched.

Open Scope Z_scope.
Open Scope npk_scope.

Section Inv.
Context {K : Type} `{VmOps K} `{ProcOps K}.
Implicit Type s : proc K.
Notation thr s i := ((p_threads s).[i]).
Notation prc s i := ((p_processes s).[i]).
Notation slot s i := ((p_waiters s).[i]).

(** The threads of process [p] that have not ended. *)
Definition member s (p i : Z) : Prop := t_owner (thr s i) = Some p /\ live (thr s i) = true.
Definition live_count s (p : Z) : Z := Z.of_nat (length (filter (member s p) (seqZ 0 NPK_MAX_THREADS))).

Definition user_slot (p : Z) : Prop := 1 <= p < NPK_MAX_PROCESSES.
Definition table_slot (p : Z) : Prop := 0 <= p < NPK_MAX_PROCESSES.

(** The invariant while an operation is under way: [d p] threads of [p] have
    been added but not yet counted, and the main thread of [x] is not settled. *)
Record proc_inv_but (d : Z -> Z) (x : option Z) s : Prop := {
  pi_owner : owners_ok s;
  pi_boot : t_owner (thr s 0) = Some 0;
  pi_ring : forall i, t_privilege_ring (thr s i) = 3 -> t_owner (thr s i) <> Some 0;
  pi_current : exists t, p_current s = Some t /\ 0 <= t < NPK_MAX_THREADS;
  pi_running : forall i, t_state (thr s i) = THREAD_RUNNING -> i = 0 \/ p_current s = Some i;
  pi_unused : forall i, t_state (thr s i) = THREAD_UNUSED -> t_owner (thr s i) = None;
  pi_queue : forall i, queue_wf (thr s i);
  pi_pid : forall p q, table_slot p -> table_slot q -> pr_pid (prc s p) <> 0 -> pr_pid (prc s p) = pr_pid (prc s q) -> p = q;
  pi_fresh : forall p, table_slot p -> 0 <= pr_pid (prc s p) < p_next_pid s;
  pi_alive : forall p, table_slot p -> alive (prc s p) = true -> pr_pid (prc s p) <> 0;
  pi_count : forall p, user_slot p -> if alive (prc s p) then pr_thread_count (prc s p) + d p = live_count s p else live_count s p = 0;
  pi_main : forall p t, user_slot p -> Some p <> x -> alive (prc s p) = true -> pr_main_thread (prc s p) = Some t -> 0 <= t < NPK_MAX_THREADS /\ member s p t }.

Definition settled : Z -> Z := fun _ => 0.

Definition proc_inv s : Prop :=
  proc_inv_but settled None s /\ forall p, user_slot p -> alive (prc s p) = true -> 0 < pr_thread_count (prc s p).

(** ** Counting threads *)

Lemma live_count_ext s s' p : (forall i, 0 <= i < NPK_MAX_THREADS -> member s' p i <-> member s p i) -> live_count s' p = live_count s p.
Proof.
  intros Hm. unfold live_count. do 2 f_equal. apply filter_ext_in. intros i Hi. apply elem_of_seqZ in Hi. apply Hm. lia.
Qed.

Lemma live_count_add s s' p i :
  0 <= i < NPK_MAX_THREADS -> (forall j, j <> i -> member s' p j <-> member s p j) -> member s' p i -> ~ member s p i -> live_count s' p = live_count s p + 1.
Proof.
  intros Hi Hm Hy Hn. unfold live_count. rewrite (filter_length_flip (member s' p) (member s p) _ i); [lia|apply NoDup_seqZ|apply elem_of_seqZ; lia| |done|done].
  intros j _ Hj. by apply Hm.
Qed.

Lemma live_count_pos s p i : 0 <= i < NPK_MAX_THREADS -> member s p i -> 0 < live_count s p.
Proof.
  intros Hi Hm. unfold live_count. assert (i ∈ filter (member s p) (seqZ 0 NPK_MAX_THREADS)) as Hin by (apply list_elem_of_filter; split; [done|apply elem_of_seqZ; lia]).
  destruct (filter _ _); [by apply not_elem_of_nil in Hin|cbn; lia].
Qed.

Lemma live_count_zero s p : live_count s p = 0 -> forall i, 0 <= i < NPK_MAX_THREADS -> ~ member s p i.
Proof. intros Hz i Hi Hm. pose proof (live_count_pos s p i Hi Hm). lia. Qed.

(** ** Steady steps *)

Lemma steady_member s s' p i : steady s s' -> member s' p i <-> member s p i.
Proof. intros S. unfold member. destruct (sd_thread _ _ S i) as [[Co _ _ _ _ _] Cl]. by rewrite Co, Cl. Qed.

Lemma steady_inv d x s s' : steady s s' -> proc_inv_but d x s -> proc_inv_but d x s'.
Proof.
  intros S [I1 I2 I12 I3 I4 I5 I6 I7 I8 I9 I10 I11]. pose proof S as [S1 S2 [S3 S3'] S4 S5].
  assert (Hp : forall p, pr_pid (prc s' p) = pr_pid (prc s p)) by (intros p; apply (S5 p)).
  assert (Ha : forall p, alive (prc s' p) = alive (prc s p)) by (intros p; apply (S5 p)).
  assert (Hl : forall p, live_count s' p = live_count s p) by (intros p; apply live_count_ext; intros; by apply steady_member). constructor.
  - eapply calm_owners; [by apply steady_calm|done].
  - destruct (S4 0) as [[Co _ _ _ _ _] _]. congruence.
  - intros i. destruct (S4 i) as [[Co _ Cr _ _ _] _]. rewrite Co, Cr. apply I12.
  - by rewrite S1.
  - intros i Hi. rewrite S1. apply I4. by apply (S4 i).
  - intros i Hi. destruct (S4 i) as [[Co _ _ _ Cu _] _]. rewrite Co. apply I5. by apply Cu.
  - intros i. apply (S4 i), I6.
  - intros p q Hpt Hqt. rewrite !Hp. by apply I7.
  - intros p Ht. rewrite Hp, S3. by apply I8.
  - intros p Ht. rewrite Hp, Ha. by apply I9.
  - intros p Hu. rewrite Ha, Hl, (spr_count _ _ (S5 p)). by apply I10.
  - intros p t Hu Hx. rewrite Ha, (spr_main _ _ (S5 p)). intros Hal Hm. destruct (I11 p t Hu Hx Hal Hm) as [Ht Hmem]. split; [done|]. by apply (steady_member s s').
Qed.

Lemma steady_proc_inv s s' : steady s s' -> proc_inv s -> proc_inv s'.
Proof.
  intros S [I P]. split; [by eapply steady_inv|]. intros p Hu. pose proof (sd_process _ _ S p) as [_ Ha Hc _]. unfold alive. rewrite Ha, Hc. by apply P.
Qed.

(** ** One thread changes *)

Definition contrib (t : thread) (p : Z) : Z := if bool_decide (t_owner t = Some p) && live t then 1 else 0.

Lemma contrib_member s p i : contrib (thr s i) p = 1 <-> member s p i.
Proof. unfold contrib, member. destruct (bool_decide (t_owner (thr s i) = Some p)) eqn:E; [apply bool_decide_eq_true in E|apply bool_decide_eq_false in E]; destruct (live (thr s i)); cbn; naive_solver. Qed.

Lemma contrib_cases t p : contrib t p = 0 \/ contrib t p = 1.
Proof. unfold contrib. destruct (_ && _); [by right|by left]. Qed.

Lemma member_set s t th p i : member (set_thread s t th) p i <-> if decide (t = i) then contrib th p = 1 else member s p i.
Proof.
  rewrite <-contrib_member. rsimpl. rewrite aget_aset. case_decide; [done|]. apply contrib_member.
Qed.

Lemma live_count_set s t th p :
  0 <= t < NPK_MAX_THREADS -> live_count (set_thread s t th) p = live_count s p - contrib (thr s t) p + contrib th p.
Proof.
  intros Ht. pose proof (member_set s t th p) as M. assert (Mo : forall j, j <> t -> member (set_thread s t th) p j <-> member s p j) by (intros j Hj; rewrite M; by case_decide).
  assert (Mt : member (set_thread s t th) p t <-> contrib th p = 1) by (rewrite M; by case_decide). pose proof (contrib_member s p t) as Ms.
  destruct (contrib_cases th p) as [E1|E1], (contrib_cases (thr s t) p) as [E2|E2]; rewrite E1, E2 in *.
  - rewrite (live_count_ext s (set_thread s t th) p); [lia|]. intros i _. destruct (decide (i = t)) as [->|]; [|by apply Mo]. split; intros X; [by apply Mt in X|by apply Ms in X].
  - rewrite (live_count_add (set_thread s t th) s p t); [lia|done|intros j Hj; symmetry; by apply Mo|by apply Ms|intros X; by apply Mt in X].
  - rewrite (live_count_add s (set_thread s t th) p t); [lia|done|done|by apply Mt|intros X; by apply Ms in X].
  - rewrite (live_count_ext s (set_thread s t th) p); [lia|]. intros i _. destruct (decide (i = t)) as [->|]; [|by apply Mo]. split; intros _; [by apply Ms|by apply Mt].
Qed.

Record fits s (t : Z) (th : thread) : Prop := {
  ft_boot : t = 0 -> t_owner th = Some 0;
  ft_ring : t_privilege_ring th = 3 -> t_owner th <> Some 0;
  ft_owner : forall p, t_owner th = Some p -> table_slot p;
  ft_running : t_state th = THREAD_RUNNING -> t = 0 \/ p_current s = Some t;
  ft_unused : t_state th = THREAD_UNUSED -> t_owner th = None;
  ft_queue : queue_wf th }.

Lemma set_thread_inv d d' x x' s t th :
  proc_inv_but d x s -> 0 <= t < NPK_MAX_THREADS -> fits s t th ->
  (forall p, user_slot p -> alive (prc s p) = true -> d' p = d p - contrib (thr s t) p + contrib th p) ->
  (forall p, user_slot p -> alive (prc s p) = false -> contrib th p = 0) ->
  (forall p u, user_slot p -> Some p <> x' -> alive (prc s p) = true -> pr_main_thread (prc s p) = Some u ->
     0 <= u < NPK_MAX_THREADS /\ if decide (t = u) then contrib th p = 1 else member s p u) ->
  proc_inv_but d' x' (set_thread s t th).
Proof.
  intros [I1 I2 I12 I3 I4 I5 I6 I7 I8 I9 I10 I11] Ht [F1 F6 F2 F3 F4 F5] Hd Hdead Hmain. constructor; try done.
  - intros i p. rsimpl. rewrite aget_aset. case_decide; [apply F2|apply I1].
  - rsimpl. rewrite aget_aset. case_decide; [by apply F1|done].
  - intros i. rsimpl. rewrite aget_aset. case_decide; [apply F6|apply I12].
  - intros i. rsimpl. rewrite aget_aset. case_decide as E; [subst i; apply F3|apply I4].
  - intros i. rsimpl. rewrite aget_aset. case_decide as E; [subst i; apply F4|apply I5].
  - intros i. rsimpl. rewrite aget_aset. case_decide as E; [done|apply I6].
  - intros p Hp. specialize (I10 p Hp). rewrite live_count_set by done. change (prc (set_thread s t th) p) with (prc s p).
    destruct (alive (prc s p)) eqn:Ea; [rewrite (Hd p Hp Ea); lia|]. rewrite (Hdead p Hp Ea).
    destruct (contrib_cases (thr s t) p) as [E|E]; [lia|]. apply contrib_member in E. by apply (live_count_zero s p I10 t Ht) in E.
  - intros p u Hp Hx Ha Hm. destruct (Hmain p u Hp Hx Ha Hm) as [Hu Hmem]. split; [done|]. by apply member_set.
Qed.

(** ** One process changes *)

Record process_fits (d' : Z -> Z) (x' : option Z) s (p : Z) (P : process) (n : Z) : Prop := {
  pf_next : p_next_pid s <= n;
  pf_fresh : 0 <= pr_pid P < n;
  pf_unique : pr_pid P <> 0 -> forall q, table_slot q -> q <> p -> pr_pid (prc s q) <> pr_pid P;
  pf_alive : alive P = true -> pr_pid P <> 0;
  pf_count : if alive P then pr_thread_count P + d' p = live_count s p else live_count s p = 0;
  pf_main : forall t, Some p <> x' -> alive P = true -> pr_main_thread P = Some t -> 0 <= t < NPK_MAX_THREADS /\ member s p t }.

Lemma set_process_inv d d' x x' s p P n :
  proc_inv_but d x s -> user_slot p -> process_fits d' x' s p P n ->
  (forall q, q <> p -> d' q = d q) -> (forall q, q <> p -> Some q <> x' -> Some q <> x) ->
  proc_inv_but d' x' (set_process (s <| p_next_pid := n |>) p P).
Proof.
  intros [I1 I2 I12 I3 I4 I5 I6 I7 I8 I9 I10 I11] Hp [F1 F2 F3 F4 F5 F6] Hd Hx. assert (Hpt : table_slot p) by (unfold user_slot, table_slot in *; lia).
  assert (Hq : forall q, prc (set_process (s <| p_next_pid := n |>) p P) q = if decide (p = q) then P else prc s q) by (intros q; rsimpl; apply aget_aset).
  constructor; try done.
  - intros q r Hqt Hrt. rewrite !Hq. repeat case_decide; try congruence; subst.
    + intros Hn He. exfalso. by apply (F3 Hn r Hrt ltac:(done)).
    + intros Hn He. exfalso. apply (F3 ltac:(congruence) q Hqt ltac:(done)). done.
    + by apply I7.
  - intros q Hqt. rewrite Hq. change (p_next_pid (set_process (s <| p_next_pid := n |>) p P)) with n. case_decide; [done|]. specialize (I8 q Hqt). lia.
  - intros q Hqt. rewrite Hq. case_decide; [done|by apply I9].
  - intros q Hqu. change (live_count (set_process (s <| p_next_pid := n |>) p P) q) with (live_count s q). rewrite Hq. case_decide; [by subst q|]. rewrite Hd by done. by apply I10.
  - intros q t Hqu Hqx. rewrite Hq. case_decide; [subst q; by apply F6|]. intros Ha Hm. by apply (I11 q t Hqu (Hx q ltac:(done) Hqx)).
Qed.

Lemma same_next s p P : set_process (s <| p_next_pid := p_next_pid s |>) p P = set_process s p P.
Proof. by destruct s. Qed.

(** Fields of a process other than its identity, life and main thread. *)
Lemma update_process_inv d d' x s p P :
  proc_inv_but d x s -> user_slot p -> pr_pid P = pr_pid (prc s p) -> (alive P = true -> alive (prc s p) = true) ->
  (forall q, q <> p -> d' q = d q) -> (if alive P then pr_thread_count P + d' p = live_count s p else live_count s p = 0) ->
  (pr_main_thread P = pr_main_thread (prc s p) \/ x = Some p) -> proc_inv_but d' x (set_process s p P).
Proof.
  intros I Hp Hpid Ha Hd Hc Hm. rewrite <-same_next. assert (Hpt : table_slot p) by (unfold user_slot, table_slot in *; lia).
  eapply set_process_inv; [done|done| |done|done]. destruct I as [I1 I2 I12 I3 I4 I5 I6 I7 I8 I9 I10 I11]. constructor; try done.
  - rewrite Hpid. by apply I8.
  - intros Hn q Hqt Hqp He. apply Hqp. apply I7; congruence.
  - intros HP. rewrite Hpid. apply I9; auto.
  - intros t Hx HP Hmt. destruct Hm as [Hm|Hm]; [|congruence]. apply I11; [done|done|auto|congruence].
Qed.

(** ** Running threads *)

Lemma load_thread_steady s t p root : steady s (load_thread s t p root).
Proof. unfold load_thread. destruct (negb (root =? 0) && _); by constructor. Qed.

Lemma set_current_inv d x s t :
  proc_inv_but d x s -> 0 <= t < NPK_MAX_THREADS -> (forall i, t_state (thr s i) = THREAD_RUNNING -> i = 0 \/ i = t) -> proc_inv_but d x (s <| p_current := Some t |>).
Proof.
  intros [I1 I2 I12 I3 I4 I5 I6 I7 I8 I9 I10 I11] Ht Hr. constructor; try done; [by exists t|]. intros i Hi. destruct (Hr i Hi) as [E|E]; subst i; [by left|by right].
Qed.

(** A live thread in any other live state counts as before. *)
Lemma contrib_state t st p :
  live t = true -> st <> THREAD_UNUSED -> st <> THREAD_ZOMBIE -> contrib (t <| t_state := st |>) p = contrib t p.
Proof. intros Hl Hu Hz. unfold contrib. rewrite Hl. unfold live. rsimpl.
  by rewrite (bool_decide_eq_false_2 (st = THREAD_UNUSED)), (bool_decide_eq_false_2 (st = THREAD_ZOMBIE)) by done.
Qed.

Lemma live_not_unused t : live t = true -> t_state t <> THREAD_UNUSED.
Proof. unfold live. intros Hl E. rewrite E in Hl. done. Qed.

Lemma set_state_inv d x s t st :
  proc_inv_but d x s -> 0 <= t < NPK_MAX_THREADS -> live (thr s t) = true -> st <> THREAD_UNUSED -> st <> THREAD_ZOMBIE ->
  (st = THREAD_RUNNING -> t = 0 \/ p_current s = Some t) -> proc_inv_but d x (set_thread s t (thr s t <| t_state := st |>)).
Proof.
  intros I Ht Hl Hu Hz Hr. pose proof I as [I1 I2 I12 I3 I4 I5 I6 I7 I8 I9 I10 I11]. eapply set_thread_inv; [done|done| | | |].
  - constructor; rsimpl; try done; [by intros ->|apply I12|by apply I1|]. destruct (I6 t) as [? ? ?]. by constructor.
  - intros p _ _. rewrite contrib_state by done. lia.
  - intros p Hp Ha. rewrite contrib_state by done. destruct (contrib_cases (thr s t) p) as [E|E]; [done|]. apply contrib_member in E.
    specialize (I10 p Hp). rewrite Ha in I10. by apply (live_count_zero s p I10 t Ht) in E.
  - intros p u Hp Hx Ha Hm. destruct (I11 p u Hp Hx Ha Hm) as [Hur Hmem]. split; [done|]. case_decide; [|done]. subst u. rewrite contrib_state by done. by apply contrib_member.
Qed.

Lemma activate_inv d x s t :
  proc_inv_but d x s -> 0 <= t < NPK_MAX_THREADS -> live (thr s t) = true -> t_owner (thr s t) <> None ->
  (forall i, t_state (thr s i) = THREAD_RUNNING -> i = 0 \/ i = t) -> proc_inv_but d x (activate_thread s t).
Proof.
  intros I Ht Hl Ho Hr. unfold activate_thread. destruct (t_owner (thr s t)) as [p|]; [|done].
  set (s1 := set_thread _ t _). assert (I1 : proc_inv_but d x s1).
  { subst s1. pose proof (set_state_inv d x (s <| p_current := Some t |>) t THREAD_RUNNING) as L. change (thr (s <| p_current := Some t |>) t) with (thr s t) in L.
    apply L; try done; [by apply set_current_inv|by right]. }
  clearbody s1. cbv zeta. set (s2 := load_thread s1 t p _). assert (I2 : proc_inv_but d x s2) by (eapply steady_inv; [apply load_thread_steady|exact I1]). clearbody s2.
  cif E; [|done]. eapply steady_inv; [|exact I2]. by constructor.
Qed.

Lemma runnable_live s t : runnable s t = true -> live (thr s t) = true /\ t_owner (thr s t) <> None.
Proof.
  unfold runnable. intros [E1 E2]%andb_prop. apply bool_decide_eq_true in E1. unfold live. rewrite E1. split; [done|]. by destruct (t_owner (thr s t)).
Qed.

(** The owner of the processor steps back before another thread is activated. *)
Lemma stepped_back s old th :
  proc_inv s -> p_current s = Some old -> steady_thread (thr s old) th -> t_state th <> THREAD_RUNNING ->
  proc_inv (set_thread s old th) /\ forall i, t_state (thr (set_thread s old th) i) = THREAD_RUNNING -> i = 0.
Proof.
  intros I Hc Hth Hs. split; [eapply steady_proc_inv; [by apply steady_set_thread|done]|]. intros i. rsimpl. rewrite aget_aset. case_decide; [done|].
  intros Hr. destruct I as [I _]. destruct (pi_running _ _ _ I i Hr) as [|Hi]; [done|]. congruence.
Qed.

Lemma activate_proc_inv s t :
  proc_inv s -> 0 <= t < NPK_MAX_THREADS -> runnable s t = true ->
  (forall i, t_state (thr s i) = THREAD_RUNNING -> i = 0 \/ i = t) -> proc_inv (activate_thread s t).
Proof.
  intros [I P] Ht Hr Hrun. destruct (runnable_live s t Hr) as [Hl Ho]. split; [by apply activate_inv|].
  intros p Hp. rewrite activate_alive. intros Ha. unfold activate_thread. destruct (t_owner (thr s t)); [|by apply P].
  unfold load_thread. repeat match goal with |- context [if ?b then _ else _] => destruct b end; by apply P.
Qed.

(** ** Exit *)

(** Threads of [p] may have ended, and nothing else. *)
Record ending (p : Z) s s' : Prop := {
  en_current : p_current s' = p_current s;
  en_idle : p_idle s' = p_idle s;
  en_next : p_next_pid s' = p_next_pid s;
  en_thread : forall i, calm_thread (thr s i) (thr s' i);
  en_live : forall i, live (thr s' i) = true -> live (thr s i) = true;
  en_other : forall i, t_owner (thr s i) <> Some p -> live (thr s' i) = live (thr s i);
  en_process : forall i, steady_process (prc s i) (prc s' i) }.

Lemma ending_steady p s s' : steady s s' -> ending p s s'.
Proof. intros [S1 S2 [S3 S3'] S4 S5]. constructor; try done; intros i; destruct (S4 i) as [Sc Sl]; by rewrite ?Sl. Qed.

Lemma ending_trans p s1 s2 s3 : ending p s1 s2 -> ending p s2 s3 -> ending p s1 s3.
Proof.
  intros [A1 A2 A3 A4 A7 A5 A6] [B1 B2 B3 B4 B7 B5 B6]. constructor; try congruence.
  - intros i. etrans; [apply A4|apply B4].
  - auto.
  - intros i Hi. rewrite B5; [by apply A5|]. by rewrite (ct_owner _ _ (A4 i)).
  - intros i. etrans; [apply A6|apply B6].
Qed.

Lemma zombie_ending s s2 i p status :
  t_state (thr s i) <> THREAD_UNUSED -> t_owner (thr s i) = Some p -> steady s s2 ->
  let s' := set_thread s2 i (thr s2 i <| t_thread_exit_status := status |> <| t_state := THREAD_ZOMBIE |>) in ending p s s' /\ live (thr s' i) = false.
Proof.
  intros Hu Ho S. cbv zeta. split; [|rsimpl; by rewrite aget_aset_eq].
  eapply ending_trans; [by apply ending_steady|]. destruct (sd_thread _ _ S i) as [[Co _ _ _ Cu _] _]. constructor; try done; intros j; rsimpl; rewrite aget_aset; case_decide; try done; subst j.
  - constructor; rsimpl; try done; [split; [done|]; intros X; by apply Cu in X|]. intros [? ? ?]. by constructor.
  - congruence.
Qed.

Lemma end_thread_ending s i p status :
  t_state (thr s i) <> THREAD_UNUSED -> t_owner (thr s i) = Some p -> ending p s (end_thread s i status) /\ live (thr (end_thread s i status) i) = false.
Proof. intros Hu Ho. unfold end_thread. apply zombie_ending; [done|done|apply end_futex_steady]. Qed.

Lemma end_threads_ending s p status :
  (forall i, t_state (thr s i) = THREAD_UNUSED -> t_owner (thr s i) = None) ->
  ending p s (end_threads s p status) /\ forall i, 1 <= i < NPK_MAX_THREADS -> t_owner (thr s i) = Some p -> live (thr (end_threads s p status) i) = false.
Proof.
  intros Hun. unfold end_threads.
  match goal with |- context [for_range ?f 1 ?n s] => pose proof (for_range_inv (fun k s1 => ending p s s1 /\ forall i, 1 <= i < k -> t_owner (thr s i) = Some p -> live (thr s1 i) = false) f n 1 s) as L; set (r := for_range f 1 n s) in * end.
  replace (1 + Z.of_nat (Z.to_nat (NPK_MAX_THREADS - 1))) with NPK_MAX_THREADS in L by done. clearbody r. apply L; [split; [by apply ending_steady|intros; lia]|]. clear L r.
  intros k s1 Hk [E1 E2]. pose proof (en_thread _ _ _ E1 k) as [Co _ _ _ Cu _]. rewrite Co. destruct (decide (t_owner (thr s k) = Some p)) as [Ho|Ho].
  - rewrite bool_decide_eq_true_2 by done. cbn [negb orb]. rewrite bool_decide_eq_false_2.
    + destruct (end_thread_ending s1 k p status) as [E3 E4]; [intros X; apply Cu, Hun in X; congruence|congruence|]. split; [by eapply ending_trans|].
      intros i Hi Hoi. destruct (decide (i = k)) as [->|Hne]; [done|]. pose proof (E2 i ltac:(lia) Hoi) as Hl.
      destruct (live (thr (end_thread s1 k status) i)) eqn:El; [|done]. apply (en_live _ _ _ E3) in El. congruence.
    + intros X. apply Cu, Hun in X. congruence.
  - rewrite bool_decide_eq_false_2 by done. cbn [negb orb]. split; [done|]. intros i Hi Hoi. apply E2; [|done]. destruct (decide (i = k)) as [->|]; [done|lia].
Qed.

(** What is left to count for [p] after some of its threads have ended. *)
Definition uncounted s (p : Z) : Z -> Z := fun q => if decide (q = p) then live_count s p - pr_thread_count (prc s p) else 0.

Lemma ending_inv p s s' : proc_inv_but settled None s -> ending p s s' -> proc_inv_but (uncounted s' p) (Some p) s'.
Proof.
  intros [I1 I2 I12 I3 I4 I5 I6 I7 I8 I9 I10 I11] [E1 E2 E3 E4 E5 E6 E7].
  assert (Hp : forall q, pr_pid (prc s' q) = pr_pid (prc s q)) by (intros q; apply (E7 q)).
  assert (Ha : forall q, alive (prc s' q) = alive (prc s q)) by (intros q; apply (E7 q)).
  assert (Hm : forall q i, q <> p -> member s' q i <-> member s q i).
  { intros q i Hq. unfold member. rewrite (ct_owner _ _ (E4 i)). split; intros [Ho Hl]; (split; [done|]); [by rewrite <-E6 by congruence|by rewrite E6 by congruence]. }
  assert (Hl : forall q, q <> p -> live_count s' q = live_count s q) by (intros q Hq; apply live_count_ext; intros i _; by apply Hm). constructor.
  - intros i q Hq. rewrite (ct_owner _ _ (E4 i)) in Hq. by apply (I1 i).
  - by rewrite (ct_owner _ _ (E4 0)).
  - intros i. rewrite (ct_owner _ _ (E4 i)), (ct_ring _ _ (E4 i)). apply I12.
  - by rewrite E1.
  - intros i Hi. rewrite E1. apply I4. by apply (E4 i).
  - intros i Hi. rewrite (ct_owner _ _ (E4 i)). apply I5. by apply (E4 i).
  - intros i. apply (E4 i), I6.
  - intros q r Hq Hr. rewrite !Hp. by apply I7.
  - intros q Hq. rewrite Hp, E3. by apply I8.
  - intros q Hq. rewrite Hp, Ha. by apply I9.
  - intros q Hq. specialize (I10 q Hq). rewrite Ha. unfold uncounted. case_decide as Eq.
    + subst q. destruct (alive (prc s p)) eqn:Ea; [lia|]. destruct (Z.eq_dec (live_count s' p) 0) as [|Hn]; [done|]. exfalso.
      assert (filter (member s' p) (seqZ 0 NPK_MAX_THREADS) <> []) as Hne by (unfold live_count in Hn; intros X; rewrite X in Hn; done).
      destruct (filter (member s' p) (seqZ 0 NPK_MAX_THREADS)) as [|i l] eqn:Ef; [done|]. assert (i ∈ filter (member s' p) (seqZ 0 NPK_MAX_THREADS)) as Hin by (rewrite Ef; by left).
      apply list_elem_of_filter in Hin as [[Ho Hlv] Hi]. apply elem_of_seqZ in Hi. apply (live_count_zero s p I10 i ltac:(lia)). split; [by rewrite <-(ct_owner _ _ (E4 i))|by apply E5].
    + rewrite Hl, (spr_count _ _ (E7 q)) by done. exact I10.
  - intros q t Hq Hx. rewrite Ha, (spr_main _ _ (E7 q)). intros Hal Hmt. destruct (I11 q t Hq ltac:(done) Hal Hmt) as [Ht Hmem]. split; [done|]. apply Hm; [congruence|done].
Qed.

(** The process is declared dead once no thread of it is left. *)
Lemma declare_dead_inv d p s status :
  proc_inv_but d (Some p) s -> (forall q, q <> p -> d q = 0) -> user_slot p -> live_count s p = 0 ->
  proc_inv_but settled None (set_process s p (set_alive (prc s p <| pr_exit_status := status |>) false)).
Proof.
  intros I Hd Hp Hl. rewrite <-same_next. assert (Hpt : table_slot p) by (unfold user_slot, table_slot in *; lia).
  eapply set_process_inv; [exact I|done| |intros q Hq; by rewrite Hd|congruence]. destruct I as [I1 I2 I12 I3 I4 I5 I6 I7 I8 I9 I10 I11]. constructor; try done.
  - by apply I8.
  - intros Hn q Hqt Hqp He. apply Hqp. apply I7; [done|done|by rewrite He|done].
Qed.

Lemma release_inv d p s status :
  proc_inv_but d (Some p) s -> (forall q, q <> p -> d q = 0) -> user_slot p -> live_count s p = 0 ->
  (forall q, user_slot q -> q <> p -> alive (prc s q) = true -> 0 < pr_thread_count (prc s q)) -> proc_inv (release_process s p status).
Proof.
  intros I Hd Hp Hl Hc. eapply steady_proc_inv; [apply release_held_steady|]. split; [by eapply declare_dead_inv|].
  intros q Hq. rsimpl. rewrite aget_aset. case_decide as E; [done|]. by apply Hc.
Qed.

Lemma running_owner_spec s t p : running_owner s = Some (t, p) -> p_current s = Some t /\ t <> 0 /\ t_owner (thr s t) = Some p /\ alive (prc s p) = true.
Proof.
  unfold running_owner. destruct (p_current s) as [c|]; [|done]. destruct (c =? 0) eqn:E; [done|]. destruct (t_owner (thr s c)) as [q|] eqn:Eo; [|done].
  destruct (alive (prc s q)) eqn:Ea; [|done]. intros [= <- <-]. repeat split; try done. lia.
Qed.

(** The last steps of an exit, once every thread of the process has ended. *)
Lemma exit_after_threads s p status :
  proc_inv_but (uncounted s p) (Some p) s -> user_slot p -> live_count s p = 0 ->
  (forall q, user_slot q -> q <> p -> alive (prc s q) = true -> 0 < pr_thread_count (prc s q)) ->
  proc_inv (release_process (set_process s p (prc s p <| pr_thread_count := 0 |>)) p status).
Proof.
  intros I Hp Hl P. apply (release_inv settled); [|done|done|exact Hl|].
  - eapply update_process_inv; [exact I|done|done|done| | |by left].
    + intros q Hq. unfold settled, uncounted. by rewrite decide_False.
    + rsimpl. rewrite Hl. by destruct (alive _).
  - intros q Hq Hqp. rsimpl. rewrite aget_aset_ne by done. by apply P.
Qed.

Lemma end_threads_all s p status :
  proc_inv s -> user_slot p -> let s2 := end_threads s p status in
  proc_inv_but (uncounted s2 p) (Some p) s2 /\ live_count s2 p = 0 /\ forall q, user_slot q -> q <> p -> alive (prc s2 q) = true -> 0 < pr_thread_count (prc s2 q).
Proof.
  intros [I P] Hp. cbv zeta. destruct (end_threads_ending s p status (pi_unused _ _ _ I)) as [E1 E2]. generalize dependent (end_threads s p status). intros s2 E1 E2.
  split; [by apply (ending_inv p s)|]. split.
  - pose proof (pi_boot _ _ _ I) as Hb. assert (filter (member s2 p) (seqZ 0 NPK_MAX_THREADS) = []) as Hf; [|unfold live_count; by rewrite Hf].
    destruct (filter (member s2 p) (seqZ 0 NPK_MAX_THREADS)) as [|i l] eqn:Ef; [done|]. exfalso. assert (i ∈ filter (member s2 p) (seqZ 0 NPK_MAX_THREADS)) as Hin by (rewrite Ef; by left).
    apply list_elem_of_filter in Hin as [[Ho Hlv] Hi]. apply elem_of_seqZ in Hi. rewrite (ct_owner _ _ (en_thread _ _ _ E1 i)) in Ho.
    destruct (decide (i = 0)) as [->|]; [unfold user_slot in Hp; rewrite Hb in Ho; injection Ho; lia|]. by rewrite (E2 i ltac:(lia) Ho) in Hlv.
  - intros q Hq _. destruct (en_process _ _ _ E1 q) as [_ Ea Ec _]. unfold alive. rewrite Ea, Ec. by apply P.
Qed.

Lemma running_owner_slot s t p : proc_inv s -> running_owner s = Some (t, p) -> p <> 0 -> user_slot p.
Proof. intros [I _] Hr Hn. apply running_owner_spec in Hr as (_ & _ & Ho & _). pose proof (pi_owner _ _ _ I t p Ho) as []. unfold user_slot. lia. Qed.

Lemma exit_current_inv s status : proc_inv s -> (forall t p, running_owner s = Some (t, p) -> p <> 0) -> proc_inv (process_exit_current s status).
Proof.
  intros I Hn. unfold process_exit_current. destruct (running_owner s) as [[t p]|] eqn:Er; [|done]. specialize (Hn t p eq_refl).
  pose proof (running_owner_slot s t p I Er Hn) as Hp. pose proof (steady_proc_inv _ _ (steady_group_exiting s p) I) as I1.
  destruct (end_threads_all _ p status I1 Hp) as (I2 & Hl & P2). apply (exit_after_threads _ p status I2 Hp Hl P2).
Qed.

(** ** The end of one thread *)

Lemma zombie_only s s2 i status :
  steady s s2 -> forall j, j <> i ->
  live (thr (set_thread s2 i (thr s2 i <| t_thread_exit_status := status |> <| t_state := THREAD_ZOMBIE |>)) j) = live (thr s j).
Proof. intros S j Hj. rsimpl. rewrite aget_aset_ne by done. apply S. Qed.

Lemma end_thread_only s i status j : j <> i -> live (thr (end_thread s i status) j) = live (thr s j).
Proof. intros Hj. unfold end_thread. apply zombie_only; [apply end_futex_steady|done]. Qed.

Lemma settle_main d p s :
  proc_inv_but d (Some p) s -> (forall u, alive (prc s p) = true -> pr_main_thread (prc s p) = Some u -> 0 <= u < NPK_MAX_THREADS /\ member s p u) ->
  proc_inv_but d None s.
Proof.
  intros [I1 I2 I12 I3 I4 I5 I6 I7 I8 I9 I10 I11] Hm. constructor; try done. intros q u Hq _ Ha Hu. destruct (decide (q = p)) as [->|]; [by apply Hm|]. apply I11; [done|congruence|done|done].
Qed.

Lemma set_main_inv d p s m :
  proc_inv_but d (Some p) s -> user_slot p -> (forall u, m = Some u -> 0 <= u < NPK_MAX_THREADS /\ member s p u) ->
  proc_inv_but d None (set_process s p (prc s p <| pr_main_thread := m |>)).
Proof.
  intros I Hp Hm. assert (Hpt : table_slot p) by (unfold user_slot, table_slot in *; lia). rewrite <-same_next. eapply set_process_inv; [exact I|done| |done|congruence].
  destruct I as [I1 I2 I12 I3 I4 I5 I6 I7 I8 I9 I10 I11]. constructor; try done.
  - by apply I8.
  - intros Hn q Hqt Hqp He. apply Hqp. apply I7; [done|done|by rewrite He|done].
  - by apply I9.
  - by apply I10.
  - intros u _ _ Hu. by apply Hm.
Qed.

Lemma elect_leader_inv d s p t :
  proc_inv_but d (Some p) s -> user_slot p -> (forall u, alive (prc s p) = true -> pr_main_thread (prc s p) = Some u -> u <> t -> 0 <= u < NPK_MAX_THREADS /\ member s p u) ->
  proc_inv_but d None (elect_leader s p t).
Proof.
  intros I Hp Hm. unfold elect_leader. destruct (decide (pr_main_thread (prc s p) = Some t)) as [Et|Et].
  - rewrite bool_decide_eq_true_2 by done. destruct (find_index _ _ _) as [c|] eqn:Ef; [|by apply set_main_inv]. apply find_index_Some in Ef as (Hc & Hcand & _).
    unfold signal_candidate in Hcand. apply andb_prop in Hcand as [Hcand Hz]. apply andb_prop in Hcand as [Ho Hu]. apply bool_decide_eq_true in Ho.
    set (s1 := set_thread s c _). assert (S : steady s s1) by (apply steady_set_thread; steady_fields). change (prc s p) with (prc s1 p).
    assert (Hmem : member s p c) by (split; [done|]; unfold live; by rewrite Hu, Hz). clearbody s1. apply set_main_inv; [by eapply steady_inv|done|].
    intros u [= <-]. split; [unfold NPK_MAX_THREADS in *; lia|]. by apply (steady_member s s1).
  - rewrite bool_decide_eq_false_2 by done. apply (settle_main d p); [done|]. intros u Ha Hu. apply Hm; [done|done|congruence].
Qed.

Lemma elect_leader_fields s p t q :
  alive (prc (elect_leader s p t) q) = alive (prc s q) /\ pr_thread_count (prc (elect_leader s p t) q) = pr_thread_count (prc s q).
Proof.
  unfold elect_leader. destruct (bool_decide _); [|done]. destruct (find_index _ _ _); rsimpl; rewrite aget_aset; case_decide as E; try subst q; done.
Qed.

Lemma elect_leader_count s p t : live_count (elect_leader s p t) p = live_count s p.
Proof.
  apply live_count_ext. intros i _. unfold member, elect_leader. destruct (bool_decide _); [|done]. destruct (find_index _ _ _) as [c|]; [|done]. rsimpl. rewrite aget_aset.
  case_decide as E; [subst c|done]. unfold live. by rsimpl.
Qed.

(** From the end of the thread to the new count. *)
Lemma drop_count s s1 t p :
  proc_inv s -> user_slot p -> 0 <= t < NPK_MAX_THREADS -> member s p t -> alive (prc s p) = true ->
  ending p s s1 -> live (thr s1 t) = false -> (forall j, j <> t -> live (thr s1 j) = live (thr s j)) ->
  let s2 := set_process s1 p (prc s1 p <| pr_thread_count := pr_thread_count (prc s1 p) - 1 |>) in
  proc_inv_but settled (Some p) s2 /\ 0 < pr_thread_count (prc s1 p) /\
  (forall u, alive (prc s2 p) = true -> pr_main_thread (prc s2 p) = Some u -> u <> t -> 0 <= u < NPK_MAX_THREADS /\ member s2 p u) /\
  (forall q, user_slot q -> q <> p -> alive (prc s2 q) = true -> 0 < pr_thread_count (prc s2 q)).
Proof.
  intros [I P] Hp Ht Hmem Ha E Hz Ho. cbv zeta. pose proof (ending_inv p s s1 I E) as I1.
  assert (Hm : forall j, j <> t -> member s1 p j <-> member s p j) by (intros j Hj; unfold member; by rewrite (ct_owner _ _ (en_thread _ _ _ E j)), (Ho j Hj)).
  assert (Hl : live_count s p = live_count s1 p + 1).
  { apply (live_count_add s1 s p t); [done|intros j Hj; symmetry; by apply Hm|done|]. intros [_ X]. congruence. }
  pose proof (pi_count _ _ _ I p Hp) as Hc. rewrite Ha in Hc. unfold settled in Hc. destruct (en_process _ _ _ E p) as [_ Ea Ec Em]. split; [|split; [|split]].
  - eapply update_process_inv; [exact I1|done|done|done| | |by left].
    + intros q Hq. unfold settled, uncounted. by rewrite decide_False.
    + rsimpl. change (alive (prc s1 p <| pr_thread_count := pr_thread_count (prc s1 p) - 1 |>)) with (m_alive (pr_mm (prc s1 p))). rewrite Ea. unfold alive in Ha. rewrite Ha, Ec. unfold settled. lia.
  - rewrite Ec. by apply P.
  - intros u _. rsimpl. rewrite aget_aset_eq. rsimpl. rewrite Em. intros Hu Hne. destruct (pi_main _ _ _ I p u Hp ltac:(done) Ha Hu) as [Hr Hmu]. split; [done|]. by apply (Hm u Hne).
  - intros q Hq Hqp. rsimpl. rewrite aget_aset_ne by done. destruct (en_process _ _ _ E q) as [_ Eaq Ecq _]. unfold alive. rewrite Eaq, Ecq. by apply P.
Qed.

(** From the new count to the end of the operation. *)
Lemma finish_thread s p t status :
  proc_inv_but settled (Some p) s -> user_slot p -> alive (prc s p) = true -> 0 <= pr_thread_count (prc s p) ->
  (forall u, alive (prc s p) = true -> pr_main_thread (prc s p) = Some u -> u <> t -> 0 <= u < NPK_MAX_THREADS /\ member s p u) ->
  (forall q, user_slot q -> q <> p -> alive (prc s q) = true -> 0 < pr_thread_count (prc s q)) ->
  proc_inv (let s := elect_leader s p t in
    if pr_thread_count (prc s p) =? 0 then release_process (set_process s p (prc s p <| pr_group_exiting := true |>)) p status else s).
Proof.
  intros I Hp Ha Hc Hm P. cbv zeta. pose proof (elect_leader_inv settled s p t I Hp Hm) as I3. pose proof (elect_leader_fields s p t) as F. pose proof (elect_leader_count s p t) as Hl.
  pose proof (pi_count _ _ _ I p Hp) as Hcount. rewrite Ha in Hcount. generalize dependent (elect_leader s p t). intros s3 I3 F Hl. destruct (F p) as [Fa Fc]. rewrite Fc.
  assert (P3 : forall q, user_slot q -> q <> p -> alive (prc s3 q) = true -> 0 < pr_thread_count (prc s3 q)) by (intros q Hq Hqp; destruct (F q) as [-> ->]; by apply P).
  destruct (pr_thread_count (prc s p) =? 0) eqn:E.
  - assert (I4 : proc_inv_but settled (Some p) s3) by (destruct I3; by constructor; auto). pose proof (steady_inv _ _ _ _ (steady_group_exiting s3 p) I4) as I5.
    apply (release_inv settled); [exact I5|done|done|change (live_count s3 p = 0); unfold settled in Hcount; lia|].
    intros q Hq Hqp. rsimpl. rewrite aget_aset_ne by done. by apply P3.
  - split; [done|]. intros q Hq Haq. destruct (decide (q = p)) as [->|]; [rewrite Fc; lia|by apply P3].
Qed.

Lemma exit_thread_inv s status :
  proc_inv s -> (forall t p, running_owner s = Some (t, p) -> p <> 0 /\ live (thr s t) = true) -> proc_inv (process_exit_thread_current s status).
Proof.
  intros I Hn. unfold process_exit_thread_current. destruct (running_owner s) as [[t p]|] eqn:Er; [|done]. destruct (Hn t p eq_refl) as [Hnz Hlive].
  pose proof (running_owner_slot s t p I Er Hnz) as Hp. apply running_owner_spec in Er as (Hc & Ht0 & Ho & Ha). cif E; [done|].
  assert (Ht : 0 <= t < NPK_MAX_THREADS) by (destruct (pi_current _ _ _ (proj1 I)) as (c & Hcc & Hr); rewrite Hc in Hcc; by injection Hcc as ->).
  destruct (end_thread_ending s t p status (live_not_unused _ Hlive) Ho) as [E1 E2]. pose proof (end_thread_only s t status) as E3.
  destruct (drop_count s (end_thread s t status) t p I Hp Ht (conj Ho Hlive) Ha E1 E2 E3) as (I2 & Hpos & Hm & P2).
  assert (Ha1 : alive (prc (end_thread s t status) p) = true) by (destruct (en_process _ _ _ E1 p) as [_ Ea _ _]; unfold alive in *; congruence).
  generalize dependent (end_thread s t status). intros s1 E1 E2 E3 I2 Hpos Hm P2 Ha1. cbv zeta. replace (pr_thread_count (prc s1 p) >? 0) with true by lia.
  apply (finish_thread _ p t status I2 Hp); [by rsimpl; rewrite aget_aset_eq|rsimpl; rewrite aget_aset_eq; rsimpl; lia|exact Hm|exact P2].
Qed.

End Inv.
