(* ===== verification/ProcRun.v ===== *)
(** * Runs of the process code

    Every operation of process.c preserves the invariant of the tables, so it
    holds in every state the kernel can reach. *)

From Stdlib Require Import ZArith Lia Bool ZifyBool.
From stdpp Require Import base numbers list gmap.
From S2P Require Import Prelude Kstring Pmm Vmm Vm Proc ProcMem Signal ProcStep Sched ProcInv.

Open Scope Z_scope.
Open Scope npk_scope.

Section Run.
Context {K : Type} `{VmOps K} `{ProcOps K}.
Implicit Type s : proc K.
Notation thr s i := ((p_threads s).[i]).
Notation prc s i := ((p_processes s).[i]).
Notation slot s i := ((p_waiters s).[i]).

(** ** Signals and the scheduler *)

(** The running thread runs in user mode. *)
Definition user_mode s : Prop := forall t, p_current s = Some t -> t_privilege_ring (thr s t) = 3.

Lemma steady_user_mode s s' : steady s s' -> user_mode s -> user_mode s'.
Proof. intros S U t. rewrite (sd_current _ _ S). destruct (sd_thread _ _ S t) as [[_ _ Cr _ _ _] _]. rewrite Cr. apply U. Qed.

Lemma user_mode_owner s t p : proc_inv s -> user_mode s -> running_owner s = Some (t, p) -> p <> 0.
Proof. intros [I _] U (Hc & _ & Ho & _)%running_owner_spec ->. by apply (pi_ring _ _ _ I t (U t Hc)). Qed.

Definition keeps_inv (T : proc K -> Z -> transfer * proc K) : Prop := forall s signal, proc_inv s -> user_mode s -> proc_inv (T s signal).2.

Lemma terminate_inv yield : (forall s, proc_inv s -> proc_inv (yield s).2) -> keeps_inv (process_terminate_by_signal yield).
Proof.
  intros Hy s signal I U. unfold process_terminate_by_signal. destruct (running_owner s) as [[t p]|] eqn:Er; [|done].
  match goal with |- context [process_exit_current s ?st] => pose proof (exit_current_inv s st I) as I1 end.
  match goal with |- context [yield ?x] => specialize (Hy x); destruct (yield x) as [how s2] end. cbn [snd] in *. apply Hy, I1. intros t' p' Hr. by eapply user_mode_owner.
Qed.

Lemma deliver_one_inv T f t p d signal s :
  keeps_inv T -> proc_inv s -> user_mode s ->
  match deliver_one T f t p d signal s with inl s' => proc_inv s' /\ user_mode s' | inr r => proc_inv r.2 end.
Proof.
  intros HT I U. unfold deliver_one. cif E; [done|]. pose proof (take_pending_steady (thr s t) signal) as C. destruct (take_pending (thr s t) signal) as [info th]. cbn [snd] in C.
  apply steady_set_thread in C. pose proof (steady_proc_inv _ _ C I) as I1. pose proof (steady_user_mode _ _ C U) as U1. generalize dependent (set_thread s t th). intros s1 C I1 U1.
  cif E1; [done|]. cif E2; [specialize (HT s1 signal I1 U1); by destruct (T s1 signal)|].
  pose proof (deliver_info_steady s1 f signal info) as C2. destruct (process_deliver_signal_with_info s1 f signal info) as [[ok f'] s2]. cbn [snd] in C2.
  pose proof (steady_proc_inv _ _ C2 I1) as I2. destruct ok; [done|]. specialize (HT s2 signal I2 (steady_user_mode _ _ C2 U1)). by destruct (T s2 signal).
Qed.

Lemma deliver_pending_inv T s f : keeps_inv T -> proc_inv s -> proc_inv (deliver_pending T s f).2.
Proof.
  intros HT I. unfold deliver_pending. destruct (p_current s) as [t|] eqn:Ec; [|done]. destruct (process_current s) as [p|]; [|done]. cif E; [done|]. cbv zeta.
  apply orb_false_iff in E as [E _]. apply orb_false_iff in E as [_ E]. assert (U : user_mode s) by (intros t'; rewrite Ec; intros [= <-]; lia).
  set (d := Z.land _ _). pose proof (for_break_inv (fun _ s1 => proc_inv s1 /\ user_mode s1) (fun r : delivery * proc K => proc_inv r.2) (deliver_one T f t p d) (Z.to_nat NPK_SIGNAL_MAX) 1 s (conj I U)) as L.
  destruct (for_break _ _ _ _); [apply L|apply L]; intros k s1 _ [I1 U1]; by apply deliver_one_inv.
Qed.

Lemma deliver_on_resume_inv T s t : keeps_inv T -> proc_inv s -> proc_inv (deliver_on_resume T s t).2.
Proof.
  intros HT I. unfold deliver_on_resume. destruct (t_saved_interrupt_frame _) as [f|]; [|done]. cif E; [|done].
  pose proof (deliver_pending_inv T s f HT I) as I1. destruct (deliver_pending T s f) as [[|f'|how] s1]; cbn [snd] in *; try done.
  eapply steady_proc_inv; [|exact I1]. apply steady_set_thread. steady_fields.
Qed.

Lemma next_runnable_runnable s from n : next_runnable s (Some from) = Some n -> 0 <= n < NPK_MAX_THREADS /\ runnable s n = true.
Proof.
  unfold next_runnable. pose proof (find_next_runnable_spec s from false) as F1. pose proof (find_next_runnable_spec s from true) as F2.
  destruct (find_next_runnable s (Some from) false) as [m|]; [intros [= <-]|intros E; rewrite E in F2; clear F1; rename F2 into F1];
    destruct F1 as (? & Fe & _); (split; [done|]); unfold eligible in Fe; by destruct (runnable s _).
Qed.

Lemma steady_context s i c : steady s (set_thread s i (thr s i <| t_context := c |>)).
Proof. apply steady_set_thread. steady_fields. Qed.

Lemma resched_inv s b : proc_inv s -> proc_inv (s <| p_reschedule_pending := b |>).
Proof. apply steady_proc_inv. by constructor. Qed.

Lemma yield_within_inv n s : proc_inv s -> proc_inv (yield_within (pair Halted) n s).2.
Proof.
  revert s; induction n as [|n IH]; intros s I; cbn [yield_within]; [done|]. destruct (p_current s) as [old|] eqn:Ec; [|by apply resched_inv].
  destruct (next_runnable s (Some old)) as [next|] eqn:En; [|by apply resched_inv]. cif E1; [by apply resched_inv|]. cbv zeta.
  apply next_runnable_runnable in En as [Hn Hr].
  match goal with |- context [activate_thread (set_thread s old ?x) next] => set (th := x) end.
  assert (Hth : steady_thread (thr s old) th /\ t_state th <> THREAD_RUNNING).
  { subst th. destruct (decide (t_state (thr s old) = THREAD_RUNNING)) as [Es|Es].
    - rewrite (bool_decide_eq_true_2 (t_state (thr s old) = THREAD_RUNNING)) by done. rewrite (bool_decide_eq_false_2 (t_state (thr s old) = THREAD_BLOCKED)) by (by rewrite Es). split; [|done]. steady_fields; rewrite Es; by try split.
    - rewrite (bool_decide_eq_false_2 (t_state (thr s old) = THREAD_RUNNING)) by done. destruct (bool_decide _); (split; [|done]); [done|steady_fields]. }
  clearbody th. destruct Hth as [Hst Hnr]. destruct (stepped_back s old th I Ec Hst Hnr) as [I1 Hrun].
  assert (Hr1 : runnable (set_thread s old th) next = true).
  { unfold runnable in *. rsimpl. rewrite aget_aset_ne by lia. exact Hr. }
  pose proof (activate_proc_inv _ next I1 Hn Hr1 (fun i Hi => or_introl (Hrun i Hi))) as I2. generalize dependent (activate_thread (set_thread s old th) next). intros s2 I2.
  pose proof (resched_inv s2 false I2) as I3. generalize dependent (s2 <| p_reschedule_pending := false |>). intros s3 I3.
  cif E2; [eapply steady_proc_inv; [apply steady_context|done]|]. pose proof (steady_proc_inv _ _ (frame_for_steady s3 next) I3) as I4.
  generalize dependent (frame_for s3 next). intros s4 I4. pose proof (deliver_on_resume_inv (process_terminate_by_signal (yield_within (pair Halted) n)) s4 next (terminate_inv _ IH) I4) as I5.
  destruct (deliver_on_resume _ s4 next) as [[how|] s5]; cbn [snd] in *; [done|]. destruct (t_saved_interrupt_frame _); [cif E3; done|]. eapply steady_proc_inv; [apply steady_context|done].
Qed.

Lemma yield_inv s : proc_inv s -> proc_inv (scheduler_yield s).2.
Proof. apply yield_within_inv. Qed.

Lemma terminate_by_signal_inv : keeps_inv terminate_by_signal.
Proof. intros s signal. apply (terminate_inv scheduler_yield), yield_inv. Qed.

(** A live thread changes its state, or leaves user mode. *)
Lemma retouch_ring_inv s t th :
  proc_inv s -> 0 <= t < NPK_MAX_THREADS -> t_owner th = t_owner (thr s t) -> (t_privilege_ring th = 3 -> t_privilege_ring (thr s t) = 3) ->
  (queue_wf (thr s t) -> queue_wf th) -> live (thr s t) = true -> live th = true -> (t_state th = THREAD_RUNNING -> t = 0 \/ p_current s = Some t) ->
  proc_inv (set_thread s t th).
Proof.
  intros [I P] Ht Ho Hg Hq Hl Hl' Hr. split; [|done]. assert (Hc : forall p, contrib th p = contrib (thr s t) p) by (intros p; unfold contrib; by rewrite Ho, Hl, Hl').
  pose proof I as [I1 I2 I12 I3 I4 I5 I6 I7 I8 I9 I10 I11]. eapply set_thread_inv; [exact I|done| | | |].
  - constructor; try done; [intros ->; congruence|rewrite Ho; intros X; apply I12; by apply Hg|rewrite Ho; by apply I1|intros X; by apply live_not_unused in X|auto].
  - intros p _ _. rewrite Hc. unfold settled. lia.
  - intros p Hp Ha. rewrite Hc. destruct (contrib_cases (thr s t) p) as [E|E]; [done|]. apply contrib_member in E. specialize (I10 p Hp). rewrite Ha in I10.
    by apply (live_count_zero s p I10 t Ht) in E.
  - intros p u Hp Hx Ha Hm. destruct (I11 p u Hp Hx Ha Hm) as [Hur Hmem]. split; [done|]. case_decide; [|done]. subst u. rewrite Hc. by apply contrib_member.
Qed.

Lemma retouch_inv s t th :
  proc_inv s -> 0 <= t < NPK_MAX_THREADS -> t_owner th = t_owner (thr s t) -> t_privilege_ring th = t_privilege_ring (thr s t) ->
  (queue_wf (thr s t) -> queue_wf th) -> live (thr s t) = true -> live th = true -> (t_state th = THREAD_RUNNING -> t = 0 \/ p_current s = Some t) ->
  proc_inv (set_thread s t th).
Proof. intros I Ht Ho Hg. apply retouch_ring_inv; [done..|congruence]. Qed.

(** The running thread exists and has not ended. *)
Definition running_live s : Prop := forall t, p_current s = Some t -> live (thr s t) = true.

Lemma current_range s t : proc_inv s -> p_current s = Some t -> 0 <= t < NPK_MAX_THREADS.
Proof. intros [I _] Hc. destruct (pi_current _ _ _ I) as (c & Hcc & Hr). rewrite Hc in Hcc. by injection Hcc as ->. Qed.

Lemma steady_running_live s s' : steady s s' -> running_live s -> running_live s'.
Proof. intros S R t. rewrite (sd_current _ _ S). destruct (sd_thread _ _ S t) as [_ Sl]. rewrite Sl. apply R. Qed.

(** The running thread is marked running again or blocked. *)
Lemma running_state_inv s t th :
  proc_inv s -> running_live s -> p_current s = Some t -> t_owner th = t_owner (thr s t) -> t_privilege_ring th = t_privilege_ring (thr s t) ->
  (queue_wf (thr s t) -> queue_wf th) -> live th = true -> proc_inv (set_thread s t th).
Proof. intros I R Hc Ho Hg Hq Hl. apply retouch_inv; try done; [by eapply current_range|by apply R|by right]. Qed.

Lemma tick_inv s : proc_inv s -> running_live s -> proc_inv (scheduler_tick s).
Proof.
  intros I R. unfold scheduler_tick. assert (S : steady s (futex_expire_waiters (s <| p_scheduler_ticks := u64 (p_scheduler_ticks s + 1) |>))).
  { etrans; [|apply futex_expire_steady]. by constructor. }
  pose proof (steady_proc_inv _ _ S I) as I1. pose proof (steady_running_live _ _ S R) as R1. generalize dependent (futex_expire_waiters (s <| p_scheduler_ticks := u64 (p_scheduler_ticks s + 1) |>)).
  intros s1 _ I1 R1. cbv zeta. destruct (p_current s1) as [t|] eqn:Ec; [|done]. apply resched_inv. apply running_state_inv; try done. queue_fields.
Qed.

Lemma preempt_inv s f : proc_inv s -> running_live s -> proc_inv (scheduler_preempt s f).2.
Proof.
  intros I R. unfold scheduler_preempt. destruct (p_current s) as [t|] eqn:Ec; [|done]. cbv zeta.
  assert (S : steady s (futex_expire_waiters (s <| p_scheduler_ticks := u64 (p_scheduler_ticks s + 1) |>))) by (etrans; [|apply futex_expire_steady]; by constructor).
  pose proof (steady_proc_inv _ _ S I) as I1. pose proof (steady_running_live _ _ S R) as R1. pose proof (sd_current _ _ S) as C1. rewrite Ec in C1.
  generalize dependent (futex_expire_waiters (s <| p_scheduler_ticks := u64 (p_scheduler_ticks s + 1) |>)). intros s1 _ I1 R1 C1. cif E; [by apply resched_inv|].
  set (s2 := set_thread s1 t _). assert (I2 : proc_inv s2) by (apply running_state_inv; try done; queue_fields). assert (C2 : p_current s2 = Some t) by done.
  assert (St : t_state (thr s2 t) = THREAD_RUNNING) by (subst s2; rsimpl; by rewrite aget_aset_eq). clearbody s2. destruct (next_non_idle_runnable s2 (Some t)) as [next|] eqn:En; [|by apply resched_inv].
  assert (En' : next_runnable s2 (Some t) = Some next) by (unfold next_runnable; unfold next_non_idle_runnable in En; by rewrite En). apply next_runnable_runnable in En' as [Hn Hr].
  assert (Hne : next <> t) by (intros ->; unfold runnable in Hr; by rewrite St in Hr).
  destruct (stepped_back s2 t (thr s2 t <| t_state := THREAD_READY |>) I2 C2) as [I3 Hrun]; [steady_fields; rewrite St; by try split|done|].
  assert (Hr3 : runnable (set_thread s2 t (thr s2 t <| t_state := THREAD_READY |>)) next = true) by (unfold runnable in *; rsimpl; by rewrite aget_aset_ne by done).
  generalize dependent (set_thread s2 t (thr s2 t <| t_state := THREAD_READY |>)). intros s3 I3 Hrun Hr3.
  pose proof (activate_proc_inv _ next I3 Hn Hr3 (fun i Hi => or_introl (Hrun i Hi))) as I4. generalize dependent (activate_thread s3 next). intros s4 I4.
  pose proof (resched_inv s4 false I4) as I5. generalize dependent (s4 <| p_reschedule_pending := false |>). intros s5 I5. pose proof (steady_proc_inv _ _ (frame_for_steady s5 next) I5) as I6.
  pose proof (deliver_on_resume_inv terminate_by_signal _ next terminate_by_signal_inv I6) as I7. by destruct (deliver_on_resume _ _ next) as [[how|] s7].
Qed.

(** A yield that returns has changed nothing but the flag. *)
Lemma deliver_pending_gone T s f how s' :
  (forall s1 signal, (T s1 signal).1 <> Returns) -> deliver_pending T s f = (Gone how, s') -> how <> Returns.
Proof.
  intros HT. unfold deliver_pending. destruct (p_current s) as [t|]; [|done]. destruct (process_current s) as [p|]; [|done]. cif E; [done|]. cbv zeta. set (d := Z.land _ _).
  pose proof (for_break_inv (fun _ _ => True) (fun r : delivery * proc K => forall how, r.1 = Gone how -> how <> Returns) (deliver_one T f t p d) (Z.to_nat NPK_SIGNAL_MAX) 1 s Logic.I) as L.
  destruct (for_break _ _ _ _) as [s1|r]; [done|]. intros ->. apply (L ltac:(intros k s1 _ _; unfold deliver_one;
    repeat match goal with |- context [if ?b then _ else _] => destruct b | |- context [take_pending ?a ?b] => destruct (take_pending a b)
      | |- context [T ?a ?b] => pose proof (HT a b); destruct (T a b) | |- context [process_deliver_signal_with_info ?a ?b ?c ?e] => destruct (process_deliver_signal_with_info a b c e) as [[? ?] ?] end;
    try done; cbn [fst snd] in *; intros how' [= <-]; done) how eq_refl).
Qed.

Lemma terminate_not_returns yield s signal : (process_terminate_by_signal yield s signal).1 <> Returns.
Proof. unfold process_terminate_by_signal. destruct (running_owner s); [|done]. by destruct (yield _) as [[| | |] ?]. Qed.

Ltac no_return := let X := fresh in intros X; exfalso; repeat match type of X with (match ?x with _ => _ end) = _ => destruct x end; apply (f_equal fst) in X; cbn [fst] in X; discriminate X.

Lemma yield_returns s s' : scheduler_yield s = (Returns, s') -> s' = s <| p_reschedule_pending := false |>.
Proof.
  unfold scheduler_yield. change YIELD_FUEL with (S 128). generalize 128%nat as n. intros n. cbn [yield_within]. destruct (p_current s) as [old|]; [|by intros [= <-]].
  destruct (next_runnable s (Some old)) as [next|]; [|by intros [= <-]]. cif E1; [by intros [= <-]|]. cbv zeta.
  match goal with |- context [activate_thread ?x next] => generalize (activate_thread x next <| p_reschedule_pending := false |>) end. intros s2. cif E2; [done|].
  unfold deliver_on_resume. destruct (t_saved_interrupt_frame (thr (frame_for s2 next) next)) as [f|] eqn:Ef; [|rewrite Ef; no_return].
  cif E3; [|rewrite Ef; no_return]. destruct (deliver_pending _ _ _) as [[|f'|how] s3] eqn:Ed.
  - no_return.
  - no_return.
  - intros X. apply (f_equal fst) in X. cbn [fst] in X. destruct (deliver_pending_gone _ _ _ _ _ (terminate_not_returns _) Ed X).
Qed.

(** ** Signals *)

Lemma push_steady t info t' : signal_queue_push t info = Some t' -> steady_thread t t'.
Proof.
  intros E. assert (Hw : queue_wf t -> queue_wf t') by (intros Hw; pose proof (queue_push t info Hw) as X; rewrite E in X; apply X).
  unfold signal_queue_push in E. destruct (_ >=? _); [done|]. injection E as <-. constructor; [constructor; try done|done].
Qed.

Lemma queue_signal_steady s t signal info : steady s (queue_signal_to_thread s t signal info).2.
Proof.
  unfold queue_signal_to_thread. cif E; [done|].
  match goal with |- context [match ?x with Some _ => _ | None => _ end] => assert (Hx : forall th, x = Some th -> steady_thread (thr s t) th); [|destruct x as [th|]; [|done]] end.
  { destruct info as [i|]; [intros th; apply push_steady|by intros th [= <-]]. }
  specialize (Hx th eq_refl). cbv zeta. cbn [snd]. set (s1 := set_thread s t _).
  assert (S : steady s s1) by (apply steady_set_thread; etrans; [exact Hx|]; steady_fields). clearbody s1. cif E1; [|done]. etrans; [exact S|apply futex_complete_steady].
Qed.

Lemma send_signal_steady s pid signal info : steady s (process_send_signal_info s pid signal info).2.
Proof.
  unfold process_send_signal_info. cif E; [done|]. destruct (signal_target_process s pid) as [p|]; [|done]. cif E1; [done|]. cif E2; [done|].
  destruct (select_signal_thread _ _ _); [apply queue_signal_steady|done].
Qed.

Lemma send_thread_signal_steady s tgid tid signal info : steady s (process_send_thread_signal_info s tgid tid signal info).2.
Proof.
  unfold process_send_thread_signal_info. cif E; [done|]. destruct (find_process_by_pid s tgid) as [p|]; [|done]. cif E1; [done|].
  destruct (find_index _ _ _); [|done]. cif E2; [done|apply queue_signal_steady].
Qed.

Lemma set_mask_steady s mask : steady s (process_set_signal_mask s mask).
Proof. unfold process_set_signal_mask. destruct (p_current s); [|done]. apply steady_set_thread. steady_fields. Qed.

Lemma set_tid_steady s address : steady s (process_set_tid_address s address).2.
Proof.
  unfold process_set_tid_address. destruct (p_current s); [|done]. destruct (t_owner _); [|done]. cif E; [done|]. cif E1; [done|]. apply steady_set_thread. steady_fields.
Qed.

Lemma sigreturn_steady s f : steady s (process_sigreturn s f).2.
Proof.
  unfold process_sigreturn. destruct (p_current s) as [t|]; [|done]. cif E; [done|]. pose proof (copyin_steady s (u64 (t_signal_frame_user (thr s t) + 8)) 32) as S.
  destruct (vmm_copyin _ _ _) as [[bytes|] s1]; [|done]. cbn [snd] in S. cif E1; [done|]. etrans; [exact S|]. apply steady_set_thread. unfold leave_handler. steady_fields.
Qed.

Lemma deliver_syscall_inv s f : proc_inv s -> proc_inv (process_deliver_pending_signal_syscall s f).2.
Proof.
  intros I. unfold process_deliver_pending_signal_syscall. pose proof (deliver_pending_inv terminate_by_signal s (wrapper_of f (f_rax f)) terminate_by_signal_inv I) as I1.
  by destruct (deliver_pending _ _ _) as [[| |] s1].
Qed.

(** ** Futexes *)

Lemma timespec_steady s timeout : steady s (futex_timespec_to_ticks s timeout).2.
Proof. unfold futex_timespec_to_ticks. cif E; [done|]. pose proof (copyin_steady s timeout 16) as S. by destruct (vmm_copyin _ _ _) as [[?|] s1]. Qed.

Lemma futex_wake_op_steady s address count : steady s (process_futex_wake s address count).2.
Proof.
  unfold process_futex_wake. destruct (p_current s) as [t|]; [|done]. destruct (process_current s) as [p|]; [|done]. cif E; [done|]. cif E1; [done|]. apply futex_wake_steady.
Qed.

Lemma resched_current s b t : p_current (s <| p_reschedule_pending := b |>) = Some t <-> p_current s = Some t.
Proof. done. Qed.

(** Blocking, giving up the processor, and running again when nobody took it. *)
Lemma block_inv s t th :
  proc_inv s -> running_live s -> p_current s = Some t -> t_owner th = t_owner (thr s t) -> t_privilege_ring th = t_privilege_ring (thr s t) ->
  (queue_wf (thr s t) -> queue_wf th) -> live th = true -> proc_inv (set_thread s t th) /\ running_live (set_thread s t th).
Proof.
  intros I R Hc Ho Hg Hq Hl. split; [by apply running_state_inv|]. intros t' Ht'. change (p_current s = Some t') in Ht'. rewrite Hc in Ht'. injection Ht' as <-. rsimpl. by rewrite aget_aset_eq.
Qed.

Lemma futex_wait_inv s address expected timeout : proc_inv s -> running_live s -> proc_inv (process_futex_wait scheduler_yield s address expected timeout).2.
Proof.
  intros I R. unfold process_futex_wait. destruct (p_current s) as [t|] eqn:Ec; [|done]. destruct (process_current s) as [p|]; [|done]. cif E; [done|].
  pose proof (timespec_steady s timeout) as S1. destruct (futex_timespec_to_ticks s timeout) as [[ticks|] s1]; cbn [snd] in S1; [|by eapply steady_proc_inv].
  pose proof (copyin_steady s1 address 4) as S2. destruct (vmm_copyin s1 address 4) as [[bytes|] s2]; cbn [snd] in S2; [|eapply steady_proc_inv; [etrans; [exact S1|exact S2]|done]].
  assert (S : steady s s2) by (by etrans). pose proof (steady_proc_inv _ _ S I) as I2. pose proof (steady_running_live _ _ S R) as R2. assert (C2 : p_current s2 = Some t) by (rewrite (sd_current _ _ S); done).
  clear S S1 S2. cif E1; [done|]. cif E2; [done|]. destruct (find_index _ _ _) as [i|]; [|done]. cbv zeta.
  set (s3 := set_waiter s2 i _). assert (S3 : steady s2 s3) by apply steady_set_waiter. pose proof (steady_proc_inv _ _ S3 I2) as I3. pose proof (steady_running_live _ _ S3 R2) as R3.
  assert (C3 : p_current s3 = Some t) by done. clearbody s3. destruct (block_inv s3 t (thr s3 t <| t_futex_waiting := true |> <| t_futex_result := - PROCESS_EINTR |> <| t_state := THREAD_BLOCKED |>)) as [I4 R4]; try done; [queue_fields|].
  set (s4 := set_thread s3 t _) in *. assert (C4 : p_current s4 = Some t) by done. clearbody s4. pose proof (yield_inv s4 I4) as I5. destruct (scheduler_yield s4) as [how s5] eqn:Ey. cbn [snd] in I5.
  destruct how; try done. apply yield_returns in Ey. assert (R5 : running_live s5) by (subst s5; exact R4). assert (C5 : p_current s5 = Some t) by (subst s5; exact C4). clear Ey. cif E3.
  - pose proof (futex_complete_steady s5 t (- PROCESS_EINTR)) as S6. pose proof (steady_proc_inv _ _ S6 I5) as I6. pose proof (steady_running_live _ _ S6 R5) as R6.
    pose proof (sd_current _ _ S6) as C6. rewrite C5 in C6. unfold futex_cancel_thread. generalize dependent (futex_complete_thread s5 t (- PROCESS_EINTR)). intros s6 _ I6 R6 C6.
    cbn [snd]. apply running_state_inv; try done. queue_fields.
  - cbn [snd]. apply running_state_inv; try done. queue_fields.
Qed.

End Run.
