(* ===== verification/ProcLife.v ===== *)
(** * The life of processes

    Reaping, waiting, creation, fork and clone preserve the invariant of the
    process tables; with the other operations it holds in every reachable
    state. *)

From Stdlib Require Import ZArith Lia Bool ZifyBool.
From stdpp Require Import base numbers list gmap.
From S2P Require Import Prelude Kstring Pmm Vmm Vm Proc ProcMem Signal ProcStep Sched ProcInv ProcRun.

Open Scope Z_scope.
Open Scope npk_scope.

Section Life.
Context {K : Type} `{VmOps K} `{ProcOps K}.
Implicit Type s : proc K.
Notation thr s i := ((p_threads s).[i]).
Notation prc s i := ((p_processes s).[i]).
Notation slot s i := ((p_waiters s).[i]).

(** ** Reaping *)

Lemma zero_thread_fits s t : t <> 0 -> fits s t zero_thread.
Proof. intros Ht. by constructor. Qed.

Lemma zero_contrib p : contrib zero_thread p = 0.
Proof. done. Qed.

(** A thread that no live process counts can be cleared. *)
Lemma clear_thread_inv s t :
  proc_inv s -> 0 < t < NPK_MAX_THREADS -> (forall p, user_slot p -> alive (prc s p) = true -> contrib (thr s t) p = 0) -> proc_inv (set_thread s t zero_thread).
Proof.
  intros [I P] Ht Hz. split; [|done]. eapply set_thread_inv; [exact I|lia|apply zero_thread_fits; lia| |done|].
  - intros p Hp Ha. by rewrite (Hz p Hp Ha), zero_contrib.
  - intros p u Hp Hx Ha Hm. destruct (pi_main _ _ _ I p u Hp Hx Ha Hm) as [Hur Hmem]. split; [done|]. case_decide; [|done]. subst u. apply contrib_member in Hmem. rewrite (Hz p Hp Ha) in Hmem. done.
Qed.

Lemma dead_contrib s t p q : proc_inv s -> t_owner (thr s t) = Some p -> alive (prc s p) = false -> alive (prc s q) = true -> contrib (thr s t) q = 0.
Proof. intros I Ho Hd Ha. unfold contrib. rewrite Ho, bool_decide_eq_false_2; [done|]. intros [= ->]. congruence. Qed.

Lemma reap_threads_inv s p : proc_inv s -> alive (prc s p) = false -> proc_inv (reap_threads s p) /\ p_processes (reap_threads s p) = p_processes s.
Proof.
  intros I Hd. apply (for_range_inv (fun _ s1 => proc_inv s1 /\ p_processes s1 = p_processes s)); [done|]. intros k s1 Hk [I1 Ep]. cbv beta. unfold NPK_MAX_THREADS in Hk.
  destruct (decide (t_owner (thr s1 k) = Some p)) as [Ho|Ho]; [rewrite bool_decide_eq_true_2 by done|by rewrite bool_decide_eq_false_2 by done]. cbn [negb]. cbv zeta.
  match goal with |- context [set_thread ?x k zero_thread] => set (s2 := x) end.
  assert (S : steady s1 s2 /\ p_processes s2 = p_processes s1) by (subst s2; cif E; [split; [apply steady_set_kernel|done]|done]). clearbody s2. destruct S as [S Es]. split; [|by rewrite <-Ep, <-Es].
  pose proof (steady_proc_inv _ _ S I1) as I2. apply clear_thread_inv; [done|unfold NPK_MAX_THREADS; lia|]. intros q Hq Ha. apply (dead_contrib s2 k p q I2); [|by rewrite Es, Ep|done].
  destruct (sd_thread _ _ S k) as [[Co _ _ _ _ _] _]. congruence.
Qed.

(** A dead process gives up its slot. *)
Lemma clear_process_inv s p : proc_inv s -> user_slot p -> alive (prc s p) = false -> proc_inv (set_process s p zero_process).
Proof.
  intros [I P] Hp Hd. split; [|intros q Hq; rsimpl; rewrite aget_aset; case_decide; [done|by apply P]]. rewrite <-same_next. eapply set_process_inv; [exact I|done| |done|done].
  assert (Hpt : table_slot p) by (unfold user_slot, table_slot in *; lia). pose proof (pi_fresh _ _ _ I p Hpt). pose proof (pi_count _ _ _ I p Hp) as Hc. rewrite Hd in Hc. constructor; try done. cbn. lia.
Qed.

Lemma reap_inv s p : proc_inv s -> user_slot p -> proc_inv (reap_process s p).
Proof.
  intros I Hp. unfold reap_process. cif E; [done|]. apply orb_false_iff in E as [E _]. apply orb_false_iff in E as [_ Ha]. cif E1; [done|]. clear E1.
  assert (S : steady s (close_process_fds (destroy_process_memory s p) p)) by (etrans; [apply destroy_steady|apply close_process_fds_steady]).
  pose proof (steady_proc_inv _ _ S I) as I1. assert (Ha1 : alive (prc (close_process_fds (destroy_process_memory s p) p) p) = false) by (pose proof (spr_alive _ _ (sd_process _ _ S p)); unfold alive in *; congruence).
  cbv zeta. generalize dependent (close_process_fds (destroy_process_memory s p) p). intros s1 _ I1 Ha1. destruct (reap_threads_inv s1 p I1 Ha1) as [I2 Ep].
  apply clear_process_inv; [done|done|by rewrite Ep].
Qed.

Lemma find_pid_slot s pid p : find_process_by_pid s pid = Some p -> user_slot p /\ pr_pid (prc s p) = pid.
Proof. unfold find_process_by_pid. intros (Hp & He & _)%find_index_Some. unfold user_slot, NPK_MAX_PROCESSES in *. lia. Qed.

Lemma reap_pending_inv s : proc_inv s -> proc_inv (process_reap_pending s).
Proof.
  intros I. unfold process_reap_pending. destruct (process_current s) as [parent|]; [|done]. cif E; [done|].
  set (s1 := set_process s parent _). assert (S : steady s s1) by (apply steady_set_process; steady_fields). pose proof (steady_proc_inv _ _ S I) as I1. clearbody s1. cbv zeta.
  destruct (find_process_by_pid s1 _) as [child|] eqn:Ef; [|done]. apply find_pid_slot in Ef as [Hc _]. cif E1; [by apply reap_inv|done].
Qed.

(** ** Waiting for children *)

Lemma wait4_inv s target status options : proc_inv s -> running_live s -> proc_inv (process_wait4 s target status options).2.
Proof.
  intros I R. unfold process_wait4. destruct (p_current s) as [t|] eqn:Ec; [|done]. destruct (process_current s) as [parent|]; [|done]. cif E; [done|]. cif E1; [done|]. cif E2; [done|].
  destruct (find_index _ _ _) as [child|] eqn:Ef.
  - apply find_index_Some in Ef as (Hc & _ & _). match goal with |- context [let '(_, _) := ?x in _] => assert (S : steady s x.2); [|destruct x as [ok s1]] end.
    { cif E3; [done|apply copyout_user_steady]. }
    cbn [snd] in S. pose proof (steady_proc_inv _ _ S I) as I1. destruct ok; [|done]. cbn [negb snd]. apply reap_inv; [done|]. unfold user_slot, NPK_MAX_PROCESSES in *. lia.
  - cif E3; [done|]. cif E4; [done|]. set (s1 := set_process s parent _). assert (S1 : steady s s1) by (apply steady_set_process; steady_fields).
    pose proof (steady_proc_inv _ _ S1 I) as I1. pose proof (steady_running_live _ _ S1 R) as R1. assert (C1 : p_current s1 = Some t) by done. clearbody s1. cbv zeta.
    destruct (block_inv s1 t (thr s1 t <| t_state := THREAD_BLOCKED |>)) as [I2 R2]; try done; [queue_fields|]. set (s2 := set_thread s1 t _) in *. assert (C2 : p_current s2 = Some t) by done. clearbody s2.
    pose proof (yield_inv s2 I2) as I3. destruct (scheduler_yield s2) as [how s3] eqn:Ey. cbn [snd] in I3. destruct how; try done. apply yield_returns in Ey.
    assert (R3 : running_live s3) by (subst s3; exact R2). assert (C3 : p_current s3 = Some t) by (subst s3; exact C2). clear Ey. cif E5.
    + set (s4 := set_process s3 parent _). assert (S4 : steady s3 s4) by (apply steady_set_process; steady_fields). pose proof (steady_proc_inv _ _ S4 I3) as I4. pose proof (steady_running_live _ _ S4 R3) as R4.
      assert (C4 : p_current s4 = Some t) by done. clearbody s4. destruct (block_inv s4 t (thr s4 t <| t_state := THREAD_RUNNING |>)) as [I5 _]; try done; [queue_fields|].
      generalize dependent (set_thread s4 t (thr s4 t <| t_state := THREAD_RUNNING |>)). intros s5 I5. destruct (if _ >? 0 then _ else None) as [child|] eqn:Ef2; [|done].
      assert (Hc : user_slot child) by (destruct (_ >? 0); [by apply find_pid_slot in Ef2 as [? _]|done]). cif E6; [done|].
      match goal with |- context [let '(_, _) := ?x in _] => assert (S : steady s5 x.2); [|destruct x as [ok s6]] end.
      { cif E7; [done|apply copyout_user_steady]. }
      cbn [snd] in S. pose proof (steady_proc_inv _ _ S I5) as I6. destruct ok; [|done]. cbn [snd]. by apply reap_inv.
    + set (s4 := set_process s3 parent _). assert (S4 : steady s3 s4) by (apply steady_set_process; steady_fields). pose proof (steady_proc_inv _ _ S4 I3) as I4. pose proof (steady_running_live _ _ S4 R3) as R4.
      assert (C4 : p_current s4 = Some t) by done. clearbody s4. cbn [snd]. apply running_state_inv; try done. queue_fields.
Qed.

(** ** New threads *)

(** A thread that has just been allocated: no process owns it yet. *)
Definition unborn s (t : Z) : Prop := 0 < t < NPK_MAX_THREADS /\ p_current s <> Some t /\ t_owner (thr s t) = None /\ t_state (thr s t) = THREAD_READY /\ queue_wf (thr s t).

Lemma unborn_contrib s t p : unborn s t -> contrib (thr s t) p = 0.
Proof. intros (_ & _ & Ho & _). unfold contrib. by rewrite Ho. Qed.

Lemma allocate_inv d x s t s' :
  proc_inv_but d x s -> (forall c, p_current s = Some c -> t_state (thr s c) <> THREAD_UNUSED) -> allocate_thread s = (Some t, s') ->
  proc_inv_but d x s' /\ unborn s' t /\ p_processes s' = p_processes s /\ p_current s' = p_current s /\ p_next_pid s' = p_next_pid s /\ (forall i, i <> t -> thr s' i = thr s i).
Proof.
  intros I Hcur. unfold allocate_thread. destruct (find_index _ _ _) as [i|] eqn:Ef; [|done]. intros [= <- <-]. apply find_index_Some in Ef as (Hi & Hu & _). apply bool_decide_eq_true in Hu.
  assert (Hr : 0 < i < NPK_MAX_THREADS) by (unfold NPK_MAX_THREADS in *; lia). split; [|split; [|repeat split; try done; intros j Hj; rsimpl; by rewrite aget_aset_ne]].
  - assert (I' : proc_inv_but d x (s <| p_next_tid := u64 (p_next_tid s + 1) |>)) by (destruct I; by constructor). eapply set_thread_inv; [exact I'|lia| | | |].
    + constructor; try done. lia.
    + intros p Hp Ha. assert (E : contrib (thr s i) p = 0) by (unfold contrib, live; rewrite Hu; cbn; by rewrite andb_false_r). change (thr (s <| p_next_tid := u64 (p_next_tid s + 1) |>) i) with (thr s i). rewrite E.
      match goal with |- context [contrib ?x p] => replace (contrib x p) with 0 by done end. lia.
    + done.
    + intros p u Hp Hx Ha Hm. destruct (pi_main _ _ _ I p u Hp Hx Ha Hm) as [Hur [Hom Hlm]]. split; [done|]. case_decide; [|done]. subst u. exfalso. unfold live in Hlm. by rewrite Hu in Hlm.
  - split; [done|]. split; [intros X; by apply (Hcur i X)|]. rsimpl. by rewrite aget_aset_eq.
Qed.

Lemma unborn_steady s s' t : steady s s' -> thr s' t = thr s t -> unborn s t -> unborn s' t.
Proof. intros S E (U1 & U2 & U3). unfold unborn. rewrite E, (sd_current _ _ S). done. Qed.

(** The thread gets its owner. *)
Lemma adopt_inv d d' x x' s t th p :
  proc_inv_but d x s -> unborn s t -> user_slot p -> alive (prc s p) = true -> t_owner th = Some p -> live th = true -> t_state th <> THREAD_RUNNING -> queue_wf th ->
  d' p = d p + 1 -> (forall q, q <> p -> d' q = d q) -> (forall q, q <> p -> Some q <> x' -> Some q <> x) ->
  (forall u, Some p <> x' -> pr_main_thread (prc s p) = Some u -> u = t \/ 0 <= u < NPK_MAX_THREADS /\ member s p u) ->
  proc_inv_but d' x' (set_thread s t th).
Proof.
  intros I U Hp Ha Ho Hl Hr Hq Hd Hd' Hx Hm. pose proof U as (Ut & _ & Uo & _). assert (Hpt : table_slot p) by (unfold user_slot, table_slot in *; lia).
  assert (Hc : forall q, contrib th q = if decide (q = p) then 1 else 0) by (intros q; unfold contrib; rewrite Ho, Hl; case_decide; [subst q; by rewrite bool_decide_eq_true_2|by rewrite bool_decide_eq_false_2 by congruence]).
  eapply set_thread_inv; [exact I|lia| | | |].
  - constructor; [lia|intros _; rewrite Ho; unfold user_slot in Hp; intros [= E]; lia|intros q; rewrite Ho; by intros [= <-]|done|intros X; by apply live_not_unused in Hl|done].
  - intros q _ _. rewrite (unborn_contrib s t q U), Hc. case_decide; [subst q; lia|rewrite Hd' by done; lia].
  - intros q _ Hdq. rewrite Hc. case_decide; [congruence|done].
  - intros q u Hqs Hqx Haq Hmq. destruct (decide (q = p)) as [->|Hne].
    + destruct (Hm u Hqx Hmq) as [->|[Hur Hmem]]; [split; [lia|]; rewrite decide_True by done; rewrite Hc; by case_decide|]. split; [done|]. case_decide; [subst u; rewrite Hc; by case_decide|done].
    + destruct (pi_main _ _ _ I q u Hqs (Hx q Hne Hqx) Haq Hmq) as [Hur Hmem]. split; [done|]. case_decide; [|done]. subst u. destruct Hmem as [Hmo _]. congruence.
Qed.

(** ** Processes under construction *)

Definition lacking (p : Z) : Z -> Z := fun q => if decide (q = p) then -1 else 0.

(** Process [p] has been set up with one thread counted, [t], that it does not
    own yet. *)
Record forming s (p t : Z) : Prop := {
  fm_inv : proc_inv_but (lacking p) (Some p) s;
  fm_slot : user_slot p;
  fm_unborn : unborn s t;
  fm_alive : alive (prc s p) = true;
  fm_count : pr_thread_count (prc s p) = 1;
  fm_none : live_count s p = 0;
  fm_other : forall q, user_slot q -> q <> p -> alive (prc s q) = true -> 0 < pr_thread_count (prc s q) }.

Lemma forming_start s p t P :
  proc_inv s -> unborn s t -> user_slot p -> alive (prc s p) = false -> p_next_pid s < UINT64_MAX ->
  pr_pid P = p_next_pid s -> alive P = true -> pr_thread_count P = 1 -> 0 < p_next_pid s ->
  forming (set_process (s <| p_next_pid := u64 (p_next_pid s + 1) |>) p P) p t.
Proof.
  intros [I Pc] U Hp Hd Hn Hpid Ha Hc Hpos. assert (Hu : u64 (p_next_pid s + 1) = p_next_pid s + 1) by (apply u64_small; unfold UINT64_MAX in *; lia). rewrite Hu.
  pose proof (pi_count _ _ _ I p Hp) as Hl. rewrite Hd in Hl. constructor; try done; try (by rsimpl; rewrite aget_aset_eq).
  - eapply set_process_inv; [exact I|done| |intros q Hq; unfold lacking; by rewrite decide_False|congruence]. constructor; try lia.
    + intros _ q Hq Hqp He. pose proof (pi_fresh _ _ _ I q Hq). lia.
    + rewrite Ha, Hc. unfold lacking. rewrite decide_True by done. lia.
    + congruence.
  - intros q Hq Hqp. rsimpl. rewrite aget_aset_ne by done. by apply Pc.
Qed.

Lemma forming_steady s s' p t : steady s s' -> thr s' t = thr s t -> forming s p t -> forming s' p t.
Proof.
  intros S E [F1 F2 F3 F4 F5 F6 F7]. destruct (sd_process _ _ S p) as [_ Ea Ec _]. constructor; try done.
  - by eapply steady_inv.
  - by eapply unborn_steady.
  - unfold alive in *. congruence.
  - congruence.
  - rewrite (live_count_ext s s'); [done|]. intros i _. by apply steady_member.
  - intros q Hq Hqp. destruct (sd_process _ _ S q) as [_ Eaq Ecq _]. unfold alive. rewrite Eaq, Ecq. by apply F7.
Qed.

(** The construction is given up: the slots are cleared. *)
Lemma forming_drop s p t : forming s p t -> proc_inv (set_thread (set_process s p zero_process) t zero_thread).
Proof.
  intros [F1 F2 F3 F4 F5 F6 F7]. assert (Hpt : table_slot p) by (unfold user_slot, table_slot in *; lia). pose proof F3 as (Ft & _). apply clear_thread_inv; [|done|].
  - split; [|intros q Hq; rsimpl; rewrite aget_aset; case_decide; [done|by apply F7]]. rewrite <-same_next. eapply set_process_inv; [exact F1|done| |intros q Hq; unfold lacking; by rewrite decide_False|congruence].
    pose proof (pi_fresh _ _ _ F1 p Hpt). constructor; try done. cbn. lia.
  - intros q Hq Ha. change (thr (set_process s p zero_process) t) with (thr s t). by apply unborn_contrib.
Qed.

(** The construction is complete. *)
Lemma forming_done s p t th :
  forming s p t -> pr_main_thread (prc s p) = Some t -> t_owner th = Some p -> live th = true -> t_state th <> THREAD_RUNNING -> queue_wf th -> proc_inv (set_thread s t th).
Proof.
  intros [F1 F2 F3 F4 F5 F6 F7] Hm Ho Hl Hr Hq. split.
  - apply (adopt_inv (lacking p) settled (Some p) None s t th p); try done; [unfold lacking, settled; by rewrite decide_True|intros q Hqp; unfold lacking, settled; by rewrite decide_False|congruence|].
    intros u _ Hu. left. congruence.
  - intros q Hq' Ha. change (prc (set_thread s t th) q) with (prc s q) in *. destruct (decide (q = p)) as [->|]; [lia|by apply F7].
Qed.

(** The construction fails with the process dead and its thread ended. *)
Lemma forming_fail s p t th P :
  forming s p t -> t_owner th = Some p -> t_state th = THREAD_ZOMBIE -> queue_wf th -> pr_pid P = pr_pid (prc s p) -> alive P = false ->
  proc_inv (set_process (set_thread s t th) p P).
Proof.
  intros [F1 F2 F3 F4 F5 F6 F7] Ho Hs Hq Hpid Hd. pose proof F3 as (Ft & _ & Fo & _). assert (Hpt : table_slot p) by (unfold user_slot, table_slot in *; lia).
  assert (Hc : forall q, contrib th q = 0) by (intros q; unfold contrib, live; rewrite Hs; cbn; by rewrite andb_false_r).
  split; [|intros q Hqs; rsimpl; rewrite aget_aset; case_decide; [congruence|by apply F7]]. rewrite <-same_next.
  eapply (set_process_inv (lacking p) settled (Some p) None); [|done| |intros q Hqp; unfold lacking; by rewrite decide_False|congruence].
  - eapply set_thread_inv; [exact F1|lia| | |done|].
    + constructor; [lia|intros _; rewrite Ho; unfold user_slot in F2; intros [= X]; lia|intros q; rewrite Ho; by intros [= <-]|congruence|congruence|done].
    + intros q _ _. rewrite (unborn_contrib s t q F3), Hc. lia.
    + intros q u Hqs Hx Haq Hmq. destruct (pi_main _ _ _ F1 q u Hqs Hx Haq Hmq) as [Hur Hmem]. split; [done|]. case_decide; [|done]. subst u. exfalso. destruct Hmem as [Hmo _]. congruence.
  - constructor; try done.
    + rewrite Hpid. by apply (pi_fresh _ _ _ F1).
    + intros Hnz q Hqs Hqp He. apply Hqp. apply (pi_pid _ _ _ F1); [done|done|by intros X; apply Hnz; rewrite <-He|]. by rewrite <-Hpid.
    + congruence.
    + rewrite Hd. rewrite live_count_set by lia. rewrite F6, (unborn_contrib s t p F3), Hc. lia.
    + congruence.
Qed.

Lemma next_pid_pos s : proc_inv s -> 0 < p_next_pid s.
Proof. intros [I _]. pose proof (pi_fresh _ _ _ I 0 ltac:(unfold table_slot, NPK_MAX_PROCESSES; lia)). lia. Qed.

Lemma allocate_proc_inv s t s' :
  proc_inv s -> running_live s -> allocate_thread s = (Some t, s') ->
  proc_inv s' /\ unborn s' t /\ p_processes s' = p_processes s /\ p_current s' = p_current s /\ p_next_pid s' = p_next_pid s /\ (forall i, i <> t -> thr s' i = thr s i).
Proof.
  intros [I P] R E. destruct (allocate_inv settled None s t s' I) as (I1 & U & Ep & Ec & En & Eo); [intros c Hc; by apply live_not_unused, R|done|]. split; [|done]. split; [done|]. by rewrite Ep.
Qed.

Lemma prepare_entry_fields th entry rsp :
  let th' := prepare_user_entry_frame th entry rsp in t_owner th' = t_owner th /\ t_state th' = t_state th /\ (queue_wf th -> queue_wf th').
Proof. cbv zeta. unfold prepare_user_entry_frame. destruct (t_kernel_stack_top th =? 0); [done|]. split; [done|]. split; [done|]. queue_fields. Qed.

Lemma live_ready t : t_state t = THREAD_READY -> live t = true.
Proof. intros E. unfold live. by rewrite E. Qed.

Lemma create_user_inv s root entry stack_top :
  proc_inv s -> running_live s -> p_next_pid s < UINT64_MAX -> proc_inv (process_create_user s root entry stack_top).2.
Proof.
  intros I R Hn. unfold process_create_user. cif E; [done|]. destruct (find_index _ _ _) as [i|] eqn:Ef; [|done]. apply find_index_Some in Ef as (Hi & Hd & _). apply negb_true_iff in Hd.
  assert (Hp : user_slot i) by (unfold user_slot, NPK_MAX_PROCESSES in *; lia). destruct (allocate_thread s) as [[t|] s1] eqn:Ea; [|unfold allocate_thread in Ea; destruct (find_index _ _ _); [done|by injection Ea as <-]].
  destruct (allocate_proc_inv s t s1 I R Ea) as (I1 & U & Ep & _ & En & _). rewrite <-Ep in Hd. rewrite <-En in Hn. cbv zeta.
  match goal with |- context [set_process (s1 <| p_next_pid := _ |>) i ?P0] => set (P := P0); pose proof (forming_start s1 i t P I1 U Hp Hd Hn eq_refl eq_refl eq_refl (next_pid_pos _ I1)) as F end.
  assert (Hm : pr_main_thread (prc (set_process (s1 <| p_next_pid := u64 (p_next_pid s1 + 1) |>) i P) i) = Some t) by (rsimpl; by rewrite aget_aset_eq).
  assert (HP : prc (set_process (s1 <| p_next_pid := u64 (p_next_pid s1 + 1) |>) i P) i = P) by (rsimpl; by rewrite aget_aset_eq).
  generalize dependent (set_process (s1 <| p_next_pid := u64 (p_next_pid s1 + 1) |>) i P). intros s2 F Hm HP. destruct (vo_kmalloc (p_env s2) NPK_KERNEL_STACK_SIZE) as [stack k].
  pose proof (forming_steady _ _ _ _ (steady_set_kernel s2 k) eq_refl F) as F3. change (thr (set_kernel s2 k) t) with (thr s2 t). destruct (fm_unborn _ _ _ F3) as (Ut & _ & _ & Us & Uq). change (thr (set_kernel s2 k) t) with (thr s2 t) in Us, Uq. cif E1; cbn [snd].
  - apply (forming_fail (set_kernel s2 k)); try done; [destruct Uq; by constructor|]. change (prc (set_kernel s2 k) i) with (prc s2 i). by rewrite HP.
  - match goal with |- context [prepare_user_entry_frame ?x entry stack_top] => set (th := x); destruct (prepare_entry_fields th entry stack_top) as (Eo & Est & Eq) end.
    apply (forming_done _ i t); [done|done|by rewrite Eo|apply live_ready; by rewrite Est|rewrite Est; subst th; rsimpl; by rewrite Us|apply Eq; subst th; destruct Uq; by constructor].
Qed.

Lemma kernel_thread_inv s entry argument : proc_inv s -> running_live s -> proc_inv (scheduler_create_kernel_thread s entry argument).2.
Proof.
  intros I R. unfold scheduler_create_kernel_thread. cif E; [done|]. destruct (allocate_thread s) as [[t|] s1] eqn:Ea; [|unfold allocate_thread in Ea; destruct (find_index _ _ _); [done|by injection Ea as <-]].
  destruct (allocate_proc_inv s t s1 I R Ea) as (I1 & U & _). destruct (vo_kmalloc (p_env s1) NPK_KERNEL_STACK_SIZE) as [stack k].
  pose proof (steady_proc_inv _ _ (steady_set_kernel s1 k) I1) as I2. pose proof (unborn_steady _ _ t (steady_set_kernel s1 k) eq_refl U) as U2. generalize dependent (set_kernel s1 k). intros s2 I2 U2.
  pose proof U2 as (Ut & _ & Uo & Us & Uq). cif E1; cbn [snd].
  - apply clear_thread_inv; [done|done|]. intros p _ _. by apply unborn_contrib.
  - destruct I2 as [I2 P2]. split; [|done]. eapply set_thread_inv; [exact I2|lia| | | |].
    + constructor; rsimpl; try done. intros p [= <-]. unfold table_slot, NPK_MAX_PROCESSES. lia. destruct Uq. by constructor.
    + intros p Hp _. rewrite (unborn_contrib s2 t p U2). unfold contrib. rsimpl. rewrite bool_decide_eq_false_2; [done|]. unfold user_slot in Hp. intros [= X]. lia.
    + intros p Hp _. unfold contrib. rsimpl. rewrite bool_decide_eq_false_2; [done|]. unfold user_slot in Hp. intros [= X]. lia.
    + intros p u Hp Hx Ha Hm. destruct (pi_main _ _ _ I2 p u Hp Hx Ha Hm) as [Hur Hmem]. split; [done|]. case_decide; [|done]. subst u. exfalso. destruct Hmem as [Hmo _]. congruence.
Qed.

(** ** Fork *)

Lemma clone_vmas_alive (k : K) l m : m_alive (clone_vmas k l m).2 = m_alive m.
Proof.
  revert k m; induction l as [|v l IH]; intros k m; cbn [clone_vmas]; [done|]. unfold vm_destroy_all. cbv beta iota zeta.
  destruct (hasb _ _); [apply IH|]. destruct (vo_kmalloc k VMA_SIZE) as [node k1]. destruct (node =? 0); [done|]. destruct (_ >=? 0); [|by rewrite IH].
  destruct (vo_vfs_retain _ _) as [rc k2]. destruct (negb _); [done|by rewrite IH].
Qed.

Lemma clone_metadata_alive (k : K) parent child : m_alive (vm_clone_metadata k parent child).2 = m_alive child.
Proof.
  unfold vm_clone_metadata. repeat match goal with |- context [if ?b then _ else _] => destruct b end; try done; by rewrite clone_vmas_alive.
Qed.

Lemma retain_fds_steady s p : steady s (retain_fds s p).2 /\ p_threads (retain_fds s p).2 = p_threads s.
Proof.
  unfold retain_fds. match goal with |- context [for_break ?f ?i ?n ?a] =>
    pose proof (for_break_inv (fun _ s1 => steady s s1 /\ p_threads s1 = p_threads s) (fun r => steady s r.2 /\ p_threads r.2 = p_threads s) f n i a) as L; destruct (for_break f i n a) as [s1|[j s1]] end.
  all: cbn [snd]; apply L; [done|]; clear L s1; intros j1 s1 _ [S E]; cbv beta zeta; cif E1; [done|]; destruct (vo_vfs_retain _ _) as [rc k]; cif E2; (split; [etrans; [exact S|apply steady_set_kernel]|done]).
Qed.

Lemma unretain_fds_steady s p n : steady s (unretain_fds s p n) /\ p_threads (unretain_fds s p n) = p_threads s.
Proof.
  unfold unretain_fds. apply (for_range_inv (fun _ s1 => steady s s1 /\ p_threads s1 = p_threads s)); [done|]. intros k s1 _ [S E]. cbv zeta. cif E1; [|done].
  split; [etrans; [exact S|apply close_handle_steady]|done].
Qed.

Lemma drop_child_inv s p t root : forming s p t -> proc_inv (drop_child s p t root).
Proof. intros F. unfold drop_child. apply (forming_drop (set_kernel s _)). by apply (forming_steady s). Qed.

Lemma fork_thread_fields th main child f root top stack :
  let th' := fork_thread th main child f root top stack in t_owner th' = Some child /\ t_state th' = t_state th /\ (queue_wf th -> queue_wf th').
Proof. cbv zeta. unfold fork_thread. split; [done|]. split; [done|]. queue_fields. Qed.

Lemma prepare_fork_fields th f child_stack th' :
  prepare_fork_frame_with_stack th f child_stack = Some th' -> t_owner th' = t_owner th /\ t_state th' = t_state th /\ (queue_wf th -> queue_wf th').
Proof. unfold prepare_fork_frame_with_stack. cif E; [done|]. intros [= <-]. split; [done|]. split; [done|]. queue_fields. Qed.

(** The areas of the child are copied. *)
Lemma forming_mm s p t k m : m_alive m = m_alive (pr_mm (prc s p)) -> forming s p t -> forming (set_process (set_kernel s k) p (prc s p <| pr_mm := m |>)) p t.
Proof.
  intros Hm. apply forming_steady; [|done]. etrans; [apply steady_set_kernel|]. apply steady_set_process. change (prc (set_kernel s k) p) with (prc s p). constructor; try done. constructor; try done. rsimpl. by rewrite Hm.
Qed.

Lemma forming_main s p t u : forming s p t -> forming (set_process s p (prc s p <| pr_main_thread := u |>)) p t.
Proof.
  intros [F1 F2 F3 F4 F5 F6 F7]. pose proof (pi_count _ _ _ F1 p F2) as Hc. constructor; try done.
  - eapply update_process_inv; [exact F1|done|done|done|done|exact Hc|by right].
  - by rsimpl; rewrite aget_aset_eq.
  - by rsimpl; rewrite aget_aset_eq.
  - intros q Hq Hqp. rsimpl. rewrite aget_aset_ne by done. by apply F7.
Qed.

(** From the stack of the child to the end of [process_fork]. *)
Lemma fork_finish s child t parent f root :
  forming s child t ->
  proc_inv (let '(stack, k) := vo_kmalloc (p_env s) NPK_KERNEL_STACK_SIZE in
    let s := set_process (set_kernel s k) child (prc s child <| pr_main_thread := Some t |>) in
    let main := match pr_main_thread (prc s parent) with Some m => Some (thr s m) | None => None end in
    let th := fork_thread (thr s t) main child f root (m_stack_top (pr_mm (prc s child))) stack in
    let fail s := (-12, let '(k, _) := vm_destroy_all (p_env s) (pr_mm (prc s child)) in drop_child (set_kernel s k) child t root) in
    if stack =? 0 then fail s
    else match prepare_fork_frame th f with
         | None => fail (set_kernel s (vo_kfree (p_env s) stack))
         | Some th => (pr_pid (prc s child), set_thread s t th)
         end).2.
Proof.
  intros F. destruct (vo_kmalloc (p_env s) NPK_KERNEL_STACK_SIZE) as [stack k]. cbv zeta.
  pose proof (forming_main _ _ _ (Some t) (forming_steady _ _ _ _ (steady_set_kernel s k) eq_refl F)) as F1. change (prc (set_kernel s k) child) with (prc s child) in F1.
  assert (Hm : pr_main_thread (prc (set_process (set_kernel s k) child (prc s child <| pr_main_thread := Some t |>)) child) = Some t) by (rsimpl; by rewrite aget_aset_eq).
  generalize dependent (set_process (set_kernel s k) child (prc s child <| pr_main_thread := Some t |>)). intros s1 F1 Hm.
  assert (Hfail : forall s2 k2, forming s2 child t -> proc_inv (drop_child (set_kernel s2 k2) child t root)) by (intros s2 k2 F2; apply drop_child_inv; by apply (forming_steady s2)).
  cif E; [apply Hfail, F1|]. match goal with |- context [prepare_fork_frame ?x f] => set (th := x) end. unfold prepare_fork_frame.
  destruct (prepare_fork_frame_with_stack th f 0) as [th'|] eqn:Ef; [|apply Hfail; by apply (forming_steady s1)]. apply prepare_fork_fields in Ef as (Eo & Es & Eq).
  destruct (fm_unborn _ _ _ F1) as (_ & _ & _ & Us & Uq). cbn [snd]. apply (forming_done s1 child t); [done|done|by rewrite Eo| | |].
  - apply live_ready. by rewrite Es.
  - rewrite Es. change (t_state th) with (t_state (thr s1 t)). by rewrite Us.
  - apply Eq. by apply fork_thread_fields.
Qed.

Lemma fork_inv s f : proc_inv s -> running_live s -> p_next_pid s < UINT64_MAX -> proc_inv (process_fork s f).2.
Proof.
  intros I R Hn. unfold process_fork. destruct (p_current s) as [cur|]; [|done]. destruct (process_current s) as [parent|]; [|done]. cif E; [done|].
  destruct (find_index _ _ _) as [child|] eqn:Ef; [|done]. apply find_index_Some in Ef as (Hc & Hpid & _). assert (Hcs : user_slot child) by (unfold user_slot, NPK_MAX_PROCESSES in *; lia).
  destruct (po_clone_user_space _ _) as [root k]. pose proof (steady_set_kernel s k) as S1. pose proof (steady_proc_inv _ _ S1 I) as I1. pose proof (steady_running_live _ _ S1 R) as R1. cbv zeta.
  assert (Hd : alive (prc (set_kernel s k) child) = false).
  { change (alive (prc s child) = false). destruct (alive (prc s child)) eqn:Ea; [|done]. apply (pi_alive _ _ _ (proj1 I)) in Ea; [lia|unfold user_slot, table_slot in *; lia]. }
  change (p_next_pid s) with (p_next_pid (set_kernel s k)) in Hn. generalize dependent (set_kernel s k). intros s1 Hn _ I1 R1 Hd. cif E1; [done|].
  destruct (allocate_thread s1) as [[t|] s2] eqn:Ea.
  2: { unfold allocate_thread in Ea. destruct (find_index _ _ _); [done|]. injection Ea as <-. eapply steady_proc_inv; [apply steady_set_kernel|done]. }
  destruct (allocate_proc_inv s1 t s2 I1 R1 Ea) as (I2 & U & Ep & _ & En & _). rewrite <-Ep in Hd. rewrite <-En in Hn.
  pose proof (forming_start s2 child t (fork_child (prc s2 parent) (p_next_pid s2) root) I2 U Hcs Hd Hn eq_refl eq_refl eq_refl (next_pid_pos _ I2)) as F.
  generalize dependent (set_process (s2 <| p_next_pid := u64 (p_next_pid s2 + 1) |>) child (fork_child (prc s2 parent) (p_next_pid s2) root)). intros s3 F.
  destruct (retain_fds_steady s3 child) as [S4 T4]. destruct (retain_fds s3 child) as [[i|] s4]; cbn [snd] in S4, T4.
  - destruct (unretain_fds_steady s4 child i) as [S5 T5]. cbn [snd]. apply drop_child_inv. apply (forming_steady s4); [done|by rewrite T5|]. apply (forming_steady s3); [done|by rewrite T4|done].
  - assert (F4 : forming s4 child t) by (apply (forming_steady s3); [done|by rewrite T4|done]). pose proof (clone_metadata_alive (p_env s4) (pr_mm (prc s4 parent)) (pr_mm (prc s4 child))) as Hm.
    destruct (vm_clone_metadata _ _ _) as [[ok k4] m]. cbn [snd] in Hm. pose proof (forming_mm s4 child t k4 m Hm F4) as F5. generalize dependent (set_process (set_kernel s4 k4) child (prc s4 child <| pr_mm := m |>)). intros s5 F5.
    destruct ok; cbn [negb]; [by apply fork_finish|]. destruct (unretain_fds_steady s5 child NPK_MAX_FDS) as [S6 T6]. cbn [snd]. apply drop_child_inv. apply (forming_steady s5); [done|by rewrite T6|done].
Qed.

(** ** Clone *)

Definition extra (p : Z) : Z -> Z := fun q => if decide (q = p) then 1 else 0.

(** Thread [t] belongs to [p] but is not counted yet. *)
Record joining s (p t : Z) : Prop := {
  jn_inv : proc_inv_but (extra p) None s;
  jn_slot : user_slot p;
  jn_thread : 0 < t < NPK_MAX_THREADS;
  jn_member : member s p t;
  jn_alive : alive (prc s p) = true;
  jn_main : pr_main_thread (prc s p) <> Some t;
  jn_count : forall q, user_slot q -> alive (prc s q) = true -> 0 < pr_thread_count (prc s q) }.

Lemma joining_start s p t th :
  proc_inv s -> unborn s t -> user_slot p -> alive (prc s p) = true -> t_owner th = Some p -> t_state th = THREAD_READY -> queue_wf th -> joining (set_thread s t th) p t.
Proof.
  intros [I P] U Hp Ha Ho Hs Hq. pose proof U as (Ut & _ & Uo & _).
  assert (Hmain : forall u, pr_main_thread (prc s p) = Some u -> 0 <= u < NPK_MAX_THREADS /\ member s p u) by (intros u Hu; by apply (pi_main _ _ _ I)). constructor; try done.
  - apply (adopt_inv settled (extra p) None None s t th p); try done; [by apply live_ready|by rewrite Hs|unfold extra, settled; by rewrite decide_True|intros q Hqp; unfold extra, settled; by rewrite decide_False|].
    intros u _ Hu. right. by apply Hmain.
  - unfold member. rsimpl. rewrite aget_aset_eq. split; [done|by apply live_ready].
  - rsimpl. intros Hu. apply Hmain in Hu as [_ [Hmo _]]. congruence.
Qed.

Lemma joining_steady s s' p t : steady s s' -> joining s p t -> joining s' p t.
Proof.
  intros S [J1 J2 J3 J4 J5 J6 J7]. destruct (sd_process _ _ S p) as [_ Ea _ Em]. constructor; try done.
  - by eapply steady_inv.
  - by apply (steady_member s s').
  - unfold alive in *. congruence.
  - congruence.
  - intros q Hq. destruct (sd_process _ _ S q) as [_ Eaq Ecq _]. unfold alive. rewrite Eaq, Ecq. by apply J7.
Qed.

Lemma joining_drop s p t : joining s p t -> proc_inv (set_thread s t zero_thread).
Proof.
  intros [J1 J2 J3 J4 J5 J6 J7]. split; [|done]. pose proof J4 as [Jo Jl].
  assert (Hc : forall q, contrib (thr s t) q = extra p q) by (intros q; unfold contrib, extra; rewrite Jo, Jl; case_decide; [subst q; by rewrite bool_decide_eq_true_2|by rewrite bool_decide_eq_false_2 by congruence]).
  eapply set_thread_inv; [exact J1|lia|apply zero_thread_fits; lia| |done|].
  - intros q _ _. rewrite Hc. change (contrib zero_thread q) with 0. unfold settled. lia.
  - intros q u Hq Hx Haq Hmq. destruct (pi_main _ _ _ J1 q u Hq Hx Haq Hmq) as [Hur Hmem]. split; [done|]. case_decide; [|done]. subst u. exfalso. destruct Hmem as [Hmo _].
    assert (q = p) as -> by congruence. done.
Qed.

Lemma joining_done s p t : joining s p t -> proc_inv (set_process s p (prc s p <| pr_thread_count := pr_thread_count (prc s p) + 1 |>)).
Proof.
  intros [J1 J2 J3 J4 J5 J6 J7]. split.
  - pose proof (pi_count _ _ _ J1 p J2) as Hc. rewrite J5 in Hc. unfold extra in Hc. rewrite decide_True in Hc by done. eapply update_process_inv; [exact J1|done|done|done| | |by left].
    + intros q Hq. unfold settled, extra. by rewrite decide_False.
    + change (alive (prc s p <| pr_thread_count := pr_thread_count (prc s p) + 1 |>)) with (alive (prc s p)). rewrite J5. rsimpl. unfold settled. lia.
  - intros q Hq. rsimpl. rewrite aget_aset. case_decide; [subst q; intros _; rsimpl; specialize (J7 p J2 J5); lia|by apply J7].
Qed.

Lemma settid_steady s (b : bool) p a bytes : steady s (if b then copyout_process s p a bytes else (true, s)).2.
Proof. destruct b; [apply copyout_steady|done]. Qed.

Lemma current_owner_slot s cur p :
  proc_inv s -> p_current s = Some cur -> process_current s = Some p -> t_privilege_ring (thr s cur) = 3 -> user_slot p.
Proof.
  intros [I _] Hc Hp Hr. unfold process_current in Hp. rewrite Hc in Hp. pose proof (pi_owner _ _ _ I cur p Hp). pose proof (pi_ring _ _ _ I cur Hr) as Hn. rewrite Hp in Hn.
  unfold user_slot. assert (p <> 0) by (intros ->; done). lia.
Qed.

Lemma clone_thread_fields th parent p root f flags child_stack tls stack :
  let th' := clone_thread th parent p root f flags child_stack tls stack in t_owner th' = Some p /\ t_state th' = t_state th /\ (queue_wf th -> queue_wf th').
Proof. cbv zeta. unfold clone_thread. split; [done|]. split; [done|]. queue_fields. Qed.

Lemma clone_inv s flags child_stack parent_tid tls child_tid f :
  proc_inv s -> running_live s -> proc_inv (process_clone s flags child_stack parent_tid tls child_tid f).2.
Proof.
  intros I R. unfold process_clone. destruct (p_current s) as [cur|] eqn:Ec; [|done]. destruct (process_current s) as [p|] eqn:Ep; [|done]. cif E; [done|]. cbv zeta. cif E0; [done|].
  apply orb_false_iff in E as [Ha Hr]. apply negb_false_iff in Ha. assert (Hp : user_slot p) by (eapply current_owner_slot; [done|done|done|lia]).
  pose proof (ensure_space (p_env s) (pr_mm (prc s p)) (child_stack - 1) true) as Hm. destruct (vm_ensure_user_page _ _ _ _) as [[ok k] m]. cbn [snd] in Hm. pose proof (steady_mem_process s p k m Hm) as S1.
  pose proof (steady_proc_inv _ _ S1 I) as I1. pose proof (steady_running_live _ _ S1 R) as R1. assert (Ha1 : alive (prc (set_process (set_kernel s k) p (prc s p <| pr_mm := m |>)) p) = true) by (pose proof (spr_alive _ _ (sd_process _ _ S1 p)); unfold alive in *; congruence).
  generalize dependent (set_process (set_kernel s k) p (prc s p <| pr_mm := m |>)). intros s1 _ I1 R1 Ha1. destruct ok; [|done]. cbn [negb].
  destruct (allocate_thread s1) as [[t|] s2] eqn:Ea; [|unfold allocate_thread in Ea; destruct (find_index _ _ _); [done|by injection Ea as <-]].
  destruct (allocate_proc_inv s1 t s2 I1 R1 Ea) as (I2 & U & Epp & _). rewrite <-Epp in Ha1. destruct (vo_kmalloc (p_env s2) NPK_KERNEL_STACK_SIZE) as [stack k2].
  pose proof (steady_set_kernel s2 k2) as S3. pose proof (steady_proc_inv _ _ S3 I2) as I3. pose proof (unborn_steady _ _ t S3 eq_refl U) as U3. change (prc s2 p) with (prc (set_kernel s2 k2) p) in Ha1.
  generalize dependent (set_kernel s2 k2). intros s3 Ha1 _ I3 U3. pose proof U3 as (Ut & _ & _ & Us & Uq). cif E1; cbn [snd]; [apply clear_thread_inv; [done|done|]; intros q _ _; by apply unborn_contrib|].
  match goal with |- context [prepare_fork_frame_with_stack ?x f child_stack] => set (th := x) end. destruct (prepare_fork_frame_with_stack th f child_stack) as [th1|] eqn:Ef.
  2: { cbn [snd]. apply clear_thread_inv; [eapply steady_proc_inv; [apply steady_set_kernel|done]|done|]. intros q _ _. by apply (unborn_contrib s3). }
  apply prepare_fork_fields in Ef as (Eo & Es & Eq). destruct (clone_thread_fields (thr s3 t) (thr s3 cur) p (root_of (prc s3 p)) f flags child_stack tls stack) as (Co & Cs & Cq). fold th in Co, Cs, Cq.
  match goal with |- context [set_thread s3 t ?x] => set (th2 := x) end.
  assert (J : joining (set_thread s3 t th2) p t) by (apply joining_start; try done; subst th2; destruct (hasb _ _); rsimpl; try congruence; [|by auto]; destruct (Eq (Cq Uq)); by constructor).
  clearbody th2. generalize dependent (set_thread s3 t th2). intros s4 J.
  assert (Hdrop : forall s5 k5, joining s5 p t -> proc_inv (set_thread (set_kernel s5 k5) t zero_thread)) by (intros s5 k5 J5; apply (joining_drop _ p); by apply (joining_steady s5)).
  pose proof (settid_steady s4 (hasb flags NPK_CLONE_PARENT_SETTID) p parent_tid (le_bytes 4 (t_tid th2))) as S5. destruct (if hasb flags NPK_CLONE_PARENT_SETTID then _ else _) as [ok1 s5]. cbn [snd] in S5.
  pose proof (joining_steady _ _ _ _ S5 J) as J5. destruct ok1; cbn [negb]; [|by apply Hdrop].
  pose proof (settid_steady s5 (hasb flags NPK_CLONE_CHILD_SETTID) p child_tid (le_bytes 4 (t_tid th2))) as S6. destruct (if hasb flags NPK_CLONE_CHILD_SETTID then _ else _) as [ok2 s6]. cbn [snd] in S6.
  pose proof (joining_steady _ _ _ _ S6 J5) as J6. destruct ok2; cbn [negb]; [|by apply Hdrop]. cif E2; cbn [snd]; [apply Hdrop; by apply (joining_steady s6); [apply clear_child_tid_steady|]|]. by apply (joining_done s6 p t).
Qed.

End Life.
