(* ===== verification/Exec.v ===== *)
(** * Loading a program into a process (src/src/proc/process.c)

    The new image is staged in an address space of its own: segments and their
    areas, the interpreter, the heap, the initial stack.  Only a complete image
    replaces the old one.  [None] is a read outside of an image, as in Elf.v;
    strings are the bytes before their NUL. *)

From Stdlib Require Import ZArith Lia Bool ZifyBool.
From stdpp Require Import base numbers list gmap option.
From S2P Require Import Prelude Kstring Path Pmm Vmm Heap Kmem Elf Vm Proc.

Open Scope Z_scope.
Open Scope npk_scope.

Definition NPK_USER_INTERP_BASE : Z := 0x0000005000000000.
Definition NPK_AT_NULL : Z := 0.
Definition NPK_AT_PHDR : Z := 3.
Definition NPK_AT_PHENT : Z := 4.
Definition NPK_AT_PHNUM : Z := 5.
Definition NPK_AT_PAGESZ : Z := 6.
Definition NPK_AT_BASE : Z := 7.
Definition NPK_AT_ENTRY : Z := 9.
Definition NPK_MAX_EXEC_IMAGE : Z := 16 * 1024 * 1024.

(** What staging uses of the rest of the kernel besides [VmOps] and [ProcOps]. *)
Class ExecOps (K : Type) := {
  eo_create_address_space : K -> Z * K;
  eo_load : K -> image -> Z -> Z -> option ((Z + elf_load_result) * K);
  eo_vfs_open : K -> cstr -> Z * K;
  (** [vfs_read(fd, buffer, count)]: the result and the bytes read *)
  eo_vfs_read : K -> Z -> Z -> Z -> Z * list Z * K }.

(** The part of the staged process that is not [mm], and the images. *)
Record staged_exec := Staged {
  sg_mm : mm; sg_image_base : Z; sg_image_end : Z; sg_entry : Z; sg_initial_stack : Z;
  sg_main : elf_load_result; sg_interpreter : option elf_load_result }.

Section Model.
Context {K : Type} `{VmOps K} `{ProcOps K} `{ExecOps K}.
Implicit Type s : proc K.
Notation thr s i := ((p_threads s).[i]).
Notation prc s i := ((p_processes s).[i]).

(** ** The initial stack *)

Definition user_stack_write (k : K) (m : mm) (root address : Z) (bytes : list Z) : bool * K * mm :=
  if negb (vmm_is_user_range address (len bytes)) then (false, k, m) else write_user (length bytes) false k m root address bytes.

(** The new stack pointer, or none. *)
Definition user_stack_push (k : K) (m : mm) (root stack_pointer value : Z) : option Z * K * mm :=
  if stack_pointer <? NPK_USER_MIN + 8 then (None, k, m)
  else
    let '(ok, k, m) := user_stack_write k m root (stack_pointer - 8) (le_bytes 8 value) in
    (if ok : bool then Some (stack_pointer - 8) else None, k, m).

(** The loops over [argv] and [envp], last string first: the stack pointer and
    the addresses of the strings in order. *)
Fixpoint push_strings (k : K) (m : mm) (root stack_pointer : Z) (last_first : list (option cstr)) (addresses : list Z)
    : option (Z * list Z) * K * mm :=
  match last_first with
  | [] => (Some (stack_pointer, addresses), k, m)
  | None :: _ => (None, k, m)
  | Some string :: rest =>
      let length := strlen string + 1 in
      if (length >? NPK_PAGE_SIZE) || (stack_pointer <? NPK_USER_MIN + length) then (None, k, m)
      else
        let stack_pointer := stack_pointer - length in
        let '(ok, k, m) := user_stack_write k m root stack_pointer (take (Z.to_nat (strlen string)) string ++ [0]) in
        if ok : bool then push_strings k m root stack_pointer rest (stack_pointer :: addresses) else (None, k, m)
  end.

(** The loops over [auxv], [env_addresses] and [argv_addresses]. *)
Fixpoint push_words (k : K) (m : mm) (root stack_pointer : Z) (last_first : list Z) : option Z * K * mm :=
  match last_first with
  | [] => (Some stack_pointer, k, m)
  | value :: rest =>
      let '(r, k, m) := user_stack_push k m root stack_pointer value in
      match r with
      | Some stack_pointer => push_words k m root stack_pointer rest
      | None => (None, k, m)
      end
  end.

(** [auxv], as (type, value). *)
Definition auxiliary (main_image : elf_load_result) (interpreter : option elf_load_result) : list (Z * Z) :=
  (if negb (lr_program_header main_image =? 0)
   then [(NPK_AT_PHDR, lr_program_header main_image); (NPK_AT_PHENT, lr_program_header_size main_image); (NPK_AT_PHNUM, lr_program_header_count main_image)]
   else []) ++
  [(NPK_AT_PAGESZ, NPK_PAGE_SIZE)] ++
  match interpreter with
  | Some i => if lr_has_interp i && negb (lr_entry i =? 0) then [(NPK_AT_BASE, lr_load_bias i)] else []
  | None => []
  end ++
  [(NPK_AT_ENTRY, lr_entry main_image); (NPK_AT_NULL, NPK_AT_NULL)].

Definition flatten (pairs : list (Z * Z)) : list Z := concat (map (fun p => [p.1; p.2]) pairs).

(** The words from the initial stack pointer on. *)
Definition stack_words (argv envp : list Z) (aux : list (Z * Z)) : list Z := len argv :: argv ++ [0] ++ envp ++ [0] ++ flatten aux.

Definition build_initial_user_stack (k : K) (m : mm) (root stack_top : Z) (argv envp : list (option cstr))
    (main_image : elf_load_result) (interpreter : option elf_load_result) : option Z * K * mm :=
  if (Z.of_nat (length argv) >? 64) || (Z.of_nat (length envp) >? 64) then (None, k, m)
  else
    let '(r, k, m) := push_strings k m root stack_top (rev argv) [] in
    match r with
    | None => (None, k, m)
    | Some (stack_pointer, argv_addresses) =>
        let '(r, k, m) := push_strings k m root stack_pointer (rev envp) [] in
        match r with
        | None => (None, k, m)
        | Some (stack_pointer, env_addresses) =>
            push_words k m root (Z.land stack_pointer (not64 15)) (rev (stack_words argv_addresses env_addresses (auxiliary main_image interpreter)))
        end
    end.

(** ** Areas of the segments *)

Definition segment_protection (flags : Z) : Z :=
  let p := if hasb flags PF_R then NPK_PROT_READ else 0 in
  let p := if hasb flags PF_W then Z.lor p NPK_PROT_WRITE else p in
  if hasb flags PF_X then Z.lor p NPK_PROT_EXEC else p.

(** One round of the loop; [inr] is [return false]. *)
Definition register_segment (img : image) (h : elf64_header) (bias i : Z) (km : K * mm) : option (K * mm + K * mm) :=
  let '(k, m) := km in
  ph ← read_program img (e_phoff h) i;
  if negb (p_type ph =? PT_LOAD) || (p_memsz ph =? 0) then Some (inl km)
  else if (p_vaddr ph >? UINT64_MAX - bias) || (p_memsz ph >? UINT64_MAX - (p_vaddr ph + bias)) then Some (inr km)
  else
    let start := Z.land (p_vaddr ph + bias) (not64 (NPK_PAGE_SIZE - 1)) in
    let raw_end := p_vaddr ph + bias + p_memsz ph in
    if raw_end >? UINT64_MAX - (NPK_PAGE_SIZE - 1) then Some (inr km)
    else
      let end_ := Z.land (raw_end + NPK_PAGE_SIZE - 1) (not64 (NPK_PAGE_SIZE - 1)) in
      if end_ <=? start then Some (inr km)
      else
        let '(rc, k, m) := vm_reserve_range k m start (end_ - start) (segment_protection (p_flags ph)) (Z.lor NPK_MAP_PRIVATE NPK_MAP_ANONYMOUS) in
        Some (if rc <? 0 then inr (k, m) else inl (k, m)).

Definition register_exec_vmas (k : K) (m : mm) (img : image) (loaded : elf_load_result) : option (bool * K * mm) :=
  if image_size img <? EHDR then Some (false, k, m)
  else
    h ← read_header img;
    if (e_phoff h >? image_size img) || negb (e_phentsize h =? PHDR) || (e_phnum h * e_phentsize h >? image_size img - e_phoff h)
    then Some (false, k, m)
    else
      r ← forM (register_segment img h (lr_load_bias loaded)) 0 (Z.to_nat (e_phnum h)) (k, m);
      Some match r with inl (k, m) => (true, k, m) | inr (k, m) => (false, k, m) end.

(** ** Reading an image *)

(** The loop; a round reads at least one byte. *)
Fixpoint read_image (fuel : nat) (k : K) (fd buffer offset size : Z) (bytes : list Z) : option (list Z) * K :=
  if offset <? size then
    match fuel with
    | O => (None, k)
    | S fuel' =>
        let '(amount, got, k) := eo_vfs_read k fd (buffer + offset) (size - offset) in
        if (amount <=? 0) || (amount >? size - offset) then (None, k)
        else read_image fuel' k fd buffer (offset + amount) size (bytes ++ got)
    end
  else (Some bytes, k).

(** The buffer and its bytes. *)
Definition read_vfs_image (k : K) (path : cstr) : option (Z * image) * K :=
  let '(fd, k) := eo_vfs_open k path in
  if fd <? 0 then (None, k)
  else
    let raw_size := vo_vfs_size k fd in
    if (raw_size <=? 0) || (raw_size >? NPK_MAX_EXEC_IMAGE) then (None, vo_vfs_close k fd)
    else
      let '(buffer, k) := vo_kmalloc k raw_size in
      if buffer =? 0 then (None, vo_vfs_close k fd)
      else
        let '(r, k) := read_image (Z.to_nat raw_size) k fd buffer 0 raw_size [] in
        match r with
        | None => (None, vo_vfs_close (vo_kfree k buffer) fd)
        | Some bytes => (Some (buffer, bytes), vo_vfs_close k fd)
        end.

(** ** Staging *)

Definition free_image (k : K) (interpreter : option (Z * image)) : K :=
  match interpreter with Some (buffer, _) => vo_kfree k buffer | None => k end.

(** The interpreter the image asks for: [inl] is the failure of staging. *)
Definition find_interpreter (k : K) (img : image) : option ((unit + option (Z * image)) * K) :=
  path ← elf64_get_interpreter img NPK_ELF_INTERP_MAX;
  if path.1 <? 0 then Some (inl tt, k)
  else if path.1 =? 0 then Some (inr None, k)
  else
    let '(r, k) := read_vfs_image k path.2 in
    match r with
    | None => Some (inl tt, k)
    | Some (buffer, bytes) =>
        nested ← elf64_get_interpreter bytes NPK_ELF_INTERP_MAX;
        if negb (nested.1 =? 0) then Some (inl tt, vo_kfree k buffer)
        else
          type ← le_at bytes 16 2;
          if negb (type =? ET_DYN) then Some (inl tt, vo_kfree k buffer)
          else
            valid ← elf64_validate bytes;
            Some (if negb valid then (inl tt, vo_kfree k buffer) else (inr (Some (buffer, bytes)), k))
    end.

(** Loading an image and registering its areas. *)
Definition load_image (k : K) (m : mm) (img : image) (bias : Z) : option (option elf_load_result * K * mm) :=
  r ← eo_load k img (m_root m) bias;
  let '(loaded, k) := r in
  match loaded with
  | inl _ => Some (None, k, m)
  | inr loaded =>
      r ← register_exec_vmas k m img loaded;
      let '(ok, k, m) := r in
      Some (if ok : bool then Some loaded else None, k, m)
  end.

(** The heap, the stack and the entry once the images are loaded. *)
Definition finish_stage (k : K) (m : mm) (main_image : elf_load_result) (interpreter : option elf_load_result) (argv envp : list (option cstr))
    : option staged_exec * K * mm :=
  let image_end := match interpreter with
                   | Some i => if lr_image_end i >? lr_image_end main_image then lr_image_end i else lr_image_end main_image
                   | None => lr_image_end main_image
                   end in
  if image_end >? UINT64_MAX - (NPK_PAGE_SIZE - 1) then (None, k, m)
  else
    let heap_start := Z.land (image_end + NPK_PAGE_SIZE - 1) (not64 (NPK_PAGE_SIZE - 1)) in
    let limit := u64 (heap_start + Z.shiftl 1 32) in
    let heap_limit := if (limit <? heap_start) || (limit >? NPK_USER_MAX) then NPK_USER_MAX - NPK_PAGE_SIZE else limit in
    let '(rc, k, m) := vm_reserve_heap k m heap_start heap_limit in
    if rc <? 0 then (None, k, m)
    else
      let m := m <| m_stack_top := NPK_USER_STACK_TOP |> <| m_stack_limit := NPK_USER_STACK_TOP - NPK_USER_STACK_PAGES * NPK_PAGE_SIZE |>
                 <| m_stack_bottom := NPK_USER_STACK_TOP |> in
      let '(sp, k, m) := build_initial_user_stack k m (m_root m) NPK_USER_STACK_TOP argv envp main_image interpreter in
      match sp with
      | None => (None, k, m)
      | Some initial_stack =>
          let m := m <| m_brk_start := heap_start |> <| m_brk_end := heap_start |> <| m_mmap_cursor := 0x0000001000000000 |> in
          (Some (Staged m (lr_image_base main_image) image_end (match interpreter with Some i => lr_entry i | None => lr_entry main_image end)
                   initial_stack main_image interpreter), k, m)
      end.

(** The images, then the rest; a failure leaves the address space to be destroyed. *)
Definition fill_stage (k : K) (m : mm) (img : image) (bias : Z) (interpreter : option (Z * image)) (argv envp : list (option cstr))
    : option (option staged_exec * K * mm) :=
  r ← load_image k m img bias;
  let '(main_image, k, m) := r in
  match main_image with
  | None => Some (None, k, m)
  | Some main_image =>
      match interpreter with
      | None => Some (finish_stage k m main_image None argv envp)
      | Some (_, bytes) =>
          r ← load_image k m bytes NPK_USER_INTERP_BASE;
          let '(loaded, k, m) := r in
          match loaded with
          | None => Some (None, k, m)
          | Some i =>
              let i := LoadResult (lr_entry i) (lr_image_base i) (lr_image_end i) (lr_load_bias i) (lr_stack_top i) (lr_address_space_root i)
                         (lr_loaded_segments i) (lr_program_header i) (lr_program_header_count i) (lr_program_header_size i) true (lr_interpreter i) in
              Some (finish_stage k m main_image (Some i) argv envp)
          end
      end
  end.

Definition stage_exec_image (k : K) (img : image) (argv envp : list (option cstr)) : option (option staged_exec * K) :=
  valid ← elf64_validate img;
  if negb valid then Some (None, k)
  else
    type ← le_at img 16 2;
    let bias := if type =? ET_DYN then NPK_USER_DYN_BASE else 0 in
    r ← find_interpreter k img;
    let '(interpreter, k) := r in
    match interpreter with
    | inl _ => Some (None, k)
    | inr interpreter =>
        let '(root, k) := eo_create_address_space k in
        if root =? 0 then Some (None, free_image k interpreter)
        else
          r ← fill_stage k (zero_mm <| m_alive := true |> <| m_root := root |>) img bias interpreter argv envp;
          let '(staged, k, m) := r in
          let k := free_image k interpreter in
          match staged with
          | Some g => Some (Some g, k)
          | None => let '(k, _) := vm_destroy_all k m in Some (None, po_destroy_address_space k root)
          end
    end.

(** ** Replacing the image of a process *)

(** The fields of the process that come from the staged one; [alive] stays. *)
Definition take_image (p : process) (g : staged_exec) : process :=
  p <| pr_image_base := sg_image_base g |> <| pr_image_end := sg_image_end g |>
    <| pr_mm := sg_mm g <| m_alive := m_alive (pr_mm p) |> |>.

Definition process_exec_image_with_args s (img : image) (argv envp : list (option cstr)) : option (option Z * proc K) :=
  r ← stage_exec_image (p_env s) img argv envp;
  let '(staged, k) := r in
  let s := set_kernel s k in
  match staged with
  | None => Some (None, s)
  | Some g =>
      let '(p, s) := process_create_user s (m_root (sg_mm g)) (sg_entry g) (sg_initial_stack g) in
      match p with
      | None => let '(k, _) := vm_destroy_all (p_env s) (sg_mm g) in Some (None, set_kernel s (po_destroy_address_space k (m_root (sg_mm g))))
      | Some p => Some (Some p, set_process s p (take_image (prc s p) g))
      end
  end.

Definition process_exec_image s (img : image) : option (option Z * proc K) := process_exec_image_with_args s img [] [].

(** The descriptors marked close-on-exec. *)
Definition close_on_exec s (p : Z) : proc K :=
  for_range (fun i s =>
    let handle := (pr_fds (prc s p)).[i] in
    if hasb ((pr_fd_flags (prc s p)).[i]) 1 && (handle >=? 0) then
      let s := close_handle s handle in
      set_process s p (prc s p <| pr_fds := (pr_fds (prc s p)).[i <- -1] |> <| pr_fd_flags := (pr_fd_flags (prc s p)).[i <- 0] |>)
    else s) 0 (Z.to_nat NPK_MAX_FDS) s.

(** The thread forgets its signals and gets a new context. *)
Definition exec_thread (t : thread) (g : staged_exec) : thread :=
  t <| t_signal_inflight := false |> <| t_signal_frame_user := 0 |> <| t_signal_restorer := 0 |> <| t_signal_number := 0 |>
    <| t_signal_blocked := 0 |> <| t_signal_pending := 0 |> <| t_signal_saved_mask := 0 |> <| t_signal_saved_frame := zero_frame |>
    <| t_fs_base := 0 |> <| t_gs_base := 0 |>
    <| t_context := t_context t <| c_cr3 := m_root (sg_mm g) |> <| c_rip := sg_entry g |> <| c_rsp := sg_initial_stack g |> <| c_rflags := 0x202 |> |>.

Definition exec_frame (g : staged_exec) : syscall_frame :=
  SysFrame 0 0 0 0 0 0 0 0 0 0 0 0 0 0 0 (sg_entry g) USER_CS 0x202 (sg_initial_stack g) USER_SS.

(** The process and its thread take over the new image. *)
Definition install_image s (p t : Z) (g : staged_exec) : proc K :=
  let s := close_on_exec s p in
  let s := set_process s p (take_image (prc s p) g <| pr_signal_actions := afill zero_action |>) in
  set_thread s t (exec_thread (thr s t) g).

Definition process_exec_current s (img : image) (argv envp : list (option cstr)) (f : syscall_frame) : option (Z * syscall_frame * proc K) :=
  match process_current s, p_current s with
  | Some p, Some t =>
      if negb (t_privilege_ring (thr s t) =? 3) then Some (- PROCESS_EFAULT, f, s)
      else
        r ← stage_exec_image (p_env s) img argv envp;
        let '(staged, k) := r in
        let s := set_kernel s k in
        match staged with
        | None => Some (- PROCESS_EINVAL, f, s)
        | Some g =>
            let old := pr_mm (prc s p) in
            let s := process_activate (install_image s p t g) p in
            let s := if negb (m_root old =? 0) && negb (m_root old =? root_of (prc s p))
                     then set_kernel s (destroy_memory (p_kernel_root s) (p_env s) old).1 else s in
            Some (0, exec_frame g, s)
        end
  | _, _ => Some (- PROCESS_EFAULT, f, s)
  end.
End Model.
