(* ===== verification/ExecStack.v ===== *)
(** * The initial stack of a program

    What [build_initial_user_stack] leaves in the memory of the new program:
    the argument count, the pointers to the arguments and to the environment,
    the auxiliary vector and the strings themselves. *)

From Stdlib Require Import ZArith Lia Bool ZifyBool.
From stdpp Require Import base numbers list gmap option.
From S2P Require Import Prelude Kstring Path Pmm Vmm Heap Kmem Elf Vm Proc Exec.

Open Scope Z_scope.
Open Scope npk_scope.

Definition byte_ok (b : Z) : Prop := 0 <= b < 256.
Definition string_ok (o : option cstr) : Prop := forall s, o = Some s -> Forall byte_ok s.

(** What staging relies on: the user sees exactly the bytes that were written
    to an address space in order. *)
Class UserMemory (K : Type) `{VmOps K} `{ProcOps K} := {
  (** the byte the program sees at an address *)
  um_byte : K -> Z -> Z -> Z;
  um_ok : K -> mm -> Z -> Prop;
  um_write : forall k m root address bytes k' m',
    um_ok k m root -> 0 <= address -> Forall byte_ok bytes -> user_stack_write k m root address bytes = (true, k', m') ->
    um_ok k' m' root /\ forall x, um_byte k' root x = if decide (address <= x < address + len bytes) then nth (Z.to_nat (x - address)) bytes 0 else um_byte k root x }.

Section Stack.
Context {K : Type} `{UserMemory K}.

Definition holds_bytes (k : K) (root address : Z) (bytes : list Z) : Prop :=
  forall i, 0 <= i < len bytes -> um_byte k root (address + i) = nth (Z.to_nat i) bytes 0.

(** The string at an address, with its NUL. *)
Definition holds_string (k : K) (root address : Z) (s : cstr) : Prop := holds_bytes k root address (take (Z.to_nat (strlen s)) s ++ [0]).

Definition word_bytes (words : list Z) : list Z := concat (map (le_bytes 8) words).

(** Memory is the same outside of [low, high). *)
Definition same_outside (k k' : K) (root low high : Z) : Prop := forall x, ~ (low <= x < high) -> um_byte k' root x = um_byte k root x.

Lemma same_outside_trans k1 k2 k3 root a b c : a <= b <= c -> same_outside k1 k2 root b c -> same_outside k2 k3 root a b -> same_outside k1 k3 root a c.
Proof. intros Ho H1' H2' x Hx. rewrite H2', H1' by lia. done. Qed.

Lemma same_outside_mono k k' root a b c d : a <= b -> c <= d -> same_outside k k' root b c -> same_outside k k' root a d.
Proof. intros Ha Hd Hs x Hx. apply Hs. lia. Qed.

Lemma holds_frame k k' root low high address bytes :
  same_outside k k' root low high -> high <= address \/ address + len bytes <= low -> holds_bytes k root address bytes -> holds_bytes k' root address bytes.
Proof. intros Hs Ha Hb i Hi. rewrite Hs by lia. by apply Hb. Qed.

Lemma holds_app k root address a b : holds_bytes k root address a -> holds_bytes k root (address + len a) b -> holds_bytes k root address (a ++ b).
Proof.
  intros Ha Hb i Hi. unfold len in *. rewrite length_app in Hi. destruct (decide (i < Z.of_nat (length a))) as [Hl|Hl].
  - rewrite Ha by (unfold len; lia). rewrite app_nth1 by lia. done.
  - rewrite app_nth2 by lia. replace (address + i) with (address + Z.of_nat (length a) + (i - Z.of_nat (length a))) by lia. rewrite Hb by (unfold len; lia). f_equal. lia.
Qed.

Lemma word_bytes_length words : len (word_bytes words) = 8 * Z.of_nat (length words).
Proof. unfold word_bytes, len. induction words as [|w words IH]; [done|]. cbn [map concat]. rewrite length_app, le_bytes_length. cbn [length]. lia. Qed.

(** A write is seen and nothing else changes. *)
Lemma write_holds k m root address bytes k' m' :
  um_ok k m root -> 0 <= address -> Forall byte_ok bytes -> user_stack_write k m root address bytes = (true, k', m') ->
  um_ok k' m' root /\ holds_bytes k' root address bytes /\ same_outside k k' root address (address + len bytes).
Proof.
  intros Hok Ha Hb' Hw. destruct (um_write _ _ _ _ _ _ _ Hok Ha Hb' Hw) as [Hok' Hb]. split; [done|]. split.
  - intros i Hi. rewrite Hb, decide_True by lia. f_equal. lia.
  - intros x Hx. by rewrite Hb, decide_False.
Qed.

Lemma push_words_spec k m root sp last_first sp' k' m' :
  um_ok k m root -> push_words k m root sp last_first = (Some sp', k', m') ->
  um_ok k' m' root /\ sp' = sp - 8 * Z.of_nat (length last_first) /\ holds_bytes k' root sp' (word_bytes (rev last_first)) /\ same_outside k k' root sp' sp /\ (last_first <> [] -> NPK_USER_MIN <= sp').
Proof.
  revert k m sp; induction last_first as [|w rest IH]; intros k m sp Hok; cbn [push_words].
  { intros [= <- <- <-]. split; [done|]. split; [cbn; lia|]. split; [intros i Hi; change (0 <= i < 0) in Hi; lia|]. split; [by intros x _|done]. }
  unfold user_stack_push. cif E; [done|]. destruct (user_stack_write k m root (sp - 8) (le_bytes 8 w)) as [[ok k1] m1] eqn:Ew. destruct ok; [|done].
  intros Hp. assert (Ha0 : 0 <= sp - 8) by (unfold NPK_USER_MIN in *; lia). destruct (write_holds _ _ _ _ _ _ _ Hok Ha0 (le_bytes_range _ _) Ew) as (Hok1 & Hb1 & Hs1). unfold len in Hs1. rewrite le_bytes_length in Hs1.
  destruct (IH _ _ _ Hok1 Hp) as (Hok' & Hsp & Hb & Hs & Hmin). cbn [length]. split; [done|]. split; [lia|]. split; [|split].
  - cbn [rev]. unfold word_bytes. rewrite map_app, concat_app. apply holds_app; [exact Hb|]. cbn [map concat]. rewrite app_nil_r.
    pose proof (word_bytes_length (rev rest)) as Hl. unfold word_bytes in Hl. rewrite Hl, length_rev. replace (sp' + 8 * Z.of_nat (length rest)) with (sp - 8) by lia.
    eapply holds_frame; [exact Hs|lia|exact Hb1].
  - apply (same_outside_trans k k1 k' root sp' (sp - 8) sp); [lia| |exact Hs]. replace sp with (sp - 8 + Z.of_nat 8) at 2 by lia. exact Hs1.
  - intros _. destruct rest; [cbn in Hsp; lia|]. by apply Hmin.
Qed.
Lemma strlen_length (s : cstr) : 0 <= strlen s <= Z.of_nat (length s).
Proof. induction s as [|c s IH]; cbn [strlen length]; [lia|]. destruct (c =? 0); lia. Qed.

Lemma string_length (s : cstr) : len (take (Z.to_nat (strlen s)) s ++ [0]) = strlen s + 1.
Proof. pose proof (strlen_length s). unfold len. rewrite length_app, length_take. cbn [length]. lia. Qed.

(** Address [a] holds the string [o] within [low, high). *)
Definition points_to (k : K) (root low high a : Z) (o : option cstr) : Prop :=
  exists s, o = Some s /\ holds_string k root a s /\ low <= a /\ a + strlen s + 1 <= high.

Lemma points_frame k k' root low high low' high' l h a o :
  same_outside k k' root l h -> h <= low \/ high <= l -> low' <= low -> high <= high' -> points_to k root low high a o -> points_to k' root low' high' a o.
Proof.
  intros Hs Ho Hl Hh (s & -> & Hb & H1' & H2'). exists s. split; [done|]. split; [|lia]. unfold holds_string. eapply holds_frame; [exact Hs| |exact Hb]. rewrite string_length. lia.
Qed.

Lemma push_strings_spec k m root sp last_first acc sp' addresses k' m' :
  um_ok k m root -> Forall string_ok last_first -> push_strings k m root sp last_first acc = (Some (sp', addresses), k', m') ->
  exists new, addresses = new ++ acc /\ um_ok k' m' root /\ sp' <= sp /\ (sp' = sp \/ NPK_USER_MIN <= sp') /\ same_outside k k' root sp' sp /\
    Forall2 (points_to k' root sp' sp) new (rev last_first).
Proof.
  revert k m sp acc; induction last_first as [|o rest IH]; intros k m sp acc Hok Hstr; cbn [push_strings].
  { intros [= <- <- <- <-]. exists []. split; [done|]. split; [done|]. split; [lia|]. split; [by left|]. split; [by intros x _|constructor]. }
  destruct o as [s|]; [|done]. inversion Hstr as [|? ? Hso Hrest]; subst. clear Hstr. rename Hrest into Hstr. specialize (Hso s eq_refl). cif E; [done|]. cbv zeta. pose proof (string_length s) as Hl. pose proof (strlen_length s) as Hn.
  destruct (user_stack_write k m root (sp - (strlen s + 1)) _) as [[ok k1] m1] eqn:Ew. destruct ok; [|done]. intros Hp.
  assert (Hbs : Forall byte_ok (take (Z.to_nat (strlen s)) s ++ [0])) by (apply Forall_app; split; [by apply Forall_take|constructor; [unfold byte_ok; lia|constructor]]).
  assert (Ha0 : 0 <= sp - (strlen s + 1)) by (unfold NPK_USER_MIN in *; lia). destruct (write_holds _ _ _ _ _ _ _ Hok Ha0 Hbs Ew) as (Hok1 & Hb1 & Hs1). rewrite Hl in Hs1. replace (sp - (strlen s + 1) + (strlen s + 1)) with sp in Hs1 by lia.
  destruct (IH _ _ _ _ Hok1 Hstr Hp) as (new & -> & Hok' & Hle & Hmin & Hs & Hf). exists (new ++ [sp - (strlen s + 1)]).
  split; [by rewrite <-app_assoc|]. split; [done|]. split; [lia|]. split; [right; lia|]. split; [apply (same_outside_trans k k1 k' root sp' (sp - (strlen s + 1)) sp); [lia|done|done]|].
  cbn [rev]. apply Forall2_app.
  - eapply Forall2_impl; [|exact Hf]. intros a o (s' & -> & Hs' & Ha1 & Ha2). exists s'. split; [done|]. split; [done|lia].
  - constructor; [|constructor]. exists s. split; [done|]. split; [unfold holds_string; eapply holds_frame; [exact Hs| |exact Hb1]; lia|lia].
Qed.

Lemma flatten_length aux : Z.of_nat (length (flatten aux)) = 2 * Z.of_nat (length aux).
Proof. unfold flatten. induction aux as [|[a b] aux IH]; [done|]. cbn [map concat fst snd app length]. lia. Qed.

Lemma stack_words_length av ev aux : Z.of_nat (length (stack_words av ev aux)) = Z.of_nat (length av) + Z.of_nat (length ev) + 3 + 2 * Z.of_nat (length aux).
Proof. unfold stack_words. pose proof (flatten_length aux). cbn [length]. rewrite !length_app. cbn [length]. lia. Qed.

Lemma stack_words_align base n m :
  base mod 16 = 0 -> (base - 8 * (n + 3 + 2 * m)) mod 16 = if Z.even n then 8 else 0.
Proof.
  intros Hb. destruct (Z.even n) eqn:E.
  - apply Z.even_spec in E as [q ->]. replace (base - 8 * (2 * q + 3 + 2 * m)) with (8 + base + (- q - 2 - m) * 16) by lia. rewrite Z.mod_add by lia. mlia.
  - assert (Z.odd n = true) as [q ->]%Z.odd_spec by (rewrite <-Z.negb_even, E; done). replace (base - 8 * (2 * q + 1 + 3 + 2 * m)) with (base + (- q - 2 - m) * 16) by lia. rewrite Z.mod_add by lia. done.
Qed.

(** C7: When the initial stack is built, the program finds at its stack pointer the
    argument count, the addresses of the arguments, a null word, the addresses
    of the environment strings, a null word and the auxiliary vector; every
    address points to the whole string with its NUL, above the words and below
    the top of the stack, and no other memory is written.  The stack pointer is
    a multiple of 16 only when the number of strings is odd. *)
Theorem build_initial_user_stack_spec k m root top argv envp main_image interpreter sp k' m' :
  um_ok k m root -> 0 <= top <= UINT64_MAX -> Forall string_ok argv -> Forall string_ok envp ->
  build_initial_user_stack k m root top argv envp main_image interpreter = (Some sp, k', m') ->
  exists av ev, let words := stack_words av ev (auxiliary main_image interpreter) in let strings := sp + 8 * Z.of_nat (length words) in
    holds_bytes k' root sp (word_bytes words) /\ Forall2 (points_to k' root strings top) av argv /\ Forall2 (points_to k' root strings top) ev envp /\
    NPK_USER_MIN <= sp /\ sp mod 16 = (if Z.even (Z.of_nat (length argv + length envp)) then 8 else 0) /\ same_outside k k' root sp top.
Proof.
  intros Hok Ht Ha He. unfold build_initial_user_stack. cif E; [done|]. destruct (push_strings k m root top (rev argv) []) as [[[[sp1 av]|] k1] m1] eqn:E1; [|done].
  destruct (push_strings k1 m1 root sp1 (rev envp) []) as [[[[sp2 ev]|] k2] m2] eqn:E2; [|done]. intros Hw.
  destruct (push_strings_spec _ _ _ _ _ _ _ _ _ _ Hok (Forall_rev Ha) E1) as (av' & Ea & Hok1 & Hl1 & Hm1 & Hs1 & Hf1). rewrite app_nil_r in Ea. subst av'. rewrite rev_involutive in Hf1.
  destruct (push_strings_spec _ _ _ _ _ _ _ _ _ _ Hok1 (Forall_rev He) E2) as (ev' & Ee & Hok2 & Hl2 & Hm2 & Hs2 & Hf2). rewrite app_nil_r in Ee. subst ev'. rewrite rev_involutive in Hf2.
  assert (Hr2 : 0 <= sp2 <= UINT64_MAX) by (unfold NPK_USER_MIN in *; lia).
  change 15 with (2 ^ 4 - 1) in Hw. rewrite land_not_mask in Hw by (unfold UINT64_MAX in Hr2; lia). change (2 ^ 4) with 16 in Hw.
  destruct (push_words_spec _ _ _ _ _ _ _ _ Hok2 Hw) as (_ & Hsp & Hb & Hs3 & Hmin). rewrite rev_involutive in Hb. rewrite length_rev in Hsp.
  exists av, ev. cbv zeta. set (words := stack_words av ev (auxiliary main_image interpreter)) in *. set (base := sp2 - sp2 mod 16) in *.
  assert (Hbase : base <= sp2) by (unfold base; mlia). split; [exact Hb|].
  assert (Hstr : sp + 8 * Z.of_nat (length words) = base) by lia. rewrite Hstr.
  pose proof (Forall2_length Hf1) as La. pose proof (Forall2_length Hf2) as Le.
  split; [|split; [|split; [|split]]].
  - eapply Forall2_impl; [|exact Hf1]. intros a o Hpt. eapply (points_frame k2 k' root sp1 top); [exact Hs3|lia|lia|lia|]. eapply (points_frame k1 k2 root sp1 top); [exact Hs2|lia|lia|lia|exact Hpt].
  - eapply Forall2_impl; [|exact Hf2]. intros a o Hpt. eapply (points_frame k2 k' root sp2 sp1); [exact Hs3|lia|lia|lia|exact Hpt].
  - apply Hmin. intros Hn. apply (f_equal (@length Z)) in Hn. rewrite length_rev in Hn. unfold words, stack_words in Hn. discriminate Hn.
  - rewrite Hsp. unfold words. rewrite stack_words_length. rewrite La, Le, <-Nat2Z.inj_add. apply stack_words_align. unfold base. mlia.
  - apply (same_outside_trans k k1 k' root sp sp1 top); [lia|exact Hs1|]. apply (same_outside_trans k1 k2 k' root sp sp2 sp1); [lia|exact Hs2|]. eapply same_outside_mono; [| |exact Hs3]; lia.
Qed.
End Stack.
