(* ===== verification/ProcReach.v ===== *)
(** * The states of the process tables

    The entry points of process.c as one step function, and the invariant of
    ProcInv.v in every state they reach from [process_init]. *)

From Stdlib Require Import ZArith Lia Bool ZifyBool.
From stdpp Require Import base numbers list gmap.
From S2P Require Import Prelude Kstring Pmm Vmm Vm Elf Proc ProcMem Signal ProcStep Sched ProcInv ProcRun ProcLife Exec.

Open Scope Z_scope.
Open Scope npk_scope.

Section Reach.
Context {K : Type} `{VmOps K} `{ProcOps K} `{ExecOps K}.
Implicit Type s : proc K.
Notation thr s i := ((p_threads s).[i]).
Notation prc s i := ((p_processes s).[i]).

(** ** The remaining operations *)

Lemma wake_thread_steady s t : steady s (scheduler_wake_thread s t).
Proof.
  unfold scheduler_wake_thread. case_decide as E; [|done]. transitivity (set_thread s t (thr s t <| t_state := THREAD_READY |>)); [|by constructor].
  apply steady_set_thread. steady_fields; rewrite E; by try split.
Qed.

Lemma send_fd_steady s pid fd : steady s (process_send_fd s pid fd).2.
Proof.
  unfold process_send_fd. destruct (process_current s) as [sender|]; [|done]. cif E; [done|]. cif E1; [done|]. destruct (if pid >? 0 then _ else _) as [target|]; [|done].
  cif E2; [done|]. cif E3; [done|]. cif E4; [done|]. destruct (vo_vfs_retain _ _) as [rc k]. pose proof (steady_set_kernel s k) as S. cbv zeta. generalize dependent (set_kernel s k). intros s1 S.
  cif E5; [done|]. cbn [snd]. etrans; [exact S|]. apply steady_set_process. constructor; by try constructor.
Qed.

Lemma receive_fd_steady s p : steady s (process_receive_fd s p).2.
Proof.
  unfold process_receive_fd. cif E; [done|]. cbv zeta. cbn [snd]. apply steady_set_process. constructor; by try constructor.
Qed.

Lemma set_path_steady s p path : steady s (process_set_image_path s p path).
Proof. apply steady_set_process. constructor; by try constructor. Qed.

(** The main thread of a process takes the processor, when no other thread runs. *)
Lemma process_activate_inv s p :
  proc_inv s -> user_slot p -> (forall i, t_state (thr s i) = THREAD_RUNNING -> i = 0 \/ pr_main_thread (prc s p) = Some i) -> proc_inv (process_activate s p).
Proof.
  intros [I P] Hp Hrun. unfold process_activate. destruct (pr_main_thread (prc s p)) as [t|] eqn:Em; [|done]. destruct (alive (prc s p)) eqn:Ha; [|done]. cbn [negb]. cbv zeta.
  destruct (pi_main _ _ _ I p t Hp ltac:(done) Ha Em) as [Ht [Ho Hl]].
  assert (I1 : proc_inv (set_thread (s <| p_current := Some t |>) t (thr s t <| t_state := THREAD_RUNNING |>))).
  { split; [|done]. change (thr s t) with (thr (s <| p_current := Some t |>) t). apply set_state_inv; try done; [|by right].
    apply set_current_inv; [done|done|]. intros i Hi. destruct (Hrun i Hi) as [|X]; [by left|]. right. congruence. }
  generalize dependent (set_thread (s <| p_current := Some t |>) t (thr s t <| t_state := THREAD_RUNNING |>)). intros s1 I1.
  eapply steady_proc_inv; [|exact I1]. etrans; [apply (load_thread_steady s1 t p)|by constructor].
Qed.

(** The first user process starts from the boot thread. *)
Lemma launch_inv s p : proc_inv s -> user_slot p -> p_current s = Some 0 -> proc_inv (process_launch_user s p).2.
Proof.
  intros I Hp Hc. unfold process_launch_user. destruct (pr_main_thread (prc s p)) as [t|]; [|done]. cif E; [done|]. cbv zeta.
  enough (I1 : proc_inv (process_activate s p)) by by destruct (t_saved_interrupt_frame (thr (process_activate s p) t)).
  apply process_activate_inv; [done|done|]. intros i Hi. left. destruct (pi_running _ _ _ (proj1 I) i Hi) as [|X]; [done|congruence].
Qed.

(** ** Programs *)

Lemma take_image_steady s p g : steady s (set_process s p (take_image (prc s p) g)).
Proof. apply steady_set_process. by constructor. Qed.

Lemma close_on_exec_steady s p : steady s (close_on_exec s p).
Proof.
  apply steady_for_range. intros i s1 _. cbv zeta. cif E; [|done]. etrans; [apply close_handle_steady|]. apply steady_set_process. constructor; by try constructor.
Qed.

Lemma exec_image_inv s img argv envp r s' :
  proc_inv s -> running_live s -> p_next_pid s < UINT64_MAX -> process_exec_image_with_args s img argv envp = Some (r, s') -> proc_inv s'.
Proof.
  intros I R Hn. unfold process_exec_image_with_args. destruct (stage_exec_image _ _ _ _) as [[staged k]|]; [|done]. cbn [mbind option_bind].
  pose proof (steady_set_kernel s k) as S. pose proof (steady_proc_inv _ _ S I) as I1. pose proof (steady_running_live _ _ S R) as R1. change (p_next_pid s) with (p_next_pid (set_kernel s k)) in Hn.
  cbv zeta. generalize dependent (set_kernel s k). intros s1 Hn _ I1 R1. destruct staged as [g|]; [|by intros [= _ <-]].
  pose proof (create_user_inv s1 (m_root (sg_mm g)) (sg_entry g) (sg_initial_stack g) I1 R1 Hn) as I2. destruct (process_create_user _ _ _ _) as [p s2]. cbn [snd] in I2. destruct p as [p|].
  - intros [= _ <-]. eapply steady_proc_inv; [apply take_image_steady|done].
  - destruct (vm_destroy_all _ _) as [k2 m2]. intros [= _ <-]. eapply steady_proc_inv; [apply steady_set_kernel|done].
Qed.

Lemma exec_thread_steady t g : steady_thread t (exec_thread t g).
Proof. unfold exec_thread. steady_fields. Qed.

Lemma install_steady s p t g : steady s (install_image s p t g).
Proof.
  unfold install_image. pose proof (close_on_exec_steady s p) as S. cbv zeta. generalize dependent (close_on_exec s p). intros s1 S. etrans; [exact S|]. clear S.
  transitivity (set_process s1 p (take_image (prc s1 p) g <| pr_signal_actions := afill zero_action |>)); [apply steady_set_process; by constructor|]. apply steady_set_thread, exec_thread_steady.
Qed.

Lemma steady_trans s1 s2 s3 : steady s1 s2 -> steady s2 s3 -> steady s1 s3.
Proof. intros. by etrans. Qed.

(** A process replaces its image from its main thread. *)
Lemma exec_current_inv s img argv envp f r s' :
  proc_inv s -> (forall p, process_current s = Some p -> pr_main_thread (prc s p) = p_current s) -> process_exec_current s img argv envp f = Some (r, s') -> proc_inv s'.
Proof.
  intros I Hmain. unfold process_exec_current. destruct (process_current s) as [p|] eqn:Ep; [|by intros [= _ <-]]. destruct (p_current s) as [t|] eqn:Ec; [|by intros [= _ <-]].
  cif E; [by intros [= _ <-]|]. assert (Hp : user_slot p) by (eapply current_owner_slot; [done|done|done|lia]). specialize (Hmain p eq_refl).
  destruct (stage_exec_image _ _ _ _) as [[staged k]|]; [|done]. cbn [mbind option_bind]. cbv zeta. pose proof (steady_set_kernel s k) as S. destruct staged as [g|]; [|intros [= _ <-]; by eapply steady_proc_inv].
  pose proof (steady_trans _ _ _ S (install_steady (set_kernel s k) p t g)) as S5. clear S. generalize dependent (install_image (set_kernel s k) p t g). intros s4 S5.
  pose proof (steady_proc_inv _ _ S5 I) as I4.
  assert (I5 : proc_inv (process_activate s4 p)).
  { apply process_activate_inv; [done|done|]. intros i Hi. destruct (pi_running _ _ _ (proj1 I4) i Hi) as [|X]; [by left|right]. rewrite (spr_main _ _ (sd_process _ _ S5 p)), Hmain.
    by rewrite (sd_current _ _ S5), Ec in X. }
  generalize dependent (process_activate s4 p). intros s5 I5. cif E1; intros [= _ <-]; [|done]. eapply steady_proc_inv; [apply steady_set_kernel|done].
Qed.

(** ** Initialisation *)

Lemma boot_thread k i : i <> 0 -> thr (boot_state k) i = zero_thread.
Proof. intros Hi. unfold boot_state. cbn [p_threads]. by rewrite aget_aset_ne, aget_afill by done. Qed.

Lemma boot_process k i : i <> 0 -> prc (boot_state k) i = zero_process.
Proof. intros Hi. unfold boot_state. cbn [p_processes]. by rewrite aget_aset_ne, aget_afill by done. Qed.

Lemma boot_live_count k p : user_slot p -> live_count (boot_state k) p = 0.
Proof.
  intros Hp. unfold live_count. destruct (filter _ _) as [|i l] eqn:E; [done|]. exfalso. assert (Hin : i ∈ i :: l) by set_solver. rewrite <-E in Hin. apply list_elem_of_filter in Hin as [[Ho _] _].
  destruct (decide (i = 0)) as [->|Hi]; [change (Some 0 = Some p) in Ho; assert (p = 0) by congruence; unfold user_slot in Hp; lia|by rewrite boot_thread in Ho].
Qed.

Lemma boot_inv k : proc_inv (boot_state k).
Proof.
  assert (Hz : forall i, thr (boot_state k) i = zero_thread \/ i = 0) by (intros i; destruct (decide (i = 0)); [by right|left; by apply boot_thread]).
  assert (Hp : forall i, prc (boot_state k) i = zero_process \/ i = 0) by (intros i; destruct (decide (i = 0)); [by right|left; by apply boot_process]).
  split; [constructor|]; try done.
  - intros i p. destruct (Hz i) as [E|E]; [by rewrite E|subst i]. intros Ho. change (Some 0 = Some p) in Ho. assert (p = 0) by congruence. unfold NPK_MAX_PROCESSES. lia.
  - intros i. destruct (Hz i) as [E|E]; [by rewrite E|by subst i].
  - exists 0. split; [done|]. unfold NPK_MAX_THREADS. lia.
  - intros i. destruct (Hz i) as [E|E]; [by rewrite E|by left].
  - intros i. destruct (Hz i) as [E|E]; [by rewrite E|by subst i].
  - intros i. destruct (Hz i) as [E|E]; [rewrite E|subst i]; constructor; cbn; unfold NPK_SIGNAL_QUEUE_MAX; lia || done.
  - intros p q _ _. destruct (Hp p) as [E|E], (Hp q) as [E'|E']; rewrite ?E, ?E'; subst; cbn; try done; lia.
  - intros p _. destruct (Hp p) as [E|E]; [rewrite E; change (0 <= 0 < 2); lia|subst p; change (0 <= 1 < 2); lia].
  - intros p _. destruct (Hp p) as [E|E]; [by rewrite E|by subst p].
  - intros p Hs. rewrite boot_live_count by done. rewrite boot_process by (unfold user_slot in Hs; lia). done.
  - intros p t Hs. rewrite boot_process by (unfold user_slot in Hs; lia). done.
  - intros p Hs. rewrite boot_process by (unfold user_slot in Hs; lia). done.
Qed.

Lemma process_init_inv k entry s : process_init k entry = Some s -> proc_inv s.
Proof.
  unfold process_init. pose proof (kernel_thread_inv (boot_state k) entry 0 (boot_inv k)) as I.
  destruct (scheduler_create_kernel_thread (boot_state k) entry 0) as [[i|] s1]; [|done]. intros [= <-].
  assert (I1 : proc_inv s1) by (apply I; intros t [= <-]; done). destruct I1 as [[I1 I2 I12 I3 I4 I5 I6 I7 I8 I9 I10 I11] P]. split; [by constructor|done].
Qed.
(** A kernel thread that has returned ends. *)
Lemma thread_end_inv s :
  proc_inv s -> (forall t, p_current s = Some t -> t <> 0 /\ t_owner (thr s t) = Some 0) -> proc_inv (scheduler_thread_end s).2.
Proof.
  intros I Hk. unfold scheduler_thread_end. apply yield_inv. destruct (p_current s) as [t|] eqn:Ec; [|done]. destruct (Hk t eq_refl) as [Ht0 Ho].
  pose proof (current_range s t I Ec) as Ht. destruct I as [I P]. split; [|done].
  assert (Hz : forall (th : thread) p, t_owner th = Some 0 -> user_slot p -> contrib th p = 0).
  { intros th p Hth Hp. unfold contrib. rewrite Hth, bool_decide_eq_false_2; [done|]. unfold user_slot in Hp. intros X. assert (0 = p) by congruence. lia. }
  eapply set_thread_inv; [exact I|done| | | |].
  - constructor; rsimpl; try done; [apply (pi_ring _ _ _ I)|apply (pi_owner _ _ _ I)|]. destruct (pi_queue _ _ _ I t). by constructor.
  - intros p Hp _. rewrite !Hz by done. done.
  - intros p Hp _. by rewrite Hz.
  - intros p u Hp Hx Ha Hm. destruct (pi_main _ _ _ I p u Hp Hx Ha Hm) as [Hur [Hmo Hml]]. split; [done|]. case_decide; [|done]. subst u. exfalso.
    assert (p = 0) by congruence. unfold user_slot in Hp. lia.
Qed.

(** ** Steps *)

(** The entry points of process.c. The last three are what the rest of the
    kernel does to the tables: it changes its own state, it works on the areas
    of a process (Vm.v), and the system call layer writes the descriptors and
    the working directory of a process. *)
Inductive proc_op :=
  | OpCreateUser (root entry stack_top : Z)
  | OpKernelThread (entry argument : Z)
  | OpThreadEnd
  | OpLaunch (p : Z)
  | OpExecImage (img : image) (argv envp : list (option cstr))
  | OpExec (img : image) (argv envp : list (option cstr)) (f : syscall_frame)
  | OpFork (f : syscall_frame)
  | OpClone (flags child_stack parent_tid tls child_tid : Z) (f : syscall_frame)
  | OpExit (status : Z)
  | OpExitThread (status : Z)
  | OpWait (pid status options : Z)
  | OpReapPending
  | OpYield
  | OpTick
  | OpPreempt (f : frame)
  | OpWake (t : Z)
  | OpSignal (pid signal : Z) (info : option npk_signal_info)
  | OpThreadSignal (tgid tid signal : Z) (info : option npk_signal_info)
  | OpMask (mask : Z)
  | OpDeliver (f : frame)
  | OpDeliverSyscall (f : syscall_frame)
  | OpException (f : frame) (signal : Z)
  | OpTerminate (signal : Z)
  | OpSigreturn (f : syscall_frame)
  | OpSetTid (address : Z)
  | OpFutexWait (address expected timeout : Z)
  | OpFutexWake (address count : Z)
  | OpSendFd (pid fd : Z)
  | OpReceiveFd (p : Z)
  | OpSetPath (p : Z) (path : cstr)
  | OpCopyin (address length : Z)
  | OpCopyout (address : Z) (bytes : list Z)
  | OpKernel (k : K)
  | OpMemory (p : Z) (k : K) (m : mm)
  | OpFiles (p : Z) (fds flags : arr Z) (cwd : cstr).

Definition proc_do s (o : proc_op) : proc K :=
  match o with
  | OpCreateUser root entry stack_top => (process_create_user s root entry stack_top).2
  | OpKernelThread entry argument => (scheduler_create_kernel_thread s entry argument).2
  | OpThreadEnd => (scheduler_thread_end s).2
  | OpLaunch p => (process_launch_user s p).2
  | OpExecImage img argv envp => match process_exec_image_with_args s img argv envp with Some r => r.2 | None => s end
  | OpExec img argv envp f => match process_exec_current s img argv envp f with Some r => r.2 | None => s end
  | OpFork f => (process_fork s f).2
  | OpClone flags child_stack parent_tid tls child_tid f => (process_clone s flags child_stack parent_tid tls child_tid f).2
  | OpExit status => process_exit_current s status
  | OpExitThread status => process_exit_thread_current s status
  | OpWait pid status options => (process_wait4 s pid status options).2
  | OpReapPending => process_reap_pending s
  | OpYield => (scheduler_yield s).2
  | OpTick => scheduler_tick s
  | OpPreempt f => (scheduler_preempt s f).2
  | OpWake t => scheduler_wake_thread s t
  | OpSignal pid signal info => (process_send_signal_info s pid signal info).2
  | OpThreadSignal tgid tid signal info => (process_send_thread_signal_info s tgid tid signal info).2
  | OpMask mask => process_set_signal_mask s mask
  | OpDeliver f => (process_deliver_pending_signal s f).2
  | OpDeliverSyscall f => (process_deliver_pending_signal_syscall s f).2
  | OpException f signal => (process_deliver_signal s f signal).2
  | OpTerminate signal => (terminate_by_signal s signal).2
  | OpSigreturn f => (process_sigreturn s f).2
  | OpSetTid address => (process_set_tid_address s address).2
  | OpFutexWait address expected timeout => (process_futex_wait scheduler_yield s address expected timeout).2
  | OpFutexWake address count => (process_futex_wake s address count).2
  | OpSendFd pid fd => (process_send_fd s pid fd).2
  | OpReceiveFd p => (process_receive_fd s p).2
  | OpSetPath p path => process_set_image_path s p path
  | OpCopyin address length => (vmm_copyin s address length).2
  | OpCopyout address bytes => (vmm_copyout s address bytes).2
  | OpKernel k => set_kernel s k
  | OpMemory p k m => set_process (set_kernel s k) p (prc s p <| pr_mm := m |>)
  | OpFiles p fds flags cwd => set_process s p (prc s p <| pr_fds := fds |> <| pr_fd_flags := flags |> <| pr_cwd := cwd |>)
  end.

(** Code runs on a thread that has not ended, except [scheduler_yield], which
    every exit calls last. Exit is a system call or an exception of a user
    process, a kernel thread returns, the boot thread launches the first
    process, a process replaces its image from its main thread, and the counter
    of process numbers has not wrapped. *)
Definition proc_allowed s (o : proc_op) : Prop :=
  match o with
  | OpYield => True
  | OpCreateUser _ _ _ | OpExecImage _ _ _ | OpFork _ => running_live s /\ p_next_pid s < UINT64_MAX
  | OpThreadEnd => forall t, p_current s = Some t -> t <> 0 /\ t_owner (thr s t) = Some 0
  | OpLaunch p => user_slot p /\ p_current s = Some 0
  | OpExec _ _ _ _ => running_live s /\ forall p, process_current s = Some p -> pr_main_thread (prc s p) = p_current s
  | OpExit _ | OpExitThread _ | OpTerminate _ => running_live s /\ user_mode s
  | OpMemory p _ m => running_live s /\ same_space (pr_mm (prc s p)) m
  | _ => running_live s
  end.

Lemma proc_do_inv s o : proc_inv s -> proc_allowed s o -> proc_inv (proc_do s o).
Proof.
  intros I. destruct o; cbn [proc_allowed proc_do]; intros A.
  - destruct A. by apply create_user_inv.
  - by apply kernel_thread_inv.
  - by apply thread_end_inv.
  - destruct A. by apply launch_inv.
  - destruct A. destruct (process_exec_image_with_args s img argv envp) as [[r s']|] eqn:E; [|done]. by eapply exec_image_inv.
  - destruct A. destruct (process_exec_current s img argv envp f) as [[r s']|] eqn:E; [|done]. by eapply exec_current_inv.
  - destruct A. by apply fork_inv.
  - by apply clone_inv.
  - apply exit_current_inv; [done|]. intros t p. apply user_mode_owner; [done|apply A].
  - apply exit_thread_inv; [done|]. intros t p Hr. split; [eapply user_mode_owner; [exact I|apply A|exact Hr]|]. apply running_owner_spec in Hr as [Hc _]. by apply A.
  - by apply wait4_inv.
  - by apply reap_pending_inv.
  - by apply yield_inv.
  - by apply tick_inv.
  - by apply preempt_inv.
  - by eapply steady_proc_inv; [apply wake_thread_steady|].
  - by eapply steady_proc_inv; [apply send_signal_steady|].
  - by eapply steady_proc_inv; [apply send_thread_signal_steady|].
  - by eapply steady_proc_inv; [apply set_mask_steady|].
  - by apply deliver_pending_inv; [apply terminate_by_signal_inv|].
  - by apply deliver_syscall_inv.
  - by eapply steady_proc_inv; [apply deliver_info_steady|].
  - destruct A. by apply terminate_by_signal_inv.
  - by eapply steady_proc_inv; [apply sigreturn_steady|].
  - by eapply steady_proc_inv; [apply set_tid_steady|].
  - by apply futex_wait_inv.
  - by eapply steady_proc_inv; [apply futex_wake_op_steady|].
  - by eapply steady_proc_inv; [apply send_fd_steady|].
  - by eapply steady_proc_inv; [apply receive_fd_steady|].
  - by eapply steady_proc_inv; [apply set_path_steady|].
  - by eapply steady_proc_inv; [apply copyin_steady|].
  - by eapply steady_proc_inv; [apply copyout_user_steady|].
  - by eapply steady_proc_inv; [apply steady_set_kernel|].
  - destruct A as [_ A]. by eapply steady_proc_inv; [apply steady_mem_process|].
  - eapply steady_proc_inv; [|exact I]. apply steady_set_process. constructor; by try constructor.
Qed.

Inductive proc_reachable : proc K -> Prop :=
  | proc_reach_init k entry s : process_init k entry = Some s -> proc_reachable s
  | proc_reach_step s o : proc_reachable s -> proc_allowed s o -> proc_reachable (proc_do s o).


End Reach.
