(* ===== verification/Kernel.v ===== *)
(** * The kernel below the process tables

    The parts of the previous files put together: one heap over the page
    tables, used by the virtual file system, the areas and the process code;
    the timer (src/src/arch/timer.c), the keyboard and the console on its
    framebuffer.  This discharges the interfaces [VfsEnv],
    [VmOps] and [ProcOps] with the definitions of Heap.v, Vmm.v and Vfs.v, and
    the laws the VFS assumes of its heap with the theorems of Heap.v. *)

From Stdlib Require Import ZArith Lia Bool ZifyBool.
From stdpp Require Import base numbers list gmap.
From S2P Require Import Prelude Kstring Keyboard Gop Console Pmm Vmm Heap Kmem Vm Path Npkfs Procfs Vfs VfsRefs Proc.

Open Scope Z_scope.
Open Scope npk_scope.

(** ** The heap in order *)

(** A heap whose blocks are well formed, with the memory below it. *)
Record kheap := KHeap { kh_mem : kmem; kh_wf : exists l, heap_inv kh_mem l }.

Lemma pages_inv (s : kmem) p : (exists l, heap_inv s l) -> exists l, heap_inv (set_pages s p) l.
Proof. intros [l [[H1 H2 H3 H4 H5 H6] Hf]]. exists l. split; [by constructor|done]. Qed.

Lemma kmalloc_wf (s : kmem) n : (exists l, heap_inv s l) -> exists l, heap_inv (if bool_decide (0 < n <= UINT64_MAX - 63) then (kmalloc s n).2 else s) l.
Proof.
  intros [l Hl]. case_bool_decide as Hn; [|eauto]. eapply heap_step_inv; [exact Hl|]. by eapply hs_malloc, surjective_pairing.
Qed.

Lemma kfree_wf (s : kmem) p : (exists l, heap_inv s l) -> exists l, heap_inv (kfree s p) l.
Proof. intros [l Hl]. eapply heap_step_inv; [exact Hl|apply hs_free]. Qed.

Definition with_pages (h : kheap) (p : vmm) : kheap := KHeap (set_pages (kh_mem h) p) (pages_inv _ _ (kh_wf h)).

(** Requests of less than 64 bytes below the limit of size_t; no caller asks
    for more. *)
Definition kh_kmalloc (h : kheap) (n : Z) : Z * kheap :=
  (if bool_decide (0 < n <= UINT64_MAX - 63) then (kmalloc (kh_mem h) n).1 else 0, KHeap _ (kmalloc_wf _ n (kh_wf h))).
Definition kh_kfree (h : kheap) (p : Z) : kheap := KHeap _ (kfree_wf _ p (kh_wf h)).

(** The payloads in use. *)
Definition kh_live (s : kmem) : gset Z :=
  list_to_set ((fun ab => ab.1 + HDR) <$> filter (fun ab => magic ab.2 = HEAP_MAGIC /\ free ab.2 = false) (map_to_list (blocks s))).

Lemma kh_live_spec (s : kmem) l p : heap_inv s l -> p ∈ kh_live s <-> exists b, b ∈ l /\ fr b = false /\ st b + HDR = p.
Proof.
  intros [Hs _]. unfold kh_live. rewrite elem_of_list_to_set, list_elem_of_fmap. split.
  - intros ([a h] & -> & Hin). apply list_elem_of_filter in Hin as [[Hm Hf] Hin]. apply elem_of_map_to_list in Hin. cbn [fst snd] in *.
    destruct (si_magic _ _ Hs a h Hin Hm) as (b & Hb & <-). exists b. split; [done|]. split; [|done]. apply list_elem_of_split in Hb as (l1 & l2 & ->).
    pose proof (seg_at _ _ _ _ _ _ (si_seg _ _ Hs)) as E. rewrite Hin in E. by injection E as ->.
  - intros (b & Hb & Hf & <-). apply list_elem_of_split in Hb as (l1 & l2 & ->). pose proof (seg_at _ _ _ _ _ _ (si_seg _ _ Hs)) as E.
    eexists (st b, _). split; [done|]. apply list_elem_of_filter. split; [|by apply elem_of_map_to_list]. done.
Qed.

Lemma used_carve b n c : fr b = true -> (c ∈ carve b n /\ fr c = false -> st c = st b) /\ exists h, h ∈ carve b n /\ fr h = false /\ st h = st b.
Proof.
  intros Hb. unfold carve. destruct (_ <? _).
  - split; [by intros [->%list_elem_of_singleton _]|]. eexists. split; [by apply list_elem_of_singleton|done].
  - split; [|eexists; split; [by left|done]]. intros [Hc Hf]. apply elem_of_cons in Hc as [->|Hc]; [done|]. apply list_elem_of_singleton in Hc as ->. done.
Qed.

Lemma kmalloc_live_set (s : kmem) l n p s' :
  heap_inv s l -> 0 < n <= UINT64_MAX - 63 -> kmalloc s n = (p, s') ->
  if p =? 0 then kh_live s' = kh_live s else p ∉ kh_live s /\ kh_live s' = {[ p ]} ∪ kh_live s.
Proof.
  intros I Hn Hk. destruct (kmalloc_cases s l n p s' I Hn Hk) as [(-> & I' & _)|(l1 & b & l2 & -> & Hfit & I' & Hl)].
  { cbn. apply set_eq. intros q. by rewrite (kh_live_spec s l), (kh_live_spec s' l). }
  unfold fits in Hfit. apply andb_true_iff in Hfit as [Hfr _]. set (a := align_up_u64 n NPK_HEAP_ALIGNMENT) in *.
  destruct (used_carve b a b Hfr) as [_ (h & Hh & Hhf & Hhs)]. pose proof (starts_increasing _ _ _ (si_layout _ _ (proj1 I'))) as Hd.
  assert (Hb : NPK_HEAP_BASE <= st b) by (rewrite <-Hhs; apply list_elem_of_split in Hh as (x & y & E); rewrite E in I'; rewrite <-!app_assoc in I'; cbn [app] in I'; rewrite app_assoc in I'; destruct (struct_mid _ _ _ _ (proj1 I')) as (_ & _ & _ & B1 & _); exact B1).
  replace (st b + HDR =? 0) with false by (unfold NPK_HEAP_BASE, HDR in *; lia).
  assert (Hused : forall c, fr c = false -> c ∈ l <-> c ∈ l1 \/ c ∈ l2).
  { intros c Hc. destruct Hl as [[-> _]|(-> & -> & _)]; [|set_solver]. rewrite elem_of_app, elem_of_cons. split; [|tauto]. intros [?|[->|?]]; [by left|congruence|by right]. }
  split.
  - rewrite (kh_live_spec s l) by done. intros (c & Hc & Hcf & Hcs). apply Hused in Hc; [|done]. rewrite !fmap_app, !NoDup_app in Hd. destruct Hd as (_ & D1 & _ & D2 & _).
    assert (Hcin : st b ∈ st <$> carve b a) by (rewrite <-Hhs; by apply list_elem_of_fmap_2). assert (Es : st c = st b) by lia. destruct Hc as [Hc|Hc].
    + apply (D1 (st c)); [by apply list_elem_of_fmap_2|]. rewrite elem_of_app, Es. by left.
    + apply (D2 (st b) Hcin). rewrite <-Es. by apply list_elem_of_fmap_2.
  - apply set_eq. intros q. rewrite elem_of_union, elem_of_singleton, (kh_live_spec s l), (kh_live_spec s' _ _ I') by done. split.
    + intros (c & Hc & Hcf & <-). rewrite !elem_of_app in Hc. destruct Hc as [Hc|[Hc|Hc]]; [right|left|right].
      * exists c. rewrite Hused by done. auto.
      * f_equal. by apply (used_carve b a c Hfr).
      * exists c. rewrite Hused by done. auto.
    + intros [->|(c & Hc & Hcf & <-)]; [exists h; split; [set_solver|]; split; [done|by rewrite Hhs]|]. exists c. apply Hused in Hc; [|done]. split; [set_solver|done].
Qed.

Lemma kfree_live_set (s : kmem) l p : heap_inv s l -> kh_live (kfree s p) = kh_live s ∖ {[ p ]}.
Proof.
  intros I. apply set_eq. intros q. rewrite elem_of_difference, elem_of_singleton, (kh_live_spec s l q I).
  destruct (decide (Exists (fun b => fr b = false /\ st b + HDR = p) l)) as [He|He].
  - apply Exists_exists in He as (b & Hb & Hf & <-). apply list_elem_of_split in Hb as (l1 & l2 & ->). pose proof (starts_increasing _ _ _ (si_layout _ _ (proj1 I))) as Hd.
    destruct (kfree_accepts s l1 b l2 I Hf) as [I' _]. rewrite (kh_live_spec _ _ q I'). rewrite fmap_app, fmap_cons, NoDup_app, NoDup_cons in Hd. destruct Hd as (_ & D1 & D2 & _). split.
    + intros (c & Hc & Hcf & <-). apply afree_alloc in Hc; [|done]. split; [exists c; split; [set_solver|done]|]. intros E. assert (Es : st c = st b) by lia. destruct Hc as [Hc|Hc].
      * apply (D1 (st c)); [by apply list_elem_of_fmap_2|]. rewrite Es. by left.
      * apply D2. rewrite <-Es. by apply list_elem_of_fmap_2.
    + intros [(c & Hc & Hcf & <-) Hne]. exists c. split; [|done]. apply afree_in; [|done]. rewrite elem_of_app, elem_of_cons in Hc. destruct Hc as [?|[->|?]]; [by left|done|by right].
  - rewrite (kfree_rejects s l p I), (kh_live_spec s l q I); [|intros b Hb Hf Hs; apply He, Exists_exists; eauto]. split; [|tauto]. intros (c & Hc & Hcf & <-). split; [eauto|].
    intros E. apply He, Exists_exists. eauto.
Qed.

(** ** The platform *)

Record platform := Platform {
  mc_heap : kheap; mc_ticks : Z; mc_frequency : Z; mc_keyboard : keyboard; mc_tty : tty;
  (** the registers of the running kernel code *)
  mc_context : cpu_context;
  (** number and state of the current process, which /proc shows *)
  mc_process : option (Z * bool) }.
#[export] Instance eta_platform : Eta platform := fun x =>
  Platform (mc_heap x) (mc_ticks x) (mc_frequency x) (mc_keyboard x) (mc_tty x) (mc_context x) (mc_process x).

Definition on_heap {A} (f : kheap -> A * kheap) (m : platform) : A * platform := let '(a, h) := f (mc_heap m) in (a, m <| mc_heap := h |>).
Definition on_heap_ (f : kheap -> kheap) (m : platform) : platform := m <| mc_heap := f (mc_heap m) |>.
(** An operation on the page tables. *)
Definition on_vmm {A} (f : vmm -> A * vmm) (m : platform) : A * platform :=
  on_heap (fun h => let '(a, p) := f (pages (kh_mem h)) in (a, with_pages h p)) m.
Definition on_vmm_ (f : vmm -> vmm) (m : platform) : platform := on_heap_ (fun h => with_pages h (f (pages (kh_mem h)))) m.
Definition vmm_of (m : platform) : vmm := pages (kh_mem (mc_heap m)).

(** *** Timer and framebuffer *)

Definition timer_irq (m : platform) : platform := m <| mc_ticks := u64 (mc_ticks m + 1) |>.
Definition timer_ticks (m : platform) : Z := mc_ticks m.
Definition timer_frequency (m : platform) : Z := mc_frequency m.
Definition timer_monotonic_ns (m : platform) : Z := u64 (mc_ticks m * 1000000000) / mc_frequency m.

(** An operation on the framebuffer. *)
Definition on_gop {A} (f : gop -> A * gop) (m : platform) : A * platform :=
  let '(a, g) := f (t_gop (mc_tty m)) in (a, m <| mc_tty := mc_tty m <| t_gop := g |> |>).
Definition on_gop_ (f : gop -> gop) (m : platform) : platform := m <| mc_tty := mc_tty m <| t_gop := f (t_gop (mc_tty m)) |> |>.

(** *** The interfaces *)

#[export] Instance platform_vfs : VfsEnv platform := {
  ve_kmalloc m n := on_heap (fun h => kh_kmalloc h n) m;
  ve_kfree m p := on_heap_ (fun h => kh_kfree h p) m;
  ve_alloc_page m := on_vmm alloc_frame m;
  ve_free_page m p := on_vmm_ (fun v => free_frame v p) m;
  ve_zero_page m p := on_vmm_ (fun v => zero_page v p) m;
  ve_keyboard_has_data m := keyboard_has_data (mc_keyboard m);
  ve_procinfo m := ProcInfo (mc_ticks m) (mc_frequency m) (pmm_total_pages (pm (vmm_of m))) (pmm_free_pages (pm (vmm_of m))) (mc_process m) }.

(** The rest of the kernel, for the process tables. *)
Definition kernel : Type := vfs platform.

Definition in_platform {A} (f : platform -> A * platform) (k : kernel) : A * kernel := let '(a, m) := f (v_env k) in (a, set_env k m).
Definition in_platform_ (f : platform -> platform) (k : kernel) : kernel := set_env k (f (v_env k)).

#[export] Instance kernel_vm : VmOps kernel := {
  vo_kmalloc k n := in_platform (fun m => ve_kmalloc m n) k;
  vo_kfree k p := in_platform_ (fun m => ve_kfree m p) k;
  vo_alloc_page := in_platform (on_vmm alloc_frame);
  vo_free_page k p := in_platform_ (on_vmm_ (fun v => free_frame v p)) k;
  vo_retain_page k p := in_platform_ (on_vmm_ (fun v => retain_frame v p)) k;
  vo_zero_page k p := in_platform_ (on_vmm_ (fun v => zero_page v p)) k;
  vo_map_page_root k root va pa flags := in_platform (on_vmm (fun v => vmm_map_page_root v root va pa flags)) k;
  vo_unmap_page_root k root va := in_platform (on_vmm (fun v => vmm_unmap_page_root v root va)) k;
  vo_protect_page_root k root va flags := in_platform (on_vmm (fun v => vmm_protect_page_root v root va flags)) k;
  vo_lookup_root k root va flags := vmm_lookup_root (vmm_of (v_env k)) root va flags;
  vo_resolve_cow_fault k root va := in_platform (on_vmm (fun v => vmm_resolve_cow_fault v root va)) k;
  vo_vfs_file_backed := vfs_file_backed;
  vo_vfs_size := vfs_size;
  vo_vfs_retain := vfs_retain;
  vo_vfs_close k h := (vfs_close k h).2;
  vo_vfs_is_shared_memory := vfs_is_shared_memory;
  vo_vfs_shm_page_count := vfs_shm_page_count;
  vo_vfs_shm_page := vfs_shm_page;
  vo_vfs_read_at k fd physical count offset :=
    let '(rc, bytes) := vfs_read_at k fd (phys_to_virt (pm (vmm_of (v_env k))) physical) count offset in
    (rc, in_platform_ (on_vmm_ (fun v => write_bytes v physical bytes)) k) }.

(** [bootstrap] is where the linker puts [scheduler_thread_bootstrap]. *)
Definition kernel_proc (bootstrap : Z) : ProcOps kernel := {|
  po_read k physical n := read_bytes (vmm_of (v_env k)) physical (Z.to_nat n);
  po_write k physical bytes := in_platform_ (on_vmm_ (fun v => write_bytes v physical bytes)) k;
  po_current_root k := vmm_current_root (vmm_of (v_env k));
  po_load_cr3 k root := in_platform_ (on_vmm_ (fun v => Vmm (pm v) (ram v) root (mmio_next_virtual v))) k;
  po_clone_user_space k root := in_platform (on_vmm (fun v => vmm_clone_user_space v root)) k;
  po_destroy_address_space k root := in_platform_ (on_vmm_ (fun v => vmm_destroy_address_space v root)) k;
  po_release_user_display k pid := in_platform_ (on_gop_ (fun g => gop_release_user_display g pid)) k;
  po_timer_ticks k := timer_ticks (v_env k);
  po_timer_frequency k := timer_frequency (v_env k);
  po_kernel_context k := mc_context (v_env k);
  po_bootstrap := bootstrap |}.

(** The kernel heap is a heap as the VFS needs it. *)
#[export] Instance platform_vfs_laws : VfsEnvLaws platform.
Proof.
  refine {| ve_live m := kh_live (kh_mem (mc_heap m)) |}; try done.
  - intros m n. cbn. destruct (kh_wf (mc_heap m)) as [l Hl]. case_bool_decide as Hn; [|done]. intros Hz.
    pose proof (kmalloc_live_set _ l n _ _ Hl Hn (surjective_pairing _)) as L. rewrite (proj2 (Z.eqb_neq _ _) Hz) in L. exact L.
  - intros m n. cbn. destruct (kh_wf (mc_heap m)) as [l Hl]. case_bool_decide as Hn; [|done]. intros Hz.
    pose proof (kmalloc_live_set _ l n _ _ Hl Hn (surjective_pairing _)) as L. rewrite (proj2 (Z.eqb_eq _ _) Hz) in L. exact L.
  - intros m p. cbn. destruct (kh_wf (mc_heap m)) as [l Hl]. by apply (kfree_live_set _ l).
  - intros m. cbn. unfold on_vmm, on_heap. by destruct (alloc_frame (pages (kh_mem (mc_heap m)))).
Defined.
