(* ===== verification/KernelExec.v ===== *)
(** * Loading programs on the real kernel

    The interface [ExecOps] of Exec.v discharged with the page tables, the ELF
    loader and the virtual file system.  The loader takes its page records from
    the heap and gives them back, so the heap stays in order. *)

From Stdlib Require Import ZArith Lia Bool ZifyBool.
From stdpp Require Import base numbers list gmap option.
From S2P Require Import Prelude Kstring Pmm Vmm Heap Kmem Elf Vm Path Npkfs Procfs Vfs Proc Exec Kernel.

Open Scope Z_scope.
Open Scope npk_scope.

(** The blocks of the heap are in order. *)
Definition heap_ok (s : kmem) : Prop := exists l, heap_inv s l.

Lemma on_pages_ok {A} (f : vmm -> A * vmm) s a s' : on_pages f s = (a, s') -> heap_ok s -> heap_ok s'.
Proof. unfold on_pages. destruct (f (pages s)) as [b p]. intros [= _ <-]. apply pages_inv. Qed.

Lemma on_pages__ok f s : heap_ok s -> heap_ok (on_pages_ f s).
Proof. apply pages_inv. Qed.

Lemma k_alloc_ok s a s' : k_alloc_page s = (a, s') -> heap_ok s -> heap_ok s'.
Proof. apply on_pages_ok. Qed.
Lemma k_map_ok s root va pa flags ok s' : k_map_page_root s root va pa flags = (ok, s') -> heap_ok s -> heap_ok s'.
Proof. unfold k_map_page_root. apply on_pages_ok. Qed.
Lemma k_unmap_ok s root va pa s' : k_unmap_page_root s root va = (pa, s') -> heap_ok s -> heap_ok s'.
Proof. unfold k_unmap_page_root. apply on_pages_ok. Qed.
Lemma k_free_ok s a : heap_ok s -> heap_ok (k_free_page s a).
Proof. apply on_pages__ok. Qed.
Lemma k_zero_ok s a : heap_ok s -> heap_ok (k_zero_page s a).
Proof. apply on_pages__ok. Qed.
Lemma k_write_ok s a bs : heap_ok s -> heap_ok (k_write_bytes s a bs).
Proof. apply on_pages__ok. Qed.
Lemma kfree_ok s p : heap_ok s -> heap_ok (kfree s p).
Proof. apply kfree_wf. Qed.

#[local] Hint Resolve k_free_ok k_zero_ok k_write_ok kfree_ok : npk.

Lemma kcalloc_ok s count n p s' : 0 < n < 4096 -> count <= NPK_MAX_ELF_PAGES -> count <> 0 -> heap_ok s -> kcalloc s count n = (p, s') -> heap_ok s'.
Proof.
  intros Hn Hc Hz Hs. unfold kcalloc. destruct (_ && _) eqn:E; [intros [= _ <-]; done|]. intros Hk. destruct Hs as [l Hl].
  assert (0 < count) by (destruct (decide (0 < count)); [done|]; pose proof (Z.mul_div_le (- UINT64_MAX) (- count) ltac:(lia)) as Hd; rewrite Z.div_opp_opp in Hd by lia; assert (UINT64_MAX / count < 0) by (unfold UINT64_MAX in *; nia); lia).
  eapply heap_step_inv; [exact Hl|]. eapply hs_malloc; [|exact Hk]. unfold NPK_MAX_ELF_PAGES, UINT64_MAX in *. rewrite u64_small by nia. nia.
Qed.

(** A loop that keeps an invariant, whatever it returns. *)
Lemma forM_keeps {S R} (P : S -> Prop) (Q : R -> Prop) (f : Z -> S -> option (S + R)) n i s r :
  (forall k t r, P t -> f k t = Some r -> match r with inl t' => P t' | inr x => Q x end) -> P s -> forM f i n s = Some r ->
  match r with inl t => P t | inr x => Q x end.
Proof.
  intros Hf. revert i s; induction n as [|n IH]; intros i s Hs; cbn [forM]; [by intros [= <-]|].
  destruct (f i s) as [[t|x]|] eqn:E; [|intros [= <-]; exact (Hf _ _ _ Hs E)|done]. intros Hr. eapply IH; [|exact Hr]. exact (Hf _ _ _ Hs E).
Qed.

Definition loading_ok (l : lstate) : Prop := heap_ok (ls_k l).

Lemma load_page_ok img root count bias ph sr k l r : loading_ok l -> load_page img root count bias ph sr k l = Some r ->
  match r with inl l' => loading_ok l' | inr (_, l') => loading_ok l' end.
Proof.
  unfold loading_ok, load_page. intros Hl. destruct (k_alloc_page (ls_k l)) as [physical s1] eqn:Ea. apply k_alloc_ok in Ea; [|done].
  destruct (_ || _); [intros X; injection X as <-; cbn [ls_k]; destruct (negb _); auto with npk|].
  destruct (k_map_page_root s1 root _ physical _) as [ok s2] eqn:Em. apply k_map_ok in Em; [|done].
  destruct ok; cbn [negb]; [|intros X; injection X as <-; cbn [ls_k]; auto with npk]. cbv zeta. assert (Hz : heap_ok (k_zero_page s2 physical)) by auto with npk. revert Hz. generalize (k_zero_page s2 physical) as s3. intros s3 Hz.
  destruct (_ >? _); [|intros X; injection X as <-; done]. destruct (_ || _); [intros X; injection X as <-; done|]. destruct (bytes_at _ _ _); cbn [mbind option_bind]; [|done].
  intros X; injection X as <-; cbn [ls_k]; auto with npk.
Qed.

Lemma load_program_ok img h root count bias i l r : loading_ok l -> load_program img h root count bias i l = Some r ->
  match r with inl l' => loading_ok l' | inr (_, l') => loading_ok l' end.
Proof.
  intros Hl. unfold load_program. destruct (read_program _ _ _) as [ph|]; cbn; [|done]. destruct (negb _); [by intros [= <-]|].
  destruct (segment_range_valid _ _ _) as [sr|]; [|by intros [= <-]]. intros Hr.
  apply (forM_keeps loading_ok (fun x => loading_ok x.2)) in Hr; [destruct r as [|[]]; exact Hr| |done].
  intros k t [t'|[e t']] Ht Hp; exact (load_page_ok _ _ _ _ _ _ _ _ _ Ht Hp).
Qed.

Lemma unload_ok root records s : heap_ok s -> heap_ok (unload root records s).
Proof.
  revert s; induction records as [|[va ph] records IH]; intros s Hs; cbn [unload]; [done|]. destruct (k_unmap_page_root s root va) as [physical s1] eqn:E. apply k_unmap_ok in E; [|done].
  apply IH. destruct (negb _); auto with npk.
Qed.

Lemma load_wf img root bias s r s' : heap_ok s -> elf64_load_in_address_space img root bias s = Some (r, s') -> heap_ok s'.
Proof.
  intros Hs. unfold elf64_load_in_address_space. destruct (header_valid img) as [[h|]|]; cbn; [|by intros [= _ <-]|done].
  repeat (destruct (_ : bool); [by intros [= _ <-]|]). destruct (elf64_validate_at_bias img bias) as [v|]; cbn; [|done]. destruct (negb v); [by intros [= _ <-]|].
  destruct (forM (measure_program img h bias) _ _ _) as [[p|]|]; cbn; [|by intros [= _ <-]|done]. destruct (_ || _) eqn:Ec; [by intros [= _ <-]|].
  destruct (kcalloc s (ps_count p) RECORD_SIZE) as [records s1] eqn:Ek. apply kcalloc_ok in Ek; [|unfold RECORD_SIZE; lia|lia|lia|done].
  destruct (records =? 0); [by intros [= _ <-]|]. destruct (forM (load_program _ _ _ _ _) _ _ _) as [l|] eqn:El; cbn; [|done].
  apply (forM_keeps loading_ok (fun x => loading_ok x.2)) in El; [| |done].
  2: { intros k t [t'|[e t']] Ht Hp; exact (load_program_ok _ _ _ _ _ _ _ _ Ht Hp). }
  destruct l as [l|[e l]].
  - destruct (locate_program_header _ _ _); cbn; [|done]. destruct (elf64_get_interpreter _ _); cbn; [|done]. intros X; injection X as _ <-. by apply kfree_ok.
  - intros X; injection X as _ <-. by apply kfree_ok, unload_ok.
Qed.

Definition kh_load (h : kheap) (img : image) (root bias : Z) : option ((Z + elf_load_result) * kheap) :=
  match elf64_load_in_address_space img root bias (kh_mem h) as r return elf64_load_in_address_space img root bias (kh_mem h) = r -> option ((Z + elf_load_result) * kheap) with
  | Some (a, s) => fun E => Some (a, KHeap s (load_wf _ _ _ _ _ _ (kh_wf h) E))
  | None => fun _ => None
  end eq_refl.

#[export] Instance kernel_exec : ExecOps kernel := {
  eo_create_address_space := in_platform (on_vmm vmm_create_address_space);
  eo_load k img root bias :=
    r ← kh_load (mc_heap (v_env k)) img root bias;
    Some (r.1, set_env k (v_env k <| mc_heap := r.2 |>));
  eo_vfs_open k path := vfs_open k path;
  eo_vfs_read k fd buffer count := vfs_read k fd buffer count }.
