(* ===== verification/KernelMem.v ===== *)
(** * User copies on the real page tables

    What the copies between the kernel and a program do to the memory the
    program sees, with the page tables, frames and faults of Vmm.v and Vm.v
    below them: pages are provided on demand, shared pages are copied first,
    and exactly the bytes of the copy change. *)

From Stdlib Require Import ZArith Lia Bool ZifyBool.
From stdpp Require Import base numbers list gmap.
From S2P Require Import Prelude Kstring Pmm Vmm Heap Kmem Elf Vm Path Npkfs Procfs Vfs Proc ProcMem UserMem Exec ExecStack Kernel.

Open Scope Z_scope.
Open Scope npk_scope.

(** The page tables below the kernel state. *)
Definition tables (k : kernel) : vmm := vmm_of (v_env k).

(** Every area is anonymous memory. *)
Definition plain (m : mm) : Prop := Forall (fun v => hasb (v_flags v) NPK_MAP_SHARED_OBJECT = false /\ v_backing_handle v < 0) (m_vmas m).

(** The address space [root] is in order and belongs to [m]. *)
Definition memory_ok (k : kernel) (m : mm) (root : Z) : Prop :=
  uspace (tables k) root /\ root_allowed root = true /\ m_root m = root /\ plain m.

(** [k'] shows the program the same memory as [k], with at least its pages. *)
Definition same_memory (k k' : kernel) (root : Z) : Prop :=
  (forall x, ubyte (tables k') root x = ubyte (tables k) root x) /\ forall x, umapped (tables k) root x -> umapped (tables k') root x.

Lemma same_memory_trans k1 k2 k3 root : same_memory k1 k2 root -> same_memory k2 k3 root -> same_memory k1 k3 root.
Proof. intros [A1 A2] [B1 B2]. split; [intros x; by rewrite B1|auto]. Qed.

Lemma same_memory_refl k root : same_memory k k root.
Proof. done. Qed.

Lemma tables_on {A} (f : vmm -> A * vmm) k : let r := in_platform (on_vmm f) k in r.1 = (f (tables k)).1 /\ tables r.2 = (f (tables k)).2.
Proof. unfold in_platform, on_vmm, on_heap, tables, vmm_of. cbn. by destruct (f _). Qed.

Lemma tables_on_ (f : vmm -> vmm) k : tables (in_platform_ (on_vmm_ f) k) = f (tables k).
Proof. done. Qed.

Lemma canonical_user x : user_address x -> canonical x = true.
Proof. intros [H1 H2]. unfold canonical, USER_LIMIT in *. rewrite Z.shiftr_div_pow2 by lia. by rewrite Z.div_small by lia. Qed.

Lemma lor_frame e off : 0 <= off < 4096 -> Z.lor (Z.land e ENTRY_ADDR_MASK) off = frame_of e + off.
Proof. intros Ho. apply (lor_aligned _ _ 12); [lia|apply addr_mask_aligned|lia]. Qed.

(** Looking an address up finds the frame of its page. *)
Lemma lookup_user s root x flags :
  vmm_lookup_root s root x flags <> 0 -> user_address x -> hasb flags VM_USER = true ->
  exists e, pte s root x = Some e /\ hasb e VM_USER = true /\ vmm_lookup_root s root x flags = frame_of e + x mod 4096.
Proof.
  intros Hn Hx Hf. rewrite vmm_lookup_root_pte in *. destruct (_ && _); [|done]. destruct (pte s root x) as [e|] eqn:E; [|done]. exists e. split; [done|].
  destruct (permits e flags) eqn:Ep; [|done]. unfold permits in Ep. rewrite Hf in Ep. split; [destruct (hasb e VM_USER); [done|by rewrite ?orb_true_r in Ep]|]. apply lor_frame. mlia.
Qed.

Lemma lookup_mapped s root x : umapped s root x -> user_address x -> root_allowed root = true ->
  exists e, pte s root x = Some e /\ vmm_lookup_root s root x VM_USER = frame_of e + x mod 4096 /\ vmm_lookup_root s root x VM_USER <> 0.
Proof.
  intros (e & He & Hu & Hn) Hx Hr. exists e. split; [done|]. rewrite vmm_lookup_root_pte, Hr, canonical_user, He by done. cbn [andb]. unfold permits. rewrite Hu.
  change (hasb VM_USER VM_USER) with true. change (hasb VM_USER VM_WRITE) with false. change (hasb VM_USER VM_NX) with false. cbn. rewrite lor_frame by mlia. done.
Qed.

(** ** Providing pages *)

Lemma same_tables_ok k k' m root : tables k' = tables k -> memory_ok k m root -> memory_ok k' m root /\ same_memory k k' root.
Proof. intros E. unfold memory_ok, same_memory. by rewrite E. Qed.

Lemma map_zero_page_memory k m root page protection ok k' :
  memory_ok k m root -> user_address page -> page mod 4096 = 0 -> map_zero_page k m page protection = (ok, k') ->
  memory_ok k' m root /\ same_memory k k' root.
Proof.
  intros M Hpage Hal. unfold map_zero_page. destruct (_ || _); [intros [= <- <-]; by apply same_tables_ok|]. set (flags := if negb (hasb protection NPK_PROT_WRITE) then _ else _). cbv zeta.
  destruct (tables_on alloc_frame k) as [T1 T2]. cbn [vo_alloc_page kernel_vm] in *. destruct (in_platform (on_vmm alloc_frame) k) as [ph k1]. cbn [fst snd] in T1, T2. destruct M as (U & Hr & Hm & Hp).
  destruct (alloc_frame_cases (tables k) (aw_pmm _ _ (us_wf _ _ U))) as [E|(a & p & E & Hne & Hfr & Hwf & Hsub & _)]; rewrite E in T1, T2; cbn [fst snd] in T1, T2; subst ph.
  { intros [= <- <-]. by apply same_tables_ok. }
  rewrite (proj2 (Z.eqb_neq a 0) Hne). cbn [vo_map_page_root kernel_vm]. set (map := fun v => vmm_map_page_root v (m_root m) page a flags).
  destruct (tables_on map k1) as [M1 M2]. destruct (in_platform (on_vmm map) k1) as [ok2 k2]. cbn [fst snd] in M1, M2. unfold map in M1, M2. rewrite T2, Hm in M1, M2.
  destruct (vmm_map_page_root (set_pm (tables k) p) root page a flags) as [ok3 s2] eqn:Emap. cbn [fst snd] in M1, M2. subst ok3.
  destruct (fresh_map (tables k) root a U Hfr page flags p Hpage Hal Hwf Hsub ok2 s2 Emap) as (U' & B' & _).
  assert (Hk : forall k', tables k' = (if ok2 then zero_page s2 a else free_frame s2 a) -> memory_ok k' m root /\ same_memory k k' root).
  { intros k0 Ek. unfold memory_ok, same_memory. rewrite Ek. split; [done|]. split; [done|]. intros x. by apply (fresh_map_mapped (tables k) root a U Hfr page flags p). }
  destruct ok2; intros X; injection X as <- <-; apply Hk; cbn [vo_zero_page vo_free_page kernel_vm]; rewrite tables_on_, M2; done.
Qed.

Lemma page_start a : user_address a -> Z.land a (not64 (NPK_PAGE_SIZE - 1)) = a - a mod 4096.
Proof. intros [H1 H2]. unfold USER_LIMIT in H2. apply (land_not_mask a 12); lia. Qed.

Lemma find_vma_in l a v : find_vma l a = Some v -> v ∈ l.
Proof. intros E. apply find_some in E as [E _]. by apply list_elem_of_In. Qed.

Lemma same_space_ok k m m' root : same_space m m' -> memory_ok k m root -> memory_ok k m' root.
Proof. intros (_ & E1 & E2). unfold memory_ok, plain. by rewrite E1, E2. Qed.

Lemma ensure_memory k m root a write ok k' m' :
  memory_ok k m root -> user_address a -> vm_ensure_user_page k m a write = (ok, k', m') -> memory_ok k' m' root /\ same_memory k k' root.
Proof.
  intros M Ha E. pose proof (ensure_space k m a write) as Hs. rewrite E in Hs. cbn [snd] in Hs.
  enough (memory_ok k' m root /\ same_memory k k' root) as [M' S] by (split; [by eapply same_space_ok|done]). revert E. unfold vm_ensure_user_page. rewrite page_start by done.
  repeat match goal with |- (if ?b then (false, _, _) else _) = _ -> _ => destruct b; [intros [= <- <- <-]; by apply same_tables_ok|] end. cbv zeta.
  destruct (negb (_ =? 0)); [intros [= <- <- <-]; by apply same_tables_ok|].
  repeat match goal with |- (if ?b then (false, _, _) else _) = _ -> _ => destruct b; [intros [= <- <- <-]; by apply same_tables_ok|] end.
  unfold materialise. set (pr := if stack_page_allowed _ _ _ _ then _ else _). intros E.
  assert (Hz : exists ok0, map_zero_page k m (a - a mod 4096) pr = (ok0, k')).
  { revert E. destruct (find_vma (m_vmas m) a) as [v|] eqn:Ev.
    - destruct M as (_ & _ & _ & Hp). unfold plain in Hp. rewrite Forall_forall in Hp. destruct (Hp v (find_vma_in _ _ _ Ev)) as [-> Hb]. replace (v_backing_handle v >=? 0) with false by lia.
      destruct (map_zero_page _ _ _ _) as [o k2]. destruct o; intros [= <- <- <-]; eauto.
    - destruct (map_zero_page _ _ _ _) as [o k2]. destruct o; intros [= <- <- <-]; eauto. }
  destruct Hz as [ok0 Hz]. apply (map_zero_page_memory k m root _ _ _ _ M) in Hz; [done| |]; unfold user_address in *; mlia.
Qed.

Section Copies.
Context (bootstrap : Z).
#[local] Instance copies_proc : ProcOps kernel := kernel_proc bootstrap.

(** The frame of a page, ready for a write or a read. *)
Definition frame_at (k : kernel) (root a ph : Z) : Prop :=
  ph <> 0 -> exists e, pte (tables k) root a = Some e /\ hasb e VM_USER = true /\ ph = frame_of e + a mod 4096.

Lemma lookup_frame k root a flags : user_address a -> hasb flags VM_USER = true -> frame_at k root a (vo_lookup_root k root a flags).
Proof. intros Ha Hf Hn. by apply lookup_user. Qed.

Lemma writable_memory cow k m root a ph k' m' :
  memory_ok k m root -> user_address a -> writable_frame cow k m root a = (ph, k', m') ->
  memory_ok k' m' root /\ same_memory k k' root /\ frame_at k' root a ph.
Proof.
  intros M Ha. unfold writable_frame. cbv zeta. set (fl := Z.lor VM_USER VM_WRITE). assert (Hfl : hasb fl VM_USER = true) by (by vm_compute).
  assert (C : forall r, (if cow && (vo_lookup_root k root a fl =? 0) then
      let '(ok, k0) := vo_resolve_cow_fault k root a in (if ok : bool then vo_lookup_root k0 root a fl else vo_lookup_root k root a fl, k0) else (vo_lookup_root k root a fl, k)) = r ->
      memory_ok r.2 m root /\ same_memory k r.2 root /\ frame_at r.2 root a r.1).
  { intros r <-. destruct (cow && _) eqn:Ec; [|split; [done|]; split; [done|]; by apply lookup_frame]. cbn [vo_resolve_cow_fault kernel_vm].
    set (f := fun v => vmm_resolve_cow_fault v root a). destruct (tables_on f k) as [T1 T2]. destruct (in_platform (on_vmm f) k) as [o k1]. cbn [fst snd] in *. unfold f in T1, T2.
    destruct (vmm_resolve_cow_fault (tables k) root a) as [o' s'] eqn:E. cbn [fst snd] in *. destruct M as (U & Hr & Hm & Hp).
    destruct (cow_uspace _ _ _ _ _ U Ha E) as (U' & B' & X'). split; [by rewrite <-T2 in U'|]. split; [split; rewrite T2; done|].
    destruct o; [by apply lookup_frame|]. apply andb_true_iff in Ec as [_ Ec%Z.eqb_eq]. rewrite Ec. by intros ?. }
  destruct (if cow && _ then _ else _) as [ph1 k1]. specialize (C _ eq_refl) as (M1 & S1 & F1). cbn [fst snd] in *.
  destruct (ph1 =? 0) eqn:E0; [|intros [= <- <- <-]; done]. destruct (vm_ensure_user_page k1 m a true) as [[ok k2] m2] eqn:Ee. intros [= <- <- <-].
  destruct (ensure_memory _ _ _ _ _ _ _ _ M1 Ha Ee) as [M2 S2]. split; [done|]. split; [by eapply same_memory_trans|]. destruct ok; [by apply lookup_frame|]. by intros ?.
Qed.

Lemma readable_memory k m root a ph k' m' :
  memory_ok k m root -> user_address a -> readable_frame k m root a = (ph, k', m') ->
  memory_ok k' m' root /\ same_memory k k' root /\ frame_at k' root a ph.
Proof.
  intros M Ha. unfold readable_frame. cbv zeta. destruct (vo_lookup_root k root a VM_USER =? 0) eqn:E0.
  - destruct (vm_ensure_user_page k m a false) as [[ok k1] m1] eqn:Ee. intros [= <- <- <-]. destruct (ensure_memory _ _ _ _ _ _ _ _ M Ha Ee) as [M1 S1].
    split; [done|]. split; [done|]. destruct ok; [by apply lookup_frame|]. by intros ?.
  - intros [= <- <- <-]. split; [done|]. split; [done|]. by apply lookup_frame.
Qed.

Lemma page_left_mod a : page_left a = 4096 - a mod 4096.
Proof. unfold page_left, NPK_PAGE_SIZE. change (4096 - 1) with (Z.ones 12). by rewrite Z.land_ones by lia. Qed.

(** The places where the loops look up a page. *)
Definition pages_mapped (k : kernel) (root a n : Z) : Prop := forall x, a <= x < a + n -> x = a \/ x mod 4096 = 0 -> umapped (tables k) root x.

(** The first [n] bytes have been written at [a] and nothing else. *)
Definition written (k k' : kernel) (root a : Z) (bytes : list Z) (n : Z) : Prop :=
  (forall x, ubyte (tables k') root x = if decide (a <= x < a + n) then nth (Z.to_nat (x - a)) bytes 0 else ubyte (tables k) root x) /\
  forall x, umapped (tables k) root x -> umapped (tables k') root x.

Lemma written_none k k' root a bytes : same_memory k k' root -> written k k' root a bytes 0.
Proof. intros [B X]. split; [|done]. intros x. rewrite decide_False by lia. apply B. Qed.

Lemma written_app k k1 k2 root a l1 l2 n :
  written k k1 root a l1 (len l1) -> written k1 k2 root (a + len l1) l2 n -> 0 <= n <= len l2 -> written k k2 root a (l1 ++ l2) (len l1 + n).
Proof.
  unfold len. intros [B1 X1] [B2 X2] Hn. split; [|auto]. intros x. rewrite B2. destruct (decide (a + Z.of_nat (length l1) <= x < _)) as [Hi|Hi].
  - rewrite decide_True by lia. rewrite app_nth2 by lia. f_equal. lia.
  - rewrite B1. destruct (decide (a <= x < a + Z.of_nat (length l1))) as [Hj|Hj]; [rewrite decide_True by lia; by rewrite app_nth1 by lia|]. by rewrite decide_False by lia.
Qed.

(** One page of a write. *)
Lemma write_chunk k m root a ph l :
  memory_ok k m root -> user_address a -> frame_at k root a ph -> ph <> 0 -> Forall byte_ok l -> len l <= page_left a ->
  let k' := po_write k ph l in memory_ok k' m root /\ written k k' root a l (len l) /\ umapped (tables k') root a.
Proof.
  intros (U & Hr & Hm & Hp) Ha Hf Hn Hb Hl k'. destruct (Hf Hn) as (e & He & Hu & ->). rewrite page_left_mod in Hl. unfold len in Hl.
  assert (T : tables k' = write_bytes (tables k) (frame_of e + a mod 4096) l) by done.
  destruct (write_page (tables k) root a e l U Ha He Hb ltac:(lia)) as (U' & P' & B'). rewrite <-T in U', P', B'.
  split; [done|]. split; [|exists e; rewrite P'; done]. split; [exact B'|]. intros x (e2 & ? & ?). exists e2. by rewrite P'.
Qed.

Lemma write_user_memory fuel cow k m root a bytes ok k' m' :
  memory_ok k m root -> 0 <= a -> a + len bytes <= USER_LIMIT -> Forall byte_ok bytes -> (length bytes <= fuel)%nat ->
  write_user fuel cow k m root a bytes = (ok, k', m') ->
  memory_ok k' m' root /\ exists n, 0 <= n <= len bytes /\ written k k' root a bytes n /\ (ok = true -> n = len bytes /\ pages_mapped k' root a n).
Proof.
  unfold len. revert k m a bytes. induction fuel as [|fuel IH]; intros k m a bytes M Ha Hl Hb Hf; (destruct bytes as [|b bytes]; [intros [= <- <- <-]; split; [done|]; exists 0; split; [cbn; lia|]; split; [by apply written_none|]; split; [done|]; intros x Hx; lia|]).
  { cbn [length] in Hf. lia. }
  set (l := b :: bytes) in *. assert (Hl0 : (0 < length l)%nat) by (cbn; lia). change (write_user (S fuel) cow k m root a l) with
    (let '(physical, k, m) := writable_frame cow k m root a in if physical =? 0 then (false, k, m) else let amount := Z.to_nat (page_left a) in
       write_user fuel cow (po_write k physical (take amount l)) m root (u64 (a + Z.of_nat (length (take amount l)))) (drop amount l)).
  assert (Hu : user_address a) by (unfold user_address; lia). destruct (writable_frame cow k m root a) as [[ph k1] m1] eqn:Ew.
  destruct (writable_memory _ _ _ _ _ _ _ _ M Hu Ew) as (M1 & S1 & F1). destruct (ph =? 0) eqn:E0; zbool.
  { intros [= <- <- <-]. split; [done|]. exists 0. split; [lia|]. split; [by apply written_none|done]. }
  cbv zeta. pose proof (page_left_mod a) as Hpl. set (amount := Z.to_nat (page_left a)). set (l1 := take amount l). set (l2 := drop amount l).
  assert (El : l = l1 ++ l2) by (symmetry; apply take_drop). assert (Hll : length l = (length l1 + length l2)%nat) by (by rewrite El at 1; rewrite length_app). assert (Hl1 : length l1 = (amount `min` length l)%nat) by apply length_take.
  rewrite El in Hb. apply Forall_app in Hb as [Hb1 Hb2].
  destruct (write_chunk k1 m1 root a ph l1 M1 Hu F1 E0 Hb1 ltac:(unfold len; mlia)) as (M2 & W2 & X2). set (k2 := po_write k1 ph l1) in *. intros E.
  rewrite u64_small in E by (unfold USER_LIMIT in *; lia). destruct (IH k2 m1 (a + Z.of_nat (length l1)) l2 M2 ltac:(lia) ltac:(lia) Hb2 ltac:(mlia) E) as (M3 & n & Hn & W3 & Hok).
  split; [done|]. exists (Z.of_nat (length l1) + n). split; [lia|]. split.
  - rewrite El. apply (written_app k k2 k' root a l1 l2 n); [|done|done]. destruct W2 as [B2 Y2], S1 as [B1 Y1]. split; [|auto]. intros x. by rewrite B2, B1.
  - intros Ho. destruct (Hok Ho) as [-> Hp]. split; [lia|]. intros x Hx Hc. destruct (decide (x < a + Z.of_nat (length l1))) as [Hlt|Hge].
    + assert (x = a) as -> by mlia. by apply W3.
    + apply Hp; [lia|]. destruct Hc as [->|Hc]; [lia|by right].
Qed.

Lemma read_bytes_spec s a n : read_bytes s a n = map (fun i => rd8 s (a + Z.of_nat i)) (seq 0 n).
Proof.
  revert a; induction n as [|n IH]; intros a; [done|]. cbn [read_bytes seq map]. f_equal; [f_equal; lia|]. rewrite IH, <-seq_shift, map_map. apply map_ext. intros i. f_equal. lia.
Qed.

(** What the program has at [a]. *)
Definition user_bytes (k : kernel) (root a n : Z) : list Z := map (fun i => ubyte (tables k) root (a + Z.of_nat i)) (seq 0 (Z.to_nat n)).

Lemma user_bytes_app k root a n1 n2 : 0 <= n1 -> 0 <= n2 -> user_bytes k root a (n1 + n2) = user_bytes k root a n1 ++ user_bytes k root (a + n1) n2.
Proof.
  intros H1 H2. unfold user_bytes. rewrite Z2Nat.inj_add, seq_app, map_app by lia. f_equal. cbn [Nat.add].
  replace (Z.to_nat n1) with (Z.to_nat n1 + 0)%nat by lia. generalize 0%nat as j. generalize (Z.to_nat n2) as n. clear H2 n2.
  induction n as [|n IH]; intros j; [done|]. cbn [seq map]. f_equal; [f_equal; lia|]. by rewrite <-Nat.add_succ_r, IH.
Qed.

Lemma read_chunk k root a ph n : uspace (tables k) root -> user_address a -> frame_at k root a ph -> ph <> 0 -> 0 <= n <= page_left a -> a + n <= USER_LIMIT ->
  po_read k ph n = user_bytes k root a n.
Proof.
  intros U Ha Hf Hn Hl Hlim. destruct (Hf Hn) as (e & He & Hu & ->). rewrite page_left_mod in Hl. cbn [po_read copies_proc kernel_proc]. rewrite read_bytes_spec. unfold user_bytes. apply map_ext_in.
  intros i Hi%in_seq. unfold ubyte. unfold user_address in Ha. replace ((0 <=? a + Z.of_nat i) && (a + Z.of_nat i <? USER_LIMIT)) with true by lia.
  assert (Hs : same_page a (a + Z.of_nat i)) by (apply same_page_mod; [done|lia|mlia]). rewrite <-(pte_page _ root a _ Hs), He. f_equal. mlia.
Qed.

Lemma read_none k m root a : memory_ok k m root ->
  memory_ok k m root /\ same_memory k k root /\ (forall l, Some [] = Some l -> l = user_bytes k root a 0) /\ (pages_mapped k root a 0 -> Some (@nil Z) <> None).
Proof. intros M. split; [done|]. split; [done|]. split; [by intros l X; inv X|done]. Qed.

Lemma read_user_memory fuel k m root a n r k' m' :
  memory_ok k m root -> 0 <= a -> 0 <= n -> a + n <= USER_LIMIT -> (Z.to_nat n <= fuel)%nat -> read_user fuel k m root a n = (r, k', m') ->
  memory_ok k' m' root /\ same_memory k k' root /\ (forall l, r = Some l -> l = user_bytes k root a n) /\ (pages_mapped k root a n -> r <> None).
Proof.
  revert k m a n r k' m'. induction fuel as [|fuel IH]; intros k m a n r k' m' M Ha Hn Hl Hf.
  { assert (n = 0) as -> by lia. intros [= <- <- <-]. by apply read_none. }
  cbn [read_user]. destruct (n <=? 0) eqn:En. { assert (n = 0) as -> by lia. intros [= <- <- <-]. by apply read_none. }
  assert (Hu : user_address a) by (unfold user_address; lia). destruct (readable_frame k m root a) as [[ph k1] m1] eqn:Er.
  destruct (readable_memory _ _ _ _ _ _ _ M Hu Er) as (M1 & S1 & F1). destruct (ph =? 0) eqn:E0; zbool.
  { intros [= <- <- <-]. split; [done|]. split; [done|]. split; [done|]. intros Hp. exfalso. destruct (lookup_mapped (tables k) root a (Hp a ltac:(lia) (or_introl eq_refl)) Hu (proj1 (proj2 M))) as (e & _ & _ & Hnz).
    revert Er. unfold readable_frame. cbv zeta. change (vo_lookup_root k root a VM_USER) with (vmm_lookup_root (tables k) root a VM_USER). rewrite (proj2 (Z.eqb_neq _ _) Hnz). intros X. injection X as X _ _. congruence. }
  pose proof (page_left_mod a) as Hpl. set (amount := if n <? page_left a then n else page_left a). assert (Hamt : 0 < amount <= n /\ amount <= page_left a /\ (amount < n -> (a + amount) mod 4096 = 0)) by (unfold amount; destruct (n <? page_left a) eqn:?; mlia).
  rewrite (read_chunk k1 root a ph amount (proj1 M1) Hu F1 E0 ltac:(lia) ltac:(lia)). rewrite u64_small by (unfold USER_LIMIT in *; lia).
  destruct (read_user fuel k1 m1 root (a + amount) (n - amount)) as [[r2 k2] m2] eqn:E2. intros [= <- <- <-].
  destruct (IH k1 m1 (a + amount) (n - amount) r2 k2 m2 M1 ltac:(lia) ltac:(lia) ltac:(lia) ltac:(lia) E2) as (M2 & S2 & R2 & P2).
  assert (Hsame : forall x y, user_bytes k1 root x y = user_bytes k root x y) by (intros x y; apply map_ext; intros i; apply S1).
  split; [done|]. split; [by eapply same_memory_trans|]. split.
  - intros l. destruct r2 as [l2|]; [|done]. intros [= <-]. rewrite (R2 l2 eq_refl), !Hsame. replace n with (amount + (n - amount)) at 2 by lia. by rewrite user_bytes_app by lia.
  - intros Hp. assert (r2 <> None); [|by destruct r2]. apply P2. intros x Hx Hc. apply S1, Hp; [lia|]. destruct Hc as [->|Hc]; right; [apply Hamt; lia|done].
Qed.
End Copies.

(** ** The copies of a system call *)

Section Process.
Context (bootstrap : Z).
#[local] Instance process_ops : ProcOps kernel := kernel_proc bootstrap.
Implicit Type s : proc kernel.
Notation prc s i := ((p_processes s).[i]).

(** Process [p] is running and its address space is in order. *)
Definition running_ok s (p : Z) : Prop :=
  process_current s = Some p /\ root_of (prc s p) <> 0 /\ memory_ok (p_env s) (pr_mm (prc s p)) (root_of (prc s p)).

(** What the program has at [a]. *)
Definition seen s (p a n : Z) : list Z := user_bytes (p_env s) (root_of (prc s p)) a n.

Lemma running_root s p : running_ok s p -> copy_root s = root_of (prc s p).
Proof. intros (Hc & Hr & _). unfold copy_root. rewrite Hc. by rewrite (proj2 (Z.eqb_neq _ _) Hr). Qed.

Lemma bytes_len_nonneg (l : list Z) : 0 <= len l.
Proof. unfold len. lia. Qed.

Lemma nth_map_seq {A} (f : nat -> A) d n i : (i < n)%nat -> nth i (map f (seq 0 n)) d = f i.
Proof. intros Hi. rewrite (nth_indep _ d (f 0%nat)) by (rewrite length_map, length_seq; lia). by rewrite map_nth, seq_nth. Qed.

Lemma range_bound a n : 0 <= a -> 0 <= n -> vmm_is_user_range a n = true -> a + n <= USER_LIMIT.
Proof. intros Ha Hn. unfold vmm_is_user_range. destruct (n =? 0) eqn:E; lia. Qed.

(** A successful copy ends in user memory; a failed one stops after a prefix. *)
Lemma copyout_memory s p a bytes ok s' :
  running_ok s p -> 0 <= a -> Forall byte_ok bytes -> vmm_copyout s a bytes = (ok, s') ->
  running_ok s' p /\ root_of (prc s' p) = root_of (prc s p) /\ (ok = true -> vmm_is_user_range a (len bytes) = true) /\
  exists n, 0 <= n <= len bytes /\ written (p_env s) (p_env s') (root_of (prc s p)) a bytes n /\
    (ok = true -> n = len bytes /\ pages_mapped (p_env s') (root_of (prc s p)) a n).
Proof.
  intros R Ha Hb. unfold vmm_copyout. change (Z.of_nat (length bytes)) with (len bytes). destruct (vmm_is_user_range a (len bytes)) eqn:Er; cbn [negb].
  2: { intros [= <- <-]. split; [done|]. split; [done|]. split; [done|]. exists 0. split; [unfold len; lia|]. split; [by apply written_none|done]. }
  rewrite (running_root s p R). destruct R as (Hc & Hr & M). rewrite Hc. set (r := root_of (prc s p)) in *.
  destruct (write_user (length bytes) true (p_env s) (pr_mm (prc s p)) r a bytes) as [[o k] m] eqn:E. intros [= <- <-].
  destruct (write_user_memory bootstrap _ _ _ _ _ _ _ _ _ _ M Ha (range_bound a _ Ha (bytes_len_nonneg bytes) Er) Hb (le_n _) E) as (M' & n & Hn & W & Hok).
  pose proof M' as (_ & _ & Hm & _). assert (Hp : prc (set_process (set_kernel s k) p (prc s p <| pr_mm := m |>)) p = prc s p <| pr_mm := m |>) by (cbn; apply aget_aset_eq).
  unfold running_ok, root_of. rewrite Hp. rsimpl. split; [split; [exact Hc|]; rewrite Hm; done|]. split; [by rewrite Hm|]. split; [done|]. by exists n.
Qed.

Lemma copyin_memory s p a n r s' :
  running_ok s p -> 0 <= a -> 0 <= n -> vmm_copyin s a n = (r, s') ->
  running_ok s' p /\ root_of (prc s' p) = root_of (prc s p) /\ same_memory (p_env s) (p_env s') (root_of (prc s p)) /\ (forall l, r = Some l -> l = seen s p a n) /\
  (vmm_is_user_range a n = true -> pages_mapped (p_env s) (root_of (prc s p)) a n -> r <> None).
Proof.
  intros R Ha Hn. unfold vmm_copyin. destruct (vmm_is_user_range a n) eqn:Er; cbn [negb]; [|intros [= <- <-]; split; [done|]; done].
  rewrite (running_root s p R). destruct R as (Hc & Hr & M). rewrite Hc. set (rt := root_of (prc s p)) in *.
  destruct (read_user (Z.to_nat n) (p_env s) (pr_mm (prc s p)) rt a n) as [[o k] m] eqn:E. intros [= <- <-].
  destruct (read_user_memory bootstrap _ _ _ _ _ _ _ _ _ M Ha Hn (range_bound _ _ Ha Hn Er) (le_n _) E) as (M' & S' & L & P).
  pose proof M' as (_ & _ & Hm & _). assert (Hp : prc (set_process (set_kernel s k) p (prc s p <| pr_mm := m |>)) p = prc s p <| pr_mm := m |>) by (cbn; apply aget_aset_eq).
  unfold running_ok, root_of. rewrite Hp. rsimpl. split; [split; [exact Hc|]; rewrite Hm; done|]. split; [by rewrite Hm|]. split; [exact S'|]. split; [exact L|]. intros _. exact P.
Qed.



(** The initial stack of a program is built in the real memory. *)
#[export] Instance kernel_user_memory : UserMemory kernel.
Proof using.
  refine {| um_byte k root x := ubyte (tables k) root x; um_ok := memory_ok |}. intros k m root a bytes k' m' M Ha Hb. unfold user_stack_write.
  destruct (vmm_is_user_range a (len bytes)) eqn:Er; [|done]. cbn [negb]. intros E.
  destruct (write_user_memory bootstrap _ _ _ _ _ _ _ _ _ _ M Ha (range_bound a _ Ha (bytes_len_nonneg bytes) Er) Hb (le_n _) E) as (M' & n & Hn & [B _] & Hok). destruct (Hok eq_refl) as [-> _]. done.
Defined.
End Process.
