(* ===== verification/KernelRun.v ===== *)
(** * A running kernel

    A machine with 256 frames is booted, the first user process is created and
    launched, and the theorems about processes, signals, futexes and the
    scheduler are evaluated on it. *)

From Stdlib Require Import ZArith Lia Bool ZifyBool.
From stdpp Require Import base numbers list gmap strings.
From S2P Require Import Prelude Kstring Keyboard Gop Console Pmm Vmm Heap Kmem Vm Path Npkfs Procfs Vfs VfsRefs VfsRun Proc ProcMem Signal Futex ProcStep Sched ProcInv ProcRun ProcLife Elf Exec ExecStack ProcReach UserMem Kernel KernelExec KernelMem.

Open Scope Z_scope.
Open Scope npk_scope.

(** ** Boot *)

Definition boot_heap : kmem := kheap_init (machine 256).

Lemma boot_heap_wf : exists l, heap_inv boot_heap l.
Proof. eexists. apply kheap_init_spec. vm_compute. reflexivity. Qed.

Definition platform0 : platform := Platform (KHeap boot_heap boot_heap_wf) 0 100 keyboard0 example_tty zero_context None.
Definition kernel0 : kernel := Vfs (afill zero_desc) [] machine_example ∅ ∅ ∅ ∅ platform0.
#[local] Instance kernel0_proc : ProcOps kernel := kernel_proc 0xffffffff80001000.

Notation thr s i := ((p_threads s).[i]).
Notation prc s i := ((p_processes s).[i]).

Definition booted : proc kernel := default (boot_state kernel0) (process_init kernel0 0xffffffff80002000).

(** An empty address space for the first process. *)
Definition space : Z * kernel := in_platform (on_vmm vmm_create_address_space) (p_env booted).

Definition first_ops : list (@proc_op kernel) := [OpKernel space.2; OpCreateUser space.1 0x400000 NPK_USER_STACK_TOP; OpLaunch 1].

(** ** Runs *)

(** The condition of [proc_allowed], evaluated. *)
Definition runner_live (s : proc kernel) : bool := match p_current s with Some t => live (thr s t) | None => true end.
Definition runner_user (s : proc kernel) : bool := match p_current s with Some t => t_privilege_ring (thr s t) =? 3 | None => true end.

Definition proc_allowedb (s : proc kernel) (o : @proc_op kernel) : bool :=
  match o with
  | OpYield => true
  | OpThreadEnd => match p_current s with Some t => negb (t =? 0) && bool_decide (t_owner (thr s t) = Some 0) | None => true end
  | OpLaunch p => (1 <=? p) && (p <? NPK_MAX_PROCESSES) && bool_decide (p_current s = Some 0)
  | OpCreateUser _ _ _ | OpExecImage _ _ _ | OpFork _ => runner_live s && (p_next_pid s <? UINT64_MAX)
  | OpExit _ | OpExitThread _ | OpTerminate _ => runner_live s && runner_user s
  | OpExec _ _ _ _ => runner_live s && bool_decide (default None ((fun p => pr_main_thread (prc s p)) <$> process_current s) = p_current s)
  | OpMemory _ _ _ => false
  | _ => runner_live s
  end.

Lemma runner_live_spec s : runner_live s = true -> running_live s.
Proof. intros Hr t Ht. unfold runner_live in Hr. by rewrite Ht in Hr. Qed.

Lemma runner_user_spec s : runner_user s = true -> user_mode s.
Proof. intros Hr t Ht. unfold runner_user in Hr. rewrite Ht in Hr. lia. Qed.

Lemma proc_allowedb_spec s o : proc_allowedb s o = true -> proc_allowed s o.
Proof.
  destruct o; cbn [proc_allowedb proc_allowed]; try by apply runner_live_spec.
  - intros [Hl Hn]%andb_prop. split; [by apply runner_live_spec|lia].
  - intros Hb t Ht. rewrite Ht in Hb. apply andb_prop in Hb as [H0 Ho]. split; [lia|by apply bool_decide_eq_true in Ho].
  - intros [Hp Hc]%andb_prop. apply bool_decide_eq_true in Hc. split; [unfold user_slot; lia|done].
  - intros [Hl Hn]%andb_prop. split; [by apply runner_live_spec|lia].
  - intros [Hl Hm]%andb_prop. split; [by apply runner_live_spec|]. intros p Hp. rewrite Hp in Hm. by apply bool_decide_eq_true in Hm.
  - intros [Hl Hn]%andb_prop. split; [by apply runner_live_spec|lia].
  - intros [Hl Hu]%andb_prop. split; [by apply runner_live_spec|by apply runner_user_spec].
  - intros [Hl Hu]%andb_prop. split; [by apply runner_live_spec|by apply runner_user_spec].
  - intros _. exact I.
  - intros [Hl Hu]%andb_prop. split; [by apply runner_live_spec|by apply runner_user_spec].
  - done.
Qed.

(** The states of a run; none when a call is not allowed. *)
Fixpoint proc_run (s : proc kernel) (ops : list (@proc_op kernel)) : option (proc kernel) :=
  match ops with
  | [] => Some s
  | o :: ops' => if proc_allowedb s o then proc_run (proc_do s o) ops' else None
  end.

Lemma proc_run_reachable s ops s' : proc_reachable s -> proc_run s ops = Some s' -> proc_reachable s'.
Proof.
  revert s; induction ops as [|o ops IH]; intros s Hr Hrun; cbn [proc_run] in Hrun; [by injection Hrun as <-|].
  destruct (proc_allowedb s o) eqn:E; [|done]. eapply IH; [|exact Hrun]. apply proc_reach_step; [done|by apply proc_allowedb_spec].
Qed.

(** The first process runs. *)
Definition started : proc kernel := default booted (proc_run booted first_ops).

(** It touches its stack and forks; the timer gives the processor to the child, which exits with
    status 7; the parent runs again and waits for it. *)
Definition at_call : syscall_frame :=
  SysFrame 57 0 0 0 0 0 0 0 0 0 0 0 0 0 0 0x400010 USER_CS 0x202 (NPK_USER_STACK_TOP - 64) USER_SS.
Definition at_timer : frame := zero_frame.[14 <- 42].[15 <- 0x400100].[16 <- USER_CS].[17 <- 0x202].[18 <- NPK_USER_STACK_TOP - 256].[19 <- USER_SS].
Definition family_ops : list (@proc_op kernel) := [OpCopyout (NPK_USER_STACK_TOP - 128) [1; 2; 3; 4]; OpFork at_call; OpPreempt at_timer; OpExit 7; OpYield].

Definition parent_again : proc kernel := default started (proc_run started family_ops).

Definition returned {A B C} (r : (A + B) * C) : option A := match r.1 with inl a => Some a | inr _ => None end.

(** The child is reaped, its number returned and its status stored. *)
Lemma family_run :
  let r := process_wait4 parent_again 3 (NPK_USER_STACK_TOP - 128) 0 in
  returned r = Some 3 /\ (vmm_copyin r.2 (NPK_USER_STACK_TOP - 128) 4).1 = Some [0; 7; 0; 0] /\ pr_pid (prc r.2 2) = 0 /\
  returned (process_wait4 r.2 3 0 0) = Some (- PROCESS_ECHILD).
Proof. vm_compute. repeat split. Qed.

Definition starts (k : kernel) (entry : Z) : bool := match process_init k entry with Some _ => true | None => false end.

Lemma init_reachable k entry d : starts k entry = true -> proc_reachable (default d (process_init k entry)).
Proof. intros E. unfold starts in E. destruct (process_init k entry) eqn:Ei; [|done]. by eapply proc_reach_init. Qed.

Lemma booted_reachable : proc_reachable booted.
Proof. apply init_reachable. vm_compute. reflexivity. Qed.

(** ** Witnesses *)

Definition runs_ops (s : proc kernel) (ops : list (@proc_op kernel)) : bool := match proc_run s ops with Some _ => true | None => false end.

Lemma run_reachable s ops d : proc_reachable s -> runs_ops s ops = true -> proc_reachable (default d (proc_run s ops)).
Proof. intros Hr Hrun. unfold runs_ops in Hrun. destruct (proc_run s ops) eqn:E; [|done]. by eapply proc_run_reachable. Qed.

(** Every state of a run is in order. *)
Lemma proc_run_inv s ops s' : proc_inv s -> proc_run s ops = Some s' -> proc_inv s'.
Proof.
  revert s; induction ops as [|o ops IH]; intros s Hi Hrun; cbn [proc_run] in Hrun; [by injection Hrun as <-|].
  destruct (proc_allowedb s o) eqn:E; [|done]. eapply IH; [|exact Hrun]. apply proc_do_inv; [done|by apply proc_allowedb_spec].
Qed.

Lemma run_inv s ops d : proc_inv s -> runs_ops s ops = true -> proc_inv (default d (proc_run s ops)).
Proof. intros Hi Hrun. unfold runs_ops in Hrun. destruct (proc_run s ops) eqn:E; [|done]. by eapply proc_run_inv. Qed.

Lemma booted_inv k entry d : starts k entry = true -> proc_inv (default d (process_init k entry)).
Proof. intros E. unfold starts in E. destruct (process_init k entry) eqn:Ei; [|done]. by eapply process_init_inv. Qed.

Lemma parent_again_inv : proc_inv parent_again.
Proof.
  unfold parent_again. apply run_inv; [|vm_compute; reflexivity]. unfold started. apply run_inv; [|vm_compute; reflexivity]. apply booted_inv. vm_compute. reflexivity.
Qed.


(** Two threads: the idle thread and the user thread, always ready. *)
Definition ready_state : proc kernel := set_thread started 2 (thr started 2 <| t_state := THREAD_READY |>).
Definition alternate (i : nat) : Z := match i with O => 1 | S _ => 2 end.

Lemma scheduler_bounded_waiting_witness : exists i, (i < 256)%nat /\ alternate (S i) = 2.
Proof.
  apply (scheduler_bounded_waiting (fun _ => ready_state) alternate 2).
  - intros [|i]; vm_compute; reflexivity.
  - intros i _. vm_compute. repeat split; discriminate.
Defined.

Lemma scheduler_yield_total_witness : owners_ok parent_again /\ yield_within (pair Returns) 200 parent_again = scheduler_yield parent_again.
Proof.
  assert (Ho : owners_ok parent_again) by apply parent_again_inv. split; [exact Ho|].
  apply scheduler_yield_total; [exact Ho|]. apply Nat.leb_le. vm_compute. reflexivity.
Defined.

(** A handler for signal 10. *)
Definition handling : proc kernel := set_process started 1 (prc started 1 <| pr_signal_actions := (afill zero_action).[10 <- SigAction 0x401000 0 0x402000 [0]] |>).
Notation delivered := (process_deliver_signal_with_info handling at_timer 10 None).
Definition in_handler : frame := delivered.1.2.
Definition handled : proc kernel := delivered.2.
(** The handler has returned to the restorer, which makes the system call. *)
Definition at_restorer : syscall_frame := SysFrame 15 0 0 0 0 0 0 0 0 0 0 0 0 0 0 0x402009 USER_CS 0x202 (in_handler.[18] + 8) USER_SS.

Definition header : list Z := Eval vm_compute in default [] (vmm_copyin handled (in_handler.[18] + 8) 32).1.

Lemma split_first {A B C} (r : A * B * C) a : r.1.1 = a -> r = (a, r.1.2, r.2).
Proof. by destruct r as [[? ?] ?]; cbn; intros ->. Qed.


(** Signal 10 is pending. *)
Definition pending : proc kernel := set_thread handling 2 (thr handling 2 <| t_signal_pending := 512 |>).

Definition no_signal (d : delivery) : bool := match d with NoSignal => true | _ => false end.


Definition two_queued : thread :=
  let push t n := default t (signal_queue_push t (SigInfo n 0 2 0 7)) in push (push (push zero_thread 10) 12) 10.

Lemma signal_queue_refines_witness :
  queue_wf two_queued /\ length (queued two_queued) = 3%nat /\
  match signal_queue_pop two_queued 12 with Some (i, t') => queue_wf t' /\ take_signal 12 (queued two_queued) = Some (i, queued t') | None => False end.
Proof.
  assert (Hw : queue_wf two_queued) by (constructor; [vm_compute; split; congruence|vm_compute; split; congruence|vm_compute; reflexivity]).
  split; [exact Hw|]. split; [vm_compute; reflexivity|]. destruct (signal_queue_refines two_queued zero_info 12 Hw) as (_ & L & _). exact L.
Defined.

(** A second thread is cloned; the first one waits on a futex for at most one
    second, so the second one runs. *)
Definition word : Z := NPK_USER_STACK_TOP - 128.
Definition futex_ops : list (@proc_op kernel) :=
  [OpCopyout word [5; 0; 0; 0; 0; 0; 0; 0; 1; 0; 0; 0; 0; 0; 0; 0; 0; 0; 0; 0; 0; 0; 0; 0]; OpClone NPK_CLONE_THREAD_FLAGS (NPK_USER_STACK_TOP - 4096) 0 0 0 at_call;
   OpFutexWait word 5 (word + 8)].
Definition waiting : proc kernel := default started (proc_run started futex_ops).

Definition lone_waiter (s : proc kernel) : bool := forallb (fun i => negb (fw_active (p_waiters s).[i])) (seqZ 1 255).

Lemma lone_one_slot s : lone_waiter s = true -> one_slot s.
Proof.
  intros Hl i j Hi Hj Hai Haj _. unfold lone_waiter in Hl. rewrite forallb_forall in Hl.
  assert (Hz : forall n, 0 <= n < NPK_FUTEX_MAX_WAITERS -> fw_active (p_waiters s).[n] = true -> n = 0).
  { intros n Hn Ha. destruct (decide (n = 0)) as [|Hne]; [done|]. exfalso. unfold NPK_FUTEX_MAX_WAITERS, NPK_MAX_THREADS in Hn.
    specialize (Hl n ltac:(apply list_elem_of_In, elem_of_seqZ; lia)). cbn beta in Hl. by rewrite Ha in Hl. }
  rewrite (Hz i Hi Hai), (Hz j Hj Haj). reflexivity.
Qed.


(** A second later the timer does. *)
Definition late : proc kernel := set_kernel waiting (in_platform_ (fun m => m <| mc_ticks := 100 |>) (p_env waiting)).

Lemma futex_expire_waiters_spec_witness : woken late [0] (- PROCESS_ETIMEDOUT) (futex_expire_waiters late).
Proof.
  assert (Hone : one_slot late) by (apply lone_one_slot; vm_compute; reflexivity). destruct (futex_expire_waiters_spec late Hone) as [L _].
  assert (Hm : expired_below late NPK_FUTEX_MAX_WAITERS = [0]) by (vm_compute; reflexivity). rewrite Hm in L. exact L.
Defined.

(** ** User memory *)

Lemma machine_uspace n : page_is_free (pm (machine n)) 4096 = false -> uspace (machine n) 16777216.
Proof.
  intros Hn. assert (N : forall va, pte (machine n) 16777216 va = None).
  { assert (R : forall a, rd (machine n) a = 0) by (intros a; apply aget_afill). intros va. unfold pte. cbn [tbl]. rewrite R. done. }
  constructor; [by apply machine_wf|intros va e _ He; by rewrite N in He|intros va vb e e' _ _ He; by rewrite N in He].
Qed.

(** The first process, in the empty address space of the machine. *)
Definition in_user : proc kernel :=
  set_process (set_kernel started (in_platform_ (on_vmm_ (fun _ => machine 256)) (p_env started))) 1
    (prc started 1 <| pr_mm := pr_mm (prc started 1) <| m_root := 16777216 |> |>).
Definition message : list Z := [78; 80; 75; 0].
Definition edge : Z := NPK_USER_STACK_TOP - 4098.

Lemma in_user_ok : running_ok in_user 1.
Proof.
  split; [vm_compute; reflexivity|]. split; [vm_compute; discriminate|]. split; [|split; [vm_compute; reflexivity|split; [reflexivity|]]].
  - change (uspace (machine 256) 16777216). apply machine_uspace. vm_compute. reflexivity.
  - assert (E : m_vmas (pr_mm (prc in_user 1)) = []) by (vm_compute; reflexivity). unfold plain. rewrite E. constructor.
Qed.

Lemma message_ok : Forall byte_ok message.
Proof. repeat constructor; discriminate. Qed.

Lemma first_is {A B} (r : A * B) a : r.1 = a -> r = (a, r.2).
Proof. by destruct r; cbn; intros ->. Qed.



Lemma vmm_create_address_space_spec_witness :
  let r := vmm_create_address_space (machine 256) in r.1 = 16781312 /\ ubyte r.2 r.1 0x400000 = 0 /\ uspace r.2 r.1.
Proof.
  cbv zeta. assert (E : (vmm_create_address_space (machine 256)).1 = 16781312) by (vm_compute; reflexivity). split; [exact E|].
  pose proof (vmm_create_address_space_spec (machine 256) (vmm_create_address_space (machine 256)).1 (vmm_create_address_space (machine 256)).2) as L.
  destruct L as (U & _ & B & _); [apply (machine_wf 256); vm_compute; reflexivity|apply surjective_pairing|rewrite E; discriminate|].
  split; [|exact U]. apply B. split; [lia|reflexivity].
Defined.

(** The stack of [sh -c] with one environment string. *)
Definition shell_args : list (option cstr) := [Some (str "sh"%string); Some (str "-c"%string)].
Definition shell_env : list (option cstr) := [Some (str "A=1"%string)].
Definition shell_image : elf_load_result := LoadResult 0x400000 0x400000 0x401000 0 0 16777216 1 0x400040 2 56 false [0].
#[local] Instance kernel0_memory : UserMemory kernel := kernel_user_memory 0xffffffff80001000.
Notation shell_stack := (build_initial_user_stack (p_env in_user) (pr_mm (prc in_user 1)) 16777216 NPK_USER_STACK_TOP shell_args shell_env shell_image None).
Definition shell_sp : Z := Eval vm_compute in default 0 shell_stack.1.1.

Lemma strings_ok (l : list (option cstr)) : forallb (fun o => match o with Some s => forallb (fun b => (0 <=? b) && (b <? 256)) s | None => true end) l = true -> Forall string_ok l.
Proof.
  intros Hl. rewrite forallb_forall in Hl. apply List.Forall_forall. intros o Ho s ->. specialize (Hl _ Ho). cbn in Hl. rewrite forallb_forall in Hl. apply List.Forall_forall. intros b Hb. specialize (Hl b Hb).
  unfold byte_ok. lia.
Qed.

Lemma build_initial_user_stack_spec_witness :
  exists av ev, holds_bytes shell_stack.1.2 16777216 shell_sp (word_bytes (stack_words av ev (auxiliary shell_image None))) /\
    Forall2 (points_to shell_stack.1.2 16777216 (shell_sp + 8 * Z.of_nat (length (stack_words av ev (auxiliary shell_image None)))) NPK_USER_STACK_TOP) av shell_args /\ shell_sp mod 16 = 0.
Proof.
  assert (E : shell_stack.1.1 = Some shell_sp) by (vm_compute; reflexivity). pose proof in_user_ok as (_ & _ & M). assert (Er : root_of (prc in_user 1) = 16777216) by (vm_compute; reflexivity). rewrite Er in M.
  assert (M' : um_ok (UserMemory := kernel0_memory) (p_env in_user) (pr_mm (prc in_user 1)) 16777216) by exact M.
  assert (Ha : Forall string_ok shell_args) by (apply strings_ok; reflexivity). assert (He : Forall string_ok shell_env) by (apply strings_ok; reflexivity).
  destruct (build_initial_user_stack_spec (p_env in_user) (pr_mm (prc in_user 1)) 16777216 NPK_USER_STACK_TOP shell_args shell_env shell_image None shell_sp shell_stack.1.2 shell_stack.2
    M' ltac:(vm_compute; split; discriminate) Ha He (split_first shell_stack _ E)) as (av & ev & L1 & L2 & _ & _ & L3 & _).
  exists av, ev. split; [exact L1|]. split; [exact L2|]. exact L3.
Defined.
