(* ===== verification/Syscall.v ===== *)
(** * System calls (src/src/syscall/syscall.c)

    The handlers as computations on the whole kernel: the process tables over
    the file system, the areas, the page tables, the keyboard and the console,
    with the state of the terminal that syscall.c keeps.  A handler returns its
    result or leaves: an early return, a switch to another thread, or a wait
    that outlasts the fuel. *)

From Stdlib Require Import ZArith Lia Bool ZifyBool.
From stdpp Require Import base numbers list gmap strings.
From S2P Require Import Prelude Kstring Keyboard Gop Console Pmm Vmm Heap Kmem Vm Path Npkfs Procfs Vfs Proc Elf Exec Kernel KernelExec.

Open Scope Z_scope.
Open Scope npk_scope.

Definition EFAULT := 14.
Definition EBADF := 9.
Definition EINVAL := 22.
Definition ENOMEM := 12.
Definition ENODEV := 19.
Definition ENOSYS := 38.
Definition ENAMETOOLONG := 36.
Definition ENOENT := 2.
Definition ESRCH := 3.
Definition EMFILE := 24.
Definition EINTR := 4.
Definition EPERM := 1.
Definition ENOTTY := 25.
Definition EOVERFLOW := 75.
Definition ERANGE := 34.
Definition ENOTDIR := 20.
Definition IOV_MAX_NPK := 1024.
Definition PATH_MAX_NPK := 256.
Definition IO_CHUNK := 4096.
Definition EXEC_MAX_IMAGE := 16777216.
Definition EXEC_MAX_VECTOR := 32.
Definition EXEC_STRING_STORAGE := 4096.
Definition TTY_INPUT_LINE_MAX := 512.
Definition TTY_ICANON := 2.
Definition TTY_ECHO := 8.
Definition NPK_POLLNVAL := 32.
Definition FD_CLOEXEC := 1.
Definition O_CLOEXEC := 0x80000.
Definition O_NONBLOCK := 0x800.

(** The numbers of src/include/npk/syscall.h *)
Definition NPK_SYS_READ := 0.
Definition NPK_SYS_WRITE := 1.
Definition NPK_SYS_OPEN := 2.
Definition NPK_SYS_CLOSE := 3.
Definition NPK_SYS_FSYNC := 74.
Definition NPK_SYS_FDATASYNC := 75.
Definition NPK_SYS_STAT := 4.
Definition NPK_SYS_FSTAT := 5.
Definition NPK_SYS_LSEEK := 8.
Definition NPK_SYS_RT_SIGQUEUEINFO := 129.
Definition NPK_SYS_POLL := 7.
Definition NPK_SYS_MMAP := 9.
Definition NPK_SYS_MPROTECT := 10.
Definition NPK_SYS_MUNMAP := 11.
Definition NPK_SYS_READV := 19.
Definition NPK_SYS_WRITEV := 20.
Definition NPK_SYS_PIPE := 22.
Definition NPK_SYS_DUP := 32.
Definition NPK_SYS_DUP2 := 33.
Definition NPK_SYS_SCHED_YIELD := 24.
Definition NPK_SYS_BRK := 12.
Definition NPK_SYS_RT_SIGACTION := 13.
Definition NPK_SYS_RT_SIGPROCMASK := 14.
Definition NPK_SYS_RT_SIGRETURN := 15.
Definition NPK_SYS_IOCTL := 16.
Definition NPK_SYS_NANOSLEEP := 35.
Definition NPK_SYS_GETPID := 39.
Definition NPK_SYS_GETCWD := 79.
Definition NPK_SYS_CHDIR := 80.
Definition NPK_SYS_READLINK := 89.
Definition NPK_SYS_FORK := 57.
Definition NPK_SYS_CLONE := 56.
Definition NPK_SYS_EXECVE := 59.
Definition NPK_SYS_EXIT := 60.
Definition NPK_SYS_WAIT4 := 61.
Definition NPK_SYS_WAITPID := 114.
Definition NPK_SYS_KILL := 62.
Definition NPK_SYS_TGKILL := 234.
Definition NPK_SYS_UNAME := 63.
Definition NPK_SYS_ARCH_PRCTL := 158.
Definition NPK_SYS_GETTID := 186.
Definition NPK_SYS_CLOCK_GETTIME := 228.
Definition NPK_SYS_EXIT_GROUP := 231.
Definition NPK_SYS_GETDENTS64 := 217.
Definition NPK_SYS_FCNTL := 72.
Definition NPK_SYS_FUTEX := 202.
Definition NPK_SYS_EPOLL_WAIT := 232.
Definition NPK_SYS_EPOLL_CTL := 233.
Definition NPK_SYS_PPOLL := 271.
Definition NPK_SYS_EPOLL_CREATE1 := 291.
Definition NPK_SYS_RT_TGSIGQUEUEINFO := 297.
Definition NPK_SYS_SET_TID_ADDRESS := 218.
Definition NPK_SYS_SYNC := 162.
Definition NPK_SYS_OPENAT := 257.
Definition NPK_SYS_NPK_SHM_CREATE := 0x400.
Definition NPK_SYS_NPK_DISPLAY_INFO := 0x403.
Definition NPK_SYS_NPK_DISPLAY_CLAIM := 0x404.
Definition NPK_SYS_NPK_DISPLAY_MAP := 0x405.
Definition NPK_SYS_NPK_DISPLAY_RELEASE := 0x406.
Definition NPK_SYS_NPK_INPUT_READ := 0x407.
Definition NPK_SYS_NPK_FD_SEND := 0x401.
Definition NPK_SYS_NPK_FD_RECV := 0x402.

(** ** The state *)

(** The statics of syscall.c: the terminal settings and the window size as the
    bytes of their structures, the line that is being read, the character that
    is being echoed; [y_frame] is the frame of the call in progress. *)
Record sys := Sys {
  y_proc : proc kernel; y_frame : syscall_frame;
  y_terminal_settings : list Z; y_terminal_winsize : list Z;
  y_line : arr Z; y_length : Z; y_offset : Z; y_echo_sequence : list Z; y_echo_expected : Z }.
#[export] Instance eta_sys : Eta sys := fun x =>
  Sys (y_proc x) (y_frame x) (y_terminal_settings x) (y_terminal_winsize x) (y_line x) (y_length x) (y_offset x) (y_echo_sequence x) (y_echo_expected x).

(** 60 bytes: four flag words, the line discipline, 32 control characters, two speeds. *)
Definition initial_settings : list Z :=
  le_bytes 4 0x100 ++ le_bytes 4 1 ++ le_bytes 4 0xbf ++ le_bytes 4 0xa ++ [0] ++ <[6%nat := 1]> (replicate 32 0) ++ [0; 0; 0] ++ le_bytes 4 15 ++ le_bytes 4 15.
Definition winsize (rows columns x_pixels y_pixels : Z) : list Z := le_bytes 2 rows ++ le_bytes 2 columns ++ le_bytes 2 x_pixels ++ le_bytes 2 y_pixels.
Definition c_lflag (settings : list Z) : Z := le_val (take 4 (drop 12 settings)).

Definition zero_syscall : syscall_frame := SysFrame 0 0 0 0 0 0 0 0 0 0 0 0 0 0 0 0 0 0 0 0.
Definition sys_over (s : proc kernel) : sys := Sys s zero_syscall initial_settings (winsize 25 80 0 0) (afill 0) 0 0 [] 0.

(** How a call ends: with a result in rax, with the processor given away, or
    not within the fuel; [Stuck] when the code runs into what the model leaves
    undefined. *)
Inductive outcome := Answer (result : Z) | Leaves (how : transfer) | Waiting | Stuck.

(** ** Computations *)

Definition M (A : Type) : Type := sys -> (A + outcome) * sys.
#[export] Instance sys_ret : MRet M := fun A x y => (inl x, y).
#[export] Instance sys_bind : MBind M := fun A B k m y =>
  match m y with
  | (inl x, y) => k x y
  | (inr o, y) => (inr o, y)
  end.

Definition stop {A} (o : outcome) : M A := fun y => (inr o, y).
Definition answer {A} (result : Z) : M A := stop (Answer result).
Definition neg_errno (error : Z) : Z := u64 (- error).
Definition fail {A} (error : Z) : M A := answer (neg_errno error).
Definition guard (b : bool) (error : Z) : M unit := if b then mret tt else fail error.
Definition get {A} (f : sys -> A) : M A := fun y => (inl (f y), y).
Definition put (f : sys -> sys) : M unit := fun y => (inl tt, f y).
(** A handler called by another one. *)
Definition call (m : M Z) : M Z := fun y =>
  match m y with
  | (inr (Answer r), y) => (inl r, y)
  | x => x
  end.
Definition run (m : M Z) (y : sys) : outcome * sys :=
  match m y with
  | (inl r, y) => (Answer r, y)
  | (inr o, y) => (o, y)
  end.

Definition lift {A} (f : proc kernel -> A * proc kernel) : M A := fun y => let '(a, s) := f (y_proc y) in (inl a, y <| y_proc := s |>).
Definition lift_ (f : proc kernel -> proc kernel) : M unit := put (fun y => y <| y_proc := f (y_proc y) |>).
Definition in_kernel {A} (f : kernel -> A * kernel) : M A := lift (fun s => let '(a, k) := f (p_env s) in (a, set_kernel s k)).
Definition in_kernel_ (f : kernel -> kernel) : M unit := lift_ (fun s => set_kernel s (f (p_env s))).
Definition of_kernel {A} (f : kernel -> A) : M A := get (fun y => f (p_env (y_proc y))).
Definition of_machine {A} (f : platform -> A) : M A := of_kernel (fun k => f (v_env k)).
Definition in_machine {A} (f : platform -> A * platform) : M A := in_kernel (in_platform f).
Definition in_machine_ (f : platform -> platform) : M unit := in_kernel_ (in_platform_ f).

(** A local buffer: an address that is not NULL. *)
Definition LOCAL := 1.

Section Model.
Context (bootstrap : Z).
#[local] Instance sys_ops : ProcOps kernel := kernel_proc bootstrap.
Notation thr s i := ((p_threads s).[i]).
Notation prc s i := ((p_processes s).[i]).
Implicit Type s : proc kernel.

Definition current : M (option Z) := get (fun y => process_current (y_proc y)).
Definition the_process (error : Z) : M Z := p ← current; match p with Some p => mret p | None => fail error end.
Definition living (error : Z) : M Z :=
  p ← the_process error; a ← get (fun y => alive (prc (y_proc y) p)); guard a error;; mret p.

Definition copyin_opt (source length : Z) : M (option (list Z)) := lift (fun s => vmm_copyin s source length).
Definition copyin (source length : Z) : M (list Z) := b ← copyin_opt source length; match b with Some b => mret b | None => fail EFAULT end.
Definition copyout_ok (destination : Z) (bytes : list Z) : M bool := lift (fun s => vmm_copyout s destination bytes).
Definition copyout (destination : Z) (bytes : list Z) : M unit := ok ← copyout_ok destination bytes; guard ok EFAULT.
(** [return vmm_copyout(...) ? 0 : neg_errno(EFAULT)] *)
Definition give (destination : Z) (bytes : list Z) : M Z := copyout destination bytes;; mret 0.

(** ** Console output *)

Definition console_out (f : tty -> tty) : M unit := in_machine_ (fun m => m <| mc_tty := f (mc_tty m) |>).
Definition console_n (bytes : list Z) : M unit := console_out (fun t => console_write_n t bytes).

(** ** Paths *)

(** The string without its NUL; the loop of [copy_user_string] from index [i]
    with [room] bytes of the buffer left before the terminator. *)
Fixpoint user_string (room : nat) (user : Z) (i : Z) (text : list Z) : M (option cstr) :=
  match room with
  | O => mret None
  | S room' =>
      b ← copyin_opt (u64 (user + i)) 1;
      match b with
      | Some [c] => if c =? 0 then mret (Some (rev text)) else user_string room' user (i + 1) (c :: text)
      | _ => mret None
      end
  end.

Definition copy_user_string (user capacity : Z) : M (option cstr) :=
  if (capacity =? 0) || negb (vmm_is_user_range user 1) then mret None else user_string (Z.to_nat (capacity - 1)) user 0 [].

Definition resolve_process_path (p : option Z) (path : cstr) : M (option cstr) :=
  get (fun y => match p with Some p => vfs_resolve_path (pr_cwd (prc (y_proc y) p)) path PATH_MAX_NPK | None => None end).

(** The two steps most handlers of paths start with. *)
Definition user_path (p : option Z) (user : Z) : M cstr :=
  path ← copy_user_string user PATH_MAX_NPK;
  match path with
  | None => fail EFAULT
  | Some path =>
      resolved ← resolve_process_path p path;
      match resolved with Some r => mret r | None => fail ENAMETOOLONG end
  end.

(** ** Descriptors of the process *)

Definition process_handle_for_fd s (p fd : Z) : Z := if (fd <? 0) || (fd >=? NPK_MAX_FDS) then -1 else (pr_fds (prc s p)).[fd].

(** [process && fd < NPK_MAX_FDS ? process_handle_for_fd(process, (int)fd) : -1] *)
Definition fd_handle (fd : Z) : M Z :=
  get (fun y => match process_current (y_proc y) with Some p => if fd <? NPK_MAX_FDS then process_handle_for_fd (y_proc y) p fd else -1 | None => -1 end).
Definition handle_of (fd : Z) : M Z := h ← fd_handle fd; guard (0 <=? h) EBADF;; mret h.

Definition process_install_fd s (p handle minimum flags : Z) : Z * proc kernel :=
  if (handle <? 0) || (minimum <? 0) || (minimum >=? NPK_MAX_FDS) then (-1, s)
  else
    match find_index (fun i => (pr_fds (prc s p)).[i] =? -1) minimum (Z.to_nat (NPK_MAX_FDS - minimum)) with
    | None => (-1, s)
    | Some i => (i, set_process s p (prc s p <| pr_fds := (pr_fds (prc s p)).[i <- handle] |> <| pr_fd_flags := (pr_fd_flags (prc s p)).[i <- flags] |>))
    end.

Definition process_forget_fd s (p fd : Z) : proc kernel :=
  if (fd <? 0) || (fd >=? NPK_MAX_FDS) || ((pr_fds (prc s p)).[fd] <? 0) then s
  else
    let s := set_kernel s (vfs_close (p_env s) (pr_fds (prc s p)).[fd]).2 in
    set_process s p (prc s p <| pr_fds := (pr_fds (prc s p)).[fd <- -1] |> <| pr_fd_flags := (pr_fd_flags (prc s p)).[fd <- 0] |>).

Definition install_fd (p handle minimum flags : Z) : M Z := lift (fun s => process_install_fd s p handle minimum flags).
Definition forget_fd (p fd : Z) : M unit := lift_ (fun s => process_forget_fd s p fd).
Definition close_handle (handle : Z) : M unit := in_kernel_ (fun k => (vfs_close k handle).2).

(** A new handle goes to the lowest free descriptor from 3 on, or back. *)
Definition install_or_close (p handle minimum flags : Z) : M Z :=
  fd ← install_fd p handle minimum flags;
  if fd <? 0 then close_handle handle;; fail EMFILE else mret (u64 fd).

(** ** Reading and writing *)

Fixpoint write_chunks (rounds : nat) (handle user count written : Z) : M Z :=
  if negb (written <? count) then mret written
  else
    match rounds with
    | O => stop Waiting
    | S rounds' =>
        let amount := if count - written <? IO_CHUNK then count - written else IO_CHUNK in
        chunk ← copyin (u64 (user + written)) amount;
        if (handle =? 1) || (handle =? 2) then console_n chunk;; write_chunks rounds' handle user count (written + amount)
        else
          result ← in_kernel (fun k => vfs_write k handle LOCAL chunk);
          if result <? 0 then mret (if negb (written =? 0) then written else u64 result)
          else if result <? amount then mret (written + result)
          else write_chunks rounds' handle user count (written + result)
    end.

(** Every round but the last moves [IO_CHUNK] bytes. *)
Definition rounds (count : Z) : nat := Z.to_nat (count / IO_CHUNK + 1).

Definition sys_write (fd user_buffer count : Z) : M Z :=
  handle ← handle_of fd;
  guard (vmm_is_user_range user_buffer count) EFAULT;;
  write_chunks (rounds count) handle user_buffer count 0.

(** [npk_linux_stat_t] *)
Definition linux_stat (st : vfs_stat) : list Z :=
  le_bytes 8 1 ++ le_bytes 8 (st_inode st) ++ le_bytes 8 1 ++ le_bytes 4 (st_mode st) ++ le_bytes 4 (st_uid st) ++ le_bytes 4 (st_gid st) ++ le_bytes 4 0 ++
  le_bytes 8 0 ++ le_bytes 8 (st_size st) ++ le_bytes 8 512 ++ le_bytes 8 (st_blocks st) ++ replicate 72 0.

Definition stat_of (handle : Z) : M (Z * option vfs_stat) := of_kernel (fun k => vfs_stat_fd k handle LOCAL).
Definition give_stat (r : Z * option vfs_stat) (user_status : Z) : M Z :=
  match r with
  | (result, Some st) => if result <? 0 then mret (u64 result) else give user_status (linux_stat st)
  | (result, None) => mret (u64 result)
  end.

Definition sys_fstat (fd user_status : Z) : M Z := handle ← handle_of fd; r ← stat_of handle; give_stat r user_status.

(** Opening a file for its metadata only. *)
Definition stat_path (resolved : cstr) : M (Z * option vfs_stat) :=
  handle ← in_kernel (fun k => vfs_open k resolved);
  if handle <? 0 then answer (u64 handle)
  else r ← stat_of handle; close_handle handle;; mret r.

Definition sys_stat_path (user user_status : Z) : M Z :=
  p ← current; resolved ← user_path p user; r ← stat_path resolved; give_stat r user_status.

Definition sys_lseek (fd raw_offset whence : Z) : M Z :=
  handle ← handle_of fd; r ← in_kernel (fun k => vfs_seek k handle (i64 raw_offset) (i32 whence)); mret (u64 r).

Definition sys_getdents64 (fd user_buffer count : Z) : M Z :=
  handle ← handle_of fd;
  if count =? 0 then mret 0
  else
    guard (negb ((count >? 4096) || negb (vmm_is_user_range user_buffer count))) EFAULT;;
    r ← in_kernel (fun k => let '(result, bytes, k) := vfs_getdents64 k handle LOCAL count in ((result, bytes), k));
    let '(result, bytes) := r in
    if result <? 0 then mret (u64 result) else copyout user_buffer bytes;; mret (u64 result).

(** ** The terminal *)

(** What the machine does while the processor waits for an interrupt, other
    threads included; what serving the USB controllers does; the number of
    waits and rounds a call may take. *)
Context (idle usb_poll : sys -> sys) (fuel : nat).

(** [timer_sleep_ticks] of src/src/arch/timer.c *)
Fixpoint sleep_until (n : nat) (deadline : Z) : M unit := fun y =>
  if i64 (timer_ticks (v_env (p_env (y_proc y))) - deadline) <? 0 then
    match n with O => (inr Waiting, y) | S n' => sleep_until n' deadline (idle y) end
  else (inl tt, y).
Definition timer_sleep_ticks (duration : Z) : M unit :=
  if duration =? 0 then mret tt else now ← of_machine timer_ticks; sleep_until fuel (u64 (now + duration)).

Definition next_key : M (option Z) := in_machine (fun m => let '(c, k) := keyboard_getchar (mc_keyboard m) in (c, m <| mc_keyboard := k |>)).

(** The thread gives the processor away as one of ring 0, so that it resumes
    here, and gets its ring and bases back. *)
Definition block_for_input (t : Z) : M unit :=
  in_machine_ (fun m => m <| mc_keyboard := mc_keyboard m <| kb_input_waiter := Some t |> |>);;
  user_ring ← get (fun y => t_privilege_ring (thr (y_proc y) t));
  lift_ (fun s => set_thread s t (thr s t <| t_state := THREAD_BLOCKED |> <| t_privilege_ring := 0 |>));;
  how ← lift scheduler_yield;
  match how with
  | Returns =>
      lift_ (fun s =>
        let s := set_thread s t (thr s t <| t_privilege_ring := user_ring |>) in
        if user_ring =? 3 then s <| p_fs := t_fs_base (thr s t) |> <| p_gs := t_gs_base (thr s t) |> else s)
  | _ => stop (Leaves how)
  end.

(** src/src/drivers/keyboard.c *)
Fixpoint keyboard_getchar_blocking (n : nat) : M Z :=
  match n with
  | O => stop Waiting
  | S n' =>
      c ← next_key;
      match c with
      | Some value => mret value
      | None =>
          t ← get (fun y => p_current (y_proc y));
          match t with None => put idle | Some t => block_for_input t end;;
          keyboard_getchar_blocking n'
      end
  end.

Definition set_echo (sequence : list Z) (expected : Z) : M unit := put (fun y => y <| y_echo_sequence := sequence |> <| y_echo_expected := expected |>).

Definition tty_echo_byte (byte : Z) : M unit :=
  if Z.land byte 0x80 =? 0 then set_echo [] 0;; console_n [byte]
  else
    sequence ← get y_echo_sequence;
    expected ← get y_echo_expected;
    let length := Z.of_nat (length sequence) in
    if (Z.land byte 0xc0 =? 0x80) && negb (length =? 0) && (length <? 4) then
      let sequence := sequence ++ [byte] in
      if length + 1 =? expected then console_n sequence;; set_echo [] 0 else set_echo sequence expected
    else
      let expected := if Z.land byte 0xe0 =? 0xc0 then 2 else if Z.land byte 0xf0 =? 0xe0 then 3 else if Z.land byte 0xf8 =? 0xf0 then 4 else 0 in
      if expected =? 0 then set_echo [] 0;; console_n [63] else set_echo [byte] expected.

(** The length without the last character: its continuation bytes go too. *)
Fixpoint erase_character (n : nat) (line : arr Z) (length : Z) : Z :=
  match n with
  | O => length
  | S n' => if negb (length =? 0) && (Z.land line.[length] 0xc0 =? 0x80) then erase_character n' line (length - 1) else length
  end.

Definition set_line (line : arr Z) (length : Z) : M unit := put (fun y => y <| y_line := line |> <| y_length := length |>).

(** What one byte of input does to the line; true ends it. *)
Definition tty_input (echo : bool) (byte : Z) : M bool :=
  line ← get y_line;
  length ← get y_length;
  if (byte =? 8) || (byte =? 0x7f) then
    (if negb (length =? 0) then
       set_line line (erase_character (Z.to_nat (length - 1)) line (length - 1));;
       if echo then console_out (fun t => console_putc t 8) else mret tt
     else mret tt);;
    set_echo [] 0;; mret false
  else
    let byte := if byte =? 13 then 10 else byte in
    if byte =? 10 then
      (if length <? TTY_INPUT_LINE_MAX then set_line (line.[length <- 10]) (length + 1) else mret tt);;
      (if echo then console_out (fun t => console_putc t 10) else mret tt);;
      mret true
    else if ((byte <? 0x20) && negb (byte =? 9)) || (length + 1 >=? TTY_INPUT_LINE_MAX) then mret false
    else
      set_line (line.[length <- byte]) (length + 1);;
      (if echo then tty_echo_byte byte else mret tt);;
      mret false.

Fixpoint collect_line (n : nat) (echo : bool) : M unit :=
  match n with
  | O => stop Waiting
  | S n' => input ← keyboard_getchar_blocking fuel; ended ← tty_input echo (u8 input); if ended : bool then mret tt else collect_line n' echo
  end.

Definition tty_collect_canonical_line : M unit :=
  put (fun y => y <| y_length := 0 |> <| y_offset := 0 |>);;
  set_echo [] 0;;
  settings ← get y_terminal_settings;
  collect_line fuel (hasb (c_lflag settings) TTY_ECHO).

Definition tty_read (user_buffer count : Z) : M Z :=
  settings ← get y_terminal_settings;
  if negb (hasb (c_lflag settings) TTY_ICANON) then
    input ← keyboard_getchar_blocking fuel;
    let byte := u8 input in
    (if hasb (c_lflag settings) TTY_ECHO then tty_echo_byte byte else mret tt);;
    copyout user_buffer [byte];; mret 1
  else
    pending ← get (fun y => negb (y_offset y =? y_length y));
    (if pending : bool then mret tt else tty_collect_canonical_line);;
    available ← get (fun y => y_length y - y_offset y);
    let amount := if count <? IO_CHUNK then count else IO_CHUNK in
    let amount := if amount >? available then available else amount in
    bytes ← get (fun y => map (fun i => (y_line y).[y_offset y + i]) (seqZ 0 amount));
    copyout user_buffer bytes;;
    put (fun y => let y := y <| y_offset := y_offset y + amount |> in if y_offset y =? y_length y then y <| y_offset := 0 |> <| y_length := 0 |> else y);;
    mret amount.

Fixpoint read_chunks (n : nat) (handle user count total : Z) : M Z :=
  if negb (total <? count) then mret total
  else
    match n with
    | O => stop Waiting
    | S n' =>
        let amount := if count - total <? IO_CHUNK then count - total else IO_CHUNK in
        r ← in_kernel (fun k => let '(result, bytes, k) := vfs_read k handle LOCAL amount in ((result, bytes), k));
        let '(result, bytes) := r in
        if result <? 0 then mret (if negb (total =? 0) then total else u64 result)
        else if result =? 0 then mret total
        else
          copyout (u64 (user + total)) bytes;;
          if result <? amount then mret (total + result) else read_chunks n' handle user count (total + result)
    end.

Definition sys_read (fd user_buffer count : Z) : M Z :=
  handle ← handle_of fd;
  guard (vmm_is_user_range user_buffer count) EFAULT;;
  if count =? 0 then mret 0
  else if handle =? 0 then tty_read user_buffer count
  else read_chunks (rounds count) handle user_buffer count 0.

(** ** Vectors *)

(** The loop of [sys_readv] and [sys_writev]. *)
Fixpoint iov_loop (io : Z -> Z -> M Z) (n : nat) (i user total : Z) : M Z :=
  match n with
  | O => mret total
  | S n' =>
      iov ← copyin (u64 (user + i * 16)) 16;
      let base := le_val (take 8 iov) in
      let length := le_val (drop 8 iov) in
      guard (length <=? UINT64_MAX - total) EOVERFLOW;;
      result ← call (io base length);
      if i64 result <? 0 then mret (if negb (total =? 0) then total else result)
      else
        let total := u64 (total + result) in
        if negb (result =? length) then mret total else iov_loop io n' (i + 1) user total
  end.

Definition sys_iov (io : Z -> Z -> M Z) (user_iov raw_count : Z) : M Z :=
  let signed_count := i64 raw_count in
  guard (negb ((signed_count <? 0) || (signed_count >? IOV_MAX_NPK))) EINVAL;;
  guard (negb (negb (signed_count =? 0) && negb (vmm_is_user_range user_iov (signed_count * 16)))) EFAULT;;
  iov_loop io (Z.to_nat signed_count) 0 user_iov 0.
Definition sys_readv (raw_fd : Z) : Z -> Z -> M Z := sys_iov (sys_read raw_fd).
Definition sys_writev (raw_fd : Z) : Z -> Z -> M Z := sys_iov (sys_write raw_fd).

(** ** The working directory and the system *)

Definition cwd_of (p : Z) : M cstr := get (fun y => pr_cwd (prc (y_proc y) p)).

Definition sys_getcwd (user_buffer size : Z) : M Z :=
  p ← the_process EFAULT; cwd ← cwd_of p;
  let length := strlen cwd in
  guard (negb (size <? length + 1)) ERANGE;;
  guard (vmm_is_user_range user_buffer (length + 1)) EFAULT;;
  copyout user_buffer (text cwd ++ [0]);; mret length.

Definition sys_chdir (user : Z) : M Z :=
  p ← the_process EFAULT; resolved ← user_path (Some p) user; r ← stat_path resolved;
  match r with
  | (result, Some st) =>
      if result <? 0 then mret (u64 result)
      else
        guard (negb (st_is_directory st =? 0)) ENOTDIR;;
        guard (negb (strlen resolved >=? NPK_PROCESS_PATH_MAX)) ENAMETOOLONG;;
        lift_ (fun s => set_process s p (prc s p <| pr_cwd := text resolved |>));; mret 0
  | (result, None) => mret (u64 result)
  end.

Definition uname_field (s : cstr) : list Z := let s := take 64 s in s ++ replicate (65 - length s) 0.
Definition sys_uname (user_buffer : Z) : M Z :=
  give user_buffer (concat (uname_field <$> [str "NPKernel"; str "npk"; str "0.2.0-dev"; str "No Problem Kernel"; str "x86_64"; []])).

(** ** Memory *)

Definition on_mm {A} (p : Z) (f : kernel -> mm -> A * kernel * mm) : M A :=
  lift (fun s => let '(a, k, m) := f (p_env s) (pr_mm (prc s p)) in (a, set_process (set_kernel s k) p (prc s p <| pr_mm := m |>))).
Definition mm_of (p : Z) : M mm := get (fun y => pr_mm (prc (y_proc y) p)).

Definition sys_brk (requested : Z) : M Z :=
  p ← living EFAULT; m ← mm_of p;
  if requested =? 0 then mret (m_brk_end m)
  else if (requested <? m_brk_start m) || (requested >=? NPK_USER_MAX) || (requested >? UINT64_MAX - (NPK_PAGE_SIZE - 1)) then mret (m_brk_end m)
  else
    let target := Z.land (requested + NPK_PAGE_SIZE - 1) (not64 (NPK_PAGE_SIZE - 1)) in
    r ← on_mm p (fun k m => vm_resize_heap k m target);
    if negb (r =? 0) then m ← mm_of p; mret (m_brk_end m) else mret requested.

Definition sys_mprotect (address length prot : Z) : M Z :=
  p ← living EFAULT;
  guard (vmm_is_user_range address length) EFAULT;;
  r ← on_mm p (fun k m => vm_protect k m address length prot);
  mret (if r <? 0 then u64 r else 0).

(** The address the mapping went to, or the error. *)
Definition mapped_at (r : Z + Z) : Z := match r with inl e => u64 e | inr address => address end.

Definition sys_mmap (requested length prot flags fd offset : Z) : M Z :=
  p ← living EINVAL;
  guard (negb ((length =? 0) || hasb prot (not64 7) || (hasb prot NPK_PROT_WRITE && hasb prot NPK_PROT_EXEC) ||
               (Z.land flags (Z.lor NPK_MAP_SHARED NPK_MAP_PRIVATE) =? 0))) EINVAL;;
  if hasb flags NPK_MAP_ANONYMOUS then
    guard (negb (negb (fd =? UINT64_MAX) || negb (offset =? 0))) EINVAL;;
    r ← on_mm p (fun k m => vm_map_anonymous k m requested length prot flags); mret (mapped_at r)
  else
    guard (negb ((fd >=? NPK_MAX_FDS) || negb (Z.land offset (NPK_PAGE_SIZE - 1) =? 0))) EINVAL;;
    handle ← get (fun y => process_handle_for_fd (y_proc y) p fd);
    guard (0 <=? handle) EBADF;;
    r ← on_mm p (fun k m => if vfs_is_shared_memory k handle then vm_map_shared k m handle requested length prot flags offset
                            else vm_map_file k m handle requested length prot flags offset);
    mret (mapped_at r).

Definition sys_munmap (address length : Z) : M Z :=
  p ← current;
  match p with
  | None => mret (u64 VM_EINVAL)
  | Some p => r ← on_mm p (fun k m => vm_unmap k m address length); mret (u64 r)
  end.

(** ** Descriptors *)

Definition sys_pipe_common (user_pipefd flags : Z) : M Z :=
  p ← the_process EFAULT;
  guard (vmm_is_user_range user_pipefd 8) EFAULT;;
  guard (negb (hasb flags (not64 (Z.lor O_NONBLOCK O_CLOEXEC)))) EINVAL;;
  r ← in_kernel (fun k => let '(result, ends, k) := vfs_pipe_create k in ((result, ends), k));
  match r with
  | (_, Some (read_handle, write_handle)) =>
      let fd_flags := if hasb flags O_CLOEXEC then FD_CLOEXEC else 0 in
      read_fd ← install_fd p read_handle 3 fd_flags;
      if read_fd <? 0 then close_handle read_handle;; close_handle write_handle;; fail EMFILE
      else
        write_fd ← install_fd p write_handle 3 fd_flags;
        if write_fd <? 0 then forget_fd p read_fd;; close_handle write_handle;; fail EMFILE
        else
          ok ← copyout_ok user_pipefd (le_bytes 4 read_fd ++ le_bytes 4 write_fd);
          if ok : bool then mret 0 else forget_fd p read_fd;; forget_fd p write_fd;; fail EFAULT
  | (result, None) => mret (u64 result)
  end.

Definition sys_dup (raw_fd minimum flags : Z) : M Z :=
  p ← the_process EBADF;
  guard (raw_fd <? NPK_MAX_FDS) EBADF;;
  handle ← get (fun y => process_handle_for_fd (y_proc y) p raw_fd);
  guard (0 <=? handle) EBADF;;
  r ← in_kernel (fun k => vfs_retain k handle);
  guard (r =? 0) EBADF;;
  install_or_close p handle minimum flags.

Definition sys_dup2 (raw_oldfd raw_newfd : Z) : M Z :=
  p ← the_process EBADF;
  guard (negb ((raw_oldfd >=? NPK_MAX_FDS) || (raw_newfd >=? NPK_MAX_FDS))) EBADF;;
  handle ← get (fun y => process_handle_for_fd (y_proc y) p raw_oldfd);
  guard (0 <=? handle) EBADF;;
  if raw_oldfd =? raw_newfd then mret raw_newfd
  else
    r ← in_kernel (fun k => vfs_retain k handle);
    guard (r =? 0) EBADF;;
    forget_fd p raw_newfd;;
    lift_ (fun s => set_process s p (prc s p <| pr_fds := (pr_fds (prc s p)).[raw_newfd <- handle] |> <| pr_fd_flags := (pr_fd_flags (prc s p)).[raw_newfd <- 0] |>));;
    mret raw_newfd.

Definition sys_fcntl (raw_fd command argument : Z) : M Z :=
  p ← the_process EBADF;
  h ← fd_handle raw_fd; guard (0 <=? h) EBADF;;
  if command =? 0 then sys_dup raw_fd (i32 argument) 0
  else if command =? 1030 then sys_dup raw_fd (i32 argument) 1
  else if command =? 1 then get (fun y => Z.land (pr_fd_flags (prc (y_proc y) p)).[raw_fd] 1)
  else if command =? 2 then
    lift_ (fun s => set_process s p (prc s p <| pr_fd_flags := (pr_fd_flags (prc s p)).[raw_fd <- Z.land (u32 argument) 1] |>));; mret 0
  else if command =? 3 then mret 0x800
  else if command =? 4 then mret 0
  else fail EINVAL.

Definition sys_close (raw_fd : Z) : M Z :=
  let fd := i32 raw_fd in
  p ← the_process EBADF;
  h ← get (fun y => process_handle_for_fd (y_proc y) p fd);
  guard (0 <=? h) EBADF;; forget_fd p fd;; mret 0.

Definition sys_open_path (user raw_flags raw_mode : Z) : M Z :=
  p ← the_process EFAULT; resolved ← user_path (Some p) user;
  handle ← in_kernel (fun k => vfs_open_flags k resolved (u32 raw_flags));
  if handle <? 0 then mret (u64 handle) else install_or_close p handle 3 0.

Definition sys_openat_path (raw_dirfd user raw_flags raw_mode : Z) : M Z :=
  guard (raw_dirfd =? -100) EINVAL;; sys_open_path user raw_flags raw_mode.

Definition sys_shm_create (raw_size : Z) : M Z :=
  p ← the_process EINVAL;
  guard (negb ((raw_size =? 0) || (raw_size >? 256 * NPK_PAGE_SIZE))) EINVAL;;
  handle ← in_kernel (fun k => vfs_shm_create k raw_size);
  if handle <? 0 then mret (u64 handle) else install_or_close p handle 3 0.

Definition sys_fd_send (raw_pid raw_fd : Z) : M Z :=
  guard (negb ((raw_pid >? INT64_MAX) || (raw_fd >=? NPK_MAX_FDS))) EINVAL;;
  r ← lift (fun s => process_send_fd s raw_pid raw_fd); mret (u64 r).

Definition sys_fd_recv : M Z :=
  p ← the_process EFAULT;
  r ← lift (fun s => process_receive_fd s p);
  match r with
  | inl e => mret (u64 e)
  | inr (handle, fd_flags) => install_or_close p handle 3 fd_flags
  end.

Definition sys_sync_fd (raw_fd : Z) : M Z :=
  handle ← handle_of raw_fd; r ← in_kernel (fun k => vfs_sync_fd k handle); mret (if r <? 0 then u64 r else 0).
Definition sys_sync : M Z := r ← in_kernel vfs_sync_all; mret (if r <? 0 then u64 r else 0).

Definition sys_readlink_path (user user_buffer capacity : Z) : M Z :=
  p ← the_process EINVAL;
  guard (negb ((capacity =? 0) || negb (vmm_is_user_range user_buffer capacity))) EINVAL;;
  resolved ← user_path (Some p) user;
  image_path ← get (fun y => pr_image_path (prc (y_proc y) p));
  guard ((strcmp resolved (str "/proc/self/exe") =? 0) && negb (chr image_path =? 0)) ENOENT;;
  let length := if strlen image_path >? capacity then capacity else strlen image_path in
  copyout user_buffer (take (Z.to_nat length) image_path);; mret length.

(** ** Threads *)

Definition yielding (f : proc kernel -> (Z + transfer) * proc kernel) : M Z :=
  r ← lift f; match r with inl r => mret (u64 r) | inr how => stop (Leaves how) end.

Definition sys_wait4 (raw_pid user_status options : Z) : M Z := yielding (fun s => process_wait4 s (i64 raw_pid) user_status options).

Definition sys_sched_yield : M Z := how ← lift scheduler_yield; match how with Returns => mret 0 | _ => stop (Leaves how) end.

(** The thread does not return from these. *)
Definition exit_then_yield (f : proc kernel -> proc kernel) : M Z :=
  lift_ f;; how ← lift scheduler_yield; stop (Leaves (match how with Returns => Halted | _ => how end)).

Definition valid_user_base (base : Z) : bool := (base =? 0) || (base <=? 0x00007fffffffffff).

Definition sys_arch_prctl (operation argument : Z) : M Z :=
  t ← get (fun y => p_current (y_proc y));
  match t with
  | None => fail EPERM
  | Some t =>
      p ← living EPERM;
      ring ← get (fun y => t_privilege_ring (thr (y_proc y) t)); guard (ring =? 3) EPERM;;
      if operation =? 0x1002 then
        guard (valid_user_base argument) EINVAL;;
        lift_ (fun s => set_thread s t (thr s t <| t_fs_base := argument |>) <| p_fs := argument |>);; mret 0
      else if operation =? 0x1003 then base ← get (fun y => t_fs_base (thr (y_proc y) t)); give argument (le_bytes 8 base)
      else if operation =? 0x1001 then
        guard (valid_user_base argument) EINVAL;;
        lift_ (fun s => set_thread s t (thr s t <| t_gs_base := argument |>) <| p_gs := argument |>);; mret 0
      else if operation =? 0x1004 then base ← get (fun y => t_gs_base (thr (y_proc y) t)); give argument (le_bytes 8 base)
      else fail EINVAL
  end.

(** ** Signals *)

Definition words (n : nat) (bytes : list Z) : list Z := map (fun i => le_val (take 8 (drop (8 * i) bytes))) (seq 0 n).
(** [npk_sigaction_t] *)
Definition action_bytes (a : npk_sigaction) : list Z := le_bytes 8 (sa_handler a) ++ le_bytes 8 (sa_flags a) ++ le_bytes 8 (sa_restorer a) ++ concat (le_bytes 8 <$> sa_mask a).
Definition action_of (bytes : list Z) : npk_sigaction :=
  match words 19 bytes with handler :: flags :: restorer :: mask => SigAction handler flags restorer mask | _ => zero_action end.

Definition sys_rt_sigaction (signal user_new_action user_old_action raw_sigset_size : Z) : M Z :=
  p ← living EINVAL;
  guard (negb ((signal =? 0) || (signal >? NPK_SIGNAL_MAX) || (signal =? 9) || (signal =? 19))) EINVAL;;
  guard (negb (negb (raw_sigset_size =? 0) && negb (raw_sigset_size =? 8) && negb (raw_sigset_size =? 128))) EINVAL;;
  old ← get (fun y => (pr_signal_actions (prc (y_proc y) p)).[signal]);
  (if negb (user_old_action =? 0) then copyout user_old_action (action_bytes old) else mret tt);;
  (if negb (user_new_action =? 0) then
     bytes ← copyin user_new_action 152;
     lift_ (fun s => set_process s p (prc s p <| pr_signal_actions := (pr_signal_actions (prc s p)).[signal <- action_of bytes] |>))
   else mret tt);;
  mret 0.

Definition sys_rt_sigprocmask (operation user_set user_old_set raw_sigset_size : Z) : M Z :=
  guard (negb (negb (raw_sigset_size =? 8) && negb (raw_sigset_size =? 128))) EINVAL;;
  guard (negb (operation >? 2)) EINVAL;;
  old_mask ← get (fun y => process_get_signal_mask (y_proc y));
  (if negb (user_old_set =? 0) then copyout user_old_set (take (Z.to_nat raw_sigset_size) (le_bytes 8 old_mask ++ replicate 120 0)) else mret tt);;
  (if negb (user_set =? 0) then
     bytes ← copyin user_set raw_sigset_size;
     let mask := le_val (take 8 bytes) in
     lift_ (fun s => process_set_signal_mask s
       (if operation =? 0 then Z.lor old_mask mask else if operation =? 1 then Z.land old_mask (not64 mask) else mask))
   else mret tt);;
  mret 0.

(** What the two queueing calls make of the information of the program. *)
Definition queued_info (signal user_info : Z) : M npk_signal_info :=
  guard (negb ((signal <? 32) || (signal >? 64) || (user_info =? 0))) EINVAL;;
  raw ← copyin user_info 128;
  let signo := i32 (le_val (take 4 raw)) in
  let code := i32 (le_val (take 4 (drop 8 raw))) in
  let value := i64 (le_val (take 8 (drop 24 raw))) in
  guard (signo =? i32 signal) EINVAL;;
  sender ← living ESRCH;
  pid ← get (fun y => pr_pid (prc (y_proc y) sender));
  mret (SigInfo signal code pid 0 value).

Definition sys_rt_sigqueueinfo (pid signal user_info : Z) : M Z :=
  info ← queued_info signal user_info; r ← lift (fun s => process_send_signal_info s pid signal (Some info)); mret (u64 r).
Definition sys_rt_tgsigqueueinfo (tgid tid signal user_info : Z) : M Z :=
  info ← queued_info signal user_info; r ← lift (fun s => process_send_thread_signal_info s tgid tid signal (Some info)); mret (u64 r).

Definition deliver_signal : M unit := fun y =>
  let '(d, f, s) := process_deliver_pending_signal_syscall (y_proc y) (y_frame y) in
  let y := y <| y_proc := s |> <| y_frame := f |> in
  match d with Gone how => (inr (Leaves how), y) | _ => (inl tt, y) end.

(** A call whose success may make a signal deliverable. *)
Definition then_deliver (m : M Z) : M Z := result ← call m; (if i64 result =? 0 then deliver_signal else mret tt);; mret result.

Definition sys_sigreturn : M Z :=
  result ← (fun y => let '(r, f, s) := process_sigreturn (y_proc y) (y_frame y) in (inl r, y <| y_proc := s |> <| y_frame := f |>)) : M Z;
  inflight ← get (fun y => match p_current (y_proc y) with Some t => t_signal_inflight (thr (y_proc y) t) | None => true end);
  (if inflight : bool then mret tt else deliver_signal);; mret result.

Definition sys_futex (user_address operation value user_timeout : Z) : M Z :=
  guard (negb (hasb operation 256)) EINVAL;;
  guard (negb (hasb operation (not64 (Z.lor 0x7f 128)))) EINVAL;;
  let command := Z.land operation 0x7f in
  if command =? 0 then yielding (fun s => process_futex_wait scheduler_yield s user_address value user_timeout)
  else if command =? 1 then r ← lift (fun s => process_futex_wake s user_address value); mret (u64 r)
  else fail ENOSYS.

Definition sys_futex_and_deliver (user_address operation value user_timeout : Z) : M Z :=
  result ← call (sys_futex user_address operation value user_timeout);
  (if i64 result =? - EINTR then deliver_signal else mret tt);; mret result.

(** ** Time *)

Definition sys_clock_gettime (clock_id user_timespec : Z) : M Z :=
  guard (negb (clock_id >? 1)) EINVAL;;
  ns ← of_machine timer_monotonic_ns;
  give user_timespec (le_bytes 8 (ns / 1000000000) ++ le_bytes 8 (ns mod 1000000000)).

Definition timespec (bytes : list Z) : Z * Z := (i64 (le_val (take 8 bytes)), i64 (le_val (drop 8 bytes))).

Definition sys_nanosleep (user_request user_remainder : Z) : M Z :=
  bytes ← copyin user_request 16;
  let '(seconds, nanoseconds) := timespec bytes in
  guard (negb ((seconds <? 0) || (nanoseconds <? 0) || (nanoseconds >=? 1000000000))) EFAULT;;
  frequency ← of_machine timer_frequency;
  let ticks := u64 (u64 (seconds * frequency) + u64 (nanoseconds * frequency) / 1000000000) in
  let ticks := if (ticks =? 0) && (negb (seconds =? 0) || negb (nanoseconds =? 0)) then 1 else ticks in
  timer_sleep_ticks ticks;;
  (if negb (user_remainder =? 0) then copyout user_remainder (replicate 16 0) else mret tt);;
  mret 0.

(** The timeout in milliseconds, -1 for none, when it is valid. *)
Definition poll_timeout_ms (user_timeout : Z) : M (option Z) :=
  if user_timeout =? 0 then mret (Some (-1))
  else
    bytes ← copyin_opt user_timeout 16;
    match bytes with
    | None => mret None
    | Some bytes =>
        let '(seconds, nanoseconds) := timespec bytes in
        mret (if (seconds <? 0) || (nanoseconds <? 0) || (nanoseconds >=? 1000000000) || (seconds >? INT64_MAX / 1000) then None
              else Some (i64 (seconds * 1000 + nanoseconds / 1000000 + (if negb (nanoseconds mod 1000000 =? 0) then 1 else 0))))
    end.

(** ** Polling *)

Record npk_pollfd := Pollfd { pf_fd : Z; pf_events : Z; pf_revents : Z }.
Definition pollfd_bytes (p : npk_pollfd) : list Z := le_bytes 4 (pf_fd p) ++ le_bytes 2 (pf_events p) ++ le_bytes 2 (pf_revents p).
Definition pollfd_of (bytes : list Z) : npk_pollfd := Pollfd (i32 (le_val (take 4 bytes))) (le_val (take 2 (drop 4 bytes))) (le_val (take 2 (drop 6 bytes))).
Definition pollfds_of (n : nat) (bytes : list Z) : list npk_pollfd := map (fun i => pollfd_of (drop (8 * i) bytes)) (seq 0 n).

(** Epoll sets watch each other no deeper than there are descriptors, unless
    they do in a circle. *)
Definition POLL_DEPTH : nat := S (Z.to_nat MAX_OPEN_DESCRIPTORS).

(** What a scan stores in one entry; [None] when the watches form a circle. *)
Definition poll_entry (y : sys) (p : npk_pollfd) : option npk_pollfd :=
  if pf_fd p <? 0 then Some (Pollfd (pf_fd p) (pf_events p) 0)
  else
    let s := y_proc y in
    let handle := match process_current s with Some q => if pf_fd p <? NPK_MAX_FDS then process_handle_for_fd s q (pf_fd p) else -1 | None => -1 end in
    if handle <? 0 then Some (Pollfd (pf_fd p) (pf_events p) NPK_POLLNVAL)
    else ready ← vfs_poll_events POLL_DEPTH (p_env s) handle (pf_events p); Some (Pollfd (pf_fd p) (pf_events p) (u16 ready)).

Definition is_ready (p : npk_pollfd) : bool := negb (pf_revents p =? 0).
Definition poll_scan (y : sys) (pollfds : list npk_pollfd) : option (Z * list npk_pollfd) :=
  pollfds ← mapM (poll_entry y) pollfds; Some (Z.of_nat (length (filter is_ready pollfds)), pollfds).

(** The deadline of a timeout; both waiting calls compute it alike. *)
Definition deadline_of (timeout_ms : Z) : M Z :=
  if timeout_ms >? 0 then
    frequency ← of_machine timer_frequency; now ← of_machine timer_ticks;
    let ticks := u64 (u64 (timeout_ms * frequency) + 999) / 1000 in
    mret (u64 (now + (if ticks =? 0 then 1 else ticks)))
  else mret 0.
Definition time_over (timeout_ms deadline : Z) : M bool :=
  of_machine (fun m => (timeout_ms =? 0) || ((timeout_ms >? 0) && (i64 (timer_ticks m - deadline) >=? 0))).

Fixpoint poll_loop (n : nat) (user_pollfds timeout_ms deadline : Z) (pollfds : list npk_pollfd) : M Z :=
  match n with
  | O => stop Waiting
  | S n' =>
      scan ← get (fun y => poll_scan y pollfds);
      match scan with
      | None => stop Stuck
      | Some (ready, pollfds) =>
          over ← time_over timeout_ms deadline;
          if negb (ready =? 0) || over then
            (if negb (length pollfds =? 0)%nat then copyout user_pollfds (concat (pollfd_bytes <$> pollfds)) else mret tt);; mret ready
          else timer_sleep_ticks 1;; put usb_poll;; poll_loop n' user_pollfds timeout_ms deadline pollfds
      end
  end.

Definition sys_poll_common (user_pollfds raw_count timeout_ms : Z) : M Z :=
  guard (negb ((raw_count >? NPK_MAX_FDS) || (negb (raw_count =? 0) && negb (vmm_is_user_range user_pollfds (raw_count * 8))))) EFAULT;;
  bytes ← (if negb (raw_count =? 0) then copyin user_pollfds (raw_count * 8) else mret []);
  deadline ← deadline_of timeout_ms;
  poll_loop fuel user_pollfds timeout_ms deadline (pollfds_of (Z.to_nat raw_count) bytes).

Definition sys_poll (user_pollfds raw_count timeout_ms : Z) : M Z :=
  guard (negb (timeout_ms <? -1)) EINVAL;; sys_poll_common user_pollfds raw_count timeout_ms.

Definition sys_ppoll (user_pollfds raw_count user_timeout user_sigmask sigset_size : Z) : M Z :=
  guard (negb (negb (user_sigmask =? 0) && negb (sigset_size =? 8) && negb (sigset_size =? 128))) EINVAL;;
  old_mask ← get (fun y => process_get_signal_mask (y_proc y));
  (if negb (user_sigmask =? 0) then
     bytes ← copyin user_sigmask sigset_size; lift_ (fun s => process_set_signal_mask s (le_val (take 8 bytes)))
   else mret tt);;
  timeout_ms ← poll_timeout_ms user_timeout;
  result ← match timeout_ms with Some timeout_ms => call (sys_poll_common user_pollfds raw_count timeout_ms) | None => mret (neg_errno EFAULT) end;
  (if negb (user_sigmask =? 0) then lift_ (fun s => process_set_signal_mask s old_mask) else mret tt);;
  mret result.

Definition sys_epoll_create1 (flags : Z) : M Z :=
  guard (negb (hasb flags (not64 O_CLOEXEC))) EINVAL;;
  p ← the_process EFAULT;
  handle ← in_kernel vfs_epoll_create;
  if handle <? 0 then mret (u64 handle) else install_or_close p handle 3 (if hasb flags O_CLOEXEC then FD_CLOEXEC else 0).

Definition sys_epoll_ctl (raw_epfd operation raw_fd user_event : Z) : M Z :=
  p ← the_process EFAULT;
  guard (negb ((raw_epfd >=? NPK_MAX_FDS) || (raw_fd >=? NPK_MAX_FDS) || negb (vmm_is_user_range user_event 16))) EFAULT;;
  epfd ← get (fun y => process_handle_for_fd (y_proc y) p raw_epfd);
  fd ← get (fun y => process_handle_for_fd (y_proc y) p raw_fd);
  guard (negb ((epfd <? 0) || (fd <? 0))) EBADF;;
  event ← copyin user_event 16;
  r ← in_kernel (fun k => vfs_epoll_ctl k epfd (i32 operation) fd (le_val (take 4 event)) (le_val (drop 8 event)));
  mret (u64 r).

Definition epoll_event_bytes (e : Z * Z) : list Z := le_bytes 4 e.1 ++ le_bytes 4 0 ++ le_bytes 8 e.2.
Fixpoint copyout_events (user_events i : Z) (ready : list (Z * Z)) : M unit :=
  match ready with
  | [] => mret tt
  | e :: ready => copyout (u64 (user_events + i * 16)) (epoll_event_bytes e);; copyout_events user_events (i + 1) ready
  end.

Fixpoint epoll_loop (n : nat) (epfd user_events maxevents timeout_ms deadline : Z) : M Z :=
  match n with
  | O => stop Waiting
  | S n' =>
      r ← of_kernel (fun k => vfs_epoll_wait POLL_DEPTH k epfd LOCAL maxevents);
      match r with
      | None => stop Stuck
      | Some (count, ready) =>
          if count <? 0 then mret (u64 count)
          else
            over ← time_over timeout_ms deadline;
            if negb (count =? 0) || over then copyout_events user_events 0 ready;; mret count
            else timer_sleep_ticks 1;; epoll_loop n' epfd user_events maxevents timeout_ms deadline
      end
  end.

Definition sys_epoll_wait (raw_epfd user_events maxevents timeout_ms : Z) : M Z :=
  guard (negb ((maxevents =? 0) || (maxevents >? 32) || (timeout_ms <? -1))) EINVAL;;
  p ← the_process EFAULT;
  guard (negb ((raw_epfd >=? NPK_MAX_FDS) || negb (vmm_is_user_range user_events (maxevents * 16)))) EFAULT;;
  epfd ← get (fun y => process_handle_for_fd (y_proc y) p raw_epfd);
  guard (0 <=? epfd) EBADF;;
  deadline ← deadline_of timeout_ms;
  epoll_loop fuel epfd user_events maxevents timeout_ms deadline.

(** ** Programs *)

(** The strings of a vector and the storage used after them. *)
Fixpoint user_vector (n : nat) (vector i used : Z) (strings : list cstr) : M (option (list cstr * Z)) :=
  match n with
  | O => mret None
  | S n' =>
      if i >? (UINT64_MAX - vector) / 8 then mret None
      else
        pointer ← copyin_opt (u64 (vector + i * 8)) 8;
        match pointer with
        | None => mret None
        | Some bytes =>
            let user_string := le_val bytes in
            if user_string =? 0 then mret (Some (rev strings, used))
            else if used >=? EXEC_STRING_STORAGE then mret None
            else
              s ← copy_user_string user_string (EXEC_STRING_STORAGE - used);
              match s with
              | None => mret None
              | Some s => user_vector n' vector (i + 1) (used + strlen s + 1) (s :: strings)
              end
        end
  end.
Definition copy_user_vector (vector used : Z) : M (option (list cstr * Z)) :=
  if vector =? 0 then mret (Some ([], used)) else user_vector (Z.to_nat EXEC_MAX_VECTOR) vector 0 used [].

Definition kmalloc_ (n : Z) : M Z := in_kernel (fun k => vo_kmalloc k n).
Definition kfree_ (p : Z) : M unit := in_kernel_ (fun k => vo_kfree k p).

(** The file in a buffer of the kernel. *)
Definition read_image (resolved : cstr) : M (Z * image) :=
  fd ← in_kernel (fun k => vfs_open k resolved);
  guard (0 <=? fd) ENOENT;;
  image_size ← of_kernel (fun k => vfs_size k fd);
  if (image_size <=? 0) || (image_size >? EXEC_MAX_IMAGE) then close_handle fd;; fail EINVAL
  else
    image ← kmalloc_ image_size;
    if image =? 0 then close_handle fd;; fail ENOMEM
    else
      r ← in_kernel (fun k => let '(result, bytes, k) := vfs_read k fd image image_size in ((result, bytes), k));
      close_handle fd;;
      if negb (r.1 =? image_size) then kfree_ image;; fail EFAULT else mret (image, r.2).

Definition exec_image (img : image) (argv envp : list cstr) : M Z := fun y =>
  match process_exec_current (y_proc y) img (Some <$> argv) (Some <$> envp) (y_frame y) with
  | None => (inr Stuck, y)
  | Some (r, f, s) => (inl r, y <| y_proc := s |> <| y_frame := f |>)
  end.

Definition sys_execve : M Z :=
  p ← current; frame ← get y_frame;
  path ← copy_user_string (f_rdi frame) PATH_MAX_NPK;
  match path with
  | None => fail (if negb (f_rdi frame =? 0) then ENAMETOOLONG else EFAULT)
  | Some path =>
      resolved ← resolve_process_path p path;
      match resolved with
      | None => fail ENAMETOOLONG
      | Some resolved =>
          img ← read_image resolved;
          let '(image, bytes) := img in
          storage ← kmalloc_ EXEC_STRING_STORAGE;
          if storage =? 0 then kfree_ image;; fail ENOMEM
          else
            argv ← copy_user_vector (f_rsi frame) 0;
            envp ← match argv with Some (_, used) => copy_user_vector (f_rdx frame) used | None => mret None end;
            match argv, envp with
            | Some (argv, _), Some (envp, _) =>
                result ← exec_image bytes argv envp;
                (if result =? 0 then lift_ (fun s => match process_current s with Some q => process_set_image_path s q resolved | None => s end) else mret tt);;
                kfree_ storage;; kfree_ image;; mret (u64 result)
            | _, _ => kfree_ storage;; kfree_ image;; fail EFAULT
            end
      end
  end.

(** ** The display *)

Definition framebuffer_info (m : platform) : option gop_framebuffer_info :=
  gop_get_framebuffer_info (t_gop (mc_tty m)) (Some (hhdm_offset (pm (vmm_of m)))).
Definition info_bytes (i : gop_framebuffer_info) : list Z :=
  le_bytes 8 (in_physical_base i) ++ le_bytes 8 (in_page_offset i) ++ le_bytes 8 (in_mapping_size i) ++ le_bytes 8 (in_width i) ++
  le_bytes 8 (in_height i) ++ le_bytes 8 (in_pitch i) ++ le_bytes 2 (in_bpp i) ++ [in_memory_model i] ++ in_masks i ++ replicate 7 0.

Definition sys_display_info (user_info : Z) : M Z :=
  info ← of_machine framebuffer_info; match info with None => fail ENODEV | Some info => give user_info (info_bytes info) end.

Definition pid_of (p : Z) : M Z := get (fun y => pr_pid (prc (y_proc y) p)).

Definition sys_display_claim : M Z :=
  p ← living EFAULT; pid ← pid_of p;
  ok ← in_machine (on_gop (fun g => gop_claim_user_display g pid)); guard ok ENODEV;;
  in_machine_ (fun m => m <| mc_keyboard := keyboard_clear_events (mc_keyboard m) |>);; mret 0.

(** The process when it owns the display. *)
Definition display_owner : M Z :=
  p ← living EPERM; pid ← pid_of p; owner ← of_machine (fun m => gop_user_display_owned_by (t_gop (mc_tty m)) pid); guard owner EPERM;; mret p.

Definition sys_display_map (requested flags : Z) : M Z :=
  p ← display_owner;
  guard (negb ((Z.land flags NPK_MAP_SHARED =? 0) || hasb flags NPK_MAP_PRIVATE || hasb flags NPK_MAP_ANONYMOUS)) EINVAL;;
  info ← of_machine framebuffer_info;
  match info with
  | None => fail ENODEV
  | Some info =>
      r ← on_mm p (fun k m => vm_map_device k m requested (in_physical_base info) (in_mapping_size info) (Z.lor NPK_PROT_READ NPK_PROT_WRITE) flags);
      mret (mapped_at r)
  end.

Definition sys_display_release : M Z :=
  p ← display_owner; pid ← pid_of p;
  on_mm p (fun k m => let '(k, m) := vm_revoke_device_mappings k m in (tt, k, m));;
  in_machine_ (on_gop_ (fun g => gop_release_user_display g pid));; mret 0.

Definition event_bytes (e : npk_input_event) : list Z :=
  le_bytes 8 (ie_timestamp e) ++ le_bytes 2 (ie_type e) ++ le_bytes 2 (ie_code e) ++ le_bytes 4 (ie_value e) ++ le_bytes 4 (ie_modifiers e) ++ le_bytes 4 (ie_reserved e).

(** At most sixteen events, as many as fit. *)
Fixpoint take_events (n : nat) (capacity total : Z) : M (list npk_input_event) :=
  match n with
  | O => mret []
  | S n' =>
      if total + 24 >? capacity then mret []
      else
        e ← in_machine (fun m => let '(e, k) := keyboard_get_event (mc_keyboard m) in (e, m <| mc_keyboard := k |>));
        match e with None => mret [] | Some e => rest ← take_events n' capacity (total + 24); mret (e :: rest) end
  end.

Definition sys_input_read (user_buffer capacity : Z) : M Z :=
  p ← display_owner;
  if capacity =? 0 then mret 0
  else
    guard (vmm_is_user_range user_buffer capacity) EFAULT;;
    events ← take_events 16 capacity 0;
    let bytes := concat (event_bytes <$> events) in
    (if negb (length events =? 0)%nat then copyout user_buffer bytes else mret tt);; mret (24 * Z.of_nat (length events)).

(** ** The terminal as a device *)

Definition terminal_fd_valid s (p : option Z) (raw_fd : Z) : bool :=
  match p with
  | None => false
  | Some p => (raw_fd <? NPK_MAX_FDS) && (let handle := process_handle_for_fd s p raw_fd in if raw_fd <=? 2 then handle =? raw_fd else 0 <=? handle)
  end.

Definition clip16 (v : Z) : Z := if v >? 65535 then 65535 else v.
Definition current_winsize (g : gop) : list Z :=
  if negb (gop_ready g) then winsize 25 80 0 0 else winsize (clip16 (gop_rows g)) (clip16 (gop_columns g)) (clip16 (gop_width g)) (clip16 (gop_height g)).

Definition sys_ioctl (raw_fd request user_arg : Z) : M Z :=
  valid ← get (fun y => terminal_fd_valid (y_proc y) (process_current (y_proc y)) raw_fd);
  guard valid EBADF;;
  guard (negb (raw_fd >? 2)) ENOTTY;;
  if request =? 0x5401 then settings ← get y_terminal_settings; give user_arg settings
  else if (request =? 0x5402) || (request =? 0x5403) || (request =? 0x5404) then
    settings ← copyin user_arg 60; put (fun y => y <| y_terminal_settings := settings |>);; mret 0
  else if request =? 0x5413 then
    size ← of_machine (fun m => current_winsize (t_gop (mc_tty m)));
    put (fun y => y <| y_terminal_winsize := size |>);; give user_arg size
  else if request =? 0x5414 then size ← copyin user_arg 8; put (fun y => y <| y_terminal_winsize := size |>);; mret 0
  else if request =? 0x541b then
    guard (raw_fd =? 0) ENOTTY;;
    available ← of_machine (fun m => if keyboard_has_data (mc_keyboard m) then 1 else 0); give user_arg (le_bytes 4 available)
  else fail ENOTTY.

(** ** Dispatch *)

Definition syscall_dispatch : M Z :=
  f ← get y_frame;
  let number := f_rax f in let rdi := f_rdi f in let rsi := f_rsi f in let rdx := f_rdx f in let r10 := f_r10 f in let r8 := f_r8 f in let r9 := f_r9 f in
  if number =? NPK_SYS_READ then sys_read rdi rsi rdx
  else if number =? NPK_SYS_WRITE then sys_write rdi rsi rdx
  else if number =? NPK_SYS_READV then sys_readv rdi rsi rdx
  else if number =? NPK_SYS_WRITEV then sys_writev rdi rsi rdx
  else if number =? NPK_SYS_STAT then sys_stat_path rdi rsi
  else if number =? NPK_SYS_FSTAT then sys_fstat rdi rsi
  else if number =? NPK_SYS_LSEEK then sys_lseek rdi rsi rdx
  else if number =? NPK_SYS_GETCWD then sys_getcwd rdi rsi
  else if number =? NPK_SYS_CHDIR then sys_chdir rdi
  else if number =? NPK_SYS_GETDENTS64 then sys_getdents64 rdi rsi rdx
  else if number =? NPK_SYS_POLL then sys_poll rdi rsi (i64 rdx)
  else if number =? NPK_SYS_PPOLL then sys_ppoll rdi rsi rdx r10 r8
  else if number =? NPK_SYS_EPOLL_CREATE1 then sys_epoll_create1 rdi
  else if number =? NPK_SYS_EPOLL_CTL then sys_epoll_ctl rdi rsi rdx r10
  else if number =? NPK_SYS_EPOLL_WAIT then sys_epoll_wait rdi rsi rdx (i64 r10)
  else if number =? NPK_SYS_OPEN then sys_open_path rdi rsi rdx
  else if number =? NPK_SYS_OPENAT then sys_openat_path (i64 rdi) rsi rdx r10
  else if number =? NPK_SYS_IOCTL then sys_ioctl rdi rsi rdx
  else if number =? NPK_SYS_READLINK then sys_readlink_path rdi rsi rdx
  else if number =? NPK_SYS_NPK_SHM_CREATE then sys_shm_create rdi
  else if number =? NPK_SYS_NPK_DISPLAY_INFO then sys_display_info rdi
  else if number =? NPK_SYS_NPK_DISPLAY_CLAIM then sys_display_claim
  else if number =? NPK_SYS_NPK_DISPLAY_MAP then sys_display_map rdi rsi
  else if number =? NPK_SYS_NPK_DISPLAY_RELEASE then sys_display_release
  else if number =? NPK_SYS_NPK_INPUT_READ then sys_input_read rdi rsi
  else if number =? NPK_SYS_NPK_FD_SEND then sys_fd_send rdi rsi
  else if number =? NPK_SYS_NPK_FD_RECV then sys_fd_recv
  else if (number =? NPK_SYS_FSYNC) || (number =? NPK_SYS_FDATASYNC) then sys_sync_fd rdi
  else if number =? NPK_SYS_SYNC then sys_sync
  else if number =? NPK_SYS_CLOSE then sys_close rdi
  else if number =? NPK_SYS_PIPE then sys_pipe_common rdi 0
  else if number =? NPK_SYS_DUP then sys_dup rdi 3 0
  else if number =? NPK_SYS_DUP2 then sys_dup2 rdi rsi
  else if number =? NPK_SYS_FCNTL then sys_fcntl rdi rsi rdx
  else if number =? NPK_SYS_FUTEX then sys_futex_and_deliver rdi rsi (u32 rdx) r10
  else if number =? NPK_SYS_GETPID then get (fun y => match p_syscall_process (y_proc y) with Some p => pr_pid (prc (y_proc y) p) | None => 1 end)
  else if number =? NPK_SYS_GETTID then get (fun y => match p_current (y_proc y) with Some t => t_tid (thr (y_proc y) t) | None => 1 end)
  else if number =? NPK_SYS_SET_TID_ADDRESS then r ← lift (fun s => process_set_tid_address s rdi); mret (u64 r)
  else if number =? NPK_SYS_UNAME then sys_uname rdi
  else if number =? NPK_SYS_MMAP then sys_mmap rdi rsi rdx r10 r8 r9
  else if number =? NPK_SYS_MPROTECT then sys_mprotect rdi rsi rdx
  else if number =? NPK_SYS_MUNMAP then sys_munmap rdi rsi
  else if number =? NPK_SYS_BRK then sys_brk rdi
  else if number =? NPK_SYS_NANOSLEEP then sys_nanosleep rdi rsi
  else if number =? NPK_SYS_CLOCK_GETTIME then sys_clock_gettime rdi rsi
  else if number =? NPK_SYS_EXECVE then sys_execve
  else if number =? NPK_SYS_EXIT then exit_then_yield (fun s => process_exit_thread_current s (u8 rdi))
  else if number =? NPK_SYS_EXIT_GROUP then exit_then_yield (fun s => process_exit_current s (u8 rdi))
  else if number =? NPK_SYS_FORK then r ← lift (fun s => process_fork s f); mret (u64 r)
  else if number =? NPK_SYS_CLONE then r ← lift (fun s => process_clone s rdi rsi rdx r10 r8 f); mret (u64 r)
  else if (number =? NPK_SYS_WAIT4) || (number =? NPK_SYS_WAITPID) then sys_wait4 rdi rsi rdx
  else if number =? NPK_SYS_SCHED_YIELD then sys_sched_yield
  else if number =? NPK_SYS_RT_SIGRETURN then sys_sigreturn
  else if number =? NPK_SYS_ARCH_PRCTL then sys_arch_prctl rdi rsi
  else if number =? NPK_SYS_RT_SIGACTION then sys_rt_sigaction rdi rsi rdx r10
  else if number =? NPK_SYS_RT_SIGQUEUEINFO then then_deliver (sys_rt_sigqueueinfo (i64 rdi) rsi rdx)
  else if number =? NPK_SYS_RT_TGSIGQUEUEINFO then then_deliver (sys_rt_tgsigqueueinfo (i64 rdi) (i64 rsi) rdx r10)
  else if number =? NPK_SYS_RT_SIGPROCMASK then then_deliver (sys_rt_sigprocmask rdi rsi rdx r10)
  else if number =? NPK_SYS_KILL then then_deliver (r ← lift (fun s => process_send_signal s (i64 rdi) rsi); mret (u64 r))
  else if number =? NPK_SYS_TGKILL then then_deliver (r ← lift (fun s => process_send_thread_signal s (i64 rdi) (i64 rsi) rdx); mret (u64 r))
  else fail ENOSYS.

(** The frame as the assembly bridge saves it: rax first. *)
Definition frame_of_raw (raw : frame) : syscall_frame :=
  SysFrame raw.[0] raw.[1] raw.[2] raw.[3] raw.[4] raw.[5] raw.[6] raw.[7] raw.[8] raw.[9] raw.[10] raw.[11] raw.[12] raw.[13] raw.[14]
    raw.[15] raw.[16] raw.[17] raw.[18] raw.[19].
Definition raw_of_frame (raw : frame) (f : syscall_frame) : frame :=
  raw.[0 <- f_rax f].[1 <- f_rbx f].[2 <- f_rcx f].[3 <- f_rdx f].[4 <- f_rsi f].[5 <- f_rdi f].[6 <- f_rbp f].[7 <- f_r8 f].[8 <- f_r9 f].[9 <- f_r10 f]
     .[10 <- f_r11 f].[11 <- f_r12 f].[12 <- f_r13 f].[13 <- f_r14 f].[14 <- f_r15 f].[15 <- f_rip f].[16 <- f_cs f].[17 <- f_rflags f].[18 <- f_rsp f].[19 <- f_ss f].

(** The bridge: the call on the saved registers, and the registers the program
    gets back when it returns, with the result in rax (which the assembly
    stores last). *)
Definition syscall_dispatch_asm (y : sys) (raw : frame) : outcome * frame * sys :=
  let s := y_proc y in
  let s := match p_current s with Some t => set_thread s t (thr s t <| t_saved_interrupt_frame := Some raw |> <| t_saved_frame_kind := 1 |>) | None => s end in
  let s := process_reap_pending s in
  let '(o, y) := run syscall_dispatch (y <| y_proc := s |> <| y_frame := frame_of_raw raw |>) in
  match o with
  | Answer result => (o, (raw_of_frame raw (y_frame y)).[0 <- result], y)
  | _ => (o, raw, y)
  end.
End Model.
