(* ===== verification/SysInv.v ===== *)
(** * Every system call keeps the process tables in order

    A small logic for the computations of Syscall.v, and with it the proof that
    no call, whatever its number and arguments, breaks the invariant of
    ProcInv.v; and that calls return the registers of the program. *)

From Stdlib Require Import ZArith Lia Bool ZifyBool.
From stdpp Require Import base numbers list gmap strings.
From S2P Require Import Prelude Kstring Keyboard Gop Console Pmm Vmm Heap Kmem Vm Path Npkfs Procfs Vfs Proc ProcMem Signal Futex ProcStep Sched ProcInv ProcRun ProcLife Elf Exec ProcReach Kernel KernelExec Syscall.

Open Scope Z_scope.
Open Scope npk_scope.

(** ** Triples *)

(** From a state in [P] the computation ends in [Q] with its value, in [E] with
    an answer, or in [J] otherwise. *)
Definition triple (E J : sys -> Prop) {A} (P : sys -> Prop) (m : M A) (Q : A -> sys -> Prop) : Prop :=
  forall y, P y -> match m y with
                   | (inl x, y') => Q x y'
                   | (inr (Answer _), y') => E y'
                   | (inr _, y') => J y'
                   end.

Section Rules.
Context {E J : sys -> Prop} {A : Type}.
Implicit Types P : sys -> Prop.

Lemma t_conseq P P' (m : M A) (Q Q' : A -> sys -> Prop) :
  (forall y, P y -> P' y) -> (forall x y, Q' x y -> Q x y) -> triple E J P' m Q' -> triple E J P m Q.
Proof. intros HP HQ T y Hy. specialize (T y (HP y Hy)). destruct (m y) as [[x|[]] y']; auto. Qed.

Lemma t_ret P (x : A) (Q : A -> sys -> Prop) : (forall y, P y -> Q x y) -> triple E J P (mret x) Q.
Proof. intros H y Hy. by apply H. Qed.

Lemma t_bind {B} P (m : M B) (k : B -> M A) (R : B -> sys -> Prop) (Q : A -> sys -> Prop) :
  triple E J P m R -> (forall x, triple E J (R x) (k x) Q) -> triple E J P (m ≫= k) Q.
Proof. intros Hm Hk y Hy. specialize (Hm y Hy). unfold mbind, sys_bind. destruct (m y) as [[x|o] y']; [by apply Hk|exact Hm]. Qed.

Lemma t_get P (f : sys -> A) (Q : A -> sys -> Prop) : (forall y, P y -> Q (f y) y) -> triple E J P (get f) Q.
Proof. intros H y Hy. by apply H. Qed.

Lemma t_answer P r (Q : A -> sys -> Prop) : (forall y, P y -> E y) -> triple E J P (answer r) Q.
Proof. intros H y Hy. by apply H. Qed.

Lemma t_stop P o (Q : A -> sys -> Prop) : (forall y, P y -> E y) -> (forall y, P y -> J y) -> triple E J P (stop o) Q.
Proof. intros HE HJ y Hy. unfold stop. destruct o; auto. Qed.

Lemma t_lift P (f : proc kernel -> A * proc kernel) (Q : A -> sys -> Prop) :
  (forall y, P y -> Q (f (y_proc y)).1 (y <| y_proc := (f (y_proc y)).2 |>)) -> triple E J P (lift f) Q.
Proof. intros H y Hy. specialize (H y Hy). unfold lift. by destruct (f (y_proc y)). Qed.
End Rules.

Lemma t_put {E J} P f (Q : unit -> sys -> Prop) : (forall y, P y -> Q tt (f y)) -> triple E J P (put f) Q.
Proof. intros H y Hy. by apply H. Qed.

Lemma t_call {E J} P (m : M Z) (Q : Z -> sys -> Prop) : triple (fun y => forall x, Q x y) J P m Q -> triple E J P (call m) Q.
Proof. intros H y Hy. specialize (H y Hy). unfold call. destruct (m y) as [[x|[]] y']; auto. Qed.

(** [I] holds throughout, until the processor is given away. *)
Notation keeps I J m := (triple I J I m (fun _ => I)).

Section Keeps.
Context {I J : sys -> Prop} (IJ : forall y, I y -> J y).

Lemma k_bind {A B} (m : M A) (k : A -> M B) : keeps I J m -> (forall x, keeps I J (k x)) -> keeps I J (m ≫= k).
Proof. intros Hm Hk. by apply (t_bind _ m k (fun _ => I)). Qed.
Lemma k_ret {A} (x : A) : keeps I J (mret x).
Proof. by apply t_ret. Qed.
Lemma k_get {A} (f : sys -> A) : keeps I J (get f).
Proof. by apply t_get. Qed.
Lemma k_stop {A} o : keeps I J (stop o : M A).
Proof. apply t_stop; auto. Qed.
Lemma k_call m : keeps I J m -> keeps I J (call m).
Proof. intros H. apply t_call. intros y Hy. specialize (H y Hy). destruct (m y) as [[x|[]] y']; auto. Qed.
Lemma k_put f : (forall y, I y -> I (f y)) -> keeps I J (put f).
Proof. intros H. by apply t_put. Qed.
End Keeps.

(** The function a term applies. *)
Ltac head_of m := lazymatch m with ?f _ => head_of f | _ => m end.

(** One step through a computation: binds, branches and the rules above; what
    is left are the operations. *)
Ltac keeps_step IJ :=
  lazymatch goal with
  | |- triple _ _ _ (_ ≫= _) _ => apply k_bind; [|intros ?]
  | |- triple _ _ _ (mret _) _ => apply k_ret
  | |- triple _ _ _ (get _) _ => apply k_get
  | |- triple _ _ _ (fail _) _ => apply (k_stop IJ)
  | |- triple _ _ _ (answer _) _ => apply (k_stop IJ)
  | |- triple _ _ _ (stop _) _ => apply (k_stop IJ)
  | |- triple _ _ _ (guard ?b _) _ => unfold guard
  | |- triple _ _ _ (call _) _ => apply k_call
  | |- triple _ _ _ (if ?b then _ else _) _ => destruct b
  | |- triple _ _ _ (match ?x with _ => _ end) _ => destruct x
  | |- triple _ _ _ (let '(_, _) := ?x in _) _ => destruct x
  | |- triple _ _ _ (of_kernel _) _ => apply k_get
  | |- triple _ _ _ (of_machine _) _ => apply k_get
  end.

(** ** The areas of a process and its life *)

Section Alive.
Context {K : Type} `{VmOps K}.
Implicit Types (k : K) (m : mm).

Lemma anonymous_alive k m hint length protection flags : m_alive (vm_map_anonymous k m hint length protection flags).2 = m_alive m.
Proof.
  unfold vm_map_anonymous. destruct (_ || bad_protection protection); [done|]. destruct (page_align_up length) as [size|]; [|done]. destruct (_ || _); [done|]. cbv zeta.
  match goal with |- context [match ?x with inl _ => _ | inr _ => _ end] => destruct x as [e|start] end; [done|]. destruct (_ || _); [done|].
  destruct (vo_kmalloc k VMA_SIZE) as [node k']. by destruct (node =? 0).
Qed.

Lemma attach_alive k m handle mapped length f : m_alive (attach_handle k m handle mapped length f).2 = m_alive m.
Proof.
  unfold attach_handle. destruct (vo_vfs_retain k handle) as [rc k1]. destruct (negb _).
  - pose proof (unmap_alive k1 m mapped length) as U. by destruct (vm_unmap k1 m mapped length) as [[? ?] ?].
  - destruct (update_vma _ _ _); [done|]. cbv zeta. pose proof (unmap_alive (vo_vfs_close k1 handle) m mapped length) as U. by destruct (vm_unmap _ m mapped length) as [[? ?] ?].
Qed.

(** An anonymous mapping that is given another backing. *)
Lemma over_anonymous_alive k m hint length protection flags (g : Z -> K -> mm -> (Z + Z) * K * mm) :
  (forall mapped k m, m_alive (g mapped k m).2 = m_alive m) ->
  m_alive (match vm_map_anonymous k m hint length protection flags with (inl e, k, m) => (inl e, k, m) | (inr mapped, k, m) => g mapped k m end).2 = m_alive m.
Proof.
  intros Hg. pose proof (anonymous_alive k m hint length protection flags) as A. destruct (vm_map_anonymous k m hint length protection flags) as [[[e|mapped] k1] m1]; [done|]. by rewrite Hg.
Qed.

Lemma file_alive k m handle hint length protection flags offset : m_alive (vm_map_file k m handle hint length protection flags offset).2 = m_alive m.
Proof.
  unfold vm_map_file. destruct (_ || _); [done|]. cbv zeta. destruct (_ || _); [done|].
  apply (over_anonymous_alive _ _ _ _ _ _ (fun mapped k m => attach_handle k m handle mapped length _)). intros. apply attach_alive.
Qed.

Lemma shared_alive k m handle hint length protection flags offset : m_alive (vm_map_shared k m handle hint length protection flags offset).2 = m_alive m.
Proof.
  unfold vm_map_shared. destruct (_ || _); [done|]. cbv zeta. destruct (_ || _); [done|].
  apply (over_anonymous_alive _ _ _ _ _ _ (fun mapped k m => attach_handle k m handle mapped length _)). intros. apply attach_alive.
Qed.

Lemma unmapped_alive k m a n (e : Z + Z) : m_alive (let '(_, k, m) := vm_unmap k m a n in (e, k, m)).2 = m_alive m.
Proof. pose proof (unmap_alive k m a n) as U. by destruct (vm_unmap k m a n) as [[? ?] ?]. Qed.

Lemma device_alive k m hint physical length protection flags : m_alive (vm_map_device k m hint physical length protection flags).2 = m_alive m.
Proof.
  unfold vm_map_device. destruct (_ || _); [done|]. destruct (page_align_up length) as [size|]; [|done]. destruct (_ || _); [done|].
  pose proof (anonymous_alive k m hint size protection (Z.lor flags NPK_MAP_ANONYMOUS)) as A.
  destruct (vm_map_anonymous k m hint size protection (Z.lor flags NPK_MAP_ANONYMOUS)) as [[[e|mapped] k1] m1]; [done|]. cbn [snd] in A.
  destruct (update_vma _ _ _); [|by rewrite unmapped_alive]. cbv zeta. destruct (for_break _ _ _ _); [done|]. by rewrite unmapped_alive.
Qed.

Lemma split_alive k m point : m_alive (split_vma_at k m point).2 = m_alive m.
Proof.
  unfold split_vma_at. destruct (Vm.split_first _ _) as [[[l1 v] l2]|]; [|done]. destruct (vo_kmalloc _ _) as [node k1]. destruct (_ =? 0); [done|]. destruct (_ >=? 0); [|done].
  destruct (vo_vfs_retain _ _) as [rc k2]. by destruct (negb _).
Qed.

Lemma protect_alive k m address length protection : m_alive (vm_protect k m address length protection).2 = m_alive m.
Proof.
  unfold vm_protect. destruct (_ || _); [done|]. destruct (page_align_up length) as [size|]; [|done]. destruct (_ || _); [done|]. cbv zeta. destruct (negb _); [done|].
  pose proof (split_alive k m address) as A. destruct (split_vma_at k m address) as [[ok k1] m1]. cbn [snd] in A. destruct ok; [|done].
  pose proof (split_alive k1 m1 (address + size)) as B. destruct (split_vma_at k1 m1 (address + size)) as [[ok k2] m2]. cbn [snd] in B. destruct ok; [|cbn; congruence]. cbn [negb].
  destruct (for_break _ _ _ _); cbn; congruence.
Qed.

Lemma resize_alive k m new_end : m_alive (vm_resize_heap k m new_end).2 = m_alive m.
Proof. unfold vm_resize_heap. destruct (find_heap_vma m); [|done]. by destruct (_ || _). Qed.
End Alive.

(** ** Operations that keep the tables steady *)

Create HintDb sys.

Section Order.
Context (bootstrap : Z).
#[local] Instance sys_ops' : ProcOps kernel := kernel_proc bootstrap.
Notation thr s i := ((p_threads s).[i]).
Notation prc s i := ((p_processes s).[i]).
Implicit Type s : proc kernel.

Context (idle usb_poll : sys -> sys) (fuel : nat).

(** [O] is a property of the tables that steady steps keep. *)
Context (O : proc kernel -> Prop) (O_steady : forall s s', steady s s' -> O s -> O s') (O_inv : forall s, O s -> proc_inv s).
Context (idle_O : forall y, O (y_proc y) -> O (y_proc (idle y))) (usb_O : forall y, O (y_proc y) -> O (y_proc (usb_poll y))).
Context (idle_frame : forall y, y_frame (idle y) = y_frame y) (usb_frame : forall y, y_frame (usb_poll y) = y_frame y).

(** Waiting for input blocks the thread, in ring 0 while it is away. *)
Context (O_blocked : forall s t, O s -> p_current s = Some t -> O (set_thread s t (thr s t <| t_state := THREAD_BLOCKED |>))).
Context (O_away : forall s t, O s -> p_current s = Some t -> proc_inv (set_thread s t (thr s t <| t_state := THREAD_BLOCKED |> <| t_privilege_ring := 0 |>))).

(** [F] is a property of the frame of the call. *)
Context (F : syscall_frame -> Prop).

Let I (y : sys) : Prop := O (y_proc y) /\ F (y_frame y).
Let J (y : sys) : Prop := proc_inv (y_proc y).

Lemma IJ y : I y -> J y.
Proof. intros [H _]. by apply O_inv. Qed.

Lemma k_steady {A} (f : proc kernel -> A * proc kernel) : (forall s, steady s (f s).2) -> keeps I J (lift f).
Proof. intros H. apply t_lift. intros y [Hy Hf]. split; [|exact Hf]. eapply O_steady; [apply H|exact Hy]. Qed.
Lemma k_steady_ f : (forall s, steady s (f s)) -> keeps I J (lift_ f).
Proof. intros H. apply k_put. intros y [Hy Hf]. split; [|exact Hf]. eapply O_steady; [apply H|exact Hy]. Qed.
Lemma k_kernel {A} (f : kernel -> A * kernel) : keeps I J (in_kernel f).
Proof. apply k_steady. intros s. destruct (f (p_env s)). apply steady_set_kernel. Qed.
Lemma k_kernel_ f : keeps I J (in_kernel_ f).
Proof. apply k_steady_. intros s. apply steady_set_kernel. Qed.
Lemma k_machine {A} (f : platform -> A * platform) : keeps I J (in_machine f).
Proof. apply k_kernel. Qed.
Lemma k_machine_ f : keeps I J (in_machine_ f).
Proof. apply k_kernel_. Qed.
(** The part of the state that is not the tables. *)
Lemma k_tty f : (forall y, y_proc (f y) = y_proc y /\ y_frame (f y) = y_frame y) -> keeps I J (put f).
Proof. intros H. apply k_put. intros y Hy. unfold I. destruct (H y) as [-> ->]. exact Hy. Qed.

#[local] Hint Resolve k_kernel k_kernel_ k_machine k_machine_ : sys.

Ltac sys_step := cbv zeta; first [keeps_step IJ | solve [eauto 2 with sys nocore]].
Ltac sys_keeps := repeat sys_step.

Lemma k_current : keeps I J current.
Proof. apply k_get. Qed.
#[local] Hint Resolve k_current : sys.
Lemma k_process e : keeps I J (the_process e).
Proof. unfold the_process. sys_keeps. Qed.
#[local] Hint Resolve k_process : sys.
Lemma k_living e : keeps I J (living e).
Proof. unfold living. sys_keeps. Qed.
#[local] Hint Resolve k_living : sys.

Lemma k_copyin_opt a n : keeps I J (copyin_opt bootstrap a n).
Proof. apply k_steady. intros s. apply copyin_steady. Qed.
#[local] Hint Resolve k_copyin_opt : sys.
Lemma k_copyin a n : keeps I J (copyin bootstrap a n).
Proof. unfold copyin. sys_keeps. Qed.
Lemma k_copyout_ok a b : keeps I J (copyout_ok bootstrap a b).
Proof. apply k_steady. intros s. apply copyout_user_steady. Qed.
#[local] Hint Resolve k_copyin k_copyout_ok : sys.
Lemma k_copyout a b : keeps I J (copyout bootstrap a b).
Proof. unfold copyout. sys_keeps. Qed.
#[local] Hint Resolve k_copyout : sys.
Lemma k_give a b : keeps I J (give bootstrap a b).
Proof. unfold give. sys_keeps. Qed.
#[local] Hint Resolve k_give : sys.

(** *** Paths and descriptors *)

Lemma k_user_string n user i text : keeps I J (user_string bootstrap n user i text).
Proof. revert i text. induction n as [|n IH]; intros i text; cbn [user_string]; sys_keeps. Qed.
#[local] Hint Resolve k_user_string : sys.
Lemma k_copy_user_string user capacity : keeps I J (copy_user_string bootstrap user capacity).
Proof. unfold copy_user_string. sys_keeps. Qed.
Lemma k_resolve p path : keeps I J (resolve_process_path p path).
Proof. apply k_get. Qed.
#[local] Hint Resolve k_copy_user_string k_resolve : sys.
Lemma k_user_path p user : keeps I J (user_path bootstrap p user).
Proof. unfold user_path. sys_keeps. Qed.
Lemma k_fd_handle fd : keeps I J (fd_handle fd).
Proof. apply k_get. Qed.
#[local] Hint Resolve k_user_path k_fd_handle : sys.
Lemma k_handle_of fd : keeps I J (handle_of fd).
Proof. unfold handle_of. sys_keeps. Qed.
#[local] Hint Resolve k_handle_of : sys.

Lemma steady_fds s p fds flags : steady s (set_process s p (prc s p <| pr_fds := fds |> <| pr_fd_flags := flags |>)).
Proof. apply steady_set_process. by constructor. Qed.

Lemma k_install_fd p handle minimum flags : keeps I J (install_fd p handle minimum flags).
Proof.
  apply k_steady. intros s. unfold process_install_fd. destruct (_ || _); [done|]. destruct (find_index _ _ _); [|done]. apply steady_fds.
Qed.
Lemma k_forget_fd p fd : keeps I J (forget_fd p fd).
Proof.
  apply k_steady_. intros s. unfold process_forget_fd. destruct (_ || _); [done|]. cbv zeta. etrans; [apply (steady_set_kernel s)|]. apply steady_fds.
Qed.
Lemma k_close_handle h : keeps I J (Syscall.close_handle h).
Proof. apply k_kernel_. Qed.
#[local] Hint Resolve k_install_fd k_forget_fd k_close_handle : sys.
Lemma k_install_or_close p handle minimum flags : keeps I J (install_or_close p handle minimum flags).
Proof. unfold install_or_close. sys_keeps. Qed.
#[local] Hint Resolve k_install_or_close : sys.

(** *** Files *)

Lemma k_console_n bytes : keeps I J (console_n bytes).
Proof. apply k_kernel_. Qed.
Lemma k_console_out f : keeps I J (console_out f).
Proof. apply k_kernel_. Qed.
#[local] Hint Resolve k_console_n k_console_out : sys.

Lemma k_write_chunks n handle user count written : keeps I J (write_chunks bootstrap n handle user count written).
Proof. revert written. induction n as [|n IH]; intros written; cbn [write_chunks]; sys_keeps. Qed.
#[local] Hint Resolve k_write_chunks : sys.
Lemma k_write fd user count : keeps I J (sys_write bootstrap fd user count).
Proof. unfold sys_write. sys_keeps. Qed.
Lemma k_stat_of h : keeps I J (stat_of h).
Proof. apply k_get. Qed.
Lemma k_give_stat r user : keeps I J (give_stat bootstrap r user).
Proof. unfold give_stat. sys_keeps. Qed.
#[local] Hint Resolve k_write k_stat_of k_give_stat : sys.
Lemma k_stat_path path : keeps I J (stat_path path).
Proof. unfold stat_path. sys_keeps. Qed.
#[local] Hint Resolve k_stat_path : sys.
Lemma k_fstat fd user : keeps I J (sys_fstat bootstrap fd user).
Proof. unfold sys_fstat. sys_keeps. Qed.
Lemma k_stat user status : keeps I J (sys_stat_path bootstrap user status).
Proof. unfold sys_stat_path. sys_keeps. Qed.
Lemma k_lseek fd offset whence : keeps I J (sys_lseek fd offset whence).
Proof. unfold sys_lseek. sys_keeps. Qed.
Lemma k_getdents fd user count : keeps I J (sys_getdents64 bootstrap fd user count).
Proof. unfold sys_getdents64. sys_keeps. Qed.

Lemma k_sleep_until n deadline : keeps I J (sleep_until idle n deadline).
Proof.
  revert deadline. induction n as [|n IH]; intros deadline y Hy; cbn [sleep_until]; destruct (_ <? 0); try exact Hy; [by apply IJ|]. apply IH. destruct Hy. split; [by apply idle_O|by rewrite idle_frame].
Qed.
Lemma k_sleep duration : keeps I J (timer_sleep_ticks idle fuel duration).
Proof. unfold timer_sleep_ticks. pose proof k_sleep_until. sys_keeps. Qed.
#[local] Hint Resolve k_sleep : sys.

(** *** The terminal *)

Lemma set_thread_twice s t a b : set_thread (set_thread s t a) t b = set_thread s t b.
Proof. unfold set_thread. destruct s as [ps [d c] n1 n2 cu idl st rp kr w r0 fs gs sp e]. cbn. unfold aset. cbn. by rewrite insert_insert_eq. Qed.

(** Back in its ring the thread is as it was, blocked. *)
Lemma blocked_again s t :
  let away := set_thread s t (thr s t <| t_state := THREAD_BLOCKED |> <| t_privilege_ring := 0 |>) <| p_reschedule_pending := false |> in
  set_thread away t (thr away t <| t_privilege_ring := t_privilege_ring (thr s t) |>) =
  set_thread s t (thr s t <| t_state := THREAD_BLOCKED |>) <| p_reschedule_pending := false |>.
Proof.
  cbv zeta. set (th := thr s t <| t_state := THREAD_BLOCKED |> <| t_privilege_ring := 0 |>).
  assert (E : thr (set_thread s t th <| p_reschedule_pending := false |>) t = th) by apply aget_aset_eq. rewrite E.
  change (set_thread (set_thread s t th <| p_reschedule_pending := false |>) t ?x) with (set_thread (set_thread s t th) t x <| p_reschedule_pending := false |>).
  rewrite set_thread_twice. unfold th. by destruct (thr s t).
Qed.

Lemma k_block t y : p_current (y_proc y) = Some t -> I y ->
  match block_for_input bootstrap t y with
  | (inl _, y') => I y'
  | (inr (Answer _), y') => I y'
  | (inr _, y') => J y'
  end.
Proof.
  intros Hc [Hy Hf]. unfold block_for_input, in_machine_, in_kernel_, lift_, put, mbind, sys_bind, get, lift. cbn [y_proc].
  set (s1 := set_kernel (y_proc y) _). assert (O1 : O s1) by (eapply O_steady; [apply steady_set_kernel|exact Hy]). assert (C1 : p_current s1 = Some t) by exact Hc.
  change (y_proc (y <| y_proc := s1 |>)) with s1. set (s2 := set_thread s1 t _). pose proof (O_away s1 t O1 C1) as I2. fold s2 in I2.
  change (y_proc (y <| y_proc := s1 |> <| y_proc := s2 |>)) with s2. pose proof (yield_inv s2 I2) as I3. destruct (scheduler_yield s2) as [how s3] eqn:Ey. cbn [snd] in I3.
  destruct how; try exact I3. apply yield_returns in Ey. split; [|exact Hf]. cbv zeta. change (y_proc (y <| y_proc := s1 |> <| y_proc := s2 |> <| y_proc := s3 |>)) with s3.
  set (s4 := set_thread s3 t _). match goal with |- O (y_proc (_ <| y_proc := ?X |>)) => change (O X) end. assert (O4 : O s4).
  { unfold s4. rewrite Ey. unfold s2. rewrite blocked_again. eapply O_steady; [|exact (O_blocked s1 t O1 C1)]. by constructor. }
  clearbody s4. destruct (_ =? 3); [|exact O4]. eapply O_steady; [|exact O4]. by constructor.
Qed.

Lemma k_getchar n : keeps I J (keyboard_getchar_blocking bootstrap idle n).
Proof.
  induction n as [|n IH]; cbn [keyboard_getchar_blocking]; [apply (k_stop IJ)|]. apply k_bind; [apply k_machine|]. intros [c|]; [apply k_ret|].
  apply (t_bind _ _ _ (fun t y => I y /\ p_current (y_proc y) = t)); [apply t_get; auto|]. intros [t|].
  - apply (t_bind _ _ _ (fun _ => I)); [|intros _; exact IH]. intros y [Hy Hc]. by apply k_block.
  - apply (t_bind _ _ _ (fun _ => I)); [|intros _; exact IH]. apply t_put. intros y [[Hy Hf] _]. split; [by apply idle_O|by rewrite idle_frame].
Qed.
#[local] Hint Resolve k_getchar : sys.

Lemma k_set_echo sequence expected : keeps I J (set_echo sequence expected).
Proof. by apply k_tty. Qed.
Lemma k_set_line line length : keeps I J (set_line line length).
Proof. by apply k_tty. Qed.
#[local] Hint Resolve k_set_echo k_set_line : sys.
Lemma k_echo byte : keeps I J (tty_echo_byte byte).
Proof. unfold tty_echo_byte. sys_keeps. Qed.
#[local] Hint Resolve k_echo : sys.
Lemma k_input echo byte : keeps I J (tty_input echo byte).
Proof. unfold tty_input. sys_keeps. Qed.
#[local] Hint Resolve k_input : sys.
Lemma k_collect_line n echo : keeps I J (collect_line bootstrap idle fuel n echo).
Proof. induction n as [|n IH]; cbn [collect_line]; sys_keeps. Qed.
#[local] Hint Resolve k_collect_line : sys.
Lemma k_collect : keeps I J (tty_collect_canonical_line bootstrap idle fuel).
Proof. unfold tty_collect_canonical_line. apply k_bind; [by apply k_tty|]. intros _. sys_keeps. Qed.
#[local] Hint Resolve k_collect : sys.
Lemma k_tty_read user count : keeps I J (tty_read bootstrap idle fuel user count).
Proof.
  unfold tty_read. sys_keeps. apply k_tty. intros y. cbv zeta. by destruct (_ =? _).
Qed.
Lemma k_read_chunks n handle user count total : keeps I J (read_chunks bootstrap n handle user count total).
Proof. revert total. induction n as [|n IH]; intros total; cbn [read_chunks]; sys_keeps. Qed.
#[local] Hint Resolve k_tty_read k_read_chunks : sys.
Lemma k_read fd user count : keeps I J (sys_read bootstrap idle fuel fd user count).
Proof. unfold sys_read. sys_keeps. Qed.
#[local] Hint Resolve k_read : sys.

Lemma k_iov_loop io n i user total : (forall a b, keeps I J (io a b)) -> keeps I J (iov_loop bootstrap io n i user total).
Proof. intros Hio. revert i total. induction n as [|n IH]; intros i total; cbn [iov_loop]; sys_keeps. Qed.
Lemma k_iov io user count : (forall a b, keeps I J (io a b)) -> keeps I J (sys_iov bootstrap io user count).
Proof. intros Hio. unfold sys_iov. pose proof (fun n i user total => k_iov_loop io n i user total Hio). sys_keeps. Qed.
Lemma k_readv fd user count : keeps I J (sys_readv bootstrap idle fuel fd user count).
Proof. apply k_iov. intros. apply k_read. Qed.
Lemma k_writev fd user count : keeps I J (sys_writev bootstrap fd user count).
Proof. apply k_iov. intros. apply k_write. Qed.

Lemma k_set_process p f : (forall q, steady_process q (f q)) -> keeps I J (lift_ (fun s => set_process s p (f (prc s p)))).
Proof. intros H. apply k_steady_. intros s. by apply steady_set_process. Qed.

Lemma k_cwd_of p : keeps I J (cwd_of p).
Proof. apply k_get. Qed.
#[local] Hint Resolve k_cwd_of : sys.
Lemma k_getcwd user size : keeps I J (sys_getcwd bootstrap user size).
Proof. unfold sys_getcwd. sys_keeps. Qed.
Lemma k_chdir user : keeps I J (sys_chdir bootstrap user).
Proof. unfold sys_chdir. sys_keeps. apply (k_set_process _ (fun q => q <| pr_cwd := text _ |>)). intros q. by constructor. Qed.
Lemma k_uname user : keeps I J (sys_uname bootstrap user).
Proof. apply k_give. Qed.

(** *** Memory *)

Lemma k_on_mm {A} p (f : kernel -> mm -> A * kernel * mm) : (forall k m, m_alive (f k m).2 = m_alive m) -> keeps I J (on_mm p f).
Proof.
  intros Hf. apply k_steady. intros s. specialize (Hf (p_env s) (pr_mm (prc s p))). destruct (f _ _) as [[a k] m]. cbn [snd] in *.
  etrans; [apply (steady_set_kernel s k)|]. apply steady_set_process. constructor; try done. constructor; try done. change (m_alive m = true -> alive (prc s p) = true). unfold alive. congruence.
Qed.
Lemma k_mm_of p : keeps I J (mm_of p).
Proof. apply k_get. Qed.
#[local] Hint Resolve k_mm_of : sys.

Lemma k_brk requested : keeps I J (sys_brk requested).
Proof. unfold sys_brk. sys_keeps. apply k_on_mm. intros. apply resize_alive. Qed.
Lemma k_mprotect address length prot : keeps I J (sys_mprotect address length prot).
Proof. unfold sys_mprotect. sys_keeps. apply k_on_mm. intros. apply protect_alive. Qed.
Lemma k_mmap requested length prot flags fd offset : keeps I J (sys_mmap requested length prot flags fd offset).
Proof.
  unfold sys_mmap. sys_keeps; apply k_on_mm; intros; [apply anonymous_alive|]. destruct (vfs_is_shared_memory _ _); [apply shared_alive|apply file_alive].
Qed.
Lemma k_munmap address length : keeps I J (sys_munmap address length).
Proof. unfold sys_munmap. sys_keeps. apply k_on_mm. intros. apply unmap_alive. Qed.

(** *** Descriptors *)

Lemma k_pipe user flags : keeps I J (sys_pipe_common bootstrap user flags).
Proof. unfold sys_pipe_common. sys_keeps. Qed.
Lemma k_dup fd minimum flags : keeps I J (sys_dup fd minimum flags).
Proof. unfold sys_dup. sys_keeps. Qed.
#[local] Hint Resolve k_dup : sys.
Lemma k_dup2 oldfd newfd : keeps I J (sys_dup2 oldfd newfd).
Proof. unfold sys_dup2. sys_keeps. apply k_steady_. intros s. apply steady_fds. Qed.
Lemma k_fcntl fd command argument : keeps I J (sys_fcntl fd command argument).
Proof.
  unfold sys_fcntl. sys_keeps. apply (k_set_process _ (fun q => q <| pr_fd_flags := (pr_fd_flags q).[fd <- Z.land (u32 argument) 1] |>)). intros q. by constructor.
Qed.
Lemma k_close fd : keeps I J (sys_close fd).
Proof. unfold sys_close. sys_keeps. Qed.
Lemma k_open user flags mode : keeps I J (sys_open_path bootstrap user flags mode).
Proof. unfold sys_open_path. sys_keeps. Qed.
#[local] Hint Resolve k_open : sys.
Lemma k_openat dirfd user flags mode : keeps I J (sys_openat_path bootstrap dirfd user flags mode).
Proof. unfold sys_openat_path. sys_keeps. Qed.
Lemma k_shm size : keeps I J (sys_shm_create size).
Proof. unfold sys_shm_create. sys_keeps. Qed.
Lemma k_send pid fd : keeps I J (sys_fd_send pid fd).
Proof. unfold sys_fd_send. sys_keeps. apply k_steady. intros s. apply send_fd_steady. Qed.
Lemma k_recv : keeps I J sys_fd_recv.
Proof. unfold sys_fd_recv. sys_keeps. apply k_steady. intros s. apply receive_fd_steady. Qed.
Lemma k_sync_fd fd : keeps I J (sys_sync_fd fd).
Proof. unfold sys_sync_fd. sys_keeps. Qed.
Lemma k_sync : keeps I J sys_sync.
Proof. unfold sys_sync. sys_keeps. Qed.
Lemma k_readlink user buffer capacity : keeps I J (sys_readlink_path bootstrap user buffer capacity).
Proof. unfold sys_readlink_path. sys_keeps. Qed.

Lemma k_prctl operation argument : keeps I J (sys_arch_prctl bootstrap operation argument).
Proof.
  unfold sys_arch_prctl. sys_keeps; apply k_steady_; intros s.
  - etrans; [apply (steady_set_thread s z (thr s z <| t_fs_base := argument |>)); steady_fields|]. by constructor.
  - etrans; [apply (steady_set_thread s z (thr s z <| t_gs_base := argument |>)); steady_fields|]. by constructor.
Qed.

(** *** Signals, time and polling *)

Lemma k_sigaction signal new old size : keeps I J (sys_rt_sigaction bootstrap signal new old size).
Proof.
  unfold sys_rt_sigaction. sys_keeps. match goal with |- context [action_of ?b] => apply (k_set_process _ (fun q => q <| pr_signal_actions := (pr_signal_actions q).[signal <- action_of b] |>)) end.
  intros q. by constructor.
Qed.
Lemma k_mask f : keeps I J (lift_ (fun s => process_set_signal_mask s (f s))).
Proof. apply k_steady_. intros s. apply set_mask_steady. Qed.
Lemma k_sigprocmask operation set old size : keeps I J (sys_rt_sigprocmask bootstrap operation set old size).
Proof. unfold sys_rt_sigprocmask. sys_keeps. apply (k_mask (fun _ => _)). Qed.
Lemma k_queued_info signal user : keeps I J (queued_info bootstrap signal user).
Proof. unfold queued_info. sys_keeps. Qed.
#[local] Hint Resolve k_queued_info : sys.
Lemma k_sigqueue pid signal user : keeps I J (sys_rt_sigqueueinfo bootstrap pid signal user).
Proof. unfold sys_rt_sigqueueinfo. sys_keeps. apply k_steady. intros s. apply send_signal_steady. Qed.
Lemma k_tgsigqueue tgid tid signal user : keeps I J (sys_rt_tgsigqueueinfo bootstrap tgid tid signal user).
Proof. unfold sys_rt_tgsigqueueinfo. sys_keeps. apply k_steady. intros s. apply send_thread_signal_steady. Qed.
Lemma k_kill pid signal : keeps I J (r ← lift (fun s => process_send_signal s pid signal); mret (u64 r)).
Proof. sys_keeps. apply k_steady. intros s. apply send_signal_steady. Qed.
Lemma k_tgkill tgid tid signal : keeps I J (r ← lift (fun s => process_send_thread_signal s tgid tid signal); mret (u64 r)).
Proof. sys_keeps. apply k_steady. intros s. apply send_thread_signal_steady. Qed.
Lemma k_clock id user : keeps I J (sys_clock_gettime bootstrap id user).
Proof. unfold sys_clock_gettime. sys_keeps. Qed.
Lemma k_nanosleep request remainder : keeps I J (sys_nanosleep bootstrap idle fuel request remainder).
Proof. unfold sys_nanosleep. sys_keeps. Qed.
Lemma k_timeout user : keeps I J (poll_timeout_ms bootstrap user).
Proof. unfold poll_timeout_ms. sys_keeps. Qed.
Lemma k_deadline timeout : keeps I J (deadline_of timeout).
Proof. unfold deadline_of. sys_keeps. Qed.
Lemma k_over timeout deadline : keeps I J (time_over timeout deadline).
Proof. apply k_get. Qed.
#[local] Hint Resolve k_timeout k_deadline k_over : sys.
Lemma k_usb : keeps I J (put usb_poll).
Proof. apply k_put. intros y [Hy Hf]. split; [by apply usb_O|by rewrite usb_frame]. Qed.
#[local] Hint Resolve k_usb : sys.
Lemma k_poll_loop n user timeout deadline pollfds : keeps I J (poll_loop bootstrap idle usb_poll fuel n user timeout deadline pollfds).
Proof. revert pollfds. induction n as [|n IH]; intros pollfds; cbn [poll_loop]; sys_keeps. Qed.
#[local] Hint Resolve k_poll_loop : sys.
Lemma k_poll_common user count timeout : keeps I J (sys_poll_common bootstrap idle usb_poll fuel user count timeout).
Proof. unfold sys_poll_common. sys_keeps. Qed.
#[local] Hint Resolve k_poll_common : sys.
Lemma k_poll user count timeout : keeps I J (sys_poll bootstrap idle usb_poll fuel user count timeout).
Proof. unfold sys_poll. sys_keeps. Qed.
Lemma k_ppoll user count timeout mask size : keeps I J (sys_ppoll bootstrap idle usb_poll fuel user count timeout mask size).
Proof. unfold sys_ppoll. sys_keeps; apply (k_mask (fun _ => _)). Qed.
Lemma k_epoll_create flags : keeps I J (sys_epoll_create1 flags).
Proof. unfold sys_epoll_create1. sys_keeps. Qed.
Lemma k_epoll_ctl epfd operation fd event : keeps I J (sys_epoll_ctl bootstrap epfd operation fd event).
Proof. unfold sys_epoll_ctl. sys_keeps. Qed.
Lemma k_events user i ready : keeps I J (copyout_events bootstrap user i ready).
Proof. revert i. induction ready as [|e ready IH]; intros i; cbn [copyout_events]; sys_keeps. Qed.
#[local] Hint Resolve k_events : sys.
Lemma k_epoll_loop n epfd user maxevents timeout deadline : keeps I J (epoll_loop bootstrap idle fuel n epfd user maxevents timeout deadline).
Proof. induction n as [|n IH]; cbn [epoll_loop]; sys_keeps. Qed.
#[local] Hint Resolve k_epoll_loop : sys.
Lemma k_epoll_wait epfd user maxevents timeout : keeps I J (sys_epoll_wait bootstrap idle fuel epfd user maxevents timeout).
Proof. unfold sys_epoll_wait. sys_keeps. Qed.

(** *** The display and the terminal *)

Lemma k_display_info user : keeps I J (sys_display_info bootstrap user).
Proof. unfold sys_display_info. sys_keeps. Qed.
Lemma k_pid_of p : keeps I J (pid_of p).
Proof. apply k_get. Qed.
#[local] Hint Resolve k_pid_of : sys.
Lemma k_display_claim : keeps I J sys_display_claim.
Proof. unfold sys_display_claim. sys_keeps. Qed.
Lemma k_display_owner : keeps I J display_owner.
Proof. unfold display_owner. sys_keeps. Qed.
#[local] Hint Resolve k_display_owner : sys.
Lemma k_display_map requested flags : keeps I J (sys_display_map requested flags).
Proof. unfold sys_display_map. sys_keeps. apply k_on_mm. intros. apply device_alive. Qed.
Lemma k_display_release : keeps I J sys_display_release.
Proof.
  unfold sys_display_release. sys_keeps. apply k_on_mm. intros k m. pose proof (revoke_alive k m) as R. by destruct (vm_revoke_device_mappings k m).
Qed.
Lemma k_take_events n capacity total : keeps I J (take_events n capacity total).
Proof. revert total. induction n as [|n IH]; intros total; cbn [take_events]; sys_keeps. Qed.
#[local] Hint Resolve k_take_events : sys.
Lemma k_input_read user capacity : keeps I J (sys_input_read bootstrap user capacity).
Proof. unfold sys_input_read. sys_keeps. Qed.
Lemma k_ioctl fd request user : keeps I J (sys_ioctl bootstrap fd request user).
Proof. unfold sys_ioctl. sys_keeps; by apply k_tty. Qed.

(** *** Programs *)

Lemma k_user_vector n vector i used strings : keeps I J (user_vector bootstrap n vector i used strings).
Proof. revert i used strings. induction n as [|n IH]; intros i used strings; cbn [user_vector]; sys_keeps. Qed.
#[local] Hint Resolve k_user_vector : sys.
Lemma k_vector vector used : keeps I J (copy_user_vector bootstrap vector used).
Proof. unfold copy_user_vector. sys_keeps. Qed.
Lemma k_kmalloc n : keeps I J (kmalloc_ n).
Proof. apply k_kernel. Qed.
Lemma k_kfree p : keeps I J (kfree_ p).
Proof. apply k_kernel_. Qed.
#[local] Hint Resolve k_vector k_kmalloc k_kfree : sys.
Lemma k_read_image path : keeps I J (read_image path).
Proof. unfold read_image. sys_keeps. Qed.

(** ** The end of a call

    From here on only the invariant itself is kept: the thread may have ended
    or given the processor away. *)

Let JF (y : sys) : Prop := J y /\ F (y_frame y).
Notation ends m := (triple JF J I m (fun (_ : Z) => JF)).
(** The same for a call that may change the frame. *)
Notation ends' m := (triple J J I m (fun (_ : Z) => J)).

Lemma IJF y : I y -> JF y.
Proof. intros H. split; [by apply IJ|apply H]. Qed.

Lemma top m : keeps I J m -> ends m.
Proof. intros H y Hy. specialize (H y Hy). pose proof IJ. pose proof IJF. destruct (m y) as [[x|[]] y']; auto. Qed.

Lemma weaken m : ends m -> ends' m.
Proof. intros H y Hy. specialize (H y Hy). destruct (m y) as [[x|[]] y']; try apply H. Qed.

(** An operation whose result goes to the program. *)
Lemma e_lift {A} (f : proc kernel -> A * proc kernel) (k : A -> M Z) :
  (forall s, O s -> proc_inv (f s).2) -> (forall a, triple JF J JF (k a) (fun _ => JF)) -> ends (lift f ≫= k).
Proof. intros Hf Hk. apply (t_bind _ _ _ (fun _ => JF)); [|exact Hk]. apply t_lift. intros y [Hy Hfr]. split; [by apply Hf|exact Hfr]. Qed.

Lemma jf_ret {A} (x : A) : triple JF J JF (mret x) (fun _ => JF).
Proof. by apply t_ret. Qed.
Lemma jf_stop {A} o : triple JF J JF (stop o : M A) (fun _ => JF).
Proof. apply t_stop; [done|]. by intros y [? _]. Qed.
Lemma j_ret {A} (x : A) : triple J J J (mret x) (fun _ => J).
Proof. by apply t_ret. Qed.

Lemma j_deliver : triple J J J (deliver_signal bootstrap) (fun _ => J).
Proof.
  intros y Hy. unfold deliver_signal. pose proof (deliver_syscall_inv (y_proc y) (y_frame y) Hy) as D.
  destruct (process_deliver_pending_signal_syscall (y_proc y) (y_frame y)) as [[d f] s]. cbn [snd] in D. destruct d; exact D.
Qed.

Lemma j_deliver_if (b : bool) (r : Z) : triple J J J ((if b then deliver_signal bootstrap else mret tt);; mret r) (fun _ => J).
Proof. apply (t_bind _ _ _ (fun _ => J)); [destruct b; [apply j_deliver|apply j_ret]|]. intros _. apply j_ret. Qed.

Lemma e_then_deliver m : keeps I J m -> ends' (then_deliver bootstrap m).
Proof.
  intros H. unfold then_deliver. apply (t_bind _ _ _ (fun _ => J)); [|intros x; apply j_deliver_if]. apply t_call. intros y Hy. specialize (H y Hy). pose proof IJ.
  destruct (m y) as [[x|[]] y']; auto.
Qed.

Context (O_live : forall s, O s -> running_live s) (O_user : forall s, O s -> user_mode s) (O_pid : forall s, O s -> p_next_pid s < UINT64_MAX).

Lemma e_yielding f : (forall s, O s -> proc_inv (f s).2) -> ends (yielding f).
Proof. intros H. apply e_lift; [done|]. intros [r|how]; [apply jf_ret|apply jf_stop]. Qed.

Lemma e_wait4 pid status options : ends (sys_wait4 bootstrap pid status options).
Proof. apply e_yielding. intros s Hs. apply wait4_inv; auto. Qed.

Lemma e_yield : ends (sys_sched_yield bootstrap).
Proof. apply e_lift; [intros s Hs; by apply yield_inv, O_inv|]. intros []; try apply jf_stop. apply jf_ret. Qed.

Lemma e_exit f : (forall s, O s -> proc_inv (f s)) -> ends (exit_then_yield bootstrap f).
Proof.
  intros H. apply (t_bind _ _ _ (fun _ => JF)); [apply t_put; intros y [Hy Hf]; split; [by apply H|exact Hf]|]. intros _. apply (t_bind _ _ _ (fun _ => JF)); [|intros; apply jf_stop].
  apply t_lift. intros y [Hy Hf]. split; [by apply yield_inv|exact Hf].
Qed.
Lemma e_exit_thread status : ends (exit_then_yield bootstrap (fun s => process_exit_thread_current s status)).
Proof.
  apply e_exit. intros s Hs. apply exit_thread_inv; [auto|]. intros t p Hr. split; [eapply user_mode_owner; [|apply O_user; exact Hs|exact Hr]; auto|].
  apply running_owner_spec in Hr as [Hc _]. by apply (O_live s Hs).
Qed.
Lemma e_exit_group status : ends (exit_then_yield bootstrap (fun s => process_exit_current s status)).
Proof. apply e_exit. intros s Hs. apply exit_current_inv; [auto|]. intros t p. apply user_mode_owner; auto. Qed.

Lemma e_fork f : ends (r ← lift (fun s => process_fork s f); mret (u64 r)).
Proof. apply e_lift; [|intros; apply jf_ret]. intros s Hs. apply fork_inv; auto. Qed.
Lemma e_clone flags stack parent_tid tls child_tid f : ends (r ← lift (fun s => process_clone s flags stack parent_tid tls child_tid f); mret (u64 r)).
Proof. apply e_lift; [|intros; apply jf_ret]. intros s Hs. apply clone_inv; auto. Qed.
Lemma e_set_tid address : ends (r ← lift (fun s => process_set_tid_address s address); mret (u64 r)).
Proof. apply e_lift; [|intros; apply jf_ret]. intros s Hs. eapply steady_proc_inv; [apply set_tid_steady|auto]. Qed.

Lemma e_sigreturn : ends' (sys_sigreturn bootstrap).
Proof.
  unfold sys_sigreturn. apply (t_bind _ _ _ (fun _ => J)).
  - intros y Hy. pose proof (sigreturn_steady (y_proc y) (y_frame y)) as S. destruct (process_sigreturn (y_proc y) (y_frame y)) as [[r f] s]. cbn [snd] in S.
    eapply steady_proc_inv; [exact S|]. by apply O_inv, Hy.
  - intros r. apply (t_bind _ _ _ (fun _ => J)); [by apply t_get|]. intros b. apply (t_bind _ _ _ (fun _ => J)); [destruct b; [apply j_ret|apply j_deliver]|]. intros _. apply j_ret.
Qed.

Lemma e_futex address operation value timeout : ends' (sys_futex_and_deliver bootstrap address operation value timeout).
Proof.
  unfold sys_futex_and_deliver. apply (t_bind _ _ _ (fun _ => J)); [|intros r; apply j_deliver_if].
  assert (T : ends (sys_futex bootstrap address operation value timeout)).
  { unfold sys_futex. unfold guard. apply (t_bind _ _ _ (fun _ => I)); [destruct (negb _); [by apply t_ret|apply t_answer, IJF]|]. intros _.
    apply (t_bind _ _ _ (fun _ => I)); [destruct (negb _); [by apply t_ret|apply t_answer, IJF]|]. intros _. cbv zeta. destruct (_ =? 0).
    - apply e_yielding. intros s Hs. apply futex_wait_inv; auto.
    - destruct (_ =? 1); [|apply t_answer, IJF]. apply e_lift; [|intros; apply jf_ret]. intros s Hs. eapply steady_proc_inv; [apply futex_wake_op_steady|auto]. }
  apply t_call. intros y Hy. specialize (T y Hy). destruct (sys_futex _ _ _ _ _ y) as [[x|[]] y']; try apply T. intros _. apply T.
Qed.

(** *** Replacing the program *)

(** The running thread is the main thread of its process. *)
Definition main_runs s : Prop := forall p, process_current s = Some p -> pr_main_thread (prc s p) = p_current s.

Lemma e_execve : (forall s, O s -> main_runs s) -> ends' (sys_execve bootstrap).
Proof.
  intros HM. unfold sys_execve.
  assert (B : forall A (m : M A) k, keeps I J m -> (forall x, ends' (k x)) -> ends' (m ≫= k)).
  { intros A m k Hm Hk. apply (t_bind _ _ _ (fun _ => I)); [|exact Hk]. intros y Hy. specialize (Hm y Hy). pose proof IJ. destruct (m y) as [[x|[]] y']; auto. }
  apply B; [apply k_get|]. intros p. apply B; [apply k_get|]. intros frame. apply B; [apply k_copy_user_string|]. intros [path|]; [|apply t_answer, IJ].
  apply B; [apply k_get|]. intros [resolved|]; [|apply t_answer, IJ]. apply B; [apply k_read_image|]. intros [image bytes]. apply B; [apply k_kmalloc|]. intros storage.
  destruct (_ =? 0); [apply B; [apply k_kfree|intros _; apply t_answer, IJ]|]. apply B; [apply k_vector|]. intros argv.
  apply B; [destruct argv as [[? ?]|]; [apply k_vector|apply k_ret]|]. intros envp.
  assert (Fl : ends' (kfree_ storage;; kfree_ image;; fail EFAULT)) by (apply B; [apply k_kfree|intros _]; apply B; [apply k_kfree|intros _; apply t_answer, IJ]).
  destruct argv as [[argv ?]|]; [|exact Fl]. destruct envp as [[envp ?]|]; [|exact Fl]. apply (t_bind _ _ _ (fun _ => J)).
  { intros y Hy. unfold exec_image. destruct (process_exec_current _ _ _ _ _) as [[[r f] s]|] eqn:E; [|by apply IJ]. cbn. eapply exec_current_inv; [by apply O_inv, Hy|by apply HM, Hy|exact E]. }
  intros result. assert (JK : forall A (m : M A) (k : A -> M Z), triple J J J m (fun _ => J) -> (forall x, triple J J J (k x) (fun _ => J)) -> triple J J J (m ≫= k) (fun _ => J)) by (intros; by eapply t_bind).
  assert (JP : forall f, (forall s, steady s (f s)) -> triple J J J (lift_ f) (fun (_ : unit) => J)) by (intros f Hf; apply t_put; intros y Hy; eapply steady_proc_inv; [apply Hf|exact Hy]).
  apply JK; [destruct (_ =? 0); [apply JP|apply j_ret]; intros s; destruct (process_current s); [apply set_path_steady|done]|]. intros _.
  apply JK; [apply JP; intros s; apply steady_set_kernel|]. intros _. apply JK; [apply JP; intros s; apply steady_set_kernel|]. intros _. apply j_ret.
Qed.

(** The calls that may change more of the frame than rax. *)
Definition frame_calls : list Z :=
  [NPK_SYS_EXECVE; NPK_SYS_FUTEX; NPK_SYS_RT_SIGRETURN; NPK_SYS_RT_SIGQUEUEINFO; NPK_SYS_RT_TGSIGQUEUEINFO; NPK_SYS_RT_SIGPROCMASK; NPK_SYS_KILL; NPK_SYS_TGKILL].

Definition ended (keep : Prop) (r : outcome * sys) : Prop :=
  J r.2 /\ match r.1 with Answer _ => keep -> F (y_frame r.2) | _ => True end.

Lemma dispatch_ends y : I y -> f_rax (y_frame y) <> NPK_SYS_EXECVE ->
  ended (f_rax (y_frame y) ∉ frame_calls) (run (syscall_dispatch bootstrap idle usb_poll fuel) y).
Proof.
  intros Hy Hn. assert (T : forall P (m : M Z), ends m -> ended P (run m y)).
  { intros P m Hm. specialize (Hm y Hy). unfold run. destruct (m y) as [[x|[]] y']; split; cbn; try apply Hm; try done; intros _; apply Hm. }
  assert (K : forall P (m : M Z), keeps I J m -> ended P (run m y)) by (intros P m Hm; by apply T, top).
  assert (T' : forall (P : Prop) (m : M Z), ~ P -> ends' m -> ended P (run m y)).
  { intros P m HP Hm. specialize (Hm y Hy). unfold run. destruct (m y) as [[x|[]] y']; split; cbn; try apply Hm; done. }
  unfold syscall_dispatch. change (run (get y_frame ≫= ?k) y) with (run (k (y_frame y)) y). cbv beta zeta.
  generalize (y_frame y) Hn. clear Hn. intros f Hn.
  repeat lazymatch goal with |- ended _ (run (if ?b then ?m else _) y) => destruct b eqn:Hb; [
    let h := head_of m in lazymatch h with
      | sys_read => apply K, k_read
      | sys_write => apply K, k_write
      | sys_readv => apply K, k_readv
      | sys_writev => apply K, k_writev
      | sys_stat_path => apply K, k_stat
      | sys_fstat => apply K, k_fstat
      | sys_lseek => apply K, k_lseek
      | sys_getcwd => apply K, k_getcwd
      | sys_chdir => apply K, k_chdir
      | sys_getdents64 => apply K, k_getdents
      | sys_poll => apply K, k_poll
      | sys_ppoll => apply K, k_ppoll
      | sys_epoll_create1 => apply K, k_epoll_create
      | sys_epoll_ctl => apply K, k_epoll_ctl
      | sys_epoll_wait => apply K, k_epoll_wait
      | sys_open_path => apply K, k_open
      | sys_openat_path => apply K, k_openat
      | sys_ioctl => apply K, k_ioctl
      | sys_readlink_path => apply K, k_readlink
      | sys_shm_create => apply K, k_shm
      | sys_display_info => apply K, k_display_info
      | sys_display_claim => apply K, k_display_claim
      | sys_display_map => apply K, k_display_map
      | sys_display_release => apply K, k_display_release
      | sys_input_read => apply K, k_input_read
      | sys_fd_send => apply K, k_send
      | sys_fd_recv => apply K, k_recv
      | sys_sync_fd => apply K, k_sync_fd
      | sys_sync => apply K, k_sync
      | sys_close => apply K, k_close
      | sys_pipe_common => apply K, k_pipe
      | sys_dup => apply K, k_dup
      | sys_dup2 => apply K, k_dup2
      | sys_fcntl => apply K, k_fcntl
      | sys_uname => apply K, k_uname
      | sys_mmap => apply K, k_mmap
      | sys_mprotect => apply K, k_mprotect
      | sys_munmap => apply K, k_munmap
      | sys_brk => apply K, k_brk
      | sys_nanosleep => apply K, k_nanosleep
      | sys_clock_gettime => apply K, k_clock
      | sys_arch_prctl => apply K, k_prctl
      | sys_rt_sigaction => apply K, k_sigaction
      | @get => apply K, k_get
      | sys_futex_and_deliver => apply T'; [apply Z.eqb_eq in Hb; rewrite Hb; set_solver|apply e_futex]
      | exit_then_yield => apply T; first [simple apply e_exit_thread|simple apply e_exit_group]
      | sys_wait4 => apply T, e_wait4
      | sys_sched_yield => apply T, e_yield
      | sys_sigreturn => apply T'; [apply Z.eqb_eq in Hb; rewrite Hb; set_solver|apply e_sigreturn]
      | then_deliver => apply T'; [apply Z.eqb_eq in Hb; rewrite Hb; set_solver|apply e_then_deliver]; first [simple apply k_sigqueue|simple apply k_tgsigqueue|simple apply k_sigprocmask|simple apply k_kill|simple apply k_tgkill]
      | sys_execve => by apply Z.eqb_eq in Hb
      | _ => apply T; first [simple apply e_fork|simple apply e_clone|simple apply e_set_tid]
      end|clear Hb] end.
  split; [by apply IJ|]. intros _. apply Hy.
Qed.
End Order.

(** ** Every call *)

Section Calls.
Context (bootstrap : Z).
#[local] Instance call_ops : ProcOps kernel := kernel_proc bootstrap.
Notation thr s i := ((p_threads s).[i]).
Notation prc s i := ((p_processes s).[i]).
Implicit Type s : proc kernel.

(** The tables are in order and a live thread of a user process runs. *)
Definition in_order s : Prop := proc_inv s /\ running_live s /\ user_mode s /\ p_next_pid s < UINT64_MAX.

Lemma in_order_steady s s' : steady s s' -> in_order s -> in_order s'.
Proof.
  intros S (I & R & U & N). split; [by eapply steady_proc_inv|]. split; [by eapply steady_running_live|]. split; [by eapply steady_user_mode|].
  by rewrite (proj1 (sd_next _ _ S)).
Qed.

Lemma in_order_blocked s t : in_order s -> p_current s = Some t -> in_order (set_thread s t (thr s t <| t_state := THREAD_BLOCKED |>)).
Proof.
  intros (I & R & U & N) Hc. destruct (block_inv s t (thr s t <| t_state := THREAD_BLOCKED |>)) as [I' R']; try done; [queue_fields|].
  split; [done|]. split; [done|]. split; [|done]. intros t' Ht'. change (p_current s = Some t') in Ht'. rewrite Hc in Ht'. injection Ht' as <-. rsimpl. rewrite aget_aset_eq. by apply U.
Qed.

Lemma in_order_away s t :
  in_order s -> p_current s = Some t -> proc_inv (set_thread s t (thr s t <| t_state := THREAD_BLOCKED |> <| t_privilege_ring := 0 |>)).
Proof.
  intros (I & R & U & N) Hc. apply retouch_ring_inv; try done; [by eapply current_range|queue_fields|by apply R].
Qed.

Lemma main_steady s s' : steady s s' -> main_runs s -> main_runs s'.
Proof.
  intros S Hm p. unfold process_current. rewrite (sd_current _ _ S). destruct (p_current s) as [t|] eqn:Ec; [|done]. destruct (sd_thread _ _ S t) as [[Co _ _ _ _ _] _]. rewrite Co.
  intros Ho. rewrite (spr_main _ _ (sd_process _ _ S p)), <-Ec. apply Hm. unfold process_current. by rewrite Ec.
Qed.

(** *** Reaping before the call *)

(** The running thread [t] and its process see nothing of it. *)
Record apart (t : Z) s s' : Prop := {
  ap_current : p_current s' = p_current s;
  ap_next : p_next_pid s' = p_next_pid s;
  ap_thread : steady_thread (thr s t) (thr s' t);
  ap_main : forall q, t_owner (thr s t) = Some q -> pr_main_thread (prc s' q) = pr_main_thread (prc s q) }.

Lemma apart_steady t s s' : steady s s' -> apart t s s'.
Proof. intros S. constructor; [apply S|apply S|apply S|]. intros q _. apply (sd_process _ _ S q). Qed.

Lemma apart_trans t s1 s2 s3 : apart t s1 s2 -> apart t s2 s3 -> apart t s1 s3.
Proof.
  intros [A1 A2 A3 A4] [B1 B2 B3 B4]. constructor; [congruence|congruence|by etrans|]. intros q Hq. rewrite B4; [by apply A4|]. destruct A3 as [[Co _ _ _ _ _] _]. congruence.
Qed.

Lemma reap_apart s t p : p_current s = Some t -> apart t s (reap_process s p).
Proof.
  intros Hc. unfold reap_process. destruct (_ || _); [by apply apart_steady|]. rewrite Hc. destruct (bool_decide_reflect (t_owner (thr s t) = Some p)) as [|Ho]; [by apply apart_steady|]. cbv zeta.
  assert (S : steady s (close_process_fds (destroy_process_memory s p) p)) by (etrans; [apply destroy_steady|apply close_process_fds_steady]).
  apply (apart_steady t) in S as A. assert (Ho1 : t_owner (thr (close_process_fds (destroy_process_memory s p) p) t) <> Some p) by (destruct (ap_thread _ _ _ A) as [[Co _ _ _ _ _] _]; congruence).
  eapply apart_trans; [exact A|]. clear A. generalize dependent (close_process_fds (destroy_process_memory s p) p). intros s1 _ Ho1.
  assert (L : apart t s1 (reap_threads s1 p) /\ p_processes (reap_threads s1 p) = p_processes s1).
  { apply (for_range_inv (fun _ s2 => apart t s1 s2 /\ p_processes s2 = p_processes s1)); [split; [by apply apart_steady|done]|]. intros k s2 _ [A E]. cbv beta zeta.
    destruct (bool_decide_reflect (t_owner (thr s2 k) = Some p)) as [Hk|]; [|done]. cbn [negb]. assert (Hne : k <> t) by (intros ->; destruct (ap_thread _ _ _ A) as [[Co _ _ _ _ _] _]; congruence).
    split; [|by destruct (_ && _)]. eapply apart_trans; [exact A|]. match goal with |- apart t s2 (set_thread ?x k zero_thread) => set (s3 := x) end.
    assert (T : p_threads s3 = p_threads s2 /\ p_current s3 = p_current s2 /\ p_next_pid s3 = p_next_pid s2 /\ p_processes s3 = p_processes s2) by (subst s3; by destruct (_ && _)).
    clearbody s3. destruct T as (T1 & T2 & T3 & T4). constructor; try done; rsimpl; [by rewrite aget_aset_ne, T1|by rewrite T4]. }
  destruct L as [A E]. revert A E. generalize (reap_threads s1 p). intros s2 A E. eapply apart_trans; [exact A|]. constructor; try done. intros q Hq. destruct (ap_thread _ _ _ A) as [[Co _ _ _ _ _] _]. rewrite Co in Hq. rsimpl. rewrite aget_aset_ne; [done|congruence].
Qed.

Lemma reap_pending_apart s t : p_current s = Some t -> apart t s (process_reap_pending s).
Proof.
  intros Hc. unfold process_reap_pending. destruct (process_current s) as [parent|]; [|by apply apart_steady]. destruct (_ =? 0); [by apply apart_steady|]. cbv zeta.
  set (s1 := set_process s parent _). assert (S : steady s s1) by (apply steady_set_process; by constructor). assert (Hc1 : p_current s1 = Some t) by exact Hc. clearbody s1.
  destruct (find_process_by_pid s1 _) as [child|]; [|by apply apart_steady]. destruct (_ && _); [|by apply apart_steady].
  eapply apart_trans; [apply apart_steady; exact S|]. by apply reap_apart.
Qed.

Lemma reap_in_order s : in_order s -> in_order (process_reap_pending s).
Proof.
  intros (I & R & U & N). destruct (pi_current _ _ _ (proj1 I)) as (t & Hc & _). pose proof (reap_pending_apart s t Hc) as [A1 A2 [[_ _ Ar _ _ _] Al] _].
  split; [by apply reap_pending_inv|]. split; [|split; [|by rewrite A2]]; intros t' Ht'; rewrite A1, Hc in Ht'; injection Ht' as <-; [rewrite Al; by apply R|rewrite Ar; by apply U].
Qed.

Lemma reap_main s : in_order s -> main_runs s -> main_runs (process_reap_pending s).
Proof.
  intros (I & _) Hm p. destruct (pi_current _ _ _ (proj1 I)) as (t & Hc & _). pose proof (reap_pending_apart s t Hc) as [A1 _ [[Ao _ _ _ _ _] _] A4]. unfold process_current. rewrite A1, Hc, Ao.
  intros Ho. rewrite (A4 p Ho), <-Hc. apply Hm. unfold process_current. by rewrite Hc.
Qed.

(** What happens while a call waits: the tables stay in order, and the frame of
    the call, on its kernel stack, is its own. *)
Definition quiet (f : sys -> sys) : Prop := forall y, (in_order (y_proc y) -> in_order (y_proc (f y))) /\ y_frame (f y) = y_frame y.

(** The state [syscall_dispatch] is called in. *)
Definition entered (y : sys) (raw : frame) : sys :=
  let s := y_proc y in
  let s := match p_current s with Some t => set_thread s t (thr s t <| t_saved_interrupt_frame := Some raw |> <| t_saved_frame_kind := 1 |>) | None => s end in
  y <| y_proc := process_reap_pending s |> <| y_frame := frame_of_raw raw |>.

Lemma entered_in_order y raw : in_order (y_proc y) -> in_order (y_proc (entered y raw)) /\ (main_runs (y_proc y) -> main_runs (y_proc (entered y raw))).
Proof.
  intros Ho. unfold entered. cbv zeta. set (s1 := match p_current _ with Some t => _ | None => _ end).
  assert (S : steady (y_proc y) s1) by (subst s1; destruct (p_current _); [apply steady_set_thread; steady_fields|done]). pose proof (in_order_steady _ _ S Ho) as O1.
  pose proof (main_steady _ _ S) as M1. clearbody s1. split; [exact (reap_in_order s1 O1)|]. intros H. exact (reap_main s1 O1 (M1 H)).
Qed.

Section Waiting.
Context (idle usb_poll : sys -> sys) (fuel : nat) (Hi : quiet idle) (Hu : quiet usb_poll).
Let dispatch : M Z := syscall_dispatch bootstrap idle usb_poll fuel.

Lemma dispatch_in_order F y : in_order (y_proc y) -> F (y_frame y) -> f_rax (y_frame y) <> NPK_SYS_EXECVE ->
  ended F (f_rax (y_frame y) ∉ frame_calls) (run dispatch y).
Proof.
  intros Ho Hf Hn. apply (dispatch_ends bootstrap idle usb_poll fuel in_order in_order_steady); try done; try (intros; by apply Hi || by apply Hu);
    [by intros s [? _]|apply in_order_blocked|apply in_order_away|by intros s (_ & ? & _)|by intros s (_ & _ & ? & _)|by intros s (_ & _ & _ & ?)].
Qed.

Lemma dispatch_execve y : in_order (y_proc y) -> main_runs (y_proc y) -> f_rax (y_frame y) = NPK_SYS_EXECVE -> proc_inv (y_proc (run dispatch y).2).
Proof.
  intros Ho Hm E. assert (X : run dispatch y = run (sys_execve bootstrap) y) by (unfold dispatch, syscall_dispatch, run, mbind, sys_bind, get; cbv zeta; rewrite E; reflexivity).
  rewrite X. unfold run. pose proof (e_execve bootstrap (fun s => in_order s /\ main_runs s)) as T.
  unshelve epose proof (T _ _ (fun _ => True) _ y (conj (conj Ho Hm) Logic.I)) as R; [|intros s [[? _] _]; done|by intros s [_ ?]|destruct (sys_execve bootstrap y) as [[r|[]] y2]; exact R].
  intros s s' Ss [A B]. split; [by eapply in_order_steady|by eapply main_steady].
Qed.


(** C4: A call that returns gives the program its registers back: all of them but
    rax, which holds the result, are what they were, for every call but execve,
    sigreturn and those after which a signal may be delivered. *)
Theorem syscall_registers y raw result raw' y' :
  in_order (y_proc y) -> raw.[0] ∉ frame_calls -> syscall_dispatch_asm bootstrap idle usb_poll fuel y raw = (Answer result, raw', y') ->
  raw'.[0] = result /\ forall i, 0 < i < 20 -> raw'.[i] = raw.[i].
Proof.
  intros Ho Hn. destruct (entered_in_order y raw Ho) as [O1 _]. assert (Hne : raw.[0] <> NPK_SYS_EXECVE) by (intros E; apply Hn; rewrite E; set_solver).
  pose proof (dispatch_in_order (fun f => f = frame_of_raw raw) (entered y raw) O1 eq_refl Hne) as [_ R].
  unfold syscall_dispatch_asm. cbv zeta. fold dispatch. unfold entered in R. destruct (run dispatch _) as [o y2]. cbn [fst snd] in R. destruct o; try done. intros [= <- <- <-].
  rewrite (R Hn). split; [apply aget_aset_eq|]. intros i Hr. rewrite aget_aset_ne by lia. unfold raw_of_frame, frame_of_raw. cbn [f_rax f_rbx f_rcx f_rdx f_rsi f_rdi f_rbp f_r8 f_r9 f_r10 f_r11 f_r12 f_r13 f_r14 f_r15 f_rip f_cs f_rflags f_rsp f_ss].
  rewrite !aget_aset. repeat (case_decide; [by subst|]). lia.
Qed.
End Waiting.
End Calls.
