(* ===== verification/SysRefs.v ===== *)
(** * System calls and the references of descriptors

    Every reference the VFS counts is a slot of a descriptor table, a descriptor
    on its way from one process to another, a mapping, or a watch of an epoll
    set: the calls on files keep this, on every path through them. *)

From Stdlib Require Import ZArith Lia Bool ZifyBool.
From stdpp Require Import base numbers list gmap strings.
From S2P Require Import Prelude Kstring Keyboard Gop Console Pmm Vmm Heap Kmem Vm Path Newc Npkfs Procfs Vfs VfsPipe VfsRefs VfsClose VfsOps VfsRun Proc ProcMem Signal Futex ProcStep Sched ProcInv ProcRun ProcLife Elf Exec ProcReach Kernel KernelExec Syscall SysInv.

Open Scope Z_scope.
Open Scope npk_scope.

(** ** Steps beside the files *)

(** The files are the same and their objects still live. *)
Definition beside (k k' : kernel) : Prop := exists m, k' = set_env k m /\ ve_live (v_env k) ⊆ ve_live m.

Lemma set_env_twice (k : kernel) m m' : set_env (set_env k m) m' = set_env k m'.
Proof. done. Qed.
Lemma set_env_same (k : kernel) : set_env k (v_env k) = k.
Proof. by destruct k. Qed.

#[export] Instance beside_preorder : PreOrder beside.
Proof.
  split; [intros k; exists (v_env k); by rewrite set_env_same|]. intros k1 k2 k3 (m & -> & H1) (m' & -> & H2). exists m'. split; [done|]. etrans; [exact H1|exact H2].
Qed.

Lemma beside_same k k' : beside k k' -> same_state k k'.
Proof. intros (m & -> & H). constructor; try done; [apply pipes_like_refl|]. intros kd ptr _ Hl. by apply H. Qed.

Lemma beside_platform f k : (forall m, ve_live (f m) = ve_live m) -> beside k (in_platform_ f k).
Proof. intros H. exists (f (v_env k)). split; [done|]. by rewrite H. Qed.
Lemma beside_platform2 {A} (f : platform -> A * platform) k : (forall m, ve_live (f m).2 = ve_live m) -> beside k (in_platform f k).2.
Proof. intros H. unfold in_platform. specialize (H (v_env k)). destruct (f (v_env k)) as [a m] eqn:E. exists m. split; [done|]. cbn [snd] in H. by rewrite H. Qed.

Lemma live_on_vmm_ f m : ve_live (on_vmm_ f m) = ve_live m.
Proof. done. Qed.
Lemma live_on_vmm {A} (f : vmm -> A * vmm) m : ve_live (on_vmm f m).2 = ve_live m.
Proof. unfold on_vmm, on_heap. by destruct (f (pages (kh_mem (mc_heap m)))). Qed.
Lemma beside_vmm_ f k : beside k (in_platform_ (on_vmm_ f) k).
Proof. by apply beside_platform. Qed.
Lemma beside_vmm {A} (f : vmm -> A * vmm) k : beside k (in_platform (on_vmm f) k).2.
Proof. apply beside_platform2. intros m. apply live_on_vmm. Qed.

(** *** User memory *)

Section Memory.
Context (bootstrap : Z).
#[local] Instance refs_ops : ProcOps kernel := kernel_proc bootstrap.
Implicit Types (k : kernel) (m : mm).

Lemma beside_alloc k : beside k (vo_alloc_page k).2.
Proof. apply beside_vmm. Qed.
Lemma beside_map k root va pa flags : beside k (vo_map_page_root k root va pa flags).2.
Proof. apply beside_vmm. Qed.
Lemma beside_free k p : beside k (vo_free_page k p).
Proof. apply beside_vmm_. Qed.
Lemma beside_zero k p : beside k (vo_zero_page k p).
Proof. apply beside_vmm_. Qed.
Lemma beside_read_at k fd p count offset : beside k (vo_vfs_read_at k fd p count offset).2.
Proof. cbn. destruct (vfs_read_at _ _ _ _ _). apply beside_vmm_. Qed.
Lemma beside_retain k p : beside k (vo_retain_page k p).
Proof. apply beside_vmm_. Qed.

Lemma beside_cow k root va : beside k (vo_resolve_cow_fault k root va).2.
Proof. apply beside_vmm. Qed.
Lemma beside_write k p bytes : beside k (po_write k p bytes).
Proof. apply beside_vmm_. Qed.

(** Runs through an operation on pages. *)
Ltac beside_call L x := let H := fresh in pose proof L as H; destruct x as [? ?]; cbn [snd] in H.
Ltac beside_end := cbn [snd]; first
  [ reflexivity | assumption
  | match goal with H : beside ?k1 ?k2 |- beside ?k ?k2 => etrans; [|exact H]; beside_end end
  | etrans; [|apply beside_free]; beside_end | etrans; [|apply beside_zero]; beside_end | etrans; [|apply beside_retain]; beside_end ].
Ltac beside_ops := repeat (cbv zeta; match goal with
  | |- context [vo_alloc_page ?k] => beside_call (beside_alloc k) (vo_alloc_page k)
  | |- context [vo_map_page_root ?k ?a ?b ?c ?d] => beside_call (beside_map k a b c d) (vo_map_page_root k a b c d)
  | |- context [vo_vfs_read_at ?k ?a ?b ?c ?d] => beside_call (beside_read_at k a b c d) (vo_vfs_read_at k a b c d)
  | |- beside _ (if ?b then _ else _).2 => destruct b
  | |- context [let '(_, _) := if ?b then _ else _ in _] => destruct b
  | |- context [if negb ?b then _ else _] => destruct b; cbn [negb]
  end); beside_end.

Lemma beside_zero_page k m page protection : beside k (map_zero_page k m page protection).2.
Proof. unfold map_zero_page. beside_ops. Qed.
Lemma beside_file_page k m v page : beside k (map_file_page k m v page).2.
Proof. unfold map_file_page. beside_ops. Qed.
Lemma beside_shared_page k m v page : beside k (map_shared_page k m v page).2.
Proof. unfold map_shared_page. beside_ops. Qed.

Lemma beside_materialise k m vma page protection stack : beside k (materialise k m vma page protection stack).1.2.
Proof.
  unfold materialise. match goal with |- context [let '(_, _) := ?x in _] => assert (H : beside k x.2); [|destruct x as [mapped k1]] end.
  - destruct vma as [v|]; [|apply beside_zero_page]. destruct (hasb _ _); [apply beside_shared_page|]. destruct (_ >=? _); [apply beside_file_page|apply beside_zero_page].
  - cbn [snd] in H. by destruct mapped.
Qed.

Lemma beside_ensure k m address write : beside k (vm_ensure_user_page k m address write).1.2.
Proof.
  unfold vm_ensure_user_page. destruct (_ || _); [done|]. cbv zeta. destruct (negb _); [done|]. destruct (beyond_brk _ _ _); [done|]. destruct (_ && _); [done|].
  destruct (_ && _ && _); [done|]. destruct (_ && _ && _); [done|]. apply beside_materialise.
Qed.

Lemma beside_writable cow k m root a : beside k (writable_frame cow k m root a).1.2.
Proof.
  unfold writable_frame. cbv zeta. match goal with |- context [let '(_, _) := ?x in _] => assert (H : beside k x.2); [|destruct x as [ph k1]] end.
  - destruct (cow && _); [|done]. pose proof (beside_cow k root a) as C. by destruct (vo_resolve_cow_fault k root a).
  - cbn [snd] in H. destruct (ph =? 0); [|exact H]. pose proof (beside_ensure k1 m a true) as C. destruct (vm_ensure_user_page k1 m a true) as [[? ?] ?]. cbn [fst snd] in *. by etrans.
Qed.
Lemma beside_readable k m root a : beside k (readable_frame k m root a).1.2.
Proof.
  unfold readable_frame. cbv zeta. destruct (_ =? 0); [|done]. pose proof (beside_ensure k m a false) as C. by destruct (vm_ensure_user_page k m a false) as [[? ?] ?].
Qed.

Lemma beside_write_user fuel cow : forall k m root a bytes, beside k (write_user fuel cow k m root a bytes).1.2.
Proof.
  induction fuel as [|fuel IH]; intros k m root a bytes; destruct bytes as [|b bytes]; try done. cbn [write_user]. pose proof (beside_writable cow k m root a) as W.
  destruct (writable_frame cow k m root a) as [[ph k1] m1]. cbn [fst snd] in W. destruct (ph =? 0); [exact W|]. cbv zeta. etrans; [exact W|]. etrans; [apply beside_write|]. apply IH.
Qed.
Lemma beside_read_user fuel : forall k m root a n, beside k (read_user fuel k m root a n).1.2.
Proof.
  induction fuel as [|fuel IH]; intros k m root a n; [done|]. cbn [read_user]. destruct (n <=? 0); [done|]. pose proof (beside_readable k m root a) as R.
  destruct (readable_frame k m root a) as [[ph k1] m1]. cbn [fst snd] in R. destruct (ph =? 0); [exact R|]. cbv zeta.
  specialize (IH k1 m1 root (u64 (a + (if n <? page_left a then n else page_left a))) (n - (if n <? page_left a then n else page_left a))).
  destruct (read_user fuel k1 m1 root _ _) as [[r k2] m2]. cbn [fst snd] in *. by etrans.
Qed.

Lemma beside_copyin s a n : beside (p_env s) (p_env (vmm_copyin s a n).2).
Proof.
  unfold vmm_copyin. destruct (negb _); [done|]. destruct (process_current s) as [p|].
  - pose proof (beside_read_user (Z.to_nat n) (p_env s) (pr_mm (p_processes s).[p]) (copy_root s) a n) as R. by destruct (read_user _ _ _ _ _ _) as [[? ?] ?].
  - pose proof (beside_read_user (Z.to_nat n) (p_env s) zero_mm (copy_root s) a n) as R. by destruct (read_user _ _ _ _ _ _) as [[? ?] ?].
Qed.
Lemma beside_copyout s a bytes : beside (p_env s) (p_env (vmm_copyout s a bytes).2).
Proof.
  unfold vmm_copyout. destruct (negb _); [done|]. destruct (process_current s) as [p|].
  - pose proof (beside_write_user (length bytes) true (p_env s) (pr_mm (p_processes s).[p]) (copy_root s) a bytes) as R. by destruct (write_user _ _ _ _ _ _ _) as [[? ?] ?].
  - pose proof (beside_write_user (length bytes) true (p_env s) zero_mm (copy_root s) a bytes) as R. by destruct (write_user _ _ _ _ _ _ _) as [[? ?] ?].
Qed.
End Memory.

(** ** References *)

Definition ref (handle fd : Z) : Z := if handle =? fd then 1 else 0.
Fixpoint refs (l : list Z) (fd : Z) : Z := match l with [] => 0 | h :: l' => ref h fd + refs l' fd end.

Definition handles_of (m : mm) : list Z := v_backing_handle <$> m_vmas m.

(** What a process holds: its descriptors, the ones it was sent, its mappings. *)
Definition process_refs (p : process) (fd : Z) : Z :=
  sumz (fun i => ref (pr_fds p).[i] fd) 0 (Z.to_nat NPK_MAX_FDS) + sumz (fun i => ref ((pr_incoming p).[i]).1 fd) 0 (Z.to_nat (pr_incoming_fd_count p)) +
  refs (handles_of (pr_mm p)) fd.
Definition held (s : proc kernel) (fd : Z) : Z := sumz (fun i => process_refs (p_processes s).[i] fd) 0 (Z.to_nat NPK_MAX_PROCESSES).

(** The references are exactly these, besides the handles [l] the running call
    has in its variables. *)
Record accounted (l : list Z) (s : proc kernel) : Prop := {
  ac_vfs : vfs_inv (p_env s) (fun fd => held s fd + refs l fd) [] [];
  ac_counts : forall p, 0 <= pr_incoming_fd_count (p_processes s).[p];
  ac_current : forall p, process_current s = Some p -> 0 <= p < NPK_MAX_PROCESSES }.

Lemma ref_nonneg h fd : 0 <= ref h fd.
Proof. unfold ref. destruct (h =? fd); lia. Qed.
Lemma refs_nonneg l fd : 0 <= refs l fd.
Proof. induction l as [|h l IH]; cbn; [lia|]. pose proof (ref_nonneg h fd). lia. Qed.
Lemma process_refs_nonneg p fd : 0 <= process_refs p fd.
Proof.
  unfold process_refs. pose proof (refs_nonneg (handles_of (pr_mm p)) fd).
  pose proof (sumz_nonneg (fun i => ref (pr_fds p).[i] fd) 0 (Z.to_nat NPK_MAX_FDS) (fun k _ => ref_nonneg _ _)).
  pose proof (sumz_nonneg (fun i => ref ((pr_incoming p).[i]).1 fd) 0 (Z.to_nat (pr_incoming_fd_count p)) (fun k _ => ref_nonneg _ _)). lia.
Qed.
Lemma all_held_nonneg s fd : 0 <= held s fd.
Proof. apply sumz_nonneg. intros. apply process_refs_nonneg. Qed.

(** A process as far as references go. *)
Definition same_refs (p p' : process) : Prop :=
  pr_fds p' = pr_fds p /\ pr_incoming p' = pr_incoming p /\ pr_incoming_fd_count p' = pr_incoming_fd_count p /\ handles_of (pr_mm p') = handles_of (pr_mm p).
Lemma same_process_refs p p' fd : same_refs p p' -> process_refs p' fd = process_refs p fd.
Proof. intros (E1 & E2 & E3 & E4). unfold process_refs. by rewrite E1, E2, E3, E4. Qed.

(** Steps beside files, descriptors and mappings. *)
Record apart_from_files (s s' : proc kernel) : Prop := {
  af_env : same_state (p_env s) (p_env s');
  af_process : forall i, same_refs (p_processes s).[i] (p_processes s').[i];
  af_current : process_current s' = process_current s }.

Lemma accounted_apart l s s' : apart_from_files s s' -> accounted l s -> accounted l s'.
Proof.
  intros [E P C] [A1 A2 A3]. assert (Hh : forall fd, held s' fd = held s fd) by (intros fd; apply sumz_ext; intros i _; by apply same_process_refs).
  constructor; [|intros p; destruct (P p) as (_ & _ & -> & _); apply A2|by rewrite C]. eapply inv_own_ext; [|eapply inv_frame; [exact E|exact A1]]. intros fd _. cbv beta. by rewrite Hh.
Qed.

Lemma apart_env s k : same_state (p_env s) k -> apart_from_files s (set_kernel s k).
Proof. intros H. constructor; [exact H|by intros i|done]. Qed.
Lemma apart_beside s k : beside (p_env s) k -> apart_from_files s (set_kernel s k).
Proof. intros H. by apply apart_env, beside_same. Qed.

Lemma apart_mem s s' : mem_step s s' -> beside (p_env s) (p_env s') -> apart_from_files s s'.
Proof.
  intros [M1 M2 M3 M4 M5 M6] B. constructor; [by apply beside_same| |unfold process_current; by rewrite M1, M3].
  intros i. destruct (M6 i) as (m & -> & _ & _ & Hv). split_and!; try done. unfold handles_of. cbn. by rewrite Hv.
Qed.

Lemma apart_process s p q : same_refs (p_processes s).[p] q -> apart_from_files s (set_process s p q).
Proof. intros H. constructor; [apply same_state_refl| |done]. intros i. cbn. rewrite aget_aset. by case_decide; [subst|]. Qed.

(** One process changes. *)
Lemma held_set s p q fd : 0 <= p < NPK_MAX_PROCESSES -> held (set_process s p q) fd = held s fd + (process_refs q fd - process_refs (p_processes s).[p] fd).
Proof.
  intros Hp. unfold held. rewrite (sumz_update _ (fun i => process_refs (p_processes s).[i] fd) 0 (Z.to_nat NPK_MAX_PROCESSES) p).
  - cbn. by rewrite aget_aset_eq.
  - unfold NPK_MAX_PROCESSES in *. lia.
  - intros i Hi. cbn. by rewrite aget_aset_ne by congruence.
Qed.

(** One slot of a descriptor table. *)
Lemma process_refs_slot p i h flags fd : 0 <= i < NPK_MAX_FDS ->
  process_refs (p <| pr_fds := (pr_fds p).[i <- h] |> <| pr_fd_flags := flags |>) fd = process_refs p fd + (ref h fd - ref (pr_fds p).[i] fd).
Proof.
  intros Hi. unfold process_refs. cbn. rewrite (sumz_update (fun j => ref ((pr_fds p).[i <- h]).[j] fd) (fun j => ref (pr_fds p).[j] fd) 0 (Z.to_nat NPK_MAX_FDS) i).
  - rewrite aget_aset_eq. lia.
  - unfold NPK_MAX_FDS in *. lia.
  - intros j Hj. by rewrite aget_aset_ne by congruence.
Qed.

Lemma held_slot s p i : 0 <= p < NPK_MAX_PROCESSES -> 0 <= i < NPK_MAX_FDS -> 1 <= held s (pr_fds (p_processes s).[p]).[i].
Proof.
  intros Hp Hi. set (h := (pr_fds (p_processes s).[p]).[i]). transitivity (process_refs (p_processes s).[p] h).
  - transitivity (sumz (fun j => ref (pr_fds (p_processes s).[p]).[j] h) 0 (Z.to_nat NPK_MAX_FDS)).
    + transitivity (ref (pr_fds (p_processes s).[p]).[i] h); [unfold ref, h; by rewrite Z.eqb_refl|]. apply (sumz_term (fun j => ref (pr_fds (p_processes s).[p]).[j] h)); [intros; apply ref_nonneg|unfold NPK_MAX_FDS in *; lia].
    + unfold process_refs. pose proof (refs_nonneg (handles_of (pr_mm (p_processes s).[p])) h).
      pose proof (sumz_nonneg (fun i => ref ((pr_incoming (p_processes s).[p]).[i]).1 h) 0 (Z.to_nat (pr_incoming_fd_count (p_processes s).[p])) (fun k _ => ref_nonneg _ _)). lia.
  - apply (sumz_term (fun j => process_refs (p_processes s).[j] h)); [intros; apply process_refs_nonneg|unfold NPK_MAX_PROCESSES in *; lia].
Qed.

(** *** Handles in variables *)

Lemma refs_cons h l fd : refs (h :: l) fd = ref h fd + refs l fd.
Proof. done. Qed.

Lemma bump_ref own h n fd : bump own h n fd = own fd + n * ref h fd.
Proof. unfold bump, ref. destruct (fd =? h) eqn:E, (h =? fd) eqn:E'; lia. Qed.

Lemma no_ref h fd : h < 0 -> in_table fd -> ref h fd = 0.
Proof. intros Hh Ht. unfold ref. replace (h =? fd) with false; [done|]. unfold in_table, OPEN_DESCRIPTOR_BASE, MAX_INITRD_FILES in Ht. lia. Qed.

(** The files change and the owners with them. *)
Lemma accounted_env l l' s k : accounted l s -> vfs_inv k (fun fd => held s fd + refs l' fd) [] [] -> accounted l' (set_kernel s k).
Proof. intros [A1 A2 A3] I. by constructor. Qed.

Lemma accounted_close h l s : accounted (h :: l) s -> accounted l (set_kernel s (vfs_close (p_env s) h).2).
Proof.
  intros A. apply (accounted_env _ _ _ _ A). eapply inv_own_ext; [|apply (vfs_close_ref _ _ h (ac_vfs _ _ A))].
  - intros fd _. rewrite bump_ref, refs_cons. lia.
  - intros _. rewrite refs_cons. pose proof (all_held_nonneg s h). pose proof (refs_nonneg l h). unfold ref. rewrite Z.eqb_refl. lia.
Qed.

Lemma accounted_retain h l s : accounted l s -> let r := vfs_retain (p_env s) h in accounted (if r.1 =? 0 then h :: l else l) (set_kernel s r.2).
Proof.
  intros A. destruct (vfs_retain_inv (p_env s) _ h (ac_vfs _ _ A)) as [I _]. apply (accounted_env _ _ _ _ A). destruct (_ =? 0); [|exact I].
  eapply inv_own_ext; [|exact I]. intros fd _. rewrite bump_ref, refs_cons. lia.
Qed.

Lemma accounted_opens l s (r : Z * kernel) : accounted l s -> opens (fun fd => held s fd + refs l fd) r -> accounted (if r.1 <? 0 then l else r.1 :: l) (set_kernel s r.2).
Proof.
  intros A O. apply (accounted_env _ _ _ _ A). destruct r as [h k]. unfold opens, granted in O. cbn [fst snd] in *. destruct (h <? 0); [exact O|]. eapply inv_own_ext; [|exact O]. intros fd _. rewrite bump_ref, refs_cons. lia.
Qed.

Lemma accounted_pipe l s : accounted l s -> let r := vfs_pipe_create (p_env s) in accounted (match r.1.2 with Some (a, b) => a :: b :: l | None => l end) (set_kernel s r.2).
Proof.
  intros A. apply (accounted_env _ _ _ _ A). pose proof (vfs_pipe_create_inv (p_env s) _ (ac_vfs _ _ A)) as I. unfold granted_pair in I. destruct (vfs_pipe_create (p_env s)).1.2 as [[a b]|]; [|exact I].
  eapply inv_own_ext; [|exact I]. intros fd _. rewrite !bump_ref, !refs_cons. lia.
Qed.

(** *** Descriptor tables *)

(** A slot that is free takes a handle. *)
Lemma accounted_store h l s p i flags :
  accounted (h :: l) s -> 0 <= p < NPK_MAX_PROCESSES -> 0 <= i < NPK_MAX_FDS -> (pr_fds (p_processes s).[p]).[i] < 0 ->
  accounted l (set_process s p ((p_processes s).[p] <| pr_fds := (pr_fds (p_processes s).[p]).[i <- h] |> <| pr_fd_flags := flags |>)).
Proof.
  intros [A1 A2 A3] Hp Hi Hs. constructor; [|intros q; cbn; rewrite aget_aset; case_decide; [by subst; apply A2|apply A2]|exact A3].
  eapply inv_own_ext; [|exact A1]. intros fd Ht. rewrite held_set, process_refs_slot, refs_cons by done. rewrite (no_ref _ _ Hs Ht). lia.
Qed.

Lemma accounted_install h l s p minimum flags :
  accounted (h :: l) s -> 0 <= p < NPK_MAX_PROCESSES ->
  let r := process_install_fd s p h minimum flags in accounted (if r.1 <? 0 then h :: l else l) r.2.
Proof.
  intros A Hp. unfold process_install_fd. destruct (_ || _) eqn:E; [exact A|]. destruct (find_index _ _ _) as [i|] eqn:Ei; [|exact A]. apply find_index_Some in Ei as (Hi & Hf & _). cbn [fst snd].
  unfold NPK_MAX_FDS in *. replace (i <? 0) with false by lia. apply accounted_store; [done|done|unfold NPK_MAX_FDS; lia|lia].
Qed.

Lemma accounted_forget l s p fd : accounted l s -> 0 <= p < NPK_MAX_PROCESSES -> accounted l (process_forget_fd s p fd).
Proof.
  intros A Hp. unfold process_forget_fd. destruct (_ || _) eqn:E; [exact A|]. cbv zeta. set (h := (pr_fds (p_processes s).[p]).[fd]) in *.
  assert (Hi : 0 <= fd < NPK_MAX_FDS) by lia. pose proof (held_slot s p fd Hp Hi) as Hh. fold h in Hh.
  assert (I : vfs_inv (vfs_close (p_env s) h).2 (bump (fun x => held s x + refs l x) h (-1)) [] []).
  { apply vfs_close_ref; [apply A|]. intros _. pose proof (refs_nonneg l h). lia. }
  destruct A as [A1 A2 A3]. constructor; [|intros q; cbn; rewrite aget_aset; case_decide; [by subst; apply A2|apply A2]|exact A3].
  eapply inv_own_ext; [|exact I]. intros x Ht. rewrite bump_ref. change (held (set_process (set_kernel s (vfs_close (p_env s) h).2) p ?q) x) with (held (set_process s p q) x).
  rewrite held_set by done. change ((p_processes (set_kernel s (vfs_close (p_env s) h).2)).[p]) with ((p_processes s).[p]). rewrite process_refs_slot by done. fold h.
  rewrite (no_ref (-1) x) by (done || lia). lia.
Qed.

Lemma forget_slot s p i : 0 <= i < NPK_MAX_FDS -> (pr_fds (p_processes (process_forget_fd s p i)).[p]).[i] < 0.
Proof. intros Hi. unfold process_forget_fd. cif E; [lia|]. cbv zeta. cbn. rewrite aget_aset_eq. cbn. rewrite aget_aset_eq. lia. Qed.

(** *** Descriptors on their way *)

Lemma sumz_snoc f i n : sumz f i (S n) = sumz f i n + f (i + Z.of_nat n).
Proof. revert i; induction n as [|n IH]; intros i; [cbn [sumz]; replace (i + Z.of_nat 0) with i by lia; lia|]. rewrite (eq_refl : sumz f i (S (S n)) = f i + sumz f (i + 1) (S n)), IH, (eq_refl : sumz f i (S n) = f i + sumz f (i + 1) n). replace (i + Z.of_nat (S n)) with (i + 1 + Z.of_nat n) by lia. lia. Qed.
Lemma sumz_shift f i n : sumz (fun j => f (j + 1)) i n = sumz f (i + 1) n.
Proof. revert i; induction n as [|n IH]; intros i; [done|]. cbn [sumz]. by rewrite IH. Qed.

Lemma process_refs_sent p h fd : 0 <= pr_incoming_fd_count p ->
  process_refs (p <| pr_incoming := (pr_incoming p).[pr_incoming_fd_count p <- (h, 0)] |> <| pr_incoming_fd_count := pr_incoming_fd_count p + 1 |>) fd = process_refs p fd + ref h fd.
Proof.
  intros Hc. unfold process_refs. cbn. replace (Z.to_nat (pr_incoming_fd_count p + 1)) with (S (Z.to_nat (pr_incoming_fd_count p))) by lia. rewrite sumz_snoc, Z2Nat.id by lia. cbn. rewrite aget_aset_eq.
  rewrite (sumz_ext (fun i => ref (((pr_incoming p).[pr_incoming_fd_count p <- (h, 0)]).[i]).1 fd) (fun i => ref ((pr_incoming p).[i]).1 fd)); [cbn; lia|]. intros i Hi. by rewrite aget_aset_ne by lia.
Qed.

Lemma accounted_send l s pid fd : accounted l s -> accounted l (process_send_fd s pid fd).2.
Proof.
  intros A. unfold process_send_fd. destruct (process_current s) as [sender|]; [|exact A]. destruct (_ || _); [exact A|]. cbv zeta. cif E1; [exact A|].
  destruct (if pid >? 0 then _ else _) as [target|] eqn:Et; [|exact A]. destruct (negb _); [exact A|]. destruct (_ && _); [exact A|]. cif E2; [exact A|].
  assert (Ht : 0 <= target < NPK_MAX_PROCESSES) by (destruct (pid >? 0); [|done]; apply find_pid_slot in Et as [Hu _]; unfold user_slot in Hu; lia).
  set (h := (pr_fds (p_processes s).[sender]).[fd]) in *. pose proof (accounted_retain h l s A) as R. change (vo_vfs_retain (p_env s) h) with (vfs_retain (p_env s) h). cbv zeta in R.
  destruct (vfs_retain (p_env s) h) as [rc k]. cbn [fst snd] in R. destruct (rc =? 0); cbn [negb snd]; [|exact R]. set (s1 := set_kernel s k) in *. destruct R as [R1 R2 R3].
  constructor; [|intros q; cbn; rewrite aget_aset; case_decide as Eq; [pose proof (R2 target) as C; cbn in C |- *; lia|apply R2]|exact R3].
  eapply inv_own_ext; [|exact R1]. intros x _. rewrite held_set, process_refs_sent, refs_cons by (done || apply R2). lia.
Qed.

Lemma shifted (a : arr (Z * Z)) n j : 0 <= j -> (for_range (fun i a => a.[i - 1 <- a.[i]]) 1 n a).[j] = if j <? Z.of_nat n then a.[j + 1] else a.[j].
Proof.
  intros Hj. pose (P := fun i (b : arr (Z * Z)) => forall x, 0 <= x -> b.[x] = if x <? i - 1 then a.[x + 1] else a.[x]).
  assert (L : P (1 + Z.of_nat n) (for_range (fun i a => a.[i - 1 <- a.[i]]) 1 n a)).
  { apply (for_range_inv P); [intros x Hx; by replace (x <? 1 - 1) with false by lia|]. intros i b Hi Hb x Hx. cbv beta. rewrite aget_aset. case_decide as E.
    - subst x. replace (i - 1 <? i + 1 - 1) with true by lia. rewrite (Hb i ltac:(lia)). replace (i <? i - 1) with false by lia. by replace (i - 1 + 1) with i by lia.
    - rewrite (Hb x Hx). destruct (x <? i - 1) eqn:E1; [by replace (x <? i + 1 - 1) with true by lia|by replace (x <? i + 1 - 1) with false by lia]. }
  rewrite (L j Hj). by replace (1 + Z.of_nat n - 1) with (Z.of_nat n) by lia.
Qed.

Lemma accounted_receive l s p : accounted l s -> 0 <= p < NPK_MAX_PROCESSES ->
  let r := process_receive_fd s p in match r.1 with inl _ => r.2 = s | inr (h, _) => accounted (h :: l) r.2 end.
Proof.
  intros [A1 A2 A3] Hp. unfold process_receive_fd. cbv zeta. cif E; [done|]. set (q := (p_processes s).[p]) in *. set (n := pr_incoming_fd_count q) in *. assert (Hn : 0 < n) by (pose proof (A2 p) as C; fold q n in C; lia).
  cbn [fst snd]. destruct ((pr_incoming q).[0]) as [h fl] eqn:E0. constructor; [|intros i; cbn; rewrite aget_aset; case_decide; [subst; cbn; lia|apply A2]|exact A3].
  eapply inv_own_ext; [|exact A1]. intros fd _. rewrite held_set, refs_cons by done. fold q. set (a := for_range _ _ _ _).
  assert (Hs : sumz (fun i => ref ((pr_incoming q).[i]).1 fd) 0 (Z.to_nat n) = ref h fd + sumz (fun i => ref ((a.[n - 1 <- (-1, 0)]).[i]).1 fd) 0 (Z.to_nat (n - 1))).
  { replace (Z.to_nat n) with (S (Z.to_nat (n - 1))) by lia. cbn [sumz]. rewrite E0. cbn [fst]. f_equal. rewrite <-sumz_shift. apply sumz_ext. intros i Hi. rewrite aget_aset_ne by lia.
    subst a. rewrite shifted by lia. by replace (i <? Z.of_nat (Z.to_nat (n - 1))) with true by lia. }
  unfold process_refs. cbn. fold n. lia.
Qed.

(** ** The calls *)

Create HintDb files.

Section Files.
Context (bootstrap : Z).
#[local] Instance file_ops : ProcOps kernel := kernel_proc bootstrap.
Notation thr s i := ((p_threads s).[i]).
Notation prc s i := ((p_processes s).[i]).
Implicit Type s : proc kernel.

Context (idle usb_poll : sys -> sys) (fuel : nat).
Context (idle_refs : forall y, accounted [] (y_proc y) -> accounted [] (y_proc (idle y))) (usb_refs : forall y, accounted [] (y_proc y) -> accounted [] (y_proc (usb_poll y))).

(** The call has the handles [l] in its variables. *)
Let holding (l : list Z) (y : sys) : Prop := accounted l (y_proc y).
Let I : sys -> Prop := holding [].
Let J (y : sys) : Prop := True.
Let slot (p : Z) : Prop := 0 <= p < NPK_MAX_PROCESSES.

Lemma a_IJ y : I y -> J y.
Proof. done. Qed.

Lemma a_apart {A} (f : proc kernel -> A * proc kernel) : (forall s, apart_from_files s (f s).2) -> keeps I J (lift f).
Proof. intros H. apply t_lift. intros y Hy. eapply accounted_apart; [apply H|exact Hy]. Qed.
Lemma a_apart_ f : (forall s, apart_from_files s (f s)) -> keeps I J (lift_ f).
Proof. intros H. apply k_put. intros y Hy. eapply accounted_apart; [apply H|exact Hy]. Qed.
Lemma a_kernel {A} (f : kernel -> A * kernel) : (forall k, same_state k (f k).2) -> keeps I J (in_kernel f).
Proof. intros H. apply a_apart. intros s. specialize (H (p_env s)). destruct (f (p_env s)). by apply apart_env. Qed.
Lemma a_machine {A} (f : platform -> A * platform) : (forall m, ve_live (f m).2 = ve_live m) -> keeps I J (in_machine f).
Proof. intros H. apply a_kernel. intros k. by apply beside_same, beside_platform2. Qed.
Lemma a_machine_ f : (forall m, ve_live (f m) = ve_live m) -> keeps I J (in_machine_ f).
Proof. intros H. apply a_apart_. intros s. by apply apart_beside, beside_platform. Qed.
Lemma a_tty f : (forall y, y_proc (f y) = y_proc y) -> keeps I J (put f).
Proof. intros H. apply k_put. intros y Hy. unfold I, holding. by rewrite H. Qed.
Lemma a_process p f : (forall q, same_refs q (f q)) -> keeps I J (lift_ (fun s => set_process s p (f (prc s p)))).
Proof. intros H. apply a_apart_. intros s. by apply apart_process. Qed.

Ltac file_step := cbv zeta; first [keeps_step a_IJ | solve [eauto 2 with files nocore]].
Ltac file_keeps := repeat file_step.
(** The steps before the first that changes who holds what. *)
Ltac file_prefix := repeat (apply k_bind; [solve [file_keeps]|intros ?]).

Lemma a_current : keeps I J current.
Proof. apply k_get. Qed.
#[local] Hint Resolve a_current : files.
Lemma a_living e : keeps I J (living e).
Proof. unfold living, the_process. file_keeps. Qed.
#[local] Hint Resolve a_living : files.

(** A handler that needs a process. *)
Lemma a_the_process {A} e (k : Z -> M A) : (forall p, slot p -> keeps I J (k p)) -> keeps I J (the_process e ≫= k).
Proof.
  intros H. apply (t_bind _ _ _ (fun p y => I y /\ slot p)); [|by intros p y [Hy Hp]; apply H]. unfold the_process.
  apply (t_bind _ _ _ (fun p y => I y /\ process_current (y_proc y) = p)); [by apply t_get|]. intros [p|]; [|apply t_answer; by intros y [? _]].
  apply t_ret. intros y [Hy Hp]. split; [exact Hy|]. by apply (ac_current _ _ Hy).
Qed.

Lemma a_copyin_opt a n : keeps I J (copyin_opt bootstrap a n).
Proof. apply a_apart. intros s. apply apart_mem; [apply vmm_copyin_mem|apply beside_copyin]. Qed.
#[local] Hint Resolve a_copyin_opt : files.
Lemma a_copyin a n : keeps I J (copyin bootstrap a n).
Proof. unfold copyin. file_keeps. Qed.
Lemma a_copyout_ok a b : keeps I J (copyout_ok bootstrap a b).
Proof. apply a_apart. intros s. apply apart_mem; [apply vmm_copyout_mem|apply beside_copyout]. Qed.
#[local] Hint Resolve a_copyin a_copyout_ok : files.
Lemma a_copyout a b : keeps I J (copyout bootstrap a b).
Proof. unfold copyout. file_keeps. Qed.
#[local] Hint Resolve a_copyout : files.
Lemma a_give a b : keeps I J (give bootstrap a b).
Proof. unfold give. file_keeps. Qed.
#[local] Hint Resolve a_give : files.

(** *** Paths and descriptors *)

Lemma a_user_string n user i text : keeps I J (user_string bootstrap n user i text).
Proof. revert i text. induction n as [|n IH]; intros i text; cbn [user_string]; file_keeps. Qed.
#[local] Hint Resolve a_user_string : files.
Lemma a_copy_user_string user capacity : keeps I J (copy_user_string bootstrap user capacity).
Proof. unfold copy_user_string. file_keeps. Qed.
Lemma a_resolve p path : keeps I J (resolve_process_path p path).
Proof. apply k_get. Qed.
#[local] Hint Resolve a_copy_user_string a_resolve : files.
Lemma a_user_path p user : keeps I J (user_path bootstrap p user).
Proof. unfold user_path. file_keeps. Qed.
Lemma a_fd_handle fd : keeps I J (fd_handle fd).
Proof. apply k_get. Qed.
#[local] Hint Resolve a_user_path a_fd_handle : files.
Lemma a_handle_of fd : keeps I J (handle_of fd).
Proof. unfold handle_of. file_keeps. Qed.
#[local] Hint Resolve a_handle_of : files.

Lemma a_forget_fd p fd : slot p -> keeps I J (forget_fd p fd).
Proof. intros Hp. apply k_put. intros y Hy. by apply accounted_forget. Qed.

(** A handle is closed. *)
Lemma a_close_handle h l : triple I J (holding (h :: l)) (Syscall.close_handle h) (fun _ => holding l).
Proof. apply t_put. intros y Hy. by apply accounted_close. Qed.

Lemma a_install_fd p h l minimum flags : slot p ->
  triple I J (holding (h :: l)) (install_fd p h minimum flags) (fun fd => holding (if fd <? 0 then h :: l else l)).
Proof. intros Hp. apply t_lift. intros y Hy. by apply (accounted_install h l (y_proc y) p minimum flags). Qed.

Lemma a_install_or_close p h minimum flags : slot p -> triple I J (holding [h]) (install_or_close p h minimum flags) (fun _ => I).
Proof.
  intros Hp. eapply t_bind; [by apply a_install_fd|]. intros fd. cbv beta. destruct (fd <? 0); [|by apply t_ret].
  eapply t_bind; [apply a_close_handle|]. intros ?. by apply t_answer.
Qed.

(** The kernel gives out a handle. *)
Lemma a_opens {A} (f : kernel -> Z * kernel) (k : Z -> M A) :
  (forall (v : kernel) own, vfs_inv v own [] [] -> opens own (f v)) ->
  (forall h, triple I J (holding (if h <? 0 then [] else [h])) (k h) (fun _ => I)) -> keeps I J (in_kernel f ≫= k).
Proof.
  intros Hf Hk. eapply t_bind; [|exact Hk]. apply t_lift. intros y Hy. pose proof (accounted_opens [] (y_proc y) (f (p_env (y_proc y))) Hy (Hf _ _ (ac_vfs _ _ Hy))) as H.
  by destruct (f (p_env (y_proc y))).
Qed.

Lemma a_retain h : triple I J I (in_kernel (fun k => vfs_retain k h)) (fun r => holding (if r =? 0 then [h] else [])).
Proof. apply t_lift. intros y Hy. pose proof (accounted_retain h [] (y_proc y) Hy) as H. cbv zeta in H. by destruct (vfs_retain (p_env (y_proc y)) h). Qed.

(** *** Files *)

Lemma a_console_out f : keeps I J (console_out f).
Proof. by apply a_machine_. Qed.
Lemma a_console_n bytes : keeps I J (console_n bytes).
Proof. apply a_console_out. Qed.
#[local] Hint Resolve a_console_out a_console_n : files.

Lemma a_vfs_write handle chunk : keeps I J (in_kernel (fun k => vfs_write k handle LOCAL chunk)).
Proof. apply a_kernel. intros k. apply same_write. Qed.
#[local] Hint Resolve a_vfs_write : files.
Lemma a_write_chunks n handle user count written : keeps I J (write_chunks bootstrap n handle user count written).
Proof. revert written. induction n as [|n IH]; intros written; cbn [write_chunks]; file_keeps. Qed.
#[local] Hint Resolve a_write_chunks : files.
Lemma a_write fd user count : keeps I J (sys_write bootstrap fd user count).
Proof. unfold sys_write. file_keeps. Qed.
Lemma a_stat_of h : keeps I J (stat_of h).
Proof. apply k_get. Qed.
Lemma a_give_stat r user : keeps I J (give_stat bootstrap r user).
Proof. unfold give_stat. file_keeps. Qed.
#[local] Hint Resolve a_write a_stat_of a_give_stat : files.
Lemma a_stat_path path : keeps I J (stat_path path).
Proof.
  apply a_opens; [intros; apply vfs_open_flags_opens; done|]. intros h. destruct (h <? 0); [by apply t_answer|].
  apply (t_bind _ _ _ (fun _ => holding [h])); [by apply t_get|]. intros r. eapply t_bind; [apply a_close_handle|]. intros ?. by apply t_ret.
Qed.
#[local] Hint Resolve a_stat_path : files.
Lemma a_fstat fd user : keeps I J (sys_fstat bootstrap fd user).
Proof. unfold sys_fstat. file_keeps. Qed.
Lemma a_stat user status : keeps I J (sys_stat_path bootstrap user status).
Proof. unfold sys_stat_path. file_keeps. Qed.
Lemma a_lseek fd offset whence : keeps I J (sys_lseek fd offset whence).
Proof. unfold sys_lseek. file_keeps. apply a_kernel. intros k. apply same_seek. Qed.
Lemma a_getdents fd user count : keeps I J (sys_getdents64 bootstrap fd user count).
Proof.
  unfold sys_getdents64. file_keeps. apply a_kernel. intros k. pose proof (same_getdents k x LOCAL count) as S. by destruct (vfs_getdents64 k x LOCAL count) as [[? ?] ?].
Qed.

Lemma a_sleep_until n deadline : keeps I J (sleep_until idle n deadline).
Proof. revert deadline. induction n as [|n IH]; intros deadline y Hy; cbn [sleep_until]; destruct (_ <? 0); try exact Hy; [done|]. apply IH. by apply idle_refs. Qed.
Lemma a_sleep duration : keeps I J (timer_sleep_ticks idle fuel duration).
Proof. unfold timer_sleep_ticks. pose proof a_sleep_until. file_keeps. Qed.
#[local] Hint Resolve a_sleep : files.

(** *** The terminal *)

Lemma apart_thread s t th : t_owner th = t_owner (thr s t) -> apart_from_files s (set_thread s t th).
Proof.
  intros Ho. constructor; [apply same_state_refl|by intros i|]. unfold process_current. cbn. destruct (p_current s) as [c|]; [|done]. rewrite aget_aset. by case_decide; [subst; rewrite Ho|].
Qed.

Lemma a_block t : keeps I J (block_for_input bootstrap t).
Proof.
  unfold block_for_input. apply k_bind; [by apply a_machine_|intros _]. apply k_bind; [apply k_get|intros ring]. apply k_bind; [apply a_apart_; intros s; by apply apart_thread|intros _].
  apply (t_bind _ _ _ (fun how y => how = Returns -> I y)).
  - intros y Hy. unfold lift. destruct (scheduler_yield (y_proc y)) as [how s'] eqn:E. intros ->. apply yield_returns in E. rewrite E. eapply accounted_apart; [|exact Hy].
    constructor; [apply same_state_refl|by intros i|done].
  - intros how y Hy. destruct how; try done. specialize (Hy eq_refl). revert y Hy. apply a_apart_. intros s. cbv zeta.
    assert (apart_from_files s (set_thread s t (thr s t <| t_privilege_ring := ring |>))) as [E P C] by (by apply apart_thread). destruct (ring =? 3); by constructor.
Qed.
#[local] Hint Resolve a_block : files.

Lemma a_idle : keeps I J (put idle).
Proof. apply k_put. exact idle_refs. Qed.
Lemma a_next_key : keeps I J next_key.
Proof. apply a_machine. intros m. by destruct (keyboard_getchar (mc_keyboard m)). Qed.
#[local] Hint Resolve a_idle a_next_key : files.
Lemma a_getchar n : keeps I J (keyboard_getchar_blocking bootstrap idle n).
Proof. induction n as [|n IH]; cbn [keyboard_getchar_blocking]; file_keeps. Qed.
#[local] Hint Resolve a_getchar : files.

Lemma a_set_echo sequence expected : keeps I J (set_echo sequence expected).
Proof. by apply a_tty. Qed.
Lemma a_set_line line length : keeps I J (set_line line length).
Proof. by apply a_tty. Qed.
#[local] Hint Resolve a_set_echo a_set_line : files.
Lemma a_echo byte : keeps I J (tty_echo_byte byte).
Proof. unfold tty_echo_byte. file_keeps. Qed.
#[local] Hint Resolve a_echo : files.
Lemma a_input echo byte : keeps I J (tty_input echo byte).
Proof. unfold tty_input. file_keeps. Qed.
#[local] Hint Resolve a_input : files.
Lemma a_collect_line n echo : keeps I J (collect_line bootstrap idle fuel n echo).
Proof. induction n as [|n IH]; cbn [collect_line]; file_keeps. Qed.
#[local] Hint Resolve a_collect_line : files.
Lemma a_collect : keeps I J (tty_collect_canonical_line bootstrap idle fuel).
Proof. unfold tty_collect_canonical_line. apply k_bind; [by apply a_tty|]. intros _. file_keeps. Qed.
#[local] Hint Resolve a_collect : files.
Lemma a_tty_read user count : keeps I J (tty_read bootstrap idle fuel user count).
Proof. unfold tty_read. file_keeps. apply a_tty. intros y. cbv zeta. by destruct (_ =? _). Qed.

(** The amount read is never negative. *)
Lemma a_read_chunks n handle user count total : keeps I J (read_chunks bootstrap n handle user count total).
Proof.
  revert total. induction n as [|n IH]; intros total; cbn [read_chunks]; cif E; try (by apply k_ret); [by apply (k_stop a_IJ)|]. set (amount := if count - total <? IO_CHUNK then _ else _).
  assert (Ha : 0 <= amount) by (unfold amount, IO_CHUNK; clear amount; apply negb_false_iff in E; destruct (_ <? 4096); lia). cbv zeta. apply k_bind.
  - apply a_kernel. intros k. pose proof (same_read k handle LOCAL amount Ha) as S. by destruct (vfs_read k handle LOCAL amount) as [[? ?] ?].
  - intros [result bytes]. clearbody amount. file_keeps.
Qed.
#[local] Hint Resolve a_tty_read a_read_chunks : files.
Lemma a_read fd user count : keeps I J (sys_read bootstrap idle fuel fd user count).
Proof. unfold sys_read. file_keeps. Qed.

Lemma a_iov_loop io n i user total : (forall a b, keeps I J (io a b)) -> keeps I J (iov_loop bootstrap io n i user total).
Proof. intros Hio. revert i total. induction n as [|n IH]; intros i total; cbn [iov_loop]; file_keeps. Qed.
Lemma a_iov io user count : (forall a b, keeps I J (io a b)) -> keeps I J (sys_iov bootstrap io user count).
Proof. intros Hio. unfold sys_iov. pose proof (fun n i user total => a_iov_loop io n i user total Hio). file_keeps. Qed.
Lemma a_readv fd user count : keeps I J (sys_readv bootstrap idle fuel fd user count).
Proof. apply a_iov. intros. apply a_read. Qed.
Lemma a_writev fd user count : keeps I J (sys_writev bootstrap fd user count).
Proof. apply a_iov. intros. apply a_write. Qed.

Lemma a_cwd_of p : keeps I J (cwd_of p).
Proof. apply k_get. Qed.
#[local] Hint Resolve a_cwd_of : files.
Lemma a_getcwd user size : keeps I J (sys_getcwd bootstrap user size).
Proof. apply a_the_process. intros p _. file_keeps. Qed.
Lemma a_chdir user : keeps I J (sys_chdir bootstrap user).
Proof. apply a_the_process. intros p _. file_keeps. by apply (a_process p (fun q => q <| pr_cwd := text _ |>)). Qed.
Lemma a_uname user : keeps I J (sys_uname bootstrap user).
Proof. apply a_give. Qed.
Lemma a_readlink user buffer capacity : keeps I J (sys_readlink_path bootstrap user buffer capacity).
Proof. apply a_the_process. intros p _. file_keeps. Qed.

(** *** Descriptors *)

Lemma a_pipe_create {A} (k : Z * option (Z * Z) -> M A) :
  (forall r, triple I J (holding (match r.2 with Some (a, b) => [a; b] | None => [] end)) (k r) (fun _ => I)) ->
  keeps I J (in_kernel (fun k => let '(result, ends, k) := vfs_pipe_create k in ((result, ends), k)) ≫= k).
Proof.
  intros Hk. eapply t_bind; [|exact Hk]. apply t_lift. intros y Hy. pose proof (accounted_pipe [] (y_proc y) Hy) as H. cbv zeta in H. by destruct (vfs_pipe_create (p_env (y_proc y))) as [[result [[a b]|]] k'].
Qed.

Lemma a_pipe user flags : keeps I J (sys_pipe_common bootstrap user flags).
Proof.
  apply a_the_process. intros p Hp. pose proof (fun fd => a_forget_fd p fd Hp) as Hforget. do 2 (apply k_bind; [file_keeps|intros _]). apply a_pipe_create.
  intros [result [[a b]|]]; cbn [snd]; [|by apply t_ret]. eapply t_bind; [by apply a_install_fd|]. intros read_fd. cbv beta. destruct (read_fd <? 0).
  - eapply t_bind; [apply a_close_handle|]. intros ?. eapply t_bind; [apply a_close_handle|]. intros ?. by apply t_answer.
  - eapply t_bind; [by apply a_install_fd|]. intros write_fd. cbv beta. destruct (write_fd <? 0); [|file_keeps].
    apply (t_bind _ _ _ (fun _ => holding [b])); [apply t_put; intros y Hy; by apply accounted_forget|]. intros ?. eapply t_bind; [apply a_close_handle|]. intros ?. by apply t_answer.
Qed.

(** The handle is retained for another slot. *)
Lemma a_retained {A} h e (k : M A) : triple I J (holding [h]) k (fun _ => I) -> keeps I J (r ← in_kernel (fun k => vfs_retain k h); guard (r =? 0) e;; k).
Proof.
  intros Hk. eapply t_bind; [apply a_retain|]. intros r. cbv beta. unfold guard. destruct (r =? 0).
  - apply (t_bind _ _ _ (fun _ => holding [h])); [by apply t_ret|by intros _].
  - apply (t_bind _ _ _ (fun _ _ => False)); [by apply t_answer|by intros _ y []].
Qed.
Lemma a_dup fd minimum flags : keeps I J (sys_dup fd minimum flags).
Proof. apply a_the_process. intros p Hp. file_prefix. apply a_retained. by apply a_install_or_close. Qed.
#[local] Hint Resolve a_dup : files.

Lemma a_guard {A} (b : bool) e (k : unit -> M A) : (b = true -> keeps I J (k tt)) -> keeps I J (guard b e ≫= k).
Proof. intros Hk. destruct b; [exact (Hk eq_refl)|]. by intros y Hy. Qed.

Lemma a_dup2 oldfd newfd : 0 <= newfd -> keeps I J (sys_dup2 oldfd newfd).
Proof.
  intros Hn. apply a_the_process. intros p Hp. apply a_guard. intros Hr. file_prefix. destruct (oldfd =? newfd); [apply k_ret|]. apply a_retained.
  assert (Hi : 0 <= newfd < NPK_MAX_FDS) by lia. set (h := x). apply (t_bind _ _ _ (fun _ y => holding [h] y /\ (pr_fds (prc (y_proc y) p)).[newfd] < 0)).
  - apply t_put. intros y Hy. split; [by apply accounted_forget|]. by apply forget_slot.
  - intros ?. apply (t_bind _ _ _ (fun _ => I)); [|intros ?; by apply t_ret]. apply t_put. intros y [Hy Hs]. by apply accounted_store.
Qed.
Lemma a_fcntl fd command argument : keeps I J (sys_fcntl fd command argument).
Proof.
  apply a_the_process. intros p Hp. file_keeps. by apply (a_process p (fun q => q <| pr_fd_flags := (pr_fd_flags q).[fd <- Z.land (u32 argument) 1] |>)).
Qed.
Lemma a_close fd : keeps I J (sys_close fd).
Proof. apply a_the_process. intros p Hp. pose proof (a_forget_fd p (i32 fd) Hp). file_keeps. Qed.

(** A handle that is new goes into the table or is closed. *)
Lemma a_new_handle p (f : kernel -> Z * kernel) flags : slot p -> (forall (v : kernel) own, vfs_inv v own [] [] -> opens own (f v)) ->
  keeps I J (handle ← in_kernel f; if handle <? 0 then mret (u64 handle) else install_or_close p handle 3 flags).
Proof. intros Hp Hf. apply a_opens; [exact Hf|]. intros h. destruct (h <? 0); [by apply t_ret|by apply a_install_or_close]. Qed.

Lemma a_open user flags mode : keeps I J (sys_open_path bootstrap user flags mode).
Proof. apply a_the_process. intros p Hp. file_prefix. apply a_new_handle; [done|]. intros. by apply vfs_open_flags_opens. Qed.
#[local] Hint Resolve a_open : files.
Lemma a_openat dirfd user flags mode : keeps I J (sys_openat_path bootstrap dirfd user flags mode).
Proof. unfold sys_openat_path. file_keeps. Qed.
Lemma a_shm size : keeps I J (sys_shm_create size).
Proof. apply a_the_process. intros p Hp. file_prefix. apply a_new_handle; [done|]. intros. by apply vfs_shm_create_opens. Qed.
Lemma a_epoll_create flags : keeps I J (sys_epoll_create1 flags).
Proof. apply a_guard. intros _. apply a_the_process. intros p Hp. apply a_new_handle; [done|]. intros. by apply vfs_epoll_create_opens. Qed.

Lemma a_send pid fd : keeps I J (sys_fd_send pid fd).
Proof. apply a_guard. intros _. apply k_bind; [|intros r; apply k_ret]. apply t_lift. intros y Hy. by apply accounted_send. Qed.
Lemma a_recv : keeps I J sys_fd_recv.
Proof.
  apply a_the_process. intros p Hp. apply (t_bind _ _ _ (fun r => match r with inl _ => I | inr (h, _) => holding [h] end)).
  - apply t_lift. intros y Hy. pose proof (accounted_receive [] (y_proc y) p Hy Hp) as R. cbv zeta in R. destruct (process_receive_fd (y_proc y) p) as [[e|[h fl]] s']; cbn [fst snd] in *; [by rewrite R|exact R].
  - intros [e|[h fl]]; [by apply t_ret|by apply a_install_or_close].
Qed.
Lemma a_sync_fd fd : keeps I J (sys_sync_fd fd).
Proof. unfold sys_sync_fd. file_keeps. apply a_kernel. intros k. apply same_sync_fd. Qed.
Lemma a_sync : keeps I J sys_sync.
Proof. unfold sys_sync. file_keeps. apply a_kernel. intros k. apply same_sync_all. Qed.

(** *** Watches *)

Lemma apart_held s s' fd : apart_from_files s s' -> held s' fd = held s fd.
Proof. intros [_ P _]. apply sumz_ext. intros i _. by apply same_process_refs. Qed.

Lemma a_epoll_ctl epfd operation fd event : 0 <= epfd -> keeps I J (sys_epoll_ctl bootstrap epfd operation fd event).
Proof.
  intros He. apply a_the_process. intros p Hp. apply a_guard. intros Hr. pose (watched h y := I y /\ 1 <= held (y_proc y) h).
  apply (t_bind _ _ _ watched); [apply t_get; intros y Hy; split; [exact Hy|]; unfold process_handle_for_fd; replace ((epfd <? 0) || (epfd >=? NPK_MAX_FDS)) with false by lia; apply held_slot; [done|lia]|]. intros h.
  apply (t_bind _ _ _ (fun _ => watched h)); [by apply t_get|]. intros w. apply (t_bind _ _ _ (fun _ => watched h)); [unfold guard; destruct (negb (_ || (w <? 0))); [by apply t_ret|apply t_answer; by intros y [? _]]|].
  intros _. apply (t_bind _ _ _ (fun _ => watched h)).
  - unfold copyin. apply (t_bind _ _ _ (fun _ => watched h)); [|intros [b|]; [by apply t_ret|apply t_answer; by intros y [? _]]]. apply t_lift. intros y [Hy Hh].
    assert (Ha : apart_from_files (y_proc y) (vmm_copyin (y_proc y) event 16).2) by (apply apart_mem; [apply vmm_copyin_mem|apply beside_copyin]).
    split; [by eapply accounted_apart|]. cbn. by rewrite (apart_held _ _ _ Ha).
  - intros b. apply (t_bind _ _ _ (fun _ => I)); [|intros ?; by apply t_ret]. apply t_lift. intros y [Hy Hh].
    pose proof (vfs_epoll_ctl_inv (p_env (y_proc y)) _ h (i32 operation) w (le_val (take 4 b)) (le_val (drop 8 b)) (ac_vfs _ _ Hy)) as V. specialize (V ltac:(cbn; lia)).
    destruct (vfs_epoll_ctl _ _ _ _ _ _) as [r k]. by apply (accounted_env [] [] (y_proc y)).
Qed.

(** *** Time and polling *)

Lemma a_clock id user : keeps I J (sys_clock_gettime bootstrap id user).
Proof. unfold sys_clock_gettime. file_keeps. Qed.
Lemma a_nanosleep request remainder : keeps I J (sys_nanosleep bootstrap idle fuel request remainder).
Proof. unfold sys_nanosleep. file_keeps. Qed.
Lemma a_timeout user : keeps I J (poll_timeout_ms bootstrap user).
Proof. unfold poll_timeout_ms. file_keeps. Qed.
Lemma a_deadline timeout : keeps I J (deadline_of timeout).
Proof. unfold deadline_of. file_keeps. Qed.
Lemma a_over timeout deadline : keeps I J (time_over timeout deadline).
Proof. apply k_get. Qed.
Lemma a_usb : keeps I J (put usb_poll).
Proof. apply k_put. exact usb_refs. Qed.
Lemma a_mask mask : keeps I J (lift_ (fun s => process_set_signal_mask s mask)).
Proof. apply a_apart_. intros s. unfold process_set_signal_mask. destruct (p_current s); [by apply apart_thread|]. constructor; [apply same_state_refl|by intros i|done]. Qed.
#[local] Hint Resolve a_timeout a_deadline a_over a_usb a_mask : files.
Lemma a_poll_loop n user timeout deadline pollfds : keeps I J (poll_loop bootstrap idle usb_poll fuel n user timeout deadline pollfds).
Proof. revert pollfds. induction n as [|n IH]; intros pollfds; cbn [poll_loop]; file_keeps. Qed.
#[local] Hint Resolve a_poll_loop : files.
Lemma a_poll_common user count timeout : keeps I J (sys_poll_common bootstrap idle usb_poll fuel user count timeout).
Proof. unfold sys_poll_common. file_keeps. Qed.
#[local] Hint Resolve a_poll_common : files.
Lemma a_poll user count timeout : keeps I J (sys_poll bootstrap idle usb_poll fuel user count timeout).
Proof. unfold sys_poll. file_keeps. Qed.
Lemma a_ppoll user count timeout mask size : keeps I J (sys_ppoll bootstrap idle usb_poll fuel user count timeout mask size).
Proof. unfold sys_ppoll. file_keeps. Qed.
Lemma a_events user i ready : keeps I J (copyout_events bootstrap user i ready).
Proof. revert i. induction ready as [|e ready IH]; intros i; cbn [copyout_events]; file_keeps. Qed.
#[local] Hint Resolve a_events : files.
Lemma a_epoll_loop n epfd user maxevents timeout deadline : keeps I J (epoll_loop bootstrap idle fuel n epfd user maxevents timeout deadline).
Proof. induction n as [|n IH]; cbn [epoll_loop]; file_keeps. Qed.
#[local] Hint Resolve a_epoll_loop : files.
Lemma a_epoll_wait epfd user maxevents timeout : keeps I J (sys_epoll_wait bootstrap idle fuel epfd user maxevents timeout).
Proof. apply a_guard. intros _. apply a_the_process. intros p _. file_keeps. Qed.
Lemma a_ioctl fd request user : keeps I J (sys_ioctl bootstrap fd request user).
Proof. unfold sys_ioctl. file_keeps; by apply a_tty. Qed.

(** *** All of them *)

(** The calls on descriptors and paths. *)
Definition file_calls : list Z :=
  [NPK_SYS_READ; NPK_SYS_WRITE; NPK_SYS_READV; NPK_SYS_WRITEV; NPK_SYS_STAT; NPK_SYS_FSTAT; NPK_SYS_LSEEK; NPK_SYS_GETCWD; NPK_SYS_CHDIR; NPK_SYS_GETDENTS64;
   NPK_SYS_POLL; NPK_SYS_PPOLL; NPK_SYS_EPOLL_CREATE1; NPK_SYS_EPOLL_CTL; NPK_SYS_EPOLL_WAIT; NPK_SYS_OPEN; NPK_SYS_OPENAT; NPK_SYS_IOCTL; NPK_SYS_READLINK;
   NPK_SYS_NPK_SHM_CREATE; NPK_SYS_NPK_FD_SEND; NPK_SYS_NPK_FD_RECV; NPK_SYS_FSYNC; NPK_SYS_FDATASYNC; NPK_SYS_SYNC; NPK_SYS_CLOSE; NPK_SYS_PIPE; NPK_SYS_DUP; NPK_SYS_DUP2;
   NPK_SYS_FCNTL; NPK_SYS_UNAME; NPK_SYS_NANOSLEEP; NPK_SYS_CLOCK_GETTIME].

Ltac not_file := exfalso; try match goal with E : (_ || _) = true |- _ => apply orb_prop in E as [E|E] end; match goal with H : ?n ∈ file_calls, E : (?n =? ?x) = true |- _ => apply Z.eqb_eq in E; rewrite E in H; revert H; apply (bool_decide_eq_false_1 (x ∈ file_calls)); vm_compute; reflexivity end.

#[local] Hint Resolve a_read a_readv a_writev a_stat a_fstat a_lseek a_getcwd a_chdir a_getdents a_poll a_ppoll a_epoll_create a_epoll_ctl a_epoll_wait a_openat a_ioctl a_readlink : files.
#[local] Hint Resolve a_shm a_send a_recv a_sync_fd a_sync a_close a_pipe a_dup2 a_fcntl a_uname a_nanosleep a_clock : files.

Lemma dispatch_accounted y : f_rax (y_frame y) ∈ file_calls -> 0 <= f_rdi (y_frame y) -> 0 <= f_rsi (y_frame y) -> I y ->
  match syscall_dispatch bootstrap idle usb_poll fuel y with (inl _, y') => I y' | (inr (Answer _), y') => I y' | _ => True end.
Proof.
  intros Hf H1 H2 Hy. assert (K : forall m : M Z, keeps I J m -> match m y with (inl _, y') => I y' | (inr (Answer _), y') => I y' | _ => True end).
  { intros m Hm. specialize (Hm y Hy). by destruct (m y) as [[x|[]] y']. }
  unfold syscall_dispatch. change ((get y_frame ≫= ?k) y) with (k (y_frame y) y). cbv beta zeta. generalize (y_frame y) Hf H1 H2. clear Hf H1 H2. intros f Hf H1 H2. apply K. clear K Hy y.
  repeat lazymatch goal with |- triple _ _ _ (if ?b then _ else _) _ => destruct b eqn:?; [first [solve [eauto 2 with files nocore] | not_file]|] end.
  apply (k_stop a_IJ).
Qed.
End Files.

(** What happens while a call waits keeps the references too. *)
Definition careful (f : sys -> sys) : Prop := forall y, accounted [] (y_proc y) -> accounted [] (y_proc (f y)).

(** C2: A call on descriptors or paths that returns leaves no reference behind and
    takes none too many, on every path through it: the references the VFS counts
    are again exactly those of the descriptor tables, the descriptors sent and not
    yet received, the mappings, and the watches of the epoll sets. *)
Theorem file_calls_accounted bootstrap idle usb_poll fuel y result y' :
  careful idle -> careful usb_poll -> accounted [] (y_proc y) ->
  f_rax (y_frame y) ∈ file_calls -> in_u64 (f_rdi (y_frame y)) -> in_u64 (f_rsi (y_frame y)) ->
  run (syscall_dispatch bootstrap idle usb_poll fuel) y = (Answer result, y') -> accounted [] (y_proc y').
Proof.
  intros Hi Hu Ha Hf [H1 _] [H2 _] E. pose proof (dispatch_accounted bootstrap idle usb_poll fuel Hi Hu y Hf H1 H2 Ha) as D. unfold run in E.
  destruct (syscall_dispatch bootstrap idle usb_poll fuel y) as [[r|[]] y2]; try discriminate; injection E as ? <-; exact D.
Qed.
