(* ===== verification/SysRun.v ===== *)
(** * System calls of the first process

    The system calls evaluated on the running kernel of [KernelRun]. *)

From Stdlib Require Import ZArith Lia Bool ZifyBool.
From stdpp Require Import base numbers list gmap strings.
From S2P Require Import Prelude Kstring Keyboard Gop Console Pmm Vmm Heap Kmem Vm Path Npkfs Procfs Vfs VfsRefs VfsRun Proc ProcMem Signal Futex ProcStep Sched ProcInv ProcRun ProcLife Elf Exec ExecStack ProcReach UserMem Kernel KernelExec KernelMem KernelRun Syscall SysInv SysRefs.

Open Scope Z_scope.
Open Scope npk_scope.

#[local] Instance run_proc : ProcOps kernel := kernel_proc 0xffffffff80001000.

(** While a call waits the timer ticks. *)
Definition tick (y : sys) : sys := y <| y_proc := set_kernel (y_proc y) (in_platform_ (fun m => m <| mc_ticks := u64 (mc_ticks m + 1) |>) (p_env (y_proc y))) |>.

Lemma tick_quiet : quiet tick.
Proof. intros y. split; [|done]. apply in_order_steady. apply steady_set_kernel. Qed.

(** The registers of a call: number and three arguments. *)
Definition call_raw (nr a b c : Z) : frame :=
  zero_frame.[0 <- nr].[5 <- a].[4 <- b].[3 <- c].[15 <- 0x400010].[16 <- USER_CS].[17 <- 0x202].[18 <- NPK_USER_STACK_TOP - 64].[19 <- USER_SS].

Notation syscall_on := (syscall_dispatch_asm 0xffffffff80001000 tick tick 100).

(** The process has a message in its stack. *)
Definition ready_user : sys := sys_over (vmm_copyout started edge message).2.
Definition result_of (r : outcome * frame * sys) : option Z := match r.1.1 with Answer v => Some v | _ => None end.

Lemma started_in_order : in_order (y_proc ready_user).
Proof.
  assert (I : proc_inv started) by (unfold started; apply run_inv; [|vm_compute; reflexivity]; apply booted_inv; vm_compute; reflexivity).
  assert (Il : running_live started) by (apply runner_live_spec; vm_compute; reflexivity). assert (Iu : user_mode started) by (apply runner_user_spec; vm_compute; reflexivity).
  assert (In : p_next_pid started < UINT64_MAX) by (vm_compute; reflexivity). eapply in_order_steady; [apply steady_mem, vmm_copyout_mem|by split_and!].
Qed.

(** ** A session: a pipe is made, a message written to it and read back, the
    message printed, and the process exits. *)
Definition piped := syscall_on ready_user (call_raw NPK_SYS_PIPE (edge - 64) 0 0).
Definition wrote := syscall_on piped.2 (call_raw NPK_SYS_WRITE 4 edge 4).
Definition read_back := syscall_on wrote.2 (call_raw NPK_SYS_READ 3 (edge - 32) 100).
Definition printed := syscall_on read_back.2 (call_raw NPK_SYS_WRITE 1 edge 3).
Definition exited := syscall_on printed.2 (call_raw NPK_SYS_EXIT 7 0 0).

Lemma session_run :
  result_of piped = Some 0 /\ result_of wrote = Some 4 /\ result_of read_back = Some 4 /\
  (vmm_copyin (y_proc read_back.2) (edge - 32) 4).1 = Some message /\ result_of printed = Some 3 /\ exited.1.1 = Leaves (Switched 1).
Proof. vm_compute. repeat split. Qed.


Lemma split_answer (r : outcome * frame * sys) v : result_of r = Some v -> r = (Answer v, r.1.2, r.2).
Proof. destruct r as [[[] ?] ?]; cbn; intros E; try discriminate. by injection E as ->. Qed.

Lemma syscall_registers_witness : piped.1.2.[0] = 0 /\ piped.1.2.[18] = NPK_USER_STACK_TOP - 64.
Proof.
  assert (E : result_of piped = Some 0) by (vm_compute; reflexivity).
  destruct (syscall_registers 0xffffffff80001000 tick tick 100 tick_quiet tick_quiet ready_user (call_raw NPK_SYS_PIPE (edge - 64) 0 0) 0 piped.1.2 piped.2 started_in_order) as [H0 Hr];
    [apply (bool_decide_eq_true_1 _); vm_compute; reflexivity|exact (split_answer piped 0 E)|]. split; [exact H0|]. rewrite (Hr 18 ltac:(lia)). vm_compute. reflexivity.
Defined.

(** ** References *)

(** No process has a descriptor of the VFS: a check that can be evaluated. *)
Definition outside (h : Z) : bool := h <? OPEN_DESCRIPTOR_BASE.
Definition none_open (s : proc kernel) : bool :=
  forallb (fun i => forallb (fun j => outside (pr_fds (p_processes s).[i]).[j]) (seqZ 0 NPK_MAX_FDS) && (pr_incoming_fd_count (p_processes s).[i] =? 0) &&
                    forallb outside (handles_of (pr_mm (p_processes s).[i]))) (seqZ 0 NPK_MAX_PROCESSES).

Lemma outside_ref h fd : outside h = true -> in_table fd -> ref h fd = 0.
Proof. unfold outside, ref, in_table. intros H [H1 _]. by replace (h =? fd) with false by lia. Qed.

Lemma none_open_held s fd : none_open s = true -> in_table fd -> held s fd = 0.
Proof.
  intros H Ht. apply sumz_zero. intros i Hi. unfold none_open in H. rewrite forallb_forall in H. specialize (H i). rewrite <-list_elem_of_In, elem_of_seqZ in H. specialize (H ltac:(lia)).
  apply andb_prop in H as [[Hf Hc]%andb_prop Hm]. unfold process_refs. rewrite (sumz_zero (fun j => ref (pr_fds _).[j] fd)).
  - replace (pr_incoming_fd_count (p_processes s).[i]) with 0 by lia. cbn [sumz Z.to_nat]. induction (handles_of _) as [|h l IH]; [done|]. apply andb_prop in Hm as [Hh Hl]. cbn. rewrite outside_ref by done. specialize (IH Hl). lia.
  - intros j Hj. apply outside_ref; [|done]. rewrite forallb_forall in Hf. apply Hf. rewrite <-list_elem_of_In, elem_of_seqZ. unfold NPK_MAX_FDS in *. lia.
Qed.

Lemma ready_accounted : accounted [] (y_proc ready_user).
Proof.
  assert (Hn : none_open (y_proc ready_user) = true) by (vm_compute; reflexivity).
  assert (Hc : bool_decide (map_Forall (fun _ q => 0 <= pr_incoming_fd_count q) (a_cells (p_processes (y_proc ready_user)))) = true) by (vm_compute; reflexivity).
  assert (Hd : 0 <= pr_incoming_fd_count (a_default (p_processes (y_proc ready_user)))) by (vm_compute; discriminate).
  assert (Hp : process_current (y_proc ready_user) = Some 1) by (vm_compute; reflexivity).
  assert (He : let k := p_env (y_proc ready_user) in v_files k = afill zero_desc /\ v_pipes k = ∅ /\ v_epolls k = ∅ /\ v_shms k = ∅ /\ v_pdata k = ∅) by (vm_compute; by split_and!).
  revert Hn Hc Hd Hp He. generalize (y_proc ready_user). intros s Hn Hc Hd Hp He. constructor.
  - destruct (p_env s) as [files initrd npk pipes epolls shms pdata env]. cbn in He. destruct He as (-> & -> & -> & -> & ->). eapply inv_own_ext; [|apply init_inv]. intros fd Ht. cbn. by rewrite none_open_held.
  - intros p. unfold aget. destruct (a_cells (p_processes s) !! p) as [q|] eqn:E; [|exact Hd]. apply bool_decide_eq_true_1 in Hc. exact (Hc p q E).
  - intros p. rewrite Hp. intros [= <-]. done.
Qed.

Lemma tick_careful : careful tick.
Proof. intros y. apply accounted_apart, apart_beside. by apply beside_platform. Qed.

(** A pipe is made, the message goes through it, and both ends are closed. *)
Definition call_on (y : sys) (nr a b c : Z) : outcome * sys := run (syscall_dispatch 0xffffffff80001000 tick tick 100) (y <| y_frame := frame_of_raw (call_raw nr a b c) |>).
Definition holds_pipe := call_on ready_user NPK_SYS_PIPE (edge - 64) 0 0.
Definition half_closed := call_on holds_pipe.2 NPK_SYS_CLOSE 3 0 0.
Definition broken_pipe := call_on half_closed.2 NPK_SYS_WRITE 4 edge 4.

Definition answered (r : outcome * sys) : option Z := match r.1 with Answer v => Some v | _ => None end.

Lemma half_closed_run : answered holds_pipe = Some 0 /\ answered half_closed = Some 0 /\ answered broken_pipe = Some (u64 (-32)).
Proof. vm_compute. repeat split. Qed.

(** The end that is left has one reference, and the process holds it. *)
Lemma file_calls_accounted_witness : accounted [] (y_proc broken_pipe.2) /\ held (y_proc broken_pipe.2) OPEN_DESCRIPTOR_BASE + held (y_proc broken_pipe.2) (OPEN_DESCRIPTOR_BASE + 1) = 1.
Proof.
  assert (P : forall y nr a b c v, accounted [] (y_proc y) -> bool_decide (nr ∈ file_calls) = true -> in_u64 a -> in_u64 b -> answered (call_on y nr a b c) = Some v ->
    accounted [] (y_proc (call_on y nr a b c).2)).
  { intros y nr a b c v Ha Hn H1 H2 Hv. destruct (call_on y nr a b c) as [o y'] eqn:E. destruct o as [r| | |]; try discriminate. cbn [snd].
    apply (file_calls_accounted 0xffffffff80001000 tick tick 100 (y <| y_frame := frame_of_raw (call_raw nr a b c) |>) r y' tick_careful tick_careful); try done. by apply (bool_decide_eq_true_1 (nr ∈ file_calls)). }
  split; [|vm_compute; reflexivity]. unfold broken_pipe. eapply P; [|reflexivity|done|vm_compute; by split|vm_compute; reflexivity]. unfold half_closed. eapply P; [|reflexivity|done|done|vm_compute; reflexivity].
  unfold holds_pipe. eapply P; [apply ready_accounted|reflexivity|vm_compute; by split|done|vm_compute; reflexivity].
Defined.
